(* ===== verification/_CoqProject ===== *)
-Q . S2P
Prelude.v
Steps.v
Error.v
Time.v
Codec.v
Btree.v
Ranges.v
Window.v
FlowControl.v
RangeBuf.v
RecvBuf.v
SendBuf.v
Concurrency.v
Events.v
Stream.v
StreamMap.v
StreamMapProps.v
SendQueue.v
ConnectionId.v
Wire.v
PacketNum.v
Packet.v
Protect.v
Frame.v
FrameProps.v
Cid.v
CidProps.v
Http3.v
PrefixInt.v
HuffmanTable.v
Huffman.v
StaticTable.v
Qpack.v
H3Frame.v
Rtt.v
Float64.v
Space.v
Pacing.v
Congestion.v
Recovery.v
RecoveryProps.v
TransParam.v
Pmtu.v
Path.v
PathProps.v
Timers.v
Tls.v
Scheduler.v
SchedulerProps.v
Connection.v
ConnRecv.v
ConnSend.v
ConnQuery.v
ConnSample.v
ConnSteps.v
ConnHistory.v
ConnPayload.v
ConnDeliver.v
H3Stream.v
H3StreamProps.v
H3Transport.v
