(* ===== verification/Prelude.v ===== *)
(** * Verification of the TQUIC core

    TQUIC (src/) is a QUIC and HTTP/3 library.  An endpoint hands the datagrams it
    receives to connections and asks them for datagrams to send; a connection
    composes packet parsing and protection, packet number spaces, loss recovery and
    congestion control, paths, connection ids, streams with flow control, a TLS
    session and timers; HTTP/3 runs on its streams.  This library translates that
    code into Rocq functions and proves what makes it correct.

    ** Conventions

    A Rust call ends in [Ok], [Err] or [Panic] ([outcome]).  Integers are [Z] with the
    width of the source written out: [add64] and [sub64] panic beyond 64 bits,
    [sat_add64] saturates, [wrap] truncates.  Durations and instants are nanoseconds.
    Code that moves through a buffer is a [cursor], whose state is dropped on failure;
    code that changes an object is an [action], whose state survives an error.  Vec and
    VecDeque are lists, BTreeMap is a sorted association list (Btree.v), HashMap a
    [gmap]; a map whose iteration order shows in the behaviour is iterated in key order.
    The clock, random bytes and the slot of a new entry in a slab are arguments.
    Log output, qlog, trace ids and application contexts are left out.

    ** Files

    - Prelude.v: outcomes, monads, machine integers, byte lists, the tactics [arun],
      [crun], [ainv], [cinv], [zcase], [evaluate] and the hint databases.  Steps.v:
      [steps R m], that an action relates every state to the one it leaves, with the
      tactic [steps] that composes it.  Error.v, Time.v, Float64.v, Btree.v: error codes
      (error.rs), Duration and Instant, IEEE binary64 on Rocq's specification of it,
      and ordered maps.
    - Codec.v (codec.rs), Wire.v (lemmas on encoders and decoders), ConnectionId.v
      (lib.rs), PacketNum.v, Packet.v (packet.rs), Protect.v (packet.rs and
      tls/boringssl/crypto.rs), Frame.v, FrameProps.v (frame.rs), TransParam.v
      (trans_param.rs): the wire formats.
    - Ranges.v (ranges.rs), Window.v (window.rs), FlowControl.v, RangeBuf.v, RecvBuf.v,
      SendBuf.v, Concurrency.v, Stream.v, StreamMap.v, StreamMapProps.v, SendQueue.v
      (connection/flowcontrol.rs and connection/stream/), Events.v (lib.rs): streams.
    - Cid.v, CidProps.v (connection/cid.rs), Path.v, PathProps.v (connection/path.rs),
      Pmtu.v (connection/pmtu.rs), Scheduler.v, SchedulerProps.v
      (multipath_scheduler/), Timers.v (connection/timer.rs, timer_queue.rs).
    - Rtt.v (connection/rtt.rs), Space.v (connection/space.rs), Pacing.v, Congestion.v
      (congestion_control/), Recovery.v, RecoveryProps.v (connection/recovery.rs): loss
      recovery over any congestion controller.
    - Tls.v (tls/): keys, the TLS session and key updates.
    - Connection.v (connection/connection.rs, handshake.rs, query.rs), ConnRecv.v
      (recv.rs), ConnSend.v (send.rs), ConnQuery.v (query.rs, dgram.rs): the connection;
      ConnSample.v: sample backends and a handshake between two connections run by
      evaluation; ConnSteps.v: the relation [evolves] between the states before and
      after every operation; ConnHistory.v: what holds over any history of calls.
    - Http3.v, PrefixInt.v, HuffmanTable.v, Huffman.v, StaticTable.v, Qpack.v, H3Frame.v,
      H3Stream.v, H3StreamProps.v, H3Transport.v (h3/): HTTP/3 streams and QPACK.

    ** What is a parameter

    Code that is not in src/ enters through type classes with the laws the code relies
    on: [Aead] with [AeadLaws] (BoringSSL's ciphers), [CryptoBackend] (HKDF of ring, keys),
    [TlsBackend] (BoringSSL's handshake, as a dialogue with its callbacks),
    [DoublePriorityQueue] with [LawfulQueue] (the crate priority_queue); [Platform] holds
    the slab's next key and the constructor of the configured congestion controller.
    [CongestionController] with [LawfulController] is the trait of the sources, and
    [StreamSource] with [LawfulSource] is what HTTP/3 needs of a connection.  Each is
    instantiated by a concrete one where a theorem is shown to apply.

    ** What the theorems show

    - Connections: packet numbers and nonces are never reused
      ([packet_numbers_never_reused]), no packet is processed twice
      ([packet_processed_once]), closing is final and ends ([draining_is_final]), the
      idle timer is restarted by sending only once ([idle_timer_restarted_once]).
    - Streams: data is reassembled in order whatever arrives ([recv_reassembles]), sent
      bytes are what was written and are dropped only when acknowledged
      ([send_history_safe]), credit is respected, ids are not reused, the sendable
      queue is fair; two defects of a stream that is shut down.
    - Loss recovery: bytes in flight, no frame is forgotten, exactly the packets beyond
      the thresholds are lost, the timer is armed, the scan of ACK ranges is equivalent
      to testing each packet; a defect in the accounting of late acknowledgements.
    - Paths, ids and schedulers: the anti-amplification limit, path validation, the search
      for the MTU, connection ids over any history, the choice of a path.
    - Wire formats: round trips of frames, headers, packet numbers, transport parameters,
      protected packets, QPACK sections and HTTP/3 frames, and that decoders neither
      panic nor accept what is out of range.
    - HTTP/3 control streams: the incremental parser over any sequence of packets agrees
      with one that has all bytes at once.

    ** Fuel

    Loops that are not structural take fuel and panic without it.  The fuel is the
    length of the list consumed (frames of a payload, packets of a datagram: each takes
    at least a byte) or a bound proved next to the loop; [retire_loop_diverges] is a loop
    for which no fuel is enough.  [ConnRecv.recv] takes its fuel as an argument, as
    packets that waited for keys are processed by nested calls; the theorems hold for any
    fuel.

    ** Not modelled

    The other congestion controllers, the endpoint, tokens and the HTTP/3 connection; the
    bindings to BoringSSL, certificates, the C interface, qlog and the tokio adapter, which
    are input and output around the code modelled here; h3/qpack/dynamic_table.rs, which
    is not part of the crate's module tree. *)

From Stdlib Require Export ZArith Lia.
From stdpp Require Export base tactics numbers option list sorting.

#[global] Open Scope Z_scope.

(** ** Outcomes of Rust code

    A Rust call ends in one of three ways: a value, an [Err] of the function's
    error type, or a panic.  [Panic] covers [unreachable!()], [unwrap] on
    [None], an index out of range and an arithmetic overflow.  A build without
    overflow checks wraps around instead of panicking; a run that never reaches
    [Panic] is the same in both builds. *)

Inductive outcome (E A : Type) : Type :=
| Ok (a : A)
| Err (e : E)
| Panic.
Arguments Ok {_ _} _.
Arguments Err {_ _} _.
Arguments Panic {_ _}.

#[global] Instance outcome_ret E : MRet (outcome E) := fun _ a => Ok a.
#[global] Instance outcome_bind E : MBind (outcome E) := fun _ _ f m =>
  match m with
  | Ok a => f a
  | Err e => Err e
  | Panic => Panic
  end.
#[global] Instance outcome_fmap E : FMap (outcome E) := fun _ _ f m =>
  match m with
  | Ok a => Ok (f a)
  | Err e => Err e
  | Panic => Panic
  end.

(** [ok_or e o] is Rust's [o.ok_or(e)?]; [unwrap o] panics on [None]. *)
Definition ok_or {E A} (e : E) (o : option A) : outcome E A :=
  match o with Some a => Ok a | None => Err e end.
Definition unwrap {E A} (o : option A) : outcome E A :=
  match o with Some a => Ok a | None => Panic end.
Definition is_ok {E A} (m : outcome E A) : bool :=
  match m with Ok _ => true | _ => false end.
Definition no_panic {E A} (m : outcome E A) : Prop := m <> Panic.

Lemma bind_Ok {E A B} (m : outcome E A) (f : A -> outcome E B) b :
  (m ≫= f) = Ok b <-> exists a, m = Ok a /\ f a = Ok b.
Proof.
  split.
  - destruct m; cbn; intros; try discriminate; eauto.
  - intros (a & -> & H). exact H.
Qed.

Lemma bind_no_panic {E A B} (m : outcome E A) (f : A -> outcome E B) :
  no_panic m -> (forall a, m = Ok a -> no_panic (f a)) -> no_panic (m ≫= f).
Proof. unfold no_panic. destruct m; cbn; intros; auto; discriminate. Qed.

(** A computation over a state that is dropped on failure: the local [&[u8]]
    or [&mut [u8]] cursors of the codec. *)
Definition cursor (E S A : Type) : Type := S -> outcome E (A * S).

#[global] Instance cursor_ret E S : MRet (cursor E S) := fun _ a s => Ok (a, s).
#[global] Instance cursor_bind E S : MBind (cursor E S) := fun _ _ f m s =>
  match m s with
  | Ok (a, s') => f a s'
  | Err e => Err e
  | Panic => Panic
  end.

Definition cfail {E S A} (e : E) : cursor E S A := fun _ => Err e.
Definition cpanic {E S A} : cursor E S A := fun _ => Panic.
Definition cget {E S} : cursor E S S := fun s => Ok (s, s).
Definition cmodify {E S} (f : S -> S) : cursor E S unit := fun s => Ok (tt, f s).
Definition clift {E S A} (m : outcome E A) : cursor E S A := fun s =>
  match m with Ok a => Ok (a, s) | Err e => Err e | Panic => Panic end.

Lemma cursor_bind_ok {E S A B} (m : cursor E S A) (f : A -> cursor E S B) s a s' :
  m s = Ok (a, s') -> (m ≫= f) s = f a s'.
Proof. unfold mbind, cursor_bind. intros ->. reflexivity. Qed.

Lemma cursor_bind_inv {E S A B} (m : cursor E S A) (f : A -> cursor E S B) s r :
  (m ≫= f) s = Ok r -> exists a s', m s = Ok (a, s') /\ f a s' = Ok r.
Proof.
  unfold mbind, cursor_bind. destruct (m s) as [[a s']| |]; try discriminate. eauto.
Qed.

Lemma cursor_bind_no_panic {E S A B} (m : cursor E S A) (f : A -> cursor E S B) s :
  no_panic (m s) -> (forall a s', m s = Ok (a, s') -> no_panic (f a s')) ->
  no_panic ((m ≫= f) s).
Proof.
  unfold no_panic, mbind, cursor_bind.
  destruct (m s) as [[a s']| |]; intros; auto; discriminate.
Qed.

(** A [&mut self] operation: the state survives an error, so that what was
    changed before the error is still there afterwards. *)
Definition action (E S A : Type) : Type := S -> outcome E A * S.

#[global] Instance action_ret E S : MRet (action E S) := fun _ a s => (Ok a, s).
#[global] Instance action_bind E S : MBind (action E S) := fun _ _ f m s =>
  match m s with
  | (Ok a, s') => f a s'
  | (Err e, s') => (Err e, s')
  | (Panic, s') => (Panic, s')
  end.

Definition fail {E S A} (e : E) : action E S A := fun s => (Err e, s).
Definition panic {E S A} : action E S A := fun s => (Panic, s).
Definition get {E S} : action E S S := fun s => (Ok s, s).
Definition gets {E S A} (f : S -> A) : action E S A := fun s => (Ok (f s), s).
Definition modify {E S} (f : S -> S) : action E S unit := fun s => (Ok tt, f s).
Definition lift {E S A} (m : outcome E A) : action E S A := fun s => (m, s).

Definition when {E S} (b : bool) (m : action E S unit) : action E S unit := if b then m else mret tt.

(** [for x in l { f(x)? }] *)
Fixpoint for_each {E S A} (f : A -> action E S unit) (l : list A) : action E S unit :=
  match l with
  | [] => mret tt
  | x :: l => f x ≫= fun _ => for_each f l
  end.

(** Run an action on a component of the state. *)
Definition zoom {E S T A} (proj : S -> T) (upd : T -> S -> S) (m : action E T A) : action E S A :=
  fun s => let '(r, t) := m (proj s) in (r, upd t s).

Lemma action_bind_ok {E S A B} (m : action E S A) (f : A -> action E S B) s a s' :
  m s = (Ok a, s') -> (m ≫= f) s = f a s'.
Proof. unfold mbind, action_bind. intros ->. reflexivity. Qed.

Lemma action_bind_inv {E S A B} (m : action E S A) (f : A -> action E S B) s b s' :
  (m ≫= f) s = (Ok b, s') -> exists a s1, m s = (Ok a, s1) /\ f a s1 = (Ok b, s').
Proof. unfold mbind, action_bind. destruct (m s) as [[a| |] s1]; intros; simplify_eq; eauto. Qed.

(** The value of a computation that is known to succeed. *)
Definition get_ok {E A} (r : outcome E A) : (match r with Ok _ => True | _ => False end) -> A :=
  match r with Ok a => fun _ => a | _ => fun H => match H with end end.

Lemma get_ok_eq {E A} (r : outcome E A) H : r = Ok (get_ok r H).
Proof. by destruct r. Qed.

Lemma ok_or_inv {E A} (e : E) (o : option A) a : ok_or e o = Ok a -> o = Some a.
Proof. destruct o; cbn; congruence. Qed.

Lemma lift_inv {E S A} (m : outcome E A) (s s' : S) a : lift m s = (Ok a, s') -> m = Ok a /\ s' = s.
Proof. unfold lift. by intros [= -> ->]. Qed.

Lemma get_inv {E S} (s s' a : S) : (get : action E S S) s = (Ok a, s') -> a = s /\ s' = s.
Proof. by intros [= -> ->]. Qed.

(** ** Sorted lists *)

Lemma StronglySorted_snoc {A} (R : A -> A -> Prop) l x :
  StronglySorted R l -> Forall (fun y => R y x) l -> StronglySorted R (l ++ [x]).
Proof.
  induction 1 as [|y l Hl IH Hy]; cbn; intros Hx; [by repeat constructor|].
  apply Forall_cons in Hx as [Hxy Hx]. constructor; [auto|]. apply Forall_app. auto.
Qed.

(** ** Machine integers

    Unsigned integers are [Z] values below a power of two.  [add64] and
    [sub64] are the checked [+] and [-] of Rust on [u64]/[usize]; [wrap w] is
    the [as] cast to [w] bits. *)

Definition U8 : Z := 2 ^ 8.
Definition U16 : Z := 2 ^ 16.
Definition U32 : Z := 2 ^ 32.
Definition U64 : Z := 2 ^ 64.
Definition U128 : Z := 2 ^ 128.

Definition wrap (w n : Z) : Z := n mod 2 ^ w.

Definition is_u8 (n : Z) : Prop := 0 <= n < 256.
Definition is_u32 (n : Z) : Prop := 0 <= n < 4294967296.
Definition is_u64 (n : Z) : Prop := 0 <= n < 18446744073709551616.
Definition bytes_ok (l : list Z) : Prop := Forall is_u8 l.

Definition add64 {E} (a b : Z) : outcome E Z :=
  if a + b <? 18446744073709551616 then Ok (a + b) else Panic.
Definition sub64 {E} (a b : Z) : outcome E Z :=
  if b <=? a then Ok (a - b) else Panic.
Definition mul64 {E} (a b : Z) : outcome E Z :=
  if a * b <? 18446744073709551616 then Ok (a * b) else Panic.
Definition sat_add64 (a b : Z) : Z := Z.min (a + b) 18446744073709551615.
Definition sat_sub (a b : Z) : Z := Z.max 0 (a - b).

Lemma add64_ok {E} a b : a + b < 18446744073709551616 -> @add64 E a b = Ok (a + b).
Proof. intros. unfold add64. destruct (Z.ltb_spec (a + b) 18446744073709551616); [done|lia]. Qed.
Lemma sub64_ok {E} a b : b <= a -> @sub64 E a b = Ok (a - b).
Proof. intros. unfold sub64. destruct (Z.leb_spec b a); [done|lia]. Qed.
Lemma add64_inv {E} a b c : @add64 E a b = Ok c -> c = a + b /\ c < 18446744073709551616.
Proof. unfold add64. destruct (Z.ltb_spec (a + b) 18446744073709551616); naive_solver lia. Qed.
Lemma sub64_inv {E} a b c : @sub64 E a b = Ok c -> c = a - b /\ b <= a.
Proof. unfold sub64. destruct (Z.leb_spec b a); naive_solver lia. Qed.

(** ** Lists indexed by [Z] *)

Definition len {A} (l : list A) : Z := Z.of_nat (length l).
Definition ztake {A} (n : Z) (l : list A) : list A := take (Z.to_nat n) l.
Definition zdrop {A} (n : Z) (l : list A) : list A := drop (Z.to_nat n) l.

#[global] Arguments len : simpl never.
#[global] Arguments ztake : simpl never.
#[global] Arguments zdrop : simpl never.

Lemma len_nonneg {A} (l : list A) : 0 <= len l.
Proof. unfold len. lia. Qed.
Lemma len_nil {A} : len (@nil A) = 0.
Proof. reflexivity. Qed.
Lemma len_cons {A} (x : A) l : len (x :: l) = 1 + len l.
Proof. unfold len. cbn [length]. lia. Qed.
Lemma len_app {A} (l k : list A) : len (l ++ k) = len l + len k.
Proof. unfold len. rewrite length_app. lia. Qed.
Lemma len_zero_nil {A} (l : list A) : len l = 0 -> l = [].
Proof. unfold len. destruct l; cbn; [done|lia]. Qed.
Lemma len_ztake {A} n (l : list A) : 0 <= n <= len l -> len (ztake n l) = n.
Proof. unfold len, ztake. rewrite length_take. lia. Qed.
Lemma len_zdrop {A} n (l : list A) : 0 <= n <= len l -> len (zdrop n l) = len l - n.
Proof. unfold len, zdrop. rewrite length_drop. lia. Qed.
Lemma ztake_zdrop {A} n (l : list A) : ztake n l ++ zdrop n l = l.
Proof. apply take_drop. Qed.
Lemma ztake_app_len {A} (l k : list A) : ztake (len l) (l ++ k) = l.
Proof. unfold ztake, len. rewrite Nat2Z.id. apply take_app_length. Qed.
Lemma zdrop_app_len {A} (l k : list A) : zdrop (len l) (l ++ k) = k.
Proof. unfold zdrop, len. rewrite Nat2Z.id. apply drop_app_length. Qed.
Lemma ztake_app {A} n (l k : list A) : n = len l -> ztake n (l ++ k) = l.
Proof. intros ->. apply ztake_app_len. Qed.
Lemma zdrop_app {A} n (l k : list A) : n = len l -> zdrop n (l ++ k) = k.
Proof. intros ->. apply zdrop_app_len. Qed.

Lemma bytes_ok_app l k : bytes_ok (l ++ k) <-> bytes_ok l /\ bytes_ok k.
Proof. apply Forall_app. Qed.
Lemma bytes_ok_ztake n l : bytes_ok l -> bytes_ok (ztake n l).
Proof. apply Forall_take. Qed.
Lemma bytes_ok_zdrop n l : bytes_ok l -> bytes_ok (zdrop n l).
Proof. apply Forall_drop. Qed.

(** ** Tactics and hints *)

(** Case analysis on every boolean integer comparison in sight, each replaced
    by the proposition it decides. *)
Ltac zcase :=
  repeat match goal with
  | |- context [ (?a <? ?b)%Z ] => destruct (Z.ltb_spec a b)
  | |- context [ (?a <=? ?b)%Z ] => destruct (Z.leb_spec a b)
  | |- context [ (?a =? ?b)%Z ] => destruct (Z.eqb_spec a b)
  end.

Ltac zcase_in H :=
  repeat match type of H with
  | context [ (?a <? ?b)%Z ] => destruct (Z.ltb_spec a b)
  | context [ (?a <=? ?b)%Z ] => destruct (Z.leb_spec a b)
  | context [ (?a =? ?b)%Z ] => destruct (Z.eqb_spec a b)
  end.

(** Unfold one layer of the cursor monad. *)
Ltac crun :=
  unfold mbind, cursor_bind, mret, cursor_ret, cfail, cpanic, cget, cmodify, clift; cbn.

(** Unfold one layer of the action monad. *)
Ltac arun :=
  unfold mbind, action_bind, mret, action_ret, fail, panic, get, gets, modify, lift; cbn.

(** Open a monadic run that is known to succeed. *)
Ltac cinv H :=
  let a := fresh "a" in let s := fresh "s" in let E := fresh "E" in
  apply cursor_bind_inv in H; destruct H as (a & s & E & H).

(** Open the first step of an action that is known to succeed. *)
Ltac ainv H :=
  let a := fresh "a" in let s := fresh "s" in let E := fresh "E" in
  apply action_bind_inv in H; destruct H as (a & s & E & H);
  lazymatch type of E with
  | lift _ _ = _ => apply lift_inv in E; destruct E as [E ->]
  | get _ = _ => apply get_inv in E; destruct E as [-> ->]
  | _ => idtac
  end.

(** Close an equation whose left side computes. *)
Ltac evaluate :=
  match goal with |- ?l = _ => let v := eval vm_compute in l in transitivity v; [vm_cast_no_check (eq_refl v)|reflexivity] end.

Create HintDb tquic.
Create Rewrite HintDb len.
#[export] Hint Resolve len_nonneg bytes_ok_ztake bytes_ok_zdrop : tquic.
#[export] Hint Rewrite @len_nil @len_cons @len_app : len.
