(* ===== verification/Steps.v ===== *)
(** * What an action may do to the state

    [steps R m] says that [m] relates every state to the one it leaves behind,
    whether it succeeds, fails or panics.  For a preorder [R] the property is
    closed under the operations of the monad, so that a relation proved of the
    small operations carries over to whatever is composed of them; the tactic
    [steps] does that composition. *)

From S2P Require Import Prelude.

Definition steps {E S A} (R : S -> S -> Prop) (m : action E S A) : Prop := forall s, R s (m s).2.

Lemma steps_of {E S A} {R : S -> S -> Prop} {m : action E S A} {s r s'} : steps R m -> m s = (r, s') -> R s s'.
Proof. intros Hm E1. specialize (Hm s). by rewrite E1 in Hm. Qed.

Create HintDb steps.

Section Steps.
Context {E S : Type} (R : S -> S -> Prop) `{!PreOrder R}.

Lemma steps_refl s : R s s.
Proof. reflexivity. Qed.

Lemma steps_ret {A} (a : A) : steps R (mret a : action E S A).
Proof. intros s. apply steps_refl. Qed.
Lemma steps_fail {A} (e : E) : steps R (fail e : action E S A).
Proof. intros s. apply steps_refl. Qed.
Lemma steps_panic {A} : steps R (panic : action E S A).
Proof. intros s. apply steps_refl. Qed.
Lemma steps_get : steps R (get : action E S S).
Proof. intros s. apply steps_refl. Qed.
Lemma steps_gets {A} (f : S -> A) : steps R (gets f : action E S A).
Proof. intros s. apply steps_refl. Qed.
Lemma steps_lift {A} (m : outcome E A) : steps R (lift m : action E S A).
Proof. intros s. apply steps_refl. Qed.
Lemma steps_modify (f : S -> S) : (forall s, R s (f s)) -> steps R (modify f : action E S unit).
Proof. intros Hf s. apply Hf. Qed.

Lemma steps_bind {A B} (m : action E S A) (k : A -> action E S B) :
  steps R m -> (forall a, steps R (k a)) -> steps R (m ≫= k).
Proof.
  intros Hm Hk s. unfold mbind, action_bind. specialize (Hm s). destruct (m s) as [[a|e|] s']; cbn in *; try done.
  etrans; [done|apply Hk].
Qed.

(** After [get] the value is the state itself. *)
Lemma steps_bind_get {B} (k : S -> action E S B) : (forall s, R s (k s s).2) -> steps R (get ≫= k).
Proof. intros Hk s. apply Hk. Qed.

Lemma steps_when (b : bool) (m : action E S unit) : steps R m -> steps R (when b m).
Proof. intros Hm. destruct b; [done|apply steps_ret]. Qed.

Lemma steps_for_each {A} (f : A -> action E S unit) l : (forall x, steps R (f x)) -> steps R (for_each f l).
Proof. intros Hf. induction l; cbn; [apply steps_ret|by apply steps_bind]. Qed.

End Steps.

(** A part of the state that steps by [Q] makes the whole step by [R]. *)
Lemma steps_zoom {E S T A} (R : S -> S -> Prop) (Q : T -> T -> Prop) (proj : S -> T) (upd : T -> S -> S)
    (m : action E T A) :
  (forall s t, Q (proj s) t -> R s (upd t s)) -> steps Q m -> steps R (zoom proj upd m).
Proof. intros HR Hm s. unfold zoom. specialize (Hm (proj s)). destruct (m (proj s)) as [r t]. by apply HR. Qed.

(** Relations between states that differ in what [proj] leaves out. *)
#[global] Instance preorder_on {S T} (proj : S -> T) (Q : T -> T -> Prop) `{!PreOrder Q} :
  PreOrder (fun s s' => Q (proj s) (proj s')).
Proof. split; [intros s; reflexivity|intros s s' s''; apply transitivity]. Qed.

Lemma preorder_true {S} : PreOrder (fun _ _ : S => True).
Proof. split; done. Qed.

(** An invariant, as a relation. *)
Definition keeps {S} (P : S -> Prop) (s s' : S) : Prop := P s -> P s'.
#[global] Instance keeps_preorder {S} (P : S -> Prop) : PreOrder (keeps P).
Proof. split; unfold keeps; [intros s; tauto|intros s s' s''; tauto]. Qed.

(** Descend through an action; [eauto] finishes what is known of its parts. *)
Ltac steps_step :=
  lazymatch goal with
  | |- steps _ (mret _) => apply steps_ret
  | |- steps _ (fail _) => apply steps_fail
  | |- steps _ panic => apply steps_panic
  | |- steps _ get => apply steps_get
  | |- steps _ (gets _) => apply steps_gets
  | |- steps _ (lift _) => apply steps_lift
  | |- steps _ (when _ _) => apply steps_when
  | |- steps _ (for_each _ _) => apply steps_for_each
  | |- steps _ (_ ≫= _) => apply steps_bind
  | |- steps _ (if ?b then _ else _) => destruct b eqn:?
  | |- steps _ (match ?x with _ => _ end) => destruct x eqn:?
  | |- PreOrder _ => typeclasses eauto
  | |- forall _, _ => intros ?
  | |- _ => solve [eauto with steps]
  end.

Ltac steps := intros; repeat (first [solve [eauto with steps] | steps_step]).
