(* ===== verification/Error.v ===== *)
(** * QUIC error values (src/src/error.rs)

    [Error] has the constructors of the Rust enum in their order; [to_wire] and
    [to_errno] are its two numeric renderings.  Every other component returns
    its failures in this type. *)

From stdpp Require Import strings.
From S2P Require Import Prelude.

Inductive Error : Type :=
| NoError
| InternalError
| ConnectionRefused
| FlowControlError
| StreamLimitError
| StreamStateError
| FinalSizeError
| FrameEncodingError
| TransportParameterError
| ConnectionIdLimitError
| ProtocolViolation
| InvalidToken
| ApplicationError
| CryptoBufferExceeded
| KeyUpdateError
| AeadLimitReached
| NoViablePath
| CryptoError (v : Z)
| MultipathProtocolViolation
| Done
| BufferTooShort
| UnknownVersion
| InvalidPacket
| InvalidState (s : string)
| InvalidOperation (s : string)
| InvalidConfig (s : string)
| ExpiredToken
| CryptoFail
| TlsFail (s : string)
| StreamStopped (e : Z)
| StreamReset (e : Z)
| IoError (s : string).

#[global] Instance Error_eq_dec : EqDecision Error.
Proof. solve_decision. Defined.

Abbreviation res := (outcome Error).

(** The wire value carried by CONNECTION_CLOSE. *)
Definition to_wire (e : Error) : Z :=
  match e with
  | NoError => 0x0
  | InternalError => 0x1
  | ConnectionRefused => 0x2
  | FlowControlError => 0x3
  | StreamLimitError => 0x4
  | StreamStateError => 0x5
  | FinalSizeError => 0x6
  | FrameEncodingError => 0x7
  | TransportParameterError => 0x8
  | ConnectionIdLimitError => 0x9
  | ProtocolViolation => 0x0a
  | InvalidToken => 0x0b
  | ApplicationError => 0x0c
  | CryptoBufferExceeded => 0x0d
  | KeyUpdateError => 0x0e
  | AeadLimitReached => 0x0f
  | NoViablePath => 0x10
  | CryptoError v => v
  | MultipathProtocolViolation => 0x1001d76d3ded42f3
  | _ => 0x0
  end.

(** The error number given to a C caller. *)
Definition to_errno (e : Error) : Z :=
  match e with
  | NoError => 0
  | InternalError => -1
  | ConnectionRefused => -2
  | FlowControlError => -3
  | StreamLimitError => -4
  | StreamStateError => -5
  | FinalSizeError => -6
  | FrameEncodingError => -7
  | TransportParameterError => -8
  | ConnectionIdLimitError => -9
  | ProtocolViolation => -10
  | InvalidToken => -11
  | ApplicationError => -12
  | CryptoBufferExceeded => -13
  | KeyUpdateError => -14
  | AeadLimitReached => -15
  | NoViablePath => -16
  | CryptoError _ => -17
  | MultipathProtocolViolation => -18
  | Done => -100
  | BufferTooShort => -101
  | UnknownVersion => -102
  | InvalidPacket => -103
  | InvalidState _ => -104
  | InvalidOperation _ => -105
  | InvalidConfig _ => -106
  | ExpiredToken => -107
  | CryptoFail => -108
  | TlsFail _ => -109
  | StreamStopped _ => -110
  | StreamReset _ => -111
  | IoError _ => -112
  end.

(** Private errors, from [Done] on, have no code of their own on the wire. *)
Lemma to_wire_private e : to_errno e <= -100 -> to_wire e = 0.
Proof. destruct e; cbn; lia || reflexivity. Qed.
