(* ===== verification/Time.v ===== *)
(** * Time

    The part of [std::time] the program uses.  A [Duration] is its length in
    nanoseconds, at most [u64::MAX] seconds and 999,999,999 nanoseconds; an
    [Instant] is the time since an arbitrary origin. *)

From S2P Require Import Prelude.
From S2P Require Import Error.

Abbreviation Duration := Z (only parsing).
Abbreviation Instant := Z (only parsing).

Definition NANOS_PER_SEC : Z := 1000000000.
Definition DURATION_LIMIT : Z := 18446744073709551616 * NANOS_PER_SEC.

Definition from_secs (n : Z) : Duration := n * NANOS_PER_SEC.
Definition from_millis (n : Z) : Duration := n * 1000000.
Definition from_micros (n : Z) : Duration := n * 1000.

(** [d * n], [d + e] and [d - e] panic when the result is out of range. *)
Definition dur_mul (d : Duration) (n : Z) : res Duration :=
  if d * n <? DURATION_LIMIT then Ok (d * n) else Panic.
Definition dur_add (d e : Duration) : res Duration :=
  if d + e <? DURATION_LIMIT then Ok (d + e) else Panic.
Definition dur_sub (d e : Duration) : res Duration :=
  if e <=? d then Ok (d - e) else Panic.

(** [now - earlier] on instants, which saturates at zero. *)
Definition since (now earlier : Instant) : Duration := sat_sub now earlier.

Definition is_duration (d : Duration) : Prop := 0 <= d < DURATION_LIMIT.

Lemma dur_mul_ok d n : d * n < DURATION_LIMIT -> dur_mul d n = Ok (d * n).
Proof. intros. unfold dur_mul. zcase; [done|lia]. Qed.
Lemma dur_add_ok d e : d + e < DURATION_LIMIT -> dur_add d e = Ok (d + e).
Proof. intros. unfold dur_add. zcase; [done|lia]. Qed.
Lemma dur_sub_ok d e : e <= d -> dur_sub d e = Ok (d - e).
Proof. intros. unfold dur_sub. zcase; [done|lia]. Qed.
