(* ===== verification/Codec.v ===== *)
(** * Wire codec (src/src/codec.rs)

    The [Encoder] and [Decoder] traits on [&mut [u8]] and [&[u8]].  A decoder's
    state is the slice still to read.  An encoder's state is the output slice
    split at the cursor: what was written, and the room that is left, so the
    whole buffer is [filled w ++ room w] at any time.

    [writes m bs a] says that the writer [m] puts exactly [bs] and returns [a]
    when they fit, and fails with [BufferTooShort] when they do not; [reads m bs
    a] says that the reader [m] consumes exactly [bs] and returns [a] whatever
    follows.  Both compose along the monads, which is how every wire format
    below is proved. *)

From S2P Require Import Prelude Error.

Definition VINT_MAX : Z := 4611686018427387903.

Record wbuf := Wbuf { filled : list Z; room : list Z }.

Abbreviation enc := (cursor Error wbuf).
Abbreviation dec := (cursor Error (list Z)).

Definition advance (w : wbuf) (bs : list Z) : wbuf :=
  Wbuf (filled w ++ bs) (zdrop (len bs) (room w)).

(** A fresh cursor over the output slice [b]. *)
Definition wbuf_of (b : list Z) : wbuf := Wbuf [] b.

(** ** The [bytes] crate's [Buf]/[BufMut] operations the codec uses *)

(** The [k] low bytes of [n], most significant first. *)
Fixpoint be_bytes (k : nat) (n : Z) : list Z :=
  match k with
  | O => []
  | S k => Z.shiftr n (8 * Z.of_nat k) mod 256 :: be_bytes k n
  end.

Definition be_val (l : list Z) : Z := foldl (fun acc b => acc * 256 + b) 0 l.

Definition remaining_mut : enc Z := fun w => Ok (len (room w), w).
Definition remaining : dec Z := fun b => Ok (len b, b).

Definition put_slice (src : list Z) : enc unit := fun w =>
  if len src <=? len (room w) then Ok (tt, advance w src) else Panic.
Definition put_uint (k : nat) (n : Z) : enc unit := put_slice (be_bytes k n).

Definition copy_to_slice (n : Z) : dec (list Z) := fun b =>
  if n <=? len b then Ok (ztake n b, zdrop n b) else Panic.
Definition get_uint (k : nat) : dec Z :=
  l ← copy_to_slice (Z.of_nat k); mret (be_val l).

(** ** Length of a variable-length integer *)

Definition decode_varint_len (first : Z) : res Z :=
  match Z.shiftr first 6 with
  | 0 => Ok 1
  | 1 => Ok 2
  | 2 => Ok 4
  | 3 => Ok 8
  | _ => Panic
  end.

Definition encode_varint_len (n : Z) : res Z :=
  if n <=? 63 then Ok 1
  else if n <=? 16383 then Ok 2
  else if n <=? 1073741823 then Ok 4
  else if n <=? 4611686018427387903 then Ok 8
  else Panic.

(** ** Encoder *)

(** The guard every writer starts with. *)
Definition ensure_mut (n : Z) : enc unit :=
  r ← remaining_mut; if r <? n then cfail BufferTooShort else mret tt.

Definition write_u8 (n : Z) : enc Z := ensure_mut 1 ;; put_uint 1 n ;; mret 1.
Definition write_u16 (n : Z) : enc Z := ensure_mut 2 ;; put_uint 2 n ;; mret 2.
Definition write_u24 (n : Z) : enc Z :=
  ensure_mut 3 ;;
  put_uint 1 (wrap 8 (Z.shiftr (Z.land n 0x00FF0000) 16)) ;;
  put_uint 2 (wrap 16 (Z.land n 0xFFFF)) ;;
  mret 3.
Definition write_u32 (n : Z) : enc Z := ensure_mut 4 ;; put_uint 4 n ;; mret 4.
Definition write_u64 (n : Z) : enc Z := ensure_mut 8 ;; put_uint 8 n ;; mret 8.

Definition write_varint_with_len (n l : Z) : enc Z :=
  ensure_mut l ;;
  match l with
  | 1 => put_uint 1 (wrap 8 n)
  | 2 => put_uint 2 (Z.lor (wrap 16 n) 0x4000)
  | 4 => put_uint 4 (Z.lor (wrap 32 n) 0x80000000)
  | 8 => put_uint 8 (Z.lor n 0xc000000000000000)
  | _ => cpanic
  end ;;
  mret l.

Definition write_varint (n : Z) : enc Z :=
  l ← clift (encode_varint_len n); write_varint_with_len n l.

Definition write (src : list Z) : enc Z :=
  ensure_mut (len src) ;; put_slice src ;; mret (len src).

(** Addresses are given by their octets. *)
Definition write_ipv4_addr (octets : list Z) : enc Z :=
  ensure_mut 4 ;; put_slice octets ;; mret 4.
Definition write_ipv6_addr (octets : list Z) : enc Z :=
  ensure_mut 16 ;; put_slice octets ;; mret 16.

(** ** Decoder *)

Definition ensure (n : Z) : dec unit :=
  r ← remaining; if r <? n then cfail BufferTooShort else mret tt.

Definition read_u8 : dec Z := ensure 1 ;; get_uint 1.
Definition read_u16 : dec Z := ensure 2 ;; get_uint 2.
Definition read_u24 : dec Z :=
  ensure 3 ;;
  n ← get_uint 2;
  m ← get_uint 1;
  mret (Z.shiftl n 8 + m).
Definition read_u32 : dec Z := ensure 4 ;; get_uint 4.
Definition read_u64 : dec Z := ensure 8 ;; get_uint 8.

Definition read_varint : dec Z :=
  ensure 1 ;;
  b ← cget;
  l ← clift (decode_varint_len (nth 0 b 0));
  ensure l ;;
  match l with
  | 1 => read_u8
  | 2 => v ← read_u16; mret (Z.land v 0x3fff)
  | 4 => v ← read_u32; mret (Z.land v 0x3fffffff)
  | 8 => v ← read_u64; mret (Z.land v 0x3fffffffffffffff)
  | _ => cpanic
  end.

Definition read (n : Z) : dec (list Z) := ensure n ;; copy_to_slice n.
Definition read_with_varint_length : dec (list Z) := l ← read_varint; read l.
Definition read_with_u8_length : dec (list Z) := l ← read_u8; read l.
Definition skip (n : Z) : dec unit := ensure n ;; cmodify (zdrop n).
Definition read_ipv4_addr : dec (list Z) := ensure 4 ;; copy_to_slice 4.
Definition read_ipv6_addr : dec (list Z) := ensure 16 ;; copy_to_slice 16.

(** ** Reader and writer specifications *)

Definition writes {A} (m : enc A) (bs : list Z) (a : A) : Prop :=
  forall w, m w = if len bs <=? len (room w) then Ok (a, advance w bs) else Err BufferTooShort.

Definition reads {A} (m : dec A) (bs : list Z) (a : A) : Prop :=
  forall rest, m (bs ++ rest) = Ok (a, rest).

Lemma advance_nil w : advance w [] = w.
Proof. destruct w. unfold advance, zdrop. cbn. by rewrite app_nil_r. Qed.

Lemma advance_app w bs cs : advance (advance w bs) cs = advance w (bs ++ cs).
Proof.
  unfold advance, zdrop. cbn. rewrite <- app_assoc, drop_drop, len_app. unfold len.
  f_equal. f_equal. lia.
Qed.

Lemma len_room_advance w bs :
  len bs <= len (room w) -> len (room (advance w bs)) = len (room w) - len bs.
Proof. intros. cbn. apply len_zdrop. pose proof (len_nonneg bs). lia. Qed.

Lemma writes_ret {A} (a : A) : writes (mret a) [] a.
Proof.
  intros w. rewrite advance_nil, len_nil. pose proof (len_nonneg (room w)).
  zcase; [done|lia].
Qed.

Lemma writes_bind {A B} (m : enc A) (f : A -> enc B) bs cs a b :
  writes m bs a -> writes (f a) cs b -> writes (m ≫= f) (bs ++ cs) b.
Proof.
  intros Hm Hf w. unfold mbind, cursor_bind. rewrite Hm, len_app.
  pose proof (len_nonneg cs). pose proof (len_nonneg bs).
  destruct (Z.leb_spec (len bs) (len (room w))).
  - rewrite Hf, len_room_advance, advance_app by done. zcase; done || lia.
  - zcase; done || lia.
Qed.

Lemma reads_ret {A} (a : A) : reads (mret a) [] a.
Proof. intros rest. reflexivity. Qed.

Lemma reads_bind {A B} (m : dec A) (f : A -> dec B) bs cs a b :
  reads m bs a -> reads (f a) cs b -> reads (m ≫= f) (bs ++ cs) b.
Proof.
  intros Hm Hf rest. rewrite <- app_assoc. unfold mbind, cursor_bind. rewrite Hm. apply Hf.
Qed.

Lemma ensure_run n b :
  ensure n b = if len b <? n then Err BufferTooShort else Ok (tt, b).
Proof. unfold ensure, remaining. crun. by zcase. Qed.

Lemma ensure_mut_run n w :
  ensure_mut n w = if len (room w) <? n then Err BufferTooShort else Ok (tt, w).
Proof. unfold ensure_mut, remaining_mut. crun. by zcase. Qed.

(** A reader that guards on the length of what it then reads. *)
Lemma reads_ensure {A} n (m : dec A) bs a :
  n <= len bs -> reads m bs a -> reads (ensure n ;; m) bs a.
Proof.
  intros Hn Hm rest. unfold mbind, cursor_bind. rewrite ensure_run, len_app. pose proof (len_nonneg rest). zcase; [lia|apply Hm].
Qed.

Lemma writes_put_slice n bs :
  n = len bs -> writes (ensure_mut n ;; put_slice bs ;; mret n) bs n.
Proof.
  intros -> w. unfold put_slice, mbind, cursor_bind. rewrite ensure_mut_run.
  destruct (Z.ltb_spec (len (room w)) (len bs)); zcase; done || lia.
Qed.

Lemma reads_copy n bs : n = len bs -> reads (copy_to_slice n) bs bs.
Proof.
  intros -> rest. unfold copy_to_slice. rewrite len_app.
  pose proof (len_nonneg rest). zcase; [|lia]. by rewrite ztake_app_len, zdrop_app_len.
Qed.

(** ** Big-endian integers *)

Lemma be_bytes_length k n : length (be_bytes k n) = k.
Proof. induction k; cbn; congruence. Qed.

Lemma len_be_bytes k n : len (be_bytes k n) = Z.of_nat k.
Proof. unfold len. by rewrite be_bytes_length. Qed.

Lemma be_bytes_ok k n : bytes_ok (be_bytes k n).
Proof.
  induction k; cbn; constructor; [|done]. apply Z.mod_pos_bound. lia.
Qed.

Lemma pow2_8_succ k : 2 ^ (8 * Z.of_nat (S k)) = 256 * 2 ^ (8 * Z.of_nat k).
Proof. replace (8 * Z.of_nat (S k)) with (8 + 8 * Z.of_nat k) by lia. rewrite Z.pow_add_r; lia. Qed.

Lemma be_val_acc l acc :
  foldl (fun a b => a * 256 + b) acc l = acc * 2 ^ (8 * len l) + be_val l.
Proof.
  unfold be_val. revert acc. induction l as [|b l IH]; intros acc; cbn [foldl].
  - rewrite (@len_nil Z), Z.mul_0_r, Z.pow_0_r. cbn. lia.
  - rewrite IH, (IH (0 * 256 + b)). unfold len. cbn [length].
    rewrite pow2_8_succ. ring.
Qed.

Lemma be_val_cons b l : be_val (b :: l) = b * 2 ^ (8 * len l) + be_val l.
Proof. unfold be_val at 1. cbn [foldl]. rewrite be_val_acc. lia. Qed.

Lemma be_val_be_bytes k n : be_val (be_bytes k n) = n mod 2 ^ (8 * Z.of_nat k).
Proof.
  induction k as [|k IH]; [by rewrite Z.mul_0_r, Z.pow_0_r, Z.mod_1_r|].
  cbn [be_bytes]. rewrite be_val_cons, len_be_bytes, IH, pow2_8_succ.
  rewrite Z.shiftr_div_pow2 by lia.
  assert (0 < 2 ^ (8 * Z.of_nat k)) by (apply Z.pow_pos_nonneg; lia).
  rewrite (Z.mul_comm 256), Z.rem_mul_r by lia. lia.
Qed.

Lemma be_val_bound l : bytes_ok l -> 0 <= be_val l < 2 ^ (8 * len l).
Proof.
  induction 1 as [|b l Hb _ IH]; [by split; vm_compute|].
  rewrite be_val_cons. unfold len in *. cbn [length]. rewrite pow2_8_succ.
  unfold is_u8 in Hb. nia.
Qed.

Lemma reads_get_uint k n :
  0 <= n < 2 ^ (8 * Z.of_nat k) -> reads (get_uint k) (be_bytes k n) n.
Proof.
  intros Hn. rewrite <- (app_nil_r (be_bytes k n)).
  eapply reads_bind; [apply reads_copy; by rewrite len_be_bytes|].
  rewrite be_val_be_bytes, Z.mod_small by done. apply reads_ret.
Qed.

(** Setting a high bit field above an integer that leaves it clear is addition. *)
Lemma lor_high n p k : 0 <= k -> 0 <= n < 2 ^ k -> Z.lor n (p * 2 ^ k) = n + p * 2 ^ k.
Proof.
  intros Hk Hn.
  assert (Z.land n (p * 2 ^ k) = 0) as Hz.
  { apply Z.bits_inj'. intros i Hi. rewrite Z.bits_0, Z.land_spec.
    destruct (Z.lt_ge_cases i k).
    - rewrite Z.mul_pow2_bits_low by lia. apply andb_false_r.
    - destruct (decide (n = 0)) as [->|]; [by rewrite Z.bits_0|].
      rewrite Z.bits_above_log2; [done|lia|].
      apply Z.log2_lt_pow2; [lia|]. apply Z.lt_le_trans with (2 ^ k); [lia|].
      apply Z.pow_le_mono_r; lia. }
  rewrite <- Z.lxor_lor by done. symmetry. by apply Z.add_nocarry_lxor.
Qed.

Lemma be_bytes_ext k n m :
  n mod 2 ^ (8 * Z.of_nat k) = m mod 2 ^ (8 * Z.of_nat k) -> be_bytes k n = be_bytes k m.
Proof.
  intros Heq.
  assert (forall i, 0 <= i < 8 * Z.of_nat k -> Z.testbit n i = Z.testbit m i) as Hbit.
  { intros i Hi. rewrite <- (Z.mod_pow2_bits_low n (8 * Z.of_nat k)) by lia.
    rewrite Heq. by rewrite Z.mod_pow2_bits_low by lia. }
  clear Heq. induction k as [|k IH]; [done|].
  cbn [be_bytes]. f_equal; [|apply IH; intros; apply Hbit; lia].
  change 256 with (2 ^ 8). apply Z.bits_inj'. intros i Hi.
  destruct (Z.lt_ge_cases i 8).
  - rewrite !Z.mod_pow2_bits_low, !Z.shiftr_spec by lia. apply Hbit. lia.
  - by rewrite !Z.mod_pow2_bits_high by lia.
Qed.

Lemma be_bytes_wrap k n : be_bytes k (n mod 2 ^ (8 * Z.of_nat k)) = be_bytes k n.
Proof. apply be_bytes_ext. apply Z.mod_mod. apply Z.pow_nonzero; lia. Qed.

(** ** Fixed-width integers and slices *)

Lemma writes_uint k n l :
  l = Z.of_nat k -> writes (ensure_mut l ;; put_uint k n ;; mret l) (be_bytes k n) l.
Proof. intros ->. unfold put_uint. apply writes_put_slice. by rewrite len_be_bytes. Qed.

Lemma reads_uint k n l :
  l = Z.of_nat k -> 0 <= n < 2 ^ (8 * Z.of_nat k) ->
  reads (ensure l ;; get_uint k) (be_bytes k n) n.
Proof.
  intros -> Hn. apply reads_ensure; [by rewrite len_be_bytes|]. by apply reads_get_uint.
Qed.

Lemma writes_u8 n : writes (write_u8 n) (be_bytes 1 n) 1.
Proof. by apply writes_uint. Qed.
Lemma writes_u16 n : writes (write_u16 n) (be_bytes 2 n) 2.
Proof. by apply writes_uint. Qed.
Lemma writes_u32 n : writes (write_u32 n) (be_bytes 4 n) 4.
Proof. by apply writes_uint. Qed.
Lemma writes_u64 n : writes (write_u64 n) (be_bytes 8 n) 8.
Proof. by apply writes_uint. Qed.

Lemma put_slice_twice bs cs w :
  (put_slice bs ;; put_slice cs) w = put_slice (bs ++ cs) w.
Proof.
  unfold put_slice, mbind, cursor_bind. rewrite len_app.
  pose proof (len_nonneg cs).
  destruct (Z.leb_spec (len bs) (len (room w))).
  - rewrite len_room_advance, advance_app by done. zcase; done || lia.
  - zcase; done || lia.
Qed.

Lemma writes_u24 n : 0 <= n -> writes (write_u24 n) (be_bytes 3 n) 3.
Proof.
  intros Hn.
  assert (be_bytes 3 n =
    be_bytes 1 (wrap 8 (Z.shiftr (Z.land n 0x00FF0000) 16)) ++
    be_bytes 2 (wrap 16 (Z.land n 0xFFFF))) as Hb.
  { change (be_bytes 3 n) with (be_bytes 1 (Z.shiftr n 16) ++ be_bytes 2 n).
    f_equal; apply be_bytes_ext; unfold wrap; cbn [Z.of_nat].
    - change (8 * Z.of_nat 1) with 8. rewrite Z.mod_mod by lia.
      rewrite Z.shiftr_land. change (Z.shiftr 0x00FF0000 16) with (Z.ones 8).
      rewrite Z.land_ones by lia. by rewrite Z.mod_mod by lia.
    - change (8 * Z.of_nat 2) with 16. rewrite Z.mod_mod by lia.
      change 0xFFFF with (Z.ones 16). rewrite Z.land_ones by lia. by rewrite Z.mod_mod by lia. }
  rewrite Hb. intros w. rewrite <- (writes_put_slice 3) by (rewrite len_app, !len_be_bytes; done).
  unfold write_u24, put_uint, mbind, cursor_bind. rewrite ensure_mut_run.
  destruct (len (room w) <? 3); [done|].
  rewrite <- put_slice_twice. unfold mbind, cursor_bind.
  by destruct (put_slice _ w) as [[? w']| |].
Qed.

Lemma writes_write bs : writes (write bs) bs (len bs).
Proof. by apply writes_put_slice. Qed.

Lemma reads_u8 n : is_u8 n -> reads read_u8 (be_bytes 1 n) n.
Proof. intros. by apply reads_uint. Qed.
Lemma reads_u16 n : 0 <= n < 2 ^ 16 -> reads read_u16 (be_bytes 2 n) n.
Proof. intros. by apply reads_uint. Qed.
Lemma reads_u32 n : 0 <= n < 2 ^ 32 -> reads read_u32 (be_bytes 4 n) n.
Proof. intros. by apply reads_uint. Qed.
Lemma reads_u64 n : 0 <= n < 2 ^ 64 -> reads read_u64 (be_bytes 8 n) n.
Proof. intros. by apply reads_uint. Qed.

Lemma reads_read n bs : n = len bs -> reads (read n) bs bs.
Proof. intros ->. apply reads_ensure; [done|]. by apply reads_copy. Qed.

Lemma reads_u24 n : 0 <= n < 2 ^ 24 -> reads read_u24 (be_bytes 3 n) n.
Proof.
  intros Hn. apply reads_ensure; [by rewrite len_be_bytes|].
  replace (be_bytes 3 n) with (be_bytes 2 (Z.shiftr n 8) ++ be_bytes 1 (n mod 2 ^ 8) ++ []).
  2: { rewrite app_nil_r, (be_bytes_wrap 1). cbn [be_bytes app].
       rewrite Z.shiftr_shiftr by (cbn; lia). done. }
  rewrite Z.shiftr_div_pow2 by lia.
  assert (0 <= n / 2 ^ 8 < 2 ^ 16) by (split; [apply Z.div_pos|apply Z.div_lt_upper_bound]; lia).
  eapply reads_bind; [by apply reads_get_uint|]. cbv beta.
  eapply reads_bind; [apply reads_get_uint, (Z.mod_pos_bound n (2 ^ 8)); lia|].
  cbv beta. rewrite Z.shiftl_mul_pow2, Z.mul_comm, <- Z.div_mod by lia. apply reads_ret.
Qed.

(** ** Variable-length integers

    [varint_bytes l n] is the encoding of RFC 9000 section 16 written
    arithmetically: the two high bits hold the base-2 logarithm of the length,
    the value is on the bits below, most significant byte first. *)

Definition varint_size (l : Z) : Prop := l = 1 \/ l = 2 \/ l = 4 \/ l = 8.

Definition varint_bytes (l n : Z) : list Z :=
  be_bytes (Z.to_nat l) (n + Z.log2 l * 2 ^ (8 * l - 2)).

Definition varint_len (n : Z) : Z :=
  if n <=? 63 then 1
  else if n <=? 16383 then 2
  else if n <=? 1073741823 then 4
  else 8.

Definition is_vint (n : Z) : Prop := 0 <= n <= VINT_MAX.

Lemma varint_len_size n : varint_size (varint_len n).
Proof. unfold varint_size, varint_len. zcase; auto. Qed.

Lemma encode_varint_len_ok n : n <= VINT_MAX -> encode_varint_len n = Ok (varint_len n).
Proof. unfold VINT_MAX, encode_varint_len, varint_len. intros. zcase; done || lia. Qed.

Lemma varint_len_fits n : is_vint n -> 0 <= n < 2 ^ (8 * varint_len n - 2).
Proof. unfold is_vint, VINT_MAX, varint_len. intros. zcase; cbn; lia. Qed.

Lemma len_varint_bytes l n : varint_size l -> len (varint_bytes l n) = l.
Proof. intros. unfold varint_bytes. rewrite len_be_bytes. destruct H as [->|[->|[->| ->]]]; done. Qed.

Lemma varint_bytes_ok l n : bytes_ok (varint_bytes l n).
Proof. apply be_bytes_ok. Qed.

Lemma writes_varint_with_len n l :
  varint_size l -> 0 <= n < 2 ^ (8 * l - 2) ->
  writes (write_varint_with_len n l) (varint_bytes l n) l.
Proof.
  intros Hl Hn. unfold varint_bytes, write_varint_with_len, wrap.
  destruct Hl as [->|[->|[->| ->]]]; cbn in Hn.
  - rewrite Z.mod_small by lia. cbn. rewrite Z.add_0_r. by apply writes_uint.
  - rewrite Z.mod_small by lia. change 0x4000 with (1 * 2 ^ 14).
    rewrite lor_high by lia. by apply writes_uint.
  - rewrite Z.mod_small by lia. change 0x80000000 with (2 * 2 ^ 30).
    rewrite lor_high by lia. by apply writes_uint.
  - change 0xc000000000000000 with (3 * 2 ^ 62).
    rewrite lor_high by lia. by apply writes_uint.
Qed.

Lemma writes_varint n :
  is_vint n -> writes (write_varint n) (varint_bytes (varint_len n) n) (varint_len n).
Proof.
  intros Hn w. unfold write_varint.
  erewrite cursor_bind_ok.
  2: { unfold clift. rewrite encode_varint_len_ok; [reflexivity|apply Hn]. }
  apply writes_varint_with_len; [apply varint_len_size|by apply varint_len_fits].
Qed.

Lemma varint_first_tag k n t :
  0 <= n < 2 ^ (8 * Z.of_nat k + 6) -> 0 <= t < 4 ->
  Z.shiftr (Z.shiftr (n + t * 2 ^ (8 * Z.of_nat k + 6)) (8 * Z.of_nat k) mod 256) 6 = t.
Proof.
  intros Hn Ht. rewrite Z.pow_add_r in * by lia.
  set (p := 2 ^ (8 * Z.of_nat k)) in *.
  assert (0 < p) by (apply Z.pow_pos_nonneg; lia).
  rewrite !Z.shiftr_div_pow2 by lia. fold p. change (2 ^ 6) with 64 in *.
  replace (n + t * (p * 64)) with (n + t * 64 * p) by ring.
  rewrite Z.div_add by lia.
  assert (0 <= n / p < 64) by (split; [apply Z.div_pos|apply Z.div_lt_upper_bound]; lia).
  rewrite Z.mod_small by lia. rewrite Z.div_add, Z.div_small; lia.
Qed.

(** The first byte of an encoding gives its length back. *)
Lemma decode_varint_len_first l n rest :
  varint_size l -> 0 <= n < 2 ^ (8 * l - 2) ->
  decode_varint_len (nth 0 (varint_bytes l n ++ rest) 0) = Ok l.
Proof.
  intros Hl Hn. unfold decode_varint_len, varint_bytes.
  destruct Hl as [->|[->|[->| ->]]].
  - change (nth 0 _ 0) with (Z.shiftr (n + 0 * 2 ^ (8 * Z.of_nat 0 + 6)) (8 * Z.of_nat 0) mod 256).
    by rewrite varint_first_tag.
  - change (nth 0 _ 0) with (Z.shiftr (n + 1 * 2 ^ (8 * Z.of_nat 1 + 6)) (8 * Z.of_nat 1) mod 256).
    by rewrite varint_first_tag.
  - change (nth 0 _ 0) with (Z.shiftr (n + 2 * 2 ^ (8 * Z.of_nat 3 + 6)) (8 * Z.of_nat 3) mod 256).
    by rewrite varint_first_tag.
  - change (nth 0 _ 0) with (Z.shiftr (n + 3 * 2 ^ (8 * Z.of_nat 7 + 6)) (8 * Z.of_nat 7) mod 256).
    by rewrite varint_first_tag.
Qed.

Lemma reads_masked {A} (m : dec A) (f : A -> Z) bs a v :
  reads m bs a -> f a = v -> reads (x ← m; mret (f x)) bs v.
Proof.
  intros Hm <-. rewrite <- (app_nil_r bs). eapply reads_bind; [done|apply reads_ret].
Qed.

Lemma land_ones_tag n k p :
  0 <= k -> 0 <= n < 2 ^ k -> Z.land (n + p * 2 ^ k) (Z.ones k) = n.
Proof. intros. rewrite Z.land_ones, Z.mod_add, Z.mod_small; lia. Qed.

Lemma reads_varint l n :
  varint_size l -> 0 <= n < 2 ^ (8 * l - 2) -> reads read_varint (varint_bytes l n) n.
Proof.
  intros Hl Hn. unfold read_varint.
  apply reads_ensure; [rewrite len_varint_bytes by done; destruct Hl as [->|[->|[->| ->]]]; lia|].
  intros rest. unfold mbind, cursor_bind, cget, clift.
  rewrite decode_varint_len_first by done. fold (ensure l).
  change ((ensure l ;; match l with
    | 1 => read_u8
    | 2 => v ← read_u16; mret (Z.land v 0x3fff)
    | 4 => v ← read_u32; mret (Z.land v 0x3fffffff)
    | 8 => v ← read_u64; mret (Z.land v 0x3fffffffffffffff)
    | _ => cpanic end) (varint_bytes l n ++ rest) = Ok (n, rest)).
  apply reads_ensure; [by rewrite len_varint_bytes|].
  unfold varint_bytes. destruct Hl as [->|[->|[->| ->]]]; cbn in Hn.
  - rewrite Z.mul_0_l, Z.add_0_r. apply reads_u8. unfold is_u8. lia.
  - eapply (reads_masked read_u16 (fun v => Z.land v 0x3fff)); [apply reads_u16; cbn; lia|].
    by apply (land_ones_tag n 14 1).
  - eapply (reads_masked read_u32 (fun v => Z.land v 0x3fffffff)); [apply reads_u32; cbn; lia|].
    by apply (land_ones_tag n 30 2).
  - eapply (reads_masked read_u64 (fun v => Z.land v 0x3fffffffffffffff)); [apply reads_u64; cbn; lia|].
    by apply (land_ones_tag n 62 3).
Qed.

Lemma reads_vint n : is_vint n -> reads read_varint (varint_bytes (varint_len n) n) n.
Proof. intros. apply reads_varint; [apply varint_len_size|by apply varint_len_fits]. Qed.

(** ** Every byte string decodes without a panic

    [safe m P]: on bytes, [m] either fails or returns a value in [P] and a
    suffix of its input; it never panics. *)

Definition safe {A} (m : dec A) (P : A -> Prop) : Prop :=
  forall b, bytes_ok b ->
  match m b with
  | Ok (a, rest) => P a /\ exists pre, b = pre ++ rest
  | Err _ => True
  | Panic => False
  end.

Lemma safe_ret {A} (a : A) (P : A -> Prop) : P a -> safe (mret a) P.
Proof. intros Ha b _. split; [done|by exists []]. Qed.

Lemma safe_fail {A} e (P : A -> Prop) : safe (cfail e) P.
Proof. by intros b _. Qed.

Lemma safe_bind {A B} (m : dec A) (f : A -> dec B) P Q :
  safe m P -> (forall a, P a -> safe (f a) Q) -> safe (m ≫= f) Q.
Proof.
  intros Hm Hf b Hb. unfold mbind, cursor_bind. specialize (Hm b Hb).
  destruct (m b) as [[a rest]| |]; [|done..].
  destruct Hm as [Ha [pre ->]]. apply bytes_ok_app in Hb as [_ Hr].
  specialize (Hf a Ha rest Hr). destruct (f a rest) as [[c rest']| |]; [|done..].
  destruct Hf as [Hc [pre' ->]]. split; [done|]. exists (pre ++ pre'). by rewrite app_assoc.
Qed.

Lemma safe_weaken {A} (m : dec A) (P Q : A -> Prop) :
  safe m P -> (forall a, P a -> Q a) -> safe m Q.
Proof.
  intros Hm HPQ b Hb. specialize (Hm b Hb). destruct (m b) as [[a rest]| |]; [|done..].
  destruct Hm. auto.
Qed.

Lemma safe_ensure_copy n :
  0 <= n -> safe (ensure n ;; copy_to_slice n) (fun l => len l = n /\ bytes_ok l).
Proof.
  intros Hn b Hb. unfold copy_to_slice, mbind, cursor_bind. rewrite ensure_run.
  destruct (Z.ltb_spec (len b) n); [done|].
  destruct (Z.leb_spec n (len b)); [|lia].
  split; [|exists (ztake n b); by rewrite ztake_zdrop].
  split; [apply len_ztake; lia|by apply bytes_ok_ztake].
Qed.

Lemma safe_uint k n :
  n = Z.of_nat k -> safe (ensure n ;; get_uint k) (fun v => 0 <= v < 2 ^ (8 * Z.of_nat k)).
Proof.
  intros -> b Hb. pose proof (safe_ensure_copy (Z.of_nat k) ltac:(lia) b Hb) as H.
  unfold get_uint, mbind, cursor_bind in *.
  destruct (ensure _ b) as [[? b']| |]; [|done..].
  destruct (copy_to_slice _ b') as [[l rest]| |]; [|done..].
  destruct H as [[Hl Hok] Hp]. split; [|done].
  cbn. rewrite <- Hl. by apply be_val_bound.
Qed.

Lemma safe_u8 : safe read_u8 is_u8.
Proof. apply (safe_uint 1 1). done. Qed.
Lemma safe_u32 : safe read_u32 is_u32.
Proof. apply (safe_uint 4 4). done. Qed.
Lemma safe_read n : 0 <= n -> safe (read n) (fun l => len l = n /\ bytes_ok l).
Proof. apply safe_ensure_copy. Qed.

Lemma be_bytes_be_val l : bytes_ok l -> be_bytes (length l) (be_val l) = l.
Proof.
  induction 1 as [|b l Hb Hl IH]; [done|].
  cbn [length be_bytes]. rewrite be_val_cons. fold (len l).
  pose proof (be_val_bound l Hl) as Hv. set (p := 2 ^ (8 * len l)) in *.
  assert (0 < p) by lia.
  f_equal.
  - rewrite Z.shiftr_div_pow2 by (pose proof (len_nonneg l); lia). fold p.
    rewrite Z.div_add_l, Z.div_small, Z.add_0_r by lia. by apply Z.mod_small.
  - transitivity (be_bytes (length l) (be_val l)); [|done].
    apply be_bytes_ext. fold (len l). fold p.
    by rewrite Z.add_comm, Z.mod_add by lia.
Qed.

(** A varint read off any input is re-encoded, on the length it announced, to
    the very bytes that were read. *)
Lemma read_varint_pre l b :
  bytes_ok b -> varint_size l -> decode_varint_len (nth 0 b 0) = Ok l -> l <= len b ->
  ztake l b = varint_bytes l (Z.land (be_val (ztake l b)) (Z.ones (8 * l - 2))).
Proof.
  intros Hb Hl Hd Hlen.
  assert (1 <= l) by (destruct Hl as [->|[->|[->| ->]]]; lia).
  destruct b as [|x b]; [rewrite (@len_nil Z) in Hlen; lia|].
  cbn [nth] in Hd. apply Forall_cons_1 in Hb as [Hx Hb]. unfold is_u8 in Hx.
  rewrite Z.land_ones by lia.
  replace (ztake l (x :: b)) with (x :: ztake (l - 1) b).
  2: { unfold ztake. replace (Z.to_nat l) with (S (Z.to_nat (l - 1))) by lia. done. }
  rewrite len_cons in Hlen. set (t := ztake (l - 1) b).
  assert (len t = l - 1) as Ht by (apply len_ztake; lia).
  assert (bytes_ok t) as Htok by (by apply bytes_ok_ztake).
  unfold varint_bytes. rewrite be_val_cons, Ht.
  pose proof (be_val_bound t Htok) as Hv. rewrite Ht in Hv.
  rewrite <- (be_bytes_be_val (x :: t)) at 1 by (by constructor).
  rewrite be_val_cons, Ht.
  replace (length (x :: t)) with (Z.to_nat l) by (unfold len in Ht; cbn [length]; lia).
  f_equal.
  assert (Z.log2 l = Z.shiftr x 6) as Hlog.
  { unfold decode_varint_len in Hd. destruct (Z.shiftr x 6) as [|[[]|[]|]|]; inversion Hd; subst; done. }
  rewrite Hlog, Z.shiftr_div_pow2 by lia. change (2 ^ 6) with 64.
  replace (8 * l - 2) with (6 + 8 * (l - 1)) by lia.
  rewrite Z.pow_add_r by lia. change (2 ^ 6) with 64.
  set (p := 2 ^ (8 * (l - 1))) in *. set (v := be_val t) in *. clearbody p v.
  rewrite Z.mul_comm with (n := 64), Z.rem_mul_r by lia.
  rewrite (Z.add_comm (x * p)), Z.mod_add, Z.mod_small by lia.
  rewrite Z.div_add, Z.div_small, Z.add_0_l by lia.
  pose proof (Z.div_mod x 64). nia.
Qed.

Lemma decode_varint_len_byte x :
  is_u8 x -> exists l, decode_varint_len x = Ok l /\ varint_size l.
Proof.
  intros Hx. unfold is_u8, decode_varint_len in *.
  assert (0 <= Z.shiftr x 6 < 4) as H.
  { rewrite Z.shiftr_div_pow2 by lia. change (2 ^ 6) with 64. Z.div_mod_to_equations. lia. }
  unfold varint_size.
  assert (Z.shiftr x 6 = 0 \/ Z.shiftr x 6 = 1 \/ Z.shiftr x 6 = 2 \/ Z.shiftr x 6 = 3)
    as [-> | [-> | [-> | ->]]] by lia; eauto 8.
Qed.

Lemma get_uint_run k b :
  Z.of_nat k <= len b ->
  get_uint k b = Ok (be_val (ztake (Z.of_nat k) b), zdrop (Z.of_nat k) b).
Proof.
  intros. unfold get_uint, copy_to_slice, mbind, cursor_bind.
  by destruct (Z.leb_spec (Z.of_nat k) (len b)); [|lia].
Qed.

Lemma ensured_uint_run k n b :
  n = Z.of_nat k -> n <= len b ->
  (ensure n ;; get_uint k) b = Ok (be_val (ztake n b), zdrop n b).
Proof.
  intros -> ?. unfold mbind, cursor_bind. rewrite ensure_run.
  destruct (Z.ltb_spec (len b) (Z.of_nat k)); [lia|]. by apply get_uint_run.
Qed.

(** What [read_varint] does once the first byte has announced [l] bytes. *)
Lemma read_varint_run b l :
  bytes_ok b -> b <> [] -> decode_varint_len (nth 0 b 0) = Ok l -> varint_size l ->
  read_varint b =
    if len b <? l then Err BufferTooShort
    else Ok (Z.land (be_val (ztake l b)) (Z.ones (8 * l - 2)), zdrop l b).
Proof.
  intros Hb Hne Hd Hl. unfold read_varint.
  assert (1 <= len b) by (destruct b; [done|]; rewrite len_cons; pose proof (len_nonneg b); lia).
  unfold mbind at 1, cursor_bind at 1. rewrite ensure_run.
  destruct (Z.ltb_spec (len b) 1); [lia|].
  unfold mbind at 1, cursor_bind at 1, cget. unfold mbind at 1, cursor_bind at 1, clift.
  rewrite Hd. unfold mbind at 1, cursor_bind at 1. rewrite ensure_run.
  destruct (Z.ltb_spec (len b) l); [done|].
  pose proof (read_varint_pre l b Hb Hl Hd ltac:(lia)) as Hpre.
  unfold read_u8, read_u16, read_u32, read_u64.
  destruct Hl as [->|[->|[->| ->]]].
  - rewrite ensured_uint_run by done. f_equal. f_equal. rewrite Hpre at 1.
    set (v := Z.land _ _).
    assert (0 <= v < 64) by (unfold v; rewrite Z.land_ones by lia; apply Z.mod_pos_bound; lia).
    unfold varint_bytes. rewrite be_val_be_bytes. change (8 * Z.of_nat (Z.to_nat 1)) with 8.
    change (Z.log2 1) with 0. rewrite Z.mul_0_l, Z.add_0_r. apply Z.mod_small. lia.
  - unfold mbind at 1, cursor_bind at 1. by rewrite (ensured_uint_run 2 2).
  - unfold mbind at 1, cursor_bind at 1. by rewrite (ensured_uint_run 4 4).
  - unfold mbind at 1, cursor_bind at 1. by rewrite (ensured_uint_run 8 8).
Qed.

Lemma safe_varint : safe read_varint is_vint.
Proof.
  intros b Hb. destruct b as [|x b]; [done|].
  destruct (decode_varint_len_byte x) as (l & Hd & Hl).
  { by apply Forall_cons_1 in Hb as [? _]. }
  rewrite (read_varint_run (x :: b) l) by done.
  destruct (Z.ltb_spec (len (x :: b)) l); [done|].
  split; [|exists (ztake l (x :: b)); by rewrite ztake_zdrop].
  unfold is_vint, VINT_MAX. destruct Hl as [->|[->|[->| ->]]];
    rewrite Z.land_ones by lia;
    match goal with |- context [?a mod ?m] => pose proof (Z.mod_pos_bound a m) as Hm end;
    cbn in Hm |- *; lia.
Qed.

Lemma safe_with_varint_length : safe read_with_varint_length bytes_ok.
Proof.
  apply (safe_bind _ _ _ _ safe_varint). intros n [Hn _].
  eapply safe_weaken; [by apply safe_read|]. by intros l [_ ?].
Qed.

#[export] Hint Resolve safe_ret safe_fail safe_u8 safe_u32 safe_varint
  safe_with_varint_length safe_read : tquic.
#[export] Hint Resolve writes_u8 writes_u16 writes_u32 writes_u64 writes_write
  writes_varint reads_u8 reads_u16 reads_u32 reads_u64 reads_vint reads_read : tquic.

(** ** Properties *)

(** The variable-length integer codec is exact: for every value up to
    2^62 - 1, [write_varint] puts the RFC 9000 encoding (on 1, 2, 4 or 8 bytes,
    the length [encode_varint_len] announces) when it fits and fails with
    [BufferTooShort] otherwise, and [read_varint] returns the value from those
    bytes whatever follows them. *)
Theorem varint_roundtrip n : is_vint n ->
  exists bs, encode_varint_len n = Ok (len bs) /\
    (forall b, write_varint n (wbuf_of b) =
       if len bs <=? len b then Ok (len bs, Wbuf bs (zdrop (len bs) b))
       else Err BufferTooShort) /\
    (forall rest, read_varint (bs ++ rest) = Ok (n, rest)).
Proof.
  intros Hn. exists (varint_bytes (varint_len n) n).
  rewrite len_varint_bytes by apply varint_len_size.
  split; [by apply encode_varint_len_ok, Hn|split].
  - intros b. rewrite (writes_varint n Hn), len_varint_bytes by apply varint_len_size.
    unfold advance. cbn. by rewrite len_varint_bytes by apply varint_len_size.
  - by apply reads_vint.
Qed.

Lemma varint_roundtrip_witness :
  exists bs, Ok 4 = @Ok Error Z (len bs) /\ read_varint (bs ++ [7]) = Ok (494878333, [7]).
Proof.
  assert (is_vint 494878333) as H by (unfold is_vint, VINT_MAX; lia).
  destruct (varint_roundtrip 494878333 H) as (bs & Hlen & _ & Hread).
  exists bs. split; [exact Hlen|apply Hread].
Defined.

(** [read_varint] on arbitrary bytes never panics: it fails with
    [BufferTooShort] exactly when the bytes are fewer than the first one
    announces, and otherwise returns a value of at most 62 bits, having
    consumed exactly the encoding of that value on the announced length. *)
Theorem read_varint_total b : bytes_ok b ->
  match read_varint b with
  | Ok (v, rest) =>
      is_vint v /\ exists l, varint_size l /\ b = varint_bytes l v ++ rest
  | Err e =>
      e = BufferTooShort /\
      (b = [] \/ exists l, decode_varint_len (nth 0 b 0) = Ok l /\ len b < l)
  | Panic => False
  end.
Proof.
  intros Hb. pose proof (safe_varint b Hb) as Hs.
  destruct b as [|x b]; [split; auto|].
  destruct (decode_varint_len_byte x) as (l & Hd & Hl).
  { by apply Forall_cons_1 in Hb as [? _]. }
  rewrite (read_varint_run (x :: b) l) in * by done.
  destruct (Z.ltb_spec (len (x :: b)) l); [split; eauto|].
  destruct Hs as [Hv _]. split; [done|]. exists l. split; [done|].
  rewrite <- (read_varint_pre l (x :: b)) by done. by rewrite ztake_zdrop.
Qed.

Lemma read_varint_total_witness :
  bytes_ok [0x7b; 0xbd; 0xff] /\
  is_vint 15293 /\ exists l, varint_size l /\ [0x7b; 0xbd; 0xff] = varint_bytes l 15293 ++ [0xff].
Proof.
  assert (bytes_ok [0x7b; 0xbd; 0xff]) as H by (repeat constructor; unfold is_u8; lia).
  split; [exact H|]. exact (read_varint_total _ H).
Defined.
