(* ===== verification/Btree.v ===== *)
(** * Ordered maps (std::collections::BTreeMap<u64, V>)

    The part of Rust's [BTreeMap] the sources use, with integer keys: an
    association list kept in ascending key order.  [insert] overwrites,
    [remove] ignores a missing key, the [range_*] queries return the entries of
    a key interval in order, and iteration is in list order. *)

From S2P Require Import Prelude.

Module Btree.
Section Btree.
Context {V : Type}.
Implicit Types (m l : list (Z * V)) (k : Z) (v : V).

Fixpoint insert k v m : list (Z * V) :=
  match m with
  | [] => [(k, v)]
  | (k', v') :: m' =>
      if k <? k' then (k, v) :: m
      else if k =? k' then (k, v) :: m'
      else (k', v') :: insert k v m'
  end.

Fixpoint remove k m : list (Z * V) :=
  match m with
  | [] => []
  | (k', v') :: m' => if k =? k' then m' else (k', v') :: remove k m'
  end.

Fixpoint get k m : option V :=
  match m with
  | [] => None
  | (k', v') :: m' => if k =? k' then Some v' else get k m'
  end.

(** [range(..=k)], [range(k..)] and [range((Excluded(k), Unbounded))]. *)
Definition range_to k m := List.filter (fun p => p.1 <=? k) m.
Definition range_from k m := List.filter (fun p => k <=? p.1) m.
Definition range_after k m := List.filter (fun p => k <? p.1) m.

Definition first_key_value m : option (Z * V) := head m.
Definition last_key_value m : option (Z * V) := last m.
Definition pop_first m : list (Z * V) := tail m.

(** Ascending keys, all above [lo]. *)
Fixpoint above lo m : Prop :=
  match m with
  | [] => True
  | (k, _) :: m' => lo < k /\ above k m'
  end.

Definition keys_lt k m : Prop := Forall (fun p => p.1 < k) m.
Definition keys_gt k m : Prop := Forall (fun p => k < p.1) m.
Definition keys_ge k m : Prop := Forall (fun p => k <= p.1) m.

Lemma above_weaken lo lo' m : lo' <= lo -> above lo m -> above lo' m.
Proof. destruct m as [|[k v] m]; cbn; intuition lia. Qed.

Lemma above_keys_gt lo m : above lo m -> keys_gt lo m.
Proof.
  revert lo. induction m as [|[k v] m IH]; intros lo; cbn; [constructor|].
  intros [Hk Hm]. constructor; [done|]. eapply Forall_impl; [by apply IH|]. cbn. lia.
Qed.

Lemma above_app lo m l :
  above lo (m ++ l) -> above lo m /\ above lo l.
Proof.
  revert lo. induction m as [|[k v] m IH]; intros lo; cbn; [done|].
  intros [Hk Hm]. apply IH in Hm as [Hm Hl]. intuition.
  eapply above_weaken; [|done]. lia.
Qed.

Lemma above_split lo m k v l :
  above lo (m ++ (k, v) :: l) -> lo < k /\ keys_lt k m /\ above k l.
Proof.
  revert lo. induction m as [|[k' v'] m IH]; intros lo; cbn.
  - intros [? ?]. repeat split; auto. constructor.
  - intros [Hk Hm]. apply IH in Hm as (? & ? & ?). repeat split; [lia|constructor; auto|done].
Qed.

Lemma above_remove_mid lo m k v l : above lo (m ++ (k, v) :: l) -> above lo (m ++ l).
Proof.
  revert lo. induction m as [|[k' v'] m IH]; intros lo; cbn.
  - intros [? ?]. eapply above_weaken; [|done]. lia.
  - intros [? ?]. split; auto.
Qed.

Lemma remove_mid k v m l : keys_lt k m -> remove k (m ++ (k, v) :: l) = m ++ l.
Proof.
  induction 1 as [|[k' v'] m Hk _ IH]; cbn; [by rewrite Z.eqb_refl|].
  cbn in Hk. destruct (Z.eqb_spec k k'); [lia|]. by rewrite IH.
Qed.

Lemma insert_mid k v m l : keys_lt k m -> keys_gt k l -> insert k v (m ++ l) = m ++ (k, v) :: l.
Proof.
  induction 1 as [|[k' v'] m Hk _ IH]; intros Hl; cbn.
  - destruct Hl as [|[k' v'] l Hk' _]; cbn; [done|]. cbn in Hk'. zcase; lia || done.
  - cbn in Hk. zcase; try lia. by rewrite IH.
Qed.

Lemma insert_above lo k v m : lo < k -> above lo m -> above lo (insert k v m).
Proof.
  revert lo. induction m as [|[k' v'] m IH]; intros lo Hk; cbn; [done|].
  intros [Hk' Hm]. zcase; cbn; intuition (subst; auto).
  apply IH; [lia|done].
Qed.

Lemma remove_above lo k m : above lo m -> above lo (remove k m).
Proof.
  revert lo. induction m as [|[k' v'] m IH]; intros lo; cbn; [done|].
  intros [Hk' Hm]. zcase; cbn; [|auto]. eapply above_weaken; [|done]. lia.
Qed.

(** The three range queries cut a sorted map in two. *)
Lemma range_split k m lo :
  above lo m -> exists l r, m = l ++ r /\ keys_lt k l /\ keys_ge k r.
Proof.
  revert lo. induction m as [|[k' v'] m IH]; intros lo; cbn.
  - intros _. exists [], []. repeat constructor.
  - intros [Hk Hm]. destruct (Z.lt_ge_cases k' k).
    + destruct (IH _ Hm) as (l & r & -> & Hl & Hr).
      exists ((k', v') :: l), r. repeat split; auto. constructor; auto.
    + exists [], ((k', v') :: m). repeat split; [constructor|].
      constructor; [done|]. eapply Forall_impl; [by apply above_keys_gt|]. cbn. lia.
Qed.

Lemma filter_none (f : Z * V -> bool) m : Forall (fun p => f p = false) m -> List.filter f m = [].
Proof. induction 1 as [|p m Hp _ IH]; cbn; [done|]. by rewrite Hp. Qed.

Lemma filter_all (f : Z * V -> bool) m : Forall (fun p => f p = true) m -> List.filter f m = m.
Proof. induction 1 as [|p m Hp _ IH]; cbn; [done|]. by rewrite Hp, IH. Qed.

Lemma range_from_app k l r : keys_lt k l -> keys_ge k r -> range_from k (l ++ r) = r.
Proof.
  intros Hl Hr. unfold range_from. rewrite List.filter_app, filter_none, filter_all; [done| |].
  - eapply Forall_impl; [exact Hr|]. cbn. intros. by apply Z.leb_le.
  - eapply Forall_impl; [exact Hl|]. cbn. intros. by apply Z.leb_gt.
Qed.

Lemma range_after_app k l r :
  Forall (fun p => p.1 <= k) l -> keys_gt k r -> range_after k (l ++ r) = r.
Proof.
  intros Hl Hr. unfold range_after. rewrite List.filter_app, filter_none, filter_all; [done| |].
  - eapply Forall_impl; [exact Hr|]. cbn. intros. by apply Z.ltb_lt.
  - eapply Forall_impl; [exact Hl|]. cbn. intros. by apply Z.ltb_ge.
Qed.

Lemma range_to_app k l r :
  Forall (fun p => p.1 <= k) l -> keys_gt k r -> range_to k (l ++ r) = l.
Proof.
  intros Hl Hr. unfold range_to.
  rewrite List.filter_app, filter_all, filter_none; [apply app_nil_r| |].
  - eapply Forall_impl; [exact Hr|]. cbn. intros. by apply Z.leb_gt.
  - eapply Forall_impl; [exact Hl|]. cbn. intros. by apply Z.leb_le.
Qed.

Lemma get_In lo k v m : above lo m -> get k m = Some v <-> In (k, v) m.
Proof.
  revert lo. induction m as [|[k' v'] m IH]; intros lo; cbn; [naive_solver|].
  intros [Hk Hm]. destruct (Z.eqb_spec k k') as [->|Hne].
  - split; [intros [= ->]; auto|]. intros [[= ->]|Hin]; [done|].
    apply above_keys_gt in Hm. unfold keys_gt in Hm. rewrite Forall_forall in Hm.
    apply list_elem_of_In in Hin. specialize (Hm _ Hin). cbn in Hm. lia.
  - rewrite (IH k') by done. split; [auto|]. by intros [[= -> ->]|?].
Qed.

Lemma get_insert lo k v m k' :
  above lo m -> get k' (insert k v m) = if k' =? k then Some v else get k' m.
Proof.
  revert lo. induction m as [|[k1 v1] m IH]; intros lo; cbn; [done|].
  intros [Hk Hm]. destruct (Z.ltb_spec k k1); [done|].
  destruct (Z.eqb_spec k k1) as [->|Hne]; cbn.
  - by destruct (Z.eqb_spec k' k1).
  - rewrite (IH k1) by done. zcase; subst; done || lia.
Qed.

Lemma In_insert lo k v m k' v' : above lo m ->
  In (k', v') (insert k v m) <-> (k' = k /\ v' = v) \/ (k' <> k /\ In (k', v') m).
Proof.
  intros Hm. assert (above (Z.min lo (k - 1)) m) as Hm' by (eapply above_weaken; [|done]; lia).
  rewrite <- !(get_In (Z.min lo (k - 1))), (get_insert (Z.min lo (k - 1)))
    by (try apply insert_above; done || lia).
  destruct (Z.eqb_spec k' k) as [->|]; intuition congruence.
Qed.

Lemma In_range_from k m p : In p (range_from k m) <-> In p m /\ k <= p.1.
Proof. unfold range_from. rewrite filter_In, Z.leb_le. done. Qed.

Lemma range_from_above lo k m : above lo m -> above lo (range_from k m).
Proof.
  revert lo. induction m as [|[k' v'] m IH]; intros lo; cbn; [done|].
  intros [Hk Hm]. destruct (k <=? k'); cbn; [auto|].
  eapply above_weaken; [|by apply IH]. lia.
Qed.

Lemma insert_length k v m : (length (insert k v m) <= S (length m))%nat.
Proof.
  induction m as [|[k' v'] m IH]; cbn [insert]; [done|]. destruct (k <? k'); [done|].
  destruct (k =? k'); cbn [length]; lia.
Qed.

End Btree.
End Btree.
