(* ===== verification/Ranges.v ===== *)
(** * Range sets (src/src/ranges.rs)

    [RangeSet] keeps disjoint half-open ranges of [u64] in a [BTreeMap] from
    start to end, at most [capacity] of them after an insertion.  Acknowledged
    packet numbers, stream offsets to retransmit and free stream ids are all
    kept in such sets.

    The abstract view of a set is the predicate [mem s]: the integers its
    ranges contain.  [wf s] is the representation invariant: ranges are
    non-empty, ascending, and separated by at least one missing integer, which
    makes the representation canonical ([wf_ext]). *)

From S2P Require Import Prelude Error Btree.

(** Rust's [Range<u64>], start included and end excluded. *)
Record Range := mkRange { start : Z; end_ : Z }.

#[global] Instance Range_eq_dec : EqDecision Range.
Proof. solve_decision. Defined.

Definition range_is_empty (r : Range) : bool := negb (start r <? end_ r).
Definition range_contains (r : Range) (x : Z) : bool := (start r <=? x) && (x <? end_ r).
Definition to_range (p : Z * Z) : Range := mkRange p.1 p.2.

Module RangeSet.

Record RangeSet := mkRangeSet { set : list (Z * Z); capacity : Z }.

Definition new (capacity : Z) : RangeSet := mkRangeSet [] capacity.

(** [Default]: a capacity of [usize::MAX]. *)
Definition default : RangeSet := new 18446744073709551615.

Definition is_empty (s : RangeSet) : bool := match set s with [] => true | _ => false end.
Definition len_ (s : RangeSet) : Z := len (set s).

(** ** Neighbour queries *)

Definition prev_to (s : list (Z * Z)) (elem : Z) : option Range :=
  to_range <$> last (Btree.range_to elem s).
Definition next_to (s : list (Z * Z)) (elem : Z) : option Range :=
  to_range <$> head (Btree.range_from elem s).
Definition next_after (s : list (Z * Z)) (elem : Z) : option Range :=
  to_range <$> head (Btree.range_after elem s).

(** ** Insertion *)

(** The [while let] loop of [insert]: following ranges that touch
    [st..en] are merged into it. Each turn removes one entry. *)
Fixpoint insert_loop (fuel : nat) (m : list (Z * Z)) (st en : Z) : list (Z * Z) * Z :=
  match fuel with
  | O => (m, en)
  | S fuel =>
      match next_to m st with
      | Some r =>
          if start r >? en then (m, en)
          else insert_loop fuel (Btree.remove (start r) m) st (Z.max (end_ r) en)
      | None => (m, en)
      end
  end.

(** From the loop on: merge, evict the first range of a full set, insert. *)
Definition insert_from (s : RangeSet) (m : list (Z * Z)) (st en : Z) : RangeSet :=
  let (m, en) := insert_loop (S (length m)) m st en in
  let m := if len m >=? capacity s then Btree.pop_first m else m in
  mkRangeSet (Btree.insert st en m) (capacity s).

Definition insert (s : RangeSet) (r : Range) : RangeSet :=
  if range_is_empty r then s
  else
    match prev_to (set s) (start r) with
    | Some p =>
        if end_ p >=? end_ r then s
        else if end_ p >=? start r then
          insert_from s (Btree.remove (start p) (set s)) (start p) (end_ r)
        else insert_from s (set s) (start r) (end_ r)
    | None => insert_from s (set s) (start r) (end_ r)
    end.

Definition add_elem (s : RangeSet) (elem : Z) : res RangeSet :=
  e ← add64 elem 1; mret (insert s (mkRange elem e)).

(** ** Removal *)

Fixpoint remove_loop (fuel : nat) (m : list (Z * Z)) (st en : Z) : list (Z * Z) :=
  match fuel with
  | O => m
  | S fuel =>
      match next_to m st with
      | Some r =>
          if start r >? en then m
          else
            let m := Btree.remove (start r) m in
            if end_ r >? en then Btree.insert en (end_ r) m
            else remove_loop fuel m st en
      | None => m
      end
  end.

Definition remove (s : RangeSet) (r : Range) : RangeSet :=
  if is_empty s || range_is_empty r then s
  else
    let finish m := mkRangeSet (remove_loop (S (length m)) m (start r) (end_ r)) (capacity s) in
    match prev_to (set s) (start r) with
    | Some p =>
        if end_ p >? start r then
          let m := Btree.remove (start p) (set s) in
          let m := if start p <? start r then Btree.insert (start p) (start r) m else m in
          let m := if end_ p >? end_ r then Btree.insert (end_ r) (end_ p) m else m in
          if end_ p >=? end_ r then mkRangeSet m (capacity s) else finish m
        else finish (set s)
    | None => finish (set s)
    end.

Definition remove_elem (s : RangeSet) (elem : Z) : res RangeSet :=
  e ← add64 elem 1; mret (remove s (mkRange elem e)).

(** The [for] loop of [remove_until] over the collected ranges. *)
Fixpoint remove_until_loop (rs : list (Z * Z)) (s : RangeSet) (elem : Z) : res RangeSet :=
  match rs with
  | [] => Ok s
  | (st, en) :: rs =>
      let s := mkRangeSet (Btree.remove st (set s)) (capacity s) in
      e ← add64 elem 1;
      let s := if en >? e then insert s (mkRange e en) else s in
      remove_until_loop rs s elem
  end.

Definition remove_until (s : RangeSet) (elem : Z) : res RangeSet :=
  remove_until_loop (Btree.range_to elem (set s)) s elem.

Definition clear (s : RangeSet) : RangeSet := mkRangeSet [] (capacity s).

(** ** Queries *)

(** The first part of [r] the set does not cover. *)
Definition filter_ (s : RangeSet) (r : Range) : option Range :=
  if is_empty s then Some r
  else
    match prev_to (set s) (start r) with
    | Some p =>
        if end_ p >=? end_ r then None
        else
          let new_start := if end_ p >? start r then end_ p else start r in
          Some (mkRange new_start
            (match next_after (set s) (start r) with
             | Some n => if start n <? end_ r then start n else end_ r
             | None => end_ r
             end))
    | None =>
        Some (mkRange (start r)
          (match next_after (set s) (start r) with
           | Some n => if start n <? end_ r then start n else end_ r
           | None => end_ r
           end))
    end.

Definition iter (s : RangeSet) : list Range := map to_range (set s).

Definition min (s : RangeSet) : option Z := start <$> head (iter s).
Definition max (s : RangeSet) : res (option Z) :=
  match last (iter s) with
  | Some r => e ← sub64 (end_ r) 1; mret (Some e)
  | None => Ok None
  end.

Definition contains (s : RangeSet) (elem : Z) : bool :=
  if from_option (fun p => range_contains p elem) false (prev_to (set s) elem) then true
  else if from_option (fun p => range_contains p elem) false (next_to (set s) elem) then true
  else false.

Definition peek_min (s : RangeSet) : option Range := to_range <$> head (set s).

Definition pop_min (s : RangeSet) : option Range * RangeSet :=
  match peek_min s with
  | Some r => (Some r, mkRangeSet (Btree.remove (start r) (set s)) (capacity s))
  | None => (None, s)
  end.

(** [PartialEq<Range<u64>>]. *)
Definition eq_range (s : RangeSet) (other : Range) : bool :=
  (len_ s =? 1) && bool_decide (peek_min s = Some other).

(** ** The [Flatten] iterator *)

Record Flatten := mkFlatten { f_set : list (Z * Z); f_next : Z; f_end : Z }.

Definition flatten (s : RangeSet) : Flatten := mkFlatten (set s) 0 0.

Definition flatten_next (f : Flatten) : option (Z * Flatten) :=
  if f_next f =? f_end f then
    match f_set f with
    | [] => None
    | (st, en) :: rest => Some (st, mkFlatten rest (st + 1) en)
    end
  else Some (f_next f, mkFlatten (f_set f) (f_next f + 1) (f_end f)).

Definition flatten_next_back (f : Flatten) : option (Z * Flatten) :=
  if f_next f =? f_end f then
    match last (f_set f) with
    | None => None
    | Some (st, en) =>
        Some (en - 1, mkFlatten (removelast (f_set f)) st (en - 1))
    end
  else Some (f_end f - 1, mkFlatten (f_set f) (f_next f) (f_end f - 1)).

(** [collect()] on the forward and the reversed iterator. *)
Fixpoint flatten_collect (fuel : nat) (f : Flatten) : list Z :=
  match fuel with
  | O => []
  | S fuel => match flatten_next f with Some (x, f) => x :: flatten_collect fuel f | None => [] end
  end.
Fixpoint flatten_collect_back (fuel : nat) (f : Flatten) : list Z :=
  match fuel with
  | O => []
  | S fuel =>
      match flatten_next_back f with
      | Some (x, f) => x :: flatten_collect_back fuel f
      | None => []
      end
  end.

(** ** Abstraction and invariant *)

Definition mem_list (m : list (Z * Z)) (x : Z) : Prop := Exists (fun p => p.1 <= x < p.2) m.
Definition mem (s : RangeSet) (x : Z) : Prop := mem_list (set s) x.
Definition in_range (r : Range) (x : Z) : Prop := start r <= x < end_ r.

(** Ascending non-empty ranges above [lo], no two of which touch. *)
Fixpoint chain (lo : Z) (m : list (Z * Z)) : Prop :=
  match m with
  | [] => True
  | (a, b) :: m' => lo < a /\ a < b /\ chain b m'
  end.

Definition wf (s : RangeSet) : Prop := chain (-1) (set s).

(** The end of the last range, [lo] when there is none. *)
Fixpoint top (lo : Z) (m : list (Z * Z)) : Z :=
  match m with
  | [] => lo
  | (_, b) :: m' => top b m'
  end.

Lemma chain_weaken lo lo' m : lo' <= lo -> chain lo m -> chain lo' m.
Proof. destruct m as [|[a b] m]; cbn; intuition lia. Qed.

Lemma chain_above lo m : chain lo m -> Btree.above lo m.
Proof.
  revert lo. induction m as [|[a b] m IH]; intros lo; cbn; [done|].
  intros (? & ? & Hm). split; [done|]. eapply Btree.above_weaken; [|by apply IH]. lia.
Qed.

Lemma chain_app lo l r : chain lo (l ++ r) <-> chain lo l /\ chain (top lo l) r.
Proof. revert lo. induction l as [|[a b] l IH]; intros lo; cbn; [tauto|]. rewrite IH. tauto. Qed.

Lemma top_app lo l r : top lo (l ++ r) = top (top lo l) r.
Proof. revert lo. induction l as [|[a b] l IH]; intros lo; cbn; auto. Qed.

Lemma chain_top lo m : chain lo m -> lo <= top lo m.
Proof.
  revert lo. induction m as [|[a b] m IH]; intros lo; cbn; [lia|].
  intros (? & ? & Hm). apply IH in Hm. lia.
Qed.

Lemma mem_list_app l r x : mem_list (l ++ r) x <-> mem_list l x \/ mem_list r x.
Proof. apply Exists_app. Qed.
Lemma mem_list_cons a b m x : mem_list ((a, b) :: m) x <-> a <= x < b \/ mem_list m x.
Proof. apply Exists_cons. Qed.
Lemma mem_list_nil x : mem_list [] x <-> False.
Proof. split; [inversion 1|done]. Qed.

Lemma mem_list_bounds lo m x : chain lo m -> mem_list m x -> lo < x < top lo m.
Proof.
  revert lo. induction m as [|[a b] m IH]; intros lo; cbn; [by intros _ ?%mem_list_nil|].
  intros (? & ? & Hm). rewrite mem_list_cons. pose proof (chain_top _ _ Hm).
  intros [?|Hx]; [lia|]. specialize (IH _ Hm Hx). lia.
Qed.

(** Keys at least [k] in a chain bounded by [lo]. *)
Lemma chain_keys_ge lo k m : k <= lo + 1 -> chain lo m -> Btree.keys_ge k m.
Proof.
  intros Hk Hm. eapply Forall_impl; [apply Btree.above_keys_gt, chain_above, Hm|]. cbn. lia.
Qed.

(** ** What the neighbour queries return *)

Lemma head_to_range (m : list (Z * Z)) : to_range <$> head m =
  match m with [] => None | (a, b) :: _ => Some (mkRange a b) end.
Proof. by destruct m as [|[a b] m]. Qed.

Lemma next_to_None lo m k : chain lo m -> next_to m k = None -> Btree.keys_lt k m.
Proof.
  intros Hm. unfold next_to. destruct (Btree.range_split k m lo (chain_above _ _ Hm)) as (l & r & -> & Hl & Hr).
  rewrite Btree.range_from_app, head_to_range by done.
  destruct r as [|[a b] r]; [|done]. by rewrite app_nil_r.
Qed.

Lemma next_to_split l a b r k :
  Btree.keys_lt k l -> Btree.keys_ge k ((a, b) :: r) ->
  next_to (l ++ (a, b) :: r) k = Some (mkRange a b).
Proof. intros. unfold next_to. by rewrite Btree.range_from_app, head_to_range. Qed.

Lemma next_to_nil l k : Btree.keys_lt k l -> next_to l k = None.
Proof.
  intros. unfold next_to. rewrite <- (app_nil_r l), Btree.range_from_app; [done..|constructor].
Qed.

Lemma next_to_spec lo m k p :
  chain lo m -> next_to m k = Some p ->
  exists l r, m = l ++ (start p, end_ p) :: r /\ k <= start p /\ Btree.keys_lt k l.
Proof.
  intros Hm. unfold next_to.
  destruct (Btree.range_split k m lo (chain_above _ _ Hm)) as (l & r & -> & Hl & Hr).
  rewrite Btree.range_from_app, head_to_range by done.
  destruct r as [|[a b] r]; [done|]. intros [= <-]. cbn.
  exists l, r. split; [done|]. split; [|done]. by apply Forall_cons_1 in Hr as [? _].
Qed.

Lemma keys_lt_succ k (l : list (Z * Z)) :
  Btree.keys_lt (k + 1) l <-> Forall (fun p => p.1 <= k) l.
Proof. split; intros H; (eapply Forall_impl; [exact H|cbn; intros; lia]). Qed.

Lemma keys_ge_succ k (l : list (Z * Z)) : Btree.keys_ge (k + 1) l <-> Btree.keys_gt k l.
Proof. split; intros H; (eapply Forall_impl; [exact H|cbn; intros; lia]). Qed.

Lemma range_cut lo m k : chain lo m ->
  exists l r, m = l ++ r /\ Forall (fun p => p.1 <= k) l /\ Btree.keys_gt k r.
Proof.
  intros Hm. destruct (Btree.range_split (k + 1) m lo (chain_above _ _ Hm)) as (l & r & -> & Hl & Hr).
  exists l, r. by rewrite <- keys_lt_succ, <- keys_ge_succ.
Qed.

Lemma prev_to_spec lo m k : chain lo m ->
  match prev_to m k with
  | Some p => exists l r, m = l ++ (start p, end_ p) :: r /\ start p <= k /\ Btree.keys_gt k r
  | None => Btree.keys_gt k m
  end.
Proof.
  intros Hm. unfold prev_to. destruct (range_cut lo m k Hm) as (l & r & -> & Hl & Hr).
  rewrite Btree.range_to_app by done.
  destruct l as [|[a b] l _] using rev_ind; [done|].
  rewrite last_snoc. cbn. exists l, r. rewrite <- app_assoc. split; [done|]. split; [|done].
  apply Forall_app in Hl as [_ Hl]. by apply Forall_cons_1 in Hl as [? _].
Qed.

Lemma next_after_spec lo m k : chain lo m ->
  match next_after m k with
  | Some p => exists l r, m = l ++ (start p, end_ p) :: r /\ k < start p /\ Forall (fun q => q.1 <= k) l
  | None => Forall (fun q => q.1 <= k) m
  end.
Proof.
  intros Hm. unfold next_after. destruct (range_cut lo m k Hm) as (l & r & -> & Hl & Hr).
  rewrite Btree.range_after_app, head_to_range by done.
  destruct r as [|[a b] r]; [by rewrite app_nil_r|]. exists l, r. split; [done|].
  split; [|done]. by apply Forall_cons_1 in Hr as [? _].
Qed.

(** ** Insertion *)

Lemma keys_ge_lt_trans k k' (l : list (Z * Z)) : k <= k' -> Btree.keys_lt k l -> Btree.keys_lt k' l.
Proof. intros ? H. eapply Forall_impl; [exact H|]. cbn. lia. Qed.

(** The merge loop stops by itself within the fuel it is given, and replaces
    [st..en] and the ranges that touch it by their union. *)
Lemma insert_loop_spec r : forall fuel l st en c,
  (length r < fuel)%nat -> Btree.keys_lt st l -> Btree.keys_ge st r -> chain c r -> st < en ->
  exists r' en', insert_loop fuel (l ++ r) st en = (l ++ r', en') /\
    en <= en' /\ chain en' r' /\ (r' = r /\ en' = en \/ len r' < len r) /\
    forall x, (st <= x < en' \/ mem_list r' x) <-> (st <= x < en \/ mem_list r x).
Proof.
  induction r as [|[a b] r IH]; intros fuel l st en c Hf Hl Hr Hc Hse;
    (destruct fuel as [|fuel]; [cbn in Hf; lia|]); cbn [insert_loop].
  - rewrite next_to_nil by (by rewrite app_nil_r).
    exists [], en. split_and!; auto; try lia; tauto.
  - rewrite next_to_split by done. cbn [start end_].
    destruct Hc as (? & ? & Hc). apply Forall_cons_1 in Hr as [Ha Hr]. cbn in Ha.
    rewrite Z.gtb_ltb. destruct (Z.ltb_spec en a).
    + exists ((a, b) :: r), en. split_and!; cbn; auto; try lia; tauto.
    + rewrite Btree.remove_mid by (by eapply keys_ge_lt_trans).
      destruct (IH fuel l st (Z.max b en) b) as (r' & en' & -> & ? & ? & ? & Hx);
        [cbn in Hf; lia|done..|lia|].
      exists r', en'. rewrite len_cons. split_and!; auto; try lia.
      { right. destruct H4 as [[-> _]|?]; lia. }
      intros x. specialize (Hx x). rewrite mem_list_cons. intuition lia.
Qed.

(** The range list after the merged range [st..en] is put between [l] and [r],
    one range being evicted from a full set. *)
Definition placed (cap : Z) (l : list (Z * Z)) (st en : Z) (r : list (Z * Z)) : list (Z * Z) :=
  if len (l ++ r) >=? cap then
    match l with
    | _ :: l => l ++ (st, en) :: r
    | [] => (st, en) :: tail r
    end
  else l ++ (st, en) :: r.

Lemma chain_keys_lt lo l k : chain lo l -> top lo l < k -> Btree.keys_lt k l.
Proof.
  revert lo. induction l as [|[a b] l IH]; intros lo; cbn; [constructor|].
  intros (? & ? & Hl) Ht. pose proof (chain_top _ _ Hl).
  constructor; [cbn; lia|]. by apply (IH b).
Qed.

Lemma insert_from_spec s l r st en c :
  chain (-1) l -> top (-1) l < st -> Btree.keys_ge st r -> chain c r -> st < en ->
  exists r' en', set (insert_from s (l ++ r) st en) = placed (capacity s) l st en' r' /\
    en <= en' /\ chain (-1) (l ++ (st, en') :: r') /\ (r' = r /\ en' = en \/ len r' < len r) /\
    forall x, (st <= x < en' \/ mem_list r' x) <-> (st <= x < en \/ mem_list r x).
Proof.
  intros Hl Ht Hr Hc Hse. unfold insert_from.
  pose proof (chain_keys_lt _ _ _ Hl Ht) as Hlt.
  destruct (insert_loop_spec r (S (length (l ++ r))) l st en c) as (r' & en' & Heq & ? & Hr' & ? & Hx);
    [rewrite length_app; lia|done..|].
  rewrite Heq. exists r', en'. cbn [set].
  split; [|rewrite chain_app; cbn; split_and!; auto; lia].
  assert (Btree.keys_gt st r') as Hgt
    by (eapply Forall_impl; [apply Btree.above_keys_gt, chain_above, Hr'|]; cbn; lia).
  unfold placed. destruct (len (l ++ r') >=? capacity s).
  - destruct l as [|p l]; cbn [Btree.pop_first tail app].
    + apply (Btree.insert_mid st en' []); [constructor|].
      destruct Hgt; cbn; [constructor|done].
    + apply Btree.insert_mid; [|done]. by apply Forall_cons_1 in Hlt as [_ ?].
  - by apply Btree.insert_mid.
Qed.

(** Every insertion is either a no-op on covered input or places the union of
    the inserted range with the ranges it touches. *)
Lemma insert_shape s r :
  wf s -> 0 <= start r -> start r < end_ r ->
  (insert s r = s /\ forall x, in_range r x -> mem s x) \/
  exists l st en rr, set (insert s r) = placed (capacity s) l st en rr /\
    chain (-1) (l ++ (st, en) :: rr) /\ st <= start r /\ end_ r <= en /\
    (l ++ rr = set s /\ st = start r /\ en = end_ r \/ len (l ++ rr) < len (set s)) /\
    forall x, mem_list (l ++ (st, en) :: rr) x <-> mem s x \/ in_range r x.
Proof.
  intros Hwf H0 Hne. unfold insert, range_is_empty, wf, mem, in_range in *.
  destruct (Z.ltb_spec (start r) (end_ r)); [cbn [negb]|lia].
  pose proof (prev_to_spec _ _ (start r) Hwf) as Hp.
  destruct (prev_to (set s) (start r)) as [p|].
  - destruct Hp as (l & rr & Heq & Hle & Hgt). rewrite Heq in *.
    apply chain_app in Hwf as (Hl & Htop & Hp & Hrr). rewrite !Z.geb_leb.
    destruct (Z.leb_spec (end_ r) (end_ p)).
    { left. split; [done|]. intros x Hx. rewrite mem_list_app, mem_list_cons. right. left. lia. }
    right. destruct (Z.leb_spec (start r) (end_ p)).
    + rewrite Btree.remove_mid by (by apply (chain_keys_lt (-1))).
      destruct (insert_from_spec s l rr (start p) (end_ r) (end_ p)) as (r' & en' & Hset & ? & ? & Hlen & Hx);
        [done..|eapply chain_keys_ge; [|done]; lia|done|lia|].
      exists l, (start p), en', r'. split_and!; auto; try lia.
      { right. rewrite !len_app, len_cons. destruct Hlen as [[-> _]|?]; lia. }
      intros x. specialize (Hx x). rewrite !mem_list_app, !mem_list_cons in *. intuition lia.
    + replace (l ++ (start p, end_ p) :: rr) with ((l ++ [(start p, end_ p)]) ++ rr)
        by (by rewrite <- app_assoc).
      destruct (insert_from_spec s (l ++ [(start p, end_ p)]) rr (start r) (end_ r) (end_ p))
        as (r' & en' & Hset & ? & ? & Hlen & Hx).
      * rewrite chain_app. cbn. auto.
      * rewrite top_app. cbn. lia.
      * eapply Forall_impl; [exact Hgt|]. cbn. lia.
      * done.
      * done.
      * exists (l ++ [(start p, end_ p)]), (start r), en', r'. split_and!; auto; try lia.
        { destruct Hlen as [[-> ->]|?]; [by left|right; rewrite !len_app; lia]. }
        intros x. specialize (Hx x). rewrite !mem_list_app, !mem_list_cons in *. intuition lia.
  - right. destruct (insert_from_spec s [] (set s) (start r) (end_ r) (-1))
      as (r' & en' & Hset & ? & ? & Hlen & Hx); [done|cbn; lia| |done|done|].
    + eapply Forall_impl; [exact Hp|]. cbn. lia.
    + exists [], (start r), en', r'. split_and!; auto; try lia.
      { destruct Hlen as [[-> ->]|?]; [by left|by right]. }
      intros x. cbn [app] in *. specialize (Hx x). rewrite !mem_list_cons in *. intuition lia.
Qed.

Lemma chain_tail lo m : chain lo m -> chain lo (tail m).
Proof. destruct m as [|[a b] m]; cbn; [done|]. intros (? & ? & ?). eapply chain_weaken; [|done]. lia. Qed.

Lemma placed_chain cap l st en r :
  chain (-1) (l ++ (st, en) :: r) -> chain (-1) (placed cap l st en r).
Proof.
  unfold placed. destruct (_ >=? _); [|done]. destruct l as [|p l].
  - cbn. intros (? & ? & ?). split_and!; auto. by apply chain_tail.
  - apply chain_tail.
Qed.

Lemma insert_capacity s r : capacity (insert s r) = capacity s.
Proof.
  unfold insert, insert_from.
  destruct (range_is_empty r); [done|].
  destruct (prev_to (set s) (start r)) as [p|]; [|by destruct insert_loop].
  destruct (_ >=? _); [done|]. destruct (_ >=? _); by destruct insert_loop.
Qed.

Lemma insert_empty s r : end_ r <= start r -> insert s r = s.
Proof. intros. unfold insert, range_is_empty. by destruct (Z.ltb_spec (start r) (end_ r)); [lia|]. Qed.

Lemma insert_wf s r : wf s -> 0 <= start r -> wf (insert s r).
Proof.
  intros Hwf H0. destruct (Z.lt_ge_cases (start r) (end_ r)); [|by rewrite insert_empty].
  destruct (insert_shape s r Hwf H0 H) as [[-> _]|(l & st & en & rr & Hset & Hc & _)]; [done|].
  unfold wf. rewrite Hset. by apply placed_chain.
Qed.

Lemma len_placed cap l st en r :
  len (placed cap l st en r) <= len (l ++ r) + 1 /\
  (1 <= cap -> cap <= len (l ++ r) -> len (placed cap l st en r) <= len (l ++ r)).
Proof.
  unfold placed. rewrite Z.geb_leb, !len_app. pose proof (len_nonneg l). pose proof (len_nonneg r).
  destruct (Z.leb_spec cap (len l + len r)).
  - destruct l as [|p l]; [destruct r as [|q r]|]; cbn [tail app]; rewrite ?len_app, ?len_cons in *;
      rewrite ?(@len_nil (Z * Z)) in *; lia.
  - rewrite len_app, len_cons. lia.
Qed.

Lemma insert_len s r :
  wf s -> 0 <= start r -> 1 <= capacity s -> len_ s <= capacity s ->
  len_ (insert s r) <= capacity s.
Proof.
  intros Hwf H0 Hcap Hlen. destruct (Z.lt_ge_cases (start r) (end_ r)); [|by rewrite insert_empty].
  destruct (insert_shape s r Hwf H0 H) as [[-> _]|(l & st & en & rr & Hset & _ & _ & _ & Hl & _)]; [done|].
  assert (len (l ++ rr) <= len (set s)) by (destruct Hl as [(-> & _)|?]; lia).
  unfold len_ in *. rewrite Hset. pose proof (len_placed (capacity s) l st en rr). lia.
Qed.

Lemma insert_mem s r x :
  wf s -> 0 <= start r -> len_ s < capacity s ->
  mem (insert s r) x <-> mem s x \/ in_range r x.
Proof.
  intros Hwf H0 Hlen. destruct (Z.lt_ge_cases (start r) (end_ r)).
  2: { rewrite insert_empty by done. unfold in_range. intuition lia. }
  destruct (insert_shape s r Hwf H0 H)
    as [[-> Hcov]|(l & st & en & rr & Hset & _ & _ & _ & Hl & Hx)].
  - split; [auto|]. intros [?|?]; auto.
  - assert (len (l ++ rr) <= len (set s)) by (destruct Hl as [(-> & _)|?]; lia).
    rewrite <- Hx. unfold mem. rewrite Hset. unfold placed, len_ in *. rewrite Z.geb_leb.
    destruct (Z.leb_spec (capacity s) (len (l ++ rr))); [lia|done].
Qed.

(** ** A well-formed set is determined by its members *)

Lemma chain_head_min lo m a b : chain lo ((a, b) :: m) ->
  mem_list ((a, b) :: m) a /\ forall x, mem_list ((a, b) :: m) x -> a <= x.
Proof.
  intros (? & ? & Hm). rewrite mem_list_cons. split; [lia|].
  intros x. rewrite mem_list_cons. intros [?|Hx]; [lia|].
  apply (mem_list_bounds _ _ _ Hm) in Hx. lia.
Qed.

Lemma chain_head_end lo m a b : chain lo ((a, b) :: m) -> ~ mem_list ((a, b) :: m) b.
Proof.
  intros (? & ? & Hm). rewrite mem_list_cons. intros [?|Hx]; [lia|].
  apply (mem_list_bounds _ _ _ Hm) in Hx. lia.
Qed.

Lemma chain_ext lo m m' :
  chain lo m -> chain lo m' -> (forall x, mem_list m x <-> mem_list m' x) -> m = m'.
Proof.
  revert lo m'. induction m as [|[a b] m IH]; intros lo m' Hm Hm' Hx.
  - destruct m' as [|[a' b'] m']; [done|].
    destruct (chain_head_min _ _ _ _ Hm') as [Ha _]. by apply Hx, mem_list_nil in Ha.
  - destruct m' as [|[a' b'] m'].
    { destruct (chain_head_min _ _ _ _ Hm) as [Ha _]. by apply Hx, mem_list_nil in Ha. }
    destruct (chain_head_min _ _ _ _ Hm) as [Ha Hmin].
    destruct (chain_head_min _ _ _ _ Hm') as [Ha' Hmin'].
    apply Hx, Hmin' in Ha. apply Hx, Hmin in Ha'. assert (a' = a) as -> by lia.
    pose proof (chain_head_end _ _ _ _ Hm) as Hnb. pose proof (chain_head_end _ _ _ _ Hm') as Hnb'.
    destruct Hm as (? & ? & Hm), Hm' as (? & ? & Hm').
    assert (b = b') as <-.
    { destruct (Z.lt_trichotomy b b') as [|[|]]; [|done|]; exfalso.
      - apply Hnb, Hx. rewrite mem_list_cons. lia.
      - apply Hnb', Hx. rewrite mem_list_cons. lia. }
    f_equal. apply (IH b); [done..|]. intros x. specialize (Hx x). rewrite !mem_list_cons in Hx.
    split; intros Hy.
    + pose proof (mem_list_bounds _ _ _ Hm Hy). destruct Hx as [[?|?] _]; [by right|lia|done].
    + pose proof (mem_list_bounds _ _ _ Hm' Hy). destruct Hx as [_ [?|?]]; [by right|lia|done].
Qed.

Lemma wf_ext s s' :
  wf s -> wf s' -> capacity s = capacity s' -> (forall x, mem s x <-> mem s' x) -> s = s'.
Proof.
  destruct s, s'. intros Hs Hs' Hc Hx. cbn in Hc. subst. f_equal. by apply (chain_ext (-1)).
Qed.

(** ** Removal *)

Lemma remove_loop_spec r : forall fuel l st en c,
  (length r < fuel)%nat -> Btree.keys_lt st l -> Btree.keys_ge st r -> chain c r -> st < en ->
  exists r', remove_loop fuel (l ++ r) st en = l ++ r' /\ chain c r' /\ len r' <= len r /\
    forall x, mem_list r' x <-> mem_list r x /\ ~ st <= x < en.
Proof.
  induction r as [|[a b] r IH]; intros fuel l st en c Hf Hl Hr Hc Hse;
    (destruct fuel as [|fuel]; [cbn in Hf; lia|]); cbn [remove_loop].
  - rewrite next_to_nil by (by rewrite app_nil_r).
    exists []. split_and!; auto; try lia. intros x. rewrite mem_list_nil. tauto.
  - rewrite next_to_split by done. cbn [start end_].
    destruct Hc as (? & ? & Hc). apply Forall_cons_1 in Hr as [Ha Hr]. cbn in Ha.
    rewrite !Z.gtb_ltb. destruct (Z.ltb_spec en a).
    { exists ((a, b) :: r). split_and!; cbn; auto; [lia|]. intros x. rewrite mem_list_cons.
      split; [|tauto]. intros Hx. split; [done|]. destruct Hx as [?|Hx]; [lia|].
      apply (mem_list_bounds _ _ _ Hc) in Hx. lia. }
    rewrite Btree.remove_mid by (by eapply keys_ge_lt_trans). rewrite len_cons.
    destruct (Z.ltb_spec en b).
    + exists ((en, b) :: r). rewrite Btree.insert_mid.
      * split_and!; [done|cbn; split_and!; auto; lia|rewrite len_cons; lia|].
        intros x. rewrite !mem_list_cons. split.
        -- intros [?|Hx]; [lia|]. split; [by right|]. apply (mem_list_bounds _ _ _ Hc) in Hx. lia.
        -- intros [[?|?] ?]; [left; lia|by right].
      * eapply keys_ge_lt_trans; [|done]. lia.
      * eapply Forall_impl; [apply Btree.above_keys_gt, chain_above, Hc|]. cbn. lia.
    + destruct (IH fuel l st en b) as (r' & -> & ? & ? & Hx); [cbn in Hf; lia|done..|].
      exists r'. split_and!; auto; [eapply chain_weaken; [|done]; lia|lia|].
      intros x. rewrite mem_list_cons, Hx. intuition lia.
Qed.

(** The loop started on a map cut as [l ++ r] around the removed range. *)
Lemma remove_finish l r st en :
  chain (-1) l -> top (-1) l <= st -> Btree.keys_lt st l -> Btree.keys_ge st r ->
  chain (top (-1) l) r -> st < en ->
  let m := remove_loop (S (length (l ++ r))) (l ++ r) st en in
  chain (-1) m /\ len m <= len (l ++ r) /\
  forall x, mem_list m x <-> mem_list (l ++ r) x /\ ~ st <= x < en.
Proof.
  intros Hl Ht Hlt Hge Hr Hse m.
  destruct (remove_loop_spec r (S (length (l ++ r))) l st en (top (-1) l))
    as (r' & Heq & Hr' & ? & Hx); [rewrite length_app; lia|done..|].
  unfold m. rewrite Heq, chain_app, !len_app. split_and!; auto; [lia|].
  intros x. rewrite !mem_list_app, Hx. split; [|tauto]. intros [H'|?]; [|tauto].
  split; [tauto|]. apply (mem_list_bounds _ _ _ Hl) in H'. lia.
Qed.

(** The part left of [st] of a range starting at [ps]. *)
Definition left_part (l : list (Z * Z)) (ps st : Z) : list (Z * Z) :=
  if ps <? st then l ++ [(ps, st)] else l.

Lemma left_part_insert l rr ps st c :
  Btree.keys_lt ps l -> ps < c -> chain c rr ->
  (if ps <? st then Btree.insert ps st (l ++ rr) else l ++ rr) = left_part l ps st ++ rr.
Proof.
  intros Hl Hc Hrr. unfold left_part. destruct (Z.ltb_spec ps st); [|done].
  rewrite Btree.insert_mid, <- app_assoc; [done..|].
  eapply Forall_impl; [apply Btree.above_keys_gt, chain_above, Hrr|]. cbn. lia.
Qed.

Lemma left_part_spec l ps st :
  chain (-1) l -> top (-1) l < ps -> ps <= st ->
  chain (-1) (left_part l ps st) /\ top (-1) (left_part l ps st) <= st /\
  Btree.keys_lt st (left_part l ps st) /\ len (left_part l ps st) <= len l + 1 /\
  forall x, mem_list (left_part l ps st) x <-> mem_list l x \/ ps <= x < st.
Proof.
  intros Hl Ht Hle. pose proof (chain_keys_lt _ _ _ Hl Ht) as Hlt.
  unfold left_part. destruct (Z.ltb_spec ps st).
  - rewrite chain_app, top_app, len_app. split_and!; auto; cbn; auto.
    + lia.
    + apply Forall_app. split; [by eapply keys_ge_lt_trans|]. by repeat constructor.
    + change (len [(ps, st)]) with 1. lia.
    + intros x. rewrite mem_list_app, mem_list_cons, mem_list_nil. tauto.
  - split_and!; auto; [lia|by eapply keys_ge_lt_trans|lia|]. intros x. intuition lia.
Qed.

(** Cutting [st..pe] out of the range [ps..pe] between [l] and [rr]. *)
Lemma left_part_mem l rr ps pe st x :
  chain (-1) (l ++ (ps, pe) :: rr) -> ps <= st < pe ->
  mem_list (left_part l ps st ++ rr) x <->
  mem_list (l ++ (ps, pe) :: rr) x /\ ~ (st <= x < pe).
Proof.
  rewrite chain_app. intros (Hl & Ht & Hp & Hrr) Hst.
  destruct (left_part_spec l ps st Hl Ht ltac:(lia)) as (_ & _ & _ & _ & Hx).
  rewrite !mem_list_app, !mem_list_cons, Hx. split.
  - intros [[Hm|?]|Hm]; [|lia|]; (split; [tauto|]).
    + apply (mem_list_bounds _ _ _ Hl) in Hm. lia.
    + apply (mem_list_bounds _ _ _ Hrr) in Hm. lia.
  - intros [[?|[?|?]] ?]; [tauto|lia|tauto].
Qed.

(** Removal starting inside the range [ps..pe]. *)
Lemma remove_inside l ps pe rr st en :
  chain (-1) (l ++ (ps, pe) :: rr) -> ps <= st < pe -> st < en ->
  let m := left_part l ps st ++ rr in
  let m := if pe >? en then Btree.insert en pe m else m in
  let m := if pe >=? en then m else remove_loop (S (length m)) m st en in
  chain (-1) m /\ len m <= len (l ++ (ps, pe) :: rr) + 1 /\
  forall x, mem_list m x <-> mem_list (l ++ (ps, pe) :: rr) x /\ ~ st <= x < en.
Proof.
  intros Hwf Hst Hse. cbv zeta. pose proof (left_part_mem l rr ps pe st) as Hy.
  pose proof Hwf as Hwf'. apply chain_app in Hwf' as (Hl & Ht & Hp & Hrr).
  destruct (left_part_spec l ps st Hl Ht ltac:(lia)) as (Hl' & Ht' & Hlt' & Hlen' & _).
  rewrite Z.gtb_ltb, Z.geb_leb. rewrite (len_app l), len_cons.
  destruct (Z.ltb_spec en pe).
  - destruct (Z.leb_spec en pe); [|lia].
    rewrite Btree.insert_mid; [|by eapply keys_ge_lt_trans; [|done]; lia|].
    2: { eapply Forall_impl; [apply Btree.above_keys_gt, chain_above, Hrr|]. cbn. lia. }
    rewrite chain_app, len_app, len_cons. split_and!; auto; [cbn; split_and!; auto; lia|lia|].
    intros x. specialize (Hy x Hwf Hst). rewrite (mem_list_app (left_part l ps st)) in *.
    rewrite mem_list_cons. destruct Hy as [Hy1 Hy2]. split.
    2: { intros [Hm ?]. destruct (decide (en <= x < pe)); [tauto|].
         destruct Hy2; [split; [done|lia]|tauto..]. }
    intros [Hm|[?|Hm]]; [|rewrite mem_list_app, mem_list_cons; intuition lia|].
    + destruct (Hy1 (or_introl Hm)) as [Hm' ?]. split; [done|].
      apply (mem_list_bounds _ _ _ Hl') in Hm. lia.
    + destruct (Hy1 (or_intror Hm)) as [Hm' ?]. split; [done|].
      apply (mem_list_bounds _ _ _ Hrr) in Hm. lia.
  - destruct (Z.leb_spec en pe).
    + assert (pe = en) as <- by lia. rewrite chain_app, len_app.
      split_and!; auto; [eapply chain_weaken; [|done]; lia|lia].
    + destruct (remove_finish (left_part l ps st) rr st en) as (? & Hlen & Hx); auto.
      * eapply chain_keys_ge; [|done]. lia.
      * eapply chain_weaken; [|done]. lia.
      * rewrite len_app in Hlen. split_and!; auto; [lia|].
        intros x. rewrite Hx, Hy by done. intuition lia.
Qed.

Lemma remove_spec s r :
  wf s -> 0 <= start r -> start r < end_ r ->
  wf (remove s r) /\ len_ (remove s r) <= len_ s + 1 /\
  forall x, mem (remove s r) x <-> mem s x /\ ~ in_range r x.
Proof.
  intros Hwf H0 Hne. unfold remove, wf, mem, in_range, len_, range_is_empty in *.
  destruct (is_empty s) eqn:He.
  { unfold is_empty in He. destruct (set s) eqn:Hs; [|done]. cbn. rewrite Hs.
    split_and!; auto; try lia. intros x. rewrite mem_list_nil. tauto. }
  destruct (Z.ltb_spec (start r) (end_ r)); [|lia]. cbn [negb orb]. clear He.
  pose proof (prev_to_spec _ _ (start r) Hwf) as Hp.
  destruct (prev_to (set s) (start r)) as [p|].
  - destruct Hp as (l & rr & Heq & Hle & Hgt). rewrite Heq in *.
    pose proof Hwf as Hwf'. apply chain_app in Hwf' as (Hl & Htop & Hp & Hrr).
    pose proof (chain_keys_lt _ _ _ Hl Htop) as Hlt. rewrite Z.gtb_ltb.
    destruct (Z.ltb_spec (start r) (end_ p)).
    + rewrite Btree.remove_mid, (left_part_insert l rr _ _ (end_ p)) by done.
      pose proof (remove_inside l (start p) (end_ p) rr (start r) (end_ r) Hwf ltac:(lia) Hne) as Hin.
      cbv zeta in Hin. by destruct (end_ p >=? end_ r).
    + replace (l ++ (start p, end_ p) :: rr) with ((l ++ [(start p, end_ p)]) ++ rr)
        by (by rewrite <- app_assoc). cbn [set].
      assert (chain (-1) (l ++ [(start p, end_ p)])) by (rewrite chain_app; cbn; auto).
      destruct (remove_finish (l ++ [(start p, end_ p)]) rr (start r) (end_ r)) as (? & Hlen & Hx).
      * done.
      * rewrite top_app. cbn. lia.
      * apply Forall_app. split; [by apply (keys_ge_lt_trans (start p))|].
        repeat constructor. cbn. lia.
      * eapply Forall_impl; [exact Hgt|]. cbn. lia.
      * by rewrite top_app.
      * done.
      * split_and!; auto. lia.
  - cbn [set]. destruct (remove_finish [] (set s) (start r) (end_ r)) as (? & Hlen & Hx);
      [done|cbn; lia|constructor|eapply Forall_impl; [exact Hp|]; cbn; lia|done..|].
    split_and!; auto. cbn in *. lia.
Qed.

Lemma remove_empty s r : end_ r <= start r -> remove s r = s.
Proof.
  intros. unfold remove, range_is_empty. destruct (Z.ltb_spec (start r) (end_ r)); [lia|].
  cbn. by rewrite orb_true_r.
Qed.

Lemma remove_capacity s r : capacity (remove s r) = capacity s.
Proof.
  unfold remove. destruct (_ || _); [done|]. destruct (prev_to _ _) as [p|]; [|done].
  destruct (_ >? _); [|done]. by destruct (_ >=? _).
Qed.

(** ** Queries *)

(** The members of a chain cut at one of its ranges, seen from [x]. *)
Lemma mem_cut lo l a b r x :
  chain lo (l ++ (a, b) :: r) -> a <= x -> Btree.keys_gt x r ->
  mem_list (l ++ (a, b) :: r) x <-> x < b.
Proof.
  rewrite chain_app. intros (Hl & Ht & Hab & Hr) Ha Hgt.
  rewrite mem_list_app, mem_list_cons. split; [|lia].
  intros [Hx|[?|Hx]]; [apply (mem_list_bounds _ _ _ Hl) in Hx; lia|lia|].
  apply Exists_exists in Hx as (q & Hq & ?). unfold Btree.keys_gt in Hgt.
  rewrite Forall_forall in Hgt. specialize (Hgt _ Hq). cbn in Hgt. lia.
Qed.

Lemma keys_gt_not_mem x m : Btree.keys_gt x m -> ~ mem_list m x.
Proof.
  intros Hgt Hx. apply Exists_exists in Hx as (q & Hq & ?). unfold Btree.keys_gt in Hgt.
  rewrite Forall_forall in Hgt. specialize (Hgt _ Hq). cbn in Hgt. lia.
Qed.

Lemma contains_spec s x : wf s -> contains s x = true <-> mem s x.
Proof.
  intros Hwf. unfold contains, range_contains, mem.
  pose proof (prev_to_spec _ _ x Hwf) as Hp.
  destruct (next_to (set s) x) as [q|] eqn:Hn.
  - apply (next_to_spec _ _ _ _ Hwf) in Hn as (l' & r' & Heq' & Hq & _).
    destruct (prev_to (set s) x) as [p|]; cbn.
    + destruct Hp as (l & r & Heq & Hle & Hgt). rewrite Heq.
      rewrite (mem_cut (-1)) by (done || by rewrite <- Heq).
      destruct (Z.leb_spec (start p) x); [|lia].
      destruct (Z.ltb_spec x (end_ p)); cbn; [split; lia || done|].
      destruct (Z.leb_spec (start q) x), (Z.ltb_spec x (end_ q)); cbn; try (split; lia || done).
      split; [|lia]. intros _. rewrite <- (mem_cut (-1) l (start p) (end_ p) r) by (done || by rewrite <- Heq).
      rewrite <- Heq, Heq', mem_list_app, mem_list_cons. lia.
    + destruct (Z.leb_spec (start q) x), (Z.ltb_spec x (end_ q)); cbn;
        (split; [|by intros ?%keys_gt_not_mem]); try done.
      intros _. rewrite Heq', mem_list_app, mem_list_cons. lia.
  - destruct (prev_to (set s) x) as [p|]; cbn.
    + destruct Hp as (l & r & Heq & Hle & Hgt). rewrite Heq.
      rewrite (mem_cut (-1)) by (done || by rewrite <- Heq).
      destruct (Z.leb_spec (start p) x); [|lia].
      by destruct (Z.ltb_spec x (end_ p)); cbn; split; try lia.
    + split; [done|]. by intros ?%keys_gt_not_mem.
Qed.

Lemma min_spec s : wf s ->
  match min s with
  | Some a => mem s a /\ forall x, mem s x -> a <= x
  | None => forall x, ~ mem s x
  end.
Proof.
  intros Hwf. unfold min, iter, mem, wf in *. destruct (set s) as [|[a b] m]; cbn.
  - intros x ?%mem_list_nil. done.
  - by apply (chain_head_min (-1)).
Qed.

Lemma max_spec s : wf s ->
  match max s with
  | Ok (Some a) => mem s a /\ forall x, mem s x -> x <= a
  | Ok None => forall x, ~ mem s x
  | _ => False
  end.
Proof.
  intros Hwf. unfold max, iter, mem, wf in *.
  destruct (set s) as [|[a b] m _] using rev_ind; [by intros x ?%mem_list_nil|].
  rewrite map_app. cbn [map]. rewrite last_snoc. cbn. pose proof Hwf as Hwf'.
  apply chain_app in Hwf' as (Hl & Ht & ? & _). pose proof (chain_top _ _ Hl).
  rewrite sub64_ok by lia. cbn. split.
  - rewrite mem_list_app, mem_list_cons. lia.
  - intros x Hx. apply (mem_list_bounds _ _ _ Hwf) in Hx. rewrite top_app in Hx. cbn in Hx. lia.
Qed.

Lemma pop_min_spec s :
  match pop_min s with
  | (Some r, s') => set s = (start r, end_ r) :: set s' /\ capacity s' = capacity s
  | (None, s') => set s = [] /\ s' = s
  end.
Proof.
  unfold pop_min, peek_min. destruct (set s) as [|[a b] m]; cbn; [done|].
  by rewrite Z.eqb_refl.
Qed.

Lemma eq_range_spec s r : eq_range s r = true <-> set s = [(start r, end_ r)].
Proof.
  unfold eq_range, len_, peek_min. rewrite andb_true_iff, bool_decide_eq_true, Z.eqb_eq.
  destruct (set s) as [|[a b] [|q m]]; cbn; destruct r as [st en]; cbn.
  - split; [by intros [? ?]|done].
  - unfold to_range. cbn. split; [by intros [_ [= -> ->]]|by intros [= -> ->]].
  - rewrite !len_cons. pose proof (len_nonneg m). split; [lia|done].
Qed.

(** The gap before the first range of [rr], cut at [en]. *)
Definition gap_end (rr : list (Z * Z)) (en : Z) : Z :=
  match rr with
  | (a, _) :: _ => if a <? en then a else en
  | [] => en
  end.

Lemma gap_end_spec c rr en : chain c rr -> c < en ->
  c < gap_end rr en <= en /\
  (forall x, x < gap_end rr en -> ~ mem_list rr x) /\
  (gap_end rr en = en \/ mem_list rr (gap_end rr en)).
Proof.
  intros Hc Hen. unfold gap_end. destruct rr as [|[a b] rr].
  - split_and!; try lia. by intros x _ ?%mem_list_nil.
  - destruct (chain_head_min _ _ _ _ Hc) as [Ha Hmin]. destruct Hc as (? & ? & _).
    split; [zcase; lia|]. split.
    + intros x Hx Hm. apply Hmin in Hm. zcase_in Hx; lia.
    + destruct (Z.ltb_spec a en); auto.
Qed.

Lemma next_after_gap l rr k en :
  Forall (fun p => p.1 <= k) l -> Btree.keys_gt k rr ->
  match next_after (l ++ rr) k with
  | Some n => if start n <? en then start n else en
  | None => en
  end = gap_end rr en.
Proof.
  intros Hl Hr. unfold next_after. rewrite Btree.range_after_app, head_to_range by done.
  by destruct rr as [|[a b] rr].
Qed.

(** [filter] returns the first gap of the set inside the given range. *)
Lemma filter_spec s r : wf s -> 0 <= start r -> start r < end_ r ->
  match filter_ s r with
  | Some q =>
      start r <= start q < end_ q /\ end_ q <= end_ r /\
      (forall x, start r <= x < start q -> mem s x) /\
      (forall x, in_range q x -> ~ mem s x) /\
      (end_ q = end_ r \/ mem s (end_ q))
  | None => forall x, in_range r x -> mem s x
  end.
Proof.
  intros Hwf H0 Hne. unfold filter_, in_range, mem, wf in *.
  destruct (is_empty s) eqn:He.
  { unfold is_empty in He. destruct (set s); [|done].
    split_and!; try lia; by intros x ? ?%mem_list_nil. }
  clear He. pose proof (prev_to_spec _ _ (start r) Hwf) as Hp.
  destruct (prev_to (set s) (start r)) as [p|].
  - destruct Hp as (l & rr & Heq & Hle & Hgt). rewrite Heq in *. rewrite Z.geb_leb, Z.gtb_ltb.
    pose proof Hwf as Hwf'. apply chain_app in Hwf' as (Hl & Htop & Hp & Hrr).
    destruct (Z.leb_spec (end_ r) (end_ p)).
    { intros x Hx. rewrite mem_list_app, mem_list_cons. lia. }
    replace (l ++ (start p, end_ p) :: rr) with ((l ++ [(start p, end_ p)]) ++ rr) in *
      by (by rewrite <- app_assoc).
    rewrite next_after_gap.
    2: { apply Forall_app. split; [|by repeat constructor].
         eapply Forall_impl; [apply (chain_keys_lt _ _ _ Hl Htop)|]. cbn. lia. }
    2: done.
    set (ns := if start r <? end_ p then end_ p else start r).
    assert (ns = Z.max (end_ p) (start r)) as Hns by (unfold ns; zcase; lia). clearbody ns.
    assert (chain ns rr) as Hrr'.
    { destruct rr as [|[a b] rr]; [done|]. destruct Hrr as (? & ? & ?).
      apply Forall_cons_1 in Hgt as [Ha _]. cbn in Ha |- *. split_and!; auto. lia. }
    destruct (gap_end_spec ns rr (end_ r) Hrr') as (? & Hg & He); [lia|]. cbn [start end_].
    split_and!; try lia.
    + intros x Hx. rewrite !mem_list_app, mem_list_cons. lia.
    + intros x Hx. rewrite !mem_list_app, mem_list_cons, mem_list_nil.
      intros [[Hm|[?|[]]]|Hm]; [|lia|by apply Hg in Hm; [|lia]].
      apply (mem_list_bounds _ _ _ Hl) in Hm. lia.
    + rewrite mem_list_app. tauto.
  - rewrite (next_after_gap [] (set s)) by (done || constructor). cbn [start end_].
    assert (chain (start r) (set s)) as Hc.
    { destruct (set s) as [|[a b] m]; [done|]. apply Forall_cons_1 in Hp as [Ha _].
      cbn in Ha, Hwf |- *. tauto. }
    destruct (gap_end_spec _ _ (end_ r) Hc Hne) as (? & Hg & He).
    split_and!; try lia; auto. intros x Hx. apply Hg. lia.
Qed.

(** ** [remove_until] *)

Lemma remove_until_loop_spec l r s elem :
  chain (-1) (l ++ r) -> set s = l ++ r -> len (l ++ r) <= capacity s ->
  Forall (fun p => p.1 <= elem) l -> Btree.keys_gt elem r -> 0 <= elem < 18446744073709551615 ->
  exists s', remove_until_loop l s elem = Ok s' /\ wf s' /\ capacity s' = capacity s /\
    forall x, mem s' x <-> mem_list (l ++ r) x /\ elem < x.
Proof.
  revert s. induction l as [|[a b] l IH]; intros s Hc Hs Hcap Hl Hr He; cbn [remove_until_loop].
  - exists s. unfold wf, mem. rewrite Hs. split_and!; auto. intros x. cbn. split; [|tauto].
    intros Hx. split; [done|]. apply Exists_exists in Hx as (q & Hq & ?).
    unfold Btree.keys_gt in Hr. rewrite Forall_forall in Hr. specialize (Hr _ Hq). lia.
  - apply Forall_cons_1 in Hl as [Ha Hl]. cbn in Ha. cbn [app] in *. rewrite len_cons in Hcap.
    destruct Hc as (? & ? & Hc). rewrite add64_ok by lia. cbn [mbind outcome_bind].
    rewrite Hs. cbn [Btree.remove]. rewrite Z.eqb_refl, Z.gtb_ltb.
    set (s1 := mkRangeSet (l ++ r) (capacity s)).
    assert (chain (-1) (l ++ r)) as Hc1 by (eapply chain_weaken; [|done]; lia).
    destruct (Z.ltb_spec (elem + 1) b).
    + assert (l = []) as ->.
      { destruct l as [|[a' b'] l]; [done|]. apply Forall_cons_1 in Hl as [Ha' _].
        cbn in Ha', Hc. lia. }
      cbn in *. exists (insert s1 (mkRange (elem + 1) b)).
      split_and!; [done|apply insert_wf; [done|cbn; lia]|by rewrite insert_capacity|].
      intros x. rewrite insert_mem; [|done|cbn; lia|unfold len_; cbn; lia].
      unfold in_range, mem. cbn. rewrite mem_list_cons. split.
      * intros [Hx|?]; [|lia]. split; [by right|]. apply (mem_list_bounds _ _ _ Hc) in Hx. lia.
      * intros [[?|?] ?]; [right; lia|by left].
    + destruct (IH s1 Hc1) as (s' & -> & ? & ? & Hx); auto; [cbn; lia|].
      exists s'. split_and!; auto. intros x. rewrite Hx, mem_list_cons. intuition lia.
Qed.

Lemma remove_until_spec s elem :
  wf s -> len_ s <= capacity s -> 0 <= elem < 18446744073709551615 ->
  exists s', remove_until s elem = Ok s' /\ wf s' /\ capacity s' = capacity s /\
    forall x, mem s' x <-> mem s x /\ elem < x.
Proof.
  intros Hwf Hlen He. unfold remove_until, wf, len_, mem in *.
  destruct (range_cut _ _ elem Hwf) as (l & r & Heq & Hl & Hr).
  rewrite Heq in *. rewrite Btree.range_to_app by done.
  by apply remove_until_loop_spec.
Qed.

(** ** The flattened iterators *)

Definition elems (m : list (Z * Z)) : list Z :=
  flat_map (fun p => seqZ p.1 (p.2 - p.1)) m.

Lemma elems_cons a b m : elems ((a, b) :: m) = seqZ a (b - a) ++ elems m.
Proof. done. Qed.

Lemma seqZ_head a n : 0 < n -> seqZ a n = a :: seqZ (a + 1) (n - 1).
Proof. intros. by rewrite seqZ_cons by lia. Qed.

Lemma seqZ_last a n : 0 < n -> seqZ a n = seqZ a (n - 1) ++ [a + n - 1].
Proof.
  intros. replace n with ((n - 1) + 1) at 1 by lia. rewrite seqZ_app by lia.
  f_equal. rewrite seqZ_head by lia. f_equal; lia.
Qed.

Lemma flatten_collect_spec fuel : forall m n e lo,
  chain lo m -> n <= e -> (length (seqZ n (e - n) ++ elems m) < fuel)%nat ->
  flatten_collect fuel (mkFlatten m n e) = seqZ n (e - n) ++ elems m.
Proof.
  induction fuel as [|fuel IH]; intros m n e lo Hm Hne Hf; [lia|].
  cbn [flatten_collect]. unfold flatten_next. cbn [f_set f_next f_end].
  destruct (Z.eqb_spec n e) as [->|Hn].
  - rewrite Z.sub_diag in *. cbn [app] in *. change (seqZ e 0) with (@nil Z) in *.
    destruct m as [|[a b] m]; [done|]. destruct Hm as (? & ? & Hm).
    rewrite elems_cons in *. rewrite (seqZ_head a) in * by lia.
    cbn [app length] in *. rewrite (IH m (a + 1) b b); [f_equal; f_equal; f_equal; lia|done|lia|].
    replace (b - (a + 1)) with (b - a - 1) by lia. lia.
  - rewrite (seqZ_head n) in * by lia. cbn [app length] in *.
    rewrite (IH m (n + 1) e lo); [f_equal; f_equal; f_equal; lia|done|lia|].
    replace (e - (n + 1)) with (e - n - 1) by lia. lia.
Qed.

Lemma elems_app l r : elems (l ++ r) = elems l ++ elems r.
Proof. apply flat_map_app. Qed.

Lemma flatten_collect_back_spec fuel : forall m n e lo,
  chain lo m -> n <= e -> (length (elems m ++ seqZ n (e - n)) < fuel)%nat ->
  flatten_collect_back fuel (mkFlatten m n e) = rev (elems m ++ seqZ n (e - n)).
Proof.
  induction fuel as [|fuel IH]; intros m n e lo Hm Hne Hf; [lia|].
  cbn [flatten_collect_back]. unfold flatten_next_back. cbn [f_set f_next f_end].
  destruct (Z.eqb_spec n e) as [->|Hn].
  - rewrite Z.sub_diag in *. change (seqZ e 0) with (@nil Z) in *. rewrite app_nil_r in *.
    destruct m as [|[a b] m _] using rev_ind; [done|].
    rewrite last_snoc, removelast_last. apply chain_app in Hm as (Hm & ? & ? & _).
    rewrite elems_app, elems_cons, app_nil_r in *.
    rewrite (seqZ_last a) in * by lia. rewrite app_assoc, rev_app_distr. cbn [rev app].
    rewrite !length_app in Hf. cbn [length] in Hf.
    replace (a + (b - a) - 1) with (b - 1) by lia.
    rewrite (IH m a (b - 1) lo); [|done|lia|rewrite length_app; replace (b - 1 - a) with (b - a - 1) by lia; lia].
    do 4 f_equal. lia.
  - rewrite (seqZ_last n) in * by lia. rewrite app_assoc, rev_app_distr. cbn [rev app].
    rewrite !length_app in Hf. cbn [length] in Hf.
    replace (n + (e - n) - 1) with (e - 1) by lia.
    rewrite (IH m n (e - 1) lo); [|done|lia|rewrite length_app; replace (e - 1 - n) with (e - n - 1) by lia; lia].
    do 4 f_equal. lia.
Qed.

Lemma elem_of_elems m x : x ∈ elems m <-> mem_list m x.
Proof.
  unfold elems, mem_list. rewrite list_elem_of_In, in_flat_map, Exists_exists.
  split; intros (p & Hp & Hx); exists p; rewrite list_elem_of_In in *; (split; [done|]).
  - apply list_elem_of_In, elem_of_seqZ in Hx. lia.
  - apply list_elem_of_In, elem_of_seqZ. lia.
Qed.

(** ** Sets of [u64] values in an unbounded [RangeSet]

    With the default capacity the eviction branch of [insert] cannot be taken:
    two ranges are separated by a missing integer, so a set of [u64] values has
    far fewer ranges than [usize::MAX]. *)

Definition u64_set (s : RangeSet) : Prop :=
  wf s /\ capacity s = 18446744073709551615 /\ forall x, mem s x -> x < 18446744073709551615.

Lemma chain_len lo m : chain lo m -> lo + 2 * len m <= top lo m.
Proof.
  revert lo. induction m as [|[a b] m IH]; intros lo; cbn; [rewrite (@len_nil (Z * Z)); lia|].
  intros (? & ? & Hm). apply IH in Hm. rewrite len_cons. lia.
Qed.

Lemma top_mem lo m : chain lo m -> m <> [] -> mem_list m (top lo m - 1).
Proof.
  destruct m as [|[a b] m _] using rev_ind; [done|]. intros Hm _.
  apply chain_app in Hm as (_ & ? & ? & _).
  rewrite top_app, mem_list_app, mem_list_cons. cbn. lia.
Qed.

Lemma u64_set_len s : u64_set s -> len_ s < capacity s.
Proof.
  intros (Hwf & -> & Hb). unfold len_, wf, mem in *.
  destruct (decide (set s = [])) as [->|Hne]; [by vm_compute|].
  pose proof (chain_len _ _ Hwf). pose proof (Hb _ (top_mem _ _ Hwf Hne)). lia.
Qed.

Lemma u64_set_default : u64_set default.
Proof. split_and!; [done..|]. by intros x ?%mem_list_nil. Qed.

Lemma u64_set_insert s r :
  u64_set s -> 0 <= start r -> end_ r <= 18446744073709551615 ->
  u64_set (insert s r) /\ forall x, mem (insert s r) x <-> mem s x \/ in_range r x.
Proof.
  intros Hs H0 He. pose proof (u64_set_len s Hs) as Hlen. destruct Hs as (Hwf & Hc & Hb).
  assert (forall x, mem (insert s r) x <-> mem s x \/ in_range r x) as Hx
    by (intros; by apply insert_mem).
  split; [|done]. split_and!; [by apply insert_wf|by rewrite insert_capacity|].
  intros x [?|?]%Hx; [auto|]. unfold in_range in *. lia.
Qed.

Lemma u64_set_remove s r :
  u64_set s -> 0 <= start r ->
  u64_set (remove s r) /\ forall x, mem (remove s r) x <-> mem s x /\ ~ in_range r x.
Proof.
  intros (Hwf & Hc & Hb) H0. destruct (Z.lt_ge_cases (start r) (end_ r)) as [Hne|Hne].
  - destruct (remove_spec s r Hwf H0 Hne) as (Hwf' & _ & Hx). split; [|done].
    split_and!; [done|by rewrite remove_capacity|]. intros x [? _]%Hx. auto.
  - rewrite remove_empty by done. split; [done|]. intros x. unfold in_range. intuition lia.
Qed.

(** Elements lost by an insertion into a full set lie in its lowest range. *)
Lemma placed_lost cap l st en r x :
  chain (-1) (l ++ (st, en) :: r) -> mem_list (l ++ r) x -> ~ mem_list (placed cap l st en r) x ->
  cap <= len (l ++ r) /\ exists a b, head (l ++ r) = Some (a, b) /\ a <= x < b.
Proof.
  unfold placed. rewrite Z.geb_leb. intros Hc Hx Hn.
  destruct (Z.leb_spec cap (len (l ++ r))).
  - split; [done|]. destruct l as [|[a b] l]; [destruct r as [|[a b] r]|];
      rewrite ?mem_list_app, ?mem_list_cons, ?mem_list_nil in *; cbn in *;
      rewrite ?mem_list_app, ?mem_list_cons, ?mem_list_nil in *; try tauto;
      exists a, b; (split; [done|]); tauto.
  - rewrite mem_list_app, mem_list_cons in *. tauto.
Qed.

Lemma placed_kept cap l st en r x : st <= x < en -> mem_list (placed cap l st en r) x.
Proof.
  intros. unfold placed. destruct (_ >=? _); [destruct l|];
    rewrite ?mem_list_app, ?mem_list_cons; tauto.
Qed.

Lemma placed_sub cap l st en r x :
  mem_list (placed cap l st en r) x -> mem_list (l ++ (st, en) :: r) x.
Proof.
  unfold placed. destruct (_ >=? _); [|done].
  destruct l as [|[a b] l]; [destruct r as [|[a b] r]|]; cbn [tail app];
    rewrite ?mem_list_app, ?mem_list_cons, ?mem_list_app, ?mem_list_cons; tauto.
Qed.

End RangeSet.

Import RangeSet.

(** ** Properties *)

(** C26.  [RangeSet::insert] keeps the representation canonical and the set
    within its capacity.  Every element of the inserted range is in the result,
    nothing else is added, and nothing is lost unless the set was full, in which
    case what is lost lies in the lowest range of the old set. *)
Theorem rangeset_insert_correct s r :
  wf s -> 0 <= start r -> 1 <= capacity s -> len_ s <= capacity s ->
  wf (insert s r) /\ len_ (insert s r) <= capacity s /\
  (forall x, in_range r x -> mem (insert s r) x) /\
  (forall x, mem (insert s r) x -> mem s x \/ in_range r x) /\
  (forall x, mem s x -> ~ mem (insert s r) x ->
     len_ s = capacity s /\ exists q, peek_min s = Some q /\ in_range q x).
Proof.
  intros Hwf H0 Hcap Hlen.
  split; [by apply insert_wf|]. split; [by apply insert_len|].
  destruct (Z.lt_ge_cases (start r) (end_ r)) as [Hne|Hne].
  2: { rewrite insert_empty by done. unfold in_range. split_and!; [lia|auto|done]. }
  destruct (insert_shape s r Hwf H0 Hne)
    as [[-> Hcov]|(l & st & en & rr & Hset & Hc & Hst & Hen & Hl & Hx)]; [split_and!; auto; done|].
  unfold mem at 1 2. rewrite Hset. split_and!.
  - intros x Hr. apply placed_kept. unfold in_range in Hr. lia.
  - intros x Hm. by apply Hx, (placed_sub (capacity s)).
  - intros x Hm Hn. unfold mem in Hn. rewrite Hset in Hn. unfold len_ in *.
    destruct Hl as [(Heq & -> & ->)|Hl].
    + unfold mem, peek_min in *. rewrite <- Heq in *.
      destruct (placed_lost _ _ _ _ _ _ Hc Hm Hn) as (? & a & b & Hhd & Hab).
      split; [lia|]. exists (mkRange a b). by rewrite Hhd.
    + exfalso. apply Hn. unfold placed. rewrite Z.geb_leb.
      destruct (Z.leb_spec (capacity s) (len (l ++ rr))); [lia|]. apply Hx. by left.
Qed.

Lemma rangeset_insert_correct_witness :
  let s := insert (insert (new 2) (mkRange 10 20)) (mkRange 30 40) in
  wf (insert s (mkRange 50 60)) /\ len_ (insert s (mkRange 50 60)) <= 2 /\
  ~ mem (insert s (mkRange 50 60)) 10.
Proof.
  intros s.
  destruct (rangeset_insert_correct s (mkRange 50 60)) as (H1 & H2 & _);
    [vm_compute; intuition congruence..|]. split; [exact H1|]. split; [exact H2|].
  rewrite <- contains_spec by exact H1. vm_compute. discriminate.
Defined.

(** [RangeSet::remove] computes set difference and [remove_until] drops
    exactly the elements up to the given one, both keeping the representation
    canonical. *)
Theorem rangeset_remove_correct s r elem :
  wf s -> 0 <= start r -> len_ s <= capacity s -> 0 <= elem < 18446744073709551615 ->
  wf (remove s r) /\ (forall x, mem (remove s r) x <-> mem s x /\ ~ in_range r x) /\
  exists s', remove_until s elem = Ok s' /\ wf s' /\ capacity s' = capacity s /\
    forall x, mem s' x <-> mem s x /\ elem < x.
Proof.
  intros Hwf H0 Hlen He. apply and_assoc. split; [|by apply remove_until_spec].
  destruct (Z.lt_ge_cases (start r) (end_ r)) as [Hne|Hne].
  - by destruct (remove_spec s r Hwf H0 Hne) as (? & _ & ?).
  - rewrite remove_empty by done. split; [done|]. unfold in_range. intuition lia.
Qed.

Lemma rangeset_remove_correct_witness :
  let s := insert (insert default (mkRange 10 20)) (mkRange 30 40) in
  wf (remove s (mkRange 15 35)) /\ set (remove s (mkRange 15 35)) = [(10, 15); (35, 40)].
Proof.
  intros s.
  destruct (rangeset_remove_correct s (mkRange 15 35) 12) as (H1 & _); [vm_compute; intuition congruence..|].
  split; [exact H1|]. vm_compute. reflexivity.
Defined.

(** Removal can break the capacity bound: cutting the middle out of a
    range leaves two ranges in a set of capacity one. *)
Theorem rangeset_remove_exceeds_capacity :
  let s := remove (insert (new 1) (mkRange 0 10)) (mkRange 3 5) in
  capacity s = 1 /\ len_ s = 2.
Proof. vm_compute. done. Qed.

(** The queries agree with the abstract set: [contains] is membership,
    [min] and [max] are the least and greatest element and [max] never
    underflows, [pop_min] takes the lowest range off, and comparison with a
    range holds exactly when the set is that one range. *)
Theorem rangeset_queries_correct s x r : wf s ->
  (contains s x = true <-> mem s x) /\
  match min s with
  | Some a => mem s a /\ forall y, mem s y -> a <= y
  | None => forall y, ~ mem s y
  end /\
  match max s with
  | Ok (Some a) => mem s a /\ forall y, mem s y -> y <= a
  | Ok None => forall y, ~ mem s y
  | _ => False
  end /\
  match pop_min s with
  | (Some q, s') => set s = (start q, end_ q) :: set s' /\ capacity s' = capacity s
  | (None, s') => set s = [] /\ s' = s
  end /\
  (eq_range s r = true <-> set s = [(start r, end_ r)]).
Proof.
  intros Hwf. split_and!.
  - by apply contains_spec.
  - by apply min_spec.
  - by apply max_spec.
  - apply pop_min_spec.
  - apply eq_range_spec.
Qed.

Lemma rangeset_queries_correct_witness :
  let s := insert (insert default (mkRange 10 20)) (mkRange 30 40) in
  mem s 35 /\ max s = Ok (Some 39).
Proof.
  intros s. destruct (rangeset_queries_correct s 35 (mkRange 0 1)) as (H & _); [vm_compute; intuition congruence|].
  split; [apply H; vm_compute; reflexivity|vm_compute; reflexivity].
Defined.

(** [filter] returns the first gap of the set inside a range: the part of
    the range before it is covered, the gap itself is disjoint from the set and
    cannot be extended, and [None] means the whole range is covered. *)
Theorem rangeset_filter_correct s r :
  wf s -> 0 <= start r -> start r < end_ r ->
  match filter_ s r with
  | Some q =>
      start r <= start q < end_ q /\ end_ q <= end_ r /\
      (forall x, start r <= x < start q -> mem s x) /\
      (forall x, in_range q x -> ~ mem s x) /\
      (end_ q = end_ r \/ mem s (end_ q))
  | None => forall x, in_range r x -> mem s x
  end.
Proof. apply filter_spec. Qed.

Lemma rangeset_filter_correct_witness :
  let s := insert (insert default (mkRange 10 20)) (mkRange 30 40) in
  filter_ s (mkRange 15 35) = Some (mkRange 20 30) /\
  (forall x, 15 <= x < 20 -> mem s x).
Proof.
  intros s.
  assert (filter_ s (mkRange 15 35) = Some (mkRange 20 30)) as Hf by (vm_compute; reflexivity).
  split; [exact Hf|].
  pose proof (rangeset_filter_correct s (mkRange 15 35)) as H. rewrite Hf in H.
  apply H; vm_compute; intuition congruence.
Defined.

(** The flattened iterator enumerates the members in ascending order and
    its reverse in descending order, and both terminate after one step per
    member. *)
Theorem rangeset_flatten_correct s : wf s ->
  let n := S (length (elems (set s))) in
  flatten_collect n (flatten s) = elems (set s) /\
  flatten_collect_back n (flatten s) = rev (elems (set s)) /\
  forall x, x ∈ elems (set s) <-> mem s x.
Proof.
  intros Hwf n. unfold flatten. split_and!.
  - rewrite (flatten_collect_spec n (set s) 0 0 (-1)); [done..|].
    change (seqZ 0 (0 - 0)) with (@nil Z). cbn [app]. unfold n. lia.
  - rewrite (flatten_collect_back_spec n (set s) 0 0 (-1)); [|done|done|];
      change (seqZ 0 (0 - 0)) with (@nil Z); rewrite app_nil_r; [done|]. unfold n. lia.
  - intros x. apply elem_of_elems.
Qed.

Lemma rangeset_flatten_correct_witness :
  let s := insert (insert default (mkRange 1 3)) (mkRange 5 7) in
  flatten_collect 5 (flatten s) = [1; 2; 5; 6] /\
  flatten_collect_back 5 (flatten s) = [6; 5; 2; 1].
Proof.
  intros s. destruct (rangeset_flatten_correct s) as (H1 & H2 & _); [vm_compute; intuition congruence|].
  split; [exact H1|exact H2].
Defined.
