(* ===== verification/Window.v ===== *)
(** * The packet number window

    Models [src/src/window.rs]: [SeqNumWindow], the 128-entry sliding window
    that detects duplicate packet numbers.  The theorems relate the bitmap to
    the list of numbers inserted so far. *)

From S2P Require Import Prelude.
From S2P Require Import Error.

Module SeqNumWindow.

Definition SEQ_NUM_WINDOW_SIZE : Z := 128.

(** [lower] is a [u64] and [window] a [u128]. *)
Record SeqNumWindow := mkWindow { lower : Z; window : Z }.

Definition default : SeqNumWindow := mkWindow 0 0.

(** [self.lower.saturating_add(SEQ_NUM_WINDOW_SIZE) - 1] *)
Definition upper (w : SeqNumWindow) : Z := sat_add64 (lower w) SEQ_NUM_WINDOW_SIZE - 1.

(** [u128::checked_shl] with [unwrap_or(0)], and the panicking [1_u128 << n]. *)
Definition checked_shl128 (x n : Z) : Z := if n <? 128 then wrap 128 (Z.shiftl x n) else 0.
Definition bit128 (n : Z) : res Z := if n <? 128 then Ok (Z.shiftl 1 n) else Panic.

Definition insert (w : SeqNumWindow) (seq : Z) : res SeqNumWindow :=
  if seq <? lower w then Ok w
  else
    w1 ← (if upper w <? seq then
            let diff := seq - upper w in
            l ← add64 (lower w) diff;
            mret (mkWindow l (checked_shl128 (window w) (wrap 32 diff)))
          else Ok w);
    d ← sub64 (upper w1) seq;
    mask ← bit128 d;
    mret (mkWindow (lower w1) (Z.lor (window w1) mask)).

Definition contains (w : SeqNumWindow) (seq : Z) : res bool :=
  if upper w <? seq then Ok false
  else if seq <? lower w then Ok true
  else
    d ← sub64 (upper w) seq;
    mask ← bit128 d;
    mret (negb (Z.land (window w) mask =? 0)).

(** Inserting a list of numbers, first one first. *)
Fixpoint insert_all (w : SeqNumWindow) (h : list Z) : res SeqNumWindow :=
  match h with
  | [] => Ok w
  | x :: h' => w' ← insert w x; insert_all w' h'
  end.

(** ** The abstract window

    [top h] is the largest number of [h], 127 at least since the window starts
    at zero.  Numbers more than 127 below it have left the window. *)

Definition top (h : list Z) : Z := foldr Z.max 127 h.

(** A number advances the window by less than [2 ^ 32]. *)
Definition close (h : list Z) (x : Z) : Prop := 0 <= x < 2 ^ 62 /\ x < top h + 2 ^ 32.

(** [tracks w h]: the bitmap [w] represents the numbers [h], newest first. *)
Definition tracks (w : SeqNumWindow) (h : list Z) : Prop :=
  lower w = top h - 127 /\ 0 <= window w /\ top h < 2 ^ 62 /\
  forall i, 0 <= i -> Z.testbit (window w) i = true <-> i < 128 /\ top h - i ∈ h.

Lemma top_ge h : 127 <= top h.
Proof. unfold top. induction h; cbn; lia. Qed.

Lemma top_upper h x : x ∈ h -> x <= top h.
Proof. unfold top. induction 1; cbn; lia. Qed.

Lemma top_of_app h k : top (h ++ k) = Z.max (top h) (top k).
Proof.
  induction h as [|x h IH]; cbn [app]; [pose proof (top_ge k); unfold top at 2; cbn; lia|].
  unfold top in *. cbn [foldr]. lia.
Qed.

Lemma top_rev h : top (rev h) = top h.
Proof.
  induction h as [|x h IH]; [done|]. cbn [rev]. rewrite top_of_app, IH.
  pose proof (top_ge h). unfold top in *. cbn [foldr]. lia.
Qed.

Lemma tracks_upper w h : tracks w h -> upper w = top h.
Proof.
  intros (Hl & _ & Ht & _). unfold upper, sat_add64, SEQ_NUM_WINDOW_SIZE. rewrite Hl. lia.
Qed.

Lemma bit128_ok d : d < 128 -> bit128 d = Ok (Z.shiftl 1 d).
Proof. intros. unfold bit128. zcase; [done|lia]. Qed.

Lemma testbit_bit d i : 0 <= d -> 0 <= i -> Z.testbit (Z.shiftl 1 d) i = (d =? i).
Proof. intros. rewrite Z.shiftl_1_l. by apply Z.pow2_bits_eqb. Qed.

Lemma checked_shl128_bits x n i : 0 <= n -> 0 <= i ->
  Z.testbit (checked_shl128 x n) i = (i <? 128) && (n <=? i) && Z.testbit x (i - n).
Proof.
  intros Hn Hi. unfold checked_shl128, wrap. destruct (Z.ltb_spec n 128) as [H|H].
  - rewrite Z.testbit_mod_pow2 by lia. rewrite Z.shiftl_spec by done.
    destruct (Z.leb_spec n i); [by rewrite andb_true_r|].
    rewrite Z.testbit_neg_r by lia. by rewrite !andb_false_r.
  - rewrite Z.bits_0. zcase; try done; lia.
Qed.

Lemma checked_shl128_nonneg x n : 0 <= checked_shl128 x n.
Proof. unfold checked_shl128, wrap. zcase; [apply Z.mod_pos_bound|]; lia. Qed.

Lemma contains_tracks w h x : tracks w h -> 0 <= x ->
  contains w x = Ok (if x <? top h - 127 then true else bool_decide (x ∈ h)).
Proof.
  intros HR Hx. pose proof (tracks_upper _ _ HR) as Hu. destruct HR as (Hl & Hw & Ht & Hb).
  unfold contains. rewrite Hu, Hl. pose proof (top_ge h).
  destruct (Z.ltb_spec (top h) x) as [Hgt|Hle].
  { destruct (Z.ltb_spec x (top h - 127)); [lia|]. rewrite bool_decide_eq_false_2; [done|].
    intros Hin. apply top_upper in Hin. lia. }
  destruct (Z.ltb_spec x (top h - 127)); [done|].
  rewrite sub64_ok by lia. cbn. rewrite bit128_ok by lia. cbn. f_equal.
  apply eq_true_iff_eq. rewrite bool_decide_eq_true, negb_true_iff, Z.eqb_neq.
  trans (Z.testbit (window w) (top h - x) = true).
  - split.
    + intros Hne. apply not_false_iff_true. intros Hf. apply Hne, Z.bits_inj'.
      intros i Hi. rewrite Z.land_spec, testbit_bit, Z.bits_0 by lia.
      destruct (Z.eqb_spec (top h - x) i) as [<-|]; [by rewrite Hf|apply andb_false_r].
    + intros Ht' Hz. assert (Z.testbit (Z.land (window w) (Z.shiftl 1 (top h - x))) (top h - x) = true)
        as Hc; [|by rewrite Hz, Z.bits_0 in Hc].
      rewrite Z.land_spec, Ht', testbit_bit, Z.eqb_refl by lia. done.
  - rewrite Hb, Z.sub_sub_distr, Z.sub_diag by lia. intuition lia.
Qed.

Lemma tracks_default : tracks default [].
Proof.
  split_and!; cbn; try lia. intros i Hi. rewrite Z.bits_0. split; [done|].
  intros [_ Hin]. by apply elem_of_nil in Hin.
Qed.

Lemma insert_tracks w h x : tracks w h -> close h x ->
  exists w', insert w x = Ok w' /\ tracks w' (x :: h).
Proof.
  intros HR [Hx Hc]. pose proof (tracks_upper _ _ HR) as Hu. pose proof HR as (Hl & Hw & Ht & Hb).
  pose proof (top_ge h). unfold insert. rewrite Hu, Hl.
  destruct (Z.ltb_spec x (top h - 127)) as [Hlow|Hlow].
  { exists w. split; [done|]. split_and!; cbn [top foldr]; fold (top h);
      rewrite ?Z.max_r by lia; try done.
    intros i Hi. rewrite Hb by done. split.
    - intros [? Hin]. split; [done|]. by right.
    - intros [? Hin]. split; [done|]. apply elem_of_cons in Hin. destruct Hin; [lia|done]. }
  set (w1 := if top h <? x then _ else _).
  assert (exists W, w1 = Ok (mkWindow (Z.max x (top h) - 127) W) /\ 0 <= W /\
    forall i, 0 <= i -> Z.testbit W i = true <-> i < 128 /\ Z.max x (top h) - i ∈ h)
    as (W & -> & HW & HWb).
  { subst w1. destruct (Z.ltb_spec (top h) x) as [Hgt|Hle].
    - rewrite add64_ok by lia. cbn [mbind outcome_bind mret outcome_ret].
      rewrite Z.max_l by lia. exists (checked_shl128 (window w) (wrap 32 (x - top h))).
      split; [do 2 f_equal; lia|]. split; [apply checked_shl128_nonneg|].
      intros i Hi. unfold wrap. rewrite Z.mod_small by lia. rewrite checked_shl128_bits by lia.
      destruct (Z.ltb_spec i 128); cbn; [|intuition lia].
      destruct (Z.leb_spec (x - top h) i); cbn.
      + rewrite Hb by lia. replace (top h - (i - (x - top h))) with (x - i) by lia. intuition lia.
      + split; [done|]. intros [_ Hin]. apply top_upper in Hin. lia.
    - rewrite Z.max_r by lia. exists (window w). destruct w as [lo wi]. cbn in *. by subst. }
  cbn [mbind outcome_bind upper lower window].
  assert (upper (mkWindow (Z.max x (top h) - 127) W) = Z.max x (top h)) as ->.
  { unfold upper, sat_add64, SEQ_NUM_WINDOW_SIZE. cbn. lia. }
  rewrite sub64_ok by lia. cbn. rewrite bit128_ok by lia. cbn. eexists. split; [done|].
  split_and!; cbn [top foldr lower window]; fold (top h); [done| |lia|].
  - apply Z.lor_nonneg. split; [done|]. apply Z.shiftl_nonneg. lia.
  - intros i Hi. rewrite Z.lor_spec, testbit_bit, orb_true_iff, HWb, Z.eqb_eq by lia.
    rewrite elem_of_cons. intuition lia.
Qed.

(** The history [h] (oldest first) extends [past] (newest first) by close
    numbers only. *)
Fixpoint close_run (past h : list Z) : Prop :=
  match h with
  | [] => True
  | x :: h' => close past x /\ close_run (x :: past) h'
  end.

Lemma insert_all_tracks h : forall w past, tracks w past -> close_run past h ->
  exists w', insert_all w h = Ok w' /\ tracks w' (rev h ++ past).
Proof.
  induction h as [|x h IH]; intros w past HR Hc; cbn [insert_all]; [by exists w|].
  destruct Hc as [Hx Hc]. destruct (insert_tracks w past x HR Hx) as (w1 & -> & HR1).
  destruct (IH w1 (x :: past) HR1 Hc) as (w2 & Hw2 & HR2). exists w2. split; [done|].
  cbn [rev]. by rewrite <- app_assoc.
Qed.

(** ** Numbers stay seen *)

Lemma land_bit x d : 0 <= d -> negb (Z.land x (Z.shiftl 1 d) =? 0) = Z.testbit x d.
Proof.
  intros Hd. destruct (Z.testbit x d) eqn:E.
  - apply negb_true_iff, Z.eqb_neq. intros H0. apply (f_equal (fun y => Z.testbit y d)) in H0.
    rewrite Z.land_spec, testbit_bit, Z.eqb_refl, E, Z.bits_0 in H0 by done. done.
  - apply negb_false_iff, Z.eqb_eq. apply Z.bits_inj'. intros i Hi.
    rewrite Z.land_spec, testbit_bit, Z.bits_0 by done. destruct (Z.eqb_spec d i) as [->|]; [by rewrite E|by rewrite andb_false_r].
Qed.

Lemma contains_true w x : contains w x = Ok true <->
  x <= upper w /\ (x < lower w \/ (upper w - x < 128 /\ Z.testbit (window w) (upper w - x) = true)).
Proof.
  unfold contains. destruct (Z.ltb_spec (upper w) x); [split; [done|lia]|].
  destruct (Z.ltb_spec x (lower w)); [split; [intros _; lia|done]|].
  rewrite sub64_ok by done. cbn. unfold bit128. destruct (Z.ltb_spec (upper w - x) 128); cbn.
  - rewrite land_bit by lia. split; [intros [= ->]; split; [lia|by right]|intros [_ [?|[_ ->]]]; [lia|done]].
  - split; [done|lia].
Qed.

Lemma upper_bounds w : lower w < U64 -> lower w - 1 <= upper w <= lower w + 127 /\ upper w <= U64 - 2.
Proof. unfold upper, sat_add64, SEQ_NUM_WINDOW_SIZE, U64. lia. Qed.

(** Setting the bit of a number in the window. *)
Lemma set_bit_seen w seq : seq <= upper w -> upper w - seq < 128 ->
  let w' := mkWindow (lower w) (Z.lor (window w) (Z.shiftl 1 (upper w - seq))) in
  contains w' seq = Ok true /\ forall x, contains w x = Ok true -> contains w' x = Ok true.
Proof.
  intros Hs Hd w'. assert (upper w' = upper w) as Eu by done. split.
  - apply contains_true. rewrite Eu. cbn [w' window lower]. split; [done|]. right. split; [done|].
    rewrite Z.lor_spec, testbit_bit, Z.eqb_refl by lia. apply orb_true_r.
  - intros x. rewrite !contains_true, Eu. cbn [w' window lower].
    intros [Hx [?|[Hb1 Hb2]]]; split; [done|by left|done|right]. split; [done|]. by rewrite Z.lor_spec, Hb2.
Qed.

(** Moving the window up. *)
Lemma shift_seen w d x : lower w + d < U64 -> 0 <= d -> upper w + d <= U64 - 2 -> upper w = lower w + 127 ->
  let w' := mkWindow (lower w + d) (checked_shl128 (window w) (wrap 32 d)) in
  contains w x = Ok true -> contains w' x = Ok true.
Proof.
  intros Hl Hd Hu Eu w'. assert (upper w' = upper w + d) as Eu'.
  { unfold w', upper, sat_add64, SEQ_NUM_WINDOW_SIZE, U64 in *. cbn [lower] in *. lia. }
  rewrite !contains_true, Eu'. cbn [w' window lower].
  intros [Hx Hb]. split; [lia|]. destruct (Z.lt_ge_cases x (lower w + d)) as [|Hx2]; [by left|right].
  destruct Hb as [?|[Hb1 Hb2]]; [lia|].
  split; [lia|]. rewrite checked_shl128_bits; [|unfold wrap; apply Z.mod_pos_bound; lia|lia].
  replace (wrap 32 d) with d by (unfold wrap; rewrite Z.mod_small; lia).
  replace (upper w + d - x - d) with (upper w - x) by lia. rewrite Hb2. by zcase; try lia.
Qed.

(** A number that has been inserted, or was seen before, is seen afterwards. *)
Lemma insert_seen w seq w' : lower w < U64 -> insert w seq = Ok w' ->
  lower w' < U64 /\ contains w' seq = Ok true /\ forall x, contains w x = Ok true -> contains w' x = Ok true.
Proof.
  intros Hw. pose proof (upper_bounds w Hw) as Hu. unfold insert. destruct (Z.ltb_spec seq (lower w)) as [Hl|Hl].
  { intros [= <-]. split_and!; [done| |done]. apply contains_true. lia. }
  destruct (Z.ltb_spec (upper w) seq) as [Hgt|Hle]; cbn [mbind outcome_bind].
  - destruct (add64 (lower w) (seq - upper w)) as [l| |] eqn:El; cbn [mbind outcome_bind mret outcome_ret]; try done.
    apply add64_inv in El as [-> Hl2].
    set (w1 := mkWindow _ _). assert (lower w1 < U64) as H1 by (unfold U64; cbn; lia).
    pose proof (upper_bounds w1 H1) as Hu1. unfold sub64. destruct (Z.leb_spec seq (upper w1)) as [Hs|]; [|done].
    cbn [mbind outcome_bind]. unfold bit128. destruct (Z.ltb_spec (upper w1 - seq) 128) as [Hd|]; [|done]. intros [= <-].
    destruct (set_bit_seen w1 seq Hs Hd) as [Hc Hm]. split_and!; [done|done|]. intros x Hx. apply Hm, shift_seen; try done.
    all: unfold U64 in *; cbn [w1 lower] in *; try lia.
    unfold upper, sat_add64, SEQ_NUM_WINDOW_SIZE in *. cbn [w1 lower] in *. lia.
  - unfold sub64. destruct (Z.leb_spec seq (upper w)) as [Hs|]; [|done].
    cbn [mbind outcome_bind]. unfold bit128. destruct (Z.ltb_spec (upper w - seq) 128) as [Hd|]; [|done]. intros [= <-].
    by destruct (set_bit_seen w seq Hs Hd).
Qed.

End SeqNumWindow.

Import SeqNumWindow.

(** C18.  Duplicate detection is exact inside the window: after any sequence of
    insertions that advance it by less than [2 ^ 32], no operation panics and a
    number is reported as seen exactly when it was inserted or is more than 127
    below the largest one. *)
Theorem window_refines_history h x :
  close_run [] h -> 0 <= x ->
  exists w, insert_all default h = Ok w /\
    contains w x = Ok (if x <? top h - 127 then true else bool_decide (x ∈ h)).
Proof.
  intros Hc Hx. destruct (insert_all_tracks h _ _ tracks_default Hc) as (w & Hw & HR).
  exists w. split; [done|]. rewrite (contains_tracks _ _ _ HR Hx). rewrite app_nil_r.
  rewrite top_rev. f_equal. destruct (x <? _); [done|]. apply bool_decide_ext.
  by rewrite !list_elem_of_In, <- in_rev.
Qed.

Lemma window_refines_history_witness :
  exists w, insert_all default [3; 200; 100] = Ok w /\ contains w 100 = Ok true.
Proof.
  apply (window_refines_history [3; 200; 100] 100); [|lia].
  cbn [close_run]. unfold close, top. cbn [foldr]. lia.
Defined.

(** The shift amount is truncated to 32 bits: a number [2 ^ 32] beyond the
    window leaves the bitmap unshifted, so that a number never inserted is
    reported as seen. *)
Theorem window_shift_truncated :
  exists w, insert_all default [100; 127 + 2 ^ 32] = Ok w /\
    contains w (100 + 2 ^ 32) = Ok true /\ lower w <= 100 + 2 ^ 32.
Proof.
  exists (mkWindow (2 ^ 32) (Z.lor (2 ^ 27) 1)). split; [vm_compute; reflexivity|].
  split; [vm_compute; reflexivity|]. cbn [lower]. lia.
Qed.
