(* ===== verification/FlowControl.v ===== *)
(** * Receive-side flow control

    Models [src/src/connection/flowcontrol.rs]: the auto-tuned window that a
    stream or the connection advertises.  The theorems show when the advertised
    limit can only grow and that it can retreat otherwise. *)

From S2P Require Import Prelude.
From S2P Require Import Error.
From S2P Require Import Time.

Module FlowControl.

Record FlowControl := mkFC {
  read_off : Z;
  recv_off : Z;
  max_data : Z;
  window : Z;
  max_window : Z;
  last_updated : option Instant;
}.

Definition new (w mw : Z) : FlowControl := mkFC 0 0 w w mw None.

Definition with_window (w : Z) (s : FlowControl) : FlowControl :=
  mkFC (read_off s) (recv_off s) (max_data s) w (max_window s) (last_updated s).

Definition increase_recv_off (delta : Z) (s : FlowControl) : res FlowControl :=
  r ← add64 (recv_off s) delta;
  mret (mkFC (read_off s) r (max_data s) (window s) (max_window s) (last_updated s)).

Definition increase_read_off (delta : Z) (s : FlowControl) : res FlowControl :=
  r ← add64 (read_off s) delta;
  mret (mkFC r (recv_off s) (max_data s) (window s) (max_window s) (last_updated s)).

Definition should_send_max_data (s : FlowControl) : res bool :=
  left ← sub64 (max_data s) (read_off s);
  left2 ← mul64 left 2;
  mret (left2 <? window s).

Definition max_data_next (s : FlowControl) : res Z := add64 (read_off s) (window s).

Definition update_max_data (now : Instant) (s : FlowControl) : res FlowControl :=
  m ← max_data_next s;
  mret (mkFC (read_off s) (recv_off s) m (window s) (max_window s) (Some now)).

Definition autotune_window (now : Instant) (srtt : Duration) (s : FlowControl) : res FlowControl :=
  match last_updated s with
  | Some last =>
      srtt2 ← dur_mul srtt 2;
      if since now last <? srtt2 then
        w2 ← mul64 (window s) 2;
        mret (with_window (Z.min w2 (max_window s)) s)
      else mret s
  | None => mret s
  end.

Definition ensure_window_lower_bound (min_window : Z) (s : FlowControl) : FlowControl :=
  with_window (Z.max (window s) min_window) s.

(** ** Histories of a flow controller *)

Inductive op :=
| IncreaseRecvOff (delta : Z)
| IncreaseReadOff (delta : Z)
| UpdateMaxData (now : Instant)
| AutotuneWindow (now : Instant) (srtt : Duration)
| EnsureWindowLowerBound (min_window : Z).

Definition apply (o : op) (s : FlowControl) : res FlowControl :=
  match o with
  | IncreaseRecvOff d => increase_recv_off d s
  | IncreaseReadOff d => increase_read_off d s
  | UpdateMaxData now => update_max_data now s
  | AutotuneWindow now srtt => autotune_window now srtt s
  | EnsureWindowLowerBound w => Ok (ensure_window_lower_bound w s)
  end.

(** Deltas are unsigned and requested lower bounds stay below [mw]. *)
Definition bounded (mw : Z) (o : op) : Prop :=
  match o with
  | IncreaseRecvOff d | IncreaseReadOff d => 0 <= d
  | EnsureWindowLowerBound w => w <= mw
  | _ => True
  end.

Fixpoint run (ops : list op) (s : FlowControl) : res FlowControl :=
  match ops with
  | [] => Ok s
  | o :: ops' => s' ← apply o s; run ops' s'
  end.

(** The limit in force never exceeds the next one, and the window stays within
    its maximum. *)
Definition inv (s : FlowControl) : Prop :=
  0 <= read_off s /\ 0 <= window s <= max_window s /\ max_data s <= read_off s + window s.

(** [le s s']: everything advertised in [s] still holds in [s']. *)
Definition le (s s' : FlowControl) : Prop :=
  max_data s <= max_data s' /\ window s <= window s' /\
  read_off s <= read_off s' /\ recv_off s <= recv_off s' /\ max_window s = max_window s'.

#[global] Instance le_preorder : PreOrder le.
Proof.
  split; [intros s; unfold le; lia|]. intros s1 s2 s3. unfold le. lia.
Qed.

Lemma apply_inv o s s' :
  inv s -> bounded (max_window s) o -> apply o s = Ok s' -> inv s' /\ le s s'.
Proof.
  unfold inv, le. intros Hi Hb. destruct o; cbn in *.
  - intros (r & [-> ?]%add64_inv & [= <-])%bind_Ok. cbn. lia.
  - intros (r & [-> ?]%add64_inv & [= <-])%bind_Ok. cbn. lia.
  - intros (r & [-> ?]%add64_inv & [= <-])%bind_Ok. cbn. lia.
  - unfold autotune_window. destruct (last_updated s) as [l|]; [|intros [= <-]; lia].
    intros (d & _ & H)%bind_Ok. destruct (since now l <? d); [|injection H as <-; lia].
    apply bind_Ok in H as (w & Hw & [= <-]). unfold mul64 in Hw. zcase_in Hw; [|done].
    injection Hw as <-. cbn. lia.
  - intros [= <-]. cbn. lia.
Qed.

Lemma run_inv ops : forall s s',
  inv s -> Forall (bounded (max_window s)) ops -> run ops s = Ok s' -> inv s' /\ le s s'.
Proof.
  induction ops as [|o ops IH]; intros s s' Hi Hf; cbn [run].
  - intros [= <-]. split; [done|reflexivity].
  - apply Forall_cons in Hf as [Ho Hf]. intros (s1 & H1 & H2)%bind_Ok.
    destruct (apply_inv _ _ _ Hi Ho H1) as [Hi1 Hle].
    destruct (IH s1 s' Hi1) as [Hi' Hle']; [|done|].
    { by rewrite <- (proj2 (proj2 (proj2 (proj2 Hle)))). }
    split; [done|]. by trans s1.
Qed.

End FlowControl.

Import FlowControl.

(** While the requested lower bounds stay within the maximum window, a
    flow controller never takes credit back: the limit in force, the window and
    the offsets only grow, the window stays within its maximum, and the next
    limit to advertise is at least the current one. *)
Theorem flow_control_monotone w mw ops1 ops2 s1 s2 :
  0 <= w <= mw -> Forall (bounded mw) (ops1 ++ ops2) ->
  run ops1 (new w mw) = Ok s1 -> run ops2 s1 = Ok s2 ->
  max_data s1 <= max_data s2 /\ window s1 <= window s2 <= mw /\
  forall m, max_data_next s2 = Ok m -> max_data s2 <= m.
Proof.
  intros Hw [Hf1 Hf2]%Forall_app H1 H2.
  destruct (run_inv ops1 (new w mw) s1) as [Hi1 Hl1]; [unfold inv; cbn; lia|done..|].
  unfold le in Hl1. cbn in Hl1.
  destruct (run_inv ops2 s1 s2) as [Hi2 Hl2]; [done| |done|].
  { by replace (max_window s1) with mw by lia. }
  unfold inv, le in *. split_and!; try lia. intros m [-> _]%add64_inv. lia.
Qed.

Lemma flow_control_monotone_witness :
  let ops := [IncreaseReadOff 60; UpdateMaxData 10] in
  exists s1 s2, run ops (new 100 200) = Ok s1 /\
    run [AutotuneWindow 12 5; UpdateMaxData 14] s1 = Ok s2 /\
    max_data s1 = 160 /\ max_data s2 = 260 /\ max_data s1 <= max_data s2.
Proof.
  intros ops. do 2 eexists. split; [vm_compute; reflexivity|].
  split; [vm_compute; reflexivity|]. split; [reflexivity|]. split; [reflexivity|].
  apply (flow_control_monotone 100 200 ops [AutotuneWindow 12 5; UpdateMaxData 14]).
  - lia.
  - unfold ops. cbn [app]. repeat constructor; cbn; lia.
  - vm_compute. reflexivity.
  - vm_compute. reflexivity.
Defined.

(** A lower bound above the maximum window breaks this: the next
    auto-tuning shrinks the window, and the limit advertised afterwards is below
    the one advertised before. *)
Theorem flow_control_limit_retreats :
  exists s1 s2,
    run [EnsureWindowLowerBound 150; UpdateMaxData 10] (new 100 100) = Ok s1 /\
    run [AutotuneWindow 12 5; UpdateMaxData 14] s1 = Ok s2 /\
    window s2 < window s1 /\ max_data s2 < max_data s1.
Proof.
  do 2 eexists. split; [vm_compute; reflexivity|]. split; [vm_compute; reflexivity|]. done.
Qed.
