(* ===== verification/RangeBuf.v ===== *)
(** * Data at an offset of a stream

    Models [src/src/connection/stream/range_buf.rs].  A [bytes::Bytes] handle is
    represented by its contents: the program only takes its length, drops a
    prefix and splits it.  The arrival time, which nothing reads, is left
    out. *)

From S2P Require Import Prelude.
From S2P Require Import Error.

Module RangeBuf.

Record RangeBuf := mkBuf { data : list Z; off : Z; fin : bool }.

Definition new (buf : list Z) (o : Z) (f : bool) : RangeBuf := mkBuf buf o f.

Definition len_ (b : RangeBuf) : Z := len (data b).

(** The sum is below [2 ^ 64] wherever a buffer is made: see the checks in
    [RecvBuf.write] and [SendBuf.write]. *)
Definition max_off (b : RangeBuf) : Z := off b + len_ b.

Definition is_empty (b : RangeBuf) : bool := len_ b =? 0.

(** [consume] and [advance] have the same body; [Bytes::advance] panics past
    the end. *)
Definition advance (count : Z) (b : RangeBuf) : res RangeBuf :=
  if count <=? len_ b then Ok (mkBuf (zdrop count (data b)) (off b + count) (fin b)) else Panic.
Definition consume : Z -> RangeBuf -> res RangeBuf := advance.

(** The pair is what stays in [self] and what is returned. *)
Definition split_off (at_ : Z) (b : RangeBuf) : res (RangeBuf * RangeBuf) :=
  if at_ <=? len_ b then
    Ok (mkBuf (ztake at_ (data b)) (off b) false, mkBuf (zdrop at_ (data b)) (off b + at_) (fin b))
  else Panic.

Definition split_to (at_ : Z) (b : RangeBuf) : res (RangeBuf * RangeBuf) :=
  if at_ <=? len_ b then
    Ok (mkBuf (zdrop at_ (data b)) (off b + at_) (fin b), mkBuf (ztake at_ (data b)) (off b) false)
  else Panic.

(** ** Buffers as parts of one stream

    [agrees S b]: the bytes of [b] are those of the stream [S] at its
    offsets. *)

Definition slice (S : Z -> Z) (o n : Z) : list Z := map S (seqZ o n).

Definition agrees (S : Z -> Z) (b : RangeBuf) : Prop := data b = slice S (off b) (len_ b).

Definition covers (b : RangeBuf) (x : Z) : Prop := off b <= x < max_off b.

Lemma len_slice S o n : 0 <= n -> len (slice S o n) = n.
Proof. intros. unfold slice, len. rewrite length_map, length_seqZ. lia. Qed.

Lemma slice_app S o n m : 0 <= n -> 0 <= m -> slice S o (n + m) = slice S o n ++ slice S (o + n) m.
Proof. intros. unfold slice. rewrite seqZ_app by done. by rewrite map_app. Qed.

Lemma slice_nil S o : slice S o 0 = [].
Proof. reflexivity. Qed.

Lemma slice_ztake S o n k : 0 <= k <= n -> ztake k (slice S o n) = slice S o k.
Proof.
  intros. replace n with (k + (n - k)) by lia. rewrite slice_app by lia.
  apply ztake_app. rewrite len_slice; lia.
Qed.

Lemma slice_zdrop S o n k : 0 <= k <= n -> zdrop k (slice S o n) = slice S (o + k) (n - k).
Proof.
  intros. replace n with (k + (n - k)) at 1 by lia. rewrite slice_app by lia.
  apply zdrop_app. rewrite len_slice; lia.
Qed.

Lemma len_nonneg_ b : 0 <= len_ b.
Proof. apply len_nonneg. Qed.

Lemma off_le_max b : off b <= max_off b.
Proof. unfold max_off. pose proof (len_nonneg_ b). lia. Qed.

Lemma advance_spec S n b : agrees S b -> 0 <= n <= len_ b ->
  exists b', advance n b = Ok b' /\ off b' = off b + n /\ max_off b' = max_off b /\
    len_ b' = len_ b - n /\ agrees S b'.
Proof.
  intros Hb Hn. unfold advance. destruct (Z.leb_spec n (len_ b)); [|lia].
  eexists. split; [done|]. unfold agrees, max_off, len_ in *. cbn.
  rewrite len_zdrop by lia. split_and!; try lia. rewrite Hb at 1. apply slice_zdrop. lia.
Qed.

Lemma split_off_spec S n b : agrees S b -> 0 <= n <= len_ b ->
  exists b1 b2, split_off n b = Ok (b1, b2) /\ off b1 = off b /\ len_ b1 = n /\
    off b2 = off b + n /\ len_ b2 = len_ b - n /\ agrees S b1 /\ agrees S b2.
Proof.
  intros Hb Hn. unfold split_off. destruct (Z.leb_spec n (len_ b)); [|lia].
  do 2 eexists. split; [done|]. unfold agrees, len_ in *. cbn.
  rewrite len_zdrop, len_ztake by lia. split_and!; try lia; rewrite Hb at 1.
  - apply slice_ztake. lia.
  - apply slice_zdrop. lia.
Qed.

Lemma agrees_nil S o f : agrees S (mkBuf [] o f).
Proof. reflexivity. Qed.

End RangeBuf.
