(* ===== verification/RecvBuf.v ===== *)
(** * The receive side of a stream

    Models [src/src/connection/stream/recv_buf.rs]: the buffer that reorders
    what arrives and hands it to the application.  The theorems show that it
    reassembles the stream whatever order, overlap and duplication the data
    arrives with. *)

From S2P Require Import Prelude.
From S2P Require Import Error.
From S2P Require Import Btree.
From S2P Require Import Time.
From S2P Require Import FlowControl.
From S2P Require Import RangeBuf.

Module RecvBuf.
Import RangeBuf.

(** Chunks are keyed by their maximum offset. *)
Record RecvBuf := mkRecv {
  data : list (Z * RangeBuf);
  read_off : Z;
  recv_off : Z;
  fin_off : option Z;
  error : option Z;
  shutdown_ : bool;
  flow_control : FlowControl.FlowControl;
}.

Definition with_data d s :=
  mkRecv d (read_off s) (recv_off s) (fin_off s) (error s) (shutdown_ s) (flow_control s).
Definition with_read_off o s :=
  mkRecv (data s) o (recv_off s) (fin_off s) (error s) (shutdown_ s) (flow_control s).
Definition with_recv_off o s :=
  mkRecv (data s) (read_off s) o (fin_off s) (error s) (shutdown_ s) (flow_control s).
Definition with_fin_off f s :=
  mkRecv (data s) (read_off s) (recv_off s) f (error s) (shutdown_ s) (flow_control s).
Definition with_error e s :=
  mkRecv (data s) (read_off s) (recv_off s) (fin_off s) e (shutdown_ s) (flow_control s).
Definition with_shutdown b s :=
  mkRecv (data s) (read_off s) (recv_off s) (fin_off s) (error s) b (flow_control s).
Definition with_flow_control f s :=
  mkRecv (data s) (read_off s) (recv_off s) (fin_off s) (error s) (shutdown_ s) f.

Definition new (max_data max_window : Z) : RecvBuf :=
  mkRecv [] 0 0 None None false (FlowControl.new max_data max_window).

Definition max_data (s : RecvBuf) : Z := FlowControl.max_data (flow_control s).
Definition window (s : RecvBuf) : Z := FlowControl.window (flow_control s).
Definition is_fin (s : RecvBuf) : bool := bool_decide (fin_off s = Some (read_off s)).
Definition is_complete (s : RecvBuf) : bool := bool_decide (fin_off s = Some (read_off s)).
Definition is_shutdown (s : RecvBuf) : bool := shutdown_ s.

Definition ready (s : RecvBuf) : bool :=
  match Btree.first_key_value (data s) with
  | Some (_, buf) => off buf =? read_off s
  | None => false
  end.

(** The [for] loop of [write] over the stored chunks that end at or after the
    new one's start.  [None] is the [continue 'outer_loop] of a fully
    duplicated buffer; [tmp] is the queue of remainders. *)
Fixpoint overlap_loop (bs : list (Z * RangeBuf)) (buf : RangeBuf) (tmp : list RangeBuf)
  : res (option RangeBuf * list RangeBuf) :=
  match bs with
  | [] => Ok (Some buf, tmp)
  | (_, b) :: bs' =>
      let o := off buf in
      if max_off buf <? off b then Ok (Some buf, tmp)
      else if (off b <=? o) && (max_off buf <=? max_off b) then Ok (None, tmp)
      else if (off b <=? o) && (o <? max_off b) then
        buf' ← advance (max_off b - o) buf;
        overlap_loop bs' buf' tmp
      else if (o <? off b) && (off b <? max_off buf) then
        '(buf', rest) ← split_off (off b - o) buf;
        overlap_loop bs' buf' (tmp ++ [rest])
      else overlap_loop bs' buf tmp
  end.

(** The [while let] loop over the queue of pending buffers. *)
Fixpoint write_loop (fuel : nat) (tmp : list RangeBuf) (s : RecvBuf) : res RecvBuf :=
  match fuel with
  | O => Panic
  | S fuel =>
      match tmp with
      | [] => Ok s
      | buf :: tmp =>
          buf ← (if off buf <? read_off s then advance (read_off s - off buf) buf else Ok buf);
          '(kept, tmp) ←
            (if (off buf <? recv_off s) || is_empty buf
             then overlap_loop (Btree.range_from (off buf) (data s)) buf tmp
             else Ok (Some buf, tmp));
          match kept with
          | None => write_loop fuel tmp s
          | Some buf =>
              let s := with_recv_off (Z.max (recv_off s) (max_off buf)) s in
              let s := if shutdown_ s then s
                       else with_data (Btree.insert (max_off buf) buf (data s)) s in
              write_loop fuel tmp s
          end
      end
  end.

(** Enough turns for a queue: each turn takes a buffer off it and puts back
    remainders that are shorter in total. *)
Definition weight (tmp : list RangeBuf) : Z := foldr (fun b n => len_ b + 1 + n) 0 tmp.
Definition write_fuel (tmp : list RangeBuf) : nat := S (Z.to_nat (weight tmp)).

Definition write (offset : Z) (bytes : list Z) (f : bool) : action Error RecvBuf unit := fun s =>
  let buf := RangeBuf.new bytes offset f in
  if 18446744073709551616 <=? max_off buf then (Panic, s)
  else if max_data s <? max_off buf then (Err FlowControlError, s)
  else if match fin_off s with
          | Some fo => (fo <? max_off buf) || (fin buf && negb (fo =? max_off buf))
          | None => false
          end then (Err FinalSizeError, s)
  else if fin buf && (max_off buf <? recv_off s) then (Err FinalSizeError, s)
  else if is_fin s then (Ok tt, s)
  else
    let s := if fin buf then with_fin_off (Some (max_off buf)) s else s in
    if negb (fin buf) && is_empty buf then (Ok tt, s)
    else if (max_off buf <=? read_off s) && negb (is_empty buf) then (Ok tt, s)
    else
      match write_loop (write_fuel [buf]) [buf] s with
      | Ok s' => (Ok tt, s')
      | Err e => (Err e, s)
      | Panic => (Panic, s)
      end.

(** The loop of [read]: the output written so far is the accumulator, and each
    turn but the last takes the first chunk out of the map. *)
Fixpoint read_loop (d : list (Z * RangeBuf)) (cap ro : Z) (out : list Z)
  : res (list (Z * RangeBuf) * Z * list Z) :=
  match d with
  | [] => Ok ([], ro, out)
  | (k, buf) :: d' =>
      if (0 <? cap) && (off buf =? ro) then
        let buf_len := Z.min (len_ buf) cap in
        let out := out ++ ztake buf_len (RangeBuf.data buf) in
        ro ← add64 ro buf_len;
        if buf_len <? len_ buf then
          buf' ← consume buf_len buf;
          mret ((k, buf') :: d', ro, out)
        else read_loop d' (cap - buf_len) ro out
      else Ok (d, ro, out)
  end.

(** [read] into a buffer of [cap] bytes: the bytes written to it and the
    [fin] flag. *)
Definition read (cap : Z) : action Error RecvBuf (list Z * bool) := fun s =>
  if negb (ready s) then (Err Done, s)
  else
    match error s with
    | Some e => (Err (StreamReset e), with_data [] s)
    | None =>
        match read_loop (data s) cap (read_off s) [] with
        | Ok (d, ro, out) =>
            let s := with_read_off ro (with_data d s) in
            match FlowControl.increase_read_off (len out) (flow_control s) with
            | Ok fc => let s := with_flow_control fc s in (Ok (out, is_fin s), s)
            | Err e => (Err e, s)
            | Panic => (Panic, s)
            end
        | Err e => (Err e, s)
        | Panic => (Panic, s)
        end
    end.

Definition reset (error_code final_size : Z) : action Error RecvBuf Z := fun s =>
  if match fin_off s with Some fo => negb (fo =? final_size) | None => false end
  then (Err FinalSizeError, s)
  else if final_size <? recv_off s then (Err FinalSizeError, s)
  else
    let max_rx_off_delta := final_size - recv_off s in
    if bool_decide (is_Some (error s)) then (Ok max_rx_off_delta, s)
    else
      let s := with_data [] (with_error (Some error_code) s) in
      match write final_size [] true s with
      | (Ok _, s) => (Ok max_rx_off_delta, with_read_off final_size s)
      | (Err e, s) => (Err e, s)
      | (Panic, s) => (Panic, s)
      end.

Definition shutdown : action Error RecvBuf Z := fun s =>
  if shutdown_ s then (Err Done, s)
  else
    let s := with_shutdown true s in
    match sub64 (recv_off s) (read_off s) with
    | Ok unread_len => (Ok unread_len, with_read_off (recv_off s) (with_data [] s))
    | Err e => (Err e, s)
    | Panic => (Panic, s)
    end.

Definition update_max_data (now : Instant) (s : RecvBuf) : res RecvBuf :=
  fc ← FlowControl.update_max_data now (flow_control s); mret (with_flow_control fc s).
Definition max_data_next (s : RecvBuf) : res Z := FlowControl.max_data_next (flow_control s).
Definition autotune_window (now : Instant) (srtt : Duration) (s : RecvBuf) : res RecvBuf :=
  fc ← FlowControl.autotune_window now srtt (flow_control s); mret (with_flow_control fc s).

Definition should_send_max_data (s : RecvBuf) : res bool :=
  match fin_off s with
  | Some _ => Ok false
  | None => FlowControl.should_send_max_data (flow_control s)
  end.

(** ** Invariant

    Everything below is relative to the stream [St] the peer sends. *)

Section Reassembly.
Context (St : Z -> Z).

Definition stored (d : list (Z * RangeBuf)) (x : Z) : Prop :=
  exists k b, In (k, b) d /\ covers b x.

(** Chunks lie in [lo, hi], do not overlap and hold the bytes of [St]. *)
Record chunks_ok (lo hi : Z) (d : list (Z * RangeBuf)) : Prop := {
  chunks_sorted : exists l, Btree.above l d;
  chunks_entry : forall k b, In (k, b) d -> k = max_off b /\ lo <= off b /\ k <= hi /\ agrees St b;
  chunks_disjoint : forall k1 b1 k2 b2,
    In (k1, b1) d -> In (k2, b2) d -> k1 < k2 -> k1 <= off b2;
}.

Definition some_covers (ts : list RangeBuf) (x : Z) : Prop := Exists (fun t => covers t x) ts.

Lemma weight_nonneg ts : 0 <= weight ts.
Proof.
  unfold weight. induction ts as [|t ts IH]; cbn [foldr]; [done|]. pose proof (len_nonneg_ t). lia.
Qed.

Lemma weight_app ts us : weight (ts ++ us) = weight ts + weight us.
Proof. unfold weight. induction ts as [|t ts IH]; cbn [foldr app]; lia. Qed.

Lemma overlap_past bs buf tmp :
  0 < len_ buf -> (forall k b, In (k, b) bs -> max_off buf <= off b) ->
  overlap_loop bs buf tmp = Ok (Some buf, tmp).
Proof.
  intros Hne. induction bs as [|[k b] bs IH]; intros H; cbn [overlap_loop]; [done|].
  assert (off buf < max_off buf) by (unfold max_off; lia).
  assert (max_off buf <= off b) by (apply (H k); by left).
  destruct (Z.ltb_spec (max_off buf) (off b)); [done|].
  destruct (Z.leb_spec (off b) (off buf)); [lia|].
  destruct (Z.ltb_spec (off b) (max_off buf)); [lia|]. rewrite andb_false_r. cbn.
  apply IH. intros k' b' Hin. apply (H k'). by right.
Qed.

(** What is known of a pending buffer once the stored chunks have been looked
    at: the part to insert, if any, and the remainders to look at again. *)
Definition examined (d : list (Z * RangeBuf)) (buf : RangeBuf)
    (kept : option RangeBuf) (ts : list RangeBuf) : Prop :=
  weight ts <= len_ buf /\
  Forall (fun t => agrees St t /\ off buf <= off t /\ max_off t <= max_off buf) ts /\
  match kept with
  | None => (forall x, covers buf x -> stored d x \/ some_covers ts x) /\
      exists k b, In (k, b) d /\ max_off buf <= k
  | Some b' =>
      agrees St b' /\ off buf <= off b' /\ max_off b' <= max_off buf /\
      (len_ b' = 0 -> len_ buf = 0) /\
      (max_off b' = max_off buf \/ exists t, In t ts /\ max_off t = max_off buf) /\
      (forall x, covers buf x -> covers b' x \/ stored d x \/ some_covers ts x) /\
      forall k b, In (k, b) d -> (k <= off b' \/ max_off b' <= off b) /\ (len_ b' = 0 -> k <> max_off b')
  end.

Lemma stored_cons k b d x : stored ((k, b) :: d) x <-> covers b x \/ stored d x.
Proof.
  unfold stored. split.
  - intros (k' & b' & [[= <- <-]|Hin] & Hc); [by left|right; eauto].
  - intros [Hc|(k' & b' & Hin & Hc)]; [exists k, b|exists k', b']; cbn; auto.
Qed.

Lemma examined_cons_none k b bs buf b1 ts :
  len_ b1 <= len_ buf -> off buf <= off b1 -> max_off b1 = max_off buf ->
  (forall x, covers buf x -> covers b x \/ covers b1 x) ->
  examined bs b1 None ts -> examined ((k, b) :: bs) buf None ts.
Proof.
  intros Hl Ho Hm Hx (Hw & Hf & Hc & k' & b' & Hin & Hk). split_and!.
  - lia.
  - eapply Forall_impl; [done|]. cbn. intros t (? & ? & ?). split_and!; [done|lia..].
  - intros x Hxb. rewrite stored_cons. destruct (Hx x Hxb) as [|Hb1]; [auto|].
    destruct (Hc x Hb1); auto.
  - exists k', b'. split; [by right|]. lia.
Qed.

Lemma examined_cons_some k b bs buf b1 b' ts :
  len_ b1 <= len_ buf -> (len_ b1 = 0 -> len_ buf = 0) ->
  off buf <= off b1 -> max_off b1 = max_off buf ->
  (forall x, covers buf x -> covers b x \/ covers b1 x) ->
  (k <= off b' \/ max_off b' <= off b) /\ (len_ b' = 0 -> k <> max_off b') ->
  examined bs b1 (Some b') ts -> examined ((k, b) :: bs) buf (Some b') ts.
Proof.
  intros Hl Hz Ho Hm Hx Hb (Hw & Hf & Ha & Ho' & Hm' & He & Hmax & Hc & Hd). split_and!; try lia.
  - eapply Forall_impl; [done|]. cbn. intros t (? & ? & ?). split_and!; [done|lia..].
  - done.
  - by rewrite <- Hm.
  - intros x Hxb. rewrite stored_cons. destruct (Hx x Hxb) as [|Hb1]; [auto|].
    destruct (Hc x Hb1) as [|[|]]; auto.
  - intros k' b'' [[= <- <-]|Hin]; [done|eauto].
Qed.

Lemma overlap_loop_spec bs : forall buf tmp lo,
  Btree.above lo bs -> (forall k b, In (k, b) bs -> k = max_off b) ->
  (forall k1 b1 k2 b2, In (k1, b1) bs -> In (k2, b2) bs -> k1 < k2 -> k1 <= off b2) ->
  agrees St buf -> exists kept ts,
  overlap_loop bs buf tmp = Ok (kept, tmp ++ ts) /\ examined bs buf kept ts.
Proof.
  induction bs as [|[k b] bs IH]; intros buf tmp lo Hs Hk Hd Ha; cbn [overlap_loop].
  { exists (Some buf), []. rewrite app_nil_r. split; [done|]. pose proof (len_nonneg_ buf).
    split_and!; auto; cbn; lia. }
  destruct Hs as [_ Hs]. pose proof (len_nonneg_ buf). pose proof (len_nonneg_ b).
  assert (k = max_off b) as -> by (apply Hk; by left).
  assert (forall k' b', In (k', b') bs -> max_off b < k' /\ max_off b <= off b') as Hlater.
  { intros k' b' Hin. apply Btree.above_keys_gt in Hs. unfold Btree.keys_gt in Hs.
    rewrite List.Forall_forall in Hs. pose proof (Hs _ Hin). cbn in *. split; [done|].
    eapply (Hd (max_off b) b k' b'); cbn; auto. }
  assert (forall buf' tmp', agrees St buf' -> exists kept ts,
    overlap_loop bs buf' tmp' = Ok (kept, tmp' ++ ts) /\ examined bs buf' kept ts) as Hrec.
  { intros buf' tmp' Ha'. eapply IH; [done| | |done].
    - intros. eapply Hk. by right.
    - intros. eapply Hd; [by right| |done]. by right. }
  clear IH Hd Hk. unfold max_off in *.
  destruct (Z.ltb_spec (off buf + len_ buf) (off b)) as [Hlt|Hge].
  { exists (Some buf), []. rewrite app_nil_r. split; [done|].
    split_and!; auto; try (cbn; lia). unfold max_off.
    intros k' b' [[= <- <-]|Hin]; [lia|]. pose proof (Hlater _ _ Hin). lia. }
  destruct (Z.leb_spec (off b) (off buf)) as [Hob|Hob]; cbn [andb].
  1: destruct (Z.leb_spec (off buf + len_ buf) (off b + len_ b)) as [Hdup|Hnd].
  { exists None, []. rewrite app_nil_r. split; [done|]. split_and!; auto; try (cbn; lia).
    - intros x Hx. left. exists (off b + len_ b), b. split; [by left|]. unfold covers, max_off in *. lia.
    - exists (off b + len_ b), b. split; [by left|]. unfold max_off. lia. }
  - destruct (Z.ltb_spec (off buf) (off b + len_ b)) as [Hov|Hno].
    + destruct (advance_spec St (off b + len_ b - off buf) buf Ha) as (b1 & -> & Ho1 & Hm1 & Hl1 & Ha1); [lia|].
      cbn [mbind outcome_bind].
      destruct (Hrec b1 tmp Ha1) as (kept & ts & -> & Hex). exists kept, ts. split; [done|].
      destruct kept as [b'|].
      * pose proof Hex as (_ & _ & _ & Ho' & _ & Hz & _).
        eapply (examined_cons_some _ b bs buf b1); try done; try lia.
        all: unfold covers, max_off in *; intros; try lia.
      * eapply (examined_cons_none _ b bs buf b1); try done; try lia.
        unfold covers, max_off in *. lia.
    + destruct (Z.ltb_spec (off buf) (off b)); [lia|]. cbn [andb].
      destruct (Hrec buf tmp Ha) as (kept & ts & -> & Hex). exists kept, ts. split; [done|].
      destruct kept as [b'|].
      * pose proof Hex as (_ & _ & _ & Ho' & Hm' & Hz & _).
        eapply (examined_cons_some _ b bs buf buf); try done; auto.
        unfold max_off in *. lia.
      * eapply (examined_cons_none _ b bs buf buf); try done; auto.
  - destruct (Z.ltb_spec (off buf) (off b)); [|lia]. cbn [andb].
    destruct (Z.ltb_spec (off b) (off buf + len_ buf)) as [Hov|Hno].
    + destruct (split_off_spec St (off b - off buf) buf Ha)
        as (b1 & b2 & -> & Ho1 & Hl1 & Ho2 & Hl2 & Ha1 & Ha2); [lia|].
      cbn [mbind outcome_bind].
      rewrite overlap_past; [|lia|unfold max_off; intros k' b' Hin; pose proof (Hlater _ _ Hin); lia].
      exists (Some b1), [b2]. split; [done|]. split_and!; unfold covers, max_off in *; try done; try lia.
      * cbn. lia.
      * constructor; [|done]. split_and!; [done|unfold max_off; lia..].
      * right. exists b2. split; [by left|]. lia.
      * intros x Hx. destruct (Z.lt_ge_cases x (off b)); [left; lia|right; right].
        constructor. unfold covers, max_off. lia.
      * intros k' b' [[= <- <-]|Hin]; [lia|]. pose proof (Hlater _ _ Hin). lia.
    + destruct (Hrec buf tmp Ha) as (kept & ts & -> & Hex). exists kept, ts. split; [done|].
      destruct kept as [b'|].
      * pose proof Hex as (_ & _ & _ & Ho' & Hm' & Hz & _).
        eapply (examined_cons_some _ b bs buf buf); try done; auto.
        unfold max_off in *. lia.
      * eapply (examined_cons_none _ b bs buf buf); try done; auto.
Qed.

Lemma examine_spec lo hi d buf tmp :
  chunks_ok lo hi d -> agrees St buf -> exists kept ts,
  (if (off buf <? hi) || is_empty buf
   then overlap_loop (Btree.range_from (off buf) d) buf tmp
   else Ok (Some buf, tmp)) = Ok (kept, tmp ++ ts) /\ examined d buf kept ts.
Proof.
  intros [[l Hs] He Hd] Ha. pose proof (len_nonneg_ buf).
  destruct ((off buf <? hi) || is_empty buf) eqn:Hb.
  - destruct (overlap_loop_spec (Btree.range_from (off buf) d) buf tmp l)
      as (kept & ts & -> & Hw & Hf & Hex).
    + by apply Btree.range_from_above.
    + intros k b [Hin _]%Btree.In_range_from. by apply He.
    + intros k1 b1 k2 b2 [H1 _]%Btree.In_range_from [H2 _]%Btree.In_range_from. by eapply Hd.
    + done.
    + assert (forall x, stored (Btree.range_from (off buf) d) x -> stored d x) as Hsub.
      { intros x (k & b & [Hin _]%Btree.In_range_from & Hc). by exists k, b. }
      exists kept, ts. split; [done|]. split; [done|]. split; [done|]. destruct kept as [b'|].
      * destruct Hex as (Ha' & Ho & Hm & Hz & Hmx & Hc & Hdis). split_and!; auto.
        { intros x Hx. destruct (Hc x Hx) as [|[|]]; auto. }
        intros k b Hin. destruct (Z.le_gt_cases (off buf) k).
        { apply Hdis, Btree.In_range_from. by split. }
        pose proof (off_le_max b'). lia.
      * destruct Hex as (Hc & k & b & [Hin _]%Btree.In_range_from & Hk). split; [|eauto].
        intros x Hx. destruct (Hc x Hx); auto.
  - apply orb_false_iff in Hb as [Hhi Hne%Z.eqb_neq]. apply Z.ltb_ge in Hhi.
    exists (Some buf), []. rewrite app_nil_r. split; [done|].
    split_and!; auto; try (cbn; lia). intros k b Hin. apply He in Hin. lia.
Qed.

Lemma insert_chunk lo hi d b' :
  chunks_ok lo hi d -> agrees St b' -> lo <= off b' ->
  (forall k b, In (k, b) d ->
     (k <= off b' \/ max_off b' <= off b) /\ (len_ b' = 0 -> k <> max_off b')) ->
  chunks_ok lo (Z.max hi (max_off b')) (Btree.insert (max_off b') b' d) /\
  forall x, stored (Btree.insert (max_off b') b' d) x <-> stored d x \/ covers b' x.
Proof.
  intros [[l Hs] He Hd] Ha Hlo Hdis. pose proof (off_le_max b').
  assert (forall k b, In (k, b) (Btree.insert (max_off b') b' d) <->
    (k = max_off b' /\ b = b') \/ (k <> max_off b' /\ In (k, b) d)) as Hin
    by (intros; by eapply Btree.In_insert).
  assert (forall k b, In (k, b) d -> off b <= k) as Hle
    by (intros k b Hkb; destruct (He _ _ Hkb) as (-> & _); apply off_le_max).
  split; [split|].
  - exists (Z.min l (max_off b' - 1)). apply Btree.insert_above; [lia|].
    eapply Btree.above_weaken; [|done]. lia.
  - intros k b [[-> ->]|[? Hkb]]%Hin; [split_and!; [done|lia..|done]|].
    destruct (He _ _ Hkb) as (? & ? & ? & ?). split_and!; [done|lia..|done].
  - intros k1 b1 k2 b2 [[-> ->]|[? H1]]%Hin [[-> ->]|[? H2]]%Hin Hlt; [lia| | |by eapply Hd].
    + destruct (Hdis _ _ H2) as [[?|?] _]; [lia|done].
    + destruct (Hdis _ _ H1) as [[?|Hx] _]; [done|]. pose proof (Hle _ _ H1). lia.
  - intros x. split.
    + intros (k & b & [[-> ->]|[? Hkb]]%Hin & Hc); [by right|left; by exists k, b].
    + intros [(k & b & Hkb & Hc)|Hc]; [|exists (max_off b'), b'; split; [apply Hin; auto|done]].
      exists k, b. split; [|done]. apply Hin. right. split; [|done]. intros ->.
      destruct (Hdis _ _ Hkb) as [[?|?] Hz]; [unfold max_off in *; lia|].
      destruct (He _ _ Hkb) as (Heq & _). unfold covers in Hc. lia.
Qed.

(** The two sides of a run of [write]'s loop that leave the rest of the state
    alone. *)
Definition same_rest (s s' : RecvBuf) : Prop :=
  read_off s' = read_off s /\ fin_off s' = fin_off s /\ error s' = error s /\
  shutdown_ s' = shutdown_ s /\ flow_control s' = flow_control s.

#[local] Instance same_rest_preorder : PreOrder same_rest.
Proof.
  unfold same_rest. split; [intros s; by split_and!|].
  intros s1 s2 s3 (?&?&?&?&?) (?&?&?&?&?). intuition congruence.
Qed.

Lemma some_covers_app ts us x : some_covers (ts ++ us) x <-> some_covers ts x \/ some_covers us x.
Proof. apply Exists_app. Qed.

Lemma chunks_ok_weaken lo hi hi' d : hi <= hi' -> chunks_ok lo hi d -> chunks_ok lo hi' d.
Proof.
  intros Hle [Hs He Hd]. split; [done| |done]. intros k b Hin.
  destruct (He _ _ Hin) as (? & ? & ? & ?). split_and!; [done..|lia|done].
Qed.

Lemma subbufs_cover b ts x :
  Forall (fun t => agrees St t /\ off b <= off t /\ max_off t <= max_off b) ts ->
  some_covers ts x -> covers b x.
Proof.
  intros Hf (t & Hin & Hc)%Exists_exists. apply list_elem_of_In in Hin.
  rewrite List.Forall_forall in Hf. apply Hf in Hin. unfold covers in *. lia.
Qed.

Lemma write_loop_spec fuel : forall tmp s M,
  chunks_ok (read_off s) (recv_off s) (data s) -> recv_off s <= M ->
  Forall (fun t => agrees St t /\ read_off s <= max_off t <= M) tmp ->
  weight tmp < Z.of_nat fuel -> exists s',
  write_loop fuel tmp s = Ok s' /\ same_rest s s' /\
  chunks_ok (read_off s') (recv_off s') (data s') /\
  recv_off s <= recv_off s' <= M /\ Forall (fun t => max_off t <= recv_off s') tmp /\
  if shutdown_ s then data s' = data s
  else forall x, stored (data s') x <->
         stored (data s) x \/ (read_off s <= x /\ some_covers tmp x).
Proof.
  induction fuel as [|fuel IH]; intros tmp s M Hok HM Hf Hw.
  { pose proof (weight_nonneg tmp). lia. }
  destruct tmp as [|buf tmp]; cbn [write_loop].
  { exists s. split_and!; try done; try lia. destruct (shutdown_ s); [done|].
    intros x. unfold some_covers. rewrite Exists_nil. tauto. }
  apply Forall_cons in Hf as [[Ha Hm] Hf]. unfold weight in Hw. cbn [foldr] in Hw. fold (weight tmp) in Hw.
  assert (exists b, (if off buf <? read_off s then advance (read_off s - off buf) buf else Ok buf) = Ok b /\
    off b = Z.max (off buf) (read_off s) /\ max_off b = max_off buf /\ len_ b <= len_ buf /\ agrees St b)
    as (b & -> & Hob & Hmb & Hlb & Hab).
  { destruct (Z.ltb_spec (off buf) (read_off s)).
    - destruct (advance_spec St (read_off s - off buf) buf Ha) as (b & ? & ? & ? & ? & ?); [unfold max_off in *; lia|].
      exists b. split_and!; [done|lia..|done].
    - exists buf. split_and!; [done|lia..|done]. }
  assert (forall x, covers b x <-> read_off s <= x /\ covers buf x) as Hbc
    by (intros x; unfold covers; lia).
  cbn [mbind outcome_bind].
  destruct (examine_spec _ _ _ b tmp Hok Hab) as (kept & ts & -> & Hwt & Hft & Hex).
  cbn [mbind outcome_bind].
  assert (Forall (fun t => agrees St t /\ read_off s <= max_off t <= M) (tmp ++ ts)) as Hf'.
  { apply Forall_app. split; [done|]. eapply Forall_impl; [exact Hft|]. cbn.
    intros t (? & ? & ?). pose proof (off_le_max t). split; [done|lia]. }
  assert (weight (tmp ++ ts) < Z.of_nat fuel) as Hw' by (rewrite weight_app; lia).
  destruct kept as [b'|].
  - destruct Hex as (Ha' & Ho' & Hm' & _ & Hmx & Hc & Hdis).
    destruct (insert_chunk _ _ _ b' Hok Ha' ltac:(lia) Hdis) as [Hok' Hst'].
    set (s1 := if shutdown_ _ then _ else _).
    assert (chunks_ok (read_off s1) (recv_off s1) (data s1) /\ same_rest s s1 /\
      recv_off s1 = Z.max (recv_off s) (max_off b') /\
      if shutdown_ s then data s1 = data s
      else forall x, stored (data s1) x <-> stored (data s) x \/ covers b' x)
      as (Hok1 & Hr1 & Hro1 & Hst1).
    { subst s1. cbn [shutdown_ with_recv_off]. destruct (shutdown_ s) eqn:Hsh; cbn.
      - split_and!; try done. eapply chunks_ok_weaken; [|exact Hok]. lia.
      - split_and!; try done. }
    pose proof Hr1 as (Hrd & _ & _ & Hsh & _).
    destruct (IH (tmp ++ ts) s1 M) as (s' & -> & Hr' & Hok2 & HM' & Hf2 & Hst2);
      [done|lia|by rewrite Hrd|done|].
    exists s'. apply Forall_app in Hf2 as [Hf2 Hf3]. split_and!; auto; try lia.
    + by trans s1.
    + constructor; [|done]. rewrite <- Hmb. destruct Hmx as [|(t & Hin & Ht)]; [lia|].
      rewrite List.Forall_forall in Hf3. rewrite <- Ht. by apply Hf3.
    + rewrite Hsh in Hst2. destruct (shutdown_ s); [congruence|]. intros x.
      pose proof (subbufs_cover b ts x Hft) as Hsub.
      specialize (Hst1 x). specialize (Hst2 x). specialize (Hc x). specialize (Hbc x).
      rewrite some_covers_app in Hst2. unfold some_covers at 1. rewrite Exists_cons.
      fold (some_covers tmp x). rewrite Hrd in Hst2.
      assert (covers b' x -> covers b x) by (unfold covers; lia). tauto.
  - destruct Hex as (Hc & k & c & Hin & Hk).
    destruct (IH (tmp ++ ts) s M) as (s' & -> & Hr' & Hok2 & HM' & Hf2 & Hst2); [done..|].
    exists s'. apply Forall_app in Hf2 as [Hf2 _]. split_and!; auto; try lia.
    + constructor; [|done]. apply (chunks_entry _ _ _ Hok) in Hin. lia.
    + destruct (shutdown_ s); [done|]. intros x.
      pose proof (subbufs_cover b ts x Hft) as Hsub.
      specialize (Hst2 x). specialize (Hc x). specialize (Hbc x).
      rewrite some_covers_app in Hst2. unfold some_covers at 1. rewrite Exists_cons.
      fold (some_covers tmp x). tauto.
Qed.

(** Offsets the peer's data has arrived for: read already, or stored. *)
Definition delivered (s : RecvBuf) (x : Z) : Prop := x < read_off s \/ stored (data s) x.

Record inv (s : RecvBuf) : Prop := {
  inv_read_off : 0 <= read_off s <= recv_off s;
  inv_chunks : chunks_ok (read_off s) (recv_off s) (data s);
  inv_fin : forall f, fin_off s = Some f -> recv_off s <= f;
  inv_shutdown : shutdown_ s = true -> data s = [];
}.

(** When [write] refuses a frame, and with which error. *)
Definition refused (s : RecvBuf) (m : Z) (f : bool) (e : Error) : Prop :=
  (e = FlowControlError /\ max_data s < m) \/
  (e = FinalSizeError /\
   ((exists fo, fin_off s = Some fo /\ (fo < m \/ (f = true /\ fo <> m))) \/
    (f = true /\ m < recv_off s))).

(** An accepted frame: what it changes and what it leaves alone. *)
Record accepted (s : RecvBuf) (offset n : Z) (f : bool) (s' : RecvBuf) : Prop := {
  acc_inv : inv s';
  acc_limit : offset + n <= max_data s;
  acc_read_off : read_off s' = read_off s;
  acc_recv_off : recv_off s' = if (n =? 0) && negb f then recv_off s else Z.max (recv_off s) (offset + n);
  acc_fin_off : fin_off s' = if f then Some (offset + n) else fin_off s;
  acc_rest : error s' = error s /\ shutdown_ s' = shutdown_ s /\ flow_control s' = flow_control s;
  acc_delivered : shutdown_ s = false -> forall x, 0 <= x ->
    delivered s' x <-> delivered s x \/ offset <= x < offset + n;
}.

Lemma accepted_ignored s offset n f :
  inv s -> 0 <= offset -> 0 <= n -> offset + n <= max_data s ->
  (f = true -> recv_off s <= offset + n) ->
  (n = 0 /\ f = false \/ offset + n <= read_off s) ->
  accepted s offset n f (if f then with_fin_off (Some (offset + n)) s else s).
Proof.
  intros Hi H0 Hn Hm Hf Hc. destruct Hi as [Hr Hk Hfo Hs]. split; auto.
  - destruct f; [|by split]. split; cbn; auto. intros ? [= <-]. auto.
  - by destruct f.
  - destruct f, (Z.eqb_spec n 0); cbn; try lia; destruct Hc as [[? ?]|?]; lia || done.
  - by destruct f.
  - by destruct f.
  - intros _ x Hx. replace (delivered _ x) with (delivered s x) by (by destruct f).
    unfold delivered. destruct Hc as [[? ?]|?]; intuition lia.
Qed.

Lemma recv_write_spec s offset bytes f :
  inv s -> 0 <= offset -> bytes = slice St offset (len bytes) ->
  offset + len bytes < 18446744073709551616 ->
  match write offset bytes f s with
  | (Ok _, s') => accepted s offset (len bytes) f s'
  | (Err e, s') => s' = s /\ refused s (offset + len bytes) f e
  | (Panic, _) => False
  end.
Proof.
  intros Hi H0 Hb Hmax. unfold write. set (buf := RangeBuf.new bytes offset f).
  change (max_off buf) with (offset + len bytes). change (fin buf) with f.
  assert (is_empty buf = (len bytes =? 0)) as -> by done.
  set (m := offset + len bytes) in *. pose proof (len_nonneg bytes).
  destruct (Z.leb_spec 18446744073709551616 m); [lia|].
  destruct (Z.ltb_spec (max_data s) m); [split; [done|]; left; by split|].
  destruct (match fin_off s with Some _ => _ | None => _ end) eqn:Hfo.
  { split; [done|]. right. split; [done|]. left. destruct (fin_off s) as [fo|]; [|done].
    exists fo. split; [done|]. destruct (Z.ltb_spec fo m); [by left|right].
    destruct f; [|done]. cbn in Hfo. destruct (Z.eqb_spec fo m); done. }
  assert (forall fo, fin_off s = Some fo -> m <= fo /\ (f = true -> fo = m)) as Hfin.
  { intros fo Heq. rewrite Heq in Hfo. apply orb_false_iff in Hfo as [Hlt%Z.ltb_ge Hne].
    split; [done|]. intros ->. cbn in Hne. destruct (Z.eqb_spec fo m); done. }
  destruct (f && (m <? recv_off s)) eqn:Hlow.
  { apply andb_true_iff in Hlow as [-> Hlt%Z.ltb_lt]. split; [done|]. right. auto. }
  unfold is_fin. case_bool_decide as Hisf.
  { destruct (Hfin _ Hisf) as [? Hfm]. pose proof (inv_fin _ Hi _ Hisf).
    replace s with (if f then with_fin_off (Some m) s else s) at 2.
    - apply accepted_ignored; auto. intros Hft. specialize (Hfm Hft). lia.
    - destruct f; [|done]. rewrite <- (Hfm eq_refl), <- Hisf. by destruct s. }
  pose proof (inv_read_off s Hi) as Hro.
  assert (f = true -> recv_off s <= m) as Hfm.
  { intros ->. cbn in Hlow. by apply Z.ltb_ge. }
  set (s1 := if f then with_fin_off (Some m) s else s).
  assert (data s1 = data s /\ read_off s1 = read_off s /\ recv_off s1 = recv_off s /\
    error s1 = error s /\ shutdown_ s1 = shutdown_ s /\ flow_control s1 = flow_control s /\
    fin_off s1 = (if f then Some m else fin_off s)) as (Hd & Hr & Hv & He & Hs & Hfc & Hf1)
    by (subst s1; by destruct f).
  assert (len bytes = 0 /\ f = false \/ m <= read_off s -> accepted s offset (len bytes) f s1) as Hign
    by (intros; subst s1; by apply accepted_ignored).
  destruct (negb f && (len bytes =? 0)) eqn:Hempty.
  { apply andb_true_iff in Hempty as [Hnf%negb_true_iff Hz%Z.eqb_eq]. auto. }
  rewrite Hr. destruct ((m <=? read_off s) && negb (len bytes =? 0)) eqn:Hold.
  { apply andb_true_iff in Hold as [Hle%Z.leb_le _]. auto. }
  clear Hign.
  destruct (write_loop_spec (write_fuel [buf]) [buf] s1 (Z.max (recv_off s) m))
    as (s' & -> & (Hr' & Hf' & He' & Hs' & Hfc') & Hok & Hv' & Hall & Hst).
  - rewrite Hr, Hv, Hd. apply Hi.
  - lia.
  - constructor; [|done]. split; [done|]. rewrite Hr. change (max_off buf) with m.
    split; [|lia]. destruct (Z.leb_spec m (read_off s)); [|lia]. cbn in Hold.
    destruct (Z.eqb_spec (len bytes) 0); [|done]. destruct f; [|done]. lia.
  - unfold write_fuel, weight, len_. cbn. lia.
  - apply Forall_inv in Hall. change (max_off buf) with m in Hall.
    rewrite Hr, Hs, Hd in *. rewrite Hv, He, Hfc, Hf1 in *.
    split; [split| | | | | |]; auto; try lia.
    + rewrite Hf'. intros fo. destruct f; [intros [= <-]; specialize (Hfm eq_refl); lia|].
      intros Heq. pose proof (inv_fin _ Hi _ Heq). destruct (Hfin _ Heq). lia.
    + rewrite Hs'. intros Hsh. rewrite Hsh in Hst. rewrite Hst. by apply Hi.
    + rewrite andb_comm, Hempty. lia.
    + intros Hsh x Hx. rewrite Hsh in Hst. unfold delivered. rewrite Hst, Hr'.
      unfold some_covers. rewrite Exists_cons, Exists_nil. unfold covers.
      change (max_off buf) with m. change (off buf) with offset. intuition lia.
Qed.

(** The chunks after the first one start where it ends. *)
Lemma chunks_tail lo hi k b d :
  chunks_ok lo hi ((k, b) :: d) -> chunks_ok (max_off b) hi d.
Proof.
  intros [[l [_ Hs]] He Hd]. assert (k = max_off b) as -> by (apply He; by left). split.
  - by exists (max_off b).
  - intros k' b' Hin. destruct (He k' b') as (? & ? & ? & ?); [by right|]. split_and!; auto.
    eapply (Hd (max_off b) b); [by left|by right|]. apply Btree.above_keys_gt in Hs.
    unfold Btree.keys_gt in Hs. rewrite List.Forall_forall in Hs. by apply (Hs _ Hin).
  - intros k1 b1 k2 b2 H1 H2. apply (Hd k1 b1 k2 b2); by right.
Qed.

Lemma chunks_replace lo lo' hi k b b' d :
  chunks_ok lo hi ((k, b) :: d) -> max_off b' = max_off b -> lo' <= off b' -> lo' <= max_off b ->
  agrees St b' -> chunks_ok lo' hi ((k, b') :: d).
Proof.
  intros Hok Hm Hlo Hlo' Ha. pose proof (chunks_tail _ _ _ _ _ Hok) as [_ Ht _].
  destruct Hok as [[l Hs] He Hd]. destruct (He k b) as (-> & _ & ? & _); [by left|]. split.
  - by exists l.
  - intros k' b'' [[= <- <-]|Hin]; [split_and!; [done|lia..|done]|].
    destruct (Ht _ _ Hin) as (? & ? & ? & ?). split_and!; [done|lia..|done].
  - intros k1 b1 k2 b2 [[= <- <-]|H1] [[= <- <-]|H2] Hlt; [lia| | |].
    + by apply (Hd (max_off b) b k2 b2); [left|right|].
    + destruct Hs as [_ Hs%Btree.above_keys_gt]. unfold Btree.keys_gt in Hs.
      rewrite List.Forall_forall in Hs. apply Hs in H1. cbn in H1. lia.
    + by apply (Hd k1 b1 k2 b2); [right|right|].
Qed.

Lemma stored_ge lo hi d x : chunks_ok lo hi d -> stored d x -> lo <= x < hi.
Proof.
  intros [_ He _] (k & b & Hin & Hc). destruct (He _ _ Hin) as (? & ? & ? & _).
  unfold covers in Hc. lia.
Qed.

Lemma recv_read_loop_spec d : forall cap ro hi out,
  chunks_ok ro hi d -> 0 <= cap -> hi < 18446744073709551616 -> exists n d',
  read_loop d cap ro out = Ok (d', ro + n, out ++ slice St ro n) /\
  0 <= n <= cap /\ (n = 0 \/ ro + n <= hi) /\ chunks_ok (ro + n) hi d' /\
  (n = cap \/ ~ stored d (ro + n)) /\
  forall x, stored d x <-> stored d' x \/ ro <= x < ro + n.
Proof.
  induction d as [|[k b] d IH]; intros cap ro hi out Hok Hcap Hhi; cbn [read_loop].
  { exists 0, []. rewrite slice_nil, Z.add_0_r, app_nil_r. split_and!; auto; try lia.
    - right. by intros (? & ? & [] & _).
    - intros x. intuition lia. }
  pose proof (chunks_entry _ _ _ Hok k b (or_introl eq_refl)) as (-> & Hro & Hkhi & Ha).
  pose proof (chunks_tail _ _ _ _ _ Hok) as Htl. pose proof (len_nonneg_ b).
  destruct (Z.ltb_spec 0 cap) as [Hc0|Hc0]; cbn [andb]; [|].
  1: destruct (Z.eqb_spec (off b) ro) as [Heq|Hne].
  - rewrite add64_ok by (unfold max_off in *; lia). cbn [mbind outcome_bind].
    assert (ztake (Z.min (len_ b) cap) (RangeBuf.data b) = slice St ro (Z.min (len_ b) cap)) as Htake
      by (rewrite Ha, slice_ztake, Heq by lia; done).
    rewrite Htake. destruct (Z.ltb_spec (Z.min (len_ b) cap) (len_ b)) as [Hlt|Hge].
    + rewrite Z.min_r by lia.
      destruct (advance_spec St cap b Ha) as (b' & Hadv & Ho' & Hm' & _ & Ha'); [lia|].
      unfold consume. rewrite Hadv. cbn [mbind outcome_bind].
      exists cap, ((max_off b, b') :: d). split_and!; auto; try lia.
      * right. unfold max_off in *. lia.
      * eapply chunks_replace; [done..|lia| |done]. unfold max_off in *. lia.
      * intros x. rewrite !stored_cons. unfold covers. unfold max_off in *. intuition lia.
    + rewrite Z.min_l by lia. unfold max_off in Htl. rewrite Heq in Htl.
      destruct (IH (cap - len_ b) (ro + len_ b) hi (out ++ slice St ro (len_ b)) Htl)
        as (n & d' & -> & Hn & Hnhi & Hok' & Hmx & Hst); [lia..|].
      exists (len_ b + n), d'. rewrite Z.add_assoc. split_and!; try lia; auto.
      * rewrite <- app_assoc, slice_app by lia. done.
      * unfold max_off in *. lia.
      * destruct Hmx as [|Hmx]; [left; lia|right]. rewrite stored_cons. unfold covers, max_off.
        intuition lia.
      * intros x. rewrite stored_cons, Hst. unfold covers, max_off. intuition lia.
  - exists 0, ((max_off b, b) :: d). rewrite slice_nil, Z.add_0_r, app_nil_r.
    split_and!; auto; try lia; [|intros x; intuition lia].
    right. rewrite stored_cons. intros [Hc|Hc]; [unfold covers in Hc; lia|].
    apply (stored_ge _ _ _ _ Htl) in Hc. unfold max_off in *. lia.
  - exists 0, ((max_off b, b) :: d). rewrite slice_nil, Z.add_0_r, app_nil_r.
    split_and!; auto; try lia. intros x. intuition lia.
Qed.

Lemma recv_not_ready s : inv s -> ready s = false -> ~ stored (data s) (read_off s).
Proof.
  intros Hi Hr Hst. pose proof (inv_chunks _ Hi) as Hok. unfold ready, Btree.first_key_value in Hr.
  destruct (data s) as [|[k b] d]; cbn in Hr; [by destruct Hst as (? & ? & [] & _)|].
  apply Z.eqb_neq in Hr. pose proof (chunks_entry _ _ _ Hok k b (or_introl eq_refl)) as (_ & Hro & _).
  apply chunks_tail in Hok. apply stored_cons in Hst as [Hc|Hc]; [unfold covers in Hc; lia|].
  apply (stored_ge _ _ _ _ Hok) in Hc. pose proof (off_le_max b). lia.
Qed.

(** The application's view of one read. *)
Lemma recv_read_spec s cap :
  inv s -> error s = None -> 0 <= cap -> recv_off s < 18446744073709551616 ->
  FlowControl.read_off (flow_control s) = read_off s ->
  if ready s then exists n s',
    read cap s = (Ok (slice St (read_off s) n, bool_decide (fin_off s = Some (read_off s + n))), s') /\
    0 <= n <= cap /\ (n = cap \/ ~ delivered s (read_off s + n)) /\
    inv s' /\ read_off s' = read_off s + n /\ recv_off s' = recv_off s /\
    fin_off s' = fin_off s /\ error s' = None /\ shutdown_ s' = shutdown_ s /\
    max_data s' = max_data s /\ FlowControl.read_off (flow_control s') = read_off s' /\
    forall x, 0 <= x -> delivered s' x <-> delivered s x
  else read cap s = (Err Done, s) /\ ~ delivered s (read_off s).
Proof.
  intros Hi He Hcap Hmax Hfc. pose proof (inv_read_off _ Hi) as Hro. unfold read.
  destruct (ready s) eqn:Hr; cbn [negb].
  2: { split; [done|]. intros [?|Hst]; [lia|]. by eapply recv_not_ready. }
  destruct (recv_read_loop_spec (data s) cap (read_off s) (recv_off s) [] (inv_chunks _ Hi) Hcap Hmax)
    as (n & d' & -> & Hn & Hnhi & Hok & Hmx & Hst).
  rewrite He. cbn [app]. unfold FlowControl.increase_read_off. cbn [flow_control with_read_off with_data].
  rewrite len_slice, add64_ok by lia. cbn [mbind outcome_bind].
  exists n. eexists. split; [done|]. split_and!; cbn; auto; try lia.
  - destruct Hmx as [|Hmx]; [by left|right]. intros [?|?]; [lia|done].
  - split; cbn; try lia; [done|apply Hi|]. intros Hsh. pose proof (inv_shutdown _ Hi Hsh) as Hd.
    unfold ready in Hr. by rewrite Hd in Hr.
  - intros x Hx. unfold delivered. cbn. rewrite Hst. intuition lia.
Qed.


(** ** Reset and shutdown *)

Lemma chunks_ok_nil lo hi : chunks_ok lo hi [].
Proof. split; [by exists 0|done|done]. Qed.

Lemma chunks_ok_fin n : chunks_ok n n [(n, RangeBuf.new [] n true)].
Proof.
  split.
  - exists (n - 1). cbn. lia.
  - intros k b [[= <- <-]|[]]. change (max_off _) with (n + 0). cbn [off RangeBuf.new].
    split_and!; [lia..|]. apply agrees_nil.
  - intros k1 b1 k2 b2 [[= <- <-]|[]] [[= <- <-]|[]]. lia.
Qed.

(** Writing the empty final chunk into an empty buffer. *)
Lemma write_fin_empty s n :
  data s = [] -> 0 <= n < 18446744073709551616 -> read_off s <= recv_off s <= n ->
  (forall f, fin_off s = Some f -> f = n) ->
  write n [] true s =
    if max_data s <? n then (Err FlowControlError, s)
    else if is_fin s then (Ok tt, s)
    else (Ok tt, mkRecv (if shutdown_ s then [] else [(n, RangeBuf.new [] n true)])
            (read_off s) n (Some n) (error s) (shutdown_ s) (flow_control s)).
Proof.
  intros Hd Hn Hr Hf. unfold write. assert (max_off (RangeBuf.new [] n true) = n) as ->
    by apply Z.add_0_r.
  destruct (Z.leb_spec 18446744073709551616 n); [lia|]. destruct (max_data s <? n); [done|].
  cbn [fin RangeBuf.new].
  replace (match fin_off s with Some _ => _ | None => _ end) with false.
  2: { destruct (fin_off s) as [fo|]; [|done]. by rewrite (Hf fo eq_refl), Z.ltb_irrefl, Z.eqb_refl. }
  destruct (Z.ltb_spec n (recv_off s)); [lia|]. cbn [andb].
  destruct (is_fin s); [done|]. cbn [negb andb is_empty len_ RangeBuf.data].
  change (len_ (RangeBuf.new [] n true) =? 0) with true. rewrite andb_false_r.
  change (write_fuel [RangeBuf.new [] n true]) with 2%nat. cbn [write_loop].
  cbn [off RangeBuf.new read_off with_fin_off recv_off data].
  destruct (Z.ltb_spec n (read_off s)); [lia|]. cbn [mbind outcome_bind off RangeBuf.new].
  rewrite orb_true_r, Hd. cbn [overlap_loop Btree.range_from List.filter mbind outcome_bind].
  cbn [shutdown_ with_recv_off with_fin_off].
  assert (Z.max (recv_off s) (max_off (RangeBuf.new [] n true)) = n) as ->
    by (change (max_off _) with (n + 0); lia).
  unfold with_recv_off, with_fin_off, with_data. cbn. rewrite Hd.
  destruct (shutdown_ s); [done|]. cbn. change (max_off _) with (n + 0). by rewrite Z.add_0_r.
Qed.

Lemma recv_reset_spec s code n :
  inv s -> 0 <= n < 18446744073709551616 ->
  match reset code n s with
  | (Ok delta, s') =>
      inv s' /\ delta = n - recv_off s /\ (fin_off s' = Some n /\ recv_off s' = n \/ error s <> None) /\
      (error s = None -> read_off s' = n /\ error s' = Some code /\ is_complete s' = true /\
         (is_fin s = false -> shutdown_ s = false -> forall cap, read cap s' = (Err (StreamReset code), with_data [] s')))
  | (Err e, s') =>
      (e = FinalSizeError /\ s' = s /\
         (n < recv_off s \/ exists f, fin_off s = Some f /\ f <> n)) \/
      (e = FlowControlError /\ max_data s < n)
  | (Panic, _) => False
  end.
Proof.
  intros Hi Hn. pose proof (inv_read_off _ Hi) as Hro. unfold reset.
  destruct (match fin_off s with Some fo => negb (fo =? n) | None => false end) eqn:Hfo.
  { left. split_and!; auto. right. destruct (fin_off s) as [fo|]; [|done]. exists fo.
    split; [done|]. by apply negb_true_iff, Z.eqb_neq in Hfo. }
  assert (forall f, fin_off s = Some f -> f = n) as Hfin.
  { intros f Hf. rewrite Hf in Hfo. apply negb_false_iff, Z.eqb_eq in Hfo. done. }
  destruct (Z.ltb_spec n (recv_off s)); [left; by auto|].
  case_bool_decide as Her.
  { split_and!; auto; [right|]; intros Heq; rewrite Heq in Her; by destruct Her. }
  rewrite write_fin_empty; cbn [data with_data with_error read_off recv_off fin_off]; auto; [|lia].
  change (max_data (with_data [] (with_error (Some code) s))) with (max_data s).
  change (is_fin (with_data [] (with_error (Some code) s))) with (is_fin s).
  destruct (Z.ltb_spec (max_data s) n); [right; by auto|].
  destruct (is_fin s) eqn:Hf.
  - unfold is_fin in Hf. apply bool_decide_eq_true in Hf. pose proof (inv_fin _ Hi _ Hf) as Hle.
    pose proof (Hfin _ Hf) as Hrd. split_and!; auto.
    + split; cbn; auto; try lia; [apply chunks_ok_nil|apply Hi].
    + left. cbn. rewrite Hf. split; [by f_equal|lia].
    + intros _. cbn. split_and!; auto; try done. unfold is_complete. cbn. rewrite Hf, Hrd.
      by apply bool_decide_eq_true.
  - cbn [shutdown_ with_data with_error error flow_control]. split_and!; auto.
    + split; cbn; try lia.
      * destruct (shutdown_ s); [apply chunks_ok_nil|apply chunks_ok_fin].
      * by intros f [= <-].
      * by intros ->.
    + intros _. cbn. split_and!; auto; [by apply bool_decide_eq_true|].
      intros _ Hsh cap. unfold read, ready. rewrite Hsh. cbn. by rewrite Z.eqb_refl.
Qed.

Lemma shutdown_spec s :
  inv s ->
  if shutdown_ s then shutdown s = (Err Done, s)
  else exists s', shutdown s = (Ok (recv_off s - read_off s), s') /\ inv s' /\
    shutdown_ s' = true /\ data s' = [] /\ read_off s' = recv_off s /\ recv_off s' = recv_off s.
Proof.
  intros Hi. pose proof (inv_read_off _ Hi). unfold shutdown. destruct (shutdown_ s); [done|].
  cbn [recv_off read_off with_shutdown]. rewrite sub64_ok by lia.
  eexists. split; [done|]. split_and!; auto. split; cbn; auto; [lia|apply chunks_ok_nil|apply Hi].
Qed.

(** ** Histories of frames and reads *)

Inductive event :=
| Frame (offset : Z) (bytes : list Z) (fin : bool)
| AppRead (cap : Z).

(** Frames carry bytes of the stream, within the offsets QUIC can express. *)
Definition valid (e : event) : Prop :=
  match e with
  | Frame o bytes _ => 0 <= o /\ o + len bytes < 18446744073709551616 /\ bytes = slice St o (len bytes)
  | AppRead cap => 0 <= cap
  end.

(** The buffer after a history and what the application has read.  A refused
    frame closes the connection and ends the run; [Done] means there is nothing
    to read yet. *)
Fixpoint run (evs : list event) (s : RecvBuf) (out : list Z) : res (RecvBuf * list Z) :=
  match evs with
  | [] => Ok (s, out)
  | Frame o bytes f :: evs' =>
      match write o bytes f s with
      | (Ok _, s') => run evs' s' out
      | (Err e, _) => Err e
      | (Panic, _) => Panic
      end
  | AppRead cap :: evs' =>
      match read cap s with
      | (Ok (bs, _), s') => run evs' s' (out ++ bs)
      | (Err Done, s') => run evs' s' out
      | (Err e, _) => Err e
      | (Panic, _) => Panic
      end
  end.

Definition received (evs : list event) (x : Z) : Prop :=
  Exists (fun e => match e with Frame o bytes _ => o <= x < o + len bytes | _ => False end) evs.

Lemma received_cons e evs x :
  received (e :: evs) x <->
  (match e with Frame o bytes _ => o <= x < o + len bytes | _ => False end) \/ received evs x.
Proof. apply Exists_cons. Qed.

(** A buffer that was neither reset nor shut down, after reading [out]. *)
Record healthy (s : RecvBuf) (out : list Z) : Prop := {
  healthy_inv : inv s;
  healthy_error : error s = None;
  healthy_open : shutdown_ s = false;
  healthy_limit : recv_off s <= max_data s < 18446744073709551616;
  healthy_fc : FlowControl.read_off (flow_control s) = read_off s;
  healthy_out : out = slice St 0 (read_off s);
}.

Lemma healthy_new md mw : 0 <= md < 18446744073709551616 -> healthy (new md mw) [].
Proof.
  intros Hmd. split; cbn; try done. split; cbn; try done. apply chunks_ok_nil.
Qed.

Lemma run_frame s out o bytes f evs : healthy s out -> valid (Frame o bytes f) ->
  (exists e, run (Frame o bytes f :: evs) s out = Err e /\ refused s (o + len bytes) f e) \/
  exists s', run (Frame o bytes f :: evs) s out = run evs s' out /\ healthy s' out /\
    accepted s o (len bytes) f s'.
Proof.
  intros Hh (H0 & Hm & Hb). cbn [run].
  pose proof (recv_write_spec s o bytes f (healthy_inv _ _ Hh) H0 Hb Hm) as Hw.
  destruct (write o bytes f s) as [[u|e|] s']; [right|left|done].
  - exists s'. split; [done|]. split; [|done].
    destruct Hw as [Hi Hl Hr Hv _ (He & Hs & Hf) _]. destruct Hh as [_ He0 Hs0 Hl0 Hf0 Ho0].
    unfold max_data in *. split; rewrite ?Hr, ?Hf; auto; try congruence.
    unfold max_data. rewrite Hv, Hf. destruct ((len bytes =? 0) && negb f); lia.
  - exists e. split; [done|]. apply Hw.
Qed.

Lemma run_read s out cap evs : healthy s out -> 0 <= cap -> exists s' n,
  run (AppRead cap :: evs) s out = run evs s' (out ++ slice St (read_off s) n) /\
  healthy s' (out ++ slice St (read_off s) n) /\ 0 <= n <= cap /\ read_off s' = read_off s + n /\
  (n = cap \/ ~ delivered s (read_off s + n)) /\
  forall x, 0 <= x -> delivered s' x <-> delivered s x.
Proof.
  intros [Hi He Hs Hl Hf Ho] Hcap. cbn [run]. pose proof (inv_read_off _ Hi).
  pose proof (recv_read_spec s cap Hi He Hcap ltac:(lia) Hf) as Hr. destruct (ready s).
  - destruct Hr as (n & s' & -> & Hn & Hmx & Hi' & Hro & Hv & _ & He' & Hs' & Hmd & Hfc & Hdel).
    exists s', n. split_and!; auto; try lia. split; auto; try congruence.
    rewrite Ho, Hro. rewrite slice_app by lia. done.
  - destruct Hr as [-> Hnd]. exists s, 0. rewrite slice_nil, app_nil_r, Z.add_0_r.
    split_and!; auto; try lia. by split.
Qed.

Lemma run_spec evs : forall s out, healthy s out -> Forall valid evs ->
  match run evs s out with
  | Ok (s', out') => healthy s' out' /\
      forall x, 0 <= x -> delivered s' x <-> delivered s x \/ received evs x
  | Err e => e = FlowControlError \/ e = FinalSizeError
  | Panic => False
  end.
Proof.
  induction evs as [|[o bytes f|cap] evs IH]; intros s out Hh Hv.
  - cbn. split; [done|]. intros x Hx. unfold received. rewrite Exists_nil. tauto.
  - apply Forall_cons in Hv as [Hv Hvs].
    destruct (run_frame s out o bytes f evs Hh Hv) as [(e & -> & He)|(s' & -> & Hh' & Hacc)].
    { destruct He as [[-> _]|[-> _]]; auto. }
    specialize (IH s' out Hh' Hvs). destruct (run evs s' out) as [[s2 out2]| |]; auto.
    destruct IH as [Hh2 Hd]. split; [done|]. intros x Hx. rewrite received_cons, Hd by done.
    rewrite (acc_delivered _ _ _ _ _ Hacc (healthy_open _ _ Hh) x Hx). tauto.
  - apply Forall_cons in Hv as [Hv Hvs].
    destruct (run_read s out cap evs Hh Hv) as (s' & n & -> & Hh' & _ & _ & _ & Hdel).
    specialize (IH s' _ Hh' Hvs). destruct (run evs s' _) as [[s2 out2]| |]; auto.
    destruct IH as [Hh2 Hd]. split; [done|]. intros x Hx.
    rewrite received_cons, Hd, Hdel by done. tauto.
Qed.


End Reassembly.
End RecvBuf.

Import RangeBuf RecvBuf.



(** [RecvBuf::write] on every branch: a frame is refused exactly for a
    flow-control or final-size violation and then leaves the buffer unchanged;
    otherwise the invariant is kept, the receive offset and final size are
    updated, and the delivered offsets grow by those of the frame. *)
Theorem recv_write_correct St s offset bytes f :
  inv St s -> 0 <= offset -> bytes = slice St offset (len bytes) ->
  offset + len bytes < 18446744073709551616 ->
  match write offset bytes f s with
  | (Ok _, s') => accepted St s offset (len bytes) f s' /\ forall e, ~ refused s (offset + len bytes) f e
  | (Err e, s') => s' = s /\ refused s (offset + len bytes) f e
  | (Panic, _) => False
  end.
Proof.
  intros Hi H0 Hb Hm. pose proof (recv_write_spec St s offset bytes f Hi H0 Hb Hm) as Hw.
  destruct (write offset bytes f s) as [[u|e|] s'] eqn:Heq; [|done|done]. split; [done|].
  intros e [[_ Hlt]|[_ Href]]; [pose proof (acc_limit _ _ _ _ _ _ Hw); lia|].
  pose proof (acc_limit _ _ _ _ _ _ Hw) as Hlim. revert Heq. unfold write.
  change (max_off _) with (offset + len bytes). change (fin _) with f. zcase; try lia; try done.
  all: intros Heq; destruct Href as [(fo & Hfo & Hbad)|[-> Hlow]]; [rewrite Hfo in Heq|].
  all: revert Heq; try (destruct (fin_off s) as [fo|]); zcase; cbn; try lia; try done.
  all: destruct Hbad as [|[-> ?]]; try lia; done.
Qed.

Lemma recv_write_correct_witness :
  let s := snd (write 4 [4; 5; 6] true (new 9 9)) in
  write 0 [0; 1; 2; 3; 4; 5; 6; 7] false s = (Err FinalSizeError, s) /\
  (forall e, ~ refused s 4 false e).
Proof.
  intros s. assert (inv id s) as Hi.
  { pose proof (recv_write_correct id (new 9 9) 4 [4; 5; 6] true) as Hw.
    change (write 4 [4; 5; 6] true (new 9 9)) with (Ok tt : res unit, s) in Hw. apply Hw; try done.
    apply (healthy_inv id _ []), healthy_new. lia. }
  split; [vm_compute; reflexivity|].
  pose proof (recv_write_correct id s 2 [2; 3] false Hi) as Hw. 
  destruct (write 2 [2; 3] false s) as [[u|e|] s'] eqn:Heq; [|vm_compute in Heq; discriminate..].
  apply Hw; try done; lia.
Defined.

(** [RecvBuf::reset] on every branch: it refuses a final size below the
    received offset or different from a known one and one beyond the limit;
    otherwise it reports the connection-level credit to align, completes the
    stream at the final size, keeps the invariant, and makes the next read
    report the reset unless everything was read or the side is shut down. *)
Theorem recv_reset_correct St s code n :
  inv St s -> 0 <= n < 18446744073709551616 ->
  match reset code n s with
  | (Ok delta, s') =>
      inv St s' /\ delta = n - recv_off s /\
      (fin_off s' = Some n /\ recv_off s' = n \/ error s <> None) /\
      (error s = None -> read_off s' = n /\ error s' = Some code /\ is_complete s' = true /\
         (is_fin s = false -> shutdown_ s = false ->
          forall cap, read cap s' = (Err (StreamReset code), with_data [] s')))
  | (Err e, s') =>
      (e = FinalSizeError /\ s' = s /\
         (n < recv_off s \/ exists f, fin_off s = Some f /\ f <> n)) \/
      (e = FlowControlError /\ max_data s < n)
  | (Panic, _) => False
  end.
Proof. apply recv_reset_spec. Qed.

Lemma recv_reset_correct_witness :
  exists s', reset 7 20 (new 100 100) = (Ok 20, s') /\ is_complete s' = true /\
    read 5 s' = (Err (StreamReset 7), with_data [] s').
Proof.
  eexists. split; [vm_compute; reflexivity|].
  pose proof (recv_reset_correct id (new 100 100) 7 20) as H.
  match type of H with context [match ?r with _ => _ end] => let v := eval vm_compute in r in change r with v in H end.
  destruct H as (_ & _ & _ & H); [apply (healthy_inv id _ []), healthy_new; lia|lia|].
  destruct (H eq_refl) as (_ & _ & Hc & Hr). split; [exact Hc|]. apply Hr; reflexivity.
Defined.
