(* ===== verification/SendBuf.v ===== *)
(** * The send side of a stream

    Models [src/src/connection/stream/send_buf.rs]: the buffer of outgoing data,
    what of it is unsent, acknowledged or to be sent again.  The theorems show
    that what is sent is what was written, that sending terminates, and that no
    byte is forgotten until it is acknowledged. *)

From S2P Require Import Prelude.
From S2P Require Import Error.
From S2P Require Import Btree.
From S2P Require Import Ranges.
From S2P Require Import RangeBuf.

Module SendBuf.
Import RangeBuf.

Definition SEND_BUFFER_SIZE : Z := 4096.

Record SendBuf := mkSend {
  data : list RangeBuf;
  pos : Z;
  write_off : Z;
  unsent_off : Z;
  unacked_len : Z;
  max_data : Z;
  blocked_at : option Z;
  fin_off : option Z;
  shutdown_ : bool;
  acked : RangeSet.RangeSet;
  retransmits : RangeSet.RangeSet;
  error : option Z;
}.

Definition with_data d s :=
  mkSend d (pos s) (write_off s) (unsent_off s) (unacked_len s) (max_data s) (blocked_at s)
    (fin_off s) (shutdown_ s) (acked s) (retransmits s) (error s).
Definition with_pos p s :=
  mkSend (data s) p (write_off s) (unsent_off s) (unacked_len s) (max_data s) (blocked_at s)
    (fin_off s) (shutdown_ s) (acked s) (retransmits s) (error s).
Definition with_write_off o s :=
  mkSend (data s) (pos s) o (unsent_off s) (unacked_len s) (max_data s) (blocked_at s)
    (fin_off s) (shutdown_ s) (acked s) (retransmits s) (error s).
Definition with_unsent_off o s :=
  mkSend (data s) (pos s) (write_off s) o (unacked_len s) (max_data s) (blocked_at s)
    (fin_off s) (shutdown_ s) (acked s) (retransmits s) (error s).
Definition with_unacked_len n s :=
  mkSend (data s) (pos s) (write_off s) (unsent_off s) n (max_data s) (blocked_at s)
    (fin_off s) (shutdown_ s) (acked s) (retransmits s) (error s).
Definition with_max_data m s :=
  mkSend (data s) (pos s) (write_off s) (unsent_off s) (unacked_len s) m (blocked_at s)
    (fin_off s) (shutdown_ s) (acked s) (retransmits s) (error s).
Definition with_blocked_at b s :=
  mkSend (data s) (pos s) (write_off s) (unsent_off s) (unacked_len s) (max_data s) b
    (fin_off s) (shutdown_ s) (acked s) (retransmits s) (error s).
Definition with_fin_off f s :=
  mkSend (data s) (pos s) (write_off s) (unsent_off s) (unacked_len s) (max_data s) (blocked_at s)
    f (shutdown_ s) (acked s) (retransmits s) (error s).
Definition with_shutdown b s :=
  mkSend (data s) (pos s) (write_off s) (unsent_off s) (unacked_len s) (max_data s) (blocked_at s)
    (fin_off s) b (acked s) (retransmits s) (error s).
Definition with_acked a s :=
  mkSend (data s) (pos s) (write_off s) (unsent_off s) (unacked_len s) (max_data s) (blocked_at s)
    (fin_off s) (shutdown_ s) a (retransmits s) (error s).
Definition with_retransmits r s :=
  mkSend (data s) (pos s) (write_off s) (unsent_off s) (unacked_len s) (max_data s) (blocked_at s)
    (fin_off s) (shutdown_ s) (acked s) r (error s).
Definition with_error e s :=
  mkSend (data s) (pos s) (write_off s) (unsent_off s) (unacked_len s) (max_data s) (blocked_at s)
    (fin_off s) (shutdown_ s) (acked s) (retransmits s) e.

Definition new (md : Z) : SendBuf :=
  mkSend [] 0 0 0 0 md None None false RangeSet.default RangeSet.default None.

(** The number of bytes that can be written. *)
Definition capacity (s : SendBuf) : res Z :=
  match error s with
  | Some e => Err (StreamStopped e)
  | None => sub64 (max_data s) (write_off s)
  end.

(** ** Writing *)

(** The [while] loop of [write], which cuts full chunks off the data: [l] bytes
    of [total] are in chunks already.  It returns the new chunks, the remaining
    data and the write offset. *)
Fixpoint chunk_loop (fuel : nat) (bytes : list Z) (l total wo : Z) (f : bool)
  : list RangeBuf * list Z * Z :=
  match fuel with
  | O => ([], bytes, wo)
  | S fuel =>
      if SEND_BUFFER_SIZE <? len bytes then
        let chunk := ztake SEND_BUFFER_SIZE bytes in
        let l := l + len chunk in
        let buf := RangeBuf.new chunk wo ((l =? total) && f) in
        let '(bufs, rest, wo) :=
          chunk_loop fuel (zdrop SEND_BUFFER_SIZE bytes) l total (wo + len_ buf) f in
        (buf :: bufs, rest, wo)
      else ([], bytes, wo)
  end.

Definition write (bytes : list Z) (f : bool) : action Error SendBuf Z := fun s =>
  match add64 (write_off s) (len bytes) with
  | Ok max_off =>
      match capacity s with
      | Ok cap =>
          let '(bytes, f) := if cap <? len bytes then (ztake cap bytes, false) else (bytes, f) in
          if match fin_off s with
             | Some fo => (fo <? max_off) || ((max_off =? fo) && negb f)
             | None => false
             end then (Err FinalSizeError, s)
          else
            let s := if f then with_fin_off (Some max_off) s else s in
            if len bytes =? 0 then (Ok (len bytes), s)
            else
              let '(bufs, rest, wo) :=
                chunk_loop (length bytes) bytes 0 (len bytes) (write_off s) f in
              let '(bufs, wo) :=
                if len rest =? 0 then (bufs, wo)
                else (bufs ++ [RangeBuf.new rest wo f], wo + len rest) in
              let s := with_write_off wo (with_data (data s ++ bufs) s) in
              (Ok (len bytes), with_unacked_len (unacked_len s + len bytes) s)
      | Err e => (Err e, s)
      | Panic => (Panic, s)
      end
  | Err e => (Err e, s)
  | Panic => (Panic, s)
  end.

(** ** Queries *)

(** [retransmits.min().unwrap()] when there are retransmits. *)
Definition send_off (s : SendBuf) : Z :=
  match RangeSet.min (retransmits s) with
  | Some o => o
  | None => unsent_off s
  end.

Definition ready (s : SendBuf) : bool :=
  match data s with [] => false | _ => send_off s <? write_off s end.

Definition ack_off (s : SendBuf) : Z :=
  match head (RangeSet.iter (acked s)) with
  | Some r => if start r =? 0 then end_ r else 0
  | None => 0
  end.

Definition is_shutdown (s : SendBuf) : bool := shutdown_ s.
Definition is_fin (s : SendBuf) : bool := bool_decide (fin_off s = Some (write_off s)).
Definition is_complete (s : SendBuf) : bool :=
  match fin_off s with
  | Some fo => (fo =? 0) || RangeSet.eq_range (acked s) (mkRange 0 fo)
  | None => false
  end.
Definition is_stopped (s : SendBuf) : bool := bool_decide (is_Some (error s)).
Definition filter_acked (r : Range) (s : SendBuf) : option Range := RangeSet.filter_ (acked s) r.

Definition update_max_data (md : Z) (s : SendBuf) : SendBuf := with_max_data (Z.max (max_data s) md) s.
Definition update_blocked_at (b : option Z) (s : SendBuf) : SendBuf := with_blocked_at b s.

(** ** Sending *)

Definition poll_transmit (max_len : Z) (s : SendBuf) : Range * SendBuf :=
  match RangeSet.pop_min (retransmits s) with
  | (Some r, rt) =>
      let e := Z.min (end_ r) (sat_add64 (start r) max_len) in
      let rt := if e =? end_ r then rt else RangeSet.insert rt (mkRange e (end_ r)) in
      (mkRange (start r) e, with_retransmits rt s)
  | (None, _) =>
      let e := Z.min (write_off s) (sat_add64 (unsent_off s) max_len) in
      (mkRange (unsent_off s) e, with_unsent_off e s)
  end.

(** The loop of [read_range] over the chunks from [p] on: the bytes found and
    the new position. *)
Fixpoint read_range_loop (segs : list RangeBuf) (p : Z) (r : Range) : res (list Z * Z) :=
  match segs with
  | [] => Ok ([], p)
  | seg :: segs' =>
      if (off seg <=? start r) && (start r <? max_off seg) then
        let st := start r - off seg in
        en ← sub64 (end_ r) (off seg);
        let en := Z.min en (len_ seg) in
        if st <=? en then
          Ok (zdrop st (ztake en (RangeBuf.data seg)), if en =? len_ seg then p + 1 else p)
        else Panic
      else read_range_loop segs' (p + 1) r
  end.

Definition read_range (r : Range) (s : SendBuf) : res (list Z * SendBuf) :=
  '(bytes, p) ← read_range_loop (zdrop (pos s) (data s)) (pos s) r;
  mret (bytes, with_pos p s).

(** The inner [while] of [read]: copy the whole range. *)
Fixpoint copy_range (fuel : nat) (r : Range) (out : list Z) (s : SendBuf) : res (list Z * SendBuf) :=
  match fuel with
  | O => Panic
  | S fuel =>
      if start r =? end_ r then Ok (out, s)
      else
        '(bytes, s) ← read_range r s;
        copy_range fuel (mkRange (start r + len bytes) (end_ r)) (out ++ bytes) s
  end.

(** The outer [while] of [read]; [cap] is the room left in the output. *)
Fixpoint read_loop (fuel : nat) (cap next_off : Z) (out : list Z) (s : SendBuf)
  : res (Z * list Z * SendBuf) :=
  match fuel with
  | O => Panic
  | S fuel =>
      if (0 <? cap) && ready s && (send_off s =? next_off) && (send_off s <? max_data s) then
        let (r, s) := poll_transmit cap s in
        range_len ← sub64 (end_ r) (start r);
        '(out, s) ← copy_range (S (Z.to_nat range_len)) r out s;
        cap ← sub64 cap range_len;
        read_loop fuel cap (next_off + range_len) out s
      else Ok (next_off, out, s)
  end.

(** [read] into a buffer of [cap] bytes: the bytes copied and the fin flag. *)
Definition read (cap : Z) (s : SendBuf) : res (list Z * bool * SendBuf) :=
  '(next_off, out, s) ← read_loop (S (Z.to_nat cap)) cap (send_off s) [] s;
  mret (out, bool_decide (fin_off s = Some next_off), s).

(** ** Acknowledgement and loss *)

Definition ack (o n : Z) (s : SendBuf) : res SendBuf :=
  e ← add64 o n; mret (with_acked (RangeSet.insert (acked s) (mkRange o e)) s).

(** The loop that drops acknowledged data: the remaining chunks and the number
    of chunks dropped. *)
Fixpoint drop_loop (d : list RangeBuf) (to_advance : Z) : res (list RangeBuf * Z) :=
  if 0 <? to_advance then
    match d with
    | [] => Panic
    | front :: d' =>
        if len_ front <=? to_advance then
          '(d'', n) ← drop_loop d' (to_advance - len_ front);
          mret (d'', n + 1)
        else
          front' ← advance to_advance front;
          mret (front' :: d', 0)
    end
  else Ok (d, 0).

Definition ack_and_drop (o n : Z) (s : SendBuf) : res SendBuf :=
  match data s with
  | [] => Ok (with_retransmits (RangeSet.clear (retransmits s)) s)
  | _ =>
      s ← ack o n s;
      e ← add64 o n;
      let s := with_retransmits (RangeSet.remove (retransmits s) (mkRange o e)) s in
      let aoff := ack_off s in
      if aoff <? o then Ok s
      else
        base_off ← sub64 (write_off s) (unacked_len s);
        to_advance ← sub64 aoff base_off;
        unacked ← sub64 (unacked_len s) to_advance;
        '(d, drop_blocks) ← drop_loop (data s) to_advance;
        mret (with_pos (sat_sub (pos s) drop_blocks) (with_data d (with_unacked_len unacked s)))
  end.

(** The loop of [retransmit] over the acknowledged ranges: the retransmit set
    and what is left of the lost range. *)
Fixpoint retransmit_loop (rs : list Range) (st en : Z) (rt : RangeSet.RangeSet)
  : RangeSet.RangeSet * Range :=
  match rs with
  | [] => (rt, mkRange st en)
  | r :: rs' =>
      if en <=? start r then (rt, mkRange st en)
      else if end_ r <=? st then retransmit_loop rs' st en rt
      else if st <? start r then
        if en <=? end_ r then (rt, mkRange st (start r))
        else retransmit_loop rs' (end_ r) en (RangeSet.insert rt (mkRange st (start r)))
      else
        if en <=? end_ r then (rt, mkRange st st)
        else retransmit_loop rs' (end_ r) en rt
  end.

Definition retransmit (o n : Z) (s : SendBuf) : res SendBuf :=
  e ← add64 o n;
  let old_send_off := send_off s in
  match data s with
  | [] => Ok s
  | _ =>
      if e <=? ack_off s then Ok s
      else
        let '(rt, r) := retransmit_loop (RangeSet.iter (acked s)) o e (retransmits s) in
        let s := with_retransmits (RangeSet.insert rt r) s in
        Ok (if send_off s <? old_send_off then with_pos 0 s else s)
  end.

(** ** Termination of a stream *)

(** The final offset and the number of bytes never sent. *)
Definition reset (s : SendBuf) : res (Z * Z * SendBuf) :=
  let unsent_len := sat_sub (write_off s) (unsent_off s) in
  let s := with_fin_off (Some (unsent_off s)) s in
  let s := with_data [] s in
  s ← ack 0 (unsent_off s) s;
  let s := with_pos 0 s in
  let s := with_write_off (unsent_off s) s in
  mret (unsent_off s, unsent_len, s).

Definition stop (error_code : Z) : action Error SendBuf (Z * Z) := fun s =>
  match error s with
  | Some _ => (Err Done, s)
  | None =>
      match reset s with
      | Ok (fo, unsent, s) => (Ok (fo, unsent), with_error (Some error_code) s)
      | Err e => (Err e, s)
      | Panic => (Panic, s)
      end
  end.

Definition shutdown : action Error SendBuf (Z * Z) := fun s =>
  if shutdown_ s then (Err Done, s)
  else
    let s := with_shutdown true s in
    match reset s with
    | Ok (fo, unsent, s) => (Ok (fo, unsent), s)
    | Err e => (Err e, s)
    | Panic => (Panic, s)
    end.

(** ** Offsets of the two range sets *)

Definition is_acked (s : SendBuf) (x : Z) : Prop := RangeSet.mem (acked s) x.
Definition to_resend (s : SendBuf) (x : Z) : Prop := RangeSet.mem (retransmits s) x.

(** What is still to be sent: lost data and data never sent. *)
Definition pending (s : SendBuf) (x : Z) : Prop :=
  to_resend s x \/ unsent_off s <= x < write_off s.

(** [ack_off] is the least offset that is not acknowledged. *)
Lemma ack_off_spec s : RangeSet.wf (acked s) ->
  0 <= ack_off s /\ ~ is_acked s (ack_off s) /\ forall x, 0 <= x < ack_off s -> is_acked s x.
Proof.
  unfold RangeSet.wf, ack_off, is_acked, RangeSet.mem, RangeSet.iter.
  destruct (RangeSet.set (acked s)) as [|[a b] m] eqn:Hs; cbn; intros Hwf.
  { split_and!; [done| |lia]. by intros ?%RangeSet.mem_list_nil. }
  pose proof Hwf as (? & ? & Hm). destruct (Z.eqb_spec a 0) as [->|Hne].
  - split_and!; [lia|by eapply RangeSet.chain_head_end|].
    intros x Hx. rewrite RangeSet.mem_list_cons. by left.
  - split_and!; [done| |lia]. intros Hx%(RangeSet.chain_head_min _ _ _ _ Hwf). lia.
Qed.

Lemma ack_off_unique s o : RangeSet.wf (acked s) -> 0 <= o ->
  ~ is_acked s o -> (forall x, 0 <= x < o -> is_acked s x) -> ack_off s = o.
Proof.
  intros Hwf H0 Hn Hx. destruct (ack_off_spec s Hwf) as (H0' & Hn' & Hx').
  destruct (Z.lt_trichotomy (ack_off s) o) as [Hlt|[?|Hlt]]; [|done|].
  - destruct Hn'. apply Hx. lia.
  - destruct Hn. apply Hx'. lia.
Qed.

(** [send_off] is the least pending offset. *)
Lemma send_off_spec s : RangeSet.wf (retransmits s) ->
  (forall x, to_resend s x -> x < unsent_off s) ->
  send_off s <= unsent_off s /\ (forall x, pending s x -> send_off s <= x) /\
  (send_off s = unsent_off s \/ to_resend s (send_off s)).
Proof.
  intros Hwf Hlt. pose proof (RangeSet.min_spec _ Hwf) as Hm. unfold send_off, pending, to_resend in *.
  destruct (RangeSet.min (retransmits s)) as [a|].
  - destruct Hm as [Ha Hmin]. pose proof (Hlt _ Ha). split_and!; [lia| |by right].
    intros x [?|?]; [auto|lia].
  - split_and!; [lia| |by left]. intros x [Hx|?]; [by destruct (Hm _ Hx)|lia].
Qed.

(** ** Chunks *)

Section Content.
Context (St : Z -> Z).

(** Non-empty chunks that hold the stream from [o] to [e]. *)
Fixpoint contig (o : Z) (d : list RangeBuf) (e : Z) : Prop :=
  match d with
  | [] => o = e
  | b :: d' => off b = o /\ 0 < len_ b /\ agrees St b /\ contig (max_off b) d' e
  end.

(** The first [p] chunks end at or before [x]. *)
Definition passed (x p : Z) (d : list RangeBuf) : Prop := Forall (fun b => max_off b <= x) (ztake p d).

Lemma contig_le o d e : contig o d e -> o <= e.
Proof.
  revert o. induction d as [|b d IH]; intros o; cbn; [lia|].
  intros (<- & Hl & _ & Hd). apply IH in Hd. unfold max_off in Hd. lia.
Qed.

Lemma contig_app o d m d' e : contig o d m -> contig m d' e -> contig o (d ++ d') e.
Proof.
  revert o. induction d as [|b d IH]; intros o; cbn; [by intros ->|].
  intros (? & ? & ? & ?) ?. split_and!; auto.
Qed.

Lemma passed_zero x p d : p <= 0 -> passed x p d.
Proof. intros Hp. unfold passed, ztake. by rewrite Z2Nat.nonpos by done. Qed.

Lemma passed_le x y p d : x <= y -> passed x p d -> passed y p d.
Proof. intros Hxy Hp. eapply Forall_impl; [exact Hp|]. cbn. lia. Qed.

Lemma ztake_cons {A} p (b : A) d : 0 < p -> ztake p (b :: d) = b :: ztake (p - 1) d.
Proof.
  intros. unfold ztake. replace (Z.to_nat p) with (S (Z.to_nat (p - 1))) by lia. done.
Qed.

Lemma zdrop_cons {A} p (b : A) d : 0 < p -> zdrop p (b :: d) = zdrop (p - 1) d.
Proof.
  intros. unfold zdrop. replace (Z.to_nat p) with (S (Z.to_nat (p - 1))) by lia. done.
Qed.

Lemma zdrop_nil {A} p : zdrop p (@nil A) = [].
Proof. unfold zdrop. apply drop_nil. Qed.

Lemma passed_cons x p b d : 0 < p -> passed x p (b :: d) <-> max_off b <= x /\ passed x (p - 1) d.
Proof. intros. unfold passed. rewrite ztake_cons by done. by rewrite Forall_cons. Qed.

Lemma passed_nil x p : passed x p [].
Proof. unfold passed, ztake. rewrite take_nil. done. Qed.

(** The chunk at position [p] starts at or before [x] when the ones before it
    have been passed. *)
Lemma contig_zdrop d : forall o e p x, contig o d e -> passed x p d -> o <= x ->
  exists a, contig a (zdrop p d) e /\ a <= x.
Proof.
  induction d as [|b d IH]; intros o e p x Hd Hp Ho; [rewrite zdrop_nil; by exists o|].
  destruct (Z.lt_ge_cases 0 p) as [Hp0|Hp0].
  - rewrite zdrop_cons by done. apply passed_cons in Hp as [Hb Hp]; [|done].
    destruct Hd as (_ & _ & _ & Hd). by apply (IH (max_off b)).
  - exists o. split; [|done]. unfold zdrop. by rewrite Z2Nat.nonpos by done.
Qed.

Lemma read_range_loop_spec segs : forall a e p r,
  contig a segs e -> a <= start r -> start r < end_ r -> end_ r <= e -> exists n p',
  read_range_loop segs p r = Ok (slice St (start r) n, p') /\
  0 < n <= end_ r - start r /\ p <= p' <= p + len segs /\ passed (start r + n) (p' - p) segs.
Proof.
  induction segs as [|b segs IH]; intros a e p r; cbn [contig read_range_loop]; [lia|].
  intros (<- & Hl & Hb & Hd) Ho Hlt He. unfold max_off in *. rewrite len_cons.
  pose proof (len_nonneg segs).
  destruct (Z.leb_spec (off b) (start r)); [|lia]. cbn [andb].
  destruct (Z.ltb_spec (start r) (off b + len_ b)) as [Hin|Hout].
  - rewrite sub64_ok by lia. cbn [mbind outcome_bind].
    set (en := Z.min (end_ r - off b) (len_ b)). destruct (Z.leb_spec (start r - off b) en); [|lia].
    exists (en - (start r - off b)), (if en =? len_ b then p + 1 else p).
    split; [|split; [lia|split; [destruct (en =? len_ b); lia|]]].
    + do 2 f_equal. rewrite Hb, slice_ztake, slice_zdrop by lia. f_equal; lia.
    + destruct (Z.eqb_spec en (len_ b)).
      * apply passed_cons; [lia|]. unfold max_off. split; [lia|apply passed_zero; lia].
      * apply passed_zero. lia.
  - destruct (IH (off b + len_ b) e (p + 1) r Hd) as (n & p' & -> & Hn & Hp & Hps); [lia..|].
    exists n, p'. split_and!; [done|lia..|]. apply passed_cons; [lia|]. unfold max_off. split; [lia|].
    by replace (p' - p - 1) with (p' - (p + 1)) by lia.
Qed.

Lemma passed_zdrop x p q d : 0 <= p <= q ->
  passed x p d -> passed x (q - p) (zdrop p d) -> passed x q d.
Proof.
  revert p q. induction d as [|b d IH]; intros p q Hpq; [intros; apply passed_nil|].
  destruct (Z.lt_ge_cases 0 p) as [Hp0|Hp0].
  - rewrite zdrop_cons, !passed_cons by lia. intros [Hb Hp] Hq. split; [done|].
    apply (IH (p - 1)); [lia|done|]. by replace (q - 1 - (p - 1)) with (q - p) by lia.
  - replace p with 0 by lia. intros _. unfold zdrop. cbn [Z.to_nat drop]. by rewrite Z.sub_0_r.
Qed.

Lemma copy_range_spec fuel : forall r out s o e,
  contig o (data s) e -> 0 <= pos s <= len (data s) -> passed (start r) (pos s) (data s) ->
  o <= start r <= end_ r -> end_ r <= e -> end_ r - start r < Z.of_nat fuel -> exists p,
  copy_range fuel r out s = Ok (out ++ slice St (start r) (end_ r - start r), with_pos p s) /\
  0 <= p <= len (data s) /\ passed (end_ r) p (data s).
Proof.
  induction fuel as [|fuel IH]; intros r out s o e Hd Hp0 Hp Ho He Hf; [lia|]. cbn [copy_range].
  destruct (Z.eqb_spec (start r) (end_ r)) as [Heq|Hne].
  { exists (pos s). rewrite Heq, Z.sub_diag, slice_nil, app_nil_r in *. split; [by destruct s|done]. }
  destruct (contig_zdrop _ _ _ _ _ Hd Hp) as (a & Ha & Hax); [lia|]. unfold read_range.
  destruct (read_range_loop_spec _ a e (pos s) r Ha) as (n & p' & -> & Hn & Hpp & Hps); [lia..|].
  cbn [mbind outcome_bind mret outcome_ret]. rewrite len_slice by lia.
  assert (passed (start r + n) p' (data s)) as Hp'.
  { apply (passed_zdrop _ (pos s)); [lia| |done]. eapply passed_le; [|done]. lia. }
  destruct (IH (mkRange (start r + n) (end_ r)) (out ++ slice St (start r) n) (with_pos p' s) o e)
    as (p2 & -> & Hp2); cbn [start end_ data pos with_pos]; try done; try lia.
  { assert (len (zdrop (pos s) (data s)) = len (data s) - pos s) by (apply len_zdrop; lia). lia. }
  exists p2. split; [|done]. f_equal. f_equal. rewrite <- app_assoc. f_equal.
  replace (end_ r - start r) with (n + (end_ r - (start r + n))) by lia.
  rewrite slice_app by lia. done.
Qed.

Lemma drop_loop_spec d : forall o e n, contig o d e -> 0 <= n <= e - o -> exists d' k,
  drop_loop d n = Ok (d', k) /\ contig (o + n) d' e /\ 0 <= k /\ len d' = len d - k /\
  forall x p, passed x p d -> passed x (sat_sub p k) d'.
Proof.
  induction d as [|b d IH]; intros o e n Hd Hn; cbn [drop_loop].
  { cbn in Hd. destruct (Z.ltb_spec 0 n); [lia|]. exists [], 0. cbn.
    split_and!; try done; [lia|]. intros. apply passed_nil. }
  destruct Hd as (<- & Hl & Hb & Hd). destruct (Z.ltb_spec 0 n) as [H0|H0].
  2: { exists (b :: d), 0. replace n with 0 by lia. rewrite Z.add_0_r. split; [done|].
       split; [by split_and!|]. split; [done|]. split; [lia|].
       intros x p Hp. destruct (Z.lt_ge_cases 0 p); [|by apply passed_zero; unfold sat_sub; lia].
       unfold sat_sub. by replace (Z.max 0 (p - 0)) with p by lia. }
  destruct (Z.leb_spec (len_ b) n) as [Hle|Hgt].
  - unfold max_off in Hd. destruct (IH _ _ (n - len_ b) Hd) as (d' & k & -> & Hd' & Hk & Hlk & Hp); [lia|].
    cbn [mbind outcome_bind mret outcome_ret]. exists d', (k + 1). split; [done|].
    rewrite len_cons. split_and!; [|lia|lia|].
    + by replace (off b + n) with (off b + len_ b + (n - len_ b)) by lia.
    + intros x p Hpx. destruct (Z.lt_ge_cases 0 p); [|by apply passed_zero; unfold sat_sub; lia].
      apply passed_cons in Hpx as [_ Hpx]; [|done]. apply Hp in Hpx. unfold sat_sub in *.
      by replace (p - (k + 1)) with (p - 1 - k) by lia.
  - destruct (advance_spec St n b Hb) as (b' & -> & Ho' & Hm' & Hl' & Hb'); [lia|].
    cbn [mbind outcome_bind mret outcome_ret]. exists (b' :: d), 0. split; [done|].
    rewrite !len_cons. split; [|split; [done|split; [lia|]]].
    + cbn. rewrite Hm'. split_and!; auto; lia.
    + intros x p Hpx. destruct (Z.lt_ge_cases 0 p); [|by apply passed_zero; unfold sat_sub; lia].
      unfold sat_sub. replace (Z.max 0 (p - 0)) with p by lia.
      apply passed_cons in Hpx as [Hx Hpx]; [|done]. apply passed_cons; [done|]. by rewrite Hm'.
Qed.

Lemma chunk_loop_spec fuel : forall bytes l total wo f bufs rest wo',
  bytes = slice St wo (len bytes) -> len bytes <= Z.of_nat fuel ->
  chunk_loop fuel bytes l total wo f = (bufs, rest, wo') ->
  contig wo bufs wo' /\ rest = slice St wo' (len rest) /\ wo' + len rest = wo + len bytes /\
  len rest <= SEND_BUFFER_SIZE.
Proof.
  induction fuel as [|fuel IH]; intros bytes l total wo f bufs rest wo' Hb Hf; cbn [chunk_loop].
  { intros [= <- <- <-]. cbn. unfold SEND_BUFFER_SIZE. split_and!; auto; lia. }
  destruct (Z.ltb_spec SEND_BUFFER_SIZE (len bytes)) as [Hlt|Hge].
  2: { intros [= <- <- <-]. by cbn. }
  assert (0 < SEND_BUFFER_SIZE) as Hpos by done.
  assert (len (ztake SEND_BUFFER_SIZE bytes) = SEND_BUFFER_SIZE) as Hlen by (apply len_ztake; lia).
  destruct (chunk_loop fuel _ _ _ _ _) as [[bufs1 rest1] wo1] eqn:Hc. intros [= <- <- <-].
  apply IH in Hc as (Hd & Hr & Hs & Hl).
  - unfold len_ in *. cbn [RangeBuf.data RangeBuf.new] in *. rewrite Hlen in *.
    rewrite len_zdrop in Hs by lia. split_and!; auto; [|lia]. cbn. unfold max_off, len_. cbn.
    rewrite Hlen. split_and!; auto. unfold agrees, len_. cbn. rewrite Hlen.
    rewrite Hb, slice_ztake by lia. done.
  - unfold len_. cbn. rewrite Hlen, len_zdrop by lia. rewrite Hb at 1. apply slice_zdrop. lia.
  - rewrite len_zdrop by lia. lia.
Qed.

(** ** Invariant of a stream that was neither stopped nor shut down *)

Record inv (s : SendBuf) : Prop := {
  inv_contig : contig (ack_off s) (data s) (write_off s);
  inv_unacked : unacked_len s = write_off s - ack_off s;
  inv_pos : 0 <= pos s <= len (data s) /\ passed (send_off s) (pos s) (data s);
  inv_offs : 0 <= unsent_off s <= write_off s /\ write_off s <= max_data s < 18446744073709551616;
  inv_acked : RangeSet.u64_set (acked s) /\ forall x, is_acked s x -> x < unsent_off s;
  inv_resend : RangeSet.u64_set (retransmits s) /\
    forall x, to_resend s x -> x < unsent_off s /\ ~ is_acked s x;
  inv_fin : forall f, fin_off s = Some f -> f = write_off s;
}.

Lemma inv_wf s : inv s -> RangeSet.wf (acked s) /\ RangeSet.wf (retransmits s).
Proof. intros Hi. split; [apply (inv_acked s Hi)|apply (inv_resend s Hi)]. Qed.

Lemma mem_nonneg rs x : RangeSet.wf rs -> RangeSet.mem rs x -> 0 <= x.
Proof. intros Hwf Hx. apply (RangeSet.mem_list_bounds _ _ _ Hwf) in Hx. lia. Qed.

Lemma inv_send_off s : inv s ->
  send_off s <= unsent_off s /\ (forall x, pending s x -> send_off s <= x) /\
  (send_off s = unsent_off s \/ to_resend s (send_off s)).
Proof.
  intros Hi. apply send_off_spec; [apply Hi|]. intros x Hx. by apply (inv_resend s Hi).
Qed.

(** Acknowledged data ends before what is still to be sent. *)
Lemma ack_le_send s : inv s -> ack_off s <= send_off s.
Proof.
  intros Hi. destruct (inv_wf s Hi) as [Hwa Hwr]. destruct (ack_off_spec s Hwa) as (H0 & Hn & Hx).
  destruct (inv_send_off s Hi) as (Hle & _ & Hs).
  destruct (Z.le_gt_cases (ack_off s) (send_off s)) as [|Hlt]; [done|]. exfalso.
  destruct Hs as [Heq|Hr].
  - assert (is_acked s (unsent_off s)) as Ha%(inv_acked s Hi); [|lia].
    apply Hx. pose proof (inv_offs s Hi). lia.
  - apply (inv_resend s Hi) in Hr as Hr'. destruct Hr' as [_ []]. apply Hx.
    split; [|done]. by eapply mem_nonneg.
Qed.

Lemma ack_le_write s : inv s -> ack_off s <= unsent_off s.
Proof. intros Hi. pose proof (ack_le_send s Hi). destruct (inv_send_off s Hi). lia. Qed.

Lemma pending_lt s x : inv s -> pending s x -> x < write_off s.
Proof.
  intros Hi [Hx|Hx]; [|lia]. apply (inv_resend s Hi) in Hx. pose proof (inv_offs s Hi). lia.
Qed.

Lemma send_not_ready s x : inv s -> ready s = false -> ~ pending s x.
Proof.
  intros Hi Hr Hp. pose proof (pending_lt s x Hi Hp) as Hlt. unfold ready in Hr.
  destruct (inv_send_off s Hi) as (_ & Hmin & _). specialize (Hmin x Hp).
  destruct (data s) as [|b d] eqn:Hd; [|apply Z.ltb_ge in Hr; lia].
  pose proof (inv_contig s Hi) as Hc. rewrite Hd in Hc. cbn in Hc.
  pose proof (ack_le_send s Hi). lia.
Qed.

(** What sending [n] bytes from [o] on does to the state. *)
Record transmitted (s : SendBuf) (o n : Z) (s' : SendBuf) : Prop := {
  tx_pending : forall x, pending s' x <-> pending s x /\ ~ (o <= x < o + n);
  tx_in : forall x, o <= x < o + n -> pending s x;
  tx_unsent : unsent_off s <= unsent_off s';
  tx_rest : write_off s' = write_off s /\ max_data s' = max_data s /\ fin_off s' = fin_off s /\
    acked s' = acked s /\ error s' = error s /\ shutdown_ s' = shutdown_ s /\
    unacked_len s' = unacked_len s;
}.

Lemma pop_min_mem rs r rs' : RangeSet.u64_set rs -> RangeSet.pop_min rs = (Some r, rs') ->
  RangeSet.u64_set rs' /\ start r < end_ r /\ 0 <= start r /\ end_ r <= 18446744073709551615 /\
  RangeSet.min rs = Some (start r) /\
  forall x, RangeSet.mem rs x <-> RangeSet.mem rs' x \/ start r <= x < end_ r.
Proof.
  intros (Hwf & Hc & Hb) Hp. pose proof (RangeSet.pop_min_spec rs) as Hs. rewrite Hp in Hs.
  destruct Hs as [Hs Hcap]. unfold RangeSet.u64_set, RangeSet.wf, RangeSet.mem in *. rewrite Hs in *.
  pose proof Hwf as (H0 & Hlt & Hch).
  assert (forall x, RangeSet.mem_list ((start r, end_ r) :: RangeSet.set rs') x <->
    RangeSet.mem_list (RangeSet.set rs') x \/ start r <= x < end_ r) as Hx
    by (intros x; rewrite RangeSet.mem_list_cons; tauto).
  assert (end_ r - 1 < 18446744073709551615) by (apply Hb, Hx; right; lia).
  split_and!; auto; try lia; try congruence.
  - eapply RangeSet.chain_weaken; [|done]. lia.
  - intros x Hm. apply Hb, Hx. by left.
  - unfold RangeSet.min, RangeSet.iter. by rewrite Hs.
Qed.

Lemma poll_transmit_spec s cap : inv s -> ready s = true -> 0 < cap ->
  exists n s', poll_transmit cap s = (mkRange (send_off s) (send_off s + n), s') /\
    0 < n <= cap /\ transmitted s (send_off s) n s' /\ data s' = data s /\ pos s' = pos s /\
    RangeSet.u64_set (retransmits s') /\
    (forall x, to_resend s' x -> x < unsent_off s' /\ ~ is_acked s' x) /\
    unsent_off s' <= write_off s'.
Proof.
  intros Hi Hr Hc. pose proof (inv_offs s Hi) as Ho. destruct (inv_resend s Hi) as [Hu Hres].
  assert (send_off s < write_off s) as Hso.
  { unfold ready in Hr. destruct (data s); [done|]. by apply Z.ltb_lt. }
  unfold poll_transmit. destruct (RangeSet.pop_min (retransmits s)) as [[r|] rt] eqn:Hp.
  - destruct (pop_min_mem _ _ _ Hu Hp) as (Hu' & Hlt & H0 & He & Hmin & Hx).
    assert (send_off s = start r) as Hs by (unfold send_off; by rewrite Hmin).
    set (e := Z.min (end_ r) (sat_add64 (start r) cap)).
    assert (start r < e <= end_ r /\ e <= start r + cap) as [Hse Hec] by (unfold e, sat_add64; lia).
    set (rt' := if e =? end_ r then rt else _).
    assert (RangeSet.u64_set rt' /\ forall x, RangeSet.mem rt' x <-> RangeSet.mem rt x \/ e <= x < end_ r)
      as [Hu2 Hx2].
    { subst rt'. destruct (Z.eqb_spec e (end_ r)); [split; [done|]; intros x; intuition lia|].
      destruct (RangeSet.u64_set_insert rt (mkRange e (end_ r)) Hu') as [Hu2 Hx2]; [cbn; lia|done|].
      split; [done|]. intros x. rewrite Hx2. reflexivity. }
    assert (forall x, to_resend s x -> start r <= x) as Hge.
    { intros x Hxr. rewrite <- Hs. apply (inv_send_off s Hi). by left. }
    assert (forall x, RangeSet.mem rt x -> end_ r <= x) as Hgt.
    { intros x Hxr. pose proof (RangeSet.pop_min_spec (retransmits s)) as Hps. rewrite Hp in Hps.
      destruct Hu as (Hwf & _). unfold RangeSet.wf, RangeSet.mem in *. rewrite (proj1 Hps) in Hwf.
      destruct Hwf as (_ & _ & Hch). apply (RangeSet.mem_list_bounds _ _ _ Hch) in Hxr. lia. }
    exists (e - start r), (with_retransmits rt' s).
    assert (forall x, to_resend s x -> x < unsent_off s) as Hru by (intros x Hxr; by apply Hres).
    split; [rewrite Hs; do 2 f_equal; lia|]. split; [lia|]. split; [|split_and!; auto; cbn; try lia].
    + assert (forall x, RangeSet.mem rt' x <-> to_resend s x /\ ~ (send_off s <= x < e)) as Hx3.
      { intros x. rewrite Hx2. unfold to_resend. rewrite Hx, Hs. specialize (Hgt x).
        split; [intros [Hm|?]; [pose proof (Hgt Hm); split; [by left|lia]|split; [right; lia|lia]]|].
        intros [[?|?] ?]; [by left|right; lia]. }
      assert (forall x, send_off s <= x < e -> to_resend s x) as Hin.
      { intros x Hxr. apply Hx. right. lia. }
      assert (e - 1 < unsent_off s) by (apply Hru, Hin; lia).
      split; cbn; try lia; [| |by split_and!].
      * intros x. unfold pending at 1, to_resend. cbn. rewrite Hx3. unfold pending.
        specialize (Hru x). split.
        { intros [[? ?]|?]; (split; [by auto|lia]). }
        { intros [[?|?] ?]; [left; split; [done|lia]|by right]. }
      * intros x Hxr. left. apply Hin. lia.
    + intros x Hxr. unfold to_resend in Hxr. cbn in Hxr. apply Hx2 in Hxr. apply Hres. apply Hx.
      destruct Hxr; [by left|right; lia].
  - pose proof (RangeSet.pop_min_spec (retransmits s)) as Hps. rewrite Hp in Hps.
    destruct Hps as [Hps _].
    assert (send_off s = unsent_off s) as Hs
      by (unfold send_off, RangeSet.min, RangeSet.iter; by rewrite Hps).
    assert (forall x, ~ to_resend s x) as Hno.
    { intros x. unfold to_resend, RangeSet.mem. rewrite Hps, RangeSet.mem_list_nil. tauto. }
    set (e := Z.min (write_off s) (sat_add64 (unsent_off s) cap)).
    assert (unsent_off s < e <= write_off s /\ e <= unsent_off s + cap) as [Hse Hec]
      by (unfold e, sat_add64; lia).
    exists (e - unsent_off s), (with_unsent_off e s). rewrite Hs.
    split; [do 2 f_equal; lia|]. split; [lia|]. split; [|split_and!; auto; cbn; try lia].
    + rewrite <- Hs. split; cbn; try lia; [| |by split_and!].
      * intros x. specialize (Hno x). unfold pending, to_resend in *. cbn. intuition lia.
      * intros x Hxr. right. lia.
    + intros x Hxr. by destruct (Hno x).
Qed.


Lemma transmitted_none s o : transmitted s o 0 s.
Proof. split; [intros x; intuition lia|intros; lia|lia|repeat split]. Qed.

Lemma transmitted_trans s o n s1 m s2 : 0 <= n -> 0 <= m ->
  transmitted s o n s1 -> transmitted s1 (o + n) m s2 -> transmitted s o (n + m) s2.
Proof.
  intros Hn Hm [Hp1 Hi1 Hu1 (?&?&?&?&?&?&?)] [Hp2 Hi2 Hu2 (?&?&?&?&?&?&?)]. split; [| |lia|].
  - intros x. rewrite Hp2, Hp1. intuition lia.
  - intros x Hx. destruct (Z.lt_ge_cases x (o + n)); [apply Hi1; lia|]. apply Hp1, Hi2. lia.
  - split_and!; congruence.
Qed.

Lemma transmitted_pos s o n s' p : transmitted s o n s' -> transmitted s o n (with_pos p s').
Proof. intros [? ? ? ?]. by split. Qed.

(** After sending, the next offset to send lies beyond what was sent. *)
Lemma transmitted_send_off s n s' : inv s -> 0 < n ->
  transmitted s (send_off s) n s' -> RangeSet.wf (retransmits s') ->
  (forall x, to_resend s' x -> x < unsent_off s') -> send_off s + n <= send_off s'.
Proof.
  intros Hi Hn Ht Hwf Hlt. destruct (send_off_spec s' Hwf Hlt) as (_ & _ & Hs).
  destruct (inv_send_off s Hi) as (_ & Hmin & _).
  destruct (Z.le_gt_cases (send_off s + n) (send_off s')) as [|Hgt]; [done|]. exfalso.
  assert (forall x, pending s' x -> send_off s + n <= x) as Hge.
  { intros x [Hx Hnx]%(tx_pending _ _ _ _ Ht). apply Hmin in Hx. lia. }
  destruct Hs as [Heq|Hr].
  - assert (pending s (send_off s + n - 1)) as Hl%(pending_lt s _ Hi) by (apply (tx_in _ _ _ _ Ht); lia).
    destruct (tx_rest _ _ _ _ Ht) as [Hw _].
    assert (pending s' (send_off s + n - 1)) as Hp by (right; lia). apply Hge in Hp. lia.
  - assert (pending s' (send_off s')) as Hp by (by left). apply Hge in Hp. lia.
Qed.

Lemma transmitted_inv s n s' p : inv s -> 0 < n ->
  transmitted s (send_off s) n s' -> data s' = data s ->
  RangeSet.u64_set (retransmits s') ->
  (forall x, to_resend s' x -> x < unsent_off s' /\ ~ is_acked s' x) ->
  unsent_off s' <= write_off s' ->
  0 <= p <= len (data s) -> passed (send_off s + n) p (data s) -> inv (with_pos p s').
Proof.
  intros Hi Hn Ht Hd Hu Hr Hw Hp0 Hp. pose proof (tx_unsent _ _ _ _ Ht) as Hun.
  pose proof (tx_rest _ _ _ _ Ht) as (Hwo & Hmd & Hfo & Hak & _ & _ & Hul).
  assert (ack_off s' = ack_off s) as Hao by (unfold ack_off; by rewrite Hak).
  assert (send_off s + n <= send_off s') as Hso.
  { apply transmitted_send_off; [done..|apply Hu|]. intros x Hx. by apply Hr. }
  destruct Hi as [Hc Hua Hpos Ho [Hak1 Hak2] _ Hf].
  split; cbn [data pos write_off unsent_off unacked_len max_data fin_off acked retransmits with_pos].
  - change (ack_off (with_pos p s')) with (ack_off s'). by rewrite Hd, Hwo, Hao.
  - change (ack_off (with_pos p s')) with (ack_off s'). by rewrite Hul, Hwo, Hao.
  - change (send_off (with_pos p s')) with (send_off s'). rewrite Hd. split; [done|].
    by eapply passed_le.
  - lia.
  - rewrite Hak. split; [done|]. unfold is_acked in *. cbn. rewrite Hak. intros x Hx.
    apply Hak2 in Hx. lia.
  - by split.
  - rewrite Hfo, Hwo. done.
Qed.

Lemma send_read_loop_spec fuel : forall cap next out s,
  inv s -> 0 <= cap < Z.of_nat fuel -> next <= send_off s -> exists n s',
  read_loop fuel cap next out s = Ok (next + n, out ++ slice St next n, s') /\
  0 <= n <= cap /\ inv s' /\ transmitted s next n s' /\ (n = cap \/ ~ pending s (next + n)).
Proof.
  induction fuel as [|fuel IH]; intros cap next out s Hi Hc Hnx; [lia|]. cbn [read_loop].
  destruct (inv_send_off s Hi) as (_ & Hmin & _).
  destruct ((0 <? cap) && ready s && (send_off s =? next) && (send_off s <? max_data s)) eqn:Hb.
  2: { exists 0, s. rewrite slice_nil, app_nil_r, Z.add_0_r. split; [done|]. split; [lia|].
       split; [done|]. split; [apply transmitted_none|].
       destruct (Z.ltb_spec 0 cap); [|left; lia]. right. intros Hp.
       destruct (ready s) eqn:Hr; [|by eapply send_not_ready]. specialize (Hmin _ Hp).
       apply (pending_lt s _ Hi) in Hp. pose proof (inv_offs s Hi).
       destruct (Z.eqb_spec (send_off s) next); [|lia]. cbn in Hb. apply Z.ltb_ge in Hb. lia. }
  repeat rewrite andb_true_iff in Hb. destruct Hb as (((Hc0%Z.ltb_lt & Hr) & <-%Z.eqb_eq) & _).
  destruct (poll_transmit_spec s cap Hi Hr Hc0)
    as (n & s1 & -> & Hn & Ht & Hd & Hps & Hu & Hres & Hw).
  cbn [start end_]. rewrite sub64_ok by lia. cbn [mbind outcome_bind].
  replace (send_off s + n - send_off s) with n by lia.
  assert (pending s (send_off s + n - 1)) as Hlast%(pending_lt s _ Hi)
    by (apply (tx_in _ _ _ _ Ht); lia).
  pose proof (tx_rest _ _ _ _ Ht) as (Hwo & _ & _ & Hak & _).
  destruct (copy_range_spec (S (Z.to_nat n)) (mkRange (send_off s) (send_off s + n)) out s1 (ack_off s) (write_off s))
    as (p & -> & Hp0 & Hp); cbn [start end_]; rewrite ?Hd, ?Hps; try apply Hi; try lia.
  { pose proof (ack_le_send s Hi). lia. }
  cbn [start end_] in *. rewrite Hd in Hp0, Hp.
  replace (send_off s + n - send_off s) with n by lia. cbn [mbind outcome_bind].
  rewrite sub64_ok by lia. cbn [mbind outcome_bind].
  assert (inv (with_pos p s1)) as Hi1 by (by apply (transmitted_inv s n); auto; lia).
  assert (transmitted s (send_off s) n (with_pos p s1)) as Ht1 by (by apply transmitted_pos).
  destruct (IH (cap - n) (send_off s + n) (out ++ slice St (send_off s) n) (with_pos p s1) Hi1)
    as (m & s2 & -> & Hm & Hi2 & Ht2 & Hmax); [lia| |].
  { apply transmitted_send_off; [done|lia|done|apply Hu|]. intros x Hx. by apply Hres. }
  exists (n + m), s2. rewrite <- Z.add_assoc. split_and!; try lia; auto.
  - rewrite <- app_assoc, slice_app by lia. done.
  - eapply transmitted_trans; [lia|lia|done|done].
  - destruct Hmax as [->|Hmax]; [left; lia|right]. intros Hp2. apply Hmax.
    apply (tx_pending _ _ _ _ Ht1). rewrite <- Z.add_assoc. split; [done|lia].
Qed.

(** Reading returns the stream from the least pending offset on. *)
Lemma send_read_spec s cap : inv s -> 0 <= cap -> exists n s',
  read cap s = Ok (slice St (send_off s) n, bool_decide (fin_off s = Some (send_off s + n)), s') /\
  0 <= n <= cap /\ inv s' /\ transmitted s (send_off s) n s' /\
  (n = cap \/ ~ pending s (send_off s + n)).
Proof.
  intros Hi Hc. unfold read.
  destruct (send_read_loop_spec (S (Z.to_nat cap)) cap (send_off s) [] s Hi) as (n & s' & -> & Hn & Hi' & Ht & Hm);
    [lia..|].
  exists n, s'. split_and!; auto; try lia. cbn [mbind outcome_bind mret outcome_ret app].
  by destruct (tx_rest _ _ _ _ Ht) as (_ & _ & -> & _).
Qed.

(** ** Writing *)

Lemma passed_app x p d d' : p <= len d -> passed x p d -> passed x p (d ++ d').
Proof.
  intros Hp. unfold passed, ztake. rewrite take_app_le; [done|]. unfold len in Hp. lia.
Qed.

(** The chunks [write] appends. *)
Lemma write_chunks bytes wo f : bytes = slice St wo (len bytes) -> 0 < len bytes -> exists bufs,
  (let '(bufs, rest, wo) := chunk_loop (length bytes) bytes 0 (len bytes) wo f in
   if len rest =? 0 then (bufs, wo) else (bufs ++ [RangeBuf.new rest wo f], wo + len rest)) =
  (bufs, wo + len bytes) /\ contig wo bufs (wo + len bytes).
Proof.
  intros Hb Hl. destruct (chunk_loop _ _ _ _ _ _) as [[bufs rest] wo'] eqn:Hc.
  apply chunk_loop_spec in Hc as (Hd & Hr & Hs & _); [|done|unfold len; lia].
  pose proof (len_nonneg rest). destruct (Z.eqb_spec (len rest) 0) as [Hz|Hnz].
  - exists bufs. assert (wo' = wo + len bytes) as -> by lia. done.
  - exists (bufs ++ [RangeBuf.new rest wo' f]). rewrite Hs. split; [done|].
    eapply contig_app; [done|]. cbn. unfold max_off, len_, agrees. cbn. split_and!; try done; lia.
Qed.

(** The state after appending [n] bytes. *)
Record appended (s : SendBuf) (n : Z) (fo : option Z) (s' : SendBuf) : Prop := {
  app_inv : inv s';
  app_write_off : write_off s' = write_off s + n;
  app_fin_off : fin_off s' = fo;
  app_pending : forall x, pending s' x <-> pending s x \/ write_off s <= x < write_off s + n;
  app_rest : unsent_off s' = unsent_off s /\ max_data s' = max_data s /\ acked s' = acked s /\
    retransmits s' = retransmits s /\ error s' = error s /\ shutdown_ s' = shutdown_ s;
}.

Lemma append_inv s bufs n fo :
  inv s -> 0 <= n -> write_off s + n <= max_data s ->
  contig (write_off s) bufs (write_off s + n) ->
  (forall f, fo = Some f -> f = write_off s + n) ->
  appended s n fo (with_unacked_len (unacked_len s + n)
    (with_write_off (write_off s + n) (with_data (data s ++ bufs) (with_fin_off fo s)))).
Proof.
  intros [Hc Hu [Hp0 Hp] Ho Ha Hr Hf] Hn Hm Hb Hfo. split; cbn; try done.
  - split; cbn; try done.
    + by eapply contig_app.
    + unfold ack_off in *. cbn. lia.
    + rewrite len_app. pose proof (len_nonneg bufs). split; [lia|]. apply passed_app; [lia|done].
    + lia.
  - intros x. unfold pending, to_resend. cbn. pose proof Ho. intuition lia.
Qed.

Lemma with_fin_same s : with_fin_off (fin_off s) s = s.
Proof. by destruct s. Qed.

Lemma appended_none s fo : inv s -> (forall f, fo = Some f -> f = write_off s) ->
  appended s 0 fo (with_fin_off fo s).
Proof.
  intros Hi Hfo. pose proof (append_inv s [] 0 fo Hi) as H.
  rewrite app_nil_r, !Z.add_0_r in H. pose proof (inv_offs s Hi).
  replace (with_fin_off fo s) with (with_unacked_len (unacked_len s)
    (with_write_off (write_off s) (with_data (data s) (with_fin_off fo s)))) by (by destruct s).
  apply H; auto; try lia. done.
Qed.

Lemma send_write_spec s bytes f :
  inv s -> error s = None -> bytes = slice St (write_off s) (len bytes) ->
  write_off s + len bytes < 18446744073709551616 ->
  let n := Z.min (len bytes) (max_data s - write_off s) in
  let f' := f && (n =? len bytes) in
  if bool_decide (is_Some (fin_off s)) && ((0 <? len bytes) || negb f)
  then write bytes f s = (Err FinalSizeError, s)
  else exists s', write bytes f s = (Ok n, s') /\
    appended s n (if f' then Some (write_off s + n) else fin_off s) s'.
Proof.
  intros Hi He Hb Hm n f'. pose proof (inv_offs s Hi) as Ho. pose proof (len_nonneg bytes).
  unfold write. rewrite add64_ok by lia. unfold capacity. rewrite He, sub64_ok by lia.
  set (bf := if max_data s - write_off s <? len bytes then _ else _).
  assert (bf = (slice St (write_off s) n, f')) as ->.
  { subst bf f' n. destruct (Z.ltb_spec (max_data s - write_off s) (len bytes)).
    - rewrite Z.min_r by lia. f_equal; [rewrite Hb; apply slice_ztake; lia|].
      destruct (Z.eqb_spec (max_data s - write_off s) (len bytes)); [lia|by rewrite andb_false_r].
    - rewrite Z.min_l, Z.eqb_refl, andb_true_r by lia. by rewrite <- Hb. }
  rewrite len_slice by (unfold n; lia).
  destruct (bool_decide (is_Some (fin_off s)) && ((0 <? len bytes) || negb f)) eqn:Href.
  - apply andb_true_iff in Href as [[fo Hfo]%bool_decide_eq_true Hc]. rewrite Hfo.
    rewrite (inv_fin s Hi fo Hfo). destruct (Z.ltb_spec 0 (len bytes)); cbn in Hc.
    + destruct (Z.ltb_spec (write_off s) (write_off s + len bytes)); [done|lia].
    + assert (len bytes = 0) as Hz by lia. rewrite Hz, Z.add_0_r, Z.ltb_irrefl, Z.eqb_refl.
      destruct f; [done|]. done.
  - replace (match fin_off s with Some _ => _ | None => _ end) with false.
    2: { destruct (fin_off s) as [fo|] eqn:Hfo; [|done]. rewrite (inv_fin s Hi fo Hfo).
         apply orb_false_iff in Href as [Hlen%Z.ltb_ge Hf%negb_false_iff]. subst f.
         assert (len bytes = 0) as Hz by lia. unfold f', n. rewrite Hz, Z.add_0_r, Z.ltb_irrefl.
         rewrite Z.min_l, Z.eqb_refl by lia. by rewrite andb_false_r. }
    set (fo' := if f' then Some (write_off s + n) else fin_off s).
    assert (forall g, fo' = Some g -> g = write_off s + n) as Hfo'.
    { intros g. subst fo'. destruct f'; [by intros [= <-]|]. intros Hg.
      rewrite Hg in Href. apply orb_false_iff in Href as [Hlen%Z.ltb_ge _].
      rewrite (inv_fin s Hi g Hg). unfold n. lia. }
    assert ((if f' then with_fin_off (Some (write_off s + len bytes)) s else s) = with_fin_off fo' s) as ->.
    { subst fo' f'. destruct f; cbn; [|by rewrite with_fin_same].
      destruct (Z.eqb_spec n (len bytes)) as [->|]; [done|by rewrite with_fin_same]. }
    destruct (Z.eqb_spec n 0) as [Hz|Hnz].
    + eexists. split; [done|]. rewrite Hz, Z.add_0_r in *. by apply appended_none.
    + assert (len (slice St (write_off s) n) = n) as Hln by (apply len_slice; unfold n; lia).
      destruct (write_chunks (slice St (write_off s) n) (write_off s) f') as (bufs & Hch & Hct);
        [by rewrite Hln|unfold n in *; lia|]. rewrite Hln in *.
      cbn [write_off with_fin_off data unacked_len].
      destruct (chunk_loop _ _ _ _ _ _) as [[b0 r0] w0]. rewrite Hch.
      eexists. split; [done|]. apply (append_inv s bufs n fo'); auto; unfold n; lia.
Qed.

(** ** Acknowledgement *)

(** An acknowledged or lost range was sent before. *)
Definition was_sent (s : SendBuf) (o n : Z) : Prop := 0 <= o /\ 0 <= n /\ o + n <= unsent_off s.

(** Everything but the two range sets, the chunks and the position. *)
Definition same_frame (s s' : SendBuf) : Prop :=
  write_off s' = write_off s /\ unsent_off s' = unsent_off s /\ max_data s' = max_data s /\
  fin_off s' = fin_off s /\ error s' = error s /\ shutdown_ s' = shutdown_ s.

Record acknowledged (s : SendBuf) (o n : Z) (s' : SendBuf) : Prop := {
  ak_inv : inv s';
  ak_acked : forall x, is_acked s' x <-> is_acked s x \/ o <= x < o + n;
  ak_resend : forall x, to_resend s' x <-> to_resend s x /\ ~ (o <= x < o + n);
  ak_frame : same_frame s s';
}.

Lemma data_nil_acked s x : inv s -> data s = [] -> 0 <= x < unsent_off s -> is_acked s x.
Proof.
  intros Hi Hd Hx. pose proof (inv_contig s Hi) as Hc. rewrite Hd in Hc. cbn in Hc.
  apply (ack_off_spec s); [apply Hi|]. pose proof (inv_offs s Hi). lia.
Qed.

Lemma data_nil_resend s x : inv s -> data s = [] -> ~ to_resend s x.
Proof.
  intros Hi Hd Hx. destruct (proj2 (inv_resend s Hi) x Hx) as [Hlt []].
  apply data_nil_acked; auto. split; [|done]. eapply mem_nonneg; [|exact Hx]. apply Hi.
Qed.

(** The greatest contiguous offset only moves when the new range reaches it. *)
Lemma ack_off_grows s s' o n : inv s -> was_sent s o n -> RangeSet.wf (acked s') ->
  (forall x, is_acked s' x <-> is_acked s x \/ o <= x < o + n) ->
  ack_off s <= ack_off s' <= unsent_off s /\ (ack_off s' < o -> ack_off s' = ack_off s).
Proof.
  intros Hi (H0 & Hn & Hs) Hwf Hx.
  destruct (ack_off_spec s) as (Ha0 & Han & Hax); [apply Hi|].
  destruct (ack_off_spec s' Hwf) as (Hb0 & Hbn & Hbx).
  assert (ack_off s <= ack_off s') as Hle.
  { destruct (Z.le_gt_cases (ack_off s) (ack_off s')); [done|]. destruct Hbn. apply Hx. left.
    apply Hax. lia. }
  split; [split; [done|]|].
  - destruct (Z.le_gt_cases (ack_off s') (unsent_off s)) as [|Hgt]; [done|].
    assert (is_acked s' (unsent_off s)) as [Ha|Ha]%Hx; [|apply (inv_acked s Hi) in Ha; lia|lia].
    apply Hbx. pose proof (inv_offs s Hi). lia.
  - intros Hlt. apply ack_off_unique; auto.
    + rewrite Hx. intros [?|?]; [done|lia].
    + intros x Hlx. apply Hx. left. by apply Hax.
Qed.

Lemma ack_and_drop_spec s o n : inv s -> was_sent s o n ->
  exists s', ack_and_drop o n s = Ok s' /\ acknowledged s o n s'.
Proof.
  intros Hi Hws. pose proof Hws as (H0 & Hn & Hs). pose proof (inv_offs s Hi) as Ho.
  unfold ack_and_drop. destruct (data s) as [|b0 d0] eqn:Hd.
  { eexists. split; [done|].
    assert (forall x, ~ to_resend s x) as Hno by (intros x; by apply data_nil_resend).
    assert (RangeSet.clear (retransmits s) = retransmits s) as ->.
    { destruct (inv_resend s Hi) as [(Hwf & _) _]. unfold RangeSet.clear.
      pose proof (RangeSet.min_spec _ Hwf) as Hm. unfold RangeSet.min, RangeSet.iter in Hm.
      destruct (retransmits s) as [[|[a e] m] c] eqn:Hr; cbn in *; [done|].
      destruct (Hno a). unfold to_resend. rewrite Hr. apply Hm. }
    replace (with_retransmits (retransmits s) s) with s by (by destruct s).
    split; [done| | |by split_and!].
    - intros x. split; [by left|]. intros [?|?]; [done|]. apply data_nil_acked; auto. lia.
    - intros x. specialize (Hno x). tauto. }
  unfold ack. rewrite add64_ok by lia. cbn [mbind outcome_bind mret outcome_ret].
  set (ak := RangeSet.insert (acked s) _). set (rt := RangeSet.remove _ _).
  destruct (inv_acked s Hi) as [Hua Hax]. destruct (inv_resend s Hi) as [Hur Hrx].
  destruct (RangeSet.u64_set_insert (acked s) (mkRange o (o + n)) Hua) as [Hua' Hak]; [done|cbn; lia|].
  destruct (RangeSet.u64_set_remove (retransmits s) (mkRange o (o + n)) Hur) as [Hur' Hrt]; [done|].
  unfold RangeSet.in_range in Hak, Hrt. cbn [start end_] in Hak, Hrt.
  set (s1 := with_retransmits rt (with_acked ak s)).
  assert (forall x, is_acked s1 x <-> is_acked s x \/ o <= x < o + n) as Hax1 by exact Hak.
  assert (forall x, to_resend s1 x <-> to_resend s x /\ ~ (o <= x < o + n)) as Hrx1 by exact Hrt.
  destruct (ack_off_grows s s1 o n Hi Hws) as [Hgrow Hsame]; [apply Hua'|done|].
  assert (send_off s <= send_off s1) as Hso.
  { destruct (inv_send_off s Hi) as (Hle & Hmin & _).
    destruct (send_off_spec s1) as (_ & _ & [->|Hr1]); [apply Hur'| |exact Hle|].
    - intros x [Hx _]%Hrx1. exact (proj1 (Hrx x Hx)).
    - apply Hmin. left. by apply (Hrx1 (send_off s1)). }
  assert (forall d p, contig (ack_off s1) d (write_off s) -> 0 <= p <= len d -> passed (send_off s1) p d ->
    inv (with_pos p (with_data d (with_unacked_len (write_off s - ack_off s1) s1)))) as Hinv.
  { intros d p Hct Hp Hps. split; cbn; try done.
    - split; [done|]. intros x [Hx|Hx]%Hax1; [auto|lia].
    - split; [done|]. intros x [Hx Hx']%Hrx1. destruct (Hrx x Hx) as [? Hna]. split; [done|].
      intros [?|?]%Hax1; done.
    - apply Hi. }
  pose proof (inv_pos s Hi) as [Hp0 Hps]. pose proof (inv_unacked s Hi) as Hul.
  pose proof (passed_le _ _ _ _ Hso Hps) as Hps1.
  destruct (ack_off_spec s) as [Ha0 _]; [apply Hi|].
  destruct (Z.ltb_spec (ack_off s1) o) as [Hlt|Hge].
  - exists s1. split; [done|]. specialize (Hsame Hlt).
    assert (s1 = with_pos (pos s) (with_data (data s) (with_unacked_len (write_off s - ack_off s1) s1))) as Heq.
    { rewrite Hsame, <- Hul. by destruct s. }
    split; [|done|done|by split_and!]. rewrite Heq. apply Hinv; auto. rewrite Hsame. apply Hi.
  - change (write_off s1) with (write_off s). change (unacked_len s1) with (unacked_len s).
    rewrite Hul, sub64_ok by lia. cbn [mbind outcome_bind].
    rewrite sub64_ok by lia. cbn [mbind outcome_bind]. rewrite sub64_ok by lia. cbn [mbind outcome_bind].
    change (data s1) with (data s). change (pos s1) with (pos s).
    destruct (drop_loop_spec (data s) _ _ (ack_off s1 - (write_off s - (write_off s - ack_off s))) (inv_contig s Hi))
      as (d' & k & -> & Hct & Hk & Hlk & Hpk); [lia|]. cbn [mbind outcome_bind mret outcome_ret].
    eexists. split; [done|].
    replace (write_off s - ack_off s - _) with (write_off s - ack_off s1) by lia.
    split; [|done|done|by split_and!]. apply Hinv.
    + by replace (ack_off s1) with (ack_off s + (ack_off s1 - (write_off s - (write_off s - ack_off s)))) by lia.
    + pose proof (len_nonneg d'). unfold sat_sub. lia.
    + by apply Hpk.
Qed.

(** ** Loss *)

Lemma retransmit_loop_spec m : forall lo st en rt rt' r,
  RangeSet.chain lo m -> RangeSet.u64_set rt -> 0 <= st <= en -> en <= 18446744073709551615 ->
  retransmit_loop (map to_range m) st en rt = (rt', r) ->
  RangeSet.u64_set rt' /\ 0 <= start r /\ end_ r <= 18446744073709551615 /\
  forall x, RangeSet.mem rt' x \/ start r <= x < end_ r <->
            RangeSet.mem rt x \/ (st <= x < en /\ ~ RangeSet.mem_list m x).
Proof.
  induction m as [|[a b] m IH]; intros lo st en rt rt' r Hch Hu H0 He; cbn [map retransmit_loop].
  { intros [= <- <-]. cbn [start end_]. split_and!; auto; try lia. intros x. rewrite RangeSet.mem_list_nil. intuition. }
  destruct Hch as (Hlo & Hab & Hch). cbn [start end_ to_range fst snd].
  assert (forall x, RangeSet.mem_list m x -> b < x) as Hgt
    by (intros x Hx; apply (RangeSet.mem_list_bounds _ _ _ Hch) in Hx; lia).
  assert (forall x, RangeSet.mem_list ((a, b) :: m) x <-> a <= x < b \/ RangeSet.mem_list m x) as Hcons
    by (intros; apply RangeSet.mem_list_cons).
  destruct (Z.leb_spec en a).
  { intros [= <- <-]. cbn [start end_]. split_and!; auto; try lia. intros x. rewrite Hcons. specialize (Hgt x). intuition lia. }
  destruct (Z.leb_spec b st).
  { intros Hl. destruct (IH _ _ _ _ _ _ Hch Hu H0 He Hl) as (? & ? & ? & Hx). split_and!; auto.
    intros x. rewrite Hx, Hcons.
    destruct (Z.lt_ge_cases x a), (Z.lt_ge_cases x b); intuition lia. }
  destruct (Z.ltb_spec st a); destruct (Z.leb_spec en b).
  - intros [= <- <-]. cbn [start end_]. split_and!; auto; try lia. intros x. rewrite Hcons. specialize (Hgt x).
    destruct (Z.lt_ge_cases x a), (Z.lt_ge_cases x b); intuition lia.
  - destruct (RangeSet.u64_set_insert rt (mkRange st a) Hu) as [Hu' Hx']; [cbn; lia..|].
    intros Hl. destruct (IH b b en _ _ _ Hch Hu' ltac:(lia) He Hl) as (? & ? & ? & Hx). split_and!; auto.
    intros x. rewrite Hx, Hcons, Hx'. unfold RangeSet.in_range. cbn. specialize (Hgt x).
    destruct (Z.lt_ge_cases x a), (Z.lt_ge_cases x b); intuition lia.
  - intros [= <- <-]. cbn [start end_]. split_and!; auto; try lia. intros x. rewrite Hcons. specialize (Hgt x).
    destruct (Z.lt_ge_cases x a), (Z.lt_ge_cases x b); intuition lia.
  - intros Hl. destruct (IH b b en _ _ _ Hch Hu ltac:(lia) He Hl) as (? & ? & ? & Hx). split_and!; auto.
    intros x. rewrite Hx, Hcons.
    destruct (Z.lt_ge_cases x a), (Z.lt_ge_cases x b); intuition lia.
Qed.

Record lost (s : SendBuf) (o n : Z) (s' : SendBuf) : Prop := {
  lost_inv : inv s';
  lost_acked : acked s' = acked s;
  lost_resend : forall x, to_resend s' x <-> to_resend s x \/ (o <= x < o + n /\ ~ is_acked s x);
  lost_frame : same_frame s s';
}.

Lemma retransmit_spec s o n : inv s -> was_sent s o n ->
  exists s', retransmit o n s = Ok s' /\ lost s o n s'.
Proof.
  intros Hi Hws. pose proof Hws as (H0 & Hn & Hs). pose proof (inv_offs s Hi) as Ho.
  unfold retransmit. rewrite add64_ok by lia. cbn [mbind outcome_bind].
  assert ((forall x, o <= x < o + n -> is_acked s x) -> lost s o n s) as Htriv.
  { intros Hall. split; [done|done| |by split_and!]. intros x. specialize (Hall x). tauto. }
  destruct (data s) as [|b0 d0] eqn:Hd.
  { exists s. split; [done|]. apply Htriv. intros x Hx. apply data_nil_acked; auto. lia. }
  destruct (Z.leb_spec (o + n) (ack_off s)) as [Hle|Hgt].
  { exists s. split; [done|]. apply Htriv. intros x Hx. apply (ack_off_spec s); [apply Hi|lia]. }
  destruct (inv_acked s Hi) as [Hua Hax]. destruct (inv_resend s Hi) as [Hur Hrx].
  unfold RangeSet.iter. destruct (retransmit_loop _ _ _ _) as [rt r] eqn:Hl.
  eapply retransmit_loop_spec in Hl as (Hu1 & Hr0 & Hr1 & Hx1); [|apply Hua|done|lia|lia].
  destruct (RangeSet.u64_set_insert rt r Hu1 Hr0 Hr1) as [Hu2 Hx2].
  set (rt2 := RangeSet.insert rt r) in *. set (s1 := with_retransmits rt2 s).
  assert (forall x, to_resend s1 x <-> to_resend s x \/ (o <= x < o + n /\ ~ is_acked s x)) as Hx3.
  { intros x. unfold to_resend at 1. cbn. rewrite Hx2. apply Hx1. }
  pose proof (inv_pos s Hi) as [Hp0 Hp].
  assert (forall p, 0 <= p <= len (data s) -> passed (send_off s1) p (data s) ->
    lost s o n (with_pos p s1)) as Hlost.
  { intros p Hpp Hps. split; [|done|done|by split_and!]. split; cbn; try done; try apply Hi.
    split; [done|]. intros x [Hx|[Hx Hna]]%Hx3; [by apply Hrx|]. split; [lia|done]. }
  destruct (Z.ltb_spec (send_off s1) (send_off s)) as [Hlt|Hge].
  - exists (with_pos 0 s1). split; [done|]. apply Hlost; [pose proof (len_nonneg (data s)); lia|].
    by apply passed_zero.
  - exists s1. split; [done|]. replace s1 with (with_pos (pos s) s1) by (by destruct s).
    apply Hlost; [done|]. by eapply passed_le.
Qed.

Lemma inv_new md : 0 <= md < 18446744073709551616 -> inv (new md).
Proof.
  intros Hm. split; cbn; try done; try lia.
  - split; [done|]. apply passed_nil.
  - split; [apply RangeSet.u64_set_default|]. by intros x ?%RangeSet.mem_list_nil.
  - split; [apply RangeSet.u64_set_default|]. by intros x ?%RangeSet.mem_list_nil.
Qed.

End Content.

(** ** Completion and reset *)

Lemma is_complete_spec s f : RangeSet.u64_set (acked s) -> fin_off s = Some f -> 0 <= f ->
  (forall x, is_acked s x -> x < f) ->
  is_complete s = true <-> forall x, 0 <= x < f -> is_acked s x.
Proof.
  intros (Hwf & _) Hf H0 Hlt. unfold is_complete. rewrite Hf, orb_true_iff, Z.eqb_eq, RangeSet.eq_range_spec.
  cbn [start end_]. unfold is_acked, RangeSet.mem, RangeSet.wf in *. split.
  - intros [-> | ->] x Hx; [lia|]. rewrite RangeSet.mem_list_cons. by left.
  - intros Hall. destruct (Z.eq_dec f 0); [by left|right]. apply (RangeSet.chain_ext (-1)); [done|cbn; lia|].
    intros x. rewrite RangeSet.mem_list_cons, RangeSet.mem_list_nil. split; [|intros [?|[]]; auto].
    intros Hx. left. pose proof (Hlt _ Hx). apply (RangeSet.mem_list_bounds _ _ _ Hwf) in Hx. lia.
Qed.

(** The state of an abandoned stream: nothing to send, everything complete. *)
Record abandoned (s s' : SendBuf) : Prop := {
  ab_data : data s' = [];
  ab_fin : fin_off s' = Some (unsent_off s);
  ab_write_off : write_off s' = unsent_off s;
  ab_complete : is_complete s' = true;
  ab_limit : max_data s' = max_data s;
  ab_send : forall cap, 0 <= cap -> exists f, read cap s' = Ok ([], f, s');
}.

Lemma send_reset_spec St s : inv St s -> exists s',
  reset s = Ok (unsent_off s, write_off s - unsent_off s, s') /\ abandoned s s' /\
  error s' = error s /\ shutdown_ s' = shutdown_ s.
Proof.
  intros Hi. pose proof (inv_offs _ s Hi) as Ho. unfold reset, ack.
  cbn [unsent_off with_data with_fin_off acked]. rewrite add64_ok by lia.
  cbn [mbind outcome_bind mret outcome_ret].
  set (s1 := with_write_off _ _). exists s1.
  split; [unfold sat_sub; cbn; do 3 f_equal; lia|]. split; [|done].
  destruct (inv_acked _ s Hi) as [Hu Hx].
  destruct (RangeSet.u64_set_insert (acked s) (mkRange 0 (0 + unsent_off s)) Hu) as [Hu' Hx']; [done|cbn; lia|].
  split; try done.
  - apply (is_complete_spec s1 (unsent_off s)); [done|done|lia| |].
    + intros x Hm. apply Hx' in Hm. unfold RangeSet.in_range in Hm. cbn in Hm.
      destruct Hm as [?%Hx|?]; lia.
    + intros x Hm. apply Hx'. right. unfold RangeSet.in_range. cbn. lia.
  - intros cap Hc. unfold read. cbn [read_loop].
    assert (ready s1 = false) as -> by done. rewrite andb_false_r. cbn [andb mbind outcome_bind].
    by eexists.
Qed.

(** ** Histories

    [content] is everything the application wrote, [sent] the frames that left
    with their offset and bytes, [open_] those neither acknowledged nor declared
    lost. *)

Record hist := mkHist {
  buf : SendBuf;
  content : list Z;
  sent : list (Z * list Z);
  open_ : list (Z * Z);
}.

Definition resolve (o n : Z) (l : list (Z * Z)) : list (Z * Z) :=
  List.filter (fun p => negb ((p.1 =? o) && (p.2 =? n))) l.

Definition in_frame (x : Z) (p : Z * Z) : Prop := p.1 <= x < p.1 + p.2.

Inductive step (h : hist) : hist -> Prop :=
| step_write bytes f n s' :
    len (content h) + len bytes < 18446744073709551616 ->
    write bytes f (buf h) = (Ok n, s') ->
    step h (mkHist s' (content h ++ ztake n bytes) (sent h) (open_ h))
| step_send cap out f s' :
    0 <= cap -> read cap (buf h) = Ok (out, f, s') ->
    step h (mkHist s' (content h) ((send_off (buf h), out) :: sent h)
              ((send_off (buf h), len out) :: open_ h))
| step_ack o bytes s' :
    In (o, bytes) (sent h) -> ack_and_drop o (len bytes) (buf h) = Ok s' ->
    step h (mkHist s' (content h) (sent h) (resolve o (len bytes) (open_ h)))
| step_lose o bytes s' :
    In (o, bytes) (sent h) -> retransmit o (len bytes) (buf h) = Ok s' ->
    step h (mkHist s' (content h) (sent h) (resolve o (len bytes) (open_ h)))
| step_max_data m :
    m < 18446744073709551616 ->
    step h (mkHist (update_max_data m (buf h)) (content h) (sent h) (open_ h)).

Inductive reachable (md : Z) : hist -> Prop :=
| reach_new : reachable md (mkHist (new md) [] [] [])
| reach_step h h' : reachable md h -> step h h' -> reachable md h'.

(** The stream that continues [l] with zeros. *)
Definition stream_of (l : list Z) (x : Z) : Z := nth (Z.to_nat x) l 0.

Record hist_ok (h : hist) : Prop := {
  ho_inv : inv (stream_of (content h)) (buf h);
  ho_len : write_off (buf h) = len (content h);
  ho_error : error (buf h) = None;
  ho_sent : forall o bytes, In (o, bytes) (sent h) ->
    was_sent (buf h) o (len bytes) /\ bytes = ztake (len bytes) (zdrop o (content h));
  ho_kept : forall x, 0 <= x < write_off (buf h) ->
    is_acked (buf h) x \/ pending (buf h) x \/ Exists (in_frame x) (open_ h);
}.



Lemma slice_ext St St' o n : (forall x, o <= x < o + n -> St x = St' x) -> slice St o n = slice St' o n.
Proof. intros H. unfold slice. apply map_ext_in. intros x Hx%list_elem_of_In%elem_of_seqZ. apply H. lia. Qed.

Lemma contig_ext St St' d : forall o e, (forall x, o <= x < e -> St x = St' x) ->
  contig St o d e -> contig St' o d e.
Proof.
  induction d as [|b d IH]; intros o e Hx; cbn; [done|]. intros (Ho & Hl & Ha & Hd).
  pose proof (contig_le _ _ _ _ Hd). unfold max_off in *. split_and!; auto.
  - unfold agrees in *. rewrite Ha at 1. apply slice_ext. intros x ?. apply Hx. lia.
  - apply IH; [|done]. intros x ?. apply Hx. lia.
Qed.

Lemma inv_ext St St' s : (forall x, 0 <= x < write_off s -> St x = St' x) -> inv St s -> inv St' s.
Proof.
  intros Hx Hi. destruct (ack_off_spec s) as [H0 _]; [apply Hi|].
  destruct Hi as [Hc ? ? ? ? ? ?]. split; try done. eapply contig_ext; [|exact Hc].
  intros x ?. apply Hx. lia.
Qed.

Lemma stream_of_app l k x : 0 <= x < len l -> stream_of (l ++ k) x = stream_of l x.
Proof. intros Hx. unfold stream_of. apply app_nth1. unfold len in Hx. lia. Qed.

Lemma stream_of_slice l : l = slice (stream_of l) 0 (len l).
Proof.
  induction l as [|x l IH] using rev_ind; [done|].
  rewrite len_app. change (len [x]) with 1. pose proof (len_nonneg l). rewrite slice_app by lia. f_equal.
  - rewrite IH at 1. apply slice_ext. intros y Hy. symmetry. apply stream_of_app. lia.
  - rewrite Z.add_0_l. unfold slice. rewrite seqZ_cons, seqZ_nil by lia. cbn [map]. f_equal.
    unfold stream_of, len. rewrite Nat2Z.id, app_nth2, Nat.sub_diag by lia. done.
Qed.

Lemma stream_of_suffix l k : k = slice (stream_of (l ++ k)) (len l) (len k).
Proof.
  pose proof (len_nonneg l). pose proof (len_nonneg k).
  pose proof (stream_of_slice (l ++ k)) as Hs. rewrite len_app, slice_app in Hs by lia.
  apply app_inj_1 in Hs as [_ Hs]; [done|]. apply Nat2Z.inj.
  change (len l = len (slice (stream_of (l ++ k)) 0 (len l))). by rewrite len_slice.
Qed.

Lemma sub_slice l o n : 0 <= o -> 0 <= n -> o + n <= len l ->
  slice (stream_of l) o n = ztake n (zdrop o l).
Proof.
  intros. rewrite (stream_of_slice l) at 2. rewrite slice_zdrop, slice_ztake by lia. done.
Qed.

Lemma sub_app (l k : list Z) o n : 0 <= o -> 0 <= n -> o + n <= len l ->
  ztake n (zdrop o (l ++ k)) = ztake n (zdrop o l).
Proof.
  intros. pose proof (len_nonneg k). rewrite <- !sub_slice by (rewrite ?len_app; lia).
  apply slice_ext. intros x ?. apply stream_of_app. lia.
Qed.

Lemma hist_new md : 0 <= md < 18446744073709551616 -> hist_ok (mkHist (new md) [] [] []).
Proof. intros Hm. split; cbn; try done; [by apply inv_new|lia]. Qed.

Lemma resolve_frames o n l x :
  Exists (in_frame x) l -> o <= x < o + n \/ Exists (in_frame x) (resolve o n l).
Proof.
  rewrite !Exists_exists. intros ([a b] & Hin & Hx).
  destruct ((a =? o) && (b =? n)) eqn:Hb.
  - apply andb_true_iff in Hb as [->%Z.eqb_eq ->%Z.eqb_eq]. by left.
  - right. exists (a, b). split; [|done]. apply list_elem_of_In, filter_In.
    split; [by apply list_elem_of_In|]. cbn. by rewrite Hb.
Qed.

(** Frames stay sent while [unsent_off] does not move back and data is only
    appended. *)
Lemma sent_stable h s' k : hist_ok h -> unsent_off (buf h) <= unsent_off s' ->
  forall o bytes, In (o, bytes) (sent h) ->
  was_sent s' o (len bytes) /\ bytes = ztake (len bytes) (zdrop o (content h ++ k)).
Proof.
  intros Hh Hu o bytes Hin. destruct (ho_sent h Hh o bytes Hin) as [(H0 & Hn & Hs) Hb].
  pose proof (inv_offs _ _ (ho_inv h Hh)). rewrite (ho_len h Hh) in *.
  split; [split_and!; lia|]. rewrite sub_app by lia. done.
Qed.

Lemma step_write_ok h bytes f n s' : hist_ok h ->
  len (content h) + len bytes < 18446744073709551616 ->
  write bytes f (buf h) = (Ok n, s') ->
  hist_ok (mkHist s' (content h ++ ztake n bytes) (sent h) (open_ h)).
Proof.
  intros Hh Hm Hw. pose proof (ho_inv h Hh) as Hi. pose proof (ho_len h Hh) as Hl.
  set (St := stream_of (content h ++ bytes)).
  assert (inv St (buf h)) as Hi1.
  { eapply inv_ext; [|exact Hi]. intros x Hx. symmetry. apply stream_of_app. lia. }
  pose proof (send_write_spec St (buf h) bytes f Hi1 (ho_error h Hh)) as Hs. rewrite Hl in Hs.
  specialize (Hs (stream_of_suffix _ _) Hm). cbn zeta in Hs. rewrite Hw in Hs.
  destruct (bool_decide _ && _); [done|]. destruct Hs as (s1 & [= -> <-] & Hap).
  set (n := Z.min _ _) in *. pose proof (inv_offs _ _ Hi) as Ho. pose proof (len_nonneg bytes).
  assert (len (ztake n bytes) = n) as Hln by (apply len_ztake; unfold n; lia).
  destruct Hap as [Hi' Hw' _ Hp (Hu & _ & Hak & _ & He & _)]. rewrite Hl in *.
  split; cbn [buf content sent open_].
  - eapply inv_ext; [|exact Hi']. intros x Hx. unfold St.
    rewrite <- (ztake_zdrop n bytes) at 1. rewrite app_assoc. apply stream_of_app.
    rewrite len_app. lia.
  - rewrite len_app. lia.
  - rewrite He. apply Hh.
  - apply sent_stable; [done|lia].
  - intros x Hx. destruct (Z.lt_ge_cases x (len (content h))).
    + destruct (ho_kept h Hh x) as [?|[?|?]]; [lia|left; unfold is_acked; by rewrite Hak|..]; [|auto].
      right. left. apply Hp. by left.
    + right. left. apply Hp. right. lia.
Qed.

Lemma step_send_ok h cap out f s' : hist_ok h -> 0 <= cap -> read cap (buf h) = Ok (out, f, s') ->
  hist_ok (mkHist s' (content h) ((send_off (buf h), out) :: sent h)
             ((send_off (buf h), len out) :: open_ h)).
Proof.
  intros Hh Hc Hr. pose proof (ho_inv h Hh) as Hi. pose proof (ho_len h Hh) as Hl.
  destruct (send_read_spec _ _ cap Hi Hc) as (n & s1 & Hr1 & Hn & Hi' & Ht & _).
  rewrite Hr in Hr1. injection Hr1 as -> _ ->. rewrite len_slice by lia.
  pose proof (tx_rest _ _ _ _ Ht) as (Hw & _ & _ & Hak & He & _). pose proof (tx_unsent _ _ _ _ Ht).
  destruct (ack_off_spec (buf h)) as [H0 _]; [apply Hi|]. pose proof (ack_le_send _ _ Hi).
  destruct (inv_send_off _ _ Hi) as (Hsu & _). pose proof (inv_offs _ _ Hi). pose proof (inv_offs _ _ Hi').
  assert (send_off (buf h) + n <= unsent_off s1) as Hsent.
  { destruct (Z.eq_dec n 0); [lia|].
    assert (pending (buf h) (send_off (buf h) + n - 1)) as Hp by (apply (tx_in _ _ _ _ Ht); lia).
    apply (pending_lt _ _ _ Hi) in Hp.
    destruct (Z.le_gt_cases (send_off (buf h) + n) (unsent_off s1)); [done|].
    assert (pending s1 (send_off (buf h) + n - 1)) as [_ []]%(tx_pending _ _ _ _ Ht) by (right; lia). lia. }
  split; cbn [buf content sent open_]; [done|lia|rewrite He; apply Hh| |].
  - intros o bytes [[= <- <-]|Hin].
    + rewrite len_slice by lia. split; [split_and!; lia|]. apply sub_slice; lia.
    + rewrite <- (app_nil_r (content h)). eapply sent_stable; [done|lia|done].
  - intros x Hx. destruct (ho_kept h Hh x) as [?|[Hp|?]]; [lia|left; unfold is_acked; by rewrite Hak|..].
    + destruct (decide (send_off (buf h) <= x < send_off (buf h) + n)); [right; right; by left|].
      right. left. by apply (tx_pending _ _ _ _ Ht).
    + right. right. by right.
Qed.

Lemma step_ack_ok h o bytes s' : hist_ok h -> In (o, bytes) (sent h) ->
  ack_and_drop o (len bytes) (buf h) = Ok s' ->
  hist_ok (mkHist s' (content h) (sent h) (resolve o (len bytes) (open_ h))).
Proof.
  intros Hh Hin Ha. destruct (ho_sent h Hh o bytes Hin) as [Hs _].
  destruct (ack_and_drop_spec _ _ _ _ (ho_inv h Hh) Hs) as (s1 & Ha1 & [Hi Hx Hr (Hw & Hu & _ & _ & He & _)]).
  rewrite Ha in Ha1. injection Ha1 as ->. pose proof (ho_len h Hh).
  split; cbn [buf content sent open_]; [done|congruence|rewrite He; apply Hh| |].
  - intros o' b'. rewrite <- (app_nil_r (content h)). apply sent_stable; [done|lia].
  - intros x Hlt. rewrite Hw in Hlt. destruct (decide (o <= x < o + len bytes)) as [Hin'|Hout].
    { left. apply Hx. by right. }
    destruct (ho_kept h Hh x Hlt) as [?|[Hp|Hp]].
    + left. apply Hx. by left.
    + right. left. destruct Hp as [Hp|Hp]; [left; by apply Hr|right; lia].
    + right. right. by destruct (resolve_frames o (len bytes) _ _ Hp).
Qed.

Lemma step_lose_ok h o bytes s' : hist_ok h -> In (o, bytes) (sent h) ->
  retransmit o (len bytes) (buf h) = Ok s' ->
  hist_ok (mkHist s' (content h) (sent h) (resolve o (len bytes) (open_ h))).
Proof.
  intros Hh Hin Ha. destruct (ho_sent h Hh o bytes Hin) as [Hs _].
  destruct (retransmit_spec _ _ _ _ (ho_inv h Hh) Hs) as (s1 & Ha1 & [Hi Hx Hr (Hw & Hu & _ & _ & He & _)]).
  rewrite Ha in Ha1. injection Ha1 as ->. pose proof (ho_len h Hh).
  assert (forall x, is_acked s1 x <-> is_acked (buf h) x) as Hak by (intros x; unfold is_acked; by rewrite Hx).
  split; cbn [buf content sent open_]; [done|congruence|rewrite He; apply Hh| |].
  - intros o' b'. rewrite <- (app_nil_r (content h)). apply sent_stable; [done|lia].
  - intros x Hlt. rewrite Hw in Hlt. destruct (ho_kept h Hh x Hlt) as [?|[Hp|Hp]].
    + left. by apply Hak.
    + right. left. destruct Hp as [Hp|Hp]; [left; apply Hr; by left|right; lia].
    + destruct (resolve_frames o (len bytes) _ _ Hp) as [Hf|]; [|auto].
      rewrite Hak. destruct (RangeSet.contains (acked (buf h)) x) eqn:Hc.
      * left. apply RangeSet.contains_spec; [apply (ho_inv h Hh)|done].
      * right. left. left. apply Hr. right. split; [done|]. intros Hm.
        apply RangeSet.contains_spec in Hm; [congruence|apply (ho_inv h Hh)].
Qed.

Lemma step_ok h h' : hist_ok h -> step h h' -> hist_ok h'.
Proof.
  intros Hh Hs. destruct Hs as [bytes f n s' Hm Hw|cap out f s' Hc Hr|o bytes s' Hin Ha|o bytes s' Hin Ha|m Hm].
  - by eapply step_write_ok.
  - by eapply step_send_ok.
  - by eapply step_ack_ok.
  - by eapply step_lose_ok.
  - destruct Hh as [Hi ? ? ? ?]. split; try done. cbn. destruct Hi as [? ? ? ? ? ? ?]. split; try done. cbn. lia.
Qed.

Lemma reachable_ok md h : 0 <= md < 18446744073709551616 -> reachable md h -> hist_ok h.
Proof. intros Hm. induction 1; [by apply hist_new|by eapply step_ok]. Qed.

End SendBuf.

Import RangeBuf SendBuf.



(** [SendBuf::write] on every branch of a stream that is not stopped: it
    refuses to go past or to cancel a known end, accepts what flow control
    allows, drops the [fin] flag when it truncates, and appends exactly the
    accepted bytes to what is pending. *)
Theorem send_write_correct St s bytes f :
  inv St s -> error s = None -> bytes = slice St (write_off s) (len bytes) ->
  write_off s + len bytes < 18446744073709551616 ->
  let n := Z.min (len bytes) (max_data s - write_off s) in
  let f' := f && (n =? len bytes) in
  if bool_decide (is_Some (fin_off s)) && ((0 <? len bytes) || negb f)
  then write bytes f s = (Err FinalSizeError, s)
  else exists s', write bytes f s = (Ok n, s') /\
    appended St s n (if f' then Some (write_off s + n) else fin_off s) s'.
Proof. apply send_write_spec. Qed.

Lemma send_write_correct_witness :
  exists s', write [1; 2; 3; 4; 5] true (new 3) = (Ok 3, s') /\ fin_off s' = None /\ write_off s' = 3.
Proof.
  destruct (send_write_correct (stream_of [1; 2; 3; 4; 5]) (new 3) [1; 2; 3; 4; 5] true)
    as (s' & Hw & Ha); [apply inv_new; lia|reflexivity..|].
  exists s'. split; [exact Hw|]. split; [apply (app_fin_off _ _ _ _ _ Ha)|apply (app_write_off _ _ _ _ _ Ha)].
Defined.

(** Acknowledgement and loss: for a range sent before, [ack_and_drop]
    marks it acknowledged and cancels its retransmission, [retransmit] queues
    exactly its unacknowledged part, and both keep the invariant that lets
    sending resume at the least pending offset. *)
Theorem send_ack_loss_correct St s o n :
  inv St s -> was_sent s o n ->
  (exists s', ack_and_drop o n s = Ok s' /\ acknowledged St s o n s') /\
  (exists s', retransmit o n s = Ok s' /\ lost St s o n s').
Proof. intros Hi Hs. split; [by apply ack_and_drop_spec|by apply retransmit_spec]. Qed.

Lemma send_ack_loss_correct_witness :
  let s := match read 3 (snd (write [1; 2; 3; 4; 5] true (new 9))) with
           | Ok (_, _, s) => s | _ => new 9 end in
  exists s', retransmit 1 2 s = Ok s' /\ acked s' = acked s /\ send_off s' = 1.
Proof.
  intros s. set (St := stream_of [1; 2; 3; 4; 5]). assert (inv St s) as Hi.
  { set (s1 := snd (write [1; 2; 3; 4; 5] true (new 9))).
    assert (hist_ok (mkHist s1 ([] ++ ztake 5 [1; 2; 3; 4; 5]) [] [])) as Hh.
    { apply (step_write_ok (mkHist (new 9) [] [] []) [1; 2; 3; 4; 5] true); [apply hist_new; lia|..];
        vm_compute; reflexivity. }
    assert (read 3 s1 = Ok ([1; 2; 3], false, s)) as Hr by (vm_compute; reflexivity).
    exact (ho_inv _ (step_send_ok _ 3 _ _ s Hh ltac:(lia) Hr)). }
  destruct (send_ack_loss_correct St s 1 2 Hi) as (_ & s' & Hr & Hl); [vm_compute; intuition congruence|].
  exists s'. split; [exact Hr|]. split; [apply (lost_acked _ _ _ _ _ Hl)|].
  vm_compute in Hr. injection Hr as <-. vm_compute. reflexivity.
Defined.

(** Stopping (by the peer) or shutting down (by the application) a stream
    ends it at the first unsent offset, reports how much was never sent, leaves
    nothing to send and makes the send side complete; a second attempt is
    refused with [Done]. *)
Theorem send_abandon_correct St s code :
  inv St s ->
  match stop code s with
  | (Ok (fo, unsent), s') => fo = unsent_off s /\ unsent = write_off s - unsent_off s /\
      abandoned s s' /\ error s' = Some code /\ error s = None
  | (Err e, s') => e = Done /\ s' = s /\ is_stopped s = true
  | (Panic, _) => False
  end /\
  match shutdown s with
  | (Ok (fo, unsent), s') => fo = unsent_off s /\ unsent = write_off s - unsent_off s /\
      abandoned s s' /\ shutdown_ s' = true /\ shutdown_ s = false
  | (Err e, s') => e = Done /\ s' = s /\ shutdown_ s = true
  | (Panic, _) => False
  end.
Proof.
  intros Hi. split.
  - unfold stop. destruct (error s) as [c|] eqn:He.
    { split_and!; auto. unfold is_stopped. rewrite He. by apply bool_decide_eq_true. }
    destruct (send_reset_spec St s Hi) as (s' & -> & [Hd Hf Hw Hc Hl Hs] & _). split_and!; auto.
    split; auto. intros cap H0. destruct (Hs cap H0) as [g Hg]. exists g.
    unfold read in *. cbn [read_loop] in *.
    replace (ready s') with false in Hg by (unfold ready; by rewrite Hd).
    replace (ready (with_error (Some code) s')) with false by (unfold ready; cbn; by rewrite Hd).
    rewrite andb_false_r in *. cbn in *. injection Hg as <-. done.
  - unfold shutdown. destruct (shutdown_ s); [done|].
    assert (inv St (with_shutdown true s)) as Hi' by (destruct Hi as [? ? ? ? ? ? ?]; by split).
    destruct (send_reset_spec St _ Hi') as (s' & -> & [Hd Hf Hw Hc Hl Hs] & _ & ->). split_and!; auto. by split.
Qed.

Lemma send_abandon_correct_witness :
  exists s', stop 7 (new 5) = (Ok (0, 0), s') /\ abandoned (new 5) s'.
Proof.
  destruct (send_abandon_correct (fun _ => 0) (new 5) 7) as (H & _); [apply inv_new; lia|].
  destruct (stop 7 (new 5)) as [[[fo un]|e|] s'] eqn:He; [|vm_compute in He; discriminate..].
  destruct H as (-> & -> & Ha & _). exists s'. split; [reflexivity|exact Ha].
Defined.
