(* ===== verification/Concurrency.v ===== *)
(** * Stream concurrency and connection-level send credit

    Models [src/src/connection/stream/concurrency.rs], with the stream id
    predicates of [stream_state.rs]: how many streams each side may open, which
    ids are still unused, and how much data may be sent on the connection.  The
    invariant relates the sets of available ids to the limits and to the ids
    that were used. *)

From S2P Require Import Prelude.
From S2P Require Import Error.
From S2P Require Import Btree.
From S2P Require Import Ranges.

(** [is_local] and [is_bidi] of stream_state.rs. *)
Definition is_local (stream_id : Z) (is_server : bool) : bool :=
  Z.land stream_id 1 =? (if is_server then 1 else 0).
Definition is_bidi (stream_id : Z) : bool := Z.land stream_id 2 =? 0.

Lemma land_low id m : Z.land 3 m = m -> Z.land id m = Z.land (id mod 4) m.
Proof.
  intros Hm. change 4 with (2 ^ 2). rewrite <- Z.land_ones by lia. change (Z.ones 2) with 3.
  by rewrite <- Z.land_assoc, Hm.
Qed.

(** The initiator, the direction and the sequence number determine the id. *)
Lemma stream_id_inj id id' server :
  is_local id server = is_local id' server -> is_bidi id = is_bidi id' ->
  Z.shiftr id 2 = Z.shiftr id' 2 -> id = id'.
Proof.
  unfold is_local, is_bidi. rewrite !(land_low id), !(land_low id') by done.
  rewrite !Z.shiftr_div_pow2 by lia. change (2 ^ 2) with 4. intros Hl Hb Hs.
  pose proof (Z.mod_pos_bound id 4 ltac:(lia)). pose proof (Z.mod_pos_bound id' 4 ltac:(lia)).
  rewrite (Z.div_mod id 4), (Z.div_mod id' 4), Hs by lia.
  assert (forall r, 0 <= r < 4 -> r = 0 \/ r = 1 \/ r = 2 \/ r = 3) as Hr by lia.
  destruct (Hr _ H) as [E|[E|[E|E]]], (Hr _ H0) as [E'|[E'|[E'|E']]];
    rewrite E, E' in *; try reflexivity; destruct server; vm_compute in Hl, Hb; congruence.
Qed.

Module ConcurrencyControl.

Record ConcurrencyControl := mkCC {
  peer_max_streams_bidi : Z;
  peer_max_streams_uni : Z;
  peer_opened_streams_bidi : Z;
  peer_opened_streams_uni : Z;
  local_max_streams_bidi : Z;
  local_max_streams_bidi_next : Z;
  local_max_streams_uni : Z;
  local_max_streams_uni_next : Z;
  local_opened_streams_bidi : Z;
  local_opened_streams_uni : Z;
  streams_blocked_at_bidi : option Z;
  streams_blocked_at_uni : option Z;
  peer_bidi_avail_ids : RangeSet.RangeSet;
  peer_uni_avail_ids : RangeSet.RangeSet;
  local_bidi_avail_ids : RangeSet.RangeSet;
  local_uni_avail_ids : RangeSet.RangeSet;
}.

Definition with_peer_max_streams_bidi x s :=
  mkCC x (peer_max_streams_uni s) (peer_opened_streams_bidi s) (peer_opened_streams_uni s)
    (local_max_streams_bidi s) (local_max_streams_bidi_next s) (local_max_streams_uni s)
    (local_max_streams_uni_next s) (local_opened_streams_bidi s) (local_opened_streams_uni s)
    (streams_blocked_at_bidi s) (streams_blocked_at_uni s) (peer_bidi_avail_ids s)
    (peer_uni_avail_ids s) (local_bidi_avail_ids s) (local_uni_avail_ids s).
Definition with_peer_max_streams_uni x s :=
  mkCC (peer_max_streams_bidi s) x (peer_opened_streams_bidi s) (peer_opened_streams_uni s)
    (local_max_streams_bidi s) (local_max_streams_bidi_next s) (local_max_streams_uni s)
    (local_max_streams_uni_next s) (local_opened_streams_bidi s) (local_opened_streams_uni s)
    (streams_blocked_at_bidi s) (streams_blocked_at_uni s) (peer_bidi_avail_ids s)
    (peer_uni_avail_ids s) (local_bidi_avail_ids s) (local_uni_avail_ids s).
Definition with_peer_opened_streams_bidi x s :=
  mkCC (peer_max_streams_bidi s) (peer_max_streams_uni s) x (peer_opened_streams_uni s)
    (local_max_streams_bidi s) (local_max_streams_bidi_next s) (local_max_streams_uni s)
    (local_max_streams_uni_next s) (local_opened_streams_bidi s) (local_opened_streams_uni s)
    (streams_blocked_at_bidi s) (streams_blocked_at_uni s) (peer_bidi_avail_ids s)
    (peer_uni_avail_ids s) (local_bidi_avail_ids s) (local_uni_avail_ids s).
Definition with_peer_opened_streams_uni x s :=
  mkCC (peer_max_streams_bidi s) (peer_max_streams_uni s) (peer_opened_streams_bidi s) x
    (local_max_streams_bidi s) (local_max_streams_bidi_next s) (local_max_streams_uni s)
    (local_max_streams_uni_next s) (local_opened_streams_bidi s) (local_opened_streams_uni s)
    (streams_blocked_at_bidi s) (streams_blocked_at_uni s) (peer_bidi_avail_ids s)
    (peer_uni_avail_ids s) (local_bidi_avail_ids s) (local_uni_avail_ids s).
Definition with_local_max_streams_bidi x s :=
  mkCC (peer_max_streams_bidi s) (peer_max_streams_uni s) (peer_opened_streams_bidi s)
    (peer_opened_streams_uni s) x (local_max_streams_bidi_next s) (local_max_streams_uni s)
    (local_max_streams_uni_next s) (local_opened_streams_bidi s) (local_opened_streams_uni s)
    (streams_blocked_at_bidi s) (streams_blocked_at_uni s) (peer_bidi_avail_ids s)
    (peer_uni_avail_ids s) (local_bidi_avail_ids s) (local_uni_avail_ids s).
Definition with_local_max_streams_bidi_next x s :=
  mkCC (peer_max_streams_bidi s) (peer_max_streams_uni s) (peer_opened_streams_bidi s)
    (peer_opened_streams_uni s) (local_max_streams_bidi s) x (local_max_streams_uni s)
    (local_max_streams_uni_next s) (local_opened_streams_bidi s) (local_opened_streams_uni s)
    (streams_blocked_at_bidi s) (streams_blocked_at_uni s) (peer_bidi_avail_ids s)
    (peer_uni_avail_ids s) (local_bidi_avail_ids s) (local_uni_avail_ids s).
Definition with_local_max_streams_uni x s :=
  mkCC (peer_max_streams_bidi s) (peer_max_streams_uni s) (peer_opened_streams_bidi s)
    (peer_opened_streams_uni s) (local_max_streams_bidi s) (local_max_streams_bidi_next s) x
    (local_max_streams_uni_next s) (local_opened_streams_bidi s) (local_opened_streams_uni s)
    (streams_blocked_at_bidi s) (streams_blocked_at_uni s) (peer_bidi_avail_ids s)
    (peer_uni_avail_ids s) (local_bidi_avail_ids s) (local_uni_avail_ids s).
Definition with_local_max_streams_uni_next x s :=
  mkCC (peer_max_streams_bidi s) (peer_max_streams_uni s) (peer_opened_streams_bidi s)
    (peer_opened_streams_uni s) (local_max_streams_bidi s) (local_max_streams_bidi_next s)
    (local_max_streams_uni s) x (local_opened_streams_bidi s) (local_opened_streams_uni s)
    (streams_blocked_at_bidi s) (streams_blocked_at_uni s) (peer_bidi_avail_ids s)
    (peer_uni_avail_ids s) (local_bidi_avail_ids s) (local_uni_avail_ids s).
Definition with_local_opened_streams_bidi x s :=
  mkCC (peer_max_streams_bidi s) (peer_max_streams_uni s) (peer_opened_streams_bidi s)
    (peer_opened_streams_uni s) (local_max_streams_bidi s) (local_max_streams_bidi_next s)
    (local_max_streams_uni s) (local_max_streams_uni_next s) x (local_opened_streams_uni s)
    (streams_blocked_at_bidi s) (streams_blocked_at_uni s) (peer_bidi_avail_ids s)
    (peer_uni_avail_ids s) (local_bidi_avail_ids s) (local_uni_avail_ids s).
Definition with_local_opened_streams_uni x s :=
  mkCC (peer_max_streams_bidi s) (peer_max_streams_uni s) (peer_opened_streams_bidi s)
    (peer_opened_streams_uni s) (local_max_streams_bidi s) (local_max_streams_bidi_next s)
    (local_max_streams_uni s) (local_max_streams_uni_next s) (local_opened_streams_bidi s) x
    (streams_blocked_at_bidi s) (streams_blocked_at_uni s) (peer_bidi_avail_ids s)
    (peer_uni_avail_ids s) (local_bidi_avail_ids s) (local_uni_avail_ids s).
Definition with_streams_blocked_at_bidi x s :=
  mkCC (peer_max_streams_bidi s) (peer_max_streams_uni s) (peer_opened_streams_bidi s)
    (peer_opened_streams_uni s) (local_max_streams_bidi s) (local_max_streams_bidi_next s)
    (local_max_streams_uni s) (local_max_streams_uni_next s) (local_opened_streams_bidi s)
    (local_opened_streams_uni s) x (streams_blocked_at_uni s) (peer_bidi_avail_ids s)
    (peer_uni_avail_ids s) (local_bidi_avail_ids s) (local_uni_avail_ids s).
Definition with_streams_blocked_at_uni x s :=
  mkCC (peer_max_streams_bidi s) (peer_max_streams_uni s) (peer_opened_streams_bidi s)
    (peer_opened_streams_uni s) (local_max_streams_bidi s) (local_max_streams_bidi_next s)
    (local_max_streams_uni s) (local_max_streams_uni_next s) (local_opened_streams_bidi s)
    (local_opened_streams_uni s) (streams_blocked_at_bidi s) x (peer_bidi_avail_ids s)
    (peer_uni_avail_ids s) (local_bidi_avail_ids s) (local_uni_avail_ids s).
Definition with_peer_bidi_avail_ids x s :=
  mkCC (peer_max_streams_bidi s) (peer_max_streams_uni s) (peer_opened_streams_bidi s)
    (peer_opened_streams_uni s) (local_max_streams_bidi s) (local_max_streams_bidi_next s)
    (local_max_streams_uni s) (local_max_streams_uni_next s) (local_opened_streams_bidi s)
    (local_opened_streams_uni s) (streams_blocked_at_bidi s) (streams_blocked_at_uni s) x
    (peer_uni_avail_ids s) (local_bidi_avail_ids s) (local_uni_avail_ids s).
Definition with_peer_uni_avail_ids x s :=
  mkCC (peer_max_streams_bidi s) (peer_max_streams_uni s) (peer_opened_streams_bidi s)
    (peer_opened_streams_uni s) (local_max_streams_bidi s) (local_max_streams_bidi_next s)
    (local_max_streams_uni s) (local_max_streams_uni_next s) (local_opened_streams_bidi s)
    (local_opened_streams_uni s) (streams_blocked_at_bidi s) (streams_blocked_at_uni s)
    (peer_bidi_avail_ids s) x (local_bidi_avail_ids s) (local_uni_avail_ids s).
Definition with_local_bidi_avail_ids x s :=
  mkCC (peer_max_streams_bidi s) (peer_max_streams_uni s) (peer_opened_streams_bidi s)
    (peer_opened_streams_uni s) (local_max_streams_bidi s) (local_max_streams_bidi_next s)
    (local_max_streams_uni s) (local_max_streams_uni_next s) (local_opened_streams_bidi s)
    (local_opened_streams_uni s) (streams_blocked_at_bidi s) (streams_blocked_at_uni s)
    (peer_bidi_avail_ids s) (peer_uni_avail_ids s) x (local_uni_avail_ids s).
Definition with_local_uni_avail_ids x s :=
  mkCC (peer_max_streams_bidi s) (peer_max_streams_uni s) (peer_opened_streams_bidi s)
    (peer_opened_streams_uni s) (local_max_streams_bidi s) (local_max_streams_bidi_next s)
    (local_max_streams_uni s) (local_max_streams_uni_next s) (local_opened_streams_bidi s)
    (local_opened_streams_uni s) (streams_blocked_at_bidi s) (streams_blocked_at_uni s)
    (peer_bidi_avail_ids s) (peer_uni_avail_ids s) (local_bidi_avail_ids s) x.

Definition new (max_bidi max_uni : Z) : ConcurrencyControl :=
  mkCC 0 0 0 0 max_bidi max_bidi max_uni max_uni 0 0 None None
    (RangeSet.insert RangeSet.default (mkRange 0 max_bidi))
    (RangeSet.insert RangeSet.default (mkRange 0 max_uni))
    RangeSet.default RangeSet.default.

Definition insert_avail_id (ids : Range) (local bidi : bool) (s : ConcurrencyControl)
  : ConcurrencyControl :=
  match local, bidi with
  | true, true => with_local_bidi_avail_ids (RangeSet.insert (local_bidi_avail_ids s) ids) s
  | true, false => with_local_uni_avail_ids (RangeSet.insert (local_uni_avail_ids s) ids) s
  | false, true => with_peer_bidi_avail_ids (RangeSet.insert (peer_bidi_avail_ids s) ids) s
  | false, false => with_peer_uni_avail_ids (RangeSet.insert (peer_uni_avail_ids s) ids) s
  end.

Definition remove_avail_id (stream_id : Z) (is_server : bool) (s : ConcurrencyControl)
  : res ConcurrencyControl :=
  let id := Z.shiftr stream_id 2 in
  match is_local stream_id is_server, is_bidi stream_id with
  | true, true =>
      r ← RangeSet.remove_elem (local_bidi_avail_ids s) id; mret (with_local_bidi_avail_ids r s)
  | true, false =>
      r ← RangeSet.remove_elem (local_uni_avail_ids s) id; mret (with_local_uni_avail_ids r s)
  | false, true =>
      r ← RangeSet.remove_elem (peer_bidi_avail_ids s) id; mret (with_peer_bidi_avail_ids r s)
  | false, false =>
      r ← RangeSet.remove_elem (peer_uni_avail_ids s) id; mret (with_peer_uni_avail_ids r s)
  end.

(** [Some(max) > blocked_at], where [None] is the least option. *)
Definition unblocks (m : Z) (blocked_at : option Z) : bool :=
  match blocked_at with Some b => b <? m | None => true end.

Definition update_peer_max_streams (bidi : bool) (max_streams : Z) (s : ConcurrencyControl)
  : ConcurrencyControl :=
  if bidi then
    let s :=
      if peer_max_streams_bidi s <? max_streams then
        with_peer_max_streams_bidi max_streams
          (insert_avail_id (mkRange (peer_max_streams_bidi s) max_streams) true true s)
      else s in
    if unblocks (peer_max_streams_bidi s) (streams_blocked_at_bidi s)
    then with_streams_blocked_at_bidi None s else s
  else
    let s :=
      if peer_max_streams_uni s <? max_streams then
        with_peer_max_streams_uni max_streams
          (insert_avail_id (mkRange (peer_max_streams_uni s) max_streams) true false s)
      else s in
    if unblocks (peer_max_streams_uni s) (streams_blocked_at_uni s)
    then with_streams_blocked_at_uni None s else s.

Definition update_local_max_streams (bidi : bool) (s : ConcurrencyControl) : ConcurrencyControl :=
  if bidi then
    with_local_max_streams_bidi (local_max_streams_bidi_next s)
      (insert_avail_id (mkRange (local_max_streams_bidi s) (local_max_streams_bidi_next s))
         false true s)
  else
    with_local_max_streams_uni (local_max_streams_uni_next s)
      (insert_avail_id (mkRange (local_max_streams_uni s) (local_max_streams_uni_next s))
         false false s).

Definition peer_max_streams (bidi : bool) (s : ConcurrencyControl) : Z :=
  if bidi then peer_max_streams_bidi s else peer_max_streams_uni s.

Definition peer_streams_left (bidi : bool) (s : ConcurrencyControl) : res Z :=
  if bidi then sub64 (peer_max_streams_bidi s) (local_opened_streams_bidi s)
  else sub64 (peer_max_streams_uni s) (local_opened_streams_uni s).

Definition should_update_local_max_streams (bidi : bool) (s : ConcurrencyControl) : res bool :=
  let '(next, cur, opened) :=
    if bidi
    then (local_max_streams_bidi_next s, local_max_streams_bidi s, peer_opened_streams_bidi s)
    else (local_max_streams_uni_next s, local_max_streams_uni s, peer_opened_streams_uni s) in
  if next =? cur then Ok false
  else
    grow ← sub64 next cur;
    left ← sub64 cur opened;
    mret (left <? grow).

Definition increase_max_streams_credits (bidi : bool) (delta : Z) (s : ConcurrencyControl)
  : ConcurrencyControl :=
  if bidi
  then with_local_max_streams_bidi_next (sat_add64 (local_max_streams_bidi_next s) delta) s
  else with_local_max_streams_uni_next (sat_add64 (local_max_streams_uni_next s) delta) s.

Definition update_streams_blocked_at (bidi : bool) (blocked_at : option Z) (s : ConcurrencyControl)
  : ConcurrencyControl :=
  if bidi then with_streams_blocked_at_bidi blocked_at s
  else with_streams_blocked_at_uni blocked_at s.

Definition check_concurrency_limits (id : Z) (is_server : bool)
  : action Error ConcurrencyControl unit := fun s =>
  let stream_sequence := Z.shiftr id 2 + 1 in
  match is_local id is_server, is_bidi id with
  | true, true =>
      let n := Z.max (local_opened_streams_bidi s) stream_sequence in
      if peer_max_streams_bidi s <? n
      then (Err StreamLimitError, update_streams_blocked_at true (Some (peer_max_streams_bidi s)) s)
      else (Ok tt, with_local_opened_streams_bidi (Z.max (local_opened_streams_bidi s) n) s)
  | true, false =>
      let n := Z.max (local_opened_streams_uni s) stream_sequence in
      if peer_max_streams_uni s <? n
      then (Err StreamLimitError, update_streams_blocked_at false (Some (peer_max_streams_uni s)) s)
      else (Ok tt, with_local_opened_streams_uni (Z.max (local_opened_streams_uni s) n) s)
  | false, true =>
      let n := Z.max (peer_opened_streams_bidi s) stream_sequence in
      if local_max_streams_bidi s <? n then (Err StreamLimitError, s)
      else (Ok tt, with_peer_opened_streams_bidi (Z.max (peer_opened_streams_bidi s) n) s)
  | false, false =>
      let n := Z.max (peer_opened_streams_uni s) stream_sequence in
      if local_max_streams_uni s <? n then (Err StreamLimitError, s)
      else (Ok tt, with_peer_opened_streams_uni (Z.max (peer_opened_streams_uni s) n) s)
  end.

Definition is_limited (stream_id : Z) (is_server : bool) (s : ConcurrencyControl) : bool :=
  let seq := Z.shiftr stream_id 2 + 1 in
  match is_local stream_id is_server, is_bidi stream_id with
  | true, true => peer_max_streams_bidi s <? seq
  | true, false => peer_max_streams_uni s <? seq
  | false, true => local_max_streams_bidi s <? seq
  | false, false => local_max_streams_uni s <? seq
  end.

Definition is_available (stream_id : Z) (is_server : bool) (s : ConcurrencyControl) : bool :=
  let id := Z.shiftr stream_id 2 in
  match is_local stream_id is_server, is_bidi stream_id with
  | true, true => RangeSet.contains (local_bidi_avail_ids s) id
  | true, false => RangeSet.contains (local_uni_avail_ids s) id
  | false, true => RangeSet.contains (peer_bidi_avail_ids s) id
  | false, false => RangeSet.contains (peer_uni_avail_ids s) id
  end.

(** ** Invariant

    The four kinds of streams are handled alike: [limit], [opened] and [avail]
    select the fields of one kind. *)

Definition limit (l b : bool) (s : ConcurrencyControl) : Z :=
  match l, b with
  | true, true => peer_max_streams_bidi s
  | true, false => peer_max_streams_uni s
  | false, true => local_max_streams_bidi s
  | false, false => local_max_streams_uni s
  end.

Definition opened (l b : bool) (s : ConcurrencyControl) : Z :=
  match l, b with
  | true, true => local_opened_streams_bidi s
  | true, false => local_opened_streams_uni s
  | false, true => peer_opened_streams_bidi s
  | false, false => peer_opened_streams_uni s
  end.

Definition avail (l b : bool) (s : ConcurrencyControl) : RangeSet.RangeSet :=
  match l, b with
  | true, true => local_bidi_avail_ids s
  | true, false => local_uni_avail_ids s
  | false, true => peer_bidi_avail_ids s
  | false, false => peer_uni_avail_ids s
  end.

(** The next limit to advertise, for streams the peer opens. *)
Definition next_limit (b : bool) (s : ConcurrencyControl) : Z :=
  if b then local_max_streams_bidi_next s else local_max_streams_uni_next s.

(** A sequence number below the limit that is not available any more. *)
Definition used (l b : bool) (s : ConcurrencyControl) (x : Z) : Prop :=
  0 <= x < limit l b s /\ ~ RangeSet.mem (avail l b s) x.

(** Opened counts stay within the limits, available numbers below them, used
    numbers below the opened count, and the limits within 64 bits. *)
Record inv (s : ConcurrencyControl) : Prop := {
  inv_opened : forall l b, 0 <= opened l b s <= limit l b s;
  inv_limit : forall l b, limit l b s <= 18446744073709551615;
  inv_next : forall b, limit false b s <= next_limit b s <= 18446744073709551615;
  inv_avail : forall l b, RangeSet.u64_set (avail l b s) /\
    forall x, RangeSet.mem (avail l b s) x -> x < limit l b s;
  inv_used : forall l b x, used l b s x -> x < opened l b s;
}.

Lemma is_limited_spec id server s :
  is_limited id server s = (limit (is_local id server) (is_bidi id) s <? Z.shiftr id 2 + 1).
Proof. unfold is_limited. by destruct (is_local id server), (is_bidi id). Qed.

Lemma is_available_spec id server s : inv s ->
  is_available id server s = true <->
  RangeSet.mem (avail (is_local id server) (is_bidi id) s) (Z.shiftr id 2).
Proof.
  intros Hi. rewrite <- RangeSet.contains_spec.
  - unfold is_available. by destruct (is_local id server), (is_bidi id).
  - apply (inv_avail s Hi).
Qed.

(** A stream id counts as closed exactly when its number was used. *)
Lemma neither_iff_used id server s : inv s -> 0 <= id ->
  is_available id server s || is_limited id server s = false <->
  used (is_local id server) (is_bidi id) s (Z.shiftr id 2).
Proof.
  intros Hi H0. rewrite orb_false_iff, is_limited_spec, Z.ltb_ge.
  rewrite <- not_true_iff_false, is_available_spec by done.
  assert (0 <= Z.shiftr id 2) by (by apply Z.shiftr_nonneg). unfold used. intuition lia.
Qed.

(** [same_but l b s s']: the two states agree on every kind but one. *)
Definition same_but (l b : bool) (s s' : ConcurrencyControl) : Prop :=
  forall l' b', (l', b') <> (l, b) ->
    limit l' b' s' = limit l' b' s /\ opened l' b' s' = opened l' b' s /\ avail l' b' s' = avail l' b' s.

(** Raising the limit of one kind and making the new numbers available keeps
    the used ones. *)
Lemma raise_limit_inv l b m s s' :
  inv s -> limit l b s <= m <= 18446744073709551615 ->
  same_but l b s s' -> limit l b s' = m -> opened l b s' = opened l b s ->
  avail l b s' = RangeSet.insert (avail l b s) (mkRange (limit l b s) m) ->
  (forall b', limit false b' s' <= next_limit b' s' <= 18446744073709551615) ->
  inv s' /\ (forall l' b', limit l' b' s <= limit l' b' s') /\
  forall l' b' x, used l' b' s' x <-> used l' b' s x.
Proof.
  intros Hi Hm Hsame Hl Ho Ha Hn. pose proof (inv_opened s Hi l b) as Hop.
  destruct (inv_avail s Hi l b) as [Hu Hx].
  destruct (RangeSet.u64_set_insert _ (mkRange (limit l b s) m) Hu) as [Hu' Hx']; [cbn; lia..|].
  rewrite <- Ha in Hu', Hx'. unfold RangeSet.in_range in Hx'. cbn [start end_] in Hx'.
  assert (forall l' b', (l', b') = (l, b) \/ (l', b') <> (l, b)) as Hdec
    by (intros [] []; destruct l, b; (left; reflexivity) || (right; congruence)).
  assert (forall l' b' x, used l' b' s' x <-> used l' b' s x) as Hused.
  { intros l' b' x. destruct (Hdec l' b') as [[= -> ->]|Hne].
    - unfold used. rewrite Hl, Hx'. specialize (Hx x). intuition lia.
    - destruct (Hsame _ _ Hne) as (H1 & _ & H3). unfold used. by rewrite H1, H3. }
  assert (forall l' b', limit l' b' s <= limit l' b' s') as Hge.
  { intros l' b'. destruct (Hdec l' b') as [[= -> ->]|Hne]; [lia|].
    destruct (Hsame _ _ Hne) as (-> & _). lia. }
  split; [|done]. split; auto.
  - intros l' b'. destruct (Hdec l' b') as [[= -> ->]|Hne]; [lia|].
    destruct (Hsame _ _ Hne) as (-> & -> & _). apply Hi.
  - intros l' b'. destruct (Hdec l' b') as [[= -> ->]|Hne]; [lia|].
    destruct (Hsame _ _ Hne) as (-> & _). apply Hi.
  - intros l' b'. destruct (Hdec l' b') as [[= -> ->]|Hne].
    + split; [done|]. intros x [Hm'|Hm']%Hx'; [apply Hx in Hm'; lia|lia].
    + destruct (Hsame _ _ Hne) as (-> & _ & ->). apply Hi.
  - intros l' b' x Hu1. apply Hused in Hu1. apply (inv_used s Hi) in Hu1.
    destruct (Hdec l' b') as [[= -> ->]|Hne]; [lia|]. by destruct (Hsame _ _ Hne) as (_ & -> & _).
Qed.

(** Changing only the blocked marks changes nothing here. *)
Definition same_counts (s s' : ConcurrencyControl) : Prop :=
  (forall l b, limit l b s' = limit l b s /\ opened l b s' = opened l b s /\ avail l b s' = avail l b s) /\
  forall b, next_limit b s' = next_limit b s.

Lemma same_counts_used s s' l b x : same_counts s s' -> used l b s' x <-> used l b s x.
Proof. intros [Hs _]. unfold used. by destruct (Hs l b) as (-> & _ & ->). Qed.

Lemma same_counts_inv s s' : same_counts s s' -> inv s -> inv s'.
Proof.
  intros Hc [H1 H2 H3 H4 H5]. pose proof Hc as [Hs Hn]. split.
  - intros l b. destruct (Hs l b) as (-> & -> & _). apply H1.
  - intros l b. destruct (Hs l b) as (-> & _). apply H2.
  - intros b. rewrite Hn. destruct (Hs false b) as (-> & _). apply H3.
  - intros l b. destruct (Hs l b) as (-> & _ & ->). apply H4.
  - intros l b x Hu. destruct (Hs l b) as (_ & -> & _). apply H5. by apply (same_counts_used s s').
Qed.

(** [grows s s']: limits only rise and used numbers stay used. *)
Record grows (s s' : ConcurrencyControl) : Prop := {
  grows_inv : inv s';
  grows_limit : forall l b, limit l b s <= limit l b s';
  grows_used : forall l b x, used l b s x -> used l b s' x;
}.

Lemma grows_refl s : inv s -> grows s s.
Proof. intros Hi. by split. Qed.

Lemma grows_trans s1 s2 s3 : grows s1 s2 -> grows s2 s3 -> grows s1 s3.
Proof.
  intros [? L1 U1] [? L2 U2]. split; auto. intros l b. specialize (L1 l b). specialize (L2 l b). lia.
Qed.

Lemma same_counts_grows s s' : same_counts s s' -> inv s -> grows s s'.
Proof.
  intros Hc Hi. split; [by eapply same_counts_inv|..].
  - intros l b. destruct Hc as [Hs _]. destruct (Hs l b) as (-> & _). done.
  - intros l b x. by apply same_counts_used.
Qed.

Lemma update_streams_blocked_at_grows b o s : inv s -> grows s (update_streams_blocked_at b o s).
Proof. apply same_counts_grows. split; [intros [] []|intros []]; by destruct b. Qed.

Lemma update_peer_max_streams_grows b m s :
  inv s -> m <= 18446744073709551615 -> grows s (update_peer_max_streams b m s).
Proof.
  intros Hi Hm. set (s1 := if limit true b s <? m then
    (if b then with_peer_max_streams_bidi else with_peer_max_streams_uni) m
      (insert_avail_id (mkRange (limit true b s) m) true b s) else s).
  assert (grows s s1) as H1.
  { subst s1. destruct (Z.ltb_spec (limit true b s) m); [|by apply grows_refl].
    edestruct (raise_limit_inv true b m s) as (Hi' & Hl & Hu); [done|lia|..].
    6: { split; [exact Hi'|exact Hl|]. intros. by apply Hu. }
    all: try (destruct b; reflexivity).
    - intros [] [] ?; destruct b; try done; congruence.
    - intros b'. pose proof (inv_next s Hi b') as Hn. by destruct b, b'. }
  eapply grows_trans; [exact H1|].
  assert (update_peer_max_streams b m s =
    if unblocks (limit true b s1) ((if b then streams_blocked_at_bidi else streams_blocked_at_uni) s1)
    then update_streams_blocked_at b None s1 else s1) as -> by (by destruct b).
  destruct (unblocks _ _); [apply update_streams_blocked_at_grows|apply grows_refl]; apply H1.
Qed.

Lemma update_local_max_streams_grows b s : inv s -> grows s (update_local_max_streams b s).
Proof.
  intros Hi. pose proof (inv_next s Hi b) as Hn.
  edestruct (raise_limit_inv false b (next_limit b s) s) as (Hi' & Hl & Hu); [done|lia|..].
  6: { split; [exact Hi'|exact Hl|]. intros. by apply Hu. }
  all: try (destruct b; reflexivity).
  - intros [] [] ?; destruct b; try done; congruence.
  - intros b'. pose proof (inv_next s Hi b') as Hn'. destruct b, b'; cbn in *; lia.
Qed.

Lemma increase_max_streams_credits_grows b s :
  inv s -> grows s (increase_max_streams_credits b 1 s).
Proof.
  intros [H1 H2 H3 H4 H5].
  assert (forall l b', limit l b' (increase_max_streams_credits b 1 s) = limit l b' s /\
    opened l b' (increase_max_streams_credits b 1 s) = opened l b' s /\
    avail l b' (increase_max_streams_credits b 1 s) = avail l b' s) as Hs
    by (intros [] []; by destruct b).
  assert (forall l b' x, used l b' (increase_max_streams_credits b 1 s) x <-> used l b' s x) as Hu.
  { intros l b' x. unfold used. by destruct (Hs l b') as (-> & _ & ->). }
  split; [split|..].
  - intros l b'. destruct (Hs l b') as (-> & -> & _). apply H1.
  - intros l b'. destruct (Hs l b') as (-> & _). apply H2.
  - intros b'. destruct (Hs false b') as (-> & _). specialize (H3 b').
    destruct b, b'; cbn in *; unfold sat_add64; lia.
  - intros l b'. destruct (Hs l b') as (-> & _ & ->). apply H4.
  - intros l b' x Hx. destruct (Hs l b') as (_ & -> & _). by apply H5, Hu.
  - intros l b'. destruct (Hs l b') as (-> & _). done.
  - intros l b' x. apply Hu.
Qed.

(** The limit check: refused exactly when the number is over the limit, and
    then nothing but a blocked mark changes. *)
Lemma check_concurrency_limits_spec id server s : inv s -> 0 <= id ->
  let l := is_local id server in let b := is_bidi id in
  match check_concurrency_limits id server s with
  | (Ok _, s') => Z.shiftr id 2 < limit l b s /\ grows s s' /\
      Z.shiftr id 2 < opened l b s' /\ (forall l' b' x, used l' b' s' x <-> used l' b' s x)
  | (Err e, s') => e = StreamLimitError /\ limit l b s <= Z.shiftr id 2 /\ grows s s'
  | (Panic, _) => False
  end.
Proof.
  intros Hi H0 l b. assert (0 <= Z.shiftr id 2) as Hs by (by apply Z.shiftr_nonneg).
  pose proof (inv_opened s Hi l b) as Ho.
  assert (check_concurrency_limits id server s =
    let n := Z.max (opened l b s) (Z.shiftr id 2 + 1) in
    if limit l b s <? n
    then (Err StreamLimitError, if l then update_streams_blocked_at b (Some (limit l b s)) s else s)
    else (Ok tt, (match l, b with
                  | true, true => with_local_opened_streams_bidi
                  | true, false => with_local_opened_streams_uni
                  | false, true => with_peer_opened_streams_bidi
                  | false, false => with_peer_opened_streams_uni end) (Z.max (opened l b s) n) s)) as ->.
  { unfold check_concurrency_limits. subst l b. by destruct (is_local id server), (is_bidi id). }
  cbn zeta. destruct (Z.ltb_spec (limit l b s) (Z.max (opened l b s) (Z.shiftr id 2 + 1))).
  - split_and!; [done|lia|]. destruct l; [by apply update_streams_blocked_at_grows|by apply grows_refl].
  - split; [lia|]. match goal with |- context [grows s ?t] => set (s' := t) end.
    assert (forall l' b', limit l' b' s' = limit l' b' s /\ avail l' b' s' = avail l' b' s /\
      opened l' b' s' = if Bool.eqb l' l && Bool.eqb b' b
                        then Z.max (opened l b s) (Z.max (opened l b s) (Z.shiftr id 2 + 1)) else opened l' b' s) as Hf
      by (intros [] []; subst s'; by destruct l, b).
    assert (forall b', next_limit b' s' = next_limit b' s) as Hn
      by (intros []; subst s'; by destruct l, b).
    assert (forall l' b' x, used l' b' s' x <-> used l' b' s x) as Hu.
    { intros l' b' x. unfold used. by destruct (Hf l' b') as (-> & -> & _). }
    assert (forall l' b', opened l' b' s <= opened l' b' s' <= limit l' b' s) as Hop.
    { intros l' b'. destruct (Hf l' b') as (_ & _ & ->). pose proof (inv_opened s Hi l' b').
      destruct (Bool.eqb l' l && Bool.eqb b' b) eqn:He; [|lia].
      apply andb_true_iff in He as [->%eqb_prop ->%eqb_prop]. lia. }
    split; [|split].
    + destruct Hi as [H1 H2 H3 H4 H5]. split; [split|..].
      * intros l' b'. destruct (Hf l' b') as (-> & _). specialize (H1 l' b'). specialize (Hop l' b'). lia.
      * intros l' b'. destruct (Hf l' b') as (-> & _). apply H2.
      * intros b'. rewrite Hn. destruct (Hf false b') as (-> & _). apply H3.
      * intros l' b'. destruct (Hf l' b') as (-> & -> & _). apply H4.
      * intros l' b' x Hx. apply Hu, H5 in Hx. specialize (Hop l' b'). lia.
      * intros l' b'. destruct (Hf l' b') as (-> & _). done.
      * intros l' b' x. apply Hu.
    + destruct (Hf l b) as (_ & _ & ->). rewrite !eqb_reflx. cbn. lia.
    + done.
Qed.

Lemma remove_avail_id_spec id server s : inv s -> 0 <= id ->
  let l := is_local id server in let b := is_bidi id in
  Z.shiftr id 2 < opened l b s ->
  exists s', remove_avail_id id server s = Ok s' /\ grows s s' /\
    forall l' b' x, used l' b' s' x <-> used l' b' s x \/ (l' = l /\ b' = b /\ x = Z.shiftr id 2).
Proof.
  intros Hi H0 l b Hlt. assert (0 <= Z.shiftr id 2) as Hs by (by apply Z.shiftr_nonneg).
  pose proof (inv_opened s Hi l b) as Ho. pose proof (inv_limit s Hi l b) as Hl.
  destruct (inv_avail s Hi l b) as [Hua Hxa].
  set (i := Z.shiftr id 2) in *. set (r := mkRange i (i + 1)).
  destruct (RangeSet.u64_set_remove (avail l b s) r Hua) as [Hu' Hx']; [done|].
  unfold RangeSet.in_range in Hx'. cbn [start end_ r] in Hx'.
  set (s' := (match l, b with
              | true, true => with_local_bidi_avail_ids
              | true, false => with_local_uni_avail_ids
              | false, true => with_peer_bidi_avail_ids
              | false, false => with_peer_uni_avail_ids end) (RangeSet.remove (avail l b s) r) s).
  assert (remove_avail_id id server s = Ok s') as ->.
  { unfold remove_avail_id, RangeSet.remove_elem. fold l b i. rewrite add64_ok by lia.
    subst s'. by destruct l, b. }
  exists s'. split; [done|].
  assert (forall l' b', limit l' b' s' = limit l' b' s /\ opened l' b' s' = opened l' b' s /\
    avail l' b' s' = if Bool.eqb l' l && Bool.eqb b' b then RangeSet.remove (avail l b s) r else avail l' b' s) as Hf
    by (intros [] []; subst s'; by destruct l, b).
  assert (forall b', next_limit b' s' = next_limit b' s) as Hn by (intros []; subst s'; by destruct l, b).
  assert (forall l' b' x, used l' b' s' x <-> used l' b' s x \/ (l' = l /\ b' = b /\ x = i)) as Hu.
  { intros l' b' x. unfold used. destruct (Hf l' b') as (-> & _ & ->).
    destruct (Bool.eqb l' l && Bool.eqb b' b) eqn:He.
    - apply andb_true_iff in He as [->%eqb_prop ->%eqb_prop]. rewrite Hx'.
      destruct (decide (x = i)) as [->|]; [|intuition lia]. intuition lia.
    - split; [by left|]. intros [?|(-> & -> & ->)]; [done|]. by rewrite !eqb_reflx in He. }
  split; [|done]. destruct Hi as [H1 H2 H3 H4 H5]. split; [split|..].
  - intros l' b'. destruct (Hf l' b') as (-> & -> & _). apply H1.
  - intros l' b'. destruct (Hf l' b') as (-> & _). apply H2.
  - intros b'. rewrite Hn. destruct (Hf false b') as (-> & _). apply H3.
  - intros l' b'. destruct (Hf l' b') as (-> & _ & ->).
    destruct (Bool.eqb l' l && Bool.eqb b' b) eqn:He; [|apply H4].
    apply andb_true_iff in He as [->%eqb_prop ->%eqb_prop]. split; [done|].
    intros x [Hx _]%Hx'. auto.
  - intros l' b' x [Hx|(-> & -> & ->)]%Hu; destruct (Hf l' b') as (_ & -> & _) || destruct (Hf l b) as (_ & -> & _);
      [by apply H5|done].
  - intros l' b'. destruct (Hf l' b') as (-> & _). done.
  - intros l' b' x Hx. apply Hu. by left.
Qed.

Lemma cc_inv_new mb mu :
  0 <= mb <= 18446744073709551615 -> 0 <= mu <= 18446744073709551615 -> inv (new mb mu).
Proof.
  intros Hb Hm.
  destruct (RangeSet.u64_set_insert _ (mkRange 0 mb) RangeSet.u64_set_default) as [Ub Xb]; [cbn; lia..|].
  destruct (RangeSet.u64_set_insert _ (mkRange 0 mu) RangeSet.u64_set_default) as [Um Xm]; [cbn; lia..|].
  unfold RangeSet.in_range in Xb, Xm. cbn [start end_] in Xb, Xm.
  assert (forall x, ~ RangeSet.mem RangeSet.default x) as Hno by (intros x ?%RangeSet.mem_list_nil; done).
  split.
  - intros [] []; cbn; lia.
  - intros [] []; cbn; lia.
  - intros []; cbn; lia.
  - intros [] []; cbn; (split; [done || apply RangeSet.u64_set_default|]).
    1,2: intros x Hx; by destruct (Hno x).
    + intros x [Hx|Hx]%Xb; [by destruct (Hno x)|lia].
    + intros x [Hx|Hx]%Xm; [by destruct (Hno x)|lia].
  - intros [] [] x [Hx Hn]; cbn in *; try lia.
    + destruct Hn. apply Xb. right. lia.
    + destruct Hn. apply Xm. right. lia.
Qed.


End ConcurrencyControl.

Module SendCapacity.

Record SendCapacity := mkCap {
  max_data : Z;
  tx_data : Z;
  capacity : Z;
  blocked_at : option Z;
}.

Definition default : SendCapacity := mkCap 0 0 0 None.

Definition update_max_data (md : Z) (s : SendCapacity) : SendCapacity :=
  mkCap (Z.max (max_data s) md) (tx_data s) (capacity s) (blocked_at s).

Definition update_capacity (s : SendCapacity) : res SendCapacity :=
  c ← sub64 (max_data s) (tx_data s);
  mret (mkCap (max_data s) (tx_data s) c (blocked_at s)).

Definition update_blocked_at (b : option Z) (s : SendCapacity) : SendCapacity :=
  mkCap (max_data s) (tx_data s) (capacity s) b.

End SendCapacity.

(** [BinaryHeap<Reverse<u64>>] pops the least id first: it is kept in ascending
    order. *)
Module StreamPriorityQueue.

Record StreamPriorityQueue := mkQueue { non_incremental : list Z; incremental : list Z }.

Definition default : StreamPriorityQueue := mkQueue [] [].

Fixpoint heap_push (x : Z) (h : list Z) : list Z :=
  match h with
  | [] => [x]
  | y :: h' => if x <=? y then x :: h else y :: heap_push x h'
  end.

End StreamPriorityQueue.
