(* ===== verification/Events.v ===== *)
(** * Events for the endpoint

    Models [Event] and [EventQueue] of [src/src/lib.rs].  The queue is [None]
    until it is enabled. *)

From S2P Require Import Prelude.

Inductive Event :=
| ConnectionEstablished
| NewToken (token : list Z)
| ScidToAdvertise (n : Z)
| ScidRetired (cid : list Z)
| DcidAdvertised (token : list Z)
| DcidRetired (token : list Z)
| ResetTokenAdvertised (token : list Z)
| StreamCreated (id : Z)
| StreamClosed (id : Z)
| DatagramReceived.

Module EventQueue.

Definition EventQueue : Type := option (list Event).

Definition enable (q : EventQueue) : EventQueue := Some [].

(** Whether the event was queued, and the queue. *)
Definition add (e : Event) (q : EventQueue) : bool * EventQueue :=
  match q with
  | Some evs => (true, Some (evs ++ [e]))
  | None => (false, None)
  end.

Definition poll (q : EventQueue) : option Event * EventQueue :=
  match q with
  | Some (e :: evs) => (Some e, Some evs)
  | Some [] => (None, Some [])
  | None => (None, None)
  end.

Definition is_empty (q : EventQueue) : bool :=
  match q with Some (_ :: _) => false | _ => true end.

End EventQueue.
