(* ===== verification/Stream.v ===== *)
(** * One stream

    Models [Stream] of [src/src/connection/stream/stream_state.rs]: the receive
    and send buffers of a stream with its priority and flags.  The three bit
    flags are booleans; the application context and the trace id, which nothing
    here reads, are left out. *)

From S2P Require Import Prelude.
From S2P Require Import Error.
From S2P Require Import RecvBuf.
From S2P Require Import SendBuf.

Module Stream.

Record Stream := mkStream {
  bidi : bool;
  local : bool;
  urgency : Z;
  incremental : bool;
  recv : RecvBuf.RecvBuf;
  send : SendBuf.SendBuf;
  write_thresh : Z;
  want_read : bool;
  want_write : bool;
  closed : bool;
}.

Definition with_bidi x s :=
  mkStream x (local s) (urgency s) (incremental s) (recv s) (send s) (write_thresh s)
    (want_read s) (want_write s) (closed s).
Definition with_local x s :=
  mkStream (bidi s) x (urgency s) (incremental s) (recv s) (send s) (write_thresh s)
    (want_read s) (want_write s) (closed s).
Definition with_urgency x s :=
  mkStream (bidi s) (local s) x (incremental s) (recv s) (send s) (write_thresh s) (want_read s)
    (want_write s) (closed s).
Definition with_incremental x s :=
  mkStream (bidi s) (local s) (urgency s) x (recv s) (send s) (write_thresh s) (want_read s)
    (want_write s) (closed s).
Definition with_recv x s :=
  mkStream (bidi s) (local s) (urgency s) (incremental s) x (send s) (write_thresh s)
    (want_read s) (want_write s) (closed s).
Definition with_send x s :=
  mkStream (bidi s) (local s) (urgency s) (incremental s) (recv s) x (write_thresh s)
    (want_read s) (want_write s) (closed s).
Definition with_write_thresh x s :=
  mkStream (bidi s) (local s) (urgency s) (incremental s) (recv s) (send s) x (want_read s)
    (want_write s) (closed s).
Definition with_want_read x s :=
  mkStream (bidi s) (local s) (urgency s) (incremental s) (recv s) (send s) (write_thresh s) x
    (want_write s) (closed s).
Definition with_want_write x s :=
  mkStream (bidi s) (local s) (urgency s) (incremental s) (recv s) (send s) (write_thresh s)
    (want_read s) x (closed s).
Definition with_closed x s :=
  mkStream (bidi s) (local s) (urgency s) (incremental s) (recv s) (send s) (write_thresh s)
    (want_read s) (want_write s) x.

Definition new (b l : bool) (max_tx_data max_rx_data max_window : Z) : Stream :=
  mkStream b l 127 true (RecvBuf.new max_rx_data max_window) (SendBuf.new max_tx_data) 1
    (b || negb l) (b || l) false.

Definition is_readable (s : Stream) : bool := RecvBuf.ready (recv s).

Definition is_writable (s : Stream) : res bool :=
  if SendBuf.is_fin (send s) then Ok false
  else if SendBuf.is_shutdown (send s) then Ok false
  else
    n ← add64 (SendBuf.write_off (send s)) (write_thresh s);
    mret (n <=? SendBuf.max_data (send s)).

Definition is_sendable (s : Stream) : bool := SendBuf.ready (send s).

Definition is_complete (s : Stream) : bool :=
  match bidi s, local s with
  | true, _ => SendBuf.is_complete (send s) && RecvBuf.is_complete (recv s)
  | false, true => SendBuf.is_complete (send s)
  | false, false => RecvBuf.is_complete (recv s)
  end.

Definition is_draining (s : Stream) : bool := RecvBuf.is_shutdown (recv s).
Definition is_wantwrite (s : Stream) : bool := want_write s.
Definition is_wantread (s : Stream) : bool := want_read s.
Definition is_closed (s : Stream) : bool := closed s.

Definition mark_wantwrite (flag : bool) (s : Stream) : res Stream :=
  if negb (bidi s) && negb (local s) then Err InternalError else Ok (with_want_write flag s).
Definition mark_wantread (flag : bool) (s : Stream) : res Stream :=
  if negb (bidi s) && local s then Err InternalError else Ok (with_want_read flag s).
Definition mark_closed (s : Stream) : Stream := with_closed true s.

End Stream.
