(* ===== verification/StreamMap.v ===== *)
(** * The streams of a connection

    Models [StreamMap] of [src/src/connection/stream/mod.rs]: creation of
    streams, the application's operations on them, the handlers of stream-related
    frames, and the queues of what is to be sent.  Hash maps and sets are finite
    maps and sets; the application contexts and trace ids are left out.  The
    theorems are in [StreamMapProps]. *)

From stdpp Require Import gmap.
From S2P Require Import Prelude.
From S2P Require Import Error.
From S2P Require Import Time.
From S2P Require Import Codec.
From S2P Require Import Btree.
From S2P Require Import Ranges.
From S2P Require Import FlowControl.
From S2P Require Import RecvBuf.
From S2P Require Import SendBuf.
From S2P Require Import Concurrency.
From S2P Require Import Events.
From S2P Require Import Stream.

(** [stream/transport_params.rs] *)
Record StreamTransportParams := mkSTP {
  initial_max_data : Z;
  initial_max_stream_data_bidi_local : Z;
  initial_max_stream_data_bidi_remote : Z;
  initial_max_stream_data_uni : Z;
  initial_max_streams_bidi : Z;
  initial_max_streams_uni : Z;
}.

Inductive Shutdown := Read | Write.

(** [crate::MAX_STREAMS_PER_TYPE] *)
Definition MAX_STREAMS_PER_TYPE : Z := 1152921504606846976.

Module StreamMap.

Record StreamMap := mkMap {
  is_server : bool;
  streams : gmap Z Stream.Stream;
  sendable : list (Z * StreamPriorityQueue.StreamPriorityQueue);
  readable : gset Z;
  writable : gset Z;
  reset_ : gmap Z (Z * Z);
  stopped_ : gmap Z Z;
  almost_full_ : gset Z;
  data_blocked : gmap Z Z;
  concurrency_control : ConcurrencyControl.ConcurrencyControl;
  flow_control : FlowControl.FlowControl;
  send_capacity : SendCapacity.SendCapacity;
  max_stream_window : Z;
  rx_almost_full : bool;
  next_stream_id_bidi : Z;
  next_stream_id_uni : Z;
  peer_transport_params : StreamTransportParams;
  local_transport_params : StreamTransportParams;
  events : EventQueue.EventQueue;
}.

Definition with_is_server x s :=
  mkMap x (streams s) (sendable s) (readable s) (writable s) (reset_ s) (stopped_ s)
    (almost_full_ s) (data_blocked s) (concurrency_control s) (flow_control s) (send_capacity s)
    (max_stream_window s) (rx_almost_full s) (next_stream_id_bidi s) (next_stream_id_uni s)
    (peer_transport_params s) (local_transport_params s) (events s).
Definition with_streams x s :=
  mkMap (is_server s) x (sendable s) (readable s) (writable s) (reset_ s) (stopped_ s)
    (almost_full_ s) (data_blocked s) (concurrency_control s) (flow_control s) (send_capacity s)
    (max_stream_window s) (rx_almost_full s) (next_stream_id_bidi s) (next_stream_id_uni s)
    (peer_transport_params s) (local_transport_params s) (events s).
Definition with_sendable x s :=
  mkMap (is_server s) (streams s) x (readable s) (writable s) (reset_ s) (stopped_ s)
    (almost_full_ s) (data_blocked s) (concurrency_control s) (flow_control s) (send_capacity s)
    (max_stream_window s) (rx_almost_full s) (next_stream_id_bidi s) (next_stream_id_uni s)
    (peer_transport_params s) (local_transport_params s) (events s).
Definition with_readable x s :=
  mkMap (is_server s) (streams s) (sendable s) x (writable s) (reset_ s) (stopped_ s)
    (almost_full_ s) (data_blocked s) (concurrency_control s) (flow_control s) (send_capacity s)
    (max_stream_window s) (rx_almost_full s) (next_stream_id_bidi s) (next_stream_id_uni s)
    (peer_transport_params s) (local_transport_params s) (events s).
Definition with_writable x s :=
  mkMap (is_server s) (streams s) (sendable s) (readable s) x (reset_ s) (stopped_ s)
    (almost_full_ s) (data_blocked s) (concurrency_control s) (flow_control s) (send_capacity s)
    (max_stream_window s) (rx_almost_full s) (next_stream_id_bidi s) (next_stream_id_uni s)
    (peer_transport_params s) (local_transport_params s) (events s).
Definition with_reset_ x s :=
  mkMap (is_server s) (streams s) (sendable s) (readable s) (writable s) x (stopped_ s)
    (almost_full_ s) (data_blocked s) (concurrency_control s) (flow_control s) (send_capacity s)
    (max_stream_window s) (rx_almost_full s) (next_stream_id_bidi s) (next_stream_id_uni s)
    (peer_transport_params s) (local_transport_params s) (events s).
Definition with_stopped_ x s :=
  mkMap (is_server s) (streams s) (sendable s) (readable s) (writable s) (reset_ s) x
    (almost_full_ s) (data_blocked s) (concurrency_control s) (flow_control s) (send_capacity s)
    (max_stream_window s) (rx_almost_full s) (next_stream_id_bidi s) (next_stream_id_uni s)
    (peer_transport_params s) (local_transport_params s) (events s).
Definition with_almost_full_ x s :=
  mkMap (is_server s) (streams s) (sendable s) (readable s) (writable s) (reset_ s) (stopped_ s)
    x (data_blocked s) (concurrency_control s) (flow_control s) (send_capacity s)
    (max_stream_window s) (rx_almost_full s) (next_stream_id_bidi s) (next_stream_id_uni s)
    (peer_transport_params s) (local_transport_params s) (events s).
Definition with_data_blocked x s :=
  mkMap (is_server s) (streams s) (sendable s) (readable s) (writable s) (reset_ s) (stopped_ s)
    (almost_full_ s) x (concurrency_control s) (flow_control s) (send_capacity s)
    (max_stream_window s) (rx_almost_full s) (next_stream_id_bidi s) (next_stream_id_uni s)
    (peer_transport_params s) (local_transport_params s) (events s).
Definition with_concurrency_control x s :=
  mkMap (is_server s) (streams s) (sendable s) (readable s) (writable s) (reset_ s) (stopped_ s)
    (almost_full_ s) (data_blocked s) x (flow_control s) (send_capacity s) (max_stream_window s)
    (rx_almost_full s) (next_stream_id_bidi s) (next_stream_id_uni s) (peer_transport_params s)
    (local_transport_params s) (events s).
Definition with_flow_control x s :=
  mkMap (is_server s) (streams s) (sendable s) (readable s) (writable s) (reset_ s) (stopped_ s)
    (almost_full_ s) (data_blocked s) (concurrency_control s) x (send_capacity s)
    (max_stream_window s) (rx_almost_full s) (next_stream_id_bidi s) (next_stream_id_uni s)
    (peer_transport_params s) (local_transport_params s) (events s).
Definition with_send_capacity x s :=
  mkMap (is_server s) (streams s) (sendable s) (readable s) (writable s) (reset_ s) (stopped_ s)
    (almost_full_ s) (data_blocked s) (concurrency_control s) (flow_control s) x
    (max_stream_window s) (rx_almost_full s) (next_stream_id_bidi s) (next_stream_id_uni s)
    (peer_transport_params s) (local_transport_params s) (events s).
Definition with_max_stream_window x s :=
  mkMap (is_server s) (streams s) (sendable s) (readable s) (writable s) (reset_ s) (stopped_ s)
    (almost_full_ s) (data_blocked s) (concurrency_control s) (flow_control s) (send_capacity s)
    x (rx_almost_full s) (next_stream_id_bidi s) (next_stream_id_uni s)
    (peer_transport_params s) (local_transport_params s) (events s).
Definition with_rx_almost_full x s :=
  mkMap (is_server s) (streams s) (sendable s) (readable s) (writable s) (reset_ s) (stopped_ s)
    (almost_full_ s) (data_blocked s) (concurrency_control s) (flow_control s) (send_capacity s)
    (max_stream_window s) x (next_stream_id_bidi s) (next_stream_id_uni s)
    (peer_transport_params s) (local_transport_params s) (events s).
Definition with_next_stream_id_bidi x s :=
  mkMap (is_server s) (streams s) (sendable s) (readable s) (writable s) (reset_ s) (stopped_ s)
    (almost_full_ s) (data_blocked s) (concurrency_control s) (flow_control s) (send_capacity s)
    (max_stream_window s) (rx_almost_full s) x (next_stream_id_uni s) (peer_transport_params s)
    (local_transport_params s) (events s).
Definition with_next_stream_id_uni x s :=
  mkMap (is_server s) (streams s) (sendable s) (readable s) (writable s) (reset_ s) (stopped_ s)
    (almost_full_ s) (data_blocked s) (concurrency_control s) (flow_control s) (send_capacity s)
    (max_stream_window s) (rx_almost_full s) (next_stream_id_bidi s) x (peer_transport_params s)
    (local_transport_params s) (events s).
Definition with_peer_transport_params x s :=
  mkMap (is_server s) (streams s) (sendable s) (readable s) (writable s) (reset_ s) (stopped_ s)
    (almost_full_ s) (data_blocked s) (concurrency_control s) (flow_control s) (send_capacity s)
    (max_stream_window s) (rx_almost_full s) (next_stream_id_bidi s) (next_stream_id_uni s) x
    (local_transport_params s) (events s).
Definition with_local_transport_params x s :=
  mkMap (is_server s) (streams s) (sendable s) (readable s) (writable s) (reset_ s) (stopped_ s)
    (almost_full_ s) (data_blocked s) (concurrency_control s) (flow_control s) (send_capacity s)
    (max_stream_window s) (rx_almost_full s) (next_stream_id_bidi s) (next_stream_id_uni s)
    (peer_transport_params s) x (events s).
Definition with_events x s :=
  mkMap (is_server s) (streams s) (sendable s) (readable s) (writable s) (reset_ s) (stopped_ s)
    (almost_full_ s) (data_blocked s) (concurrency_control s) (flow_control s) (send_capacity s)
    (max_stream_window s) (rx_almost_full s) (next_stream_id_bidi s) (next_stream_id_uni s)
    (peer_transport_params s) (local_transport_params s) x.

Definition new (server : bool) (max_connection_window msw : Z) (lp : StreamTransportParams)
  : StreamMap :=
  mkMap server ∅ [] ∅ ∅ ∅ ∅ ∅ ∅
    (ConcurrencyControl.new (initial_max_streams_bidi lp) (initial_max_streams_uni lp))
    (FlowControl.new (initial_max_data lp) max_connection_window)
    SendCapacity.default msw false
    (if server then 1 else 0) (if server then 3 else 2)
    (mkSTP 0 0 0 0 0 0) lp None.

(** Write back a stream that was mutated through [get_mut]. *)
Definition put_stream (id : Z) (st : Stream.Stream) (s : StreamMap) : StreamMap :=
  with_streams (<[id := st]> (streams s)) s.

(** ** Marks *)

Definition mark_readable (id : Z) (b : bool) (s : StreamMap) : StreamMap :=
  with_readable (if b then {[id]} ∪ readable s else readable s ∖ {[id]}) s.
Definition mark_writable (id : Z) (b : bool) (s : StreamMap) : StreamMap :=
  with_writable (if b then {[id]} ∪ writable s else writable s ∖ {[id]}) s.
Definition mark_almost_full (id : Z) (b : bool) (s : StreamMap) : StreamMap :=
  with_almost_full_ (if b then {[id]} ∪ almost_full_ s else almost_full_ s ∖ {[id]}) s.
Definition mark_blocked (id : Z) (b : bool) (o : Z) (s : StreamMap) : StreamMap :=
  with_data_blocked (if b then <[id := o]> (data_blocked s) else delete id (data_blocked s)) s.
Definition mark_reset (id : Z) (b : bool) (error_code final_size : Z) (s : StreamMap) : StreamMap :=
  with_reset_ (if b then <[id := (error_code, final_size)]> (reset_ s) else delete id (reset_ s)) s.
Definition mark_stopped (id : Z) (b : bool) (error_code : Z) (s : StreamMap) : StreamMap :=
  with_stopped_ (if b then <[id := error_code]> (stopped_ s) else delete id (stopped_ s)) s.

Definition update_data_blocked_at (b : option Z) (s : StreamMap) : StreamMap :=
  with_send_capacity (SendCapacity.update_blocked_at b (send_capacity s)) s.
Definition update_streams_blocked_at (bidi : bool) (b : option Z) (s : StreamMap) : StreamMap :=
  with_concurrency_control
    (ConcurrencyControl.update_streams_blocked_at bidi b (concurrency_control s)) s.

(** ** The sendable queue *)

Definition push_sendable (id urgency : Z) (incremental : bool) (s : StreamMap) : StreamMap :=
  let q := default StreamPriorityQueue.default (Btree.get urgency (sendable s)) in
  let q :=
    if negb incremental then
      StreamPriorityQueue.mkQueue
        (StreamPriorityQueue.heap_push id (StreamPriorityQueue.non_incremental q))
        (StreamPriorityQueue.incremental q)
    else
      StreamPriorityQueue.mkQueue (StreamPriorityQueue.non_incremental q)
        (StreamPriorityQueue.incremental q ++ [id]) in
  with_sendable (Btree.insert urgency q (sendable s)) s.

Definition peek_sendable (s : StreamMap) : option Z * StreamMap :=
  match Btree.first_key_value (sendable s) with
  | None => (None, s)
  | Some (u, q) =>
      match StreamPriorityQueue.non_incremental q with
      | id :: _ => (Some id, s)
      | [] =>
          match StreamPriorityQueue.incremental q with
          | id :: ids =>
              (Some id, with_sendable (Btree.insert u (StreamPriorityQueue.mkQueue [] (ids ++ [id]))
                                         (sendable s)) s)
          | [] => (None, s)
          end
      end
  end.

Definition remove_sendable (s : StreamMap) : StreamMap :=
  match Btree.first_key_value (sendable s) with
  | None => s
  | Some (u, q) =>
      let q :=
        match StreamPriorityQueue.non_incremental q with
        | _ :: h => StreamPriorityQueue.mkQueue h (StreamPriorityQueue.incremental q)
        | [] => StreamPriorityQueue.mkQueue [] (removelast (StreamPriorityQueue.incremental q))
        end in
      match StreamPriorityQueue.non_incremental q, StreamPriorityQueue.incremental q with
      | [], [] => with_sendable (Btree.remove u (sendable s)) s
      | _, _ => with_sendable (Btree.insert u q (sendable s)) s
      end
  end.

(** ** Opening and closing streams *)

Definition is_closed (id : Z) (s : StreamMap) : bool :=
  match streams s !! id with
  | Some st => Stream.is_closed st
  | None =>
      if ConcurrencyControl.is_available id (is_server s) (concurrency_control s)
         || ConcurrencyControl.is_limited id (is_server s) (concurrency_control s)
      then false else true
  end.

Definition stream_destroy (id : Z) (s : StreamMap) : StreamMap :=
  with_streams (delete id (streams s)) s.

Definition mark_closed (id : Z) (local : bool) (s : StreamMap) : StreamMap :=
  if is_closed id s then s
  else
    let s :=
      if local then s
      else with_concurrency_control
             (ConcurrencyControl.increase_max_streams_credits (is_bidi id) 1 (concurrency_control s)) s in
    let s := mark_writable id false (mark_readable id false s) in
    let s := match streams s !! id with
             | Some st => put_stream id (Stream.mark_closed st) s
             | None => s
             end in
    let '(queued, evs) := EventQueue.add (StreamClosed id) (events s) in
    let s := with_events evs s in
    if queued then s else stream_destroy id s.

(** (max_rx_data, max_tx_data) *)
Definition max_stream_data_limit (local bidi : bool) (lp pp : StreamTransportParams) : Z * Z :=
  match local, bidi with
  | true, true => (initial_max_stream_data_bidi_local lp, initial_max_stream_data_bidi_remote pp)
  | true, false => (0, initial_max_stream_data_uni pp)
  | false, true => (initial_max_stream_data_bidi_remote lp, initial_max_stream_data_bidi_local pp)
  | false, false => (initial_max_stream_data_uni lp, 0)
  end.

Definition get_or_create (id : Z) (local : bool) : action Error StreamMap Stream.Stream :=
  s ← get;
  if VINT_MAX <? id then fail ProtocolViolation
  else
    let closed := is_closed id s in
    match streams s !! id with
    | Some st => mret st
    | None =>
        if closed then fail Done
        else if negb (Bool.eqb local (is_local id (is_server s))) then fail StreamStateError
        else
          let bidi := is_bidi id in
          let '(max_rx_data, max_tx_data) :=
            max_stream_data_limit local bidi (local_transport_params s) (peer_transport_params s) in
          _ ← zoom concurrency_control with_concurrency_control
                (ConcurrencyControl.check_concurrency_limits id (is_server s));
          let st := Stream.new bidi local max_tx_data max_rx_data (max_stream_window s) in
          w ← lift (Stream.is_writable st);
          _ ← when w (modify (fun s => with_writable ({[id]} ∪ writable s) s));
          _ ← (if bidi
               then modify (fun s =>
                 with_next_stream_id_bidi (sat_add64 (Z.max (next_stream_id_bidi s) id) 4) s)
               else modify (fun s =>
                 with_next_stream_id_uni (sat_add64 (Z.max (next_stream_id_uni s) id) 4) s));
          cc ← gets concurrency_control;
          cc ← lift (ConcurrencyControl.remove_avail_id id (is_server s) cc);
          _ ← modify (with_concurrency_control cc);
          _ ← modify (fun s => with_events (snd (EventQueue.add (StreamCreated id) (events s))) s);
          _ ← modify (put_stream id st);
          mret st
    end.

(** [match self.get_or_create(..) { Err(Error::Done) => return Ok(..), .. }] *)
Definition get_or_create_or {A} (id : Z) (local : bool) (a : A)
    (k : Stream.Stream -> action Error StreamMap A) : action Error StreamMap A := fun s =>
  match get_or_create id local s with
  | (Ok st, s) => k st s
  | (Err Done, s) => (Ok a, s)
  | (Err e, s) => (Err e, s)
  | (Panic, s) => (Panic, s)
  end.

Definition stream_set_priority (id urgency : Z) (incremental : bool) : action Error StreamMap unit :=
  get_or_create_or id true tt (fun st =>
    if (Stream.urgency st =? urgency) && Bool.eqb (Stream.incremental st) incremental then mret tt
    else modify (put_stream id (Stream.with_incremental incremental (Stream.with_urgency urgency st)))).

(** The context itself is an application value that the transport never reads; it
    is not stored in the model. *)
Definition stream_set_context (id : Z) : action Error StreamMap unit :=
  get_or_create_or id true tt (fun _ => mret tt).

Definition stream_bidi_new (urgency : Z) (incremental : bool) : action Error StreamMap Z :=
  id ← gets next_stream_id_bidi;
  _ ← stream_set_priority id urgency incremental;
  mret id.

Definition stream_uni_new (urgency : Z) (incremental : bool) : action Error StreamMap Z :=
  id ← gets next_stream_id_uni;
  _ ← stream_set_priority id urgency incremental;
  mret id.

(** ** Connection-level limits *)

Definition max_rx_data (s : StreamMap) : Z := FlowControl.max_data (flow_control s).
Definition max_rx_data_next (s : StreamMap) : res Z := FlowControl.max_data_next (flow_control s).
Definition max_rx_data_left (s : StreamMap) : res Z :=
  sub64 (FlowControl.max_data (flow_control s)) (FlowControl.recv_off (flow_control s)).
Definition max_tx_data_left (s : StreamMap) : res Z :=
  sub64 (SendCapacity.max_data (send_capacity s)) (SendCapacity.tx_data (send_capacity s)).

Definition update_max_rx_data (now : Instant) (s : StreamMap) : res StreamMap :=
  fc ← FlowControl.update_max_data now (flow_control s); mret (with_flow_control fc s).
Definition autotune_window (now : Instant) (srtt : Duration) (s : StreamMap) : res StreamMap :=
  fc ← FlowControl.autotune_window now srtt (flow_control s); mret (with_flow_control fc s).
Definition ensure_window_lower_bound (w : Z) (s : StreamMap) : StreamMap :=
  with_flow_control (FlowControl.ensure_window_lower_bound w (flow_control s)) s.

Definition increase_recv_off (n : Z) : action Error StreamMap unit :=
  fc ← gets flow_control;
  fc ← lift (FlowControl.increase_recv_off n fc);
  modify (with_flow_control fc).

(** The repeated
    [increase_read_off(n); if should_send_max_data() { rx_almost_full = true }]. *)
Definition consume_rx (n : Z) : action Error StreamMap unit :=
  fc ← gets flow_control;
  fc ← lift (FlowControl.increase_read_off n fc);
  _ ← modify (with_flow_control fc);
  b ← lift (FlowControl.should_send_max_data fc);
  when b (modify (with_rx_almost_full true)).

(** ** Application operations *)

Definition want_write (id : Z) (want : bool) : action Error StreamMap unit :=
  s ← get;
  match streams s !! id with
  | Some st => st ← lift (Stream.mark_wantwrite want st); modify (put_stream id st)
  | None => fail Done
  end.

Definition want_read (id : Z) (want : bool) : action Error StreamMap unit :=
  s ← get;
  match streams s !! id with
  | Some st => st ← lift (Stream.mark_wantread want st); modify (put_stream id st)
  | None => fail Done
  end.

(** [let _ = self.want_write(..)]: the result is ignored. *)
Definition ignore {A} (m : action Error StreamMap A) : action Error StreamMap unit := fun s =>
  match m s with
  | (Panic, s) => (Panic, s)
  | (_, s) => (Ok tt, s)
  end.

Definition stream_read (id cap : Z) : action Error StreamMap (list Z * bool) :=
  s ← get;
  if negb (is_bidi id) && is_local id (is_server s) then fail StreamStateError
  else
    match streams s !! id with
    | None => fail StreamStateError
    | Some st =>
        if negb (Stream.is_readable st) then fail Done
        else
          let '(r, rv) := RecvBuf.read cap (Stream.recv st) in
          let st := Stream.with_recv rv st in
          _ ← modify (put_stream id st);
          match r with
          | Ok (out, fin) =>
              let readable := Stream.is_readable st in
              let complete := Stream.is_complete st in
              b ← lift (RecvBuf.should_send_max_data rv);
              _ ← when b (modify (mark_almost_full id true));
              _ ← consume_rx (len out);
              _ ← when (negb readable) (modify (mark_readable id false));
              _ ← when complete (modify (mark_closed id (Stream.local st)));
              mret (out, fin)
          | Err e =>
              _ ← when (Stream.is_complete st) (modify (mark_closed id (Stream.local st)));
              _ ← modify (mark_readable id false);
              fail e
          | Panic => panic
          end
    end.

(** [send_capacity.capacity -= written; send_capacity.tx_data += written]. *)
Definition charge_tx (written : Z) : action Error StreamMap unit :=
  sc ← gets send_capacity;
  c ← lift (sub64 (SendCapacity.capacity sc) written);
  t ← lift (add64 (SendCapacity.tx_data sc) written);
  modify (with_send_capacity
    (SendCapacity.mkCap (SendCapacity.max_data sc) t c (SendCapacity.blocked_at sc))).

Definition stream_write (id : Z) (bytes : list Z) (fin : bool) : action Error StreamMap Z :=
  s ← get;
  if negb (is_bidi id) && negb (is_local id (is_server s)) then fail StreamStateError
  else
    left ← lift (max_tx_data_left s);
    _ ← when (left <? len bytes)
          (modify (update_data_blocked_at (Some (SendCapacity.max_data (send_capacity s)))));
    let expect_written := len bytes in
    let capacity := SendCapacity.capacity (send_capacity s) in
    st ← get_or_create id true;
    was_writable ← lift (Stream.is_writable st);
    let was_sendable := Stream.is_sendable st in
    if (capacity =? 0) && negb (len bytes =? 0) then
      _ ← when was_writable (modify (mark_writable id true));
      _ ← ignore (want_write id true);
      fail Done
    else
      let '(bytes, fin, blocked_by_cap) :=
        if capacity <? len bytes then (ztake capacity bytes, false, true) else (bytes, fin, false) in
      let buf_len := len bytes in
      let '(r, sd) := SendBuf.write bytes fin (Stream.send st) in
      let st := Stream.with_send sd st in
      _ ← modify (put_stream id st);
      match r with
      | Err e => _ ← modify (mark_writable id false); fail e
      | Panic => panic
      | Ok written =>
          let sendable := Stream.is_sendable st in
          writable ← lift (Stream.is_writable st);
          let empty_fin := (buf_len =? 0) && fin in
          _ ← (if written <? buf_len then
                 let md := SendBuf.max_data sd in
                 if bool_decide (SendBuf.blocked_at sd = Some md) then mret tt
                 else
                   _ ← modify (put_stream id
                         (Stream.with_send (SendBuf.update_blocked_at (Some md) sd) st));
                   modify (mark_blocked id true md)
               else
                 _ ← modify (put_stream id
                       (Stream.with_send (SendBuf.update_blocked_at None sd) st));
                 modify (mark_blocked id false 0));
          _ ← when ((sendable || empty_fin) && negb was_sendable)
                (modify (push_sendable id (Stream.urgency st) (Stream.incremental st)));
          _ ← (if negb writable then modify (mark_writable id false)
               else when (was_writable && blocked_by_cap) (modify (mark_writable id true)));
          _ ← charge_tx written;
          _ ← when (written <? expect_written) (ignore (want_write id true));
          if (written =? 0) && (0 <? buf_len) then fail Done else mret written
      end.

(** Credit for data that was buffered but never sent. *)
Definition refund_tx (unsent : Z) : action Error StreamMap unit :=
  sc ← gets send_capacity;
  sc ← lift (SendCapacity.update_capacity
         (SendCapacity.mkCap (SendCapacity.max_data sc) (sat_sub (SendCapacity.tx_data sc) unsent)
            (SendCapacity.capacity sc) (SendCapacity.blocked_at sc)));
  modify (with_send_capacity sc).

Definition stream_shutdown (id : Z) (direction : Shutdown) (err : Z) : action Error StreamMap unit :=
  s ← get;
  match streams s !! id with
  | None => fail Done
  | Some st =>
      match direction with
      | Read =>
          if is_local id (is_server s) && negb (is_bidi id) then fail StreamStateError
          else
            let '(r, rv) := RecvBuf.shutdown (Stream.recv st) in
            _ ← modify (put_stream id (Stream.with_recv rv st));
            unread_len ← lift r;
            _ ← when (negb (RecvBuf.is_fin rv)) (modify (mark_stopped id true err));
            _ ← modify (mark_readable id false);
            consume_rx unread_len
      | Write =>
          if negb (is_local id (is_server s)) && negb (is_bidi id) then fail StreamStateError
          else
            let '(r, sd) := SendBuf.shutdown (Stream.send st) in
            _ ← modify (put_stream id (Stream.with_send sd st));
            '(final_size, unsent) ← lift r;
            _ ← refund_tx unsent;
            _ ← modify (mark_reset id true err final_size);
            modify (mark_writable id false)
      end
  end.

Definition stream_capacity (id : Z) (s : StreamMap) : res Z :=
  match streams s !! id with
  | Some st =>
      c ← SendBuf.capacity (Stream.send st);
      mret (Z.min (SendCapacity.capacity (send_capacity s)) c)
  | None => Err StreamStateError
  end.

Definition stream_writable (id n : Z) : action Error StreamMap bool :=
  s ← get;
  c ← lift (stream_capacity id s);
  if n <=? c then mret true
  else
    left ← lift (max_tx_data_left s);
    _ ← when (left <? n)
          (modify (update_data_blocked_at (Some (SendCapacity.max_data (send_capacity s)))));
    match streams s !! id with
    | None => panic
    | Some st =>
        let st := Stream.with_write_thresh (Z.max 1 n) st in
        _ ← modify (put_stream id st);
        is_writable ← lift (Stream.is_writable st);
        c ← lift (SendBuf.capacity (Stream.send st));
        _ ← (if c <? n then
               let md := SendBuf.max_data (Stream.send st) in
               if bool_decide (SendBuf.blocked_at (Stream.send st) = Some md) then mret tt
               else
                 _ ← modify (put_stream id
                       (Stream.with_send (SendBuf.update_blocked_at (Some md) (Stream.send st)) st));
                 modify (mark_blocked id true md)
             else when is_writable (modify (mark_writable id true)));
        mret false
    end.

Definition stream_readable (id : Z) (s : StreamMap) : bool :=
  match streams s !! id with Some st => Stream.is_readable st | None => false end.
Definition stream_finished (id : Z) (s : StreamMap) : bool :=
  match streams s !! id with Some st => RecvBuf.is_fin (Stream.recv st) | None => true end.
Definition stream_read_offset (id : Z) (s : StreamMap) : option Z :=
  RecvBuf.read_off ∘ Stream.recv <$> streams s !! id.
Definition stream_write_offset (id : Z) (s : StreamMap) : option Z :=
  SendBuf.write_off ∘ Stream.send <$> streams s !! id.

Definition check_writable (id : Z) (s : StreamMap) : res bool :=
  match streams s !! id with
  | None => Ok false
  | Some st =>
      if negb (Stream.is_wantwrite st) then Ok false
      else
        match SendBuf.capacity (Stream.send st) with
        | Ok c => Ok (Stream.write_thresh st <=? Z.min (SendCapacity.capacity (send_capacity s)) c)
        | Err _ => Ok true
        | Panic => Panic
        end
  end.

Definition check_readable (id : Z) (s : StreamMap) : bool :=
  match streams s !! id with Some st => Stream.is_wantread st | None => false end.

Definition has_readable (s : StreamMap) : bool :=
  existsb (fun id => check_readable id s) (elements (readable s)).

Fixpoint any_writable (ids : list Z) (s : StreamMap) : res bool :=
  match ids with
  | [] => Ok false
  | id :: ids => check_writable id s ≫= fun b : bool => if b then Ok true else any_writable ids s
  end.

Definition has_writable (s : StreamMap) : res bool :=
  if SendCapacity.capacity (send_capacity s) =? 0 then Ok false
  else any_writable (elements (writable s)) s.

(** ** What is to be sent *)

Definition need_send_max_data (s : StreamMap) : res bool :=
  if rx_almost_full s then next ← max_rx_data_next s; mret (max_rx_data s <? next) else Ok false.

Definition should_send_max_streams (s : StreamMap) : res bool :=
  b ← ConcurrencyControl.should_update_local_max_streams true (concurrency_control s);
  match b with
  | true => mret true
  | false => ConcurrencyControl.should_update_local_max_streams false (concurrency_control s)
  end.

Definition streams_blocked (s : StreamMap) : bool :=
  bool_decide (is_Some (ConcurrencyControl.streams_blocked_at_bidi (concurrency_control s))) ||
  bool_decide (is_Some (ConcurrencyControl.streams_blocked_at_uni (concurrency_control s))).

Definition need_send_stream_frames (s : StreamMap) : res bool :=
  if match sendable s with [] => false | _ => true end then Ok true
  else
    b ← need_send_max_data s;
    if b || bool_decide (is_Some (SendCapacity.blocked_at (send_capacity s))) then mret true
    else
      b ← should_send_max_streams s;
      mret (b || bool_decide (almost_full_ s <> ∅) || bool_decide (data_blocked s <> ∅)
            || bool_decide (reset_ s <> ∅) || bool_decide (stopped_ s <> ∅) || streams_blocked s).

(** ** Frames from the peer *)

Definition on_max_data_frame_received (md : Z) : action Error StreamMap unit :=
  sc ← gets send_capacity;
  sc ← lift (SendCapacity.update_capacity (SendCapacity.update_max_data md sc));
  modify (with_send_capacity
    (if ConcurrencyControl.unblocks (SendCapacity.max_data sc) (SendCapacity.blocked_at sc)
     then SendCapacity.update_blocked_at None sc else sc)).

Definition on_max_stream_data_frame_received (id md : Z) : action Error StreamMap unit :=
  s ← get;
  if negb (is_local id (is_server s)) && negb (is_bidi id) then fail StreamStateError
  else
    get_or_create_or id false tt (fun st =>
      let was_sendable := Stream.is_sendable st in
      let st := Stream.with_send (SendBuf.update_max_data md (Stream.send st)) st in
      _ ← modify (put_stream id st);
      writable ← lift (Stream.is_writable st);
      _ ← when (Stream.is_sendable st && negb was_sendable)
            (modify (push_sendable id (Stream.urgency st) (Stream.incremental st)));
      when writable (modify (mark_writable id true))).

Definition on_max_streams_frame_received (max_streams : Z) (bidi : bool)
  : action Error StreamMap unit :=
  if MAX_STREAMS_PER_TYPE <? max_streams then fail FrameEncodingError
  else
    modify (fun s => with_concurrency_control
      (ConcurrencyControl.update_peer_max_streams bidi max_streams (concurrency_control s)) s).

Definition on_data_blocked_frame_received (md : Z) (s : StreamMap) : StreamMap := s.

Definition on_stream_data_blocked_frame_received (id md : Z) : action Error StreamMap unit :=
  s ← get;
  if is_local id (is_server s) && negb (is_bidi id) then fail StreamStateError else mret tt.

Definition on_streams_blocked_frame_received (max_streams : Z) (bidi : bool)
  : action Error StreamMap unit :=
  if MAX_STREAMS_PER_TYPE <? max_streams then fail FrameEncodingError else mret tt.

Definition on_reset_stream_frame_received (id error_code final_size : Z)
  : action Error StreamMap unit :=
  s ← get;
  if negb (is_bidi id) && is_local id (is_server s) then fail StreamStateError
  else
    rx_left ← lift (max_rx_data_left s);
    get_or_create_or id false tt (fun st =>
      let was_readable := Stream.is_readable st in
      let max_fc_off_delta := sat_sub final_size (RecvBuf.read_off (Stream.recv st)) in
      let '(r, rv) := RecvBuf.reset error_code final_size (Stream.recv st) in
      let st := Stream.with_recv rv st in
      _ ← modify (put_stream id st);
      max_rx_off_delta ← lift r;
      if rx_left <? max_rx_off_delta then fail FlowControlError
      else
        let is_readable := Stream.is_readable st in
        let is_complete := Stream.is_complete st in
        _ ← when (negb was_readable && is_readable) (modify (mark_readable id true));
        _ ← when (is_complete && negb is_readable) (modify (mark_closed id (Stream.local st)));
        _ ← increase_recv_off max_rx_off_delta;
        consume_rx max_fc_off_delta).

Definition on_stop_sending_frame_received (id error_code : Z) : action Error StreamMap unit :=
  s ← get;
  if negb (is_local id (is_server s)) && negb (is_bidi id) then fail StreamStateError
  else
    get_or_create_or id false tt (fun st =>
      was_writable ← lift (Stream.is_writable st);
      let '(r, sd) := SendBuf.stop error_code (Stream.send st) in
      _ ← modify (put_stream id (Stream.with_send sd st));
      match r with
      | Ok (final_size, unsent) =>
          _ ← refund_tx unsent;
          _ ← modify (mark_reset id true error_code final_size);
          when (negb was_writable) (modify (mark_writable id true))
      | Err _ => mret tt
      | Panic => panic
      end).

Definition on_stream_frame_received (id offset length : Z) (fin : bool) (bytes : list Z)
  : action Error StreamMap unit :=
  s ← get;
  if is_local id (is_server s)
     && (negb (is_bidi id)
         || (match streams s !! id with None => true | Some _ => false end && negb (is_closed id s)))
  then fail StreamStateError
  else
    rx_left ← lift (max_rx_data_left s);
    get_or_create_or id false tt (fun st =>
      data_max_off ← lift (add64 offset length);
      let max_rx_off_delta := sat_sub data_max_off (RecvBuf.recv_off (Stream.recv st)) in
      if rx_left <? max_rx_off_delta then fail FlowControlError
      else
        let was_readable := Stream.is_readable st in
        let was_draining := Stream.is_draining st in
        let '(r, rv) := RecvBuf.write offset bytes fin (Stream.recv st) in
        let st := Stream.with_recv rv st in
        _ ← modify (put_stream id st);
        _ ← lift r;
        _ ← when (negb was_readable && Stream.is_readable st) (modify (mark_readable id true));
        _ ← increase_recv_off max_rx_off_delta;
        when was_draining (consume_rx max_rx_off_delta)).

(** ** Acknowledged and lost frames *)

Definition close_if_complete (id : Z) (st : Stream.Stream) (s : StreamMap) : StreamMap :=
  if Stream.is_complete st && negb (Stream.is_readable st)
  then mark_closed id (Stream.local st) s else s.

Definition on_stream_frame_acked (id offset length : Z) (s : StreamMap) : res StreamMap :=
  match streams s !! id with
  | None => Ok s
  | Some st =>
      sd ← SendBuf.ack_and_drop offset length (Stream.send st);
      let st := Stream.with_send sd st in
      mret (close_if_complete id st (put_stream id st s))
  end.

Definition on_reset_stream_frame_acked (id : Z) (s : StreamMap) : StreamMap :=
  match streams s !! id with
  | None => s
  | Some st => close_if_complete id st s
  end.

Definition on_stream_frame_lost (id offset length : Z) (fin : bool) (s : StreamMap) : res StreamMap :=
  match streams s !! id with
  | None => Ok s
  | Some st =>
      let was_sendable := Stream.is_sendable st in
      let empty_fin := (length =? 0) && fin in
      sd ← SendBuf.retransmit offset length (Stream.send st);
      let st := Stream.with_send sd st in
      let s := put_stream id st s in
      mret (if (Stream.is_sendable st || empty_fin) && negb was_sendable
            then push_sendable id (Stream.urgency st) (Stream.incremental st) s else s)
  end.

Definition on_reset_stream_frame_lost (id error_code final_size : Z) (s : StreamMap) : StreamMap :=
  match streams s !! id with
  | None => s
  | Some _ => mark_reset id true error_code final_size s
  end.

Definition on_stop_sending_frame_lost (id error_code : Z) (s : StreamMap) : StreamMap :=
  match streams s !! id with
  | None => s
  | Some st =>
      if RecvBuf.is_fin (Stream.recv st) then s else mark_stopped id true error_code s
  end.

Definition on_max_stream_data_frame_lost (id : Z) (s : StreamMap) : StreamMap :=
  match streams s !! id with None => s | Some _ => mark_almost_full id true s end.

Definition on_max_data_frame_lost (s : StreamMap) : StreamMap := with_rx_almost_full true s.

Definition on_stream_data_blocked_frame_lost (id blocked_at : Z) (s : StreamMap) : StreamMap :=
  match streams s !! id with
  | None => s
  | Some st =>
      if blocked_at =? SendBuf.max_data (Stream.send st) then mark_blocked id true blocked_at s else s
  end.

Definition on_data_blocked_frame_lost (m : Z) (s : StreamMap) : StreamMap :=
  if m =? SendCapacity.max_data (send_capacity s) then update_data_blocked_at (Some m) s else s.

Definition on_streams_blocked_frame_lost (bidi : bool) (max_streams : Z) (s : StreamMap) : StreamMap :=
  if max_streams =? ConcurrencyControl.peer_max_streams bidi (concurrency_control s)
  then update_streams_blocked_at bidi (Some max_streams) s else s.

Definition update_local_max_streams (bidi : bool) (s : StreamMap) : StreamMap :=
  with_concurrency_control
    (ConcurrencyControl.update_local_max_streams bidi (concurrency_control s)) s.

Definition update_peer_stream_transport_params (tp : StreamTransportParams)
  : action Error StreamMap unit :=
  _ ← modify (with_peer_transport_params tp);
  sc ← gets send_capacity;
  sc ← lift (SendCapacity.update_capacity (SendCapacity.update_max_data (initial_max_data tp) sc));
  _ ← modify (with_send_capacity sc);
  modify (fun s => with_concurrency_control
    (ConcurrencyControl.update_peer_max_streams false (initial_max_streams_uni tp)
       (ConcurrencyControl.update_peer_max_streams true (initial_max_streams_bidi tp)
          (concurrency_control s))) s).

End StreamMap.
