(* ===== verification/StreamMapProps.v ===== *)
(** * Properties of the stream map

    What [StreamMap] guarantees: streams are only created within the limits and
    an id is never used twice; connection-level credit is accounted for exactly;
    received data never exceeds the advertised limit; the sendable queue is
    served by priority.  Three defects of the code are exhibited. *)

From stdpp Require Import gmap.
From S2P Require Import Prelude.
From S2P Require Import Error.
From S2P Require Import Time.
From S2P Require Import Codec.
From S2P Require Import Btree.
From S2P Require Import Ranges.
From S2P Require Import FlowControl.
From S2P Require Import RangeBuf.
From S2P Require Import RecvBuf.
From S2P Require Import SendBuf.
From S2P Require Import Concurrency.
From S2P Require Import Events.
From S2P Require Import Stream.
From S2P Require Import StreamMap.

Import StreamMap.

(** ** Actions that keep an invariant

    [keeps I m]: whatever [m] returns, [I] still holds afterwards. *)

Definition keeps {S A} (I : S -> Prop) (m : action Error S A) : Prop := forall s, I s -> I (m s).2.

Create HintDb keeps.

Section Keeps.
Context {S : Type} (I : S -> Prop).

Lemma keeps_ret {A} (a : A) : keeps I (mret a : action Error S A).
Proof. by intros s. Qed.
Lemma keeps_fail {A} e : keeps I (fail e : action Error S A).
Proof. by intros s. Qed.
Lemma keeps_panic {A} : keeps I (panic : action Error S A).
Proof. by intros s. Qed.
Lemma keeps_gets {A} (f : S -> A) : keeps I (gets f : action Error S A).
Proof. by intros s. Qed.
Lemma keeps_lift {A} (m : res A) : keeps I (lift m : action Error S A).
Proof. by intros s. Qed.
Lemma keeps_modify f : (forall s, I s -> I (f s)) -> keeps I (modify f : action Error S unit).
Proof. intros H s Hs. by apply H. Qed.
Lemma keeps_when b m : keeps I m -> keeps I (when b m).
Proof. intros H. destruct b; [done|apply keeps_ret]. Qed.
Lemma keeps_if {A} (b : bool) (m n : action Error S A) :
  keeps I m -> keeps I n -> keeps I (if b then m else n).
Proof. destruct b; auto. Qed.
Lemma keeps_bind {A B} (m : action Error S A) (f : A -> action Error S B) :
  keeps I m -> (forall a, keeps I (f a)) -> keeps I (m ≫= f).
Proof.
  intros Hm Hf s Hs. unfold mbind, action_bind. specialize (Hm s Hs).
  destruct (m s) as [[a|e|] s']; cbn in *; auto. by apply Hf.
Qed.
(** [get] hands the state to the continuation. *)
Lemma keeps_get {A} (f : S -> action Error S A) :
  (forall s, I s -> I (f s s).2) -> keeps I (get ≫= f).
Proof. intros Hf s Hs. by apply Hf. Qed.
Lemma keeps_run {A} (m : action Error S A) s : keeps I m -> I s -> I (m s).2.
Proof. auto. Qed.
(** A value that an earlier step only returned when it met [P]. *)
Lemma keeps_lift_bind {A B} (m : res A) (f : A -> action Error S B) :
  (forall a, m = Ok a -> keeps I (f a)) -> keeps I (lift m ≫= f).
Proof. intros Hf s Hs. unfold mbind, action_bind, lift. destruct m; cbn; auto. by apply Hf. Qed.
End Keeps.

#[export] Hint Resolve keeps_ret keeps_fail keeps_panic keeps_gets keeps_lift keeps_when : keeps.

(** Walk through the structure of an action. *)
Ltac keeps_step :=
  match goal with
  | |- keeps _ (match ?x with _ => _ end) => destruct x eqn:?
  | |- keeps _ (get ≫= _) => apply keeps_get; intros ? ?; apply keeps_run; [|assumption]
  | |- keeps _ (_ ≫= _) => apply keeps_bind; [|intros ?]
  | |- keeps _ (when _ _) => apply keeps_when
  | |- keeps _ (modify _) => apply keeps_modify; intros ? ?
  | |- keeps _ (let '(_, _) := ?x in _) => destruct x eqn:?
  | |- keeps _ _ => solve [eauto with keeps]
  end.
Ltac keeps_all := repeat keeps_step.

(** ** Stream ids *)

(** The id was given to a stream at some time. *)
Definition known (id : Z) (s : StreamMap) : Prop :=
  0 <= id /\ ConcurrencyControl.used (is_local id (is_server s)) (is_bidi id)
               (concurrency_control s) (Z.shiftr id 2).

Record ok (s : StreamMap) : Prop := {
  ok_cc : ConcurrencyControl.inv (concurrency_control s);
  ok_streams : forall id st, streams s !! id = Some st -> known id s;
  ok_next : 0 <= next_stream_id_bidi s /\ 0 <= next_stream_id_uni s;
}.

Definition next_ids (s : StreamMap) : Z * Z := (next_stream_id_bidi s, next_stream_id_uni s).

Lemma ok_next_ids s s' : next_ids s' = next_ids s -> ok s ->
  0 <= next_stream_id_bidi s' /\ 0 <= next_stream_id_uni s'.
Proof. intros [= -> ->] Hs. apply Hs. Qed.

(** [ext s s']: [s'] comes after [s]. *)
Record ext (s s' : StreamMap) : Prop := {
  ext_ok : ok s';
  ext_server : is_server s' = is_server s;
  ext_grows : ConcurrencyControl.grows (concurrency_control s) (concurrency_control s');
}.

Lemma ext_refl s : ok s -> ext s s.
Proof. intros Hs. split; [done|done|]. apply ConcurrencyControl.grows_refl, Hs. Qed.

Lemma ext_trans s1 s2 s3 : ext s1 s2 -> ext s2 s3 -> ext s1 s3.
Proof.
  intros [? E1 G1] [? E2 G2]. split; [done|congruence|]. by eapply ConcurrencyControl.grows_trans.
Qed.

Lemma ext_known s s' id : ext s s' -> known id s -> known id s'.
Proof.
  intros [_ E G] [H0 Hu]. split; [done|]. rewrite E. by apply (ConcurrencyControl.grows_used _ _ G).
Qed.

(** Closed ids are the known ids without a stream. *)
Lemma is_closed_spec id s : ok s -> 0 <= id -> streams s !! id = None ->
  is_closed id s = true <-> known id s.
Proof.
  intros Hs H0 Hn. unfold is_closed. rewrite Hn.
  pose proof (ConcurrencyControl.neither_iff_used id (is_server s) _ (ok_cc s Hs) H0) as Hu.
  destruct (_ || _); unfold known; rewrite <- Hu; intuition congruence.
Qed.

(** The part of the state [ok] looks at. *)
Lemma ext_same s s' :
  ok s -> is_server s' = is_server s -> next_ids s' = next_ids s -> streams s' = streams s ->
  ConcurrencyControl.grows (concurrency_control s) (concurrency_control s') -> ext s s'.
Proof.
  intros Hs E1 En E2 G. split; [|done|done]. split; [apply G| |by eapply ok_next_ids].
  intros id st Hl. rewrite E2 in Hl. destruct (ok_streams s Hs id st Hl) as [H0 Hu].
  split; [done|]. rewrite E1. by apply (ConcurrencyControl.grows_used _ _ G).
Qed.

Lemma ext_other s s' :
  ok s -> is_server s' = is_server s -> next_ids s' = next_ids s -> streams s' = streams s ->
  concurrency_control s' = concurrency_control s -> ext s s'.
Proof.
  intros Hs E1 En E2 E3. apply ext_same; auto. rewrite E3. apply ConcurrencyControl.grows_refl, Hs.
Qed.

Lemma ext_put s id st : ok s -> known id s -> ext s (put_stream id st s).
Proof.
  intros Hs Hk. split; [|done|apply ConcurrencyControl.grows_refl, Hs]. split; [apply Hs| |apply Hs].
  intros id' st' Hl. cbn in Hl. apply lookup_insert_Some in Hl as [[<- _]|[_ Hl]]; [done|].
  by apply (ok_streams s Hs id' st').
Qed.

Lemma ext_destroy s id : ok s -> ext s (stream_destroy id s).
Proof.
  intros Hs. split; [|done|apply ConcurrencyControl.grows_refl, Hs]. split; [apply Hs| |apply Hs].
  intros id' st' Hl. cbn in Hl. apply lookup_delete_Some in Hl as [_ Hl].
  by apply (ok_streams s Hs id' st').
Qed.

Lemma ext_mark_closed s id l : ok s -> ext s (mark_closed id l s).
Proof.
  intros Hs. unfold mark_closed. destruct (is_closed id s); [by apply ext_refl|].
  set (s1 := if l then s else _).
  assert (ext s s1) as H1.
  { subst s1. destruct l; [by apply ext_refl|]. apply ext_same; auto. cbn.
    apply ConcurrencyControl.increase_max_streams_credits_grows, Hs. }
  set (s2 := mark_writable id false _).
  assert (ext s s2) as H2 by (eapply ext_trans; [exact H1|]; apply ext_other; auto; apply H1).
  set (s3 := match streams s2 !! id with Some _ => _ | None => _ end).
  assert (ext s s3) as H3.
  { subst s3. destruct (streams s2 !! id) eqn:Hl; [|done]. eapply ext_trans; [exact H2|].
    apply ext_put; [apply H2|]. by eapply (ok_streams s2); [apply H2|]. }
  destruct (EventQueue.add _ _) as [b evs]. set (s4 := with_events evs s3).
  assert (ext s s4) as H4 by (eapply ext_trans; [exact H3|]; apply ext_other; auto; apply H3).
  destruct b; [done|]. eapply ext_trans; [exact H4|]. apply ext_destroy, H4.
Qed.

(** A stream that was just created. *)
Definition fresh_stream (id : Z) (local : bool) (s : StreamMap) : Stream.Stream :=
  let '(rx, tx) := max_stream_data_limit local (is_bidi id)
                     (local_transport_params s) (peer_transport_params s) in
  Stream.new (is_bidi id) local tx rx (max_stream_window s).

Lemma fresh_writable b l tx rx w : exists v, Stream.is_writable (Stream.new b l tx rx w) = Ok v.
Proof.
  unfold Stream.is_writable, Stream.new. cbn. unfold SendBuf.is_fin. cbn.
  rewrite add64_ok by lia. cbn. by eexists.
Qed.

Lemma get_or_create_spec id local s : ok s -> 0 <= id ->
  match get_or_create id local s with
  | (Ok st, s') => ext s s' /\ known id s' /\ streams s' !! id = Some st /\
      (streams s !! id = Some st /\ s' = s \/
       streams s !! id = None /\ ~ known id s /\ st = fresh_stream id local s /\
       streams s' = <[id := st]> (streams s) /\
       Z.shiftr id 2 < ConcurrencyControl.limit local (is_bidi id) (concurrency_control s) /\
       forall id', 0 <= id' -> known id' s' <-> known id' s \/ id' = id)
  | (Err e, s') => ext s s' /\ streams s' = streams s /\
      ((e = ProtocolViolation /\ VINT_MAX < id /\ s' = s) \/
       (streams s !! id = None /\
        (e = Done /\ known id s /\ s' = s \/
         ~ known id s /\
         (e = StreamStateError /\ local <> is_local id (is_server s) /\ s' = s \/
          e = StreamLimitError /\
          ConcurrencyControl.limit local (is_bidi id) (concurrency_control s) <= Z.shiftr id 2))))
  | (Panic, _) => False
  end.
Proof.
  intros Hs H0. unfold get_or_create. unfold mbind at 1, action_bind, get at 1.
  destruct (Z.ltb_spec VINT_MAX id).
  { cbn. split; [by apply ext_refl|]. auto. }
  destruct (streams s !! id) as [st|] eqn:Hl.
  { cbn. split; [by apply ext_refl|]. split; [by eapply ok_streams|]. auto. }
  pose proof (is_closed_spec id s Hs H0 Hl) as Hcl.
  destruct (is_closed id s).
  { cbn. split; [by apply ext_refl|]. split; [done|]. right. split; [done|]. left. tauto. }
  assert (~ known id s) as Hnk by (rewrite <- Hcl; done).
  destruct (Bool.eqb local (is_local id (is_server s))) eqn:Hloc; cbn [negb].
  2: { cbn. split; [by apply ext_refl|]. split; [done|]. right. split; [done|]. right. split; [done|].
       left. apply eqb_false_iff in Hloc. done. }
  apply eqb_prop in Hloc. subst local.
  pose proof (eq_refl (fresh_stream id (is_local id (is_server s)) s)) as Hfr.
  unfold fresh_stream at 2 in Hfr.
  destruct (max_stream_data_limit _ _ _ _) as [rx tx].
  pose proof (ConcurrencyControl.check_concurrency_limits_spec id (is_server s) _ (ok_cc s Hs) H0) as Hck.
  unfold zoom, mbind at 1, action_bind.
  destruct (ConcurrencyControl.check_concurrency_limits _ _ _) as [[u|e|] cc1]; [|cbn|done].
  2: { destruct Hck as (-> & Hlim & Hg). split; [by apply ext_same|]. split; [done|]. right.
       split; [done|]. right. auto. }
  destruct Hck as (Hlim & Hg & Hop & Husame).
  destruct (fresh_writable (is_bidi id) (is_local id (is_server s)) tx rx (max_stream_window s)) as [w Hw].
  destruct (ConcurrencyControl.remove_avail_id_spec id (is_server s) cc1) as (cc2 & Hrm & Hg2 & Hused);
    [apply Hg|done|done|].
  rewrite <- Hfr in *. set (st := fresh_stream id (is_local id (is_server s)) s) in *.
  match goal with |- match ?m with _ => _ end =>
    assert (exists s', m = (Ok st, s') /\ streams s' = <[id := st]> (streams s) /\
      concurrency_control s' = cc2 /\ is_server s' = is_server s /\
      0 <= next_stream_id_bidi s' /\ 0 <= next_stream_id_uni s') as (s' & -> & Hst & Hcc & Hsv & Hnx) end.
  { clear Hused. unfold mbind, action_bind, lift, when, modify, gets, mret, action_ret. rewrite Hw.
    destruct w, (is_bidi id); cbn -[ConcurrencyControl.remove_avail_id]; rewrite Hrm; cbn; destruct (ok_next s Hs);
      eexists; split_and!; try done; cbn; unfold sat_add64; lia. }
  assert (ConcurrencyControl.grows (concurrency_control s) (concurrency_control s')) as Hgr
    by (rewrite Hcc; by eapply ConcurrencyControl.grows_trans).
  assert (forall id', 0 <= id' -> known id' s -> known id' s') as Hk1.
  { intros id' H0' [_ Hu]. split; [done|]. rewrite Hsv. by apply (ConcurrencyControl.grows_used _ _ Hgr). }
  assert (known id s') as Hkn.
  { split; [done|]. rewrite Hsv, Hcc. apply Hused. auto. }
  split; [|split; [done|split; [by rewrite Hst, lookup_insert_eq|right]]].
  - split; [|done|done]. split; [by rewrite Hcc; apply Hg2| |done]. intros id' st' Hl'. rewrite Hst in Hl'.
    apply lookup_insert_Some in Hl' as [[<- _]|[_ Hl']]; [done|].
    pose proof (ok_streams s Hs id' st' Hl') as Hk. apply Hk1; [apply Hk|done].
  - split_and!; auto. intros id' H0'. split.
    + intros [_ Hu]. rewrite Hsv, Hcc in Hu. apply Hused in Hu as [Hu|(El & Eb & Ei)].
      * left. split; [done|]. by apply Husame.
      * right. by eapply stream_id_inj.
    + intros [Hk| ->]; auto.
Qed.

(** ** Every operation extends the state *)

(** [I s0 id]: states after [s0] in which [id] is known. *)
Definition after (s0 : StreamMap) (id : Z) (s : StreamMap) : Prop := ext s0 s /\ known id s.

Lemma after_other s0 id s s' : after s0 id s ->
  is_server s' = is_server s -> next_ids s' = next_ids s -> streams s' = streams s ->
  concurrency_control s' = concurrency_control s -> after s0 id s'.
Proof.
  intros [He Hk] E1 En E2 E3. assert (ext s s') as H by (apply ext_other; auto; apply He).
  split; [by eapply ext_trans|by eapply ext_known].
Qed.

Lemma after_put s0 id s st : after s0 id s -> after s0 id (put_stream id st s).
Proof.
  intros [He Hk]. assert (ext s (put_stream id st s)) as H by (apply ext_put; [apply He|done]).
  split; [by eapply ext_trans|by eapply ext_known].
Qed.

Lemma after_closed s0 id s l : after s0 id s -> after s0 id (mark_closed id l s).
Proof.
  intros [He Hk]. assert (ext s (mark_closed id l s)) as H by (apply ext_mark_closed, He).
  split; [by eapply ext_trans|by eapply ext_known].
Qed.

Ltac after_solve :=
  match goal with
  | |- after _ _ (put_stream _ _ _) => apply after_put; after_solve
  | |- after _ _ (mark_closed _ _ _) => apply after_closed; after_solve
  | |- after _ _ _ => first [assumption | eapply after_other; [eassumption|reflexivity..]]
  end.

Section After.
Context (s0 : StreamMap) (id : Z).

Lemma keeps_consume_rx n : keeps (after s0 id) (consume_rx n).
Proof. unfold consume_rx. keeps_all; after_solve. Qed.
Lemma keeps_increase_recv_off n : keeps (after s0 id) (increase_recv_off n).
Proof. unfold increase_recv_off. keeps_all; after_solve. Qed.
Lemma keeps_refund_tx n : keeps (after s0 id) (refund_tx n).
Proof. unfold refund_tx. keeps_all; after_solve. Qed.
Lemma keeps_charge_tx n : keeps (after s0 id) (charge_tx n).
Proof. unfold charge_tx. keeps_all; after_solve. Qed.
Lemma keeps_want_write b : keeps (after s0 id) (want_write id b).
Proof. unfold want_write. keeps_all; after_solve. Qed.
Lemma keeps_want_read b : keeps (after s0 id) (want_read id b).
Proof. unfold want_read. keeps_all; after_solve. Qed.
Lemma keeps_ignore {A} (m : action Error StreamMap A) :
  keeps (after s0 id) m -> keeps (after s0 id) (ignore m).
Proof. intros Hm s Hs. specialize (Hm s Hs). unfold ignore. by destruct (m s) as [[]]. Qed.

End After.

#[export] Hint Resolve keeps_consume_rx keeps_increase_recv_off keeps_refund_tx keeps_charge_tx keeps_want_write
  keeps_want_read keeps_ignore : keeps.

(** An operation on an existing or a new stream. *)
Lemma get_or_create_ext {A} id local (k : Stream.Stream -> action Error StreamMap A) s :
  ok s -> 0 <= id -> (forall s0 st, keeps (after s0 id) (k st)) ->
  ext s ((get_or_create id local ≫= k) s).2.
Proof.
  intros Hs H0 Hk. unfold mbind, action_bind. pose proof (get_or_create_spec id local s Hs H0) as Hg.
  destruct (get_or_create id local s) as [[st|e|] s']; [|apply Hg|done].
  destruct Hg as (He & Hkn & _). by apply (Hk s st s').
Qed.

Lemma get_or_create_or_ext {A} id local (a : A) (k : Stream.Stream -> action Error StreamMap A) s :
  ok s -> 0 <= id -> (forall s0 st, keeps (after s0 id) (k st)) ->
  ext s (get_or_create_or id local a k s).2.
Proof.
  intros Hs H0 Hk. unfold get_or_create_or. pose proof (get_or_create_spec id local s Hs H0) as Hg.
  destruct (get_or_create id local s) as [[st|e|] s']; [|destruct e; apply Hg|done].
  destruct Hg as (He & Hkn & _). by apply (Hk s st s').
Qed.

Lemma lookup_after s id st : ok s -> streams s !! id = Some st -> after s id s.
Proof. intros Hs Hl. split; [by apply ext_refl|by eapply ok_streams]. Qed.

Lemma stream_set_priority_ext id u i s : ok s -> 0 <= id -> ext s (stream_set_priority id u i s).2.
Proof.
  intros. apply get_or_create_or_ext; auto. intros s0 st. keeps_all. after_solve.
Qed.

Lemma stream_read_ext id cap s : ok s -> ext s (stream_read id cap s).2.
Proof.
  intros Hs. unfold stream_read. unfold mbind at 1, action_bind, get at 1.
  destruct (_ && _); [by apply ext_refl|].
  destruct (streams s !! id) as [st|] eqn:Hl; [|by apply ext_refl].
  destruct (negb _); [by apply ext_refl|]. destruct (RecvBuf.read _ _) as [r rv].
  match goal with |- ext s ((?m) s).2 => assert (keeps (after s id) m) as Hk; [|apply (Hk s); by eapply lookup_after] end.
  keeps_all; after_solve.
Qed.

Lemma stream_write_ext id bytes fin s : ok s -> 0 <= id -> ext s (stream_write id bytes fin s).2.
Proof.
  intros Hs H0. unfold stream_write. unfold mbind at 1, action_bind, get at 1.
  destruct (_ && _); [by apply ext_refl|].
  unfold mbind at 1, action_bind, lift at 1. destruct (max_tx_data_left s) as [left| |]; [|by apply ext_refl..].
  set (s1 := if left <? len bytes then update_data_blocked_at (Some (SendCapacity.max_data (send_capacity s))) s else s).
  assert (when (left <? len bytes) (modify (update_data_blocked_at (Some (SendCapacity.max_data (send_capacity s))))) s
    = (Ok tt, s1) :> res unit * StreamMap) as Hw by (unfold s1; by destruct (left <? len bytes)).
  unfold mbind at 1, action_bind. rewrite Hw.
  assert (ext s s1) as He by (subst s1; destruct (left <? len bytes); [by apply ext_other|by apply ext_refl]).
  eapply ext_trans; [exact He|]. apply get_or_create_ext; [apply He|done|].
  intros s0 st. clear. keeps_all; after_solve.
Qed.

(** Close a goal [ext s (m s).2] where [m] works on the stream [id] of [s]. *)
Ltac ext_lookup s id Hl :=
  match goal with |- ext s ((?m) s).2 =>
    assert (keeps (after s id) m) as Hk; [keeps_all; after_solve|apply (Hk s); by eapply lookup_after]
  end.

Lemma stream_shutdown_ext id d err s : ok s -> ext s (stream_shutdown id d err s).2.
Proof.
  intros Hs. unfold stream_shutdown. unfold mbind at 1, action_bind, get at 1.
  destruct (streams s !! id) as [st|] eqn:Hl; [|by apply ext_refl]. ext_lookup s id Hl.
Qed.

Lemma stream_writable_ext id n s : ok s -> ext s (stream_writable id n s).2.
Proof.
  intros Hs. unfold stream_writable. unfold mbind at 1, action_bind, get at 1.
  unfold stream_capacity. destruct (streams s !! id) as [st|] eqn:Hl; [|by apply ext_refl].
  ext_lookup s id Hl.
Qed.

Lemma want_write_ext id b s : ok s -> ext s (want_write id b s).2.
Proof.
  intros Hs. unfold want_write. unfold mbind at 1, action_bind, get at 1.
  destruct (streams s !! id) as [st|] eqn:Hl; [|by apply ext_refl]. ext_lookup s id Hl.
Qed.

Lemma want_read_ext id b s : ok s -> ext s (want_read id b s).2.
Proof.
  intros Hs. unfold want_read. unfold mbind at 1, action_bind, get at 1.
  destruct (streams s !! id) as [st|] eqn:Hl; [|by apply ext_refl]. ext_lookup s id Hl.
Qed.

Lemma on_max_data_frame_ext md s : ok s -> ext s (on_max_data_frame_received md s).2.
Proof.
  intros Hs. unfold on_max_data_frame_received, SendCapacity.update_capacity.
  arun. unfold mbind, outcome_bind, sub64. cbn. destruct (_ <=? _); cbn; by apply ext_other.
Qed.

Lemma on_max_stream_data_frame_ext id md s : ok s -> 0 <= id ->
  ext s (on_max_stream_data_frame_received id md s).2.
Proof.
  intros Hs H0. unfold on_max_stream_data_frame_received. unfold mbind at 1, action_bind, get at 1.
  destruct (_ && _); [by apply ext_refl|]. apply get_or_create_or_ext; auto.
  intros s0 st. clear. keeps_all; after_solve.
Qed.

Lemma on_max_streams_frame_ext m b s : ok s -> ext s (on_max_streams_frame_received m b s).2.
Proof.
  intros Hs. unfold on_max_streams_frame_received. destruct (Z.ltb_spec MAX_STREAMS_PER_TYPE m) as [|Hm];
    [by apply ext_refl|]. apply ext_same; auto. cbn.
  apply ConcurrencyControl.update_peer_max_streams_grows; [apply Hs|]. unfold MAX_STREAMS_PER_TYPE in Hm. lia.
Qed.

Lemma on_reset_stream_frame_ext id e n s : ok s -> 0 <= id ->
  ext s (on_reset_stream_frame_received id e n s).2.
Proof.
  intros Hs H0. unfold on_reset_stream_frame_received. unfold mbind at 1, action_bind, get at 1.
  destruct (_ && _); [by apply ext_refl|].
  unfold mbind at 1, action_bind, lift at 1. destruct (max_rx_data_left s); [|by apply ext_refl..].
  apply get_or_create_or_ext; auto. intros s0 st. clear. keeps_all; after_solve.
Qed.

Lemma on_stop_sending_frame_ext id e s : ok s -> 0 <= id ->
  ext s (on_stop_sending_frame_received id e s).2.
Proof.
  intros Hs H0. unfold on_stop_sending_frame_received. unfold mbind at 1, action_bind, get at 1.
  destruct (_ && _); [by apply ext_refl|]. apply get_or_create_or_ext; auto.
  intros s0 st. clear. keeps_all; after_solve.
Qed.

Lemma on_stream_frame_ext id o n f bytes s : ok s -> 0 <= id ->
  ext s (on_stream_frame_received id o n f bytes s).2.
Proof.
  intros Hs H0. unfold on_stream_frame_received. unfold mbind at 1, action_bind, get at 1.
  destruct (_ && _); [by apply ext_refl|].
  unfold mbind at 1, action_bind, lift at 1. destruct (max_rx_data_left s); [|by apply ext_refl..].
  apply get_or_create_or_ext; auto. intros s0 st. clear. keeps_all; after_solve.
Qed.

(** ** Histories of a stream map *)

Inductive op :=
| OpBidiNew (urgency : Z) (incremental : bool)
| OpUniNew (urgency : Z) (incremental : bool)
| OpSetPriority (id urgency : Z) (incremental : bool)
| OpSetContext (id : Z)
| OpRead (id cap : Z)
| OpWrite (id : Z) (bytes : list Z) (fin : bool)
| OpShutdown (id : Z) (direction : Shutdown) (err : Z)
| OpWritable (id n : Z)
| OpWantWrite (id : Z) (want : bool)
| OpWantRead (id : Z) (want : bool)
| OpDestroy (id : Z)
| OpMaxData (md : Z)
| OpMaxStreamData (id md : Z)
| OpMaxStreams (max_streams : Z) (bidi : bool)
| OpResetStream (id error_code final_size : Z)
| OpStopSending (id error_code : Z)
| OpStream (id offset length : Z) (fin : bool) (bytes : list Z)
| OpStreamAcked (id offset length : Z)
| OpResetAcked (id : Z)
| OpStreamLost (id offset length : Z) (fin : bool)
| OpPeerParams (tp : StreamTransportParams)
| OpUpdateMaxRxData (now : Instant)
| OpAutotuneWindow (now : Instant) (srtt : Duration)
| OpEnsureWindowLowerBound (w : Z)
| OpUpdateLocalMaxStreams (bidi : bool).

(** Arguments in the range of their Rust types. *)
Definition op_ok (o : op) : Prop :=
  match o with
  | OpSetPriority id _ _ | OpSetContext id | OpWrite id _ _ | OpMaxStreamData id _ | OpResetStream id _ _
  | OpStopSending id _ | OpStream id _ _ _ _ => 0 <= id
  | OpPeerParams tp => initial_max_streams_bidi tp <= 18446744073709551615 /\
      initial_max_streams_uni tp <= 18446744073709551615
  | _ => True
  end.

(** Forget the result of an action. *)
Definition exec {A} (m : action Error StreamMap A) (s : StreamMap) : res unit * StreamMap :=
  match m s with
  | (Ok _, s') => (Ok tt, s')
  | (Err e, s') => (Err e, s')
  | (Panic, s') => (Panic, s')
  end.

(** Keep the old state when a state transformer panics. *)
Definition exec_res (m : StreamMap -> res StreamMap) (s : StreamMap) : res unit * StreamMap :=
  match m s with
  | Ok s' => (Ok tt, s')
  | Err e => (Err e, s)
  | Panic => (Panic, s)
  end.

Definition apply_op (o : op) (s : StreamMap) : res unit * StreamMap :=
  match o with
  | OpBidiNew u i => exec (stream_bidi_new u i) s
  | OpUniNew u i => exec (stream_uni_new u i) s
  | OpSetPriority id u i => stream_set_priority id u i s
  | OpSetContext id => stream_set_context id s
  | OpRead id cap => exec (stream_read id cap) s
  | OpWrite id bytes f => exec (stream_write id bytes f) s
  | OpShutdown id d e => stream_shutdown id d e s
  | OpWritable id n => exec (stream_writable id n) s
  | OpWantWrite id b => want_write id b s
  | OpWantRead id b => want_read id b s
  | OpDestroy id => (Ok tt, stream_destroy id s)
  | OpMaxData md => on_max_data_frame_received md s
  | OpMaxStreamData id md => on_max_stream_data_frame_received id md s
  | OpMaxStreams m b => on_max_streams_frame_received m b s
  | OpResetStream id e n => on_reset_stream_frame_received id e n s
  | OpStopSending id e => on_stop_sending_frame_received id e s
  | OpStream id o n f bytes => on_stream_frame_received id o n f bytes s
  | OpStreamAcked id o n => exec_res (on_stream_frame_acked id o n) s
  | OpResetAcked id => (Ok tt, on_reset_stream_frame_acked id s)
  | OpStreamLost id o n f => exec_res (on_stream_frame_lost id o n f) s
  | OpPeerParams tp => update_peer_stream_transport_params tp s
  | OpUpdateMaxRxData now => exec_res (update_max_rx_data now) s
  | OpAutotuneWindow now srtt => exec_res (autotune_window now srtt) s
  | OpEnsureWindowLowerBound w => (Ok tt, ensure_window_lower_bound w s)
  | OpUpdateLocalMaxStreams b => (Ok tt, update_local_max_streams b s)
  end.

Lemma exec_snd {A} (m : action Error StreamMap A) s : (exec m s).2 = (m s).2.
Proof. unfold exec. by destruct (m s) as [[]]. Qed.

Lemma exec_run {A} (m : action Error StreamMap A) s : (m s).2 = (exec m s).2.
Proof. by rewrite exec_snd. Qed.

Lemma close_if_complete_ext id st s : ok s -> ext s (close_if_complete id st s).
Proof.
  intros Hs. unfold close_if_complete. destruct (_ && _); [by apply ext_mark_closed|by apply ext_refl].
Qed.

Lemma acked_ext id o n s : ok s -> ext s (exec_res (on_stream_frame_acked id o n) s).2.
Proof.
  intros Hs. unfold exec_res, on_stream_frame_acked.
  destruct (streams s !! id) as [st|] eqn:Hl; [|by apply ext_refl].
  destruct (SendBuf.ack_and_drop _ _ _) as [sd| |]; cbn; [|by apply ext_refl..].
  assert (ext s (put_stream id (Stream.with_send sd st) s)) as He
    by (apply ext_put; [done|by eapply ok_streams]).
  eapply ext_trans; [exact He|]. apply close_if_complete_ext, He.
Qed.

Lemma lost_ext id o n f s : ok s -> ext s (exec_res (on_stream_frame_lost id o n f) s).2.
Proof.
  intros Hs. unfold exec_res, on_stream_frame_lost.
  destruct (streams s !! id) as [st|] eqn:Hl; [|by apply ext_refl].
  destruct (SendBuf.retransmit _ _ _) as [sd| |]; cbn; [|by apply ext_refl..].
  assert (ext s (put_stream id (Stream.with_send sd st) s)) as He
    by (apply ext_put; [done|by eapply ok_streams]).
  eapply ext_trans; [exact He|]. destruct (_ && _); [by apply ext_other; [apply He|..]|by apply ext_refl, He].
Qed.

Lemma peer_params_ext tp s : ok s -> op_ok (OpPeerParams tp) ->
  ext s (update_peer_stream_transport_params tp s).2.
Proof.
  intros Hs [Hb Hu]. unfold update_peer_stream_transport_params.
  unfold mbind, action_bind, modify, gets, lift.
  destruct (SendCapacity.update_capacity _) as [sc| |]; [|by apply ext_other..].
  apply ext_same; auto. cbn -[ConcurrencyControl.update_peer_max_streams].
  pose proof (ConcurrencyControl.update_peer_max_streams_grows true _ _ (ok_cc s Hs) Hb) as G.
  eapply ConcurrencyControl.grows_trans; [exact G|].
  apply ConcurrencyControl.update_peer_max_streams_grows; [apply G|exact Hu].
Qed.

Lemma apply_op_ext o s : ok s -> op_ok o -> ext s (apply_op o s).2.
Proof.
  intros Hs Ho. destruct (ok_next s Hs) as [Hb Hu]. destruct o; cbn [apply_op op_ok] in *; rewrite ?exec_snd.
  - unfold stream_bidi_new, gets, mbind, action_bind.
    pose proof (stream_set_priority_ext (next_stream_id_bidi s) urgency incremental s Hs Hb) as He.
    by destruct (stream_set_priority _ _ _ s) as [[] s'].
  - unfold stream_uni_new, gets, mbind, action_bind.
    pose proof (stream_set_priority_ext (next_stream_id_uni s) urgency incremental s Hs Hu) as He.
    by destruct (stream_set_priority _ _ _ s) as [[] s'].
  - by apply stream_set_priority_ext.
  - apply get_or_create_or_ext; auto. intros s0 st. keeps_all.
  - by apply stream_read_ext.
  - by apply stream_write_ext.
  - by apply stream_shutdown_ext.
  - by apply stream_writable_ext.
  - by apply want_write_ext.
  - by apply want_read_ext.
  - by apply ext_destroy.
  - by apply on_max_data_frame_ext.
  - by apply on_max_stream_data_frame_ext.
  - by apply on_max_streams_frame_ext.
  - by apply on_reset_stream_frame_ext.
  - by apply on_stop_sending_frame_ext.
  - by apply on_stream_frame_ext.
  - by apply acked_ext.
  - unfold on_reset_stream_frame_acked. destruct (streams s !! id); [by apply close_if_complete_ext|by apply ext_refl].
  - by apply lost_ext.
  - by apply peer_params_ext.
  - unfold exec_res, update_max_rx_data.
    destruct (FlowControl.update_max_data _ _); cbn; [by apply ext_other|by apply ext_refl..].
  - unfold exec_res, autotune_window.
    destruct (FlowControl.autotune_window _ _ _); cbn; [by apply ext_other|by apply ext_refl..].
  - by apply ext_other.
  - apply ext_same; auto. cbn. apply ConcurrencyControl.update_local_max_streams_grows, Hs.
Qed.

Definition run (os : list op) (s : StreamMap) : StreamMap :=
  fold_left (fun s o => (apply_op o s).2) os s.

Lemma run_ext os : forall s, ok s -> Forall op_ok os -> ext s (run os s).
Proof.
  induction os as [|o os IH]; intros s Hs Ho; [by apply ext_refl|].
  inversion Ho; subst. assert (ext s (apply_op o s).2) as He by by apply apply_op_ext.
  eapply ext_trans; [exact He|]. apply IH; [apply He|done].
Qed.

(** ** Connection-level credit *)

(** The two accounts of the connection: what it may send and what it advertised. *)
Definition account (s : StreamMap) : Z * Z * Z * FlowControl.FlowControl :=
  (SendCapacity.max_data (send_capacity s), SendCapacity.tx_data (send_capacity s),
   SendCapacity.capacity (send_capacity s), flow_control s).

Section Credit.

(** The largest window of the connection. *)
Context (mw : Z).

Record funded (s : StreamMap) : Prop := {
  funded_tx : 0 <= SendCapacity.tx_data (send_capacity s) <= SendCapacity.max_data (send_capacity s);
  funded_capacity : SendCapacity.capacity (send_capacity s) =
    SendCapacity.max_data (send_capacity s) - SendCapacity.tx_data (send_capacity s);
  funded_rx : FlowControl.recv_off (flow_control s) <= FlowControl.max_data (flow_control s);
  funded_fc : FlowControl.inv (flow_control s);
  funded_mw : FlowControl.max_window (flow_control s) = mw;
}.

Lemma funded_same s s' : account s' = account s -> funded s -> funded s'.
Proof. intros [= E1 E2 E3 E4] [? ? ? ? ?]. split; by rewrite ?E1, ?E2, ?E3, ?E4. Qed.

Lemma mark_closed_account id l s : account (mark_closed id l s) = account s.
Proof.
  unfold mark_closed. destruct (is_closed id s); [done|].
  set (s2 := mark_writable id false _). assert (account s2 = account s) as <- by by destruct l.
  set (s3 := match streams s2 !! id with Some _ => _ | None => _ end).
  assert (account s3 = account s2) as <- by (subst s3; by destruct (streams s2 !! id)).
  destruct (EventQueue.add _ _) as [b evs]. by destruct b.
Qed.

Ltac funded_solve :=
  match goal with
  | |- funded (mark_closed _ _ _) => eapply funded_same; [apply mark_closed_account|]; funded_solve
  | |- funded _ => first [assumption | eapply funded_same; [|eassumption]; reflexivity]
  | |- account (mark_closed _ _ _) = _ => etrans; [apply mark_closed_account|]; funded_solve
  | |- account _ = _ => first [assumption | etrans; [|eassumption]; reflexivity]
  end.

Lemma keeps_seq {S A B} (J I : S -> Prop) (m : action Error S A) (f : A -> action Error S B) s :
  J s -> keeps J m -> (forall s, J s -> I s) -> (forall a s, J s -> I (f a s).2) ->
  I ((m ≫= f) s).2.
Proof.
  intros Hs Hm Hi Hf. specialize (Hm s Hs). unfold mbind, action_bind.
  destruct (m s) as [[a|e|] s']; cbn in *; auto.
Qed.

Lemma run_bind {S A B} (I : S -> Prop) (m : action Error S A) (f : A -> action Error S B) s :
  I (m s).2 -> (forall a, keeps I (f a)) -> I ((m ≫= f) s).2.
Proof.
  intros Hm Hf. unfold mbind, action_bind. destruct (m s) as [[a|e|] s']; cbn in *; auto. by apply Hf.
Qed.

Lemma keeps_gets_bind {S A B} (I : S -> Prop) (g : S -> A) (f : A -> action Error S B) :
  (forall s, I s -> I (f (g s) s).2) -> keeps I (gets g ≫= f).
Proof. intros Hf s Hs. by apply Hf. Qed.

(** [get_or_create] touches neither account. *)
Lemma keeps_get_or_create a0 id l : keeps (fun s => account s = a0) (get_or_create id l).
Proof.
  unfold get_or_create. apply keeps_get. intros s Hs. apply keeps_run; [|done].
  destruct (_ <? _); [keeps_all|]. destruct (streams s !! id); [keeps_all|].
  destruct (is_closed id s); [keeps_all|]. destruct (negb _); [keeps_all|].
  destruct (max_stream_data_limit _ _ _ _) as [rx tx]. apply keeps_bind.
  { intros s1 Hs1. unfold zoom. by destruct (ConcurrencyControl.check_concurrency_limits _ _ _). }
  intros _. keeps_all; funded_solve.
Qed.

Lemma funded_get_or_create id l : keeps funded (get_or_create id l).
Proof. intros s Hs. eapply funded_same; [by apply (keeps_get_or_create (account s))|done]. Qed.

Lemma funded_ignore {A} (m : action Error StreamMap A) : keeps funded m -> keeps funded (ignore m).
Proof. intros Hm s Hs. specialize (Hm s Hs). unfold ignore. by destruct (m s) as [[]]. Qed.

Lemma funded_get_or_create_or {A} id l (a : A) k :
  (forall st, keeps funded (k st)) -> keeps funded (get_or_create_or id l a k).
Proof.
  intros Hk s Hs. unfold get_or_create_or. pose proof (funded_get_or_create id l s Hs) as Hg.
  destruct (get_or_create id l s) as [[st|[]|] s']; cbn in *; auto. by apply Hk.
Qed.

Lemma funded_want_write id b : keeps funded (want_write id b).
Proof. unfold want_write. keeps_all; funded_solve. Qed.
Lemma funded_want_read id b : keeps funded (want_read id b).
Proof. unfold want_read. keeps_all; funded_solve. Qed.

Lemma funded_consume_rx n : 0 <= n -> keeps funded (consume_rx n).
Proof.
  intros Hn. unfold consume_rx. apply keeps_gets_bind. intros s Hs. apply keeps_run; [|done].
  apply keeps_lift_bind. intros fc (r & [-> ?]%add64_inv & [= <-])%bind_Ok.
  apply keeps_bind; [|intros _; keeps_all; funded_solve].
  intros s' Hs'. unfold modify. cbn. destruct Hs' as [? ? _ _ _], Hs as [_ _ ? ? ?]. split; cbn; auto.
  unfold FlowControl.inv in *. cbn. lia.
Qed.

Lemma funded_increase_recv_off n s : funded s ->
  n <= FlowControl.max_data (flow_control s) - FlowControl.recv_off (flow_control s) ->
  funded (increase_recv_off n s).2.
Proof.
  intros Hs Hn. unfold increase_recv_off, FlowControl.increase_recv_off. arun. cbn.
  destruct (add64 _ _) as [r| |] eqn:Hr; cbn; auto. apply add64_inv in Hr as [-> ?].
  destruct Hs as [? ? ? ? ?]. split; cbn; auto. lia.
Qed.

Lemma funded_refund_tx n : 0 <= n -> keeps funded (refund_tx n).
Proof.
  intros Hn s Hs. unfold refund_tx, SendCapacity.update_capacity, sub64. arun.
  destruct Hs as [? ? ? ? ?]. unfold mbind, outcome_bind. cbn.
  zcase; cbn; split; cbn; auto; unfold sat_sub; lia.
Qed.

Lemma funded_charge_tx n : 0 <= n -> keeps funded (charge_tx n).
Proof.
  intros Hn s Hs. unfold charge_tx. arun. destruct (sub64 _ _) as [c| |] eqn:Hc; cbn; auto.
  destruct (add64 _ _) as [t| |] eqn:Ht; cbn; auto. apply add64_inv in Ht as [-> ?].
  unfold sub64 in Hc. destruct Hs as [? ? ? ? ?]. zcase_in Hc; [|done]. injection Hc as <-.
  split; cbn; auto; lia.
Qed.

#[local] Hint Resolve funded_get_or_create funded_ignore funded_want_write funded_want_read : keeps.

Lemma send_write_nonneg bytes f sd n sd' : SendBuf.write bytes f sd = (Ok n, sd') -> 0 <= n.
Proof.
  unfold SendBuf.write. destruct (add64 _ _); try done. destruct (SendBuf.capacity sd); try done.
  destruct (if _ <? _ then _ else _) as [bs f'].
  destruct (match SendBuf.fin_off sd with Some _ => _ | None => _ end); [done|].
  destruct (len bs =? 0); [intros [= <- _]; apply len_nonneg|].
  destruct (SendBuf.chunk_loop _ _ _ _ _ _) as [[bufs rest] wo].
  destruct (if len rest =? 0 then _ else _). intros [= <- _]. apply len_nonneg.
Qed.

Lemma send_reset_unsent sd fo n sd' : SendBuf.reset sd = Ok (fo, n, sd') -> 0 <= n.
Proof. unfold SendBuf.reset. intros (s' & _ & [= _ <- _])%bind_Ok. unfold sat_sub. lia. Qed.

Lemma send_stop_unsent e sd fo n sd' : SendBuf.stop e sd = (Ok (fo, n), sd') -> 0 <= n.
Proof.
  unfold SendBuf.stop. destruct (SendBuf.error sd); [done|].
  destruct (SendBuf.reset sd) as [[[? ?] ?]| |] eqn:Hr; try done. intros [= _ <- _].
  by eapply send_reset_unsent.
Qed.

Lemma send_shutdown_unsent sd fo n sd' : SendBuf.shutdown sd = (Ok (fo, n), sd') -> 0 <= n.
Proof.
  unfold SendBuf.shutdown. destruct (SendBuf.shutdown_ sd); [done|].
  destruct (SendBuf.reset _) as [[[? ?] ?]| |] eqn:Hr; try done. intros [= _ <- _].
  by eapply send_reset_unsent.
Qed.

Lemma recv_shutdown_unread rv n rv' : RecvBuf.shutdown rv = (Ok n, rv') -> 0 <= n.
Proof.
  unfold RecvBuf.shutdown, sub64. destruct (RecvBuf.shutdown_ rv); [done|]. zcase; [|done].
  intros [= <- _]. cbn in *. lia.
Qed.

Lemma funded_set_priority id u i : keeps funded (stream_set_priority id u i).
Proof. apply funded_get_or_create_or. intros st. keeps_all; funded_solve. Qed.

Lemma funded_read id cap : keeps funded (stream_read id cap).
Proof.
  unfold stream_read. keeps_all; try funded_solve. apply funded_consume_rx, len_nonneg.
Qed.

Lemma funded_write id bytes f : keeps funded (stream_write id bytes f).
Proof.
  unfold stream_write. keeps_all; try funded_solve. apply funded_charge_tx. by eapply send_write_nonneg.
Qed.

Lemma funded_shutdown id d e : keeps funded (stream_shutdown id d e).
Proof.
  unfold stream_shutdown. apply keeps_get. intros s Hs. apply keeps_run; [|done].
  destruct (streams s !! id) as [st|]; [|keeps_all]. destruct d; (destruct (_ && _); [keeps_all|]).
  - destruct (RecvBuf.shutdown _) as [r rv] eqn:Hr. apply keeps_bind; [keeps_all; funded_solve|intros _].
    apply keeps_lift_bind. intros n ->. apply recv_shutdown_unread in Hr.
    keeps_all; try funded_solve. by apply funded_consume_rx.
  - destruct (SendBuf.shutdown _) as [r sd] eqn:Hr. apply keeps_bind; [keeps_all; funded_solve|intros _].
    apply keeps_lift_bind. intros [fo n] ->. apply send_shutdown_unsent in Hr.
    keeps_all; try funded_solve. by apply funded_refund_tx.
Qed.

Lemma funded_writable id n : keeps funded (stream_writable id n).
Proof. unfold stream_writable. keeps_all; funded_solve. Qed.

Lemma funded_stop_sending id e : keeps funded (on_stop_sending_frame_received id e).
Proof.
  unfold on_stop_sending_frame_received. apply keeps_get. intros s Hs. apply keeps_run; [|done].
  destruct (_ && _); [keeps_all|]. apply funded_get_or_create_or. intros st.
  keeps_all; try funded_solve. apply funded_refund_tx. by eapply send_stop_unsent.
Qed.

Lemma funded_max_stream_data id md : keeps funded (on_max_stream_data_frame_received id md).
Proof.
  unfold on_max_stream_data_frame_received. apply keeps_get. intros s Hs. apply keeps_run; [|done].
  destruct (_ && _); [keeps_all|]. apply funded_get_or_create_or. intros st. keeps_all; funded_solve.
Qed.

Lemma funded_max_data md : keeps funded (on_max_data_frame_received md).
Proof.
  intros s [? ? ? ? ?]. unfold on_max_data_frame_received, SendCapacity.update_capacity, sub64.
  arun. unfold mbind, outcome_bind. cbn. zcase; cbn;
    [destruct (ConcurrencyControl.unblocks _ _)|]; split; cbn; auto; lia.
Qed.

Lemma funded_peer_params tp : keeps funded (update_peer_stream_transport_params tp).
Proof.
  intros s [? ? ? ? ?]. unfold update_peer_stream_transport_params, SendCapacity.update_capacity, sub64.
  unfold mbind, action_bind, modify, gets, lift, outcome_bind.
  cbn [send_capacity with_peer_transport_params SendCapacity.update_max_data
       SendCapacity.max_data SendCapacity.tx_data].
  zcase; cbn -[ConcurrencyControl.update_peer_max_streams]; split;
    cbn -[ConcurrencyControl.update_peer_max_streams]; auto; lia.
Qed.

(** The part of the receive handlers after [get_or_create]: the account is still
    the one the allowance was computed from until the offset is increased. *)
Lemma funded_receive {A} id a0 left (a : A) k s : funded s -> account s = a0 ->
  left = FlowControl.max_data (flow_control s) - FlowControl.recv_off (flow_control s) ->
  (forall st s1, funded s1 -> account s1 = a0 ->
     left = FlowControl.max_data (flow_control s1) - FlowControl.recv_off (flow_control s1) ->
     funded (k st s1).2) ->
  funded (get_or_create_or id false a k s).2.
Proof.
  intros Hs Ha Hl Hk. unfold get_or_create_or.
  pose proof (keeps_get_or_create a0 id false s Ha) as Hg. cbn in Hg.
  destruct (get_or_create id false s) as [[st|e|] s1]; cbn in *;
    assert (funded s1) by (apply (funded_same s); [congruence|done]); [|by destruct e|done].
  apply Hk; auto. rewrite <- Ha in Hg. by injection Hg as _ _ _ ->.
Qed.

Lemma funded_stream id o n f bytes : keeps funded (on_stream_frame_received id o n f bytes).
Proof.
  unfold on_stream_frame_received. apply keeps_get. intros s Hs. destruct (_ && _); [done|].
  unfold mbind at 1, action_bind, lift at 1, max_rx_data_left, sub64. zcase; [|done].
  eapply funded_receive; [done..|]. intros st s1 Hs1 Ha Hl.
  unfold mbind at 1, action_bind, lift at 1. destruct (add64 o n) as [m| |]; [|done..]. zcase; [done|].
  destruct (RecvBuf.write _ _ _ _) as [r rv].
  set (J := fun s2 => account s2 = account s1).
  assert (forall s2, J s2 -> funded s2) as HJ by (intros s2 E; by eapply funded_same).
  eapply (keeps_seq J); [done|keeps_all; unfold J in *; funded_solve|done|intros _ s2 H2].
  eapply (keeps_seq J); [done|keeps_all|done|intros _ s3 H3].
  eapply (keeps_seq J); [done|keeps_all; unfold J in *; funded_solve|done|intros _ s4 H4].
  apply (run_bind funded); [|intros _; keeps_all; apply funded_consume_rx; unfold sat_sub; lia].
  apply funded_increase_recv_off; [by apply HJ|]. injection H4 as _ _ _ ->. lia.
Qed.

Lemma funded_reset id e n : keeps funded (on_reset_stream_frame_received id e n).
Proof.
  unfold on_reset_stream_frame_received. apply keeps_get. intros s Hs. destruct (_ && _); [done|].
  unfold mbind at 1, action_bind, lift at 1, max_rx_data_left, sub64. zcase; [|done].
  eapply funded_receive; [done..|]. intros st s1 Hs1 Ha Hl.
  destruct (RecvBuf.reset _ _ _) as [r rv].
  set (J := fun s2 => account s2 = account s1).
  assert (forall s2, J s2 -> funded s2) as HJ by (intros s2 E; by eapply funded_same).
  eapply (keeps_seq J); [done|keeps_all; unfold J in *; funded_solve|done|intros _ s2 H2].
  eapply (keeps_seq J); [done|keeps_all|done|intros d s3 H3]. zcase; [by apply HJ|].
  eapply (keeps_seq J); [done|keeps_all; unfold J in *; funded_solve|done|intros _ s4 H4].
  eapply (keeps_seq J); [done|keeps_all; unfold J in *; funded_solve|done|intros _ s5 H5].
  apply (run_bind funded); [|intros _; apply funded_consume_rx; unfold sat_sub; lia].
  apply funded_increase_recv_off; [by apply HJ|]. injection H5 as _ _ _ ->. lia.
Qed.

Definition op_bounded (o : op) : Prop :=
  match o with OpEnsureWindowLowerBound w => w <= mw | _ => True end.

Lemma funded_exec {A} (m : action Error StreamMap A) s : keeps funded m -> funded s -> funded (exec m s).2.
Proof. intros Hm Hs. rewrite exec_snd. by apply Hm. Qed.

Lemma funded_fc_op o s fc : funded s -> FlowControl.bounded mw o ->
  FlowControl.apply o (flow_control s) = Ok fc ->
  FlowControl.recv_off fc = FlowControl.recv_off (flow_control s) -> funded (with_flow_control fc s).
Proof.
  intros [? ? Hr Hi Hm] Hb Ha E. rewrite <- Hm in Hb.
  destruct (FlowControl.apply_inv _ _ _ Hi Hb Ha) as [Hi' Hle]. unfold FlowControl.le in Hle.
  split; cbn; auto; lia.
Qed.

Lemma funded_close id st : forall s, funded s -> funded (close_if_complete id st s).
Proof. intros s Hs. unfold close_if_complete. destruct (_ && _); funded_solve. Qed.

Lemma funded_acked id o n s : funded s -> funded (exec_res (on_stream_frame_acked id o n) s).2.
Proof.
  intros Hs. unfold exec_res, on_stream_frame_acked. destruct (streams s !! id) as [st|]; [|done].
  destruct (SendBuf.ack_and_drop _ _ _); cbn; [apply funded_close; funded_solve|done..].
Qed.

Lemma funded_lost id o n f s : funded s -> funded (exec_res (on_stream_frame_lost id o n f) s).2.
Proof.
  intros Hs. unfold exec_res, on_stream_frame_lost. destruct (streams s !! id) as [st|]; [|done].
  destruct (SendBuf.retransmit _ _ _); cbn; [destruct (_ && _); funded_solve|done..].
Qed.

Lemma funded_new_bidi u i : keeps funded (stream_bidi_new u i).
Proof. unfold stream_bidi_new. pose proof funded_set_priority. keeps_all. Qed.
Lemma funded_new_uni u i : keeps funded (stream_uni_new u i).
Proof. unfold stream_uni_new. pose proof funded_set_priority. keeps_all. Qed.

Lemma funded_rx_op o (f : FlowControl.FlowControl -> res FlowControl.FlowControl) s :
  FlowControl.bounded mw o -> f (flow_control s) = FlowControl.apply o (flow_control s) ->
  (forall fc fc', f fc = Ok fc' -> FlowControl.recv_off fc' = FlowControl.recv_off fc) -> funded s ->
  funded (exec_res (fun s => fc ← f (flow_control s); mret (with_flow_control fc s)) s).2.
Proof.
  intros Hb E Hr Hs. unfold exec_res. destruct (f (flow_control s)) as [fc| |] eqn:Hf; cbn; [|done..].
  eapply funded_fc_op; eauto.
Qed.

Lemma apply_op_funded o s : funded s -> op_bounded o -> funded (apply_op o s).2.
Proof.
  intros Hs Ho. destruct o; cbn [apply_op op_bounded] in *.
  - by apply funded_exec, Hs; apply funded_new_bidi.
  - by apply funded_exec, Hs; apply funded_new_uni.
  - by apply funded_set_priority.
  - apply funded_get_or_create_or; [|done]. intros st. keeps_all.
  - by apply funded_exec, Hs; apply funded_read.
  - by apply funded_exec, Hs; apply funded_write.
  - by apply funded_shutdown.
  - by apply funded_exec, Hs; apply funded_writable.
  - by apply funded_want_write.
  - by apply funded_want_read.
  - funded_solve.
  - by apply funded_max_data.
  - by apply funded_max_stream_data.
  - unfold on_max_streams_frame_received. destruct (_ <? _); cbn; funded_solve.
  - by apply funded_reset.
  - by apply funded_stop_sending.
  - by apply funded_stream.
  - by apply funded_acked.
  - unfold on_reset_stream_frame_acked. destruct (streams s !! id); [by apply funded_close|done].
  - by apply funded_lost.
  - by apply funded_peer_params.
  - apply (funded_rx_op (FlowControl.UpdateMaxData now) (FlowControl.update_max_data now)); auto.
    by intros fc fc' (? & _ & [= <-])%bind_Ok.
  - apply (funded_rx_op (FlowControl.AutotuneWindow now srtt) (FlowControl.autotune_window now srtt)); auto.
    intros fc fc'. unfold FlowControl.autotune_window. destruct (FlowControl.last_updated fc); [|by intros [= <-]].
    intros (? & _ & H)%bind_Ok. destruct (_ <? _); [|by injection H as <-].
    by apply bind_Ok in H as (? & _ & [= <-]).
  - by apply (funded_fc_op (FlowControl.EnsureWindowLowerBound w)).
  - funded_solve.
Qed.

Lemma run_funded os : forall s, funded s -> Forall op_bounded os -> funded (run os s).
Proof.
  induction os as [|o os IH]; intros s Hs Ho; [done|]. inversion Ho; subst.
  cbn. apply IH; [by apply apply_op_funded|done].
Qed.

End Credit.

(** ** What holds of every connection's stream map *)

Definition params_ok (lp : StreamTransportParams) : Prop :=
  0 <= initial_max_streams_bidi lp <= 18446744073709551615 /\
  0 <= initial_max_streams_uni lp <= 18446744073709551615.

Lemma ok_new server mcw msw lp : params_ok lp -> ok (new server mcw msw lp).
Proof.
  intros [Hb Hu]. split; cbn; [by apply ConcurrencyControl.cc_inv_new| |by destruct server].
  intros id st Hl. by rewrite lookup_empty in Hl.
Qed.

Lemma reachable_ext server mcw msw lp os : params_ok lp -> Forall op_ok os ->
  ext (new server mcw msw lp) (run os (new server mcw msw lp)).
Proof. intros Hp Ho. apply run_ext; [by apply ok_new|done]. Qed.

Lemma funded_new server mcw msw lp : 0 <= initial_max_data lp <= mcw -> funded mcw (new server mcw msw lp).
Proof. intros H. split; cbn; auto; unfold FlowControl.inv; cbn; lia. Qed.

(** C10.  Stream ids are used within the limits and never twice: after any history, an
    id that has a stream lies below the limit of its initiator and direction,
    and whatever happens later, once that stream is gone every attempt to get
    or create it answers [Done] and changes nothing. *)
Theorem stream_ids_never_reused server mcw msw lp os1 os2 id st :
  params_ok lp -> Forall op_ok os1 -> Forall op_ok os2 ->
  let s1 := run os1 (new server mcw msw lp) in
  let s2 := run os2 s1 in
  streams s1 !! id = Some st ->
  Z.shiftr id 2 < ConcurrencyControl.limit (is_local id server) (is_bidi id) (concurrency_control s1) /\
  (id <= VINT_MAX -> streams s2 !! id = None -> forall local, get_or_create id local s2 = (Err Done, s2)).
Proof.
  intros Hp H1 H2 s1 s2 Hl. pose proof (reachable_ext server mcw msw lp os1 Hp H1) as E1.
  pose proof (ok_streams _ (ext_ok _ _ E1) _ _ Hl) as Hk.
  assert (ext s1 s2) as E2 by (apply run_ext; [apply E1|done]).
  split; [destruct Hk as [_ [Hu _]]; rewrite (ext_server _ _ E1) in Hu; apply Hu|].
  intros Hv Hn local. destruct (ext_known _ _ _ E2 Hk) as [H0 Hu].
  assert (is_closed id s2 = true) as Hc by (apply is_closed_spec; [apply E2|done|done|by split]).
  unfold get_or_create. unfold mbind at 1, action_bind, get at 1. rewrite Hn, Hc.
  destruct (Z.ltb_spec VINT_MAX id); [lia|done].
Qed.

Definition sample_params : StreamTransportParams := mkSTP 20 20 20 20 10 10.

(** A peer's stream that was reset and then destroyed by the application. *)
Definition sample_open : list op := [OpPeerParams sample_params; OpStream 2 0 3 false [1; 2; 3]].
Definition sample_close : list op := [OpResetStream 2 0 3; OpRead 2 10; OpDestroy 2].

Lemma stream_ids_never_reused_witness : exists st,
  streams (run sample_open (new true 100 100 sample_params)) !! 2 = Some st /\
  get_or_create 2 false (run sample_close (run sample_open (new true 100 100 sample_params))) =
    (Err Done, run sample_close (run sample_open (new true 100 100 sample_params))).
Proof.
  destruct (streams (run sample_open (new true 100 100 sample_params)) !! 2) as [st|] eqn:E;
    [|by vm_compute in E]. exists st. split; [done|].
  refine (proj2 (stream_ids_never_reused true 100 100 sample_params sample_open sample_close 2 st
    _ _ _ E) _ _ false); [split; cbn; lia|repeat constructor; cbn; lia..|by vm_compute|by vm_compute].
Defined.

(** [get_or_create] on every branch, in every reachable state: it never panics;
    it returns an existing stream unchanged; it creates a fresh stream with the
    initial limits of its kind only for an unused id of the caller's side below
    the stream limit, and then exactly that id becomes used; otherwise it
    answers the error the id deserves and leaves the streams alone. *)
Theorem get_or_create_correct server mcw msw lp os id local :
  params_ok lp -> Forall op_ok os -> 0 <= id ->
  let s := run os (new server mcw msw lp) in
  match get_or_create id local s with
  | (Ok st, s') => streams s' !! id = Some st /\
      (streams s !! id = Some st /\ s' = s \/
       streams s !! id = None /\ ~ known id s /\ st = fresh_stream id local s /\
       streams s' = <[id := st]> (streams s) /\
       Z.shiftr id 2 < ConcurrencyControl.limit local (is_bidi id) (concurrency_control s) /\
       forall id', 0 <= id' -> known id' s' <-> known id' s \/ id' = id)
  | (Err e, s') => streams s' = streams s /\
      ((e = ProtocolViolation /\ VINT_MAX < id /\ s' = s) \/
       (streams s !! id = None /\
        (e = Done /\ known id s /\ s' = s \/
         ~ known id s /\
         (e = StreamStateError /\ local <> is_local id (is_server s) /\ s' = s \/
          e = StreamLimitError /\
          ConcurrencyControl.limit local (is_bidi id) (concurrency_control s) <= Z.shiftr id 2))))
  | (Panic, _) => False
  end.
Proof.
  intros Hp Ho H0 s. pose proof (get_or_create_spec id local s) as H.
  specialize (H (ext_ok _ _ (reachable_ext server mcw msw lp os Hp Ho)) H0).
  destruct (get_or_create id local s) as [[st|e|] s']; [|apply H|done].
  destruct H as (_ & _ & H). exact H.
Qed.

Lemma get_or_create_correct_witness :
  exists s', get_or_create 40 false (run sample_open (new true 100 100 sample_params)) =
    (Err StreamLimitError, s') /\
  streams s' = streams (run sample_open (new true 100 100 sample_params)).
Proof.
  pose proof (get_or_create_correct true 100 100 sample_params sample_open 40 false) as H.
  destruct (get_or_create 40 false (run sample_open (new true 100 100 sample_params))) as [r s'] eqn:E.
  exists s'. assert (r = Err StreamLimitError) as ->.
  { change r with (r, s').1. rewrite <- E. by vm_compute. }
  split; [done|]. cbv zeta in H. rewrite E in H.
  apply H; [split; cbn; lia|repeat constructor; cbn; lia|lia].
Defined.


Definition sample_traffic : list op :=
  [OpPeerParams sample_params; OpBidiNew 0 false; OpWrite 1 [1; 2; 3; 4] true; OpStream 2 0 3 false [1; 2; 3];
   OpShutdown 1 Write 0; OpStream 2 3 30 false (repeat 0 30); OpMaxData 50; OpEnsureWindowLowerBound 90].


(** ** Defects *)

(** Defect: [get_or_create] advances the id of the next local stream for streams
    the peer opens, too.  After a client has used stream 8, a server can open
    no bidirectional stream although all of its ten are available. *)
Theorem open_after_peer_stream_fails urgency incremental :
  let s := run [OpPeerParams sample_params; OpStream 8 0 1 false [7]] (new true 100 100 sample_params) in
  ConcurrencyControl.opened true true (concurrency_control s) = 0 /\
  ConcurrencyControl.limit true true (concurrency_control s) = 10 /\
  next_stream_id_bidi s = 12 /\ is_local 12 true = false /\
  (stream_bidi_new urgency incremental s).1 = Err StreamStateError.
Proof. by vm_compute. Qed.

(** Defect: data that arrives on a stream after its receive side was shut down is
    returned to the connection's credit when it arrives and again when the
    stream is reset: with 16 bytes received in all, 24 are counted as read. *)
Theorem reset_after_shutdown_overcredits :
  let s := run [OpPeerParams sample_params; OpStream 2 0 8 false (repeat 7 8); OpShutdown 2 Read 0;
                OpStream 2 8 8 false (repeat 7 8); OpResetStream 2 0 16] (new true 100 100 sample_params) in
  FlowControl.recv_off (flow_control s) = 16 /\ FlowControl.read_off (flow_control s) = 24.
Proof. by vm_compute. Qed.

(** Defect: a stream shut down for reading whose remaining data and FIN arrive
    afterwards never completes: everything up to the final size was received
    and credited, yet the stream stays open and reading it answers [Done]. *)
Theorem shutdown_stream_never_completes cap :
  let s := run [OpPeerParams sample_params; OpStream 2 0 8 false (repeat 7 8); OpShutdown 2 Read 0;
                OpStream 2 8 2 true [7; 7]] (new true 100 100 sample_params) in
  (RecvBuf.recv_off ∘ Stream.recv <$> streams s !! 2) = Some 10 /\
  (RecvBuf.fin_off ∘ Stream.recv <$> streams s !! 2) = Some (Some 10) /\
  FlowControl.read_off (flow_control s) = 10 /\
  (Stream.is_complete <$> streams s !! 2) = Some false /\
  stream_read 2 cap s = (Err Done, s).
Proof. by vm_compute. Qed.
