(* ===== verification/SendQueue.v ===== *)
(** * The queue of sendable streams

    Scheduling order of [push_sendable], [peek_sendable] and [remove_sendable]
    ([src/src/connection/stream/mod.rs]): the most urgent queue first, in it the
    non-incremental streams by id, then the incremental ones in turn. *)

From stdpp Require Import gmap.
From Stdlib Require Import Sorting.Sorted Sorting.Permutation.
From S2P Require Import Prelude.
From S2P Require Import Error.
From S2P Require Import Btree.
From S2P Require Import Concurrency.
From S2P Require Import StreamMap.

Import StreamMap.

Abbreviation queue := StreamPriorityQueue.StreamPriorityQueue.
Abbreviation non_inc := StreamPriorityQueue.non_incremental.
Abbreviation inc := StreamPriorityQueue.incremental.

(** Urgency, incremental flag and id of a queued stream. *)
Abbreviation entry := (Z * bool * Z)%type.

Definition entries (p : Z * queue) : list entry :=
  map (fun id => (p.1, false, id)) (non_inc p.2) ++ map (fun id => (p.1, true, id)) (inc p.2).

(** Everything in the queue. *)
Definition queued (s : StreamMap) : list entry := concat (map entries (sendable s)).

Record wf_queue (q : queue) : Prop := {
  wf_heap : StronglySorted Z.le (non_inc q);
  wf_some : non_inc q <> [] \/ inc q <> [];
}.

(** Urgencies are [u8]. *)
Definition wf_queues (s : StreamMap) : Prop :=
  Btree.above (-1) (sendable s) /\ Forall (fun p => wf_queue p.2) (sendable s).

(** [e] is served no later than [e']. *)
Definition no_later (e e' : entry) : Prop :=
  let '(u, i, id) := e in
  let '(u', i', id') := e' in
  u < u' \/ u = u' /\ (i = false /\ (i' = true \/ id <= id') \/ i = true /\ i' = true).

Definition all_entries (m : list (Z * queue)) : list entry := concat (map entries m).

Lemma entries_default u : entries (u, StreamPriorityQueue.default) = [].
Proof. done. Qed.

Lemma all_entries_insert u q m : forall lo, Btree.above lo m ->
  Permutation (entries (u, default StreamPriorityQueue.default (Btree.get u m)) ++
                 all_entries (Btree.insert u q m))
    (entries (u, q) ++ all_entries m).
Proof.
  induction m as [|[u' q'] m IH]; intros lo; cbn [Btree.insert Btree.get]; [done|]. intros [Hlo Hm].
  destruct (Z.ltb_spec u u').
  - assert (Btree.get u m = None) as Hn.
    { destruct (Btree.get u m) as [v|] eqn:Hg; [|done]. apply (Btree.get_In u') in Hg; [|done].
      apply Btree.above_keys_gt in Hm. unfold Btree.keys_gt in Hm. rewrite Forall_forall in Hm.
      apply list_elem_of_In in Hg. specialize (Hm _ Hg). cbn in Hm. lia. }
    destruct (Z.eqb_spec u u'); [lia|]. rewrite Hn. done.
  - destruct (Z.eqb_spec u u') as [->|Hne]; cbn [default all_entries map concat].
    + apply Permutation_app_swap_app.
    + rewrite Permutation_app_swap_app. etrans; [apply Permutation_app_head, (IH _ Hm)|].
      apply Permutation_app_swap_app.
Qed.

Lemma heap_push_perm x h : Permutation (StreamPriorityQueue.heap_push x h) (x :: h).
Proof.
  induction h as [|y h IH]; cbn; [done|]. destruct (x <=? y); [done|]. rewrite IH. apply perm_swap.
Qed.

Lemma heap_push_sorted x h : StronglySorted Z.le h -> StronglySorted Z.le (StreamPriorityQueue.heap_push x h).
Proof.
  induction 1 as [|y h Hs IH Hy]; cbn; [repeat constructor|]. destruct (Z.leb_spec x y).
  - constructor; [by constructor|]. constructor; [done|]. eapply Forall_impl; [exact Hy|]. cbn. lia.
  - constructor; [done|]. rewrite heap_push_perm. constructor; [lia|done].
Qed.

Lemma heap_push_nonempty x h : StreamPriorityQueue.heap_push x h <> [].
Proof. intros E. pose proof (heap_push_perm x h) as P. rewrite E in P. by apply Permutation_nil in P. Qed.

Lemma Forall_insert (P : Z * queue -> Prop) u q m :
  P (u, q) -> Forall P m -> Forall P (Btree.insert u q m).
Proof.
  intros Hp. induction 1 as [|[u' q'] m Hx Hm IH]; cbn; [by constructor|].
  destruct (u <? u'); [by repeat constructor|]. destruct (u =? u'); by constructor.
Qed.

(** The queue a push extends. *)
Lemma wf_get s u : wf_queues s ->
  StronglySorted Z.le (non_inc (default StreamPriorityQueue.default (Btree.get u (sendable s)))).
Proof.
  intros [Ha Hf]. destruct (Btree.get u (sendable s)) as [q|] eqn:Hg; cbn; [|constructor].
  apply (Btree.get_In (-1)) in Hg; [|done]. rewrite Forall_forall in Hf.
  apply list_elem_of_In in Hg. by apply (Hf _ Hg).
Qed.

Lemma push_sendable_spec s id u i : wf_queues s -> 0 <= u ->
  wf_queues (push_sendable id u i s) /\ Permutation (queued (push_sendable id u i s)) ((u, i, id) :: queued s).
Proof.
  intros Hs Hu. pose proof (wf_get s u Hs) as Hh. destruct Hs as [Ha Hf]. unfold push_sendable.
  set (q := default _ _) in *.
  set (q' := if negb i then _ else _).
  assert (wf_queue q' /\ Permutation (entries (u, q')) ((u, i, id) :: entries (u, q))) as [Hw Hp].
  { subst q'. destruct i; cbn.
    - split; [split; cbn; [done|right; by destruct (inc q)]|]. unfold entries. cbn.
      rewrite map_app. cbn. rewrite app_assoc. symmetry. apply Permutation_cons_append.
    - split; [split; cbn; [by apply heap_push_sorted|left; apply heap_push_nonempty]|].
      unfold entries. cbn. by rewrite heap_push_perm. }
  split.
  - split; cbn; [apply Btree.insert_above; [lia|done]|by apply Forall_insert].
  - apply (Permutation_app_inv_l (entries (u, q))).
    etrans; [exact (all_entries_insert u q' _ _ Ha)|]. rewrite Hp. cbn. apply Permutation_middle.
Qed.

Lemma no_later_entries u u' q e x : u < u' -> e.1.1 = u -> In x (entries (u', q)) -> no_later e x.
Proof.
  intros Hlt <- Hx. destruct e as [[u i] id]. unfold entries in Hx. apply in_app_iff in Hx.
  destruct Hx as [Hx|Hx]; apply in_map_iff in Hx as (y & <- & _); cbn in *; auto.
Qed.

Lemma no_later_rest u e m : e.1.1 = u -> Btree.above u m -> Forall (no_later e) (all_entries m).
Proof.
  intros He Hm. apply Forall_forall. intros x Hx%list_elem_of_In.
  apply in_concat in Hx as (l & Hl & Hx). apply in_map_iff in Hl as ([u' q] & <- & Hq).
  apply Btree.above_keys_gt in Hm. unfold Btree.keys_gt in Hm. rewrite Forall_forall in Hm.
  apply list_elem_of_In in Hq. specialize (Hm _ Hq). by eapply no_later_entries.
Qed.

(** The entry [peek_sendable] selects. *)
Definition first_entry (p : Z * queue) : option entry :=
  match non_inc p.2 with
  | id :: _ => Some (p.1, false, id)
  | [] => match inc p.2 with id :: _ => Some (p.1, true, id) | [] => None end
  end.

Lemma first_entry_no_later u q m e : wf_queue q -> Btree.above u m -> first_entry (u, q) = Some e ->
  Forall (no_later e) (entries (u, q) ++ all_entries m).
Proof.
  intros [Hh _] Hm. unfold first_entry, entries. cbn. destruct (non_inc q) as [|x h].
  - destruct (inc q) as [|x l]; [done|]. intros [= <-]. apply Forall_app. split; [|by apply (no_later_rest u)].
    apply Forall_forall. intros y Hy%list_elem_of_In. apply in_map_iff in Hy as (z & <- & _). cbn. auto.
  - intros [= <-]. apply Forall_app. split; [|by apply (no_later_rest u)].
    inversion Hh as [|? ? _ Hx]; subst. apply Forall_app. split; apply Forall_forall; intros y Hy%list_elem_of_In;
      apply in_map_iff in Hy as (z & <- & Hz); cbn; [|naive_solver]. right. split; [done|]. left. split; [done|]. right.
    destruct Hz as [<-|Hz]; [lia|]. rewrite Forall_forall in Hx. by apply Hx, list_elem_of_In.
Qed.

Lemma insert_head u (q q' : queue) m : Btree.insert u q' ((u, q) :: m) = (u, q') :: m.
Proof. cbn. by rewrite Z.ltb_irrefl, Z.eqb_refl. Qed.

(** The queue [remove_sendable] leaves at the head. *)
Definition popped (q : queue) : queue :=
  match non_inc q with
  | _ :: h => StreamPriorityQueue.mkQueue h (inc q)
  | [] => StreamPriorityQueue.mkQueue [] (removelast (inc q))
  end.

Lemma remove_sendable_spec s u q m : sendable s = (u, q) :: m ->
  StronglySorted Z.le (non_inc q) -> Btree.above (-1) (sendable s) -> Forall (fun p => wf_queue p.2) m ->
  wf_queues (remove_sendable s) /\ queued (remove_sendable s) = entries (u, popped q) ++ all_entries m.
Proof.
  intros E Hq. rewrite E. intros [Hu Ha] Hm. unfold remove_sendable, wf_queues, queued. rewrite E.
  cbn [Btree.first_key_value head]. fold (popped q).
  assert (StronglySorted Z.le (non_inc (popped q))) as Hs.
  { unfold popped. destruct (non_inc q); [constructor|by inversion Hq]. }
  rewrite insert_head. cbn [Btree.remove]. rewrite Z.eqb_refl.
  destruct (popped q) as [[|x h] [|y l]] eqn:Ep; cbn [non_inc inc sendable with_sendable StreamPriorityQueue.non_incremental StreamPriorityQueue.incremental].
  - split; [|done]. split; [|done]. eapply Btree.above_weaken; [|done]. lia.
  - split; [|done]. split; [done|]. constructor; [|done]. split; cbn; [constructor|by right].
  - split; [|done]. split; [done|]. constructor; [|done]. split; cbn; [done|by left].
  - split; [|done]. split; [done|]. constructor; [|done]. split; cbn; [done|by left].
Qed.

Lemma peek_sendable_spec s : wf_queues s ->
  match peek_sendable s with
  | (None, s') => s' = s /\ queued s = []
  | (Some id, s') => wf_queues s' /\ Permutation (queued s') (queued s) /\
      exists u i, In (u, i, id) (queued s) /\ Forall (no_later (u, i, id)) (queued s) /\
        Permutation (queued s) ((u, i, id) :: queued (remove_sendable s')) /\
        wf_queues (remove_sendable s')
  end.
Proof.
  intros [Ha Hf]. unfold peek_sendable, Btree.first_key_value.
  destruct (sendable s) as [|[u q] m] eqn:E; cbn [head]; [by unfold queued; rewrite E|].
  inversion Hf as [|? ? Hq Hm]; subst. cbn [snd] in Hq.
  pose proof (first_entry_no_later u q m) as Hno. unfold first_entry in Hno. cbn [fst snd] in Hno.
  pose proof (wf_some q Hq) as Hsome. pose proof (wf_heap q Hq) as Hh.
  assert (queued s = entries (u, q) ++ all_entries m) as Eq by (unfold queued; by rewrite E).
  destruct (non_inc q) as [|x h] eqn:En; [destruct (inc q) as [|x l] eqn:Ei|]; [by destruct Hsome| |].
  - rewrite insert_head. set (q1 := StreamPriorityQueue.mkQueue [] (l ++ [x])).
    set (s1 := with_sendable _ s).
    assert (Permutation (entries (u, q1)) (entries (u, q))) as Hp.
    { unfold entries, q1. cbn. rewrite En, Ei, map_app. cbn. symmetry. apply Permutation_cons_append. }
    destruct (remove_sendable_spec s1 u q1 m) as [Hw Er]; [done|constructor|done|done|].
    split; [split; [done|constructor; [split; cbn; [constructor|right; by destruct l]|done]]|].
    split; [change (queued s1) with (entries (u, q1) ++ all_entries m); by rewrite Eq, Hp|].
    exists u, true. rewrite Eq. split_and!; [|apply Hno; auto; apply Ha| |done].
    + apply in_app_iff. left. unfold entries. cbn. rewrite En, Ei. by left.
    + rewrite Er. unfold entries, q1, popped. cbn. by rewrite En, Ei, removelast_last.
  - destruct (remove_sendable_spec s u q m) as [Hw Er]; [done|by rewrite En|by rewrite E|done|].
    split; [split; by rewrite E|]. split; [done|]. exists u, false. rewrite Eq.
    split_and!; [|apply Hno; auto; apply Ha| |done].
    + apply in_app_iff. left. unfold entries. cbn. rewrite En. by left.
    + rewrite Er. unfold entries, popped. rewrite En. cbn. by rewrite En.
Qed.

(** [n] successive peeks. *)
Fixpoint peeks (n : nat) (s : StreamMap) : list (option Z) * StreamMap :=
  match n with
  | O => ([], s)
  | S n => let '(r, s) := peek_sendable s in let '(rs, s) := peeks n s in (r :: rs, s)
  end.

Lemma peeks_inc u m l : forall k s,
  sendable s = (u, StreamPriorityQueue.mkQueue [] (l ++ k)) :: m ->
  exists s', peeks (length l) s = (map Some l, s') /\
    sendable s' = (u, StreamPriorityQueue.mkQueue [] (k ++ l)) :: m /\ streams s' = streams s.
Proof.
  induction l as [|x l IH]; intros k s E; cbn [length peeks map].
  { exists s. by rewrite E, app_nil_r. }
  unfold peek_sendable. rewrite E. cbn [Btree.first_key_value head app StreamPriorityQueue.non_incremental
    StreamPriorityQueue.incremental]. rewrite insert_head.
  destruct (IH (k ++ [x]) (with_sendable ((u, StreamPriorityQueue.mkQueue [] ((l ++ k) ++ [x])) :: m) s))
    as (s' & -> & E' & Est); [by rewrite app_assoc|].
  exists s'. rewrite <- app_assoc in E'. auto.
Qed.

(** C34.  The sendable queue schedules by priority: [push_sendable] adds exactly one
    entry; [peek_sendable] answers [None] only when nothing is queued, loses no
    entry, and selects one that no queued entry precedes (lower urgency value
    first, then non-incremental streams by id, then incremental ones);
    [remove_sendable] after it drops exactly the selected entry; and when the most
    urgent queue holds incremental streams only, successive peeks return each of
    them once, in order, before any repeats. *)
Theorem sendable_schedule s : wf_queues s ->
  (forall id u i, 0 <= u -> wf_queues (push_sendable id u i s) /\
     Permutation (queued (push_sendable id u i s)) ((u, i, id) :: queued s)) /\
  match peek_sendable s with
  | (None, s') => s' = s /\ queued s = []
  | (Some id, s') => wf_queues s' /\ Permutation (queued s') (queued s) /\
      exists u i, In (u, i, id) (queued s) /\ Forall (no_later (u, i, id)) (queued s) /\
        Permutation (queued s) ((u, i, id) :: queued (remove_sendable s')) /\
        wf_queues (remove_sendable s')
  end /\
  (forall u l m, sendable s = (u, StreamPriorityQueue.mkQueue [] l) :: m ->
     exists s', peeks (length l) s = (map Some l, s') /\ sendable s' = sendable s).
Proof.
  intros Hs. split; [|split].
  - intros id u i Hu. by apply push_sendable_spec.
  - by apply peek_sendable_spec.
  - intros u l m E. destruct (peeks_inc u m l [] s) as (s' & Hp & E' & _); [by rewrite app_nil_r|].
    exists s'. by rewrite E, E'.
Qed.

Definition sample_queue : StreamMap :=
  push_sendable 8 3 true (push_sendable 4 3 true (push_sendable 0 5 false
    (new false 100 100 (mkSTP 0 0 0 0 0 0)))).

Lemma sendable_schedule_witness : wf_queues sample_queue /\
  (peek_sendable sample_queue).1 = Some 4 /\
  (exists s', peeks 2 sample_queue = ([Some 4; Some 8], s') /\ sendable s' = sendable sample_queue).
Proof.
  assert (wf_queues sample_queue) as Hs.
  { unfold sample_queue. do 3 (apply push_sendable_spec; [|lia]). split; cbn; [done|constructor]. }
  split; [done|]. split; [by vm_compute|].
  exact (proj2 (proj2 (sendable_schedule sample_queue Hs)) 3 [4; 8] _ eq_refl).
Defined.
