(* ===== verification/ConnectionId.v ===== *)
(** * Connection ids and protocol constants

    Models [ConnectionId] and the protocol constants of [src/src/lib.rs].  A
    connection id is a length and a fixed array of [MAX_CID_LEN] octets whose
    unused tail is zero, so that the derived equality compares ids. *)

From S2P Require Import Prelude.

Definition QUIC_VERSION_V1 : Z := 1.
Definition MAX_CID_LEN : Z := 20.
Definition RESET_TOKEN_LEN : Z := 16.
Definition MIN_RESET_PACKET_LEN : Z := 21.

Definition version_is_supported (version : Z) : bool := version =? QUIC_VERSION_V1.

Module ConnectionId.

Record ConnectionId := mkCid { len_ : Z; data : list Z }.

Definition new (bytes : list Z) : ConnectionId :=
  let n := Z.min (len bytes) MAX_CID_LEN in
  mkCid n (ztake n bytes ++ repeat 0 (Z.to_nat (MAX_CID_LEN - n))).

Definition default : ConnectionId := mkCid 0 (repeat 0 20).

(** The octets the id dereferences to. *)
Definition deref (c : ConnectionId) : list Z := ztake (len_ c) (data c).

#[global] Instance cid_eq_dec : EqDecision ConnectionId.
Proof. solve_decision. Defined.

(** Ids as [new] builds them from bytes. *)
Definition valid (c : ConnectionId) : Prop := c = new (deref c) /\ bytes_ok (deref c).

Lemma deref_new bytes : deref (new bytes) = ztake MAX_CID_LEN bytes.
Proof.
  unfold deref, new, MAX_CID_LEN. cbn. pose proof (len_nonneg bytes).
  rewrite ztake_app by (rewrite len_ztake; lia). unfold ztake, len.
  destruct (Z.le_ge_cases (Z.of_nat (length bytes)) 20).
  - by rewrite !take_ge by lia.
  - do 2 f_equal. lia.
Qed.

Lemma deref_new_short bytes : len bytes <= MAX_CID_LEN -> deref (new bytes) = bytes.
Proof. intros H. rewrite deref_new. unfold ztake, len, MAX_CID_LEN in *. apply take_ge. lia. Qed.

Lemma len_deref_new bytes : len (deref (new bytes)) = Z.min (len bytes) MAX_CID_LEN.
Proof. rewrite deref_new. unfold len, ztake, MAX_CID_LEN. rewrite length_take. lia. Qed.

Lemma valid_len c : valid c -> len (deref c) <= MAX_CID_LEN.
Proof. intros [E _]. rewrite E, len_deref_new. lia. Qed.

Lemma valid_new bytes : bytes_ok bytes -> valid (new bytes).
Proof.
  intros Hb. split.
  - rewrite deref_new. unfold new. f_equal; unfold ztake, len, MAX_CID_LEN; rewrite length_take; [lia|].
    f_equal; [|f_equal; lia]. rewrite take_take. f_equal. lia.
  - rewrite deref_new. by apply bytes_ok_ztake.
Qed.

(** Two valid ids with the same octets are the same id. *)
Lemma valid_inj c d : valid c -> valid d -> deref c = deref d -> c = d.
Proof. intros [Ec _] [Ed _] E. rewrite Ec, Ed. by f_equal. Qed.

End ConnectionId.
