(* ===== verification/Wire.v ===== *)
(** * Automation for wire formats

    Composition of the [writes], [reads] and [safe] specifications of the codec:
    a format is proved by walking through the monadic code, each primitive step
    discharged by the hint database [wire]. *)

From S2P Require Import Prelude.
From S2P Require Import Error.
From S2P Require Import Codec.

Lemma zdrop_over {A} n (l : list A) : len l <= n -> zdrop n l = [].
Proof. unfold len, zdrop. intros H. apply drop_ge. lia. Qed.
Lemma ztake_over {A} n (l : list A) : len l <= n -> ztake n l = l.
Proof. unfold len, ztake. intros H. apply take_ge. lia. Qed.

Lemma writes_eq {A} (m : enc A) bs bs' a : writes m bs a -> bs = bs' -> writes m bs' a.
Proof. by intros H <-. Qed.
Lemma reads_eq {A} (m : dec A) bs bs' a : reads m bs a -> bs = bs' -> reads m bs' a.
Proof. by intros H <-. Qed.

Lemma reads_at {A} (m : dec A) bs a rest : reads m bs a -> m (bs ++ rest) = Ok (a, rest).
Proof. intros H. apply H. Qed.

(** One step of a run on a known prefix. *)
Lemma reads_then {A B} bs (m : dec A) (f : A -> dec B) a tail r :
  reads m bs a -> f a tail = r -> (m ≫= f) (bs ++ tail) = r.
Proof. intros H <-. by apply cursor_bind_ok. Qed.

Lemma clift_ok_bind {S A B} (a : A) (f : A -> cursor Error S B) s : (clift (Ok a) ≫= f) s = f a s.
Proof. done. Qed.

Lemma writes_clift {A} (a : A) : writes (clift (Ok a)) [] a.
Proof. apply (writes_ret a). Qed.
Lemma reads_clift {A} (a : A) : reads (clift (Ok a)) [] a.
Proof. by intros rest. Qed.

Lemma safe_clift {A} (m : res A) (P : A -> Prop) :
  no_panic m -> (forall a, m = Ok a -> P a) -> safe (clift m) P.
Proof.
  intros Hn Hp b _. unfold clift. destruct m; [|done..]. split; [by apply Hp|by exists []].
Qed.

Lemma safe_u16 : safe read_u16 (fun n => 0 <= n < 65536).
Proof. apply (safe_uint 2 2). done. Qed.
Lemma safe_u64 : safe read_u64 is_u64.
Proof. apply (safe_uint 8 8). done. Qed.

(** A step whose result is only known to be reached. *)
Lemma safe_if {A} (b : bool) (m n : dec A) P :
  (b = true -> safe m P) -> (b = false -> safe n P) -> safe (if b then m else n) P.
Proof. destruct b; auto. Qed.

(** A writer run over a slice with room for what it writes. *)
Lemma writes_run {A} (m : enc A) bs a buf : writes m bs a -> len bs <= len buf ->
  m (wbuf_of buf) = Ok (a, Wbuf bs (zdrop (len bs) buf)).
Proof. intros Hm Hl. rewrite Hm. cbn. by destruct (Z.leb_spec (len bs) (len buf)); [|lia]. Qed.

Lemma writes_short {A} (m : enc A) bs a buf : writes m bs a -> len buf < len bs ->
  m (wbuf_of buf) = Err BufferTooShort.
Proof. intros Hm Hl. rewrite Hm. cbn. by destruct (Z.leb_spec (len bs) (len buf)); [lia|]. Qed.

(** Run a writer over a whole output slice: the bytes used and the slice. *)
Definition run_enc (m : enc unit) (buf : list Z) : res (Z * list Z) :=
  match m (wbuf_of buf) with
  | Ok (_, w) => Ok (len buf - len (room w), filled w ++ room w)
  | Err e => Err e
  | Panic => Panic
  end.

Lemma run_enc_spec m bs buf : writes m bs tt ->
  run_enc m buf = if len bs <=? len buf then Ok (len bs, bs ++ zdrop (len bs) buf) else Err BufferTooShort.
Proof.
  intros Hm. unfold run_enc. destruct (Z.leb_spec (len bs) (len buf)) as [Hl|Hl].
  - rewrite (writes_run _ _ _ _ Hm Hl). cbn. rewrite len_zdrop by (pose proof (len_nonneg bs); lia).
    do 2 f_equal. lia.
  - by rewrite (writes_short _ _ _ _ Hm Hl).
Qed.

(** A reader that starts with a byte consumes something. *)
Lemma read_u8_then {A} (f : Z -> dec A) (P : A -> Prop) b a rest :
  bytes_ok b -> (read_u8 ≫= f) b = Ok (a, rest) -> (forall x, safe (f x) P) ->
  P a /\ 0 < len b - len rest <= len b.
Proof.
  intros Hb H Hf. cinv H. unfold read_u8 in E. destruct b as [|x b]; [done|].
  rewrite (ensured_uint_run 1 1) in E by (rewrite ?len_cons; pose proof (len_nonneg b); lia).
  injection E as <- <-. apply Forall_cons_1 in Hb as [_ Hb]. change (zdrop 1 (x :: b)) with b in H.
  specialize (Hf (be_val (ztake 1 (x :: b))) b Hb). rewrite H in Hf. destruct Hf as [Ha [pre ->]].
  split; [done|]. rewrite len_cons, len_app. pose proof (len_nonneg pre). pose proof (len_nonneg rest). lia.
Qed.

Create HintDb wire.
(** The minimal encoding of an integer. *)
Definition vb (n : Z) : list Z := varint_bytes (varint_len n) n.

Lemma len_vb n : len (vb n) = varint_len n.
Proof. apply len_varint_bytes, varint_len_size. Qed.

Lemma writes_vb n : is_vint n -> writes (write_varint n) (vb n) (varint_len n).
Proof. apply writes_varint. Qed.
Lemma reads_vb n : is_vint n -> reads read_varint (vb n) n.
Proof. apply reads_vint. Qed.

#[export] Hint Resolve writes_u8 writes_u16 writes_u32 writes_u64 writes_write writes_varint
  writes_ret writes_clift : wire.
#[export] Hint Resolve reads_u8 reads_u16 reads_u32 reads_u64 reads_vint reads_ret reads_clift : wire.
#[export] Hint Resolve safe_u8 safe_u16 safe_u32 safe_u64 safe_varint safe_fail : wire.
#[export] Hint Extern 2 (reads (read _) _ _) => (apply reads_read; try reflexivity; lia) : wire.
#[export] Hint Extern 4 (is_u8 _) => (unfold is_u8; lia) : wire.
#[export] Hint Extern 4 (is_vint _) => (unfold is_vint, VINT_MAX in *; lia) : wire.
#[export] Hint Extern 4 (_ <= _ < _) => lia : wire.

Ltac writes_all :=
  repeat (eapply writes_bind; [solve [eauto with wire]|cbv beta]); try solve [eauto with wire].
Ltac reads_all :=
  repeat (eapply reads_bind; [solve [eauto with wire]|cbv beta]); try solve [eauto with wire].

(** Compare two concatenations of the same parts. *)
Ltac app_norm := repeat rewrite <- app_assoc; rewrite ?app_nil_r, ?app_nil_l; try reflexivity.

Lemma small_vint n : 0 <= n < 4611686018427387904 -> is_vint n.
Proof. unfold is_vint, VINT_MAX. lia. Qed.
Lemma varint_len_vint n : is_vint (varint_len n).
Proof. destruct (varint_len_size n) as [->|[->|[->| ->]]]; apply small_vint; lia. Qed.

(** A step of the writer that only computes. *)
Lemma writes_pure {A B} (r : res A) a (f : A -> enc B) bs b :
  r = Ok a -> writes (f a) bs b -> writes (clift r ≫= f) bs b.
Proof. intros ->. eapply (writes_bind _ _ []). apply writes_clift. Qed.

(** A varint takes at least its shortest length off the input. *)
Lemma read_varint_consumes b n rest : bytes_ok b -> read_varint b = Ok (n, rest) ->
  is_vint n /\ bytes_ok rest /\ varint_len n + len rest <= len b.
Proof.
  intros Hb Hr. pose proof (safe_varint b Hb) as Hs. rewrite Hr in Hs. cbn in Hs.
  destruct b as [|x b]; [done|]. destruct (decode_varint_len_byte x) as (l & Hd & Hl).
  { by apply Forall_cons_1 in Hb as [? _]. }
  rewrite (read_varint_run (x :: b) l) in Hr by done. zcase_in Hr; [done|]. simplify_eq.
  split; [tauto|]. split; [by apply bytes_ok_zdrop|].
  assert (0 <= l) by (destruct Hl as [->|[->|[->| ->]]]; lia). rewrite len_zdrop by lia.
  rewrite Z.land_ones by (destruct Hl as [->|[->|[->| ->]]]; lia). set (v := _ mod _).
  assert (0 <= v < 2 ^ (8 * l - 2)) by (apply Z.mod_pos_bound, Z.pow_pos_nonneg; destruct Hl as [->|[->|[->| ->]]]; lia).
  enough (varint_len v <= l) by lia.
  unfold varint_len. destruct Hl as [->|[->|[->| ->]]]; cbn in *; repeat case_match; lia.
Qed.
