(* ===== verification/PacketNum.v ===== *)
(** * Packet numbers

    Models [packet_num_len], [encode_packet_num] and [decode_packet_num] of
    [src/src/packet.rs] (RFC 9000 sections 17.1, A.2 and A.3).  The theorems show
    that a receiver recovers the full number from the truncated one. *)

From S2P Require Import Prelude.
From S2P Require Import Error.
From S2P Require Import Codec.

Definition MAX_PKT_NUM_LEN : Z := 4.

(** [u64::leading_zeros]. *)
Definition leading_zeros (n : Z) : Z := if n =? 0 then 64 else 63 - Z.log2 n.

Definition packet_num_len (pkt_num : Z) (largest_acked : option Z) : Z :=
  let num_unacked :=
    match largest_acked with
    | Some acked => sat_sub pkt_num acked
    | None => sat_add64 pkt_num 1
    end in
  let min_bits := 64 - leading_zeros num_unacked + 1 in
  (min_bits + 7) / 8.

Definition encode_packet_num (pkt_num l : Z) : enc Z :=
  match l with
  | 1 => write_u8 (wrap 8 pkt_num)
  | 2 => write_u16 (wrap 16 pkt_num)
  | 3 => write_u24 (wrap 32 pkt_num)
  | 4 => write_u32 (wrap 32 pkt_num)
  | _ => cfail InvalidPacket
  end ;;
  mret l.

(** [x & !m] on [u64] is [Z.ldiff x m]. *)
Definition decode_packet_num (largest_pn truncated_pn pkt_num_len : Z) : res Z :=
  let pn_nbits := pkt_num_len * 8 in
  expected_pn ← add64 largest_pn 1;
  pn_win ← (if pn_nbits <? 64 then Ok (Z.shiftl 1 pn_nbits) else Panic);
  let pn_hwin := pn_win / 2 in
  let pn_mask := pn_win - 1 in
  let candidate_pn := Z.lor (Z.ldiff expected_pn pn_mask) truncated_pn in
  low ← add64 candidate_pn pn_hwin;
  if (low <=? expected_pn) && (candidate_pn <? Z.shiftl 1 62 - pn_win) then Ok (candidate_pn + pn_win)
  else
    high ← add64 expected_pn pn_hwin;
    if (high <? candidate_pn) && (pn_win <=? candidate_pn) then Ok (candidate_pn - pn_win)
    else Ok candidate_pn.

(** ** Recovering the number *)

Lemma ldiff_ones x k : 0 <= k -> Z.ldiff x (2 ^ k - 1) = x / 2 ^ k * 2 ^ k.
Proof.
  intros Hk. replace (2 ^ k - 1) with (Z.ones k) by (rewrite Z.ones_equiv; lia).
  rewrite Z.ldiff_ones_r, Z.shiftl_mul_pow2, Z.shiftr_div_pow2; auto.
Qed.

(** The candidate has the high bits of the expected number and the low bits
    that were transmitted. *)
Lemma candidate_eq x k pn : 0 <= k ->
  Z.lor (Z.ldiff x (2 ^ k - 1)) (pn mod 2 ^ k) = x / 2 ^ k * 2 ^ k + pn mod 2 ^ k.
Proof.
  intros Hk. rewrite ldiff_ones, Z.lor_comm, lor_high by (try apply Z.mod_pos_bound; lia). lia.
Qed.

(** Which multiple of the window [2 * h] the number is in, relative to the
    expected one. *)
Lemma window_pick q q' r s h : 0 < h -> 0 <= r < 2 * h -> 0 <= s < 2 * h ->
  q' * (2 * h) + s - h < q * (2 * h) + r <= q' * (2 * h) + s + h ->
  q = if r + h <=? s then q' + 1 else if s + h <? r then q' - 1 else q'.
Proof.
  intros Hh Hr Hs Hw. assert (q' - 2 < q < q' + 2) by nia. zcase; nia.
Qed.

Lemma decode_in_window pn L k : 0 < k < 8 ->
  0 <= pn < 2 ^ 62 -> 0 <= L < 2 ^ 62 ->
  L + 1 - 2 ^ (8 * k - 1) < pn <= L + 1 + 2 ^ (8 * k - 1) ->
  decode_packet_num L (pn mod 2 ^ (8 * k)) k = Ok pn.
Proof.
  intros Hk Hpn HL Hw.
  assert (0 < 2 ^ (8 * k - 1) <= 2 ^ 55) as Hh.
  { split; [apply Z.pow_pos_nonneg; lia|apply Z.pow_le_mono_r; lia]. }
  assert (2 ^ (8 * k) = 2 * 2 ^ (8 * k - 1)) as E2 by (rewrite <- Z.pow_succ_r by lia; f_equal; lia).
  unfold decode_packet_num. rewrite add64_ok by lia. cbn [mbind outcome_bind].
  destruct (Z.ltb_spec (k * 8) 64); [|lia]. cbn [mbind outcome_bind].
  rewrite Z.shiftl_1_l, (Z.mul_comm k), candidate_eq, E2 by lia.
  set (h := 2 ^ (8 * k - 1)) in *. replace (2 * h / 2) with h by (rewrite Z.mul_comm, Z.div_mul; lia).
  change (Z.shiftl 1 62) with (2 ^ 62).
  pose proof (Z.div_mod pn (2 * h)) as Ep. pose proof (Z.div_mod (L + 1) (2 * h)) as El.
  pose proof (Z.mod_pos_bound pn (2 * h)) as Br. pose proof (Z.mod_pos_bound (L + 1) (2 * h)) as Bs.
  set (q := pn / (2 * h)) in *. set (q' := (L + 1) / (2 * h)) in *.
  set (r := pn mod (2 * h)) in *. set (s := (L + 1) mod (2 * h)) in *.
  assert (q = if r + h <=? s then q' + 1 else if s + h <? r then q' - 1 else q') as Hq
    by (apply (window_pick q q' r s h); lia).
  rewrite add64_ok by lia. cbn [mbind outcome_bind]. rewrite add64_ok by lia. cbn [mbind outcome_bind].
  clearbody q. subst q. clearbody q' r s h.
  revert Ep. zcase; intros Ep; cbn; f_equal; lia.
Qed.

(** ** The length of the field *)

(** The packet numbers in flight that [packet_num_len] makes room for. *)
Definition num_unacked (pkt_num : Z) (largest_acked : option Z) : Z :=
  match largest_acked with
  | Some acked => sat_sub pkt_num acked
  | None => sat_add64 pkt_num 1
  end.

Lemma packet_num_len_bound pn acked : 0 <= pn -> let l := packet_num_len pn acked in
  1 <= l /\ num_unacked pn acked < 2 ^ (8 * l - 1).
Proof.
  intros Hpn. unfold packet_num_len. fold (num_unacked pn acked).
  assert (0 <= num_unacked pn acked) as Hn
    by (unfold num_unacked, sat_sub, sat_add64; destruct acked; lia).
  set (n := num_unacked pn acked) in *. unfold leading_zeros. destruct (Z.eqb_spec n 0) as [->|Hz].
  - by split; vm_compute.
  - pose proof (Z.log2_nonneg n). set (b := 64 - (63 - Z.log2 n) + 1).
    pose proof (Z.div_mod (b + 7) 8). pose proof (Z.mod_pos_bound (b + 7) 8).
    split; [lia|]. apply Z.lt_le_trans with (2 ^ (Z.log2 n + 1)).
    + replace (Z.log2 n + 1) with (Z.succ (Z.log2 n)) by lia. apply Z.log2_spec. lia.
    + apply Z.pow_le_mono_r; lia.
Qed.

(** The field is read back as an integer of its width
    (in [decrypt_header]). *)
Definition read_packet_num (pkt_num_len : Z) : dec Z :=
  match pkt_num_len with
  | 1 => read_u8
  | 2 => read_u16
  | 3 => read_u24
  | 4 => read_u32
  | _ => cfail InvalidPacket
  end.

Lemma writes_packet_num pn l : 1 <= l <= 4 -> writes (encode_packet_num pn l) (be_bytes (Z.to_nat l) pn) l.
Proof.
  intros Hl. rewrite <- (app_nil_r (be_bytes _ _)).
  assert (l = 1 \/ l = 2 \/ l = 3 \/ l = 4) as [-> | [-> | [-> | ->]]] by lia; unfold encode_packet_num;
    (eapply writes_bind; [|apply writes_ret]).
  - rewrite <- (be_bytes_wrap 1). apply writes_u8.
  - rewrite <- (be_bytes_wrap 2). apply writes_u16.
  - replace (be_bytes (Z.to_nat 3) pn) with (be_bytes 3 (wrap 32 pn)).
    + apply writes_u24. unfold wrap. apply Z.mod_pos_bound. lia.
    + apply be_bytes_ext. unfold wrap. change (8 * Z.of_nat 3) with 24.
      change (2 ^ 32) with (2 ^ 24 * 2 ^ 8). rewrite Z.rem_mul_r by lia.
      rewrite Z.mul_comm, Z.mod_add by lia. apply Z.mod_mod. lia.
  - rewrite <- (be_bytes_wrap 4). apply writes_u32.
Qed.

Lemma reads_packet_num pn l : 1 <= l <= 4 ->
  reads (read_packet_num l) (be_bytes (Z.to_nat l) pn) (pn mod 2 ^ (8 * l)).
Proof.
  intros Hl. assert (0 <= pn mod 2 ^ (8 * l) < 2 ^ (8 * l)) as Hb by (apply Z.mod_pos_bound; lia).
  replace (be_bytes (Z.to_nat l) pn) with (be_bytes (Z.to_nat l) (pn mod 2 ^ (8 * l))).
  - assert (l = 1 \/ l = 2 \/ l = 3 \/ l = 4) as [-> | [-> | [-> | ->]]] by lia; unfold read_packet_num.
    + by apply reads_u8.
    + by apply reads_u16.
    + by apply reads_u24.
    + by apply reads_u32.
  - rewrite <- (be_bytes_wrap _ pn). by rewrite Z2Nat.id by lia.
Qed.

Lemma packet_num_recovered pn acked L : 0 <= pn < 2 ^ 62 -> 0 <= L < 2 ^ 62 ->
  (forall a, acked = Some a -> 0 <= a <= L) ->
  let l := packet_num_len pn acked in
  l <= 4 -> L + 1 < pn + 2 ^ (8 * l - 1) -> decode_packet_num L (pn mod 2 ^ (8 * l)) l = Ok pn.
Proof.
  intros Hpn HL Ha l Hl Hr. destruct (packet_num_len_bound pn acked) as [H1 Hn]; [lia|]. fold l in H1, Hn.
  apply decode_in_window; try lia. unfold num_unacked, sat_sub, sat_add64 in Hn.
  destruct acked as [a|]; [specialize (Ha a eq_refl)|]; lia.
Qed.

(** C29.  A packet number survives truncation: the field that [encode_packet_num] writes
    with the length chosen by [packet_num_len] is read back and decoded to the
    full number by any receiver that has processed everything the sender saw
    acknowledged and is not ahead of the packet by half a window or more.
    Lengths above four bytes are refused. *)
Theorem packet_number_roundtrip pn acked L w rest :
  0 <= pn < 2 ^ 62 -> 0 <= L < 2 ^ 62 -> (forall a, acked = Some a -> 0 <= a <= L) ->
  let l := packet_num_len pn acked in
  (4 < l -> encode_packet_num pn l w = Err InvalidPacket) /\
  (l <= 4 -> L + 1 < pn + 2 ^ (8 * l - 1) -> l <= len (room w) ->
   exists bs t, encode_packet_num pn l w = Ok (l, advance w bs) /\ len bs = l /\
     read_packet_num l (bs ++ rest) = Ok (t, rest) /\ decode_packet_num L t l = Ok pn).
Proof.
  intros Hpn HL Ha l. destruct (packet_num_len_bound pn acked) as [H1 _]; [lia|]. fold l in H1. split.
  - intros H4. unfold encode_packet_num. do 5 (destruct l as [|l|]; try done; try lia).
  - intros H4 Hr Hw. exists (be_bytes (Z.to_nat l) pn), (pn mod 2 ^ (8 * l)).
    assert (len (be_bytes (Z.to_nat l) pn) = l) as El by (rewrite len_be_bytes; lia). split_and!; auto.
    + rewrite writes_packet_num by lia. rewrite El. zcase; [done|lia].
    + apply reads_packet_num. lia.
    + by apply packet_num_recovered.
Qed.

Lemma packet_number_roundtrip_witness :
  exists bs t, encode_packet_num 0xac5c02 2 (wbuf_of [0; 0; 0]) =
      Ok (2, advance (wbuf_of [0; 0; 0]) bs) /\ len bs = 2 /\
    read_packet_num 2 (bs ++ []) = Ok (t, []) /\ decode_packet_num 0xac5bff t 2 = Ok 0xac5c02.
Proof.
  assert (packet_num_len 0xac5c02 (Some 0xabe8b3) = 2) as El by by vm_compute.
  pose proof (packet_number_roundtrip 0xac5c02 (Some 0xabe8b3) 0xac5bff (wbuf_of [0; 0; 0]) []) as H.
  rewrite El in H. apply H; try lia; [intros a [= <-]; lia|by vm_compute].
Defined.
