(* ===== verification/Packet.v ===== *)
(** * Packet headers

    Models the packet types and header codec of [src/src/packet.rs]:
    [PacketHeader::to_bytes], [from_bytes] and [header_info], and the Version
    Negotiation, Retry and Stateless Reset packets.  The AEAD that computes the
    Retry integrity tag and the random generator are parameters. *)

From S2P Require Import Prelude.
From S2P Require Import Error.
From S2P Require Import Codec.
From S2P Require Import Wire.
From S2P Require Import ConnectionId.

Abbreviation cid := ConnectionId.ConnectionId.
Import ConnectionId (deref).

Definition HEADER_LONG_FORM_BIT : Z := 0x80.
Definition HEADER_FIXED_BIT : Z := 0x40.
Definition HEADER_KEY_PHASE_BIT : Z := 0x04.
Definition PKT_TYPE_MASK : Z := 0x30.
Definition PKT_NUM_LEN_MASK : Z := 0x03.
Definition SAMPLE_LEN : Z := 16.

(** [aead::AES_128_GCM.tag_len()]. *)
Definition TAG_LEN : Z := 16.

Inductive PacketType := VersionNegotiation | Initial | ZeroRTT | Handshake | Retry | OneRTT.

#[global] Instance PacketType_eq_dec : EqDecision PacketType.
Proof. solve_decision. Defined.

Inductive Level := LevelInitial | LevelZeroRTT | LevelHandshake | LevelOneRTT.
Inductive SpaceId := SpaceInitial | SpaceHandshake | SpaceData | SpaceDataExt (i : Z).

#[global] Instance SpaceId_eq_dec : EqDecision SpaceId.
Proof. solve_decision. Defined.

Definition to_level (t : PacketType) : res Level :=
  match t with
  | Initial => Ok LevelInitial
  | ZeroRTT => Ok LevelZeroRTT
  | Handshake => Ok LevelHandshake
  | OneRTT => Ok LevelOneRTT
  | _ => Err InternalError
  end.

Definition to_space (t : PacketType) : res SpaceId :=
  match t with
  | Initial => Ok SpaceInitial
  | Handshake => Ok SpaceHandshake
  | ZeroRTT | OneRTT => Ok SpaceData
  | _ => Err InternalError
  end.

Record PacketHeader := mkHeader {
  pkt_type : PacketType;
  version : Z;
  dcid : cid;
  scid : cid;
  pkt_num_len : Z;
  pkt_num : Z;
  token : option (list Z);
  key_phase : bool;
}.

(** [header_first_byte & HEADER_LONG_FORM_BIT != 0]. *)
Definition long_header (first : Z) : bool := negb (Z.land first HEADER_LONG_FORM_BIT =? 0).

Definition put_header (h : PacketHeader) : enc unit :=
  match pkt_type h with
  | OneRTT =>
      let first := HEADER_FIXED_BIT in
      let first := if key_phase h then Z.lor first HEADER_KEY_PHASE_BIT else first in
      let first := Z.lor first (wrap 8 (sat_sub (pkt_num_len h) 1)) in
      write_u8 first ;; write (deref (dcid h)) ;; mret tt
  | _ =>
      let first := Z.lor HEADER_LONG_FORM_BIT HEADER_FIXED_BIT in
      t ← clift (match pkt_type h with
                 | Initial => Ok 0
                 | ZeroRTT => Ok 1
                 | Handshake => Ok 2
                 | Retry => Ok 3
                 | _ => Err InternalError
                 end);
      let first := Z.lor first (Z.shiftl t 4) in
      let first := Z.lor first (wrap 8 (sat_sub (pkt_num_len h) 1)) in
      write_u8 first ;;
      write_u32 (version h) ;;
      write_u8 (wrap 8 (len (deref (dcid h)))) ;;
      write (deref (dcid h)) ;;
      write_u8 (wrap 8 (len (deref (scid h)))) ;;
      write (deref (scid h)) ;;
      match pkt_type h with
      | Initial =>
          match token h with
          | Some v => write_varint (len v) ;; write v ;; mret tt
          | None => write_varint 0 ;; mret tt
          end
      | Retry => v ← clift (unwrap (token h)); write v ;; mret tt
      | _ => mret tt
      end
  end.

Definition to_bytes (h : PacketHeader) (buf : list Z) : res (Z * list Z) := run_enc (put_header h) buf.

(** The type-specific fields of a long header. *)
Definition get_token (t : PacketType) : dec (option (list Z)) :=
  match t with
  | Initial =>
      tl ← read_varint;
      if 0 <? tl then x ← read tl; mret (Some x) else mret None
  | Retry =>
      rest ← cget;
      if len rest <? TAG_LEN then cfail InvalidPacket
      else x ← read (len rest - TAG_LEN); mret (Some x)
  | _ => mret None
  end.

(** The rest of the header after its first byte. *)
Definition get_header_rest (dcid_len first : Z) : dec PacketHeader :=
  if negb (long_header first) then
    d ← read dcid_len;
    mret (mkHeader OneRTT 0 (ConnectionId.new d) ConnectionId.default 0 0 None false)
  else
    v ← read_u32;
    t ← clift (if v =? 0 then Ok VersionNegotiation
               else match Z.shiftr (Z.land first PKT_TYPE_MASK) 4 with
                    | 0 => Ok Initial
                    | 1 => Ok ZeroRTT
                    | 2 => Ok Handshake
                    | 3 => Ok Retry
                    | _ => Err InvalidPacket
                    end);
    dl ← read_u8;
    if version_is_supported v && (MAX_CID_LEN <? dl) then cfail InvalidPacket
    else
      d ← read dl;
      sl ← read_u8;
      if version_is_supported v && (MAX_CID_LEN <? sl) then cfail InvalidPacket
      else
        s ← read sl;
        tok ← get_token t;
        mret (mkHeader t v (ConnectionId.new d) (ConnectionId.new s) 0 0 tok false).

Definition get_header (dcid_len : Z) : dec PacketHeader := read_u8 ≫= get_header_rest dcid_len.

Definition from_bytes (buf : list Z) (dcid_len : Z) : res (PacketHeader * Z) :=
  match get_header dcid_len buf with
  | Ok (h, rest) => Ok (h, len buf - len rest)
  | Err e => Err e
  | Panic => Panic
  end.

Definition get_header_info (dcid_len : Z) : dec (bool * Z * cid) :=
  first ← read_u8;
  if negb (long_header first) then
    d ← read dcid_len; mret (false, 0, ConnectionId.new d)
  else
    v ← read_u32;
    dl ← read_u8;
    d ← read dl;
    mret (true, v, ConnectionId.new d).

Definition header_info (buf : list Z) (dcid_len : Z) : res (bool * Z * cid) :=
  match get_header_info dcid_len buf with
  | Ok (r, _) => Ok r
  | Err e => Err e
  | Panic => Panic
  end.

(** ** Other packets *)

(** [random_byte] is what [rand::random] returned. *)
Definition version_negotiation (random_byte : Z) (s d : list Z) (buf : list Z) : res (Z * list Z) :=
  run_enc (write_u8 (Z.lor random_byte HEADER_LONG_FORM_BIT) ;;
           write_u32 0 ;;
           write_u8 (wrap 8 (len d)) ;; write d ;;
           write_u8 (wrap 8 (len s)) ;; write s ;;
           write_u32 QUIC_VERSION_V1 ;; mret tt) buf.

Definition retry_header (s d tok : list Z) (ver : Z) : PacketHeader :=
  mkHeader Retry ver (ConnectionId.new d) (ConnectionId.new s) 0 0 (Some tok) false.

Section Retry.

(** The tag AES-128-GCM computes for empty plaintext and the given associated
    data under the fixed key and nonce of RFC 9001; [None] when it fails. *)
Context (retry_tag : list Z -> option (list Z)).

Definition compute_retry_integrity_tag (retry_hdr odcid : list Z) : res (list Z) :=
  pseudo ← run_enc (write_u8 (wrap 8 (len odcid)) ;; write odcid ;; write retry_hdr ;; mret tt)
             (repeat 0 (Z.to_nat (1 + len odcid + len retry_hdr)));
  ok_or CryptoFail (retry_tag pseudo.2).

Definition retry (s d odcid tok : list Z) (ver : Z) (out : list Z) : res (Z * list Z) :=
  if negb (version_is_supported ver) then Err UnknownVersion
  else
    '(hdr_len, out) ← to_bytes (retry_header s d tok ver) out;
    tag ← compute_retry_integrity_tag (ztake hdr_len out) odcid;
    '(_, rest) ← run_enc (write tag ;; mret tt) (zdrop hdr_len out);
    mret (hdr_len + len tag, ztake hdr_len out ++ rest).

Definition verify_retry_integrity_tag (buf odcid : list Z) : res unit :=
  if len buf <? TAG_LEN then Err BufferTooShort
  else
    tag ← compute_retry_integrity_tag (ztake (len buf - TAG_LEN) buf) odcid;
    if decide (zdrop (len buf - TAG_LEN) buf = tag) then Ok tt else Err CryptoFail.

End Retry.

(** [random] are the unpredictable bytes [fill_bytes] writes. *)
Definition stateless_reset (pkt_len : Z) (tok random out : list Z) : res (Z * list Z) :=
  if len out <? pkt_len then Err BufferTooShort
  else if pkt_len <? MIN_RESET_PACKET_LEN then Err InternalError
  else if negb (len tok =? RESET_TOKEN_LEN) then Err InternalError
  else
    let unpredict_len := pkt_len - RESET_TOKEN_LEN in
    let out := ztake unpredict_len random ++ zdrop unpredict_len out in
    let out := <[0%nat := Z.lor (Z.land (nth 0 out 0) 0x3f) HEADER_FIXED_BIT]> out in
    '(_, rest) ← run_enc (write tok ;; mret tt) (zdrop unpredict_len out);
    mret (pkt_len, ztake unpredict_len out ++ rest).

(** ** Wire format of a header *)

Definition type_bits (t : PacketType) : Z :=
  match t with ZeroRTT => 1 | Handshake => 2 | Retry => 3 | _ => 0 end.

Definition first_byte (h : PacketHeader) : Z :=
  match pkt_type h with
  | OneRTT => Z.lor (if key_phase h then Z.lor HEADER_FIXED_BIT HEADER_KEY_PHASE_BIT else HEADER_FIXED_BIT)
                (wrap 8 (sat_sub (pkt_num_len h) 1))
  | t => Z.lor (Z.lor (Z.lor HEADER_LONG_FORM_BIT HEADER_FIXED_BIT) (Z.shiftl (type_bits t) 4))
           (wrap 8 (sat_sub (pkt_num_len h) 1))
  end.

Definition token_bytes (h : PacketHeader) : list Z :=
  match pkt_type h, token h with
  | Initial, Some v => varint_bytes (varint_len (len v)) (len v) ++ v
  | Initial, None => varint_bytes 1 0
  | Retry, Some v => v
  | _, _ => []
  end.

Definition header_bytes (h : PacketHeader) : list Z :=
  be_bytes 1 (first_byte h) ++
  match pkt_type h with
  | OneRTT => deref (dcid h)
  | _ => be_bytes 4 (version h) ++
         be_bytes 1 (len (deref (dcid h))) ++ deref (dcid h) ++
         be_bytes 1 (len (deref (scid h))) ++ deref (scid h) ++ token_bytes h
  end.

(** Headers an endpoint sends. *)
Record header_ok (h : PacketHeader) : Prop := {
  ok_type : pkt_type h <> VersionNegotiation;
  ok_pn_len : 0 <= pkt_num_len h <= 4;
  ok_dcid : ConnectionId.valid (dcid h);
  ok_scid : ConnectionId.valid (scid h);
  ok_version : pkt_type h <> OneRTT -> 0 < version h < 4294967296;
  ok_token : match pkt_type h, token h with
             | Initial, Some v => 0 < len v <= VINT_MAX
             | Retry, Some v => True
             | Retry, None => False
             | _, Some _ => False
             | _, None => True
             end;
}.

(** What the receiver can know before header protection is removed. *)
Definition parsed (h : PacketHeader) : PacketHeader :=
  match pkt_type h with
  | OneRTT => mkHeader OneRTT 0 (dcid h) ConnectionId.default 0 0 None false
  | t => mkHeader t (version h) (dcid h) (scid h) 0 0 (token h) false
  end.

Lemma first_byte_spec h : header_ok h ->
  is_u8 (first_byte h) /\
  long_header (first_byte h) = negb (bool_decide (pkt_type h = OneRTT)) /\
  (pkt_type h <> OneRTT -> Z.shiftr (Z.land (first_byte h) PKT_TYPE_MASK) 4 = type_bits (pkt_type h)).
Proof.
  intros [Ht Hl _ _ _ _]. unfold first_byte.
  assert (pkt_num_len h = 0 \/ pkt_num_len h = 1 \/ pkt_num_len h = 2 \/ pkt_num_len h = 3 \/ pkt_num_len h = 4)
    as [-> | [-> | [-> | [-> | ->]]]] by lia;
  destruct (pkt_type h), (key_phase h); try done; by vm_compute.
Qed.

Lemma wrap8_cid c : ConnectionId.valid c -> wrap 8 (len (deref c)) = len (deref c) /\ is_u8 (len (deref c)).
Proof.
  intros H%ConnectionId.valid_len. pose proof (len_nonneg (deref c)). unfold MAX_CID_LEN, wrap, is_u8 in *.
  rewrite Z.mod_small; lia.
Qed.

Lemma writes_header h : header_ok h -> writes (put_header h) (header_bytes h) tt.
Proof.
  intros Hh. destruct (wrap8_cid _ (ok_dcid h Hh)) as [Ed _], (wrap8_cid _ (ok_scid h Hh)) as [Es _].
  pose proof (ok_type h Hh) as Ht. pose proof (ok_token h Hh) as Hk.
  unfold put_header, header_bytes, first_byte, token_bytes.
  destruct (pkt_type h); [done|..]; rewrite ?Ed, ?Es; cbn [type_bits].
  - destruct (token h) as [v|]; eapply writes_eq; [writes_all; eauto with wire| |writes_all; eauto with wire|];
      app_norm.
  - destruct (token h) as [v|]; [done|]. eapply writes_eq; [writes_all|app_norm].
  - destruct (token h) as [v|]; [done|]. eapply writes_eq; [writes_all|app_norm].
  - destruct (token h) as [v|]; [|done]. eapply writes_eq; [writes_all|app_norm].
  - eapply writes_eq; [writes_all|app_norm].
Qed.

(** The token of a Retry packet is everything but the integrity tag at its end. *)
Lemma get_token_spec h rest : header_ok h -> pkt_type h <> OneRTT ->
  (pkt_type h = Retry -> len rest = TAG_LEN) ->
  get_token (pkt_type h) (token_bytes h ++ rest) = Ok (token h, rest).
Proof.
  intros Hh Ho Hr. pose proof (ok_type h Hh) as Ht. pose proof (ok_token h Hh) as Hk.
  unfold get_token, token_bytes. destruct (pkt_type h); try done; destruct (token h) as [v|]; try done.
  - apply reads_at.
    eapply reads_bind; [eauto with wire|]. destruct (Z.ltb_spec 0 (len v)); [|lia].
    rewrite <- (app_nil_r v) at 2. reads_all.
  - apply reads_at. rewrite <- (app_nil_r (varint_bytes 1 0)).
    eapply reads_bind; [by apply (reads_varint 1 0); [left|]|]. apply reads_ret.
  - specialize (Hr eq_refl). unfold mbind at 1, cursor_bind at 1, cget. rewrite len_app, Hr.
    destruct (Z.ltb_spec (len v + TAG_LEN) TAG_LEN); [pose proof (len_nonneg v); lia|].
    apply reads_at. rewrite <- (app_nil_r v) at 2. reads_all.
Qed.

Lemma get_header_spec h rest : header_ok h -> (pkt_type h = Retry -> len rest = TAG_LEN) ->
  get_header (len (deref (dcid h))) (header_bytes h ++ rest) = Ok (parsed h, rest).
Proof.
  intros Hh Hr. destruct (first_byte_spec h Hh) as (Hf & Hlong & Hbits).
  destruct (wrap8_cid _ (ok_dcid h Hh)) as [_ Hd], (wrap8_cid _ (ok_scid h Hh)) as [_ Hs].
  pose proof (ConnectionId.valid_len _ (ok_dcid h Hh)) as Ld.
  pose proof (ConnectionId.valid_len _ (ok_scid h Hh)) as Ls.
  pose proof (proj1 (ok_dcid h Hh)) as Ed. pose proof (proj1 (ok_scid h Hh)) as Es.
  unfold get_header, get_header_rest, header_bytes.
  destruct (decide (pkt_type h = OneRTT)) as [E|Hne].
  - unfold parsed. rewrite E, bool_decide_true in * by done. apply reads_at.
    eapply reads_bind; [eauto with wire|]. rewrite Hlong. cbn [negb].
    rewrite <- (app_nil_r (deref _)) at 2. eapply reads_bind; [by apply reads_read|]. rewrite <- Ed. apply reads_ret.
  - rewrite bool_decide_false in Hlong by done. specialize (Hbits Hne).
    pose proof (ok_version h Hh Hne) as Hv. pose proof (get_token_spec h rest Hh Hne Hr) as Htok.
    pose proof (ok_type h Hh) as Ht.
    assert (parsed h = mkHeader (pkt_type h) (version h) (dcid h) (scid h) 0 0 (token h) false) as ->
      by (unfold parsed; by destruct (pkt_type h)).
    assert ((if version h =? 0 then Ok VersionNegotiation
             else match Z.shiftr (Z.land (first_byte h) PKT_TYPE_MASK) 4 with
                  | 0 => Ok Initial | 1 => Ok ZeroRTT | 2 => Ok Handshake | 3 => Ok Retry
                  | _ => Err InvalidPacket end) = (Ok (pkt_type h) : res PacketType)) as Etype.
    { destruct (Z.eqb_spec (version h) 0); [lia|]. rewrite Hbits. by destruct (pkt_type h). }
    assert (forall x, x <= MAX_CID_LEN -> version_is_supported (version h) && (MAX_CID_LEN <? x) = false) as Hlim.
    { intros x Hx. destruct (Z.ltb_spec MAX_CID_LEN x); [lia|]. apply andb_false_r. }
    replace (match pkt_type h with OneRTT => deref (dcid h) | _ => _ end) with
      (be_bytes 4 (version h) ++ be_bytes 1 (len (deref (dcid h))) ++ deref (dcid h) ++
       be_bytes 1 (len (deref (scid h))) ++ deref (scid h) ++ token_bytes h) by by destruct (pkt_type h).
    rewrite <- !app_assoc. eapply reads_then; [eauto with wire|]. rewrite Hlong. cbn [negb].
    eapply reads_then; [eauto with wire|]. rewrite Etype, clift_ok_bind.
    eapply reads_then; [eauto with wire|]. rewrite Hlim by done. eapply reads_then; [eauto with wire|].
    eapply reads_then; [eauto with wire|]. rewrite Hlim by done. eapply reads_then; [eauto with wire|].
    erewrite cursor_bind_ok by exact Htok. by rewrite <- Ed, <- Es.
Qed.

Lemma header_info_spec h rest : header_ok h ->
  header_info (header_bytes h ++ rest) (len (deref (dcid h))) =
    Ok (negb (bool_decide (pkt_type h = OneRTT)), version (parsed h), dcid h).
Proof.
  intros Hh. destruct (first_byte_spec h Hh) as (Hf & Hlong & _).
  destruct (wrap8_cid _ (ok_dcid h Hh)) as [_ Hd]. pose proof (proj1 (ok_dcid h Hh)) as Ed.
  unfold header_info, get_header_info, header_bytes, parsed.
  destruct (decide (pkt_type h = OneRTT)) as [E|Hne].
  - rewrite E, bool_decide_true in * by done. rewrite <- app_assoc.
    erewrite reads_then; [|by eauto with wire|rewrite Hlong; cbn [negb]; erewrite reads_then;
      [|by apply reads_read|reflexivity]; reflexivity]. cbn. by rewrite <- Ed.
  - rewrite bool_decide_false in * by done. pose proof (ok_version h Hh Hne) as Hv.
    replace (match pkt_type h with OneRTT => deref (dcid h) | _ => _ end) with
      (be_bytes 4 (version h) ++ be_bytes 1 (len (deref (dcid h))) ++ deref (dcid h) ++
       be_bytes 1 (len (deref (scid h))) ++ deref (scid h) ++ token_bytes h) by by destruct (pkt_type h).
    rewrite <- !app_assoc. erewrite reads_then; [|by eauto with wire|rewrite Hlong; cbn [negb];
      eapply reads_then; [by eauto with wire|]; eapply reads_then; [by eauto with wire|];
      eapply reads_then; [by eauto with wire|]; reflexivity].
    cbn. rewrite <- Ed. by destruct (pkt_type h).
Qed.

Lemma len_header_bytes_pos h : 0 < len (header_bytes h).
Proof.
  unfold header_bytes. rewrite len_app, len_be_bytes.
  match goal with |- context [_ + len ?l] => pose proof (len_nonneg l) end. lia.
Qed.


Definition sample_header : PacketHeader :=
  mkHeader Initial QUIC_VERSION_V1 (ConnectionId.new [1; 2; 3; 4; 5; 6; 7; 8]) (ConnectionId.new [9; 10])
    2 7 (Some [0xaa; 0xbb]) false.


(** ** Arbitrary input *)

Lemma safe_get_token t : safe (get_token t) (fun _ => True).
Proof.
  unfold get_token. destruct t; try by apply safe_ret.
  - eapply safe_bind; [apply safe_varint|]. intros tl Htl. unfold is_vint in Htl. apply safe_if; intros _.
    + eapply safe_bind; [apply safe_read; lia|]. intros x _. by apply safe_ret.
    + by apply safe_ret.
  - intros b Hb. unfold mbind at 1, cursor_bind at 1, cget. destruct (Z.ltb_spec (len b) TAG_LEN); [done|].
    refine ((_ : safe (x ← read (len b - TAG_LEN); mret (Some x)) _) b Hb).
    eapply safe_bind; [apply safe_read; lia|]. intros x _. by apply safe_ret.
Qed.

Lemma safe_get_header_rest n first : 0 <= n -> safe (get_header_rest n first)
  (fun h => ConnectionId.valid (dcid h) /\ ConnectionId.valid (scid h)).
Proof.
  intros Hn. unfold get_header_rest. apply safe_if; intros _.
  - eapply safe_bind; [by apply safe_read|]. intros d [_ Hd]. apply safe_ret.
    split; [by apply ConnectionId.valid_new|]. exact (ConnectionId.valid_new [] (Forall_nil_2 _)).
  - eapply safe_bind; [apply safe_u32|]. intros v _.
    eapply safe_bind; [apply (safe_clift _ (fun _ => True)); [|done]|].
    { destruct (v =? 0); [done|]. by destruct (Z.shiftr _ _) as [|[[]|[]|]|]. }
    intros t _. eapply safe_bind; [apply safe_u8|]. intros dl Hdl. unfold is_u8 in Hdl.
    apply safe_if; intros _; [apply safe_fail|].
    eapply safe_bind; [apply safe_read; lia|]. intros d [_ Hd].
    eapply safe_bind; [apply safe_u8|]. intros sl Hsl. unfold is_u8 in Hsl.
    apply safe_if; intros _; [apply safe_fail|].
    eapply safe_bind; [apply safe_read; lia|]. intros s [_ Hs].
    eapply safe_bind; [apply safe_get_token|]. intros tok _. apply safe_ret. split; by apply ConnectionId.valid_new.
Qed.

Lemma safe_get_header_info n : 0 <= n -> safe (get_header_info n) (fun r => ConnectionId.valid r.2).
Proof.
  intros Hn. unfold get_header_info. eapply safe_bind; [apply safe_u8|]. intros first _. apply safe_if; intros _.
  - eapply safe_bind; [by apply safe_read|]. intros d [_ Hd]. apply safe_ret. by apply ConnectionId.valid_new.
  - eapply safe_bind; [apply safe_u32|]. intros v _. eapply safe_bind; [apply safe_u8|]. intros dl Hdl.
    unfold is_u8 in Hdl. eapply safe_bind; [apply safe_read; lia|]. intros d [_ Hd]. apply safe_ret.
    by apply ConnectionId.valid_new.
Qed.

(** What the endpoint dispatches on is what the connection parses. *)
Lemma header_info_agrees n buf h rest : get_header n buf = Ok (h, rest) ->
  header_info buf n = Ok (negb (bool_decide (pkt_type h = OneRTT)), version h, dcid h).
Proof.
  unfold get_header, get_header_rest, header_info, get_header_info. intros H. cinv H. unfold mbind at 1, cursor_bind at 1. rewrite E.
  destruct (negb (long_header a)).
  - cinv H. injection H as <- <-. unfold mbind at 1, cursor_bind at 1. by rewrite E0.
  - cinv H. unfold mbind at 1, cursor_bind at 1. rewrite E0. cinv H. cinv H.
    unfold clift in E1.
    assert (a1 <> OneRTT /\ s1 = s0) as [Ht ->].
    { destruct (a0 =? 0); [by injection E1 as <- <-|].
      by destruct (Z.shiftr _ _) as [|[[]|[]|]|]; injection E1 as <- <- || discriminate E1. }
    unfold mbind at 1, cursor_bind at 1. rewrite E2. destruct (_ && _); [discriminate H|].
    cinv H. unfold mbind at 1, cursor_bind at 1. rewrite E3. cinv H. destruct (_ && _); [discriminate H|].
    cinv H. cinv H. injection H as <- <-. cbn. by rewrite bool_decide_false.
Qed.

(** Any bytes parse safely: [from_bytes] and [header_info] never panic, a parsed
    header consumes at least one byte and no more than there are, its connection
    ids are valid (at most 20 bytes), and [header_info] agrees with it. *)
Theorem header_decode_total buf n : bytes_ok buf -> 0 <= n ->
  match from_bytes buf n with
  | Ok (h, used) => 0 < used <= len buf /\ ConnectionId.valid (dcid h) /\ ConnectionId.valid (scid h) /\
      header_info buf n = Ok (negb (bool_decide (pkt_type h = OneRTT)), version h, dcid h)
  | Err _ => header_info buf n <> Panic
  | Panic => False
  end.
Proof.
  intros Hb Hn. unfold from_bytes. destruct (get_header n buf) as [[h rest]| |] eqn:E; unfold get_header in E.
  - destruct (read_u8_then _ _ _ _ _ Hb E (fun a => safe_get_header_rest n a Hn)) as ([Hd Hs] & Hl).
    split; [done|]. split; [done|]. split; [done|]. by eapply header_info_agrees.
  - unfold header_info. pose proof (safe_get_header_info n Hn buf Hb) as Hi.
    by destruct (get_header_info n buf) as [[]| |].
  - by apply (safe_bind read_u8 _ _ _ safe_u8 (fun a _ => safe_get_header_rest n a Hn) buf) in Hb; rewrite E in Hb.
Qed.

(** A Handshake packet of an unknown version, whose destination id has 21 bytes. *)
Lemma header_decode_total_witness :
  match from_bytes ([0xe0; 0; 0; 0; 2; 21] ++ repeat 7 21 ++ [0]) 8 with
  | Ok (h, used) => used = 28 /\ ConnectionId.valid (dcid h) /\ deref (dcid h) = repeat 7 20
  | _ => False
  end.
Proof.
  pose proof (header_decode_total ([0xe0; 0; 0; 0; 2; 21] ++ repeat 7 21 ++ [0]) 8) as H.
  destruct (from_bytes _ _) as [[h used]| |] eqn:E; vm_compute in E; [|done..].
  injection E as <- <-. split; [done|]. split; [|done].
  apply H; [repeat constructor; unfold is_u8; lia|lia].
Defined.

(** ** Retry packets *)

Definition retry_pseudo (hdr odcid : list Z) : list Z := be_bytes 1 (wrap 8 (len odcid)) ++ odcid ++ hdr.

Lemma compute_tag_spec tag hdr odcid :
  compute_retry_integrity_tag tag hdr odcid = ok_or CryptoFail (tag (retry_pseudo hdr odcid)).
Proof.
  unfold compute_retry_integrity_tag.
  rewrite (run_enc_spec _ (retry_pseudo hdr odcid)).
  2: { eapply writes_eq; [writes_all|unfold retry_pseudo; app_norm]. }
  assert (len (repeat 0 (Z.to_nat (1 + len odcid + len hdr))) = len (retry_pseudo hdr odcid)) as El.
  { unfold retry_pseudo. rewrite !len_app, len_be_bytes. unfold len at 1. rewrite repeat_length.
    pose proof (len_nonneg odcid). pose proof (len_nonneg hdr). lia. }
  rewrite El, Z.leb_refl. cbn [mbind outcome_bind snd]. by rewrite zdrop_over, app_nil_r by lia.
Qed.

Lemma retry_header_ok s d tok : bytes_ok s -> bytes_ok d -> header_ok (retry_header s d tok QUIC_VERSION_V1).
Proof. intros Hs Hd. split; cbn; try done || lia; by apply ConnectionId.valid_new. Qed.

Lemma verify_own_tag tag hdr odcid t : tag (retry_pseudo hdr odcid) = Some t -> len t = TAG_LEN ->
  verify_retry_integrity_tag tag (hdr ++ t) odcid = Ok tt.
Proof.
  intros Ht Hl. unfold verify_retry_integrity_tag. rewrite len_app, Hl. pose proof (len_nonneg hdr).
  destruct (Z.ltb_spec (len hdr + TAG_LEN) TAG_LEN); [lia|].
  replace (len hdr + TAG_LEN - TAG_LEN) with (len hdr) by lia.
  rewrite ztake_app_len, zdrop_app_len, compute_tag_spec, Ht. cbn. by destruct (decide _).
Qed.

(** A Retry packet verifies: with any AEAD whose tags have 16 bytes, [retry] of a
    supported version either reports a short buffer or a failed AEAD, or writes
    a packet that [verify_retry_integrity_tag] accepts for the same original
    destination id and that parses to the given ids and token.  Other versions
    are refused. *)
Theorem retry_verifies tag s d odcid tok ver out k :
  (forall ad t, tag ad = Some t -> len t = TAG_LEN) -> bytes_ok s -> bytes_ok d ->
  let h := retry_header s d tok ver in
  match retry tag s d odcid tok ver out with
  | Ok (n, out') => n = len (header_bytes h) + TAG_LEN /\ len out' = len out /\
      verify_retry_integrity_tag tag (ztake n out') odcid = Ok tt /\
      (k = len (deref (dcid h)) -> from_bytes (ztake n out') k = Ok (h, n - TAG_LEN))
  | Err e => e = UnknownVersion /\ ver <> QUIC_VERSION_V1 \/
      e = BufferTooShort /\ len out < len (header_bytes h) + TAG_LEN \/
      e = CryptoFail /\ tag (retry_pseudo (header_bytes h) odcid) = None
  | Panic => False
  end.
Proof.
  intros Htag Hs Hd h. unfold retry. fold h. unfold version_is_supported.
  destruct (Z.eqb_spec ver QUIC_VERSION_V1) as [E|]; cbn [negb]; [|by left]. subst ver.
  pose proof (retry_header_ok s d tok Hs Hd) as Hh. fold h in Hh. unfold to_bytes.
  rewrite (run_enc_spec _ _ out (writes_header h Hh)). pose proof (len_nonneg (header_bytes h)).
  destruct (Z.leb_spec (len (header_bytes h)) (len out)) as [Hl|Hl]; cbn [mbind outcome_bind];
    [|right; left; split; [done|]; unfold TAG_LEN; lia].
  rewrite ztake_app_len, zdrop_app_len, compute_tag_spec.
  destruct (tag _) as [t|] eqn:Et; cbn [ok_or mbind outcome_bind]; [|by right; right].
  pose proof (Htag _ _ Et) as Ht.
  rewrite (run_enc_spec _ t) by (eapply writes_eq; [writes_all|app_norm]).
  assert (len (zdrop (len (header_bytes h)) out) = len out - len (header_bytes h)) as Ez by (rewrite len_zdrop; lia).
  rewrite Ez. destruct (Z.leb_spec (len t) (len out - len (header_bytes h))) as [Hr|Hr]; cbn [mbind outcome_bind];
    [|right; left; split; [done|]; lia].
  cbn [mret outcome_ret]. rewrite app_assoc. rewrite (ztake_app _ (header_bytes h ++ t)) by (rewrite len_app; done).
  split_and!; [lia| |by apply verify_own_tag|].
  { rewrite !len_app, len_zdrop; rewrite Ez; pose proof (len_nonneg t); lia. }
  intros ->.
  unfold from_bytes. rewrite get_header_spec by done. rewrite len_app. do 2 f_equal. lia.
Qed.

(** A checksum stands in for the AEAD. *)
Definition sample_tag (ad : list Z) : option (list Z) := Some (be_bytes 16 (be_val ad)).

Lemma retry_verifies_witness :
  exists n out, retry sample_tag [1; 2] [3; 4; 5] [6; 7; 8; 9] [10; 11] 1 (repeat 0 40) = Ok (n, out) /\
    verify_retry_integrity_tag sample_tag (ztake n out) [6; 7; 8; 9] = Ok tt.
Proof.
  pose proof (retry_verifies sample_tag [1; 2] [3; 4; 5] [6; 7; 8; 9] [10; 11] 1 (repeat 0 40) 3) as H.
  destruct (retry _ _ _ _ _ _ _) as [[n out]| |] eqn:E; [|by vm_compute in E..].
  exists n, out. split; [done|].
  apply H; [by intros ad t [= <-]|repeat constructor; unfold is_u8; lia..].
Defined.

(** ** Version Negotiation and Stateless Reset *)

Lemma land_lor_same a b : Z.land (Z.lor a b) b = b.
Proof. apply Z.bits_inj'. intros i _. rewrite Z.land_spec, Z.lor_spec. by destruct (Z.testbit a i), (Z.testbit b i). Qed.

Lemma lor_128 r : 0 <= r < 128 -> Z.lor r 128 = r + 128.
Proof. intros Hr. by apply (lor_high r 1 7). Qed.

Lemma vn_first_byte r : is_u8 r -> is_u8 (Z.lor r HEADER_LONG_FORM_BIT) /\
  long_header (Z.lor r HEADER_LONG_FORM_BIT) = true.
Proof.
  intros Hr. split; [|unfold long_header; by rewrite land_lor_same].
  unfold is_u8, HEADER_LONG_FORM_BIT in *. destruct (Z.lt_ge_cases r 128).
  - rewrite lor_128; lia.
  - replace r with (Z.lor (r - 128) 128) by (rewrite lor_128; lia).
    rewrite <- Z.lor_assoc, Z.lor_diag, lor_128; lia.
Qed.

Definition vn_bytes (r : Z) (s d : list Z) : list Z :=
  be_bytes 1 (Z.lor r HEADER_LONG_FORM_BIT) ++ be_bytes 4 0 ++ be_bytes 1 (len d) ++ d ++
  be_bytes 1 (len s) ++ s.

Lemma reads_vn r s d k : is_u8 r -> len s <= 255 -> len d <= 255 ->
  reads (get_header k) (vn_bytes r s d)
    (mkHeader VersionNegotiation 0 (ConnectionId.new d) (ConnectionId.new s) 0 0 None false).
Proof.
  intros Hr Hs Hd. destruct (vn_first_byte r Hr) as [Hf Hl]. pose proof (len_nonneg s). pose proof (len_nonneg d).
  assert (is_u8 (len s) /\ is_u8 (len d)) as [] by (unfold is_u8; lia).
  unfold get_header, get_header_rest, vn_bytes. eapply reads_bind; [eauto with wire|]. rewrite Hl. cbn [negb].
  eapply reads_bind; [apply reads_u32; lia|]. cbn [Z.eqb]. intros rest.
  rewrite clift_ok_bind. change (version_is_supported 0) with false. cbn [andb].
  rewrite <- !app_assoc. do 4 (eapply reads_then; [by eauto with wire|]). done.
Qed.

Lemma version_negotiation_spec r s d buf k : is_u8 r -> len s <= 255 -> len d <= 255 ->
  match version_negotiation r s d buf with
  | Ok (n, out) => n = 11 + len s + len d /\ len out = len buf /\
      from_bytes (ztake n out) k =
        Ok (mkHeader VersionNegotiation 0 (ConnectionId.new d) (ConnectionId.new s) 0 0 None false, n - 4) /\
      zdrop (n - 4) (ztake n out) = be_bytes 4 QUIC_VERSION_V1
  | Err e => e = BufferTooShort /\ len buf < 11 + len s + len d
  | Panic => False
  end.
Proof.
  intros Hr Hs Hd. pose proof (len_nonneg s). pose proof (len_nonneg d). unfold version_negotiation.
  rewrite (run_enc_spec _ (vn_bytes r s d ++ be_bytes 4 QUIC_VERSION_V1)).
  2: { unfold wrap. rewrite !Z.mod_small by lia. eapply writes_eq; [writes_all|unfold vn_bytes; app_norm]. }
  assert (len (vn_bytes r s d) = 7 + len s + len d) as El
    by (unfold vn_bytes; rewrite !len_app, !len_be_bytes; lia).
  assert (len (vn_bytes r s d ++ be_bytes 4 QUIC_VERSION_V1) = 11 + len s + len d) as El4
    by (rewrite len_app, El, len_be_bytes; lia).
  rewrite El4. zcase; [|done]. rewrite (ztake_app _ _ _ (eq_sym El4)).
  split; [done|]. split; [rewrite len_app, El4, len_zdrop; lia|]. split.
  - unfold from_bytes. rewrite (reads_vn r s d k Hr Hs Hd), El4. done.
  - rewrite zdrop_app; [done|lia].
Qed.

Lemma fixed_bits x : Z.land (Z.lor (Z.land x 0x3f) HEADER_FIXED_BIT) 0xc0 = HEADER_FIXED_BIT.
Proof.
  rewrite Z.land_lor_distr_l, <- Z.land_assoc. change (Z.land 0x3f 0xc0) with 0. by rewrite Z.land_0_r.
Qed.

Lemma stateless_reset_spec pkt_len tok random buf : len random = pkt_len - RESET_TOKEN_LEN ->
  match stateless_reset pkt_len tok random buf with
  | Ok (n, out) => n = pkt_len /\ len out = len buf /\
      Z.land (nth 0 out 0) 0xc0 = HEADER_FIXED_BIT /\ zdrop (n - RESET_TOKEN_LEN) (ztake n out) = tok
  | Err e => e = BufferTooShort /\ len buf < pkt_len \/
      e = InternalError /\ (pkt_len < MIN_RESET_PACKET_LEN \/ len tok <> RESET_TOKEN_LEN)
  | Panic => False
  end.
Proof.
  intros Hr. unfold stateless_reset. destruct (Z.ltb_spec (len buf) pkt_len); [by left|].
  destruct (Z.ltb_spec pkt_len MIN_RESET_PACKET_LEN); [by auto|].
  destruct (Z.eqb_spec (len tok) RESET_TOKEN_LEN) as [Et|]; [cbn [negb]|by right; split; [|right]].
  unfold MIN_RESET_PACKET_LEN, RESET_TOKEN_LEN in *. rewrite <- Hr, (ztake_over _ random) by lia.
  destruct random as [|x l]; [rewrite (@len_nil Z) in Hr; lia|].
  set (y := Z.lor _ _).
  change (<[0%nat := y]> ((x :: l) ++ zdrop (len (x :: l)) buf)) with ((y :: l) ++ zdrop (len (x :: l)) buf).
  assert (len (x :: l) = len (y :: l)) as El by (by rewrite !len_cons). rewrite El in *.
  rewrite zdrop_app_len, ztake_app_len, (run_enc_spec _ tok) by (eapply writes_eq; [writes_all|app_norm]).
  assert (len (zdrop (len (y :: l)) buf) = len buf - len (y :: l)) as Ez by (rewrite len_zdrop; lia).
  rewrite Ez. destruct (Z.leb_spec (len tok) (len buf - len (y :: l))); [|lia]. cbn [mbind outcome_bind mret outcome_ret].
  split; [done|]. split; [rewrite !len_app, len_zdrop; lia|]. split; [apply fixed_bits|].
  rewrite app_assoc, (ztake_app _ ((y :: l) ++ tok)) by (rewrite len_app; lia). apply zdrop_app. lia.
Qed.

(** The two packets sent without a connection have the shape receivers expect.  A
    Version Negotiation packet parses as such, with the ids it was given and the
    supported version after them.  A Stateless Reset of the requested size looks
    like a short-header packet and ends in the token; sizes below 21 and tokens
    that are not 16 bytes long are refused. *)
Theorem connectionless_packets r s d tok random buf k pkt_len :
  is_u8 r -> len s <= 255 -> len d <= 255 -> len random = pkt_len - RESET_TOKEN_LEN ->
  match version_negotiation r s d buf with
  | Ok (n, out) => n = 11 + len s + len d /\ len out = len buf /\
      from_bytes (ztake n out) k =
        Ok (mkHeader VersionNegotiation 0 (ConnectionId.new d) (ConnectionId.new s) 0 0 None false, n - 4) /\
      zdrop (n - 4) (ztake n out) = be_bytes 4 QUIC_VERSION_V1
  | Err e => e = BufferTooShort /\ len buf < 11 + len s + len d
  | Panic => False
  end /\
  match stateless_reset pkt_len tok random buf with
  | Ok (n, out) => n = pkt_len /\ len out = len buf /\
      Z.land (nth 0 out 0) 0xc0 = HEADER_FIXED_BIT /\ zdrop (n - RESET_TOKEN_LEN) (ztake n out) = tok
  | Err e => e = BufferTooShort /\ len buf < pkt_len \/
      e = InternalError /\ (pkt_len < MIN_RESET_PACKET_LEN \/ len tok <> RESET_TOKEN_LEN)
  | Panic => False
  end.
Proof.
  intros Hr Hs Hd Hrand. split; [by apply version_negotiation_spec|by apply stateless_reset_spec].
Qed.


Lemma connectionless_packets_witness :
  exists n out, stateless_reset 21 (repeat 5 16) [255; 1; 2; 3; 4] (repeat 0 30) = Ok (n, out) /\
    Z.land (nth 0 out 0) 0xc0 = HEADER_FIXED_BIT /\ zdrop (n - RESET_TOKEN_LEN) (ztake n out) = repeat 5 16.
Proof.
  pose proof (connectionless_packets 7 [1; 2] [3] (repeat 5 16) [255; 1; 2; 3; 4] (repeat 0 30) 0 21) as H.
  destruct (stateless_reset _ _ _ _) as [[n out]| |] eqn:E; [|by vm_compute in E..].
  exists n, out. split; [done|]. apply H; [unfold is_u8; lia|by vm_compute..].
Defined.
