(* ===== verification/Protect.v ===== *)
(** * Packet protection

    Models the sealing and opening of packets: [Seal], [Open] and [build_nonce] of
    [src/src/tls/boringssl/crypto.rs], and [encrypt_packet], [encrypt_header],
    [decrypt_payload] and [decrypt_header] of [src/src/packet.rs].  The AEAD and
    the header protection cipher are C and assembly code; they are operations
    of the class [Aead], with the laws the code relies on in [AeadLaws]. *)

From S2P Require Import Prelude.
From S2P Require Import Error.
From S2P Require Import Codec.
From S2P Require Import Wire.
From S2P Require Import ConnectionId.
From S2P Require Import PacketNum.
From S2P Require Import Packet.

(** [EVP_AEAD_CTX_seal_scatter] and [EVP_AEAD_CTX_open] on nonce, associated data
    and text, and [HeaderProtectionKey::new_mask] on a sample, under one key. *)
Class Aead := {
  evp_seal : list Z -> list Z -> list Z -> option (list Z) -> option (list Z);
  evp_open : list Z -> list Z -> list Z -> option (list Z);
  hp_mask : list Z -> option (list Z);
}.

Definition NONCE_LEN : Z := 12.

(** [zip] stops at the shorter list; the rest of [a] is unchanged. *)
Fixpoint xor_onto (a b : list Z) : list Z :=
  match a, b with
  | x :: a, y :: b => Z.lxor x y :: xor_onto a b
  | _, _ => a
  end.

(** [copy_from_slice] panics unless the lengths agree. *)
Definition build_nonce (iv : list Z) (cid_seq : option Z) (counter : Z) : res (list Z) :=
  if negb (len iv =? NONCE_LEN) then Panic
  else
    let nonce :=
      match cid_seq with
      | Some seq => xor_onto (ztake 4 iv) (be_bytes 4 seq) ++ zdrop 4 iv
      | None => iv
      end in
    Ok (ztake 4 nonce ++ xor_onto (zdrop 4 nonce) (be_bytes 8 counter)).

Section Protect.
Context `{Aead} (iv : list Z).

(** The bytes written into [buf] and their number. *)
Definition seal (cid_seq : option Z) (counter : Z) (ad buf : list Z) (in_len : Z)
    (extra_in : option (list Z)) : res (Z * list Z) :=
  let extra_in_len := match extra_in with Some v => len v | None => 0 end in
  if len buf <? in_len + TAG_LEN + extra_in_len then Err CryptoFail
  else
    nonce ← build_nonce iv cid_seq counter;
    match evp_seal nonce ad (ztake in_len buf) extra_in with
    | None => Err CryptoFail
    | Some ct => Ok (len ct, ct ++ zdrop (len ct) buf)
    end.

Definition open (cid_seq : option Z) (counter : Z) (ad ciphertext plaintext : list Z) : res (Z * list Z) :=
  if len ciphertext <? TAG_LEN then Err CryptoFail
  else if len plaintext <? len ciphertext - TAG_LEN then Err CryptoFail
  else
    nonce ← build_nonce iv cid_seq counter;
    match evp_open nonce ad ciphertext with
    | None => Err CryptoFail
    | Some pt => Ok (len pt, pt ++ zdrop (len pt) plaintext)
    end.

Definition new_mask (sample : list Z) : res (list Z) := ok_or CryptoFail (hp_mask sample).

(** [&l[o..o + n]]. *)
Definition slice (o n : Z) (l : list Z) : res (list Z) :=
  if (0 <=? o) && (o + n <=? len l) then Ok (ztake n (zdrop o l)) else Panic.

(** Protect or unprotect the first byte. *)
Definition mask_first (first : Z) (mask : list Z) : Z :=
  if long_header first then Z.lxor first (Z.land (nth 0 mask 0) 0x0f)
  else Z.lxor first (Z.land (nth 0 mask 0) 0x1f).

(** [for i in 0..buf.len() { buf[i] ^= mask[i + 1] }]; an index outside the mask
    panics. *)
Definition mask_packet_num (buf mask : list Z) : res (list Z) :=
  if len mask <? 1 + len buf then Panic else Ok (xor_onto buf (zdrop 1 mask)).

Definition encrypt_header (hdr_buf : list Z) (pkt_num_len : Z) (payload : list Z) : res (list Z) :=
  sample_start ← sub64 MAX_PKT_NUM_LEN pkt_num_len;
  sample ← slice sample_start SAMPLE_LEN payload;
  mask ← new_mask sample;
  match hdr_buf with
  | [] => Panic
  | first :: rest =>
      n ← sub64 (len rest) pkt_num_len;
      pn ← mask_packet_num (zdrop n rest) mask;
      mret (mask_first first mask :: ztake n rest ++ pn)
  end.

Definition encrypt_packet (pkt_buf : list Z) (cid_seq : option Z)
    (pkt_num pkt_num_len payload_len payload_offset : Z) (extra_in : option (list Z)) : res (Z * list Z) :=
  if len pkt_buf <? payload_offset + payload_len then Err BufferTooShort
  else
    let pkt_hdr := ztake payload_offset pkt_buf in
    let payload := zdrop payload_offset pkt_buf in
    '(ciphertext_len, payload) ← seal cid_seq pkt_num pkt_hdr payload payload_len extra_in;
    pkt_hdr ← encrypt_header pkt_hdr pkt_num_len payload;
    mret (payload_offset + ciphertext_len, pkt_hdr ++ payload).

Definition decrypt_payload (pkt_buf : list Z) (payload_offset payload_len : Z) (cid_seq : option Z)
    (pkt_num : Z) : res (list Z) :=
  if len pkt_buf <? payload_offset + payload_len then Err BufferTooShort
  else
    let header_buf := ztake payload_offset pkt_buf in
    let payload_buf := ztake payload_len (zdrop payload_offset pkt_buf) in
    '(n, plaintext) ← open cid_seq pkt_num header_buf payload_buf (repeat 0 (Z.to_nat payload_len));
    mret (ztake n plaintext).

(** The packet number field and the first byte, in the clear. *)
Definition unprotect (pkt_buf : list Z) (pkt_num_offset : Z) (plaintext_mode : bool) : res (Z * Z * list Z) :=
  match pkt_buf with
  | [] => Panic
  | first :: _ =>
      if plaintext_mode then
        let pkt_num_len := Z.land first PKT_NUM_LEN_MASK + 1 in
        pn ← slice pkt_num_offset pkt_num_len pkt_buf;
        mret (first, pkt_num_len, pn)
      else
        sample ← slice (pkt_num_offset + MAX_PKT_NUM_LEN) SAMPLE_LEN pkt_buf;
        mask ← new_mask sample;
        let first := mask_first first mask in
        let pkt_num_len := Z.land first PKT_NUM_LEN_MASK + 1 in
        pn ← slice pkt_num_offset pkt_num_len pkt_buf;
        pn ← mask_packet_num pn mask;
        mret (first, pkt_num_len, pn)
  end.

(** The buffer with the clear fields written back, and the updated header. *)
Definition decrypt_header (pkt_buf : list Z) (pkt_num_offset : Z) (hdr : PacketHeader)
    (plaintext_mode : bool) : res (list Z * PacketHeader) :=
  let pkt_buf_min :=
    if negb plaintext_mode then pkt_num_offset + MAX_PKT_NUM_LEN + SAMPLE_LEN
    else pkt_num_offset + MAX_PKT_NUM_LEN in
  if len pkt_buf <? pkt_buf_min then Err BufferTooShort
  else
    '(first, pkt_num_len, pn) ← unprotect pkt_buf pkt_num_offset plaintext_mode;
    let pkt_buf := ztake pkt_num_offset pkt_buf ++ pn ++ zdrop (pkt_num_offset + pkt_num_len) pkt_buf in
    match read_packet_num pkt_num_len pn with
    | Ok (pkt_num, _) =>
        let pkt_buf := <[0%nat := first]> pkt_buf in
        let key_phase :=
          if decide (pkt_type hdr = OneRTT) then negb (Z.land first HEADER_KEY_PHASE_BIT =? 0)
          else key_phase hdr in
        Ok (pkt_buf, mkHeader (pkt_type hdr) (version hdr) (dcid hdr) (scid hdr) pkt_num_len pkt_num
                       (token hdr) key_phase)
    | Err e => Err e
    | Panic => Panic
    end.

End Protect.

(** What the code relies on: sealing adds a 16-byte tag (and the extra data),
    opening inverts it, and masks have five bytes. *)
Class AeadLaws `{Aead} : Prop := {
  seal_len n ad pt extra ct : evp_seal n ad pt extra = Some ct ->
    len ct = len pt + TAG_LEN + match extra with Some v => len v | None => 0 end;
  open_seal n ad pt ct : evp_seal n ad pt None = Some ct -> evp_open n ad ct = Some pt;
  open_len n ad ct pt : evp_open n ad ct = Some pt -> len pt = len ct - TAG_LEN;
  mask_len sample m : hp_mask sample = Some m -> len m = 5;
}.

(** ** Nonces *)

Lemma xor_onto_length a b : length (xor_onto a b) = length a.
Proof. revert b. induction a as [|x a IH]; intros [|y b]; cbn; auto. Qed.

Lemma xor_onto_inj a b b' : length b = length a -> length b' = length a -> xor_onto a b = xor_onto a b' -> b = b'.
Proof.
  revert b b'. induction a as [|x a IH]; intros [|y b] [|y' b']; cbn; try done. intros [= Hb] [= Hb'] [= Hx Ha].
  f_equal; [|by apply IH]. assert (Z.lxor x (Z.lxor x y) = Z.lxor x (Z.lxor x y')) as E by by rewrite Hx.
  by rewrite <- !Z.lxor_assoc, !Z.lxor_nilpotent, !Z.lxor_0_l in E.
Qed.

Lemma xor_onto_involutive a m : xor_onto (xor_onto a m) m = a.
Proof.
  revert m. induction a as [|x a IH]; intros [|y m]; cbn; try done. f_equal; [|apply IH].
  by rewrite Z.lxor_assoc, Z.lxor_nilpotent, Z.lxor_0_r.
Qed.

Lemma len_xor_onto a m : len (xor_onto a m) = len a.
Proof. unfold len. by rewrite xor_onto_length. Qed.

Lemma be_bytes_inj k n m : 0 <= n < 2 ^ (8 * Z.of_nat k) -> 0 <= m < 2 ^ (8 * Z.of_nat k) ->
  be_bytes k n = be_bytes k m -> n = m.
Proof.
  intros Hn Hm E. pose proof (be_val_be_bytes k n) as En. rewrite E, be_val_be_bytes in En.
  rewrite !Z.mod_small in En by done. done.
Qed.

(** The nonce as the xor of the iv with the sequence number and the counter. *)
Lemma build_nonce_split iv seq counter : len iv = NONCE_LEN ->
  exists a b, iv = a ++ b /\ len a = 4 /\ len b = 8 /\
    build_nonce iv seq counter =
      Ok (match seq with Some q => xor_onto a (be_bytes 4 q) | None => a end ++ xor_onto b (be_bytes 8 counter)).
Proof.
  intros Hl. exists (ztake 4 iv), (zdrop 4 iv). unfold NONCE_LEN in *. split; [by rewrite ztake_zdrop|].
  assert (len (ztake 4 iv) = 4) as E4 by (apply len_ztake; lia).
  split; [done|]. split; [rewrite len_zdrop; lia|]. unfold build_nonce, NONCE_LEN. rewrite Hl. cbn [Z.eqb negb].
  destruct seq as [q|]; [|done]. rewrite ztake_app, zdrop_app by (by rewrite len_xor_onto). done.
Qed.

(** Nonces do not repeat: under one iv, packets of the same connection id sequence
    number have different nonces unless they have the same packet number, and
    with multipath different sequence numbers give different nonces as well. *)
Theorem nonce_unique iv seq seq' counter counter' n :
  len iv = NONCE_LEN -> is_u64 counter -> is_u64 counter' ->
  (forall q q', seq = Some q -> seq' = Some q' -> is_u32 q /\ is_u32 q') ->
  (seq = None <-> seq' = None) ->
  build_nonce iv seq counter = Ok n -> build_nonce iv seq' counter' = Ok n ->
  len n = NONCE_LEN /\ seq = seq' /\ counter = counter'.
Proof.
  intros Hl Hc Hc' Hq Hn. destruct (build_nonce_split iv seq counter Hl) as (a & b & E & La & Lb & ->).
  destruct (build_nonce_split iv seq' counter' Hl) as (a' & b' & E' & La' & Lb' & ->).
  rewrite E in E'. apply app_inj_1 in E' as [<- <-]; [|unfold len in *; lia].
  set (x := match seq with Some q => xor_onto a (be_bytes 4 q) | None => a end).
  set (y := match seq' with Some q => xor_onto a (be_bytes 4 q) | None => a end).
  assert (len x = 4) as Lx by (subst x; destruct seq; [rewrite len_xor_onto|]; done).
  assert (len y = 4) as Ly by (subst y; destruct seq'; [rewrite len_xor_onto|]; done).
  intros En En'. assert (y ++ xor_onto b (be_bytes 8 counter') = x ++ xor_onto b (be_bytes 8 counter)) as Ey by congruence.
  assert (n = x ++ xor_onto b (be_bytes 8 counter)) as -> by congruence. split; [rewrite len_app, len_xor_onto, Lx, Lb; done|].
  apply app_inj_1 in Ey as [Exy Eb]; [|unfold len in *; lia]. split.
  - subst x y. destruct Hn as [Hn1 Hn2].
    destruct seq as [q|], seq' as [q'|]; [|by specialize (Hn2 eq_refl)|by specialize (Hn1 eq_refl)|done]. f_equal.
    apply xor_onto_inj in Exy; [|rewrite be_bytes_length; unfold len in La; lia..].
    destruct (Hq q q' eq_refl eq_refl). symmetry. by apply (be_bytes_inj 4).
  - apply xor_onto_inj in Eb; [|rewrite be_bytes_length; unfold len in Lb; lia..].
    symmetry. by apply (be_bytes_inj 8).
Qed.

Lemma nonce_unique_witness : exists n, build_nonce (repeat 9 12) (Some 3) 258 = Ok n /\ len n = NONCE_LEN.
Proof.
  destruct (build_nonce (repeat 9 12) (Some 3) 258) as [n| |] eqn:E; [|by vm_compute in E..].
  exists n. split; [done|].
  apply (nonce_unique (repeat 9 12) (Some 3) (Some 3) 258 258 n); try done.
  by intros q q' [= <-] [= <-].
Defined.

Lemma nonce_differs iv seq counter counter' :
  len iv = NONCE_LEN -> is_u64 counter -> is_u64 counter' -> counter <> counter' ->
  build_nonce iv seq counter <> build_nonce iv seq counter'.
Proof.
  intros Hl Hc Hc' Hne E0. destruct (build_nonce_split iv seq counter Hl) as (a & b & E & La & Lb & H1).
  destruct (build_nonce_split iv seq counter' Hl) as (a' & b' & E' & La' & Lb' & H2).
  rewrite E in E'. apply app_inj_1 in E' as [<- <-]; [|unfold len in *; lia].
  rewrite H1, H2 in E0.
  assert (xor_onto b (be_bytes 8 counter) = xor_onto b (be_bytes 8 counter')) as Eb 
    by (apply (f_equal (fun r => match r with Ok n => n | _ => [] end)) in E0; by eapply app_inv_head).
  apply xor_onto_inj in Eb; [|rewrite be_bytes_length; unfold len in Lb; lia..].
  apply Hne. by apply (be_bytes_inj 8).
Qed.

(** ** Header protection *)

Lemma testbit_small n i k : 0 <= n < 2 ^ k -> 0 <= k <= i -> Z.testbit n i = false.
Proof.
  intros Hn Hi. destruct (decide (n = 0)) as [->|]; [apply Z.bits_0|].
  apply Z.bits_above_log2; [lia|]. apply Z.lt_le_trans with k; [|lia]. apply Z.log2_lt_pow2; lia.
Qed.

(** The mask leaves the header form bit alone. *)
Lemma long_header_xor f m k : 0 <= k < 128 -> long_header (Z.lxor f (Z.land m k)) = long_header f.
Proof.
  intros Hk. unfold long_header, HEADER_LONG_FORM_BIT. f_equal. f_equal.
  apply Z.bits_inj'. intros i Hi. rewrite !Z.land_spec, Z.lxor_spec, Z.land_spec.
  destruct (decide (i = 7)) as [->|Hne].
  - rewrite (testbit_small k 7 7) by lia. by rewrite andb_false_r, xorb_false_r.
  - replace (Z.testbit 128 i) with false; [by rewrite !andb_false_r|].
    change 128 with (2 ^ 7). symmetry. by apply Z.pow2_bits_false.
Qed.

Lemma mask_first_involutive f mask : mask_first (mask_first f mask) mask = f.
Proof.
  assert (long_header (mask_first f mask) = long_header f) as E.
  { unfold mask_first at 1. destruct (long_header f) eqn:Ef; by rewrite long_header_xor. }
  unfold mask_first at 1. rewrite E. unfold mask_first.
  destruct (long_header f); by rewrite Z.lxor_assoc, Z.lxor_nilpotent, Z.lxor_0_r.
Qed.

Lemma slice_skip o n a b : 0 <= o -> len a + o + n <= len (a ++ b) ->
  slice (len a + o) n (a ++ b) = slice o n b.
Proof.
  intros Ho Hl. rewrite len_app in Hl. unfold slice. rewrite len_app. pose proof (len_nonneg a).
  rewrite !(proj2 (Z.leb_le _ _)) by lia. cbn [andb]. do 2 f_equal.
  unfold zdrop, len. rewrite skipn_app, drop_ge by lia. cbn. f_equal. lia.
Qed.

Lemma slice_inside o n a b : 0 <= o -> 0 <= n -> o + n <= len a -> slice o n (a ++ b) = slice o n a.
Proof.
  intros Ho Hn Hl. unfold slice. rewrite len_app. pose proof (len_nonneg b).
  rewrite !(proj2 (Z.leb_le _ _)) by lia. cbn [andb]. f_equal.
  unfold ztake, zdrop, len in *. rewrite skipn_app, take_app_le; [done|]. rewrite length_drop. lia.
Qed.

Lemma slice_ok o n l : 0 <= o -> o + n <= len l -> slice o n l = Ok (ztake n (zdrop o l)).
Proof. intros Ho Hl. unfold slice. by rewrite !(proj2 (Z.leb_le _ _)) by lia. Qed.

(** The protection of the first byte leaves the form and the type of the packet alone. *)
Lemma mask_first_type f mask : long_header (mask_first f mask) = long_header f /\
  (long_header f = true -> Z.land (mask_first f mask) PKT_TYPE_MASK = Z.land f PKT_TYPE_MASK).
Proof.
  split; [unfold mask_first; destruct (long_header f) eqn:Ef; by rewrite long_header_xor|].
  intros Hl. unfold mask_first. rewrite Hl. apply Z.bits_inj'. intros n Hn. rewrite !Z.land_spec, Z.lxor_spec, Z.land_spec.
  change PKT_TYPE_MASK with 0x30. destruct (Z.testbit 0x30 n) eqn:E; [|by rewrite !andb_false_r]. rewrite !andb_true_r.
  replace (Z.testbit 15 n) with false; [by rewrite andb_false_r, xorb_false_r|].
  destruct (Z.lt_ge_cases n 6); [|by rewrite Z.bits_above_log2 in E by (try done; cbn; lia)].
  assert (n = 0 \/ n = 1 \/ n = 2 \/ n = 3 \/ n = 4 \/ n = 5) as Hc by lia. by decompose [or] Hc; subst.
Qed.

Lemma get_header_first n f rest : get_header n (f :: rest) = get_header_rest n f rest.
Proof.
  unfold get_header, mbind, cursor_bind, read_u8. rewrite (ensured_uint_run 1 1) by (rewrite ?len_cons; pose proof (len_nonneg rest); lia).
  by change (zdrop 1 (f :: rest)) with rest.
Qed.

Lemma get_header_masked n f mask rest : get_header n (mask_first f mask :: rest) = get_header n (f :: rest).
Proof.
  rewrite !get_header_first. destruct (mask_first_type f mask) as [Hl Ht]. unfold get_header_rest. rewrite Hl.
  destruct (long_header f); cbn [negb]; [by rewrite Ht|done].
Qed.

Section Roundtrip.
Context `{AeadLaws} (iv : list Z).

(** The parts of a packet in the clear. *)
Context (first : Z) (mid pn plain : list Z).
Hypothesis Hpn : 1 <= len pn <= 4.
Hypothesis Hbytes : bytes_ok pn.
Hypothesis Hfirst : Z.land first PKT_NUM_LEN_MASK = len pn - 1.
Hypothesis Hsample : 4 <= len pn + len plain.

Lemma mask_packet_num_ok mask : len mask = 5 ->
  mask_packet_num pn mask = Ok (xor_onto pn (zdrop 1 mask)) /\
  mask_packet_num (xor_onto pn (zdrop 1 mask)) mask = Ok pn.
Proof.
  intros Hm. unfold mask_packet_num. rewrite len_xor_onto, Hm. zcase; [lia|].
  by rewrite xor_onto_involutive.
Qed.

(** The sample the sender takes is the one the receiver takes. *)
Lemma unprotect_spec ct tail mask sample : len ct = len plain + TAG_LEN ->
  slice (4 - len pn) SAMPLE_LEN ct = Ok sample -> hp_mask sample = Some mask -> len mask = 5 ->
  unprotect ((mask_first first mask :: mid ++ xor_onto pn (zdrop 1 mask)) ++ ct ++ tail) (1 + len mid) false =
    Ok (first, len pn, pn).
Proof.
  intros Hct Hs Hm Hl. destruct (mask_packet_num_ok mask Hl) as [_ Hback].
  set (f' := mask_first first mask). set (pn' := xor_onto pn (zdrop 1 mask)) in *.
  assert (len pn' = len pn) as Lp by apply len_xor_onto.
  assert (len (f' :: mid ++ pn') = 1 + len mid + len pn) as Lh by (rewrite len_cons, len_app; lia).
  unfold unprotect. rewrite <- app_comm_cons. cbv iota beta. rewrite app_comm_cons.
  replace (1 + len mid + MAX_PKT_NUM_LEN) with (len (f' :: mid ++ pn') + (4 - len pn))
    by (unfold MAX_PKT_NUM_LEN; lia).
  pose proof (len_nonneg tail).
  rewrite slice_skip by (rewrite ?len_app; unfold SAMPLE_LEN, TAG_LEN in *; lia).
  rewrite slice_inside by (unfold SAMPLE_LEN, TAG_LEN in *; lia).
  rewrite Hs. cbn [mbind outcome_bind]. unfold new_mask. rewrite Hm. cbn [ok_or mbind outcome_bind].
  unfold f'. rewrite mask_first_involutive, Hfirst. fold f'.
  replace (len pn - 1 + 1) with (len pn) by lia.
  replace ((f' :: mid ++ pn') ++ ct ++ tail) with ((f' :: mid) ++ pn' ++ ct ++ tail) by (cbn; by rewrite <- !app_assoc).
  replace (1 + len mid) with (len (f' :: mid) + 0) by (rewrite len_cons; lia).
  pose proof (len_nonneg ct).
  rewrite slice_skip by (rewrite ?len_app; lia). rewrite slice_inside, slice_ok by lia.
  rewrite ztake_over by (rewrite len_zdrop; lia). change (zdrop 0 pn') with pn'.
  cbn [mbind outcome_bind]. by rewrite Hback.
Qed.

Lemma read_packet_num_spec : read_packet_num (len pn) pn = Ok (be_val pn, []).
Proof.
  pose proof (reads_packet_num (be_val pn) (len pn) Hpn []) as Hr.
  pose proof (be_val_bound pn Hbytes) as Hb. rewrite Z.mod_small, app_nil_r in Hr by done.
  replace (Z.to_nat (len pn)) with (length pn) in Hr by (unfold len; lia). by rewrite be_bytes_be_val in Hr.
Qed.

(** Protecting and unprotecting the header of a packet with ciphertext [ct]. *)
Lemma header_protection ct room tail h : len ct = len plain + TAG_LEN ->
  match encrypt_header (first :: mid ++ pn) (len pn) (ct ++ room) with
  | Ok hdr' => (exists mask pn', hdr' = mask_first first mask :: mid ++ pn' /\ len pn' = len pn) /\
      decrypt_header (hdr' ++ ct ++ tail) (1 + len mid) h false =
        Ok ((first :: mid ++ pn) ++ ct ++ tail,
            mkHeader (pkt_type h) (version h) (dcid h) (scid h) (len pn) (be_val pn) (token h)
              (if decide (pkt_type h = OneRTT) then negb (Z.land first HEADER_KEY_PHASE_BIT =? 0) else key_phase h))
  | Err e => e = CryptoFail
  | Panic => False
  end.
Proof.
  intros Hct. unfold encrypt_header. rewrite (sub64_ok MAX_PKT_NUM_LEN) by (unfold MAX_PKT_NUM_LEN; lia).
  cbn [mbind outcome_bind]. change (MAX_PKT_NUM_LEN - len pn) with (4 - len pn).
  rewrite slice_inside by (unfold SAMPLE_LEN, TAG_LEN in *; lia).
  assert (exists sample, slice (4 - len pn) SAMPLE_LEN ct = Ok sample) as [sample Hs].
  { rewrite slice_ok by (unfold SAMPLE_LEN, TAG_LEN in *; lia). by eexists. }
  rewrite Hs. cbn [mbind outcome_bind]. unfold new_mask.
  destruct (hp_mask sample) as [mask|] eqn:Hm; cbn [ok_or mbind outcome_bind]; [|done].
  pose proof (mask_len _ _ Hm) as Hl. destruct (mask_packet_num_ok mask Hl) as [Hx _].
  rewrite len_app, sub64_ok by (pose proof (len_nonneg mid); lia). cbn [mbind outcome_bind].
  replace (len mid + len pn - len pn) with (len mid) by lia.
  rewrite zdrop_app_len, ztake_app_len, Hx. cbn [mbind outcome_bind mret outcome_ret].
  split; [do 2 eexists; split; [done|apply len_xor_onto]|].
  pose proof (unprotect_spec ct tail mask sample Hct Hs Hm Hl) as Hu.
  set (f' := mask_first first mask) in *. set (pn' := xor_onto pn (zdrop 1 mask)) in *.
  assert (len pn' = len pn) as Lp by apply len_xor_onto.
  unfold decrypt_header. cbn [negb].
  destruct (Z.ltb_spec (len ((f' :: mid ++ pn') ++ ct ++ tail)) (1 + len mid + MAX_PKT_NUM_LEN + SAMPLE_LEN)) as [Hlt|_].
  { pose proof (len_nonneg tail). rewrite len_app, len_cons, !len_app in Hlt. unfold MAX_PKT_NUM_LEN, SAMPLE_LEN, TAG_LEN in *. lia. }
  rewrite Hu. cbn [mbind outcome_bind]. rewrite read_packet_num_spec.
  replace ((f' :: mid ++ pn') ++ ct ++ tail) with ((f' :: mid) ++ pn' ++ ct ++ tail) by (cbn; by rewrite <- !app_assoc).
  rewrite (ztake_app _ (f' :: mid)) by (by rewrite len_cons).
  rewrite (app_assoc _ pn' (ct ++ tail)), (zdrop_app _ ((f' :: mid) ++ pn')) by (rewrite len_app, len_cons; lia).
  cbn [app]. change (<[0%nat := first]> (f' :: mid ++ pn ++ ct ++ tail)) with (first :: mid ++ pn ++ ct ++ tail).
  by rewrite <- app_assoc.
Qed.

End Roundtrip.

Lemma payload_roundtrip `{AeadLaws} iv seq num nonce hdr ct tail plain n :
  build_nonce iv seq num = Ok nonce -> evp_seal nonce hdr plain None = Some ct -> n = len ct ->
  decrypt_payload iv (hdr ++ ct ++ tail) (len hdr) n seq num = Ok plain.
Proof.
  intros Hn Hct ->. pose proof (seal_len _ _ _ _ _ Hct) as Lc. rewrite Z.add_0_r in Lc. pose proof (len_nonneg tail).
  unfold decrypt_payload. rewrite !len_app. zcase; [lia|].
  rewrite ztake_app_len, zdrop_app_len, ztake_app_len. unfold open, TAG_LEN in *.
  pose proof (len_nonneg plain).
  assert (len (repeat 0 (Z.to_nat (len ct))) = len ct) as Lr by (unfold len; rewrite repeat_length; lia).
  rewrite Lr. zcase; [lia..|]. rewrite Hn. cbn [mbind outcome_bind].
  rewrite (open_seal _ _ _ _ Hct). cbn [mbind outcome_bind]. by rewrite ztake_app_len.
Qed.

(** The header of a packet in the clear, as the receiver completes it. *)
Definition clear_header (first : Z) (pn : list Z) (h : PacketHeader) : PacketHeader :=
  mkHeader (pkt_type h) (version h) (dcid h) (scid h) (len pn) (be_val pn) (token h)
    (if decide (pkt_type h = OneRTT) then negb (Z.land first HEADER_KEY_PHASE_BIT =? 0) else key_phase h).

(** Protecting a packet, and what the receiver makes of it and of whatever follows it. *)
Lemma encrypt_packet_spec `{AeadLaws} iv first mid pn plain room seq num :
  len iv = NONCE_LEN -> 1 <= len pn <= 4 -> bytes_ok pn -> Z.land first PKT_NUM_LEN_MASK = len pn - 1 ->
  4 <= len pn + len plain ->
  let hdr := first :: mid ++ pn in
  match encrypt_packet iv (hdr ++ plain ++ room) seq num (len pn) (len plain) (len hdr) None with
  | Ok (n, out) => n = len hdr + len plain + TAG_LEN /\ len out = len (hdr ++ plain ++ room) /\
      (exists mask pn' ct, ztake n out = (mask_first first mask :: mid ++ pn') ++ ct /\ len pn' = len pn /\ len ct = len plain + TAG_LEN) /\
      forall h tail, exists out', decrypt_header (ztake n out ++ tail) (1 + len mid) h false = Ok (out', clear_header first pn h) /\
        ztake (len hdr) out' = hdr /\ decrypt_payload iv out' (len hdr) (n - len hdr) seq num = Ok plain
  | Err e => e = CryptoFail \/ len room < TAG_LEN
  | Panic => False
  end.
Proof.
  intros Hiv Hpn Hb Hf Hs hdr. assert (exists nonce, build_nonce iv seq num = Ok nonce) as [nonce Hn]
    by (destruct (build_nonce_split iv seq num Hiv) as (a & b & _ & _ & _ & E); by eexists). unfold encrypt_packet. pose proof (len_nonneg plain). pose proof (len_nonneg room).
  destruct (Z.ltb_spec (len (hdr ++ plain ++ room)) (len hdr + len plain)) as [Hlt|_];
    [rewrite !len_app in Hlt; lia|].
  rewrite ztake_app_len, zdrop_app_len. unfold seal. rewrite len_app.
  destruct (Z.ltb_spec (len plain + len room) (len plain + TAG_LEN + 0)); [right; lia|].
  rewrite Hn. cbn [mbind outcome_bind]. rewrite ztake_app_len.
  destruct (evp_seal nonce hdr plain None) as [ct|] eqn:Hct; [|by left]. cbn [mbind outcome_bind].
  pose proof (seal_len _ _ _ _ _ Hct) as Lc. rewrite Z.add_0_r in Lc.
  set (room' := zdrop (len ct) (plain ++ room)).
  pose proof (fun tail h => header_protection first mid pn plain Hpn Hb Hf Hs ct room' tail h Lc) as Hh. fold hdr in Hh.
  destruct (encrypt_header hdr (len pn) (ct ++ room')) as [hdr'| |]; [|by left; apply (Hh [] sample_header)|by apply (Hh [] sample_header)].
  cbn [mbind outcome_bind mret outcome_ret]. destruct (proj1 (Hh [] sample_header)) as (mask & pn' & Eh & Lpn).
  assert (len hdr' = len hdr) as Lh by (rewrite Eh; unfold hdr; rewrite !len_cons, !len_app; lia). split; [lia|]. split.
  { rewrite !len_app, Lh. unfold room'. rewrite len_zdrop; rewrite len_app; pose proof (len_nonneg ct); lia. }
  rewrite app_assoc, (ztake_app _ (hdr' ++ ct)) by (rewrite len_app; lia). split; [exists mask, pn', ct; by rewrite Eh|].
  intros h tail. destruct (Hh tail h) as [_ Hd]. rewrite <- app_assoc. eexists. split; [exact Hd|]. split; [by rewrite ztake_app_len|].
  apply (payload_roundtrip _ _ _ nonce); auto. lia.
Qed.

(** A packet that is sent in the clear. *)
Lemma plaintext_header `{Aead} first mid pn rest h :
  1 <= len pn <= 4 -> bytes_ok pn -> Z.land first PKT_NUM_LEN_MASK = len pn - 1 -> 4 <= len pn + len rest ->
  decrypt_header ((first :: mid ++ pn) ++ rest) (1 + len mid) h true = Ok ((first :: mid ++ pn) ++ rest, clear_header first pn h).
Proof.
  intros Hpn Hb Hf Hs. unfold decrypt_header. cbn [negb]. rewrite len_app, len_cons, len_app. zcase; [unfold MAX_PKT_NUM_LEN in *; lia|].
  unfold unprotect. cbn [app]. rewrite Hf. replace (len pn - 1 + 1) with (len pn) by lia.
  replace (first :: (mid ++ pn) ++ rest) with ((first :: mid) ++ pn ++ rest) by (cbn; by rewrite <- app_assoc).
  pose proof (len_nonneg mid). pose proof (len_nonneg rest).
  replace (1 + len mid) with (len (first :: mid) + 0) by (rewrite len_cons; lia).
  rewrite slice_skip by (rewrite ?len_app; lia). rewrite slice_inside, slice_ok by lia. change (zdrop 0 pn) with pn.
  rewrite (ztake_over (len pn) pn) by lia. cbn [mbind outcome_bind mret outcome_ret]. rewrite read_packet_num_spec by done.
  rewrite Z.add_0_r, ztake_app_len. rewrite (app_assoc _ pn rest), (zdrop_app _ ((first :: mid) ++ pn)) by (rewrite len_app; lia).
  by rewrite <- app_assoc.
Qed.

(** C9.  Packet protection round-trips: for any AEAD and header cipher that satisfy
    [AeadLaws], protecting a packet with room for the tag either fails with
    [CryptoFail] or produces a packet whose header the receiver unprotects to
    the original bytes and packet number field, and whose payload it decrypts to
    the plaintext; nothing panics as long as packet number and payload have at
    least four bytes together. *)
Theorem packet_protection_roundtrip `{AeadLaws} iv first mid pn plain room seq num h :
  len iv = NONCE_LEN -> 1 <= len pn <= 4 -> bytes_ok pn -> Z.land first PKT_NUM_LEN_MASK = len pn - 1 ->
  4 <= len pn + len plain -> TAG_LEN <= len room ->
  let hdr := first :: mid ++ pn in
  match encrypt_packet iv (hdr ++ plain ++ room) seq num (len pn) (len plain) (len hdr) None with
  | Ok (n, out) => n = len hdr + len plain + TAG_LEN /\ len out = len (hdr ++ plain ++ room) /\
      exists out' h', decrypt_header (ztake n out) (1 + len mid) h false = Ok (out', h') /\
        pkt_num_len h' = len pn /\ pkt_num h' = be_val pn /\ ztake (len hdr) out' = hdr /\
        decrypt_payload iv out' (len hdr) (n - len hdr) seq num = Ok plain
  | Err e => e = CryptoFail
  | Panic => False
  end.
Proof.
  intros Hiv Hpn Hb Hf Hs Hr hdr. pose proof (encrypt_packet_spec iv first mid pn plain room seq num Hiv Hpn Hb Hf Hs) as He.
  cbv zeta in He. fold hdr in He. destruct (encrypt_packet _ _ _ _ _ _ _ _) as [[n out]| |]; [|destruct He; [done|lia]|done].
  destruct He as (Hn & Hl & _ & Hd). split; [done|]. split; [done|]. destruct (Hd h []) as (out' & H1 & H2 & H3). rewrite app_nil_r in H1.
  by exists out', (clear_header first pn h).
Qed.

(** A stand-in cipher: the tag is a checksum of nonce and header, the mask one of
    the sample. *)
Definition sample_aead : Aead := {|
  evp_seal n ad pt extra :=
    Some (pt ++ default [] extra ++ be_bytes 16 (be_val (n ++ ad)));
  evp_open n ad ct :=
    if len ct <? TAG_LEN then None
    else if decide (zdrop (len ct - TAG_LEN) ct = be_bytes 16 (be_val (n ++ ad)))
         then Some (ztake (len ct - TAG_LEN) ct) else None;
  hp_mask s := Some (be_bytes 5 (be_val s));
|}.

Lemma sample_aead_laws : @AeadLaws sample_aead.
Proof.
  split; cbn [evp_seal evp_open hp_mask sample_aead].
  - intros n ad pt extra ct E.
    assert (ct = pt ++ default [] extra ++ be_bytes 16 (be_val (n ++ ad))) as -> by congruence.
    rewrite !len_app, len_be_bytes. unfold TAG_LEN.
    destruct extra; cbn; [|rewrite (@len_nil Z)]; lia.
  - intros n ad pt ct. cbn [default]. rewrite app_nil_l. intros E.
    assert (ct = pt ++ be_bytes 16 (be_val (n ++ ad))) as -> by congruence. clear E.
    rewrite len_app, len_be_bytes. pose proof (len_nonneg pt). unfold TAG_LEN.
    zcase; [lia|]. replace (len pt + Z.of_nat 16 - 16) with (len pt) by lia.
    rewrite zdrop_app_len, ztake_app_len. by destruct (decide _).
  - intros n ad ct pt. zcase; [done|]. destruct (decide _); [|done]. intros [= <-].
    apply len_ztake. unfold TAG_LEN in *. lia.
  - intros s m E. assert (m = be_bytes 5 (be_val s)) as -> by congruence. apply len_be_bytes.
Qed.

Lemma packet_protection_roundtrip_witness :
  let '(n, out) := match @encrypt_packet sample_aead (repeat 9 12) ([0x41; 1; 2; 3; 4] ++ [5; 6; 7] ++ repeat 0 20)
                           None 772 2 3 5 None with Ok r => r | _ => (0, []) end in
  n = 24 /\ exists out' h',
    @decrypt_header sample_aead (ztake n out) 3 sample_header false = Ok (out', h') /\
    pkt_num h' = 772 /\ @decrypt_payload sample_aead (repeat 9 12) out' 5 (n - 5) None 772 = Ok [5; 6; 7].
Proof.
  pose proof (@packet_protection_roundtrip sample_aead sample_aead_laws (repeat 9 12) 0x41 [1; 2] [3; 4] [5; 6; 7]
    (repeat 0 20) None 772 sample_header) as H.
  change (len (0x41 :: [1; 2] ++ [3; 4])) with 5 in H. change (len [3; 4]) with 2 in H.
  change (len [5; 6; 7]) with 3 in H.
  assert (Hb : bytes_ok [3; 4]) by (repeat constructor; unfold is_u8; lia).
  specialize (H eq_refl ltac:(lia) Hb eq_refl ltac:(lia) ltac:(by vm_compute)). cbv zeta in H.
  change ((0x41 :: [1; 2] ++ [3; 4]) ++ [5; 6; 7] ++ repeat 0 20)
    with ([0x41; 1; 2; 3; 4] ++ [5; 6; 7] ++ repeat 0 20) in H.
  destruct (encrypt_packet _ _ _ _ _ _ _ _) as [[n out]|e|] eqn:E; [|by vm_compute in E..].
  destruct H as (Hn & _ & out' & h' & Hd & _ & Hp & _ & Hpl). split; [done|].
  exists out', h'. split; [exact Hd|]. split; [rewrite Hp; by vm_compute|exact Hpl].
Defined.

(** ** Arbitrary input *)

Lemma mask_packet_num_total pn mask : len mask = 5 -> len pn <= 4 ->
  exists pn', mask_packet_num pn mask = Ok pn' /\ len pn' = len pn.
Proof.
  intros Hm Hp. unfold mask_packet_num. zcase; [lia|]. eexists. split; [done|]. apply len_xor_onto.
Qed.

Lemma pkt_num_len_range first : 1 <= Z.land first PKT_NUM_LEN_MASK + 1 <= 4.
Proof.
  change PKT_NUM_LEN_MASK with (Z.ones 2). rewrite Z.land_ones by lia.
  pose proof (Z.mod_pos_bound first (2 ^ 2)). lia.
Qed.

Lemma unprotect_total `{AeadLaws} buf off (mode : bool) : 0 <= off ->
  off + MAX_PKT_NUM_LEN + (if mode then 0 else SAMPLE_LEN) <= len buf ->
  match unprotect buf off mode with
  | Ok (_, n, pn) => 1 <= n <= 4 /\ len pn = n
  | Err e => e = CryptoFail
  | Panic => False
  end.
Proof.
  intros Ho Hl. unfold unprotect, MAX_PKT_NUM_LEN, SAMPLE_LEN in *.
  destruct buf as [|f rest]; [rewrite (@len_nil Z) in Hl; destruct mode; lia|].
  assert (forall g, let n := Z.land g PKT_NUM_LEN_MASK + 1 in exists pn,
    slice off n (f :: rest) = Ok pn /\ 1 <= n <= 4 /\ len pn = n) as Hsl.
  { intros g n. pose proof (pkt_num_len_range g) as Hr. fold n in Hr. eexists.
    split; [apply slice_ok; destruct mode; lia|]. split; [done|].
    rewrite len_ztake; [done|]. rewrite len_zdrop; destruct mode; lia. }
  destruct mode.
  - destruct (Hsl f) as (pn & -> & Hr & Hn). done.
  - rewrite slice_ok by lia. cbn [mbind outcome_bind]. unfold new_mask.
    destruct (hp_mask _) as [mask|] eqn:Hm; cbn [ok_or mbind outcome_bind]; [|done].
    destruct (Hsl (mask_first f mask)) as (pn & -> & Hr & Hn). cbn [mbind outcome_bind].
    destruct (mask_packet_num_total pn mask) as (pn' & -> & Hn'); [by eapply mask_len|lia|].
    cbn [mbind outcome_bind mret outcome_ret]. split; [done|]. lia.
Qed.

Lemma read_packet_num_total n pn : 1 <= n <= 4 -> len pn = n -> exists v, read_packet_num n pn = Ok (v, []).
Proof.
  intros Hn Hl. assert (forall k, n = Z.of_nat k -> exists v, (ensure n ;; get_uint k) pn = Ok (v, [])) as Hu.
  { intros k Hk. rewrite ensured_uint_run by lia. rewrite zdrop_over by lia. by eexists. }
  unfold read_packet_num. assert (n = 1 \/ n = 2 \/ n = 3 \/ n = 4) as [-> | [-> | [-> | ->]]] by lia.
  - by apply (Hu 1%nat).
  - by apply (Hu 2%nat).
  - destruct pn as [|a [|b [|c [|d pn]]]]; unfold len in Hl; cbn in Hl; try lia. by eexists.
  - by apply (Hu 4%nat).
Qed.

(** Unprotecting any received bytes is safe: [decrypt_header] never panics, fails
    only with [BufferTooShort] or [CryptoFail], and otherwise keeps the length of
    the buffer and everything outside the header, and finds a packet number of
    one to four bytes. *)
Theorem decrypt_header_total `{AeadLaws} buf off h mode : 0 < off -> bytes_ok buf ->
  match decrypt_header buf off h mode with
  | Ok (buf', h') => len buf' = len buf /\ 1 <= pkt_num_len h' <= 4 /\
      zdrop (off + pkt_num_len h') buf' = zdrop (off + pkt_num_len h') buf /\
      pkt_type h' = pkt_type h /\ dcid h' = dcid h
  | Err e => e = BufferTooShort \/ e = CryptoFail
  | Panic => False
  end.
Proof.
  intros Ho Hb. unfold decrypt_header. set (m := if negb mode then off + MAX_PKT_NUM_LEN + SAMPLE_LEN else off + MAX_PKT_NUM_LEN).
  destruct (Z.ltb_spec (len buf) m) as [|Hl]; [by left|].
  pose proof (unprotect_total buf off mode) as Hu.
  destruct (unprotect buf off mode) as [[[f n] pn]| |]; cbn [mbind outcome_bind].
  - destruct Hu as [Hn Hp]; [lia|subst m; destruct mode; cbn in Hl; lia|].
    destruct (read_packet_num_total n pn Hn Hp) as [v ->]. cbn [pkt_num_len pkt_type dcid].
    assert (off + n <= len buf) by (subst m; unfold MAX_PKT_NUM_LEN, SAMPLE_LEN in *; destruct mode; cbn in Hl; lia).
    assert (len (ztake off buf) = off) as Lt by (apply len_ztake; lia).
    set (buf' := ztake off buf ++ pn ++ zdrop (off + n) buf).
    assert (len buf' = len buf) as Lb by (unfold buf'; rewrite !len_app, Lt, len_zdrop; lia).
    split_and!; auto; try lia.
    + unfold len. rewrite length_insert. exact Lb.
    + unfold zdrop. rewrite drop_insert_lt by lia. fold (zdrop (off + n) buf'). unfold buf'.
      rewrite app_assoc. apply zdrop_app. rewrite len_app. lia.
  - right. apply Hu; [lia|]. subst m; destruct mode; cbn in Hl; lia.
  - apply Hu; [lia|]. subst m; destruct mode; cbn in Hl; lia.
Qed.

Lemma decrypt_header_total_witness :
  exists e, @decrypt_header sample_aead (repeat 0x40 20) 3 sample_header false = Err e /\
    (e = BufferTooShort \/ e = CryptoFail).
Proof.
  pose proof (@decrypt_header_total sample_aead sample_aead_laws (repeat 0x40 20) 3 sample_header false) as H.
  destruct (decrypt_header _ _ _ _) as [[]|e|] eqn:E; [by vm_compute in E| |by vm_compute in E].
  exists e. split; [done|]. apply H; [lia|repeat constructor; unfold is_u8; lia].
Defined.
