(* ===== verification/FrameProps.v ===== *)
(** * Properties of the frame codec

    The wire format of every frame ([frame_bytes]) and the proofs that the
    encoder writes it, the decoder reads it back and [wire_len] is its length. *)

From S2P Require Import Prelude.
From S2P Require Import Error.
From S2P Require Import Codec.
From S2P Require Import Wire.
From S2P Require Import Btree.
From S2P Require Import Ranges.
From S2P Require Import ConnectionId.
From S2P Require Import Packet.
From S2P Require Import Frame.

Import ConnectionId (deref).

(** A two-byte length field. *)
Lemma writes_len2 n : 0 <= n < 16384 -> writes (write_varint_with_len n 2) (varint_bytes 2 n) 2.
Proof. intros Hn. apply writes_varint_with_len; [by right; left|exact Hn]. Qed.
Lemma reads_len2 n : 0 <= n < 16384 -> reads read_varint (varint_bytes 2 n) n.
Proof. intros Hn. apply reads_varint; [by right; left|exact Hn]. Qed.

(** ** ACK ranges *)

(** Ranges from the highest to the lowest, each separated from the one before. *)
Fixpoint desc (hi : Z) (rs : list Range) : Prop :=
  match rs with
  | [] => True
  | r :: rs => 0 <= start r < end_ r /\ end_ r < hi /\ desc (start r) rs
  end.

Fixpoint ack_bytes (smallest : Z) (rs : list Range) : list Z :=
  match rs with
  | [] => []
  | r :: rs => vb (smallest - end_ r - 1) ++ vb (end_ r - 1 - start r) ++ ack_bytes (start r) rs
  end.

Lemma desc_weaken hi hi' rs : hi <= hi' -> desc hi rs -> desc hi' rs.
Proof. destruct rs; cbn; intuition lia. Qed.

Lemma desc_len hi rs : 0 <= hi -> desc hi rs -> 2 * len rs <= hi.
Proof.
  revert hi. induction rs as [|r rs IH]; intros hi Hhi; cbn; [rewrite (@len_nil Range); lia|].
  intros (Hr & He & Hd). apply IH in Hd; [|lia]. rewrite len_cons. lia.
Qed.

Lemma desc_snoc hi rs r : desc hi rs -> 0 <= start r < end_ r -> end_ r < hi ->
  (forall q, In q rs -> end_ r < start q) -> desc hi (rs ++ [r]).
Proof.
  revert hi. induction rs as [|q rs IH]; intros hi Hd Hr Hh Hq; cbn in *; [done|].
  destruct Hd as (? & ? & Hd). split_and!; auto; lia.
Qed.

Lemma chain_in lo m a b : RangeSet.chain lo m -> In (a, b) m -> lo < a.
Proof.
  revert lo. induction m as [|[a' b'] m IH]; intros lo; cbn; [done|]. intros (? & ? & Hm) [[= -> ->]|Hin]; [done|].
  apply IH in Hm; [lia|done].
Qed.

Lemma chain_desc lo m hi : -1 <= lo -> RangeSet.chain lo m -> RangeSet.top lo m < hi ->
  desc hi (rev (map to_range m)).
Proof.
  revert lo. induction m as [|[a b] m IH]; intros lo Hlo; cbn; [done|]. intros (Ha & Hab & Hm) Ht.
  pose proof (RangeSet.chain_top _ _ Hm). apply desc_snoc; cbn; try lia.
  - apply (IH b); [lia|done|done].
  - intros q Hq%in_rev. apply in_map_iff in Hq as ([a' b'] & <- & Hin). cbn. by eapply chain_in.
Qed.

Lemma sub64_lift {A} a b (f : Z -> enc A) bs x : b <= a -> writes (f (a - b)) bs x ->
  writes (clift (sub64 a b) ≫= f) bs x.
Proof. intros Hb Hf. rewrite sub64_ok by done. exact Hf. Qed.

Lemma writes_ack_ranges rs : forall s, s <= VINT_MAX -> desc s rs ->
  writes (write_ack_ranges s rs) (ack_bytes s rs) tt.
Proof.
  induction rs as [|r rs IH]; intros s Hs; cbn [write_ack_ranges ack_bytes desc]; [intros _; apply writes_ret|].
  intros (Hr & He & Hd). unfold VINT_MAX in *. do 4 (apply sub64_lift; [lia|]).
  eapply writes_bind; [apply writes_vb; unfold is_vint, VINT_MAX; lia|].
  eapply writes_bind; [apply writes_vb; unfold is_vint, VINT_MAX; lia|]. apply IH; [lia|done].
Qed.

Lemma ack_loop_reads rs : forall fuel s set rest, s <= VINT_MAX -> desc s rs -> (length rs < fuel)%nat ->
  ack_loop fuel (len rs) s set (ack_bytes s rs ++ rest) =
    Ok (fold_left RangeSet.insert rs set, rest).
Proof.
  induction rs as [|r rs IH]; intros [|fuel] s set rest Hs Hd Hf; cbn [length] in Hf; try lia;
    cbn [ack_loop ack_bytes fold_left]; [done|].
  destruct Hd as (Hr & He & Hd). unfold VINT_MAX in *. rewrite len_cons. pose proof (len_nonneg rs).
  destruct (Z.leb_spec (1 + len rs) 0); [lia|]. rewrite <- !app_assoc.
  eapply reads_then; [apply reads_vb; unfold is_vint, VINT_MAX; lia|]. zcase; [lia|].
  eapply reads_then; [apply reads_vb; unfold is_vint, VINT_MAX; lia|]. zcase; [lia|].
  replace (s - (s - end_ r - 1) - 2 - (end_ r - 1 - start r)) with (start r) by lia.
  replace (s - (s - end_ r - 1) - 2 + 1) with (end_ r) by lia. replace (1 + len rs - 1) with (len rs) by lia.
  rewrite IH by (done || lia). by destruct r.
Qed.

(** Inserting the ranges again gives the set back. *)
Lemma fold_insert_mem rs : forall s hi, hi <= 18446744073709551615 -> RangeSet.u64_set s -> desc hi rs ->
  RangeSet.u64_set (fold_left RangeSet.insert rs s) /\
  forall x, RangeSet.mem (fold_left RangeSet.insert rs s) x <->
    RangeSet.mem s x \/ Exists (fun r => RangeSet.in_range r x) rs.
Proof.
  induction rs as [|r rs IH]; intros s hi Hhi Hs Hd; cbn [fold_left].
  { split; [done|]. intros x. rewrite Exists_nil. tauto. }
  destruct Hd as (Hr & He & Hd). destruct (RangeSet.u64_set_insert s r Hs) as [Hs' Hx]; [lia..|].
  destruct (IH (RangeSet.insert s r) (start r)) as [Hu Hm]; [lia|done|done|].
  split; [done|]. intros x. rewrite Hm, Hx, Exists_cons. tauto.
Qed.

(** The ranges a peer may acknowledge. *)
Definition ack_set (s : RangeSet.RangeSet) : Prop :=
  RangeSet.u64_set s /\ RangeSet.set s <> [] /\ forall x, RangeSet.mem s x -> x <= VINT_MAX.

Lemma ack_set_desc s : ack_set s -> desc (VINT_MAX + 2) (rev (RangeSet.iter s)).
Proof.
  intros ((Hwf & _ & _) & Hne & Hv). apply (chain_desc (-1)); [lia|exact Hwf|].
  pose proof (Hv _ (RangeSet.top_mem (-1) _ Hwf Hne)) as Hm. lia.
Qed.

Lemma in_iter s x : RangeSet.mem s x <-> Exists (fun r => RangeSet.in_range r x) (rev (RangeSet.iter s)).
Proof.
  unfold RangeSet.mem, RangeSet.mem_list, RangeSet.iter. rewrite !Exists_exists. split.
  - intros ([a b] & Hin & Hx). exists (mkRange a b). split; [|done].
    apply list_elem_of_In, in_rev. rewrite rev_involutive. apply (in_map to_range _ (a, b)). by apply list_elem_of_In.
  - intros (r & Hin & Hx). apply list_elem_of_In, in_rev, in_map_iff in Hin as ([a b] & <- & Hin).
    exists (a, b). split; [by apply list_elem_of_In|done].
Qed.

Lemma fold_insert_iter s : ack_set s -> fold_left RangeSet.insert (rev (RangeSet.iter s)) RangeSet.default = s.
Proof.
  intros Hs. pose proof (ack_set_desc s Hs) as Hd. destruct Hs as ((Hwf & Hc & _) & _ & _).
  destruct (fold_insert_mem (rev (RangeSet.iter s)) _ (VINT_MAX + 2) ltac:(unfold VINT_MAX; lia) RangeSet.u64_set_default Hd) as [(Hwf' & Hc' & _) Hm].
  apply RangeSet.wf_ext; [done|done|by rewrite Hc'|]. intros x. rewrite Hm, <- in_iter.
  unfold RangeSet.mem at 1. cbn. rewrite RangeSet.mem_list_nil. tauto.
Qed.

(** ** The format of every frame *)

Definition ecn_bytes (ecn : option EcnCounts) : list Z :=
  match ecn with
  | Some e => vb (ect0_count e) ++ vb (ect1_count e) ++ vb (ecn_ce_count e)
  | None => []
  end.

Definition frame_bytes (f : Frame) : list Z :=
  match f with
  | Paddings n => repeat 0 (Z.to_nat n)
  | Ping _ => vb 0x01
  | Ack delay s ecn =>
      match rev (RangeSet.iter s) with
      | [] => []
      | r :: rs =>
          vb (match ecn with None => 0x02 | Some _ => 0x03 end) ++
          vb (end_ r - 1) ++ vb delay ++ vb (len rs) ++ vb (end_ r - 1 - start r) ++
          ack_bytes (start r) rs ++ ecn_bytes ecn
      end
  | ResetStream a b c => vb 0x04 ++ vb a ++ vb b ++ vb c
  | StopSending a b => vb 0x05 ++ vb a ++ vb b
  | Crypto offset l data => vb 0x06 ++ vb offset ++ varint_bytes 2 l ++ data
  | NewToken t => vb 0x07 ++ vb (len t) ++ t
  | Stream id offset l fin data =>
      vb (if fin then 0x0f else 0x0e) ++ vb id ++ vb offset ++ varint_bytes 2 l ++ data
  | MaxData m => vb 0x10 ++ vb m
  | MaxStreamData a m => vb 0x11 ++ vb a ++ vb m
  | MaxStreams bidi m => vb (if bidi then 0x12 else 0x13) ++ vb m
  | DataBlocked m => vb 0x14 ++ vb m
  | StreamDataBlocked a m => vb 0x15 ++ vb a ++ vb m
  | StreamsBlocked bidi m => vb (if bidi then 0x16 else 0x17) ++ vb m
  | NewConnectionId a r c t =>
      vb 0x18 ++ vb a ++ vb r ++ be_bytes 1 (len (deref c)) ++ deref c ++ t
  | RetireConnectionId a => vb 0x19 ++ vb a
  | PathChallenge d => vb 0x1a ++ d
  | PathResponse d => vb 0x1b ++ d
  | ConnectionClose e t r => vb 0x1c ++ vb e ++ vb t ++ vb (len r) ++ r
  | ApplicationClose e r => vb 0x1d ++ vb e ++ vb (len r) ++ r
  | HandshakeDone => vb 0x1e
  | PathAbandon a e r => vb 0x15228c05 ++ vb a ++ vb e ++ vb (len r) ++ r
  | PathStatus a b c => vb 0x15228c06 ++ vb a ++ vb b ++ vb c
  | Datagram d => vb 0x31 ++ vb (len d) ++ d
  end.

Definition ecn_ok (ecn : option EcnCounts) : Prop :=
  match ecn with
  | Some e => is_vint (ect0_count e) /\ is_vint (ect1_count e) /\ is_vint (ecn_ce_count e)
  | None => True
  end.

(** Frames within the limits of the protocol: integers below [2^62], data of a
    CRYPTO or STREAM frame at most 16383 bytes long, ACK ranges not empty. *)
Definition frame_ok (f : Frame) : Prop :=
  match f with
  | Paddings n => 1 <= n
  | Ping _ | HandshakeDone => True
  | Ack delay s ecn => is_vint delay /\ ack_set s /\ ecn_ok ecn
  | ResetStream a b c | PathStatus a b c => is_vint a /\ is_vint b /\ is_vint c
  | StopSending a b | MaxStreamData a b | StreamDataBlocked a b => is_vint a /\ is_vint b
  | Crypto offset l data => is_vint offset /\ l = len data /\ l < 16384
  | NewToken t | Datagram t => is_vint (len t)
  | Stream id offset l _ data =>
      is_vint id /\ is_vint offset /\ l = len data /\ l < 16384 /\ offset + l <= VINT_MAX
  | MaxData m | MaxStreams _ m | DataBlocked m | StreamsBlocked _ m | RetireConnectionId m => is_vint m
  | NewConnectionId a r c t => is_vint a /\ is_vint r /\ ConnectionId.valid c /\ len t = 16
  | PathChallenge d | PathResponse d => len d = 8
  | ConnectionClose e t r => is_vint e /\ is_vint t /\ is_vint (len r)
  | ApplicationClose e r => is_vint e /\ is_vint (len r)
  | PathAbandon a e r => is_vint a /\ is_vint e /\ is_vint (len r)
  end.

(** The probe size of a PING frame is not transmitted. *)
Definition decoded (f : Frame) : Frame := match f with Ping _ => Ping None | _ => f end.

#[export] Hint Resolve writes_vb reads_vb writes_len2 reads_len2 : wire.

Lemma vint_small n : 0 <= n <= 0x15228c06 -> is_vint n.
Proof. unfold is_vint, VINT_MAX. lia. Qed.
#[export] Hint Extern 3 (is_vint _) => (apply vint_small; lia) : wire.

Lemma writes_paddings n : writes (write_paddings n) (repeat 0 n) tt.
Proof.
  induction n as [|n IH]; cbn [write_paddings repeat]; [apply writes_ret|].
  change (0 :: repeat 0 n) with ([0] ++ repeat 0 n).
  eapply writes_bind; [|exact IH]. by apply (writes_vb 0).
Qed.

Lemma writes_bytes_with_len bs : is_vint (len bs) -> writes (write_bytes_with_len bs) (vb (len bs) ++ bs) tt.
Proof. intros Hb. unfold write_bytes_with_len. eapply writes_eq; [writes_all|app_norm]. Qed.
#[export] Hint Resolve writes_bytes_with_len : wire.

Lemma writes_ecn ecn : ecn_ok ecn -> writes (write_ecn ecn) (ecn_bytes ecn) tt.
Proof.
  destruct ecn as [e|]; cbn; [|intros _; apply writes_ret]. intros (? & ? & ?).
  eapply writes_eq; [writes_all|app_norm].
Qed.

Lemma writes_ack delay s ecn : frame_ok (Ack delay s ecn) ->
  writes (put_frame (Ack delay s ecn)) (frame_bytes (Ack delay s ecn)) tt.
Proof.
  intros (Hd & Hs & He). pose proof (ack_set_desc s Hs) as Hdesc. cbn [put_frame frame_bytes].
  destruct (rev (RangeSet.iter s)) as [|r rs] eqn:E.
  { destruct Hs as (_ & Hne & _). destruct Hne. unfold RangeSet.iter in E.
    apply (f_equal (@rev Range)) in E. rewrite rev_involutive in E. by destruct (RangeSet.set s). }
  destruct Hdesc as (Hr & Hh & Hdesc). pose proof (len_nonneg rs).
  pose proof (desc_len (start r) rs ltac:(lia) Hdesc) as Hl.
  set (t := match ecn with None => 2 | Some _ => 3 end).
  assert (is_vint t) as Ht by (subst t; destruct ecn; by apply vint_small).
  eapply writes_bind; [by apply writes_vb|]. do 2 (apply sub64_lift; [lia|]).
  eapply writes_eq.
  - eapply writes_bind; [apply writes_vb; unfold is_vint in *; lia|].
    eapply writes_bind; [by apply writes_vb|].
    eapply writes_bind; [apply writes_vb; unfold is_vint; lia|].
    eapply writes_bind; [apply writes_vb; unfold is_vint; lia|].
    eapply writes_bind; [apply writes_ack_ranges; [lia|done]|by apply writes_ecn].
  - app_norm.
Qed.

Lemma writes_crypto_header offset l : is_vint offset -> 0 <= l < 16384 ->
  writes (encode_crypto_header offset l) (vb 0x06 ++ vb offset ++ varint_bytes 2 l) tt.
Proof. intros Ho Hl. eapply writes_eq; [unfold encode_crypto_header; writes_all|app_norm]. Qed.

Lemma writes_stream_header id offset l (fin : bool) : is_vint id -> is_vint offset -> 0 <= l < 16384 ->
  writes (encode_stream_header id offset l fin)
    (vb (if fin then 0x0f else 0x0e) ++ vb id ++ vb offset ++ varint_bytes 2 l) tt.
Proof.
  intros Hi Ho Hl. unfold encode_stream_header. change (Z.lor 0x0e 0x01) with 0x0f.
  destruct fin; (eapply writes_eq; [writes_all|app_norm]).
Qed.

Lemma len_range {A} (l : list A) : len l < 16384 -> 0 <= len l < 16384.
Proof. pose proof (len_nonneg l). lia. Qed.
#[export] Hint Resolve writes_crypto_header writes_stream_header len_range : wire.

Lemma writes_frame f : frame_ok f -> writes (put_frame f) (frame_bytes f) tt.
Proof.
  intros Hf. destruct f; [apply writes_paddings| |by apply writes_ack|..];
    cbn [put_frame frame_bytes frame_ok] in *;
    repeat match goal with H : _ /\ _ |- _ => destruct H end; subst;
    repeat match goal with H : ConnectionId.valid _ |- _ =>
      destruct (wrap8_cid _ H) as [-> ?]; clear H end;
    try (destruct bidi); (eapply writes_eq; [writes_all|app_norm]).
Qed.

(** ** Reading the format *)

(** Run a reader along the parts of a known input. *)
Ltac reads_run :=
  intros ?; rewrite <- ?app_assoc;
  repeat (eapply reads_then; [solve [eauto with wire]|cbv beta]); try reflexivity.

Lemma reads_take_data d : reads (take_data (len d)) d d.
Proof.
  intros rest. unfold take_data. unfold mbind at 1, cursor_bind at 1, cget at 1. rewrite len_app.
  pose proof (len_nonneg rest). zcase; [lia|]. unfold skip, cmodify, mbind, cursor_bind.
  rewrite ensure_run, len_app. zcase; [lia|]. by rewrite ztake_app_len, zdrop_app_len.
Qed.

Lemma reads_with_varint_length d : is_vint (len d) -> reads read_with_varint_length (vb (len d) ++ d) d.
Proof. intros Hd. unfold read_with_varint_length. eapply reads_bind; eauto with wire. Qed.

Lemma reads_with_u8_length d : is_u8 (len d) -> reads read_with_u8_length (be_bytes 1 (len d) ++ d) d.
Proof. intros Hd. unfold read_with_u8_length. eapply reads_bind; eauto with wire. Qed.

#[export] Hint Resolve reads_take_data reads_with_varint_length reads_with_u8_length : wire.

Lemma reads_stream id offset data (fin : bool) : is_vint id -> is_vint offset -> len data < 16384 ->
  offset + len data <= VINT_MAX ->
  reads (get_stream_frame (if fin then 0x0f else 0x0e))
    (vb id ++ vb offset ++ varint_bytes 2 (len data) ++ data) (Stream id offset (len data) fin data).
Proof.
  intros Hi Ho Hl Hm. unfold is_vint, VINT_MAX in *. pose proof (len_nonneg data) as H0.
  set (t := if fin then 15 else 14). unfold get_stream_frame.
  replace (Z.land (wrap 8 t) 4 =? 0) with false by (subst t; by destruct fin).
  replace (Z.land (wrap 8 t) 2 =? 0) with false by (subst t; by destruct fin).
  replace (negb (Z.land (wrap 8 t) 1 =? 0)) with fin by (subst t; by destruct fin). cbn [negb].
  do 2 (eapply reads_bind; [apply reads_vb; unfold is_vint, VINT_MAX; lia|]).
  eapply reads_bind; [apply reads_len2; lia|]. rewrite add64_ok by lia.
  intros rest. rewrite clift_ok_bind. unfold MAX_STREAM_SIZE. change (Z.shiftl 1 62) with 4611686018427387904.
  zcase; [lia|]. eapply reads_then; [apply reads_take_data|]. done.
Qed.

Lemma reads_ecn ecn t : ecn_ok ecn -> (Z.land t 1 =? 0) = bool_decide (ecn = None) ->
  reads (read_ecn t) (ecn_bytes ecn) ecn.
Proof.
  intros He Ht. unfold read_ecn. rewrite Ht. destruct ecn as [[a b c]|].
  - rewrite bool_decide_false by done. destruct He as (? & ? & ?). cbn in *. reads_run.
  - rewrite bool_decide_true by done. apply reads_ret.
Qed.

Lemma ack_bytes_length s rs : (length rs <= length (ack_bytes s rs))%nat.
Proof.
  revert s. induction rs as [|r rs IH]; intros s; cbn [ack_bytes length]; [lia|].
  rewrite !length_app. specialize (IH (start r)).
  pose proof (len_vb (s - end_ r - 1)) as E. pose proof (varint_len_size (s - end_ r - 1)) as Hs.
  unfold len, varint_size in *. lia.
Qed.

Lemma reads_ack delay s ecn rest : frame_ok (Ack delay s ecn) ->
  (ft ← read_varint; get_frame ft) (frame_bytes (Ack delay s ecn) ++ rest) = Ok (Ack delay s ecn, rest).
Proof.
  intros (Hd & Hs & He). pose proof (ack_set_desc s Hs) as Hdesc. pose proof (fold_insert_iter s Hs) as Hfold.
  cbn [frame_bytes]. destruct (rev (RangeSet.iter s)) as [|r rs] eqn:E.
  { destruct Hs as (_ & Hne & _). destruct Hne. unfold RangeSet.iter in E.
    apply (f_equal (@rev Range)) in E. rewrite rev_involutive in E. by destruct (RangeSet.set s). }
  destruct Hdesc as (Hr & Hh & Hdesc). pose proof (len_nonneg rs).
  pose proof (desc_len (start r) rs ltac:(lia) Hdesc) as Hl.
  set (t := match ecn with None => 2 | Some _ => 3 end).
  assert (is_vint t) as Ht by (subst t; destruct ecn; by apply vint_small).
  rewrite <- !app_assoc. eapply reads_then; [by apply reads_vb|].
  replace (get_frame t) with (parse_ack_frame t) by (subst t; by destruct ecn).
  unfold parse_ack_frame. unfold is_vint in *.
  eapply reads_then; [apply reads_vb; unfold is_vint; lia|].
  eapply reads_then; [by apply reads_vb|].
  eapply reads_then; [apply reads_vb; unfold is_vint; lia|].
  eapply reads_then; [apply reads_vb; unfold is_vint; lia|]. zcase; [lia|].
  replace (end_ r - 1 - (end_ r - 1 - start r)) with (start r) by lia.
  replace (end_ r - 1 + 1) with (end_ r) by lia.
  unfold mbind at 1, cursor_bind at 1, cget at 1. erewrite cursor_bind_ok.
  2: { apply ack_loop_reads; [lia|done|]. rewrite length_app. pose proof (ack_bytes_length (start r) rs). lia. }
  replace (mkRange (start r) (end_ r)) with r by by destruct r.
  change (fold_left RangeSet.insert rs (RangeSet.insert RangeSet.default r))
    with (fold_left RangeSet.insert (r :: rs) RangeSet.default). rewrite Hfold.
  eapply reads_then; [apply reads_ecn; [done|subst t; by destruct ecn]|]. done.
Qed.

Lemma pad_loop_spec n rest k : head rest <> Some 0 -> pad_loop (repeat 0 n ++ rest) k = (k + Z.of_nat n, rest).
Proof.
  intros Hr. revert k. induction n as [|n IH]; intros k; cbn [repeat app pad_loop].
  - rewrite Z.add_0_r. destruct rest as [|[|p|p] rest]; done.
  - rewrite IH. f_equal. lia.
Qed.

Lemma reads_paddings n rest : 1 <= n -> head rest <> Some 0 ->
  (ft ← read_varint; get_frame ft) (frame_bytes (Paddings n) ++ rest) = Ok (Paddings n, rest).
Proof.
  intros Hn Hr. cbn [frame_bytes]. replace (Z.to_nat n) with (S (Z.to_nat (n - 1))) by lia.
  change (repeat 0 (S (Z.to_nat (n - 1))) ++ rest) with (vb 0 ++ repeat 0 (Z.to_nat (n - 1)) ++ rest).
  eapply reads_then; [by apply reads_vb, vint_small|]. cbn [get_frame]. rewrite pad_loop_spec by done.
  do 3 f_equal. lia.
Qed.

Lemma then_with_varint_length {A} d (f : list Z -> dec A) tail r : is_vint (len d) -> f d tail = r ->
  (read_with_varint_length ≫= f) (vb (len d) ++ d ++ tail) = r.
Proof. intros Hd Hr. rewrite app_assoc. eapply reads_then; [by apply reads_with_varint_length|done]. Qed.

Lemma then_with_u8_length {A} d (f : list Z -> dec A) tail r : is_u8 (len d) -> f d tail = r ->
  (read_with_u8_length ≫= f) (be_bytes 1 (len d) ++ d ++ tail) = r.
Proof. intros Hd Hr. rewrite app_assoc. eapply reads_then; [by apply reads_with_u8_length|done]. Qed.

(** Read the next field. *)
Ltac read_field :=
  first [eapply then_with_varint_length; [solve [eauto with wire]|cbv beta]
        |eapply then_with_u8_length; [solve [eauto with wire]|cbv beta]
        |eapply reads_then; [solve [eauto with wire]|cbv beta]].

Lemma reads_frame f rest : frame_ok f -> (forall n, f = Paddings n -> head rest <> Some 0) ->
  (ft ← read_varint; get_frame ft) (frame_bytes f ++ rest) = Ok (decoded f, rest).
Proof.
  intros Hf Hr. destruct f; [by apply reads_paddings; [|eapply Hr]| |by apply reads_ack|..];
    cbn [frame_bytes frame_ok decoded] in *;
    repeat match goal with H : _ /\ _ |- _ => destruct H end; subst;
    repeat match goal with H : ConnectionId.valid _ |- _ =>
      destruct (wrap8_cid _ H) as [_ ?]; pose proof (proj1 H) as Hcid; clear H end;
    try (destruct bidi); rewrite <- ?app_assoc;
    try (read_field; cbn [get_frame]; repeat read_field; rewrite <- ?Hcid; reflexivity).
  eapply reads_then; [apply reads_vb, vint_small; by destruct fin|].
  replace (get_frame (if fin then 15 else 14)) with (get_stream_frame (if fin then 15 else 14)) by by destruct fin.
  rewrite !app_assoc. apply reads_at. rewrite <- !app_assoc. by apply reads_stream.
Qed.

(** ** Length on the wire *)

Lemma varint_lens_ok ns : Forall is_vint ns -> varint_lens ns = Ok (len (concat (map vb ns))).
Proof.
  induction 1 as [|n ns Hn _ IH]; cbn [varint_lens map concat]; [done|].
  rewrite encode_varint_len_ok by apply Hn. cbn [mbind outcome_bind]. rewrite IH. cbn [mbind outcome_bind].
  by rewrite len_app, len_vb.
Qed.

Ltac vints := repeat (apply Forall_cons_2; [assumption || (unfold is_vint, VINT_MAX in *; lia)|]); apply Forall_nil_2.

Lemma ack_wire_len rs : forall s, s <= VINT_MAX -> desc s rs -> ack_ranges_wire_len s rs = Ok (len (ack_bytes s rs)).
Proof.
  induction rs as [|r rs IH]; intros s Hs; cbn [ack_ranges_wire_len ack_bytes desc]; [done|].
  intros (Hr & He & Hd). rewrite sub64_ok by lia. cbn [mbind outcome_bind]. rewrite !sub64_ok by lia.
  cbn [mbind outcome_bind]. rewrite sub64_ok by lia. cbn [mbind outcome_bind].
  rewrite varint_lens_ok by vints. cbn [mbind outcome_bind].
  rewrite IH by (done || lia). cbn [mbind outcome_bind map concat]. rewrite !len_app, (@len_nil Z). f_equal. lia.
Qed.

Lemma wire_len_ack delay s ecn : frame_ok (Ack delay s ecn) ->
  wire_len (Ack delay s ecn) = Ok (len (frame_bytes (Ack delay s ecn))).
Proof.
  intros (Hd & Hs & He). pose proof (ack_set_desc s Hs) as Hdesc. cbn [wire_len frame_bytes].
  destruct (rev (RangeSet.iter s)) as [|r rs] eqn:E.
  { destruct Hs as (_ & Hne & _). destruct Hne. unfold RangeSet.iter in E.
    apply (f_equal (@rev Range)) in E. rewrite rev_involutive in E. by destruct (RangeSet.set s). }
  destruct Hdesc as (Hr & Hh & Hdesc). pose proof (len_nonneg rs).
  pose proof (desc_len (start r) rs ltac:(lia) Hdesc) as Hl. unfold is_vint in Hd.
  rewrite sub64_ok by lia. cbn [mbind outcome_bind]. rewrite sub64_ok by lia. cbn [mbind outcome_bind].
  rewrite varint_lens_ok by vints. cbn [mbind outcome_bind].
  rewrite ack_wire_len by (done || lia). cbn [mbind outcome_bind map concat].
  assert (match ecn with
          | Some e => varint_lens [ect0_count e; ect1_count e; ecn_ce_count e]
          | None => Ok 0 end = Ok (len (ecn_bytes ecn))) as ->.
  { destruct ecn as [e|]; [|done]. destruct He as (? & ? & ?).
    rewrite varint_lens_ok by vints. cbn. by rewrite app_nil_r. }
  cbn [mbind outcome_bind]. rewrite !len_app, (@len_nil Z).
  replace (len (vb (match ecn with Some _ => 3 | None => 2 end))) with 1 by by destruct ecn. f_equal. lia.
Qed.

Lemma len_len2 n : len (varint_bytes 2 n) = 2.
Proof. apply len_varint_bytes. by right; left. Qed.

(** Evaluate the lengths of the constant type fields. *)
Ltac type_lens :=
  rewrite ?len_vb, ?len_len2;
  repeat match goal with |- context [varint_len (Zpos ?p)] =>
    let v := eval vm_compute in (varint_len (Zpos p)) in change (varint_len (Zpos p)) with v end.

Lemma wire_len_frame f : frame_ok f -> wire_len f = Ok (len (frame_bytes f)).
Proof.
  intros Hf. destruct f; try (by apply wire_len_ack); cbn [wire_len frame_bytes frame_ok] in *.
  { f_equal. unfold len. rewrite repeat_length. lia. }
  all: repeat match goal with H : _ /\ _ |- _ => destruct H end; subst;
    try (rewrite varint_lens_ok by vints); cbn [mbind outcome_bind mret outcome_ret map concat];
    rewrite ?len_app, ?(@len_nil Z), ?len_be_bytes; try (destruct bidi); try (destruct fin);
    type_lens; f_equal; lia.
Qed.

(** C16.  Frames round-trip: a frame within the protocol's limits is written in exactly
    [wire_len] bytes, or refused with [BufferTooShort] when the buffer is smaller,
    and decoding what was written returns the frame (a PING without its probe
    size) and consumes exactly those bytes, whatever follows; a frame that is not
    allowed in the packet's type is refused. *)
Theorem frame_roundtrip f pkt buf rest : frame_ok f -> (forall n, f = Paddings n -> head rest <> Some 0) ->
  exists bs, wire_len f = Ok (len bs) /\
    (len buf < len bs -> to_bytes f buf = Err BufferTooShort) /\
    (len bs <= len buf -> to_bytes f buf = Ok (len bs, bs ++ zdrop (len bs) buf)) /\
    from_bytes (bs ++ rest) pkt =
      if validate_frame pkt f then Ok (decoded f, len bs) else Err InvalidPacket.
Proof.
  intros Hf Hr. exists (frame_bytes f). split; [by apply wire_len_frame|].
  unfold to_bytes. rewrite (run_enc_spec _ _ buf (writes_frame f Hf)).
  split; [intros; zcase; [lia|done]|]. split; [intros; zcase; [done|lia]|].
  unfold from_bytes. rewrite reads_frame by done.
  replace (validate_frame pkt (decoded f)) with (validate_frame pkt f) by (by destruct f, pkt).
  destruct (validate_frame pkt f); cbn; [|done]. rewrite len_app. do 2 f_equal. lia.
Qed.

Definition sample_ack : Frame :=
  Ack 100 (RangeSet.insert (RangeSet.insert RangeSet.default (mkRange 2 5)) (mkRange 8 9)) (Some (mkEcn 1 2 3)).

Lemma frame_roundtrip_witness :
  exists bs, wire_len sample_ack = Ok (len bs) /\
    from_bytes (bs ++ [0]) Handshake = Ok (sample_ack, len bs).
Proof.
  destruct (RangeSet.u64_set_insert RangeSet.default (mkRange 2 5) RangeSet.u64_set_default) as [U1 M1]; [cbn; lia..|].
  destruct (RangeSet.u64_set_insert _ (mkRange 8 9) U1) as [U2 M2]; [cbn; lia..|].
  assert (frame_ok sample_ack) as Hf.
  { split; [by apply vint_small|]. split; [|split; [|split]; by apply vint_small].
    split; [done|]. split; [by vm_compute|]. intros x [[Hx|Hx]%M1|Hx]%M2; unfold RangeSet.in_range in Hx; cbn in Hx;
      [by apply RangeSet.mem_list_nil in Hx|unfold VINT_MAX; lia..]. }
  destruct (frame_roundtrip sample_ack Handshake [] [0] Hf) as (bs & Hl & _ & _ & H1); [done|].
  exists bs. split; [done|exact H1].
Defined.

(** ** Arbitrary input *)

Lemma read_varint_shorter b v rest : bytes_ok b -> read_varint b = Ok (v, rest) -> (length rest < length b)%nat.
Proof.
  intros Hb Hr. destruct b as [|x b]; [done|].
  destruct (decode_varint_len_byte x) as (l & Hd & Hl); [by apply Forall_cons_1 in Hb as [? _]|].
  rewrite (read_varint_run (x :: b) l) in Hr by done.
  destruct (Z.ltb_spec (len (x :: b)) l); [done|]. injection Hr as _ <-.
  unfold varint_size, zdrop, len in *. rewrite length_drop. cbn [length] in *. lia.
Qed.

Lemma safe_take_data n : 0 <= n -> safe (take_data n) (fun d => len d = n /\ bytes_ok d).
Proof.
  intros Hn b Hb. unfold take_data. unfold mbind at 1, cursor_bind at 1, cget at 1.
  destruct (Z.ltb_spec (len b) n); [done|]. unfold skip, cmodify, mbind, cursor_bind. rewrite ensure_run.
  destruct (Z.ltb_spec (len b) n); [lia|]. cbn.
  split; [split; [apply len_ztake; lia|by apply bytes_ok_ztake]|]. exists (ztake n b). by rewrite ztake_zdrop.
Qed.

Lemma ack_loop_safe fuel : forall count s set b, bytes_ok b -> (length b < fuel)%nat -> 0 <= s <= VINT_MAX ->
  RangeSet.u64_set set ->
  match ack_loop fuel count s set b with
  | Ok (set', rest) => RangeSet.u64_set set' /\ exists pre, b = pre ++ rest
  | Err _ => True
  | Panic => False
  end.
Proof.
  induction fuel as [|fuel IH]; intros count s set b Hb Hf Hs Hset; [lia|]. cbn [ack_loop].
  destruct (count <=? 0); [split; [done|by exists []]|].
  unfold mbind at 1, cursor_bind at 1. pose proof (safe_varint b Hb) as Hv.
  destruct (read_varint b) as [[gap b1]| |] eqn:E1; [|done..]. destruct Hv as [Hg [pre ->]].
  pose proof (read_varint_shorter _ _ _ Hb E1) as Hl1. apply bytes_ok_app in Hb as [_ Hb1].
  unfold is_vint in Hg. destruct (Z.ltb_spec s (2 + gap)); [done|].
  unfold mbind at 1, cursor_bind at 1. pose proof (safe_varint b1 Hb1) as Hv.
  destruct (read_varint b1) as [[l b2]| |] eqn:E2; [|done..]. destruct Hv as [Hl [pre' ->]].
  pose proof (read_varint_shorter _ _ _ Hb1 E2) as Hl2. apply bytes_ok_app in Hb1 as [_ Hb2].
  unfold is_vint in Hl. destruct (Z.ltb_spec (s - gap - 2) l); [done|].
  set (set' := RangeSet.insert set _). unfold VINT_MAX in *.
  assert (RangeSet.u64_set set') as Hset' by (apply RangeSet.u64_set_insert; cbn; [done|lia..]).
  specialize (IH (count - 1) (s - gap - 2 - l) set' b2 Hb2).
  destruct (ack_loop _ _ _ _ b2) as [[set'' rest]| |].
  - destruct IH as [Hu [pre'' ->]]; [lia..|done|]. split; [done|]. exists (pre ++ pre' ++ pre''). by rewrite <- !app_assoc.
  - done.
  - apply IH; [lia..|done].
Qed.

Definition array_ok (n : Z) (d : list Z) : Prop := len d = n /\ bytes_ok d.

(** What a decoded frame satisfies. *)
Definition received_ok (f : Frame) : Prop :=
  match f with
  | Paddings n => 1 <= n
  | Ping probe => probe = None
  | HandshakeDone => True
  | Ack delay s ecn => is_vint delay /\ RangeSet.u64_set s /\ ecn_ok ecn
  | ResetStream a b c | PathStatus a b c => is_vint a /\ is_vint b /\ is_vint c
  | StopSending a b | MaxStreamData a b | StreamDataBlocked a b => is_vint a /\ is_vint b
  | Crypto offset l data => is_vint offset /\ array_ok l data
  | NewToken t | Datagram t => bytes_ok t
  | Stream id offset l _ data => is_vint id /\ is_vint offset /\ array_ok l data /\ offset + l < MAX_STREAM_SIZE
  | MaxData m | MaxStreams _ m | DataBlocked m | StreamsBlocked _ m | RetireConnectionId m => is_vint m
  | NewConnectionId a r c t => is_vint a /\ is_vint r /\ ConnectionId.valid c /\ array_ok 16 t
  | PathChallenge d | PathResponse d => array_ok 8 d
  | ConnectionClose e t r => is_vint e /\ is_vint t /\ bytes_ok r
  | ApplicationClose e r => is_vint e /\ bytes_ok r
  | PathAbandon a e r => is_vint a /\ is_vint e /\ bytes_ok r
  end.

Lemma safe_with_u8_length : safe read_with_u8_length bytes_ok.
Proof.
  eapply safe_bind; [apply safe_u8|]. intros l Hl. eapply safe_weaken; [apply safe_read, Hl|]. by intros d [_ Hd].
Qed.
Lemma safe_array n : 0 <= n -> safe (read n) (array_ok n).
Proof. intros Hn. by apply safe_read. Qed.
Lemma safe_data n : is_vint n -> safe (take_data n) (array_ok n).
Proof. intros Hn. apply safe_take_data, Hn. Qed.
#[export] Hint Resolve safe_with_varint_length safe_with_u8_length safe_data : wire.

(** Walk through a sequence of reads. *)
Ltac safe_all :=
  repeat (eapply safe_bind; [first [solve [eauto with wire] | by apply safe_array]|intros ? ?]);
  try (apply safe_ret; cbn [received_ok]; repeat match goal with |- _ /\ _ => split end;
       solve [auto | apply ConnectionId.valid_new; assumption | eapply proj2; eassumption]).

Lemma safe_read_ecn t : safe (read_ecn t) ecn_ok.
Proof.
  unfold read_ecn. apply safe_if; intros _; [by apply safe_ret|].
  do 3 (eapply safe_bind; [apply safe_varint|intros ? ?]). by apply safe_ret.
Qed.

Lemma safe_ack t : safe (parse_ack_frame t) received_ok.
Proof.
  unfold parse_ack_frame. eapply safe_bind; [apply safe_varint|]. intros largest Hla.
  eapply safe_bind; [apply safe_varint|]. intros delay Hde.
  eapply safe_bind; [apply safe_varint|]. intros count _.
  eapply safe_bind; [apply safe_varint|]. intros l Hl. unfold is_vint, VINT_MAX in Hla, Hl.
  apply safe_if; [intros _; apply safe_fail|]. intros Hlt%Z.ltb_ge.
  set (set := RangeSet.insert _ _).
  assert (RangeSet.u64_set set) as Hset
    by (apply RangeSet.u64_set_insert; cbn; [apply RangeSet.u64_set_default|lia..]).
  intros b Hb. unfold mbind at 1, cursor_bind at 1, cget at 1.
  pose proof (ack_loop_safe (S (length b)) count (largest - l) set b Hb ltac:(lia)) as Ha.
  unfold VINT_MAX in Ha. specialize (Ha ltac:(lia) Hset). unfold mbind at 1, cursor_bind at 1.
  destruct (ack_loop _ _ _ _ b) as [[set' b']| |]; [|done..]. destruct Ha as [Hu [pre ->]].
  apply bytes_ok_app in Hb as [_ Hb']. unfold mbind, cursor_bind. pose proof (safe_read_ecn (wrap 8 t) b' Hb') as He.
  destruct (read_ecn _ b') as [[ecn rest]| |]; [|done..]. destruct He as [He [pre' ->]]. cbn.
  split; [done|]. exists (pre ++ pre'). by rewrite app_assoc.
Qed.

(** ** Decoding from one buffer

    The stream frame without a length field runs to the end of the buffer, so
    its decoding is total for buffers that fit the address space. *)

Definition safe_at {A} (m : dec A) (P : A -> Prop) (b : list Z) : Prop :=
  match m b with
  | Ok (a, rest) => P a /\ exists pre, b = pre ++ rest
  | Err _ => True
  | Panic => False
  end.

Lemma safe_here {A} (m : dec A) P b : safe m P -> bytes_ok b -> safe_at m P b.
Proof. intros H Hb. exact (H b Hb). Qed.

Lemma safe_at_bind {A B} (m : dec A) (f : A -> dec B) P Q b :
  safe_at m P b ->
  bytes_ok b ->
  (forall a rest, P a -> bytes_ok rest -> len rest <= len b -> safe_at (f a) Q rest) ->
  safe_at (m ≫= f) Q b.
Proof.
  unfold safe_at, mbind, cursor_bind. intros Hm Hb Hf. destruct (m b) as [[a rest]| |]; [|done..].
  destruct Hm as [Ha [pre ->]]. apply bytes_ok_app in Hb as [_ Hr]. specialize (Hf a rest Ha Hr).
  rewrite len_app in Hf. pose proof (len_nonneg pre). specialize (Hf ltac:(lia)).
  destruct (f a rest) as [[c rest']| |]; [|done..]. destruct Hf as [Hq [pre' ->]].
  split; [done|]. exists (pre ++ pre'). by rewrite app_assoc.
Qed.

Lemma safe_stream t b : bytes_ok b -> len b < 2 ^ 63 -> safe_at (get_stream_frame t) received_ok b.
Proof.
  intros Hb Hlen. unfold get_stream_frame.
  eapply safe_at_bind; [by eapply safe_here; [apply safe_varint|]|done|]. intros id b1 Hid Hb1 L1.
  eapply (safe_at_bind _ _ is_vint); [|done|].
  { apply safe_here; [|done]. apply safe_if; intros _; [apply safe_varint|by apply safe_ret, vint_small]. }
  intros offset b2 Ho Hb2 L2. unfold is_vint, VINT_MAX in Ho.
  eapply (safe_at_bind _ _ (fun l => 0 <= l < 2 ^ 63)); [|done|].
  { destruct (negb _).
    - apply safe_here; [|done]. eapply safe_weaken; [apply safe_varint|]. unfold is_vint, VINT_MAX. intros; lia.
    - cbn. pose proof (len_nonneg b2). split; [lia|by exists []]. }
  intros l b3 Hl Hb3 _. unfold safe_at. rewrite (add64_ok offset l), clift_ok_bind by lia.
  destruct (Z.leb_spec MAX_STREAM_SIZE (offset + l)) as [|Hlt]; [done|]. apply safe_here; [|done].
  eapply safe_bind; [apply safe_take_data; lia|]. intros d Hd. by apply safe_ret.
Qed.

Lemma pad_loop_safe b : forall n,
  n <= (pad_loop b n).1 /\ exists pre, b = pre ++ (pad_loop b n).2.
Proof.
  induction b as [|x b IH]; intros n; cbn; [split; [lia|by exists []]|].
  destruct x; [|split; [cbn; lia|by exists []]..].
  destruct (IH (n + 1)) as [? [pre Hp]]. split; [lia|]. exists (0 :: pre). cbn. by f_equal.
Qed.

Lemma safe_frame t b : bytes_ok b -> len b < 2 ^ 63 -> safe_at (get_frame t) received_ok b.
Proof.
  intros Hb Hlen.
  assert (forall {A} e (P : A -> Prop), safe_at (cfail e) P b) as Hfail by done.
  unfold get_frame. repeat case_match; try apply Hfail; try (apply safe_here; [solve [safe_all | apply safe_ack]|done]);
    try by apply safe_stream.
  - unfold safe_at. destruct (pad_loop_safe b 1) as [? [pre ?]]. destruct (pad_loop b 1). cbn in *. eauto.
  - unfold mbind at 1, cursor_bind at 1, cget at 1, safe_at at 1. cbn [mbind].
    assert (safe (take_data (len b) ≫= fun d => mret (Datagram d)) received_ok) as Hd; [|exact (Hd b Hb)].
    eapply safe_bind; [apply safe_take_data, len_nonneg|]. intros d [_ Hd]. by apply safe_ret.
Qed.

(** C17.  Decoding a frame from arbitrary bytes: [Frame::from_bytes] never
    panics on a buffer that fits the address space, whatever the peer put in
    it and whatever the packet type. When it returns a frame, the frame is one
    the packet type may carry, at least one byte and at most the whole buffer
    is consumed, every field is in its wire range, the data of a CRYPTO or
    STREAM frame has the announced length, and a STREAM frame ends below the
    maximal stream size. *)
Theorem frame_decode_total buf pkt :
  bytes_ok buf -> len buf < 2 ^ 63 ->
  match from_bytes buf pkt with
  | Ok (f, n) => received_ok f /\ validate_frame pkt f = true /\ 0 < n <= len buf
  | Err _ => True
  | Panic => False
  end.
Proof.
  intros Hb Hlen. unfold from_bytes, mbind, cursor_bind. pose proof (safe_varint buf Hb) as Hv.
  destruct (read_varint buf) as [[t rest]| |] eqn:Hr; [|done..].
  pose proof (read_varint_shorter buf t rest Hb Hr) as Hs. destruct Hv as [_ [pre ->]].
  apply bytes_ok_app in Hb as [_ Hb]. unfold len in *.
  pose proof (safe_frame t rest Hb ltac:(unfold len; lia)) as Hf. unfold safe_at in Hf.
  destruct (get_frame t rest) as [[f rest']| |]; [|done..]. destruct Hf as [Hf [pre' ->]].
  destruct (validate_frame pkt f) eqn:Hval; [|done]. rewrite !length_app in *. split_and!; (done || lia).
Qed.

Lemma frame_decode_total_witness :
  match from_bytes [0x0e; 0x04; 0x40; 0x80; 0x02; 0x68; 0x69; 0x01] OneRTT with
  | Ok (f, n) => received_ok f /\ validate_frame OneRTT f = true /\ 0 < n <= 8
  | Err _ => True
  | Panic => False
  end.
Proof.
  apply (frame_decode_total [0x0e; 0x04; 0x40; 0x80; 0x02; 0x68; 0x69; 0x01] OneRTT); [|by vm_compute].
  repeat (apply Forall_cons_2; [by vm_compute|]). apply Forall_nil_2.
Defined.
