(* ===== verification/Cid.v ===== *)
(** * Connection id management

    Models [src/src/connection/cid.rs]: the ids we issued to the peer (source
    ids), the ids the peer issued to us (destination ids), what is to be
    advertised and what is to be retired; and the loop of
    [Connection::try_write_cid_control_frame] in [src/src/connection/send.rs]
    that turns the two queues into frames.  Operations are actions: an error
    leaves the changes made before it. *)

From S2P Require Import Prelude.
From S2P Require Import Error.
From S2P Require Import Codec.
From S2P Require Import Events.
From S2P Require Import ConnectionId.
From S2P Require Import Packet.
From S2P Require Import Frame.

Definition MAX_CIDS_COUNT : Z := 16.

Record ConnectionIdItem := mkItem {
  cid : ConnectionId.ConnectionId;
  seq_ : Z;
  reset_token : option Z;
  path_id : option Z;
}.

#[global] Instance item_eq_dec : EqDecision ConnectionIdItem.
Proof. solve_decision. Defined.

Definition with_path_id (p : option Z) (e : ConnectionIdItem) : ConnectionIdItem :=
  mkItem (cid e) (seq_ e) (reset_token e) p.

Module ConnectionIdDeque.

Record ConnectionIdDeque := mkDeque { queue : list ConnectionIdItem; capacity : Z }.

Definition with_queue (q : list ConnectionIdItem) (d : ConnectionIdDeque) := mkDeque q (capacity d).

Definition new (capacity : Z) : ConnectionIdDeque := mkDeque [] capacity.

(** [iter().find(..)]: the first match. *)
Fixpoint find (p : ConnectionIdItem -> bool) (q : list ConnectionIdItem) : option ConnectionIdItem :=
  match q with
  | [] => None
  | e :: q => if p e then Some e else find p q
  end.

Definition get (seq : Z) (d : ConnectionIdDeque) : option ConnectionIdItem :=
  find (fun e => seq_ e =? seq) (queue d).

(** An update through [get_mut]: the first item with the number. *)
Fixpoint set_path (seq : Z) (p : Z) (q : list ConnectionIdItem) : list ConnectionIdItem :=
  match q with
  | [] => []
  | e :: q => if seq_ e =? seq then with_path_id (Some p) e :: q else e :: set_path seq p q
  end.

Definition mark_used (seq path : Z) : action Error ConnectionIdDeque unit := fun d =>
  match get seq d with
  | Some _ => (Ok tt, with_queue (set_path seq path (queue d)) d)
  | None => (Err InternalError, d)
  end.

Definition insert (e : ConnectionIdItem) : action Error ConnectionIdDeque unit := fun d =>
  if len (queue d) =? capacity d then (Err ConnectionIdLimitError, d)
  else (Ok tt, with_queue (queue d ++ [e]) d).

Definition clear (d : ConnectionIdDeque) : ConnectionIdDeque := with_queue [] d.

(** [position] and [VecDeque::remove]: the first item with the number. *)
Fixpoint take_out (seq : Z) (q : list ConnectionIdItem) : option (ConnectionIdItem * list ConnectionIdItem) :=
  match q with
  | [] => None
  | e :: q =>
      if seq_ e =? seq then Some (e, q)
      else match take_out seq q with
           | Some (x, q') => Some (x, e :: q')
           | None => None
           end
  end.

Definition remove (seq : Z) : action Error ConnectionIdDeque (option ConnectionIdItem) := fun d =>
  match queue d with
  | [] => (Err InternalError, d)
  | _ =>
      if (len (queue d) =? 1) && bool_decide (is_Some (get seq d)) then (Err InternalError, d)
      else match take_out seq (queue d) with
           | Some (e, q) => (Ok (Some e), with_queue q d)
           | None => (Ok None, d)
           end
  end.

(** The items that [remove_lower] hands to its callback, and the queue it leaves. *)
Definition lower (seq : Z) (q : list ConnectionIdItem) : list ConnectionIdItem :=
  List.filter (fun e => seq_ e <? seq) q.
Definition remove_lower (seq : Z) (d : ConnectionIdDeque) : ConnectionIdDeque :=
  with_queue (List.filter (fun e => negb (seq_ e <? seq)) (queue d)) d.

Definition enlarge (c : Z) (d : ConnectionIdDeque) : ConnectionIdDeque :=
  if capacity d <? c then mkDeque (queue d) c else d.

End ConnectionIdDeque.

Module ConnectionIdMgr.

Record ConnectionIdMgr := mkMgr {
  dcids : ConnectionIdDeque.ConnectionIdDeque;
  scids : ConnectionIdDeque.ConnectionIdDeque;
  dcid_limit : Z;
  scid_limit : Z;
  zero_length_scid : bool;
  zero_length_dcid : bool;
  next_scid_seq : Z;
  retire_prior_to : Z;
  scids_to_advertise : list Z;
  largest_peer_retire_prior_to : Z;
  dcids_to_retire : list Z;
}.

Definition with_dcids x s := mkMgr x (scids s) (dcid_limit s) (scid_limit s) (zero_length_scid s)
  (zero_length_dcid s) (next_scid_seq s) (retire_prior_to s) (scids_to_advertise s)
  (largest_peer_retire_prior_to s) (dcids_to_retire s).
Definition with_scids x s := mkMgr (dcids s) x (dcid_limit s) (scid_limit s) (zero_length_scid s)
  (zero_length_dcid s) (next_scid_seq s) (retire_prior_to s) (scids_to_advertise s)
  (largest_peer_retire_prior_to s) (dcids_to_retire s).
Definition with_scid_limit x s := mkMgr (dcids s) (scids s) (dcid_limit s) x (zero_length_scid s)
  (zero_length_dcid s) (next_scid_seq s) (retire_prior_to s) (scids_to_advertise s)
  (largest_peer_retire_prior_to s) (dcids_to_retire s).
Definition with_zero_length_dcid x s := mkMgr (dcids s) (scids s) (dcid_limit s) (scid_limit s)
  (zero_length_scid s) x (next_scid_seq s) (retire_prior_to s) (scids_to_advertise s)
  (largest_peer_retire_prior_to s) (dcids_to_retire s).
Definition with_next_scid_seq x s := mkMgr (dcids s) (scids s) (dcid_limit s) (scid_limit s)
  (zero_length_scid s) (zero_length_dcid s) x (retire_prior_to s) (scids_to_advertise s)
  (largest_peer_retire_prior_to s) (dcids_to_retire s).
Definition with_retire_prior_to x s := mkMgr (dcids s) (scids s) (dcid_limit s) (scid_limit s)
  (zero_length_scid s) (zero_length_dcid s) (next_scid_seq s) x (scids_to_advertise s)
  (largest_peer_retire_prior_to s) (dcids_to_retire s).
Definition with_scids_to_advertise x s := mkMgr (dcids s) (scids s) (dcid_limit s) (scid_limit s)
  (zero_length_scid s) (zero_length_dcid s) (next_scid_seq s) (retire_prior_to s) x
  (largest_peer_retire_prior_to s) (dcids_to_retire s).
Definition with_largest_peer_retire_prior_to x s := mkMgr (dcids s) (scids s) (dcid_limit s)
  (scid_limit s) (zero_length_scid s) (zero_length_dcid s) (next_scid_seq s) (retire_prior_to s)
  (scids_to_advertise s) x (dcids_to_retire s).
Definition with_dcids_to_retire x s := mkMgr (dcids s) (scids s) (dcid_limit s) (scid_limit s)
  (zero_length_scid s) (zero_length_dcid s) (next_scid_seq s) (retire_prior_to s)
  (scids_to_advertise s) (largest_peer_retire_prior_to s) x.

Abbreviation act := (action Error ConnectionIdMgr).

Definition on_scids {A} (m : action Error ConnectionIdDeque.ConnectionIdDeque A) : act A := zoom scids with_scids m.
Definition on_dcids {A} (m : action Error ConnectionIdDeque.ConnectionIdDeque A) : act A := zoom dcids with_dcids m.

(** The capacities are computed with checked arithmetic. *)
Definition new (limit : Z) (initial_scid : ConnectionId.ConnectionId) (initial_path_id : Z)
    (token : option Z) : res ConnectionIdMgr :=
  let item := mkItem initial_scid 0 token (Some initial_path_id) in
  let scids := (ConnectionIdDeque.insert item (ConnectionIdDeque.new (2 * 2 - 1))).2 in
  twice ← mul64 limit 2;
  cap ← sub64 twice 1;
  mret (mkMgr (ConnectionIdDeque.new cap) scids limit 2
    (bool_decide (ConnectionId.deref initial_scid = [])) false 1 0 [] 0 []).

Definition set_initial_dcid (c : ConnectionId.ConnectionId) (token : option Z) (path : option Z)
    (s : ConnectionIdMgr) : ConnectionIdMgr :=
  let s := with_zero_length_dcid (bool_decide (ConnectionId.deref c = [])) s in
  let d := ConnectionIdDeque.clear (dcids s) in
  with_dcids (ConnectionIdDeque.insert (mkItem c 0 token path) d).2 s.

Definition set_scid_limit (limit : Z) (s : ConnectionIdMgr) : ConnectionIdMgr :=
  let limit := Z.max (Z.min limit MAX_CIDS_COUNT) 2 in
  let s := with_scid_limit limit s in
  with_scids (ConnectionIdDeque.enlarge (2 * limit - 1) (scids s)) s.

Definition get_scid (seq : Z) (s : ConnectionIdMgr) : res ConnectionIdItem :=
  match ConnectionIdDeque.get seq (scids s) with Some e => Ok e | None => Err InternalError end.
Definition get_dcid (seq : Z) (s : ConnectionIdMgr) : res ConnectionIdItem :=
  match ConnectionIdDeque.get seq (dcids s) with Some e => Ok e | None => Err InternalError end.

Definition find_scid (c : ConnectionId.ConnectionId) (s : ConnectionIdMgr) : option (Z * option Z) :=
  match ConnectionIdDeque.find (fun e => bool_decide (cid e = c)) (ConnectionIdDeque.queue (scids s)) with
  | Some e => Some (seq_ e, path_id e)
  | None => None
  end.

Definition mark_scid_used (seq path : Z) : act unit := on_scids (ConnectionIdDeque.mark_used seq path).
Definition mark_dcid_used (seq path : Z) : act unit := on_dcids (ConnectionIdDeque.mark_used seq path).

Definition is_unused (e : ConnectionIdItem) : bool :=
  match path_id e with None => true | Some _ => false end.

Definition unused_scids (s : ConnectionIdMgr) : Z :=
  len (List.filter is_unused (ConnectionIdDeque.queue (scids s))).
Definition unused_dcids (s : ConnectionIdMgr) : Z :=
  if zero_length_dcid s then 0 else len (List.filter is_unused (ConnectionIdDeque.queue (dcids s))).

(** [Iterator::min] *)
Fixpoint min_of (l : list Z) : option Z :=
  match l with
  | [] => None
  | x :: l => match min_of l with Some y => Some (Z.min x y) | None => Some x end
  end.

Definition active_seqs (s : ConnectionIdMgr) : list Z :=
  List.filter (fun n => retire_prior_to s <=? n) (map seq_ (ConnectionIdDeque.queue (scids s))).

Definition lowest_active_scid_seq (s : ConnectionIdMgr) : res Z :=
  match min_of (active_seqs s) with Some n => Ok n | None => Err InternalError end.

Definition lowest_unused_dcid_seq (s : ConnectionIdMgr) : option Z :=
  min_of (map seq_ (List.filter is_unused (ConnectionIdDeque.queue (dcids s)))).

Definition mark_scid_to_advertise (seq : Z) (advertise : bool) (s : ConnectionIdMgr) : ConnectionIdMgr :=
  with_scids_to_advertise
    (if advertise then scids_to_advertise s ++ [seq]
     else List.filter (fun n => negb (n =? seq)) (scids_to_advertise s)) s.

Definition mark_dcid_to_retire (seq : Z) (retire : bool) (s : ConnectionIdMgr) : ConnectionIdMgr :=
  with_dcids_to_retire
    (if retire then dcids_to_retire s ++ [seq]
     else List.filter (fun n => negb (n =? seq)) (dcids_to_retire s)) s.

(** The check of the limit in [add_scid]: at the limit the lowest id is retired, if
    the caller allows it. *)
Definition make_room (retire_if_needed : bool) : act unit :=
  s ← get;
  if scid_limit s <=? len (ConnectionIdDeque.queue (scids s)) then
    if negb retire_if_needed then fail ConnectionIdLimitError
    else
      lowest ← lift (lowest_active_scid_seq s);
      next ← lift (add64 lowest 1);
      modify (with_retire_prior_to next)
  else mret tt.

Definition add_scid (c : ConnectionId.ConnectionId) (token : option Z) (advertise : bool)
    (path : option Z) (retire_if_needed : bool) : act Z :=
  s ← get;
  if zero_length_scid s then fail InternalError else
  make_room retire_if_needed ;;
  seq ← gets next_scid_seq;
  if negb (seq =? 0) && bool_decide (token = None) then fail InternalError else
  on_scids (ConnectionIdDeque.insert (mkItem c seq token path)) ;;
  next ← lift (add64 seq 1);
  modify (with_next_scid_seq next) ;;
  modify (mark_scid_to_advertise seq advertise) ;;
  mret seq.

Definition check_dcids_to_retire (s : ConnectionIdMgr) : res unit :=
  limit ← mul64 (dcid_limit s) 4;
  if limit <? len (dcids_to_retire s) then Err ProtocolViolation else mret tt.

(** The pairs of a retired id in use and its path. *)
Definition retired_paths (q : list ConnectionIdItem) : list (Z * Z) :=
  omap (fun e => match path_id e with Some p => Some (seq_ e, p) | None => None end) q.

Definition add_dcid (c : ConnectionId.ConnectionId) (seq token prior_to : Z) : act (list (Z * Z)) :=
  s ← get;
  if zero_length_dcid s then fail ProtocolViolation else
  match ConnectionIdDeque.find (fun e => bool_decide (cid e = c) || (seq_ e =? seq))
          (ConnectionIdDeque.queue (dcids s)) with
  | Some e =>
      if negb (bool_decide (cid e = c)) || negb (seq_ e =? seq)
         || negb (bool_decide (reset_token e = Some token))
      then fail ProtocolViolation else mret []
  | None =>
      if seq <? prior_to then fail ProtocolViolation
      else if (seq <? largest_peer_retire_prior_to s) && negb (bool_decide (seq ∈ dcids_to_retire s)) then
        modify (with_dcids_to_retire (dcids_to_retire s ++ [seq])) ;;
        s ← get;
        lift (check_dcids_to_retire s) ;;
        mret []
      else
        retired ←
          (if largest_peer_retire_prior_to s <? prior_to then
             let low := ConnectionIdDeque.lower prior_to (ConnectionIdDeque.queue (dcids s)) in
             modify (with_dcids_to_retire (dcids_to_retire s ++ map seq_ low)) ;;
             modify (with_dcids (ConnectionIdDeque.remove_lower prior_to (dcids s))) ;;
             modify (with_largest_peer_retire_prior_to prior_to) ;;
             s ← get;
             lift (check_dcids_to_retire s) ;;
             mret (retired_paths low)
           else mret []);
        on_dcids (ConnectionIdDeque.insert (mkItem c seq (Some token) None)) ;;
        mret retired
  end.

Definition retire_scid (seq : Z) (pkt_dcid : ConnectionId.ConnectionId) : act (option Z) :=
  s ← get;
  if next_scid_seq s <=? seq then fail ProtocolViolation else
  removed ← on_scids (ConnectionIdDeque.remove seq);
  match removed with
  | Some e =>
      if bool_decide (cid e = pkt_dcid) then fail ProtocolViolation else
      s ← get;
      lowest ← lift (lowest_active_scid_seq s);
      modify (with_retire_prior_to lowest) ;;
      mret (path_id e)
  | None => mret None
  end.

Definition next_scid_to_advertise (s : ConnectionIdMgr) : option Z := head (scids_to_advertise s).
Definition next_dcid_to_retire (s : ConnectionIdMgr) : option Z := head (dcids_to_retire s).

Definition create_new_connection_id_frame (seq : Z) (s : ConnectionIdMgr) : res Frame :=
  match ConnectionIdDeque.get seq (scids s) with
  | None => Err InternalError
  | Some item =>
      match reset_token item with
      | None => Err InternalError
      | Some token => Ok (NewConnectionId seq (retire_prior_to s) (cid item) (be_bytes 16 token))
      end
  end.

Definition need_send_cid_control_frames (s : ConnectionIdMgr) : bool :=
  negb (bool_decide (dcids_to_retire s = [])) || negb (bool_decide (scids_to_advertise s = [])).

End ConnectionIdMgr.

(** ** Writing the control frames

    The fields of [FrameWriteStatus] that [try_write_cid_control_frame] and
    [write_frame_to_packet] touch, with the buffer, the manager and the queue
    of events they work on. *)

Module CidControl.

Record Writing := mkWriting {
  cids : ConnectionIdMgr.ConnectionIdMgr;
  out : list Z;
  written : Z;
  frames : list Frame;
  st_ack_eliciting : bool;
  in_flight : bool;
  events : EventQueue.EventQueue;
}.

Definition with_cids x w :=
  mkWriting x (out w) (written w) (frames w) (st_ack_eliciting w) (in_flight w) (events w).
Definition with_events x w :=
  mkWriting (cids w) (out w) (written w) (frames w) (st_ack_eliciting w) (in_flight w) x.
Definition with_flags (w : Writing) :=
  mkWriting (cids w) (out w) (written w) (frames w) true true (events w).

Definition write_frame_to_packet (f : Frame) : action Error Writing unit := fun w =>
  match wire_len f with
  | Ok n =>
      if len (out w) <? written w + n then (Err Done, w)
      else match to_bytes f (zdrop (written w) (out w)) with
           | Ok (k, bs) =>
               (Ok tt, mkWriting (cids w) (ztake (written w) (out w) ++ bs) (written w + k)
                 (frames w ++ [f]) (st_ack_eliciting w) (in_flight w) (events w))
           | Err e => (Err e, w)
           | Panic => (Panic, w)
           end
  | Err e => (Err e, w)
  | Panic => (Panic, w)
  end.

(** One turn of [while let Some(seq) = self.cids.next_scid_to_advertise()]. *)
Definition advertise_one (seq : Z) : action Error Writing unit :=
  w ← get;
  frame ← lift (ConnectionIdMgr.create_new_connection_id_frame seq (cids w));
  write_frame_to_packet frame ;;
  modify with_flags ;;
  modify (fun w => with_cids (ConnectionIdMgr.mark_scid_to_advertise seq false (cids w)) w).

(** A loop that ends when [next] is [None] or a turn fails; [None] is a loop
    that is still running when the fuel is spent. *)
Fixpoint while_some (next : Writing -> option Z) (turn : Z -> action Error Writing unit) (fuel : nat)
    (w : Writing) : option (res unit * Writing) :=
  match fuel with
  | O => None
  | S fuel =>
      match next w with
      | None => Some (Ok tt, w)
      | Some seq =>
          match turn seq w with
          | (Ok _, w') => while_some next turn fuel w'
          | (e, w') => Some (e, w')
          end
      end
  end.

Definition advertise_loop : nat -> Writing -> option (res unit * Writing) :=
  while_some (fun w => ConnectionIdMgr.next_scid_to_advertise (cids w)) advertise_one.

Definition note_retired (seq : Z) (w : Writing) : Writing :=
  match ConnectionIdMgr.get_dcid seq (cids w) with
  | Ok e =>
      match reset_token e with
      | Some token => with_events (EventQueue.add (DcidRetired (be_bytes 16 token)) (events w)).2 w
      | None => w
      end
  | _ => w
  end.

(** One turn of [while let Some(seq) = self.cids.next_dcid_to_retire()] on a
    path with the given destination id; [continue] changes nothing. *)
Definition retire_one (dcid_seq : option Z) (seq : Z) : action Error Writing unit :=
  match dcid_seq with
  | None => fail InternalError
  | Some d =>
      if seq =? d then mret tt
      else
        write_frame_to_packet (RetireConnectionId seq) ;;
        modify with_flags ;;
        modify (fun w => with_cids (ConnectionIdMgr.mark_dcid_to_retire seq false (cids w)) w) ;;
        modify (note_retired seq)
  end.

Definition retire_loop (dcid_seq : option Z) : nat -> Writing -> option (res unit * Writing) :=
  while_some (fun w => ConnectionIdMgr.next_dcid_to_retire (cids w)) (retire_one dcid_seq).

(** [path] is [self.paths.get(path_id)] with the path's [active] flag and
    destination id; [Path::active] needs both. *)
Definition try_write_cid_control_frame (pkt_type : PacketType) (is_closing : bool)
    (path : res (bool * option Z)) (fuel : nat) (w : Writing) : option (res unit * Writing) :=
  if negb (bool_decide (pkt_type = OneRTT)) || is_closing then Some (Ok tt, w)
  else
    match advertise_loop fuel w with
    | Some (Ok _, w) =>
        match path with
        | Ok (active, dcid_seq) =>
            if negb (active && bool_decide (is_Some dcid_seq)) then Some (Ok tt, w)
            else retire_loop dcid_seq fuel w
        | Err e => Some (Err e, w)
        | Panic => Some (Panic, w)
        end
    | r => r
    end.

End CidControl.
