(* ===== verification/CidProps.v ===== *)
(** * Properties of connection id management

    The invariant of the manager in every reachable state, what
    NEW_CONNECTION_ID does with the ids, and the loop that writes the control
    frames: when it ends, and a history after which it does not. *)

From stdpp Require Import sorting sets.
From S2P Require Import Prelude.
From S2P Require Import Error.
From S2P Require Import Codec.
From S2P Require Import Events.
From S2P Require Import ConnectionId.
From S2P Require Import Packet.
From S2P Require Import Frame.
From S2P Require Import Cid.

Import ConnectionIdMgr.
Abbreviation squeue s := (ConnectionIdDeque.queue (scids s)).
Abbreviation dqueue s := (ConnectionIdDeque.queue (dcids s)).
Abbreviation seqs q := (map seq_ q).

(** ** Histories *)

Inductive op :=
| InitialDcid (c : ConnectionId.ConnectionId) (token path : option Z)
| ScidLimit (limit : Z)
| ScidUsed (seq path : Z)
| DcidUsed (seq path : Z)
| AddScid (c : ConnectionId.ConnectionId) (token : option Z) (advertise : bool) (path : option Z) (retire : bool)
| AddDcid (c : ConnectionId.ConnectionId) (seq token prior_to : Z)
| RetireScid (seq : Z) (pkt_dcid : ConnectionId.ConnectionId)
| AdvertiseScid (seq : Z) (advertise : bool)
| RetireDcid (seq : Z) (retire : bool).

Definition forget {A} (r : res A * ConnectionIdMgr) : res unit * ConnectionIdMgr :=
  match r with
  | (Ok _, s) => (Ok tt, s)
  | (Err e, s) => (Err e, s)
  | (Panic, s) => (Panic, s)
  end.

Definition apply_op (o : op) (s : ConnectionIdMgr) : res unit * ConnectionIdMgr :=
  match o with
  | InitialDcid c t p => (Ok tt, set_initial_dcid c t p s)
  | ScidLimit n => (Ok tt, set_scid_limit n s)
  | ScidUsed n p => mark_scid_used n p s
  | DcidUsed n p => mark_dcid_used n p s
  | AddScid c t a p r => forget (add_scid c t a p r s)
  | AddDcid c n t r => forget (add_dcid c n t r s)
  | RetireScid n c => forget (retire_scid n c s)
  | AdvertiseScid n b => (Ok tt, mark_scid_to_advertise n b s)
  | RetireDcid n b => (Ok tt, mark_dcid_to_retire n b s)
  end.

(** The peer's limit, which arrives once, does not fall below the one in force. *)
Definition op_ok (o : op) (s : ConnectionIdMgr) : Prop :=
  match o with
  | ScidLimit n => scid_limit s <= Z.max (Z.min n MAX_CIDS_COUNT) 2
  | _ => True
  end.

(** States reached after a number of operations. *)
Inductive reachable : nat -> ConnectionIdMgr -> Prop :=
| reach_new limit c path token s :
    2 <= limit <= VINT_MAX -> new limit c path token = Ok s -> reachable 0 s
| reach_op n o s : reachable n s -> op_ok o s -> reachable (S n) (apply_op o s).2.

(** ** The invariant *)

Record swf (s : ConnectionIdMgr) : Prop := {
  swf_sorted : StronglySorted Z.lt (seqs (squeue s));
  swf_range : Forall (fun n => 0 <= n < next_scid_seq s) (seqs (squeue s));
  swf_size : 1 <= len (squeue s) <= ConnectionIdDeque.capacity (scids s);
  swf_capacity : 2 * scid_limit s - 1 <= ConnectionIdDeque.capacity (scids s) <= 31;
  swf_limit : 2 <= scid_limit s <= MAX_CIDS_COUNT;
  swf_active : len (active_seqs s) <= scid_limit s;
  swf_prior : 0 <= retire_prior_to s <= next_scid_seq s;
  swf_token : Forall (fun e => seq_ e <> 0 -> is_Some (reset_token e)) (squeue s);
}.

Record dwf (s : ConnectionIdMgr) : Prop := {
  dwf_seqs : NoDup (seqs (dqueue s));
  dwf_cids : NoDup (map cid (dqueue s));
  dwf_limit : 2 <= dcid_limit s <= VINT_MAX;
  dwf_capacity : ConnectionIdDeque.capacity (dcids s) = 2 * dcid_limit s - 1;
  dwf_size : len (dqueue s) <= ConnectionIdDeque.capacity (dcids s);
}.

(** ** Lists of items *)

Lemma map_set_path {B} (f : ConnectionIdItem -> B) n p q :
  (forall e x, f (with_path_id x e) = f e) -> map f (ConnectionIdDeque.set_path n p q) = map f q.
Proof.
  intros Hf. induction q as [|e q IH]; cbn; [done|]. destruct (seq_ e =? n); cbn; [by rewrite Hf|by rewrite IH].
Qed.

Lemma len_map {A B} (f : A -> B) l : len (map f l) = len l.
Proof. unfold len. by rewrite length_map. Qed.

Lemma len_set_path n p q : len (ConnectionIdDeque.set_path n p q) = len q.
Proof. rewrite <- (len_map seq_), (map_set_path seq_), len_map; done. Qed.

Lemma Forall_of_map {A B} (f : A -> B) (P : B -> Prop) l : Forall P (map f l) <-> Forall (fun a => P (f a)) l.
Proof. apply Forall_map. Qed.

Lemma take_out_spec n q :
  match ConnectionIdDeque.take_out n q with
  | Some (e, q') => seq_ e = n /\ exists l r, q = l ++ e :: r /\ q' = l ++ r
  | None => n ∉ seqs q
  end.
Proof.
  induction q as [|e q IH]; cbn; [set_solver|]. destruct (Z.eqb_spec (seq_ e) n) as [<-|Hn].
  - split; [done|]. by exists [], q.
  - destruct (ConnectionIdDeque.take_out n q) as [[x q']|].
    + destruct IH as [Hx (l & r & -> & ->)]. split; [done|]. by exists (e :: l), r.
    + set_solver.
Qed.

Lemma get_spec n d :
  match ConnectionIdDeque.get n d with
  | Some e => seq_ e = n /\ e ∈ ConnectionIdDeque.queue d
  | None => n ∉ seqs (ConnectionIdDeque.queue d)
  end.
Proof.
  unfold ConnectionIdDeque.get. induction (ConnectionIdDeque.queue d) as [|e q IH]; cbn; [set_solver|].
  destruct (Z.eqb_spec (seq_ e) n); [set_solver|].
  destruct (ConnectionIdDeque.find _ q); set_solver.
Qed.

Lemma find_none p q : ConnectionIdDeque.find p q = None <-> Forall (fun e => p e = false) q.
Proof.
  induction q as [|e q IH]; cbn; [by split|]. rewrite Forall_cons, <- IH. destruct (p e); naive_solver.
Qed.
Lemma find_some p q e : ConnectionIdDeque.find p q = Some e -> e ∈ q /\ p e = true.
Proof.
  induction q as [|x q IH]; cbn; [done|]. destruct (p x) eqn:?; intros; simplify_eq; set_solver.
Qed.

Lemma min_of_spec l :
  match min_of l with
  | Some m => m ∈ l /\ Forall (Z.le m) l
  | None => l = []
  end.
Proof.
  induction l as [|x l IH]; cbn; [done|]. destruct (min_of l) as [y|].
  - destruct IH as [Hy Hl]. split.
    + destruct (Z.min_spec x y) as [[_ ->]|[_ ->]]; set_solver.
    + constructor; [lia|]. eapply Forall_impl; [exact Hl|]. intros; lia.
  - subst. split; [set_solver|]. by repeat constructor.
Qed.

Lemma sublist_app_mid {A} (l r : list A) e : l ++ r `sublist_of` l ++ e :: r.
Proof. apply sublist_app; [done|]. by constructor. Qed.

Lemma filter_sublist {A} (p : A -> bool) l : List.filter p l `sublist_of` l.
Proof. induction l as [|x l IH]; cbn; [done|]. destruct (p x); by constructor. Qed.

Lemma Forall_sublist {A} (P : A -> Prop) l k : l `sublist_of` k -> Forall P k -> Forall P l.
Proof. induction 1; rewrite ?Forall_cons; naive_solver. Qed.

Lemma map_sublist {A B} (f : A -> B) l k : l `sublist_of` k -> map f l `sublist_of` map f k.
Proof. induction 1; cbn; by constructor. Qed.

Lemma StronglySorted_sublist {A} (R : A -> A -> Prop) l k :
  l `sublist_of` k -> StronglySorted R k -> StronglySorted R l.
Proof.
  induction 1 as [|x l k Hs IH|x l k Hs IH]; intros Hk; [done|..]; apply StronglySorted_inv in Hk as [Hk Hx].
  - constructor; [auto|]. by eapply Forall_sublist.
  - auto.
Qed.

Lemma len_sublist {A} (l k : list A) : l `sublist_of` k -> len l <= len k.
Proof. intros H%sublist_length. unfold len. lia. Qed.

Lemma filter_filter_sublist {A} (p q : A -> bool) l k :
  (forall x, p x = true -> q x = true) -> l `sublist_of` k -> List.filter p l `sublist_of` List.filter q k.
Proof.
  intros Hpq. induction 1 as [|x l k Hs IH|x l k Hs IH]; cbn; [done|..].
  - specialize (Hpq x). destruct (p x), (q x); try (by constructor); naive_solver.
  - destruct (q x); [by constructor|done].
Qed.

(** ** Source ids *)

(** Dropping ids, or retiring more of them, keeps the invariant. *)
Lemma swf_shrink s s' :
  swf s -> squeue s' `sublist_of` squeue s -> 1 <= len (squeue s') ->
  ConnectionIdDeque.capacity (scids s') = ConnectionIdDeque.capacity (scids s) ->
  scid_limit s' = scid_limit s -> next_scid_seq s' = next_scid_seq s ->
  retire_prior_to s <= retire_prior_to s' <= next_scid_seq s -> swf s'.
Proof.
  intros [] Hq Hl Hc Hs Hn Hr.
  assert (seqs (squeue s') `sublist_of` seqs (squeue s)) as Hm by (by apply map_sublist).
  split; rewrite ?Hc, ?Hs, ?Hn; try done; try lia.
  - by eapply StronglySorted_sublist.
  - by eapply Forall_sublist.
  - pose proof (len_sublist _ _ Hq). lia.
  - etrans; [|eassumption]. apply len_sublist. unfold active_seqs. apply filter_filter_sublist; [|done].
    intros x ?%Z.leb_le. apply Z.leb_le. lia.
  - by eapply Forall_sublist.
Qed.

(** The invariant reads only the fields of the source side. *)
Lemma swf_ext s s' :
  swf s -> scids s' = scids s -> scid_limit s' = scid_limit s -> next_scid_seq s' = next_scid_seq s ->
  retire_prior_to s' = retire_prior_to s -> swf s'.
Proof.
  intros Hs Hc Hl Hn Hr. pose proof Hs as []. eapply swf_shrink; [exact Hs|..]; rewrite ?Hc; try done; lia.
Qed.

Lemma active_bounds s x : x ∈ active_seqs s -> retire_prior_to s <= x /\ x ∈ seqs (squeue s).
Proof.
  unfold active_seqs. rewrite list_elem_of_In, filter_In, <- list_elem_of_In. intros [? ?%Z.leb_le]. done.
Qed.

Lemma lowest_active_spec s :
  match lowest_active_scid_seq s with
  | Ok n => n ∈ active_seqs s /\ Forall (Z.le n) (active_seqs s)
  | Err e => e = InternalError /\ active_seqs s = []
  | Panic => False
  end.
Proof. unfold lowest_active_scid_seq. pose proof (min_of_spec (active_seqs s)). by destruct (min_of _). Qed.

(** Retiring the lowest active id leaves one active id less. *)
Lemma retire_lowest s n :
  n ∈ active_seqs s -> len (active_seqs (with_retire_prior_to (n + 1) s)) < len (active_seqs s).
Proof.
  unfold active_seqs. cbn.
  assert (retire_prior_to s <= n -> forall l,
    n ∈ List.filter (fun x => retire_prior_to s <=? x) l ->
    len (List.filter (fun x => n + 1 <=? x) l) < len (List.filter (fun x => retire_prior_to s <=? x) l)) as H.
  { intros Hle l. induction l as [|x l IH]; cbn; [set_solver|].
    assert (len (List.filter (fun x => n + 1 <=? x) l) <= len (List.filter (fun x => retire_prior_to s <=? x) l)).
    { apply len_sublist, filter_filter_sublist; [|done]. intros y ?%Z.leb_le. apply Z.leb_le. lia. }
    destruct (Z.leb_spec (retire_prior_to s) x), (Z.leb_spec (n + 1) x); rewrite ?len_cons; try lia; [|auto].
    intros Hx. assert (n ∈ List.filter (fun y => retire_prior_to s <=? y) l) as Hl by set_solver by lia.
    specialize (IH Hl). lia. }
  intros Hn. apply H; [|done]. by apply active_bounds in Hn as [? _].
Qed.

Definition push_scid (e : ConnectionIdItem) (s : ConnectionIdMgr) : ConnectionIdMgr :=
  with_next_scid_seq (next_scid_seq s + 1)
    (with_scids (ConnectionIdDeque.with_queue (squeue s ++ [e]) (scids s)) s).

Lemma swf_push s e :
  swf s -> len (squeue s) < ConnectionIdDeque.capacity (scids s) -> len (active_seqs s) < scid_limit s ->
  seq_ e = next_scid_seq s -> is_Some (reset_token e) -> swf (push_scid e s).
Proof.
  intros [] Hc Ha He Ht. split; cbn; rewrite ?map_app; cbn; try done; try lia.
  - apply StronglySorted_snoc; [done|]. eapply Forall_impl; [exact swf_range0|]. cbn. lia.
  - apply Forall_app. split; [eapply Forall_impl; [exact swf_range0|]; cbn; lia|]. repeat constructor; lia.
  - rewrite len_app, len_cons, len_nil. lia.
  - unfold active_seqs in *. cbn. rewrite ?map_app, List.filter_app, len_app. cbn.
    destruct (retire_prior_to s <=? seq_ e); rewrite ?len_cons, len_nil; lia.
  - apply Forall_app. split; [done|]. by repeat constructor.
Qed.

(** What an operation on the source side leaves alone. *)
Definition same_dcids (s s' : ConnectionIdMgr) : Prop :=
  dcids s' = dcids s /\ dcid_limit s' = dcid_limit s /\ zero_length_dcid s' = zero_length_dcid s /\
  largest_peer_retire_prior_to s' = largest_peer_retire_prior_to s /\ dcids_to_retire s' = dcids_to_retire s.
Definition same_scids (s s' : ConnectionIdMgr) : Prop :=
  scids s' = scids s /\ scid_limit s' = scid_limit s /\ next_scid_seq s' = next_scid_seq s /\
  retire_prior_to s' = retire_prior_to s.

#[global] Instance same_dcids_refl : Reflexive same_dcids.
Proof. by repeat split. Qed.
#[global] Instance same_scids_refl : Reflexive same_scids.
Proof. by repeat split. Qed.

Lemma lowest_active_range s n : swf s -> lowest_active_scid_seq s = Ok n -> retire_prior_to s <= n < next_scid_seq s.
Proof.
  intros [] E. pose proof (lowest_active_spec s) as H. rewrite E in H. destruct H as [[? Hn]%active_bounds _].
  rewrite Forall_forall in swf_range0. specialize (swf_range0 n Hn). lia.
Qed.

Lemma make_room_spec r s :
  swf s -> next_scid_seq s < 2 ^ 63 ->
  let '(o, s') := make_room r s in
  swf s' /\ same_dcids s s' /\ retire_prior_to s <= retire_prior_to s' /\ scids s' = scids s /\
  next_scid_seq s' = next_scid_seq s /\
  match o with Ok _ => len (active_seqs s') < scid_limit s' | Err _ => True | Panic => False end.
Proof.
  intros Hs Hn. unfold make_room. arun. pose proof Hs as [].
  destruct (Z.leb_spec (scid_limit s) (len (squeue s))).
  - destruct r; cbn; [|by split_and!].
    pose proof (lowest_active_spec s) as Hl. destruct (lowest_active_scid_seq s) as [n|e|] eqn:E; [|by split_and!|done].
    pose proof (lowest_active_range s n Hs E) as Hr. rewrite add64_ok by lia. cbn.
    assert (swf (with_retire_prior_to (n + 1) s)) by (eapply swf_shrink; [exact Hs|..]; cbn; (done || lia)).
    split_and!; cbn; try done; [lia|]. destruct Hl as [Hl _]. pose proof (retire_lowest s n Hl). lia.
  - split_and!; try done. eapply Z.le_lt_trans; [|exact H]. unfold active_seqs.
    rewrite <- (len_map seq_ (squeue s)). apply len_sublist, filter_sublist.
Qed.

Lemma add_scid_spec c t a p r s :
  swf s -> next_scid_seq s < 2 ^ 63 ->
  let '(o, s') := add_scid c t a p r s in
  swf s' /\ same_dcids s s' /\ retire_prior_to s <= retire_prior_to s' /\
  match o with
  | Ok n => n = next_scid_seq s /\ next_scid_seq s' = n + 1
  | Err _ => next_scid_seq s' = next_scid_seq s
  | Panic => False
  end.
Proof.
  intros Hs Hn. unfold add_scid. arun. destruct (zero_length_scid s); [by split_and!|].
  pose proof (make_room_spec r s Hs Hn) as H. destruct (make_room r s) as [o s1].
  destruct H as (Hs1 & Hd & Hr & Hq & Hx & Ho). destruct o as [[]|e|]; [|done..]. rewrite Hx.
  assert (0 < next_scid_seq s) as Hpos.
  { destruct Hs. destruct (squeue s) as [|e q]; [rewrite len_nil in *; lia|].
    cbn in swf_range0. apply Forall_cons in swf_range0 as [? _]. lia. }
  destruct (Z.eqb_spec (next_scid_seq s) 0); [lia|]. destruct t as [t|]; cbn; [|done].
  unfold on_scids, zoom, ConnectionIdDeque.insert. destruct (Z.eqb_spec (len (squeue s1)) (ConnectionIdDeque.capacity (scids s1))).
  - cbn. split_and!; try done. eapply swf_ext; [exact Hs1|..]; done.
  - rewrite add64_ok by lia. cbn. pose proof Hs1 as []. split.
    + eapply (swf_ext (push_scid (mkItem c (next_scid_seq s) (Some t) p) s1)); cbn; try done; try lia.
      apply swf_push; cbn; try done; try lia.
    + split_and!; try done; lia.
Qed.

Lemma retire_scid_spec n c s :
  swf s ->
  let '(o, s') := retire_scid n c s in
  swf s' /\ same_dcids s s' /\ retire_prior_to s <= retire_prior_to s' /\ next_scid_seq s' = next_scid_seq s /\
  match o with Panic => False | _ => True end.
Proof.
  intros Hs. unfold retire_scid. arun. destruct (Z.leb_spec (next_scid_seq s) n); [by split_and!|].
  unfold on_scids, zoom, ConnectionIdDeque.remove. pose proof (take_out_spec n (squeue s)) as Ht.
  pose proof (get_spec n (scids s)) as Hg.
  assert (with_scids (scids s) s = s) as Hid by (by destruct s).
  destruct (squeue s) as [|e0 q0] eqn:Hq0; [cbn; rewrite Hid; by split_and!|]. rewrite <- Hq0 in *.
  destruct ((len (squeue s) =? 1) && _) eqn:Hone; [cbn; rewrite Hid; by split_and!|].
  destruct (ConnectionIdDeque.take_out n (squeue s)) as [[e q]|]; cbn; [|rewrite Hid; by split_and!].
  destruct Ht as [He (l & rt & Hq & ->)].
  set (s1 := with_scids _ s). assert (swf s1) as Hs1.
  { eapply (swf_shrink s); cbn; try done; [rewrite Hq; apply sublist_app_mid| |destruct Hs; lia].
    assert (is_Some (ConnectionIdDeque.get n (scids s))) as Hsome.
    { destruct (ConnectionIdDeque.get n (scids s)); [done|]. exfalso. apply Hg. rewrite Hq, map_app. set_solver. }
    rewrite bool_decide_true, andb_true_r in Hone by done. apply Z.eqb_neq in Hone.
    rewrite Hq, len_app, len_cons in Hone. rewrite len_app. pose proof (len_nonneg l). pose proof (len_nonneg rt). lia. }
  destruct (bool_decide (cid e = c)); [cbn; split_and!; (done || (cbn; lia))|].
  destruct (lowest_active_scid_seq s1) as [m|e1|] eqn:E; [|cbn; split_and!; (done || (cbn; lia))|].
  - pose proof (lowest_active_range s1 m Hs1 E) as Hr. cbn in Hr. split_and!; try done; cbn; try lia.
    eapply (swf_shrink s1); try done; [destruct Hs1; cbn in *; lia|]. cbn. lia.
  - pose proof (lowest_active_spec s1) as Hx. by rewrite E in Hx.
Qed.

Lemma mark_used_spec n p d :
  let '(o, d') := ConnectionIdDeque.mark_used n p d in
  ConnectionIdDeque.capacity d' = ConnectionIdDeque.capacity d /\
  seqs (ConnectionIdDeque.queue d') = seqs (ConnectionIdDeque.queue d) /\
  map cid (ConnectionIdDeque.queue d') = map cid (ConnectionIdDeque.queue d) /\
  map reset_token (ConnectionIdDeque.queue d') = map reset_token (ConnectionIdDeque.queue d) /\
  match o with Panic => False | _ => True end.
Proof.
  unfold ConnectionIdDeque.mark_used. destruct (ConnectionIdDeque.get n d); cbn; [|done].
  split_and!; try done; by apply map_set_path.
Qed.

Lemma swf_mark n p s : swf s -> swf (with_scids (ConnectionIdDeque.mark_used n p (scids s)).2 s).
Proof.
  intros []. pose proof (mark_used_spec n p (scids s)) as H.
  destruct (ConnectionIdDeque.mark_used n p (scids s)) as [o d]. destruct H as (Hc & Hs & _ & Ht & _).
  assert (len (ConnectionIdDeque.queue d) = len (squeue s)) as Hl by (by rewrite <- (len_map seq_), Hs, len_map).
  split; cbn; unfold active_seqs in *; cbn; rewrite ?Hs, ?Hc, ?Hl; try done.
  clear - swf_token0 Hs Ht. revert swf_token0 Hs Ht. generalize (squeue s) as k. generalize (ConnectionIdDeque.queue d) as l.
  induction l as [|x l IH]; intros [|y k] Hk Hs Ht; try done. cbn in *. apply Forall_cons in Hk as [Hy Hk].
  constructor; [|apply (IH k); congruence]. assert (seq_ x = seq_ y /\ reset_token x = reset_token y) as [-> ->]; [|done].
  split; congruence.
Qed.

Lemma dwf_mark n p s : dwf s -> dwf (with_dcids (ConnectionIdDeque.mark_used n p (dcids s)).2 s).
Proof.
  intros []. pose proof (mark_used_spec n p (dcids s)) as H.
  destruct (ConnectionIdDeque.mark_used n p (dcids s)) as [o d]. destruct H as (Hc & Hs & Hi & _).
  assert (len (ConnectionIdDeque.queue d) = len (dqueue s)) as Hl by (by rewrite <- (len_map seq_), Hs, len_map).
  split; cbn; rewrite ?Hs, ?Hi, ?Hc, ?Hl; done.
Qed.

(** ** Destination ids *)

Lemma filter_perm {A} (p : A -> bool) l :
  List.filter (fun x => negb (p x)) l ++ List.filter p l ≡ₚ l.
Proof.
  induction l as [|x l IH]; cbn; [done|]. destruct (p x); cbn; [|by f_equiv].
  rewrite <- Permutation_middle. by f_equiv.
Qed.

Definition kept (r : Z) (s : ConnectionIdMgr) : list ConnectionIdItem :=
  List.filter (fun e => negb (seq_ e <? r)) (dqueue s).

Lemma dwf_shrink s s' :
  dwf s -> dqueue s' `sublist_of` dqueue s ->
  ConnectionIdDeque.capacity (dcids s') = ConnectionIdDeque.capacity (dcids s) ->
  dcid_limit s' = dcid_limit s -> dwf s'.
Proof.
  intros [] Hq Hc Hl. split; rewrite ?Hc, ?Hl; try done.
  - by eapply sublist_NoDup; [|apply map_sublist].
  - by eapply sublist_NoDup; [|apply map_sublist].
  - pose proof (len_sublist _ _ Hq). lia.
Qed.

Lemma dwf_push s e :
  dwf s -> seq_ e ∉ seqs (dqueue s) -> cid e ∉ map cid (dqueue s) ->
  len (dqueue s) <> ConnectionIdDeque.capacity (dcids s) ->
  dwf (with_dcids (ConnectionIdDeque.with_queue (dqueue s ++ [e]) (dcids s)) s).
Proof.
  intros [] Hs Hc Hl. split; cbn; rewrite ?map_app; try done; try lia.
  - apply NoDup_app. split_and!; [done|set_solver|apply NoDup_singleton].
  - apply NoDup_app. split_and!; [done|set_solver|apply NoDup_singleton].
  - rewrite len_app, len_cons, len_nil. lia.
Qed.

Lemma mul4_ok s : dwf s -> mul64 (E := Error) (dcid_limit s) 4 = Ok (4 * dcid_limit s).
Proof.
  intros []. unfold VINT_MAX, mul64 in *. rewrite Z.mul_comm. destruct (Z.ltb_spec (4 * dcid_limit s) 18446744073709551616); [done|lia].
Qed.

(** The id is new: neither it nor its number is known. *)
Definition fresh (c : ConnectionId.ConnectionId) (n : Z) (s : ConnectionIdMgr) : Prop :=
  (n ∉ seqs (dqueue s)) /\ (c ∉ map cid (dqueue s)).

Lemma find_fresh c n s :
  ConnectionIdDeque.find (fun e => bool_decide (cid e = c) || (seq_ e =? n)) (dqueue s) = None <-> fresh c n s.
Proof.
  rewrite find_none. unfold fresh. rewrite Forall_forall, !list_elem_of_fmap. split.
  - intros H. split; intros (e & -> & He); specialize (H e He); apply orb_false_iff in H as [H1 H2].
    + by rewrite Z.eqb_refl in H2.
    + by apply bool_decide_eq_false in H1.
  - intros [H1 H2] e He. apply orb_false_iff. split; [apply bool_decide_eq_false|apply Z.eqb_neq]; naive_solver.
Qed.

(** The effect of a NEW_CONNECTION_ID frame that raises the peer's bound. *)
Definition retire_lower (r : Z) (s : ConnectionIdMgr) : ConnectionIdMgr :=
  with_largest_peer_retire_prior_to r
    (with_dcids (ConnectionIdDeque.remove_lower r (dcids s))
      (with_dcids_to_retire (dcids_to_retire s ++ seqs (ConnectionIdDeque.lower r (dqueue s))) s)).

Lemma dwf_retire_lower r s : dwf s -> dwf (retire_lower r s).
Proof. intros H. eapply dwf_shrink; [exact H|..]; cbn; [apply filter_sublist|done..]. Qed.

Lemma retired_paths_spec q m p :
  (m, p) ∈ retired_paths q <-> exists e, e ∈ q /\ seq_ e = m /\ path_id e = Some p.
Proof.
  unfold retired_paths. rewrite list_elem_of_omap. split.
  - intros (e & He & H). destruct (path_id e) eqn:?; naive_solver.
  - intros (e & He & <- & H). exists e. by rewrite H.
Qed.

(** A new id at or above the peer's bound, or whose retirement is already queued. *)
Lemma add_dcid_store c n t r s :
  zero_length_dcid s = false -> fresh c n s -> r <= n ->
  ~ (n < largest_peer_retire_prior_to s /\ n ∉ dcids_to_retire s) ->
  dwf s ->
  let raise := largest_peer_retire_prior_to s <? r in
  let s1 := if raise then retire_lower r s else s in
  let retired := if raise then retired_paths (ConnectionIdDeque.lower r (dqueue s)) else [] in
  add_dcid c n t r s =
    if raise && (4 * dcid_limit s <? len (dcids_to_retire s1)) then (Err ProtocolViolation, s1)
    else if len (dqueue s1) =? ConnectionIdDeque.capacity (dcids s1) then (Err ConnectionIdLimitError, s1)
    else (Ok retired,
          with_dcids (ConnectionIdDeque.with_queue (dqueue s1 ++ [mkItem c n (Some t) None]) (dcids s1)) s1).
Proof.
  intros Hz Hf Hr Hq Hs. unfold add_dcid. unfold mbind at 1, action_bind at 1, get. rewrite Hz.
  rewrite (proj2 (find_fresh c n s) Hf). destruct (Z.ltb_spec n r); [lia|].
  assert ((n <? largest_peer_retire_prior_to s) && negb (bool_decide (n ∈ dcids_to_retire s)) = false) as ->.
  { apply andb_false_iff. destruct (Z.ltb_spec n (largest_peer_retire_prior_to s)); [|by left]. right.
    destruct (decide (n ∈ dcids_to_retire s)); [by rewrite bool_decide_true|]. exfalso. auto. }
  cbn zeta. destruct (largest_peer_retire_prior_to s <? r); cbn [andb].
  - arun. fold (retire_lower r s). unfold check_dcids_to_retire. rewrite (mul4_ok (retire_lower r s)) by (by apply dwf_retire_lower).
    unfold mbind, outcome_bind. cbn [dcid_limit retire_lower].
    destruct (_ <? _); [done|]. cbn. unfold on_dcids, zoom, ConnectionIdDeque.insert. cbn.
    destruct (_ =? _); done.
  - arun. unfold on_dcids, zoom, ConnectionIdDeque.insert.
    destruct (_ =? _); [|done]. cbn. by destruct s.
Qed.

Lemma retire_lower_perm r s :
  seqs (dqueue (retire_lower r s)) ++ dcids_to_retire (retire_lower r s) ≡ₚ seqs (dqueue s) ++ dcids_to_retire s.
Proof.
  cbn. rewrite (Permutation_app_comm (dcids_to_retire s)), app_assoc, <- map_app. f_equiv. apply Permutation_map, filter_perm.
Qed.

Lemma elem_of_filter_bool {A} (p : A -> bool) l x : x ∈ List.filter p l <-> x ∈ l /\ p x = true.
Proof. by rewrite list_elem_of_In, filter_In, <- list_elem_of_In. Qed.

(** The ids in use among the retired ones are those in use that are gone. *)
Lemma retired_lower_spec r q x m p :
  path_id x = None ->
  (m, p) ∈ retired_paths (ConnectionIdDeque.lower r q) <->
  exists e, e ∈ q /\ (e ∉ List.filter (fun e => negb (seq_ e <? r)) q ++ [x]) /\ seq_ e = m /\ path_id e = Some p.
Proof.
  intros Hx. rewrite retired_paths_spec. f_equiv. intros e. unfold ConnectionIdDeque.lower.
  rewrite elem_of_app, !elem_of_filter_bool, list_elem_of_singleton. split.
  - intros ([He Hlt] & Hm & Hp). split_and!; try done. rewrite Hlt. intros [[_ ?]| ->]; [done|congruence].
  - intros (He & Hn & Hm & Hp). split_and!; try done. destruct (seq_ e <? r); naive_solver.
Qed.

Lemma push_perm (l k : list Z) n : (l ++ [n]) ++ k ≡ₚ n :: l ++ k.
Proof. rewrite <- app_assoc. apply symmetry, Permutation_middle. Qed.

(** A late id: below the peer's bound and not yet queued for retirement. *)
Lemma add_dcid_late c n t r s :
  zero_length_dcid s = false -> fresh c n s -> r <= n ->
  n < largest_peer_retire_prior_to s -> n ∉ dcids_to_retire s -> dwf s ->
  let s1 := with_dcids_to_retire (dcids_to_retire s ++ [n]) s in
  add_dcid c n t r s =
    ((if 4 * dcid_limit s <? len (dcids_to_retire s1) then Err ProtocolViolation else Ok []), s1).
Proof.
  intros Hz Hf Hr Hl Hq Hs. unfold add_dcid. unfold mbind at 1, action_bind at 1, get. rewrite Hz.
  rewrite (proj2 (find_fresh c n s) Hf). destruct (Z.ltb_spec n r); [lia|].
  destruct (Z.ltb_spec n (largest_peer_retire_prior_to s)); [|lia]. rewrite bool_decide_false by done. cbn [andb negb].
  arun. unfold check_dcids_to_retire. rewrite (mul4_ok (with_dcids_to_retire (dcids_to_retire s ++ [n]) s)).
  - unfold mbind, outcome_bind. cbn. destruct (_ <? _); done.
  - eapply dwf_shrink; [exact Hs|..]; done.
Qed.

(** A frame that repeats or contradicts a known id, or that is malformed. *)
Definition conflicts (c : ConnectionId.ConnectionId) (n t : Z) (s : ConnectionIdMgr) : Prop :=
  exists e, e ∈ dqueue s /\ (cid e = c \/ seq_ e = n) /\ ~ (cid e = c /\ seq_ e = n /\ reset_token e = Some t).

Lemma add_dcid_known c n t r s :
  zero_length_dcid s = false -> ~ (fresh c n s /\ r <= n) ->
  let '(o, s') := add_dcid c n t r s in
  s' = s /\
  match o with
  | Ok retired => retired = [] /\ exists e, e ∈ dqueue s /\ cid e = c /\ seq_ e = n /\ reset_token e = Some t
  | Err e => e = ProtocolViolation /\ (conflicts c n t s \/ n < r)
  | Panic => False
  end.
Proof.
  intros Hz Hf. unfold add_dcid. arun. rewrite Hz.
  destruct (ConnectionIdDeque.find _ (dqueue s)) as [e|] eqn:E.
  - apply find_some in E as [He Hp]. assert (cid e = c \/ seq_ e = n) as Hor.
    { apply orb_true_iff in Hp as [?%bool_decide_eq_true|?%Z.eqb_eq]; auto. }
    destruct (Z.eqb_spec (seq_ e) n); repeat case_bool_decide; cbn.
    all: split; [done|]; split; [done|]; first [by exists e | left; exists e; naive_solver].
  - apply find_fresh in E. destruct (Z.ltb_spec n r); cbn; [naive_solver|]. exfalso. apply Hf. split; [done|lia].
Qed.



(** ** The invariant is preserved *)

Lemma add_dcid_keeps c n t r s :
  dwf s ->
  let '(o, s') := add_dcid c n t r s in
  dwf s' /\ same_scids s s' /\ largest_peer_retire_prior_to s <= largest_peer_retire_prior_to s' /\
  match o with Panic => False | _ => True end.
Proof.
  intros Hs. destruct (zero_length_dcid s) eqn:Hz.
  { unfold add_dcid. arun. rewrite Hz. by split_and!. }
  pose proof (add_dcid_known c n t r s Hz) as Hk.
  destruct (decide (r <= n)) as [Hr|Hr]; cycle 1.
  { destruct (add_dcid c n t r s) as [[]]; destruct Hk as [-> ?]; naive_solver lia. }
  destruct (ConnectionIdDeque.find (fun e => bool_decide (cid e = c) || (seq_ e =? n)) (dqueue s)) as [x|] eqn:E.
  { assert (~ fresh c n s) by (intros Hf%find_fresh; congruence).
    destruct (add_dcid c n t r s) as [[]]; destruct Hk as [-> ?]; naive_solver lia. }
  apply find_fresh in E as Hf. clear Hk E.
  destruct (decide (n < largest_peer_retire_prior_to s /\ n ∉ dcids_to_retire s)) as [[Hl Hq]|Hq].
  - rewrite add_dcid_late by done. split_and!; [eapply dwf_shrink; [exact Hs|..]; done|done|done|by destruct (_ <? _)].
  - rewrite add_dcid_store by done. set (s1 := if _ <? r then _ else s).
    assert (dwf s1 /\ same_scids s s1 /\ largest_peer_retire_prior_to s <= largest_peer_retire_prior_to s1 /\
      dqueue s1 `sublist_of` dqueue s) as (H1 & H2 & H3 & H4).
    { unfold s1. destruct (Z.ltb_spec (largest_peer_retire_prior_to s) r); [|done].
      split_and!; [by apply dwf_retire_lower|done|cbn; lia|apply filter_sublist]. }
    destruct (_ && _); [done|]. destruct (Z.eqb_spec (len (dqueue s1)) (ConnectionIdDeque.capacity (dcids s1))); [done|].
    split_and!; try done. apply dwf_push; cbn; try done; intros Hin.
    + apply (proj1 Hf). eapply elem_of_sublist; [exact Hin|]. by apply map_sublist.
    + apply (proj2 Hf). eapply elem_of_sublist; [exact Hin|]. by apply map_sublist.
Qed.

Lemma swf_enlarge n s :
  swf s -> scid_limit s <= Z.max (Z.min n MAX_CIDS_COUNT) 2 -> swf (set_scid_limit n s).
Proof.
  intros [] Hl. unfold set_scid_limit, ConnectionIdDeque.enlarge, MAX_CIDS_COUNT in *. cbn.
  destruct (Z.ltb_spec (ConnectionIdDeque.capacity (scids s)) (2 * Z.max (Z.min n 16) 2 - 1));
    split; cbn; unfold MAX_CIDS_COUNT; try done; try lia; unfold active_seqs in *; cbn; lia.
Qed.

Lemma new_wf limit c path token s :
  2 <= limit <= VINT_MAX -> new limit c path token = Ok s -> swf s /\ dwf s /\ next_scid_seq s = 1.
Proof.
  intros Hl. unfold new, mul64. assert (limit * 2 < 18446744073709551616) by (unfold VINT_MAX in *; lia).
  destruct (Z.ltb_spec (limit * 2) 18446744073709551616); [|lia]. cbn [mbind outcome_bind]. rewrite sub64_ok by lia.
  cbn. intros [= <-]. split_and!; [..|done].
  - split; cbn; unfold MAX_CIDS_COUNT; try done; try lia; repeat constructor; done.
  - split; cbn; try done; try lia; [apply NoDup_nil_2..|unfold len; cbn; lia].
Qed.

(** How one operation moves the manager. *)
Definition step_ok (s s' : ConnectionIdMgr) : Prop :=
  retire_prior_to s <= retire_prior_to s' /\ next_scid_seq s <= next_scid_seq s' <= next_scid_seq s + 1 /\
  largest_peer_retire_prior_to s <= largest_peer_retire_prior_to s'.

Lemma apply_op_keeps o s :
  swf s -> dwf s -> next_scid_seq s < 2 ^ 63 -> op_ok o s ->
  swf (apply_op o s).2 /\ dwf (apply_op o s).2 /\ step_ok s (apply_op o s).2 /\ no_panic (apply_op o s).1.
Proof.
  intros Hs Hd Hn Ho.
  assert (forall s', same_dcids s s' -> dwf s') as Hsame.
  { intros s' (E & El & _). eapply dwf_shrink; [exact Hd|..]; by rewrite ?E. }
  assert (step_ok s s) as Hrefl by (unfold step_ok; lia).
  destruct o as [c t p|n|n p|n p|c t a p r|c n t r|n c|n b|n b]; cbn.
  - split_and!; try done; [by eapply swf_ext|]. pose proof Hd as []. unfold set_initial_dcid, ConnectionIdDeque.insert. cbn.
    destruct (Z.eqb_spec (len (@nil ConnectionIdItem)) (ConnectionIdDeque.capacity (dcids s))); [rewrite len_nil in *; lia|].
    split; cbn; try done; [apply NoDup_singleton..|rewrite len_cons, len_nil; lia].
  - split_and!; try done; [by apply swf_enlarge|by apply Hsame].
  - unfold mark_scid_used, on_scids, zoom. pose proof (mark_used_spec n p (scids s)) as H. pose proof (swf_mark n p s Hs) as Hw.
    destruct (ConnectionIdDeque.mark_used n p (scids s)) as [o d]. destruct H as (_ & _ & _ & _ & H).
    split_and!; try done; [by apply Hsame|by destruct o].
  - unfold mark_dcid_used, on_dcids, zoom. pose proof (mark_used_spec n p (dcids s)) as H. pose proof (dwf_mark n p s Hd) as Hw.
    destruct (ConnectionIdDeque.mark_used n p (dcids s)) as [o d]. destruct H as (_ & _ & _ & _ & H).
    split_and!; try done; [by eapply swf_ext|by destruct o].
  - pose proof (add_scid_spec c t a p r s Hs Hn) as H. destruct (add_scid c t a p r s) as [[]]; [..|tauto];
      destruct H as (? & Hx & ? & ?); cbn; (split_and!; [done|by apply Hsame| |done]); unfold step_ok;
      destruct Hx as (_ & _ & _ & -> & _); lia.
  - pose proof (add_dcid_keeps c n t r s Hd) as H. destruct (add_dcid c n t r s) as [[]]; [..|tauto];
      destruct H as (? & (E1 & E2 & E3 & E4) & ? & _); cbn; (split_and!; [by eapply swf_ext|done| |done]); unfold step_ok; lia.
  - pose proof (retire_scid_spec n c s Hs) as H. destruct (retire_scid n c s) as [[]]; [..|tauto];
      destruct H as (? & Hx & ? & ? & _); cbn; (split_and!; [done|by apply Hsame| |done]); unfold step_ok;
      destruct Hx as (_ & _ & _ & -> & _); lia.
  - split_and!; try done; [by eapply swf_ext|by apply Hsame].
  - split_and!; try done; [by eapply swf_ext|eapply dwf_shrink; [exact Hd|..]; done].
Qed.

Lemma reachable_wf n s :
  reachable n s -> Z.of_nat n < 2 ^ 62 -> swf s /\ dwf s /\ next_scid_seq s <= Z.of_nat n + 1.
Proof.
  induction 1 as [limit c path token s Hl Hnew|n o s Hr IH Ho]; intros Hn.
  - destruct (new_wf _ _ _ _ _ Hl Hnew) as (? & ? & ?). split_and!; [done|done|lia].
  - destruct IH as (Hs & Hd & Hx); [lia|]. destruct (apply_op_keeps o s Hs Hd ltac:(lia) Ho) as (? & ? & Hst & _).
    split_and!; try done. unfold step_ok in Hst. lia.
Qed.


Definition run (ops : list op) (s : ConnectionIdMgr) : ConnectionIdMgr :=
  fold_left (fun s o => (apply_op o s).2) ops s.

Lemma run_app a b s : run (a ++ b) s = run b (run a s).
Proof. apply fold_left_app. Qed.

(** Operations other than a change of the limit. *)
Definition no_limit (o : op) : bool := match o with ScidLimit _ => false | _ => true end.

Lemma reachable_run ops : forall n s, reachable n s -> forallb no_limit ops = true ->
  exists m, reachable m (run ops s).
Proof.
  induction ops as [|o ops IH]; intros n s Hs Ho; cbn in *; [eauto|].
  apply andb_true_iff in Ho as [Ho Hops]. apply (IH (S n)); [|done]. constructor; [done|]. by destruct o.
Qed.

Definition cid_of (n : Z) : ConnectionId.ConnectionId := ConnectionId.new [n; n; n; n].

Definition start : ConnectionIdMgr :=
  match new 2 (cid_of 100) 0 None with Ok s => s | _ => mkMgr (ConnectionIdDeque.new 0) (ConnectionIdDeque.new 0) 0 0 false false 0 0 [] 0 [] end.

Lemma reachable_start : reachable 0 start.
Proof. eapply (reach_new 2 (cid_of 100) 0 None); [unfold VINT_MAX; lia|done]. Qed.


(** A NEW_CONNECTION_ID frame is written with the current "retire prior to", also
    when it is sent again after a loss for an id that was retired meanwhile.  In
    this history the frame for id 1 carries the bound 2; a peer that does not
    know the id refuses it and closes the connection. *)
Theorem readvertised_id_refused :
  let ops := [AddScid (cid_of 101) (Some 1) true None true; AdvertiseScid 1 false;
              AddScid (cid_of 102) (Some 2) true None true; AdvertiseScid 2 false;
              AddScid (cid_of 103) (Some 3) true None true; AdvertiseScid 1 true] in
  let s := run ops start in
  (exists n, reachable n s) /\ next_scid_to_advertise s = Some 1 /\
  create_new_connection_id_frame 1 s = Ok (NewConnectionId 1 2 (cid_of 101) (be_bytes 16 1)) /\
  (add_dcid (cid_of 101) 1 1 2 (run [InitialDcid (cid_of 100) None (Some 0)] start)).1 = Err ProtocolViolation.
Proof. cbn zeta. split_and!; [by apply (reachable_run _ 0 start reachable_start)|by vm_compute..]. Qed.

(** ** Writing the control frames *)

Import CidControl.

(** A loop whose successful turns keep [P] and lower a measure ends, and a normal
    end satisfies [P] with nothing left. *)
Lemma while_some_ends next turn (m : Writing -> nat) (P : Writing -> Prop) :
  (forall w n w', P w -> next w = Some n -> turn n w = (Ok tt, w') -> P w' /\ (m w' < m w)%nat) ->
  forall fuel w, P w -> (m w < fuel)%nat ->
  exists o w', while_some next turn fuel w = Some (o, w') /\ (o = Ok tt -> P w' /\ next w' = None).
Proof.
  intros Hturn. induction fuel as [|fuel IH]; intros w Hw Hm; [lia|]. cbn.
  destruct (next w) as [n|] eqn:Hn; [|by exists (Ok tt), w].
  destruct (turn n w) as [[[]|e|] w'] eqn:Ht; [|by eexists _, _..].
  destruct (Hturn w n w' Hw Hn Ht) as [Hw' Hlt]. apply IH; [done|lia].
Qed.

Lemma write_frame_ok f w w' : write_frame_to_packet f w = (Ok tt, w') ->
  frames w' = frames w ++ [f] /\ cids w' = cids w /\ events w' = events w.
Proof.
  unfold write_frame_to_packet. destruct (wire_len f) as [n| |]; [|done..]. destruct (_ <? _); [done|].
  destruct (to_bytes f _) as [[k bs]| |]; [|done..]. by intros [= <-].
Qed.

Lemma advertise_one_ok n w w' : advertise_one n w = (Ok tt, w') ->
  exists f, create_new_connection_id_frame n (cids w) = Ok f /\ frames w' = frames w ++ [f] /\
    cids w' = mark_scid_to_advertise n false (cids w).
Proof.
  unfold advertise_one. arun. destruct (create_new_connection_id_frame n (cids w)) as [f| |]; [|done..].
  destruct (write_frame_to_packet f w) as [[[]| |] w1] eqn:Hw; [|done..]. intros [= <-].
  apply write_frame_ok in Hw as (Hf & Hc & _). exists f. cbn. by rewrite Hf, Hc.
Qed.

Lemma retire_one_ok d n w w' : n <> d -> retire_one (Some d) n w = (Ok tt, w') ->
  frames w' = frames w ++ [RetireConnectionId n] /\ cids w' = mark_dcid_to_retire n false (cids w).
Proof.
  intros Hn. unfold retire_one. destruct (Z.eqb_spec n d); [done|]. arun.
  destruct (write_frame_to_packet _ w) as [[[]| |] w1] eqn:Hw; [|done..]. intros [= <-].
  apply write_frame_ok in Hw as (Hf & Hc & _). cbn. unfold note_retired. rewrite <- Hf, <- Hc.
  destruct (get_dcid _ _) as [e| |]; [|done..]. by destruct (reset_token e).
Qed.

(** Removing a member shortens a list. *)
Lemma filter_shorter (n : Z) l : head l = Some n ->
  (length (List.filter (fun x => negb (x =? n)%Z) l) < length l)%nat.
Proof.
  destruct l as [|x l]; [done|]. intros [= ->]. cbn [List.filter]. rewrite Z.eqb_refl. cbn.
  pose proof (sublist_length _ _ (filter_sublist (fun x => negb (x =? n)%Z) l)). lia.
Qed.

(** The frames written so far account for the numbers that left the queue. *)
Record drained (queue : Writing -> list Z) (frame_of : Z -> res Frame) (w0 w : Writing) : Prop := {
  dr_new : exists new, frames w = frames w0 ++ new /\
    forall f, f ∈ new <-> exists n, n ∈ queue w0 /\ (n ∉ queue w) /\ frame_of n = Ok f;
  dr_sub : forall n, n ∈ queue w -> n ∈ queue w0;
}.

Lemma drained_step queue frame_of w0 w w' n f :
  drained queue frame_of w0 w -> n ∈ queue w -> frame_of n = Ok f ->
  frames w' = frames w ++ [f] -> queue w' = List.filter (fun x => negb (x =? n)) (queue w) ->
  drained queue frame_of w0 w'.
Proof.
  intros [(new & Hf & Hnew) Hsub] Hn Hfn Hf' Hq.
  assert (forall m, m ∈ queue w' <-> m ∈ queue w /\ m <> n) as Hm.
  { intros m. rewrite Hq, elem_of_filter_bool, negb_true_iff, Z.eqb_neq. done. }
  split; [|intros m [? _]%Hm; auto]. exists (new ++ [f]). split; [by rewrite Hf', Hf, app_assoc|].
  intros g. rewrite elem_of_app, list_elem_of_singleton, Hnew. split.
  - intros [(m & Hm0 & Hmw & Hg)| ->]; [exists m|exists n]; (split_and!; [by auto| |done]); rewrite Hm; naive_solver.
  - intros (m & Hm0 & Hmw & Hg). destruct (decide (m = n)) as [-> |Hne]; [right; congruence|]. left. exists m.
    split_and!; try done. rewrite Hm in Hmw. naive_solver.
Qed.

Lemma drained_refl queue frame_of w : drained queue frame_of w w.
Proof. split; [|done]. exists []. rewrite app_nil_r. split; [done|]. intros f. split; [set_solver|naive_solver]. Qed.

Abbreviation adv_queue w := (scids_to_advertise (cids w)).
Abbreviation ret_queue w := (dcids_to_retire (cids w)).

Lemma advertise_loop_ends w0 fuel : (length (adv_queue w0) < fuel)%nat ->
  exists o w, advertise_loop fuel w0 = Some (o, w) /\
    (o = Ok tt -> adv_queue w = [] /\ ret_queue w = ret_queue w0 /\
       drained (fun w => adv_queue w) (fun n => create_new_connection_id_frame n (cids w0)) w0 w).
Proof.
  intros Hfuel.
  set (P := fun w => ret_queue w = ret_queue w0 /\
    (forall n, create_new_connection_id_frame n (cids w) = create_new_connection_id_frame n (cids w0)) /\
    drained (fun w => adv_queue w) (fun n => create_new_connection_id_frame n (cids w0)) w0 w).
  destruct (while_some_ends (fun w => next_scid_to_advertise (cids w)) advertise_one
    (fun w => length (adv_queue w)) P) with (fuel := fuel) (w := w0) as (o & w & Hrun & Ho); [| |done|].
  - intros w n w' (Hr & Hc & Hd) Hn (f & Hf & Hfr & Hcid)%advertise_one_ok. unfold next_scid_to_advertise in Hn.
    rewrite Hcid. split; [|cbn; by apply filter_shorter]. split; [by rewrite Hcid|]. split; [by rewrite Hcid|].
    eapply (drained_step _ _ _ w); [exact Hd|cbn; by apply head_Some_elem_of|by rewrite <- Hc|done|by rewrite Hcid].
  - split; [done|]. split; [done|]. apply drained_refl.
  - exists o, w. split; [exact Hrun|]. intros Hok. destruct (Ho Hok) as [(Hr & _ & Hd) Hn]. split_and!; try done.
    unfold next_scid_to_advertise in Hn. by destruct (scids_to_advertise (cids w)).
Qed.

Lemma retire_loop_ends w0 d fuel : (length (ret_queue w0) < fuel)%nat -> d ∉ ret_queue w0 ->
  exists o w, retire_loop (Some d) fuel w0 = Some (o, w) /\
    (o = Ok tt -> ret_queue w = [] /\ adv_queue w = adv_queue w0 /\
       drained (fun w => ret_queue w) (fun n => Ok (RetireConnectionId n)) w0 w).
Proof.
  intros Hfuel Hd.
  set (P := fun w => adv_queue w = adv_queue w0 /\
    drained (fun w => ret_queue w) (fun n => Ok (RetireConnectionId n)) w0 w).
  destruct (while_some_ends (fun w => next_dcid_to_retire (cids w)) (retire_one (Some d))
    (fun w => length (ret_queue w)) P) with (fuel := fuel) (w := w0) as (o & w & Hrun & Ho); [| |done|].
  - intros w n w' (Hr & Hdr) Hn Hone. unfold next_dcid_to_retire in Hn.
    assert (n ∈ ret_queue w) as Hin by (by apply head_Some_elem_of).
    apply retire_one_ok in Hone as (Hfr & Hcid); [|intros ->; by apply Hd, (dr_sub _ _ _ _ Hdr)].
    rewrite Hcid. split; [|cbn; by apply filter_shorter]. split; [by rewrite Hcid|].
    by eapply (drained_step _ _ _ w); [exact Hdr|cbn..|rewrite Hcid].
  - split; [done|]. apply drained_refl.
  - exists o, w. split; [exact Hrun|]. intros Hok. destruct (Ho Hok) as [(Hr & Hdr) Hn]. split_and!; try done.
    unfold next_dcid_to_retire in Hn. by destruct (dcids_to_retire (cids w)).
Qed.


Definition sample_writing : Writing :=
  mkWriting (run [AddScid (cid_of 101) (Some 1) true None true; RetireDcid 5 true] start) (repeat 0 100) 0 [] false false None.


