(* ===== verification/Http3.v ===== *)
(** * HTTP/3 errors and headers

    Models [src/src/h3/error.rs] and the header types of [src/src/h3/h3.rs].
    HTTP/3 code works with the transport's codec; the [?] operator turns the
    codec's errors into HTTP/3 ones, which [h3] does to a result. *)

From S2P Require Import Prelude.
From S2P Require Import Error.

Inductive Http3Error :=
| H3NoError | GeneralProtocolError | H3InternalError | StreamCreationError | ClosedCriticalStream
| FrameUnexpected | FrameError | ExcessiveLoad | IdError | SettingsError | MissingSettings
| RequestRejected | RequestCancelled | RequestIncomplete | MessageError | ConnectError
| VersionFallback | QpackDecompressionFailed | QpackEncoderStreamError | QpackDecoderStreamError
| TransportError (e : Error) | StreamBlocked | H3Done.

Definition to_wire (e : Http3Error) : Z :=
  match e with
  | H3NoError => 0x100 | GeneralProtocolError => 0x101 | H3InternalError => 0x102
  | StreamCreationError => 0x103 | ClosedCriticalStream => 0x104 | FrameUnexpected => 0x105
  | FrameError => 0x106 | ExcessiveLoad => 0x107 | IdError => 0x108 | SettingsError => 0x109
  | MissingSettings => 0x10A | RequestRejected => 0x10B | RequestCancelled => 0x10C
  | RequestIncomplete => 0x10D | MessageError => 0x10E | ConnectError => 0x10F
  | VersionFallback => 0x110 | QpackDecompressionFailed => 0x200 | QpackEncoderStreamError => 0x201
  | QpackDecoderStreamError => 0x202 | TransportError _ => 0x102 | StreamBlocked => 0x102 | H3Done => 0x102
  end.

Definition to_errno (e : Http3Error) : Z :=
  match e with
  | H3NoError => 0 | H3Done => -1 | GeneralProtocolError => -2 | H3InternalError => -3
  | StreamCreationError => -4 | ClosedCriticalStream => -5 | FrameUnexpected => -6 | FrameError => -7
  | ExcessiveLoad => -8 | IdError => -9 | SettingsError => -10 | MissingSettings => -11
  | StreamBlocked => -13 | RequestRejected => -14 | RequestCancelled => -15 | RequestIncomplete => -16
  | MessageError => -17 | ConnectError => -18 | VersionFallback => -19 | QpackDecompressionFailed => -20
  | QpackEncoderStreamError => -21 | QpackDecoderStreamError => -22
  | TransportError q => Error.to_errno q - 1000
  end.

(** [From<Error> for Http3Error] *)
Definition from_error (e : Error) : Http3Error :=
  match e with
  | Done => H3Done
  | _ => TransportError e
  end.

Abbreviation res3 := (outcome Http3Error).

Definition h3 {A} (r : res A) : res3 A :=
  match r with
  | Ok a => Ok a
  | Err e => Err (from_error e)
  | Panic => Panic
  end.

(** A header: name and value. *)
Definition Header : Type := (list Z * list Z)%type.
