(* ===== verification/PrefixInt.v ===== *)
(** * QPACK integers

    Models [src/src/h3/qpack/prefix_int.rs]: integers whose first bits share an
    octet with flags.  The writer's loop shifts a [u64] by seven bits a turn, so
    ten turns are enough for it. *)

From S2P Require Import Prelude.
From S2P Require Import Error.
From S2P Require Import Codec.
From S2P Require Import Wire.
From S2P Require Import Http3.

Definition prefix_mask (n : Z) : Z := 2 ^ n - 1.

Fixpoint encode_rest (fuel : nat) (i : Z) : enc unit :=
  match fuel with
  | O => cpanic
  | S fuel =>
      if 128 <=? i then
        write_u8 (wrap 8 (i mod 128 + 128)) ;; encode_rest fuel (Z.shiftr i 7)
      else write_u8 (wrap 8 i) ;; mret tt
  end.

Definition encode_int (i first n : Z) : enc unit :=
  let mask := prefix_mask n in
  if i <? mask then write_u8 (Z.lor first (wrap 8 i)) ;; mret tt
  else
    write_u8 (Z.lor first (wrap 8 mask)) ;;
    encode_rest 10 (i - mask).

(** [u64::checked_shl] fails for a shift of 64 or more and drops the high bits. *)
Definition checked_shl (x shift : Z) : option Z :=
  if shift <? 64 then Some (wrap 64 (Z.shiftl x shift)) else None.
Definition checked_add (x y : Z) : option Z :=
  if x + y <? 18446744073709551616 then Some (x + y) else None.

(** The loop over the octets after the first; [used] of them were read before. *)
Fixpoint decode_rest (buf : list Z) (val shift used : Z) : res3 (Z * Z) :=
  match buf with
  | [] => Err QpackDecompressionFailed
  | byte :: buf =>
      match checked_shl (Z.land byte 0x7f) shift with
      | None => Err QpackDecompressionFailed
      | Some inc =>
          match checked_add val inc with
          | None => Err QpackDecompressionFailed
          | Some val =>
              if Z.land byte 0x80 =? 0 then Ok (val, used + 1)
              else decode_rest buf val (shift + 7) (used + 1)
          end
      end
  end.

(** The value and the number of octets it took. *)
Definition decode_int (buf : list Z) (n : Z) : res3 (Z * Z) :=
  let mask := prefix_mask n in
  match h3 (read_u8 buf) with
  | Ok (first, rest) =>
      let val := Z.land first mask in
      if val <? mask then Ok (val, 1) else decode_rest rest val 0 1
  | Err e => Err e
  | Panic => Panic
  end.

(** ** The octets of an integer *)

Fixpoint rest_bytes (fuel : nat) (i : Z) : list Z :=
  match fuel with
  | O => []
  | S fuel => if 128 <=? i then i mod 128 + 128 :: rest_bytes fuel (Z.shiftr i 7) else [i]
  end.

Definition int_bytes (i first n : Z) : list Z :=
  let mask := prefix_mask n in
  if i <? mask then [first + i] else first + mask :: rest_bytes 10 (i - mask).

(** The flags occupy the high [8 - n] bits of the first octet. *)
Definition flags_ok (first n : Z) : Prop := 1 <= n <= 8 /\ 0 <= first < 256 /\ first mod 2 ^ n = 0.

Lemma lor_disjoint x k y : 0 <= k -> x mod 2 ^ k = 0 -> 0 <= y < 2 ^ k -> Z.lor x y = x + y.
Proof.
  intros Hk Hm Hy. assert (Z.land x y = 0) as H0.
  { apply Z.bits_inj'. intros i Hi. rewrite Z.land_spec, Z.bits_0. destruct (Z.lt_ge_cases i k).
    - by rewrite <- (Z.mod_pow2_bits_low x k i), Hm, Z.bits_0.
    - assert (Z.testbit y i = false) as ->; [|apply andb_false_r].
      rewrite <- (Z.mod_pow2_bits_high y k i) by lia. f_equal. symmetry. by apply Z.mod_small. }
  rewrite <- Z.lxor_lor by done. symmetry. by apply Z.add_nocarry_lxor.
Qed.

Lemma lor_low first n x : flags_ok first n -> 0 <= x < 2 ^ n -> Z.lor first x = first + x.
Proof. intros (Hn & Hf & Hm) Hx. apply (lor_disjoint _ n); (done || lia). Qed.

Lemma wrap8 x : 0 <= x < 256 -> wrap 8 x = x.
Proof. intros. unfold wrap. by apply Z.mod_small. Qed.

Lemma be1 x : 0 <= x < 256 -> be_bytes 1 x = [x].
Proof. intros. cbn [be_bytes]. change (8 * Z.of_nat 0) with 0. rewrite Z.shiftr_0_r. by rewrite Z.mod_small. Qed.

Lemma read_octet b buf : is_u8 b -> read_u8 (b :: buf) = Ok (b, buf).
Proof.
  intros Hb. change (b :: buf) with ([b] ++ buf). rewrite <- (be1 b) by done. by apply reads_at, reads_u8.
Qed.

Lemma writes_octet x : 0 <= x < 256 -> writes (write_u8 x) [x] 1.
Proof. intros. eapply writes_eq; [apply writes_u8|by apply be1]. Qed.

Lemma writes_rest fuel : forall i, 0 <= i < 2 ^ (7 * Z.of_nat fuel) -> (0 < fuel)%nat \/ 1 <= i ->
  writes (encode_rest fuel i) (rest_bytes fuel i) tt.
Proof.
  induction fuel as [|fuel IH]; intros i Hi Hp; [cbn in Hi; lia|]. cbn [encode_rest rest_bytes].
  pose proof (Z.mod_pos_bound i 128 ltac:(lia)). destruct (Z.leb_spec 128 i).
  - rewrite wrap8 by lia. eapply (writes_bind _ _ [_]); [apply writes_octet; lia|].
    rewrite Z.shiftr_div_pow2 by lia. change (2 ^ 7) with 128.
    apply IH; [|right; apply Z.div_le_lower_bound; lia]. split; [apply Z.div_pos; lia|]. apply Z.div_lt_upper_bound; [lia|]. replace (7 * Z.of_nat (S fuel)) with (7 + 7 * Z.of_nat fuel) in Hi by lia.
    rewrite Z.pow_add_r in Hi by lia. change (2 ^ 7) with 128 in Hi. lia.
  - rewrite wrap8 by lia. eapply (writes_bind _ _ [_] []); [apply writes_octet; lia|apply writes_ret].
Qed.

Lemma prefix_mask_range n : 1 <= n <= 8 -> 1 <= prefix_mask n <= 255 /\ prefix_mask n < 2 ^ n.
Proof.
  intros Hn. unfold prefix_mask. assert (2 ^ 1 <= 2 ^ n <= 2 ^ 8) by (split; apply Z.pow_le_mono_r; lia). lia.
Qed.

Lemma flags_room first n : flags_ok first n -> first + prefix_mask n < 256.
Proof.
  intros (Hn & Hf & Hm). unfold prefix_mask. pose proof (Z.div_mod first (2 ^ n) ltac:(lia)) as Hd.
  rewrite Hm in Hd. assert (2 ^ n * 2 ^ (8 - n) = 256) as Hp by (rewrite <- Z.pow_add_r by lia; by replace (n + (8 - n)) with 8 by lia).
  assert (first / 2 ^ n < 2 ^ (8 - n)) by (apply Z.div_lt_upper_bound; lia). nia.
Qed.

Lemma writes_int i first n : is_u64 i -> flags_ok first n -> writes (encode_int i first n) (int_bytes i first n) tt.
Proof.
  intros Hi Hf. pose proof (flags_room _ _ Hf). destruct (prefix_mask_range n) as [Hm Hm']; [apply Hf|].
  unfold encode_int, int_bytes, is_u64 in *. destruct (Z.ltb_spec i (prefix_mask n)).
  - rewrite wrap8, (lor_low _ n) by (done || lia). eapply (writes_bind _ _ [_] []); [|apply writes_ret].
    apply writes_octet. unfold flags_ok in Hf. lia.
  - rewrite wrap8, (lor_low _ n) by (done || lia). eapply (writes_bind _ _ [_]); [apply writes_octet; unfold flags_ok in Hf; lia|].
    apply writes_rest; [|left; lia]. change (2 ^ (7 * Z.of_nat 10)) with 1180591620717411303424. lia.
Qed.

(** ** Reading them back *)

Lemma land_mask x n : 0 <= n -> Z.land x (prefix_mask n) = x mod 2 ^ n.
Proof. intros. unfold prefix_mask. rewrite Z.sub_1_r, <- Z.ones_equiv. by apply Z.land_ones. Qed.

(** A test that holds of the 256 octets holds of every octet. *)
Lemma all_octets (p : Z -> bool) :
  forallb p (map Z.of_nat (seq 0 256)) = true -> forall b, 0 <= b < 256 -> p b = true.
Proof.
  intros H b Hb. rewrite forallb_forall in H. apply H, in_map_iff. exists (Z.to_nat b). split; [lia|].
  apply in_seq. lia.
Qed.

Lemma octet_parts b : 0 <= b < 256 -> Z.land b 127 = b mod 128 /\ (Z.land b 128 =? 0) = (b <? 128).
Proof.
  intros Hb. assert ((Z.land b 127 =? b mod 128) && Bool.eqb (Z.land b 128 =? 0) (b <? 128) = true) as H.
  { revert b Hb. apply all_octets. by vm_compute. }
  apply andb_true_iff in H as [H1%Z.eqb_eq H2%Bool.eqb_prop]. by split.
Qed.

Lemma decode_rest_step byte buf val shift used :
  0 <= byte < 256 -> 0 <= val -> 0 <= shift < 64 -> val + (byte mod 128) * 2 ^ shift < 2 ^ 64 ->
  decode_rest (byte :: buf) val shift used =
    let val' := val + (byte mod 128) * 2 ^ shift in
    if byte <? 128 then Ok (val', used + 1) else decode_rest buf val' (shift + 7) (used + 1).
Proof.
  intros Hb Hv Hs Hm. destruct (octet_parts byte Hb) as [H1 H2]. cbn [decode_rest]. rewrite H1, H2.
  unfold checked_shl, checked_add. destruct (Z.ltb_spec shift 64); [|lia]. rewrite Z.shiftl_mul_pow2 by lia.
  pose proof (Z.mod_pos_bound byte 128 ltac:(lia)). assert (0 <= byte mod 128 * 2 ^ shift) by nia.
  unfold wrap. change (2 ^ 64) with 18446744073709551616 in *. rewrite Z.mod_small by lia.
  destruct (Z.ltb_spec (val + byte mod 128 * 2 ^ shift) 18446744073709551616); [done|lia].
Qed.

Lemma pow2_lt_inv a b : 0 <= b -> 2 ^ a < 2 ^ b -> a < b.
Proof. intros Hb H. apply (Z.pow_lt_mono_r_iff 2); lia. Qed.

Lemma decode_rest_ok fuel : forall j val shift used rest,
  0 <= j < 2 ^ (7 * Z.of_nat fuel) -> (0 < fuel)%nat \/ 1 <= j -> 0 <= val -> 0 <= shift < 64 ->
  val + j * 2 ^ shift < 2 ^ 64 ->
  decode_rest (rest_bytes fuel j ++ rest) val shift used = Ok (val + j * 2 ^ shift, used + len (rest_bytes fuel j)).
Proof.
  induction fuel as [|fuel IH]; intros j val shift used rest Hj Hp Hv Hs Hm; [cbn in Hj; lia|]. cbn [rest_bytes].
  pose proof (Z.mod_pos_bound j 128 ltac:(lia)). pose proof (Z.div_mod j 128 ltac:(lia)) as Hdm.
  assert (0 < 2 ^ shift) by (apply Z.pow_pos_nonneg; lia).
  destruct (Z.leb_spec 128 j); cbn [app].
  - assert ((j mod 128 + 128) mod 128 = j mod 128) as Hmod.
    { rewrite <- (Z.mul_1_l 128) at 2. rewrite Z.mod_add by lia. by rewrite Z.mod_mod by lia. }
    assert (j mod 128 * 2 ^ shift <= j * 2 ^ shift) by (apply Z.mul_le_mono_nonneg_r; lia).
    rewrite decode_rest_step; rewrite ?Hmod; try lia. cbn zeta.
    destruct (Z.ltb_spec (j mod 128 + 128) 128); [lia|]. rewrite Z.shiftr_div_pow2 by lia. change (2 ^ 7) with 128.
    assert (2 ^ (shift + 7) = 2 ^ shift * 128) as Hsh by (by rewrite Z.pow_add_r by lia).
    assert (1 <= j / 128) by (apply Z.div_le_lower_bound; lia).
    assert (val + j mod 128 * 2 ^ shift + j / 128 * 2 ^ (shift + 7) = val + j * 2 ^ shift) as Hsum.
    { rewrite Hsh. transitivity (val + (128 * (j / 128) + j mod 128) * 2 ^ shift); [ring|by rewrite <- Hdm]. }
    rewrite IH; rewrite ?Hsum; try lia.
    + by rewrite len_cons, Z.add_assoc.
    + split; [lia|]. apply Z.div_lt_upper_bound; [lia|].
      replace (7 * Z.of_nat (S fuel)) with (7 + 7 * Z.of_nat fuel) in Hj by lia.
      rewrite Z.pow_add_r in Hj by lia. change (2 ^ 7) with 128 in Hj. lia.
    + split; [lia|]. apply pow2_lt_inv; [lia|].
      assert (1 * 2 ^ (shift + 7) <= j / 128 * 2 ^ (shift + 7)) by (apply Z.mul_le_mono_nonneg_r; lia).
      assert (0 <= j mod 128 * 2 ^ shift) by (apply Z.mul_nonneg_nonneg; lia). lia.
  - rewrite decode_rest_step; rewrite ?(Z.mod_small j 128); try lia. cbn zeta.
    destruct (Z.ltb_spec j 128); [|lia]. by rewrite len_cons, len_nil.
Qed.

Lemma decode_int_ok i first n rest : is_u64 i -> flags_ok first n ->
  decode_int (int_bytes i first n ++ rest) n = Ok (i, len (int_bytes i first n)).
Proof.
  intros Hi Hf. pose proof (flags_room _ _ Hf). destruct (prefix_mask_range n) as [Hm Hm']; [apply Hf|].
  assert (forall x, 0 <= x < 2 ^ n -> first + x < 256 -> forall tail, decode_int ((first + x :: tail) ++ rest) n =
    if x <? prefix_mask n then Ok (x, 1) else decode_rest (tail ++ rest) x 0 1) as Hd.
  { intros x Hx Hlt tail. unfold decode_int. cbn [app].
    rewrite read_octet by (unfold is_u8, flags_ok in *; lia). cbn [h3].
    rewrite land_mask by (unfold flags_ok in Hf; lia). destruct Hf as (Hn & Hf & H0).
    assert ((first + x) mod 2 ^ n = x) as ->; [|done].
    rewrite Z.add_mod, H0, Z.add_0_l, Z.mod_mod by lia. by apply Z.mod_small. }
  unfold int_bytes, is_u64 in *. destruct (Z.ltb_spec i (prefix_mask n)).
  - rewrite (Hd i) by lia. destruct (Z.ltb_spec i (prefix_mask n)); [|lia]. by rewrite len_cons, len_nil.
  - rewrite (Hd (prefix_mask n)) by lia. destruct (Z.ltb_spec (prefix_mask n) (prefix_mask n)); [lia|].
    rewrite decode_rest_ok; rewrite ?Z.pow_0_r, ?Z.mul_1_r; try lia.
    rewrite len_cons. do 2 f_equal. lia.
Qed.

(** ** Any input *)

Lemma decode_rest_total buf : forall val shift used, is_u64 val -> 0 <= shift -> bytes_ok buf ->
  match decode_rest buf val shift used with
  | Ok (v, k) => is_u64 v /\ used < k <= used + len buf
  | Err e => e = QpackDecompressionFailed
  | Panic => False
  end.
Proof.
  induction buf as [|b buf IH]; intros val shift used Hv Hs Hb; [done|]. apply Forall_cons in Hb as [Hb Hbs].
  cbn [decode_rest]. unfold checked_shl, checked_add. destruct (shift <? 64); [|done].
  set (inc := wrap 64 _). assert (is_u64 inc) by (unfold is_u64, inc, wrap; apply Z.mod_pos_bound; lia).
  destruct (Z.ltb_spec (val + inc) 18446744073709551616); [|done]. rewrite len_cons. pose proof (len_nonneg buf).
  destruct (_ =? 0); [unfold is_u64 in *; lia|].
  specialize (IH (val + inc) (shift + 7) (used + 1) ltac:(unfold is_u64 in *; lia) ltac:(lia) Hbs).
  destruct (decode_rest buf _ _ _) as [[v k]| |]; [|done..]. destruct IH. split; [done|lia].
Qed.

(** An integer of any value, behind any flags, is read back as written, in exactly the
    octets it took; reading any input never panics, and what it returns is a
    [u64] with at least one octet and no more than the input used. *)
Theorem prefix_int_roundtrip i first n rest buf :
  is_u64 i -> flags_ok first n ->
  exists bs, run_enc (encode_int i first n) buf =
      (if len bs <=? len buf then Ok (len bs, bs ++ zdrop (len bs) buf) else Err BufferTooShort) /\
    decode_int (bs ++ rest) n = Ok (i, len bs).
Proof.
  intros Hi Hf. exists (int_bytes i first n). split; [|by apply decode_int_ok].
  apply (run_enc_spec _ _ buf), (writes_int i first n Hi Hf).
Qed.

Lemma decode_int_total buf n : bytes_ok buf -> 1 <= n <= 8 ->
  match decode_int buf n with
  | Ok (v, k) => is_u64 v /\ 0 < k <= len buf
  | Err e => e = QpackDecompressionFailed \/ e = TransportError BufferTooShort
  | Panic => False
  end.
Proof.
  intros Hb Hn. unfold decode_int. destruct buf as [|b buf]; [by right|]. apply Forall_cons in Hb as [Hb Hbs].
  rewrite read_octet by done.
  cbn [h3]. rewrite land_mask, len_cons by lia. pose proof (len_nonneg buf).
  assert (0 <= b mod 2 ^ n < 2 ^ 8) as Hm.
  { pose proof (Z.mod_pos_bound b (2 ^ n)). pose proof (Z.pow_le_mono_r 2 n 8). lia. }
  assert (is_u64 (b mod 2 ^ n)) by (unfold is_u64; lia).
  destruct (_ <? _); [split; [done|lia]|].
  pose proof (decode_rest_total buf (b mod 2 ^ n) 0 1) as H1. destruct (decode_rest buf _ 0 1) as [[v k]|e|].
  - destruct H1 as [? ?]; try done. split; [done|lia].
  - left. by apply H1.
  - by apply H1.
Qed.

(** An encoding beyond 64 bits is not always refused: the tenth octet after the
    first contributes through a shift by 63, which drops every bit but the
    lowest, so the overlong encoding of 31 + 2^64 is read as 31. *)
Theorem prefix_int_overflow_accepted :
  decode_int (31 :: repeat 128 9 ++ [2]) 5 = Ok (31, 11).
Proof. by vm_compute. Qed.
