(* ===== verification/Huffman.v ===== *)
(** * The QPACK Huffman code

    Models [src/src/h3/qpack/huffman.rs]: the encoder, which collects bits in a
    64-bit window, and the decoder, an automaton that takes half a byte at a
    time.  The reference is the prefix code itself, read bit by bit: every row
    of the decoder's table is checked against it, which makes the decoder
    equivalent to the reference on every input.  After each symbol the window
    holds less than 8 bits and a code has at most 30, so five turns empty it. *)

From S2P Require Import Prelude.
From S2P Require Import Error.
From S2P Require Import Codec.
From S2P Require Import Wire.
From S2P Require Import Http3.
From S2P Require Import PrefixInt.
From S2P Require Import HuffmanTable.

Definition FLAG_MAYBE_EOS : Z := 1.
Definition FLAG_DECODED : Z := 2.
Definition FLAG_ERROR : Z := 4.

Definition to_ascii_lowercase (b : Z) : Z := if (65 <=? b) && (b <=? 90) then b + 32 else b.

Definition encode_entry (b : Z) : Z * Z := nth (Z.to_nat b) ENCODE_TABLE (0, 0).

(** ** Encoder *)

(** [while bits_used >= 8] *)
Fixpoint flush (fuel : nat) (win used : Z) : enc (Z * Z) :=
  match fuel with
  | O => cpanic
  | S fuel =>
      if 8 <=? used then
        write_u8 (wrap 8 (Z.shiftr win 56)) ;;
        flush fuel (wrap 64 (Z.shiftl win 8)) (used - 8)
      else mret (win, used)
  end.

Fixpoint encode_loop (src : list Z) (lower : bool) (win used : Z) : enc (Z * Z) :=
  match src with
  | [] => mret (win, used)
  | byte :: src =>
      let byte := if lower then to_ascii_lowercase byte else byte in
      let '(nbits, code) := encode_entry byte in
      left ← clift (sub64 64 used);
      shift ← clift (sub64 left nbits);
      let win := Z.lor win (wrap 64 (Z.shiftl code shift)) in
      r ← flush 5 win (used + nbits);
      encode_loop src lower r.1 r.2
  end.

Definition encode (src : list Z) (lower : bool) : enc unit :=
  r ← encode_loop src lower 0 0;
  let '(win, used) := r in
  if negb (used =? 0) then
    write_u8 (wrap 8 (Z.shiftr (Z.lor win (wrap 64 (Z.shiftl 1 (64 - used)) - 1)) 56)) ;; mret tt
  else mret tt.

Fixpoint encode_bits (src : list Z) (low : bool) : Z :=
  match src with
  | [] => 0
  | b :: src => (encode_entry (if low then to_ascii_lowercase b else b)).1 + encode_bits src low
  end.

Definition encode_output_length (src : list Z) (low : bool) : Z :=
  let bits := encode_bits src low in
  bits / 8 + (if negb (Z.land bits 7 =? 0) then 1 else 0).

(** ** Decoder *)

Record HuffmanDecoder := mkDecoder { state : Z; maybe_eos : bool }.

Definition decoder_new : HuffmanDecoder := mkDecoder 0 false.
Definition contains (flags flag : Z) : bool := Z.land flags flag =? flag.

Definition decode_entry (s input : Z) : Z * Z * Z :=
  nth (Z.to_nat input) (nth (Z.to_nat s) DECODE_TABLE []) (0, 0, 0).

Definition decode4 (input : Z) (d : HuffmanDecoder) : res3 (option Z * HuffmanDecoder) :=
  let '(next, byte, flags) := decode_entry (state d) input in
  if contains flags FLAG_ERROR then Err QpackDecompressionFailed
  else Ok (if contains flags FLAG_DECODED then Some byte else None,
           mkDecoder next (contains flags FLAG_MAYBE_EOS)).

Definition is_final (d : HuffmanDecoder) : bool := (state d =? 0) || maybe_eos d.

Fixpoint decode_loop (buf : list Z) (d : HuffmanDecoder) (out : list Z) : res3 (list Z) :=
  match buf with
  | [] => if negb (is_final d) then Err QpackDecompressionFailed else Ok out
  | byte :: buf =>
      r ← decode4 (Z.shiftr byte 4) d;
      let '(b, d) := r in
      let out := match b with Some b => out ++ [b] | None => out end in
      r ← decode4 (Z.land byte 0xf) d;
      let '(b, d) := r in
      let out := match b with Some b => out ++ [b] | None => out end in
      decode_loop buf d out
  end.

Definition decode (buf : list Z) : res3 (list Z) := decode_loop buf decoder_new [].

(** ** Bits *)

(** The [n] low bits of a number, most significant first, and back. *)
Fixpoint zbits (n : nat) (x : Z) : list bool :=
  match n with
  | O => []
  | S n => Z.testbit x (Z.of_nat n) :: zbits n x
  end.
Definition bv (l : list bool) : Z := foldl (fun acc (b : bool) => 2 * acc + (if b then 1 else 0)) 0 l.

Definition unpack (bs : list Z) : list bool := concat (map (zbits 8) bs).

Definition code_bits (b : Z) : list bool :=
  let '(n, c) := encode_entry b in zbits (Z.to_nat n) c.

(** ** The reference: one bit at a time *)

Definition codes : list (list bool * Z) := Eval vm_compute in
  map (fun k => (code_bits (Z.of_nat k), Z.of_nat k)) (seq 0 257).

Fixpoint beq_bits (a b : list bool) : bool :=
  match a, b with
  | [], [] => true
  | x :: a, y :: b => Bool.eqb x y && beq_bits a b
  | _, _ => false
  end.

Fixpoint find_code (p : list bool) (cs : list (list bool * Z)) : option Z :=
  match cs with
  | [] => None
  | (c, s) :: cs => if beq_bits p c then Some s else find_code p cs
  end.

(** The symbols decoded and the bits of an unfinished code; the end marker, symbol
    256, must not occur. *)
Fixpoint walk (p : list bool) (bits : list bool) : option (list Z * list bool) :=
  match bits with
  | [] => Some ([], p)
  | b :: bits =>
      let q := p ++ [b] in
      match find_code q codes with
      | Some s =>
          if s =? 256 then None
          else match walk [] bits with Some (out, p') => Some (s :: out, p') | None => None end
      | None => walk q bits
      end
  end.

(** What may be left at the end: less than a byte of ones. *)
Definition padding (p : list bool) : bool := forallb id p && (len p <? 8).

Definition ref_decode (bits : list bool) : option (list Z) :=
  match walk [] bits with
  | Some (out, p) => if padding p then Some out else None
  | None => None
  end.

(** ** States of the decoder are prefixes of codes

    The bits read since the last symbol, for each state: found by following the
    table from the initial state. *)

Definition set_prefix (n : Z) (p : list bool) (ps : list (option (list bool))) : list (option (list bool)) :=
  <[Z.to_nat n := Some p]> ps.

Definition nibbles : list Z := map Z.of_nat (seq 0 16).

(** One state: fill in the states its row leads to, and list those that were new. *)
Definition follow (s : Z) (p : list bool) (acc : list (option (list bool)) * list (Z * list bool)) :=
  foldl (fun '(ps, new) nib =>
    let '(next, _, flags) := decode_entry s nib in
    if contains flags FLAG_ERROR then (ps, new)
    else match nth (Z.to_nat next) ps None, walk p (zbits 4 nib) with
         | None, Some (_, q) => (set_prefix next q ps, (next, q) :: new)
         | _, _ => (ps, new)
         end) acc nibbles.

Fixpoint explore (fuel : nat) (todo : list (Z * list bool)) (ps : list (option (list bool))) :=
  match fuel with
  | O => ps
  | S fuel =>
      match todo with
      | [] => ps
      | _ => let '(ps, new) := foldl (fun acc '(s, p) => follow s p acc) (ps, []) todo in explore fuel new ps
      end
  end.

Definition prefixes : list (list bool) := Eval vm_compute in
  map (default []) (explore 40 [(0, [])] (set_prefix 0 [] (repeat None 256))).

Definition prefix_of (s : Z) : list bool := nth (Z.to_nat s) prefixes [].

(** An entry of the table agrees with the reference. *)
Definition entry_ok (s nib : Z) : bool :=
  let '(next, byte, flags) := decode_entry s nib in
  match walk (prefix_of s) (zbits 4 nib) with
  | None => contains flags FLAG_ERROR
  | Some (out, p) =>
      negb (contains flags FLAG_ERROR) && (0 <=? next) && (next <? 256) &&
      beq_bits p (prefix_of next) &&
      bool_decide (out = if contains flags FLAG_DECODED then [byte] else []) &&
      Bool.eqb (contains flags FLAG_MAYBE_EOS) (padding p && negb (bool_decide (p = [])))
  end.

Lemma table_checked :
  forallb (fun s => forallb (entry_ok s) nibbles) (map Z.of_nat (seq 0 256)) = true.
Proof. by vm_compute. Qed.

(** Only the initial state stands for the empty prefix. *)
Lemma initial_checked :
  forallb (fun s => Bool.eqb (s =? 0) (bool_decide (prefix_of s = []))) (map Z.of_nat (seq 0 256)) = true.
Proof. by vm_compute. Qed.

(** No proper prefix of a code is a code. *)
Lemma codes_checked :
  forallb (fun s => bool_decide (walk [] (code_bits s) = Some ([s], []))) (map Z.of_nat (seq 0 256)) = true.
Proof. by vm_compute. Qed.

Lemma padding_checked :
  forallb (fun k => bool_decide (walk [] (repeat true k) = Some ([], repeat true k))) (seq 0 8) = true.
Proof. by vm_compute. Qed.

(** ** The decoder is the reference *)

Lemma beq_bits_eq a : forall b, beq_bits a b = true -> a = b.
Proof.
  induction a as [|x a IH]; intros [|y b]; try done. cbn. intros [->%Bool.eqb_prop H]%andb_true_iff. f_equal. auto.
Qed.

Lemma walk_app a : forall p b,
  walk p (a ++ b) =
  match walk p a with
  | Some (out, q) => match walk q b with Some (out', r) => Some (out ++ out', r) | None => None end
  | None => None
  end.
Proof.
  induction a as [|x a IH]; intros p b; cbn [app walk]; [by destruct (walk p b) as [[]|]|].
  destruct (find_code (p ++ [x]) codes) as [s|]; [|apply IH]. destruct (s =? 256); [done|]. rewrite IH.
  destruct (walk [] a) as [[out q]|]; [|done]. by destruct (walk q b) as [[]|].
Qed.

Lemma nibble_in n : 0 <= n < 16 -> In n nibbles.
Proof. intros Hn. apply in_map_iff. exists (Z.to_nat n). split; [lia|]. apply in_seq. lia. Qed.

(** The decoder stands where the reference stands after the bits [p]. *)
Definition stands (d : HuffmanDecoder) (p : list bool) : Prop :=
  0 <= state d < 256 /\ p = prefix_of (state d) /\
  maybe_eos d = padding p && negb (bool_decide (p = [])).

Lemma stands_final d p : stands d p -> is_final d = padding p.
Proof.
  intros (Hs & Hp & He). unfold is_final. rewrite He.
  pose proof initial_checked as H. assert (Bool.eqb (state d =? 0) (bool_decide (prefix_of (state d) = [])) = true) as E.
  { revert Hs. generalize (state d). by apply all_octets. }
  apply Bool.eqb_prop in E. rewrite E, <- Hp. destruct (bool_decide (p = [])) eqn:Hn; [|by rewrite andb_true_r].
  apply bool_decide_eq_true in Hn. by rewrite Hn.
Qed.

Lemma decode4_spec d p n : stands d p -> 0 <= n < 16 ->
  match walk p (zbits 4 n) with
  | Some (out, q) => exists b d', decode4 n d = Ok (b, d') /\ out = option_list b /\ stands d' q
  | None => decode4 n d = Err QpackDecompressionFailed
  end.
Proof.
  intros (Hs & -> & He) Hn. assert (entry_ok (state d) n = true) as H.
  { assert (forallb (entry_ok (state d)) nibbles = true) as Hr.
    { revert Hs. generalize (state d). apply all_octets, table_checked. }
    rewrite forallb_forall in Hr. by apply Hr, nibble_in. }
  unfold entry_ok in H. unfold decode4. destruct (decode_entry (state d) n) as [[next byte] flags].
  destruct (walk (prefix_of (state d)) (zbits 4 n)) as [[out q]|]; [|by rewrite H].
  rewrite !andb_true_iff in H. destruct H as (((((He' & Hlo) & Hhi) & Hq) & Ho) & Hm).
  apply negb_true_iff in He'. rewrite He'. apply beq_bits_eq in Hq. apply bool_decide_eq_true in Ho.
  eexists _, _. split; [reflexivity|]. split; [by destruct (contains flags FLAG_DECODED)|].
  apply Bool.eqb_prop in Hm. unfold stands. cbn. rewrite Hm. split; [lia|]. by rewrite Hq.
Qed.

Lemma byte_halves b : is_u8 b ->
  zbits 8 b = zbits 4 (Z.shiftr b 4) ++ zbits 4 (Z.land b 0xf) /\ 0 <= Z.shiftr b 4 < 16 /\ 0 <= Z.land b 0xf < 16.
Proof.
  intros Hb. assert (bool_decide (zbits 8 b = zbits 4 (Z.shiftr b 4) ++ zbits 4 (Z.land b 0xf)) = true) as H.
  { revert b Hb. apply all_octets. by vm_compute. }
  apply bool_decide_eq_true in H. split; [done|]. unfold is_u8 in Hb. rewrite Z.shiftr_div_pow2 by lia.
  change 15 with (Z.ones 4). rewrite Z.land_ones by lia. split; [|by apply Z.mod_pos_bound].
  split; [apply Z.div_pos; lia|apply Z.div_lt_upper_bound; lia].
Qed.

Lemma decode_loop_spec buf : forall d p out, stands d p -> bytes_ok buf ->
  decode_loop buf d out =
  match walk p (unpack buf) with
  | Some (new, q) => if padding q then Ok (out ++ new) else Err QpackDecompressionFailed
  | None => Err QpackDecompressionFailed
  end.
Proof.
  induction buf as [|b buf IH]; intros d p out Hd Hb; cbn [decode_loop].
  - cbn. rewrite (stands_final d p Hd), app_nil_r. by destruct (padding p).
  - apply Forall_cons in Hb as [Hb Hbs]. destruct (byte_halves b Hb) as (Hz & Hhi & Hlo).
    unfold unpack. cbn [map concat]. rewrite Hz, !walk_app.
    pose proof (decode4_spec d p _ Hd Hhi) as H1. destruct (walk p (zbits 4 (Z.shiftr b 4))) as [[o1 p1]|]; cycle 1.
    { by rewrite H1. }
    destruct H1 as (b1 & d1 & -> & -> & Hd1). cbn [mbind outcome_bind].
    pose proof (decode4_spec d1 p1 _ Hd1 Hlo) as H2. destruct (walk p1 (zbits 4 (Z.land b 15))) as [[o2 p2]|]; cycle 1.
    { by rewrite H2. }
    destruct H2 as (b2 & d2 & -> & -> & Hd2). cbn [mbind outcome_bind]. rewrite (IH d2 p2) by done.
    fold (unpack buf). destruct (walk p2 (unpack buf)) as [[new q]|]; [|done]. destruct (padding q); [|done].
    destruct b1, b2; cbn; by rewrite <- ?app_assoc.
Qed.

Lemma decode_ref buf : bytes_ok buf ->
  decode buf = match ref_decode (unpack buf) with Some out => Ok out | None => Err QpackDecompressionFailed end.
Proof.
  intros Hb. unfold decode, ref_decode. rewrite (decode_loop_spec buf decoder_new []); [|split; [done|]; by split|done].
  destruct (walk [] (unpack buf)) as [[out p]|]; [|done]. by destruct (padding p).
Qed.

(** C24.  The table-driven decoder, which steps through 256 states four bits at a
    time, computes the same as the reference that reads the string bit by bit
    against the code table: on every input of octets it returns the octets the
    codewords stand for, and it refuses exactly the inputs the reference refuses
    (the end marker as a symbol, or a remainder of a byte or more, or with a
    zero in it). *)
Theorem huffman_decoder_equiv buf :
  bytes_ok buf ->
  decode buf = match ref_decode (unpack buf) with Some out => Ok out | None => Err QpackDecompressionFailed end.
Proof. apply decode_ref. Qed.

Lemma huffman_decoder_equiv_witness :
  bytes_ok [0x1f; 0xff] /\ decode [0x1f; 0xff] = Err QpackDecompressionFailed /\
  bytes_ok [0x1f] /\ decode [0x1f] = Ok [97].
Proof.
  assert (bytes_ok [0x1f; 0xff]) as H by (repeat constructor; unfold is_u8; lia).
  assert (bytes_ok [0x1f]) as H' by (repeat constructor; unfold is_u8; lia).
  split; [exact H|]. split; [rewrite (huffman_decoder_equiv _ H); vm_compute; reflexivity|].
  split; [exact H'|]. rewrite (huffman_decoder_equiv _ H'). vm_compute. reflexivity.
Defined.

(** ** Bit strings as numbers *)

Lemma bv_app_aux b : forall acc, foldl (fun acc (b : bool) => 2 * acc + (if b then 1 else 0)) acc b = acc * 2 ^ len b + bv b.
Proof.
  induction b as [|x b IH]; intros acc; cbn [foldl]; [rewrite len_nil; cbn; lia|].
  unfold bv. cbn [foldl]. rewrite (IH (2 * acc + _)), (IH (2 * 0 + _)). rewrite len_cons, Z.pow_add_r by (try apply len_nonneg; lia). ring.
Qed.

Lemma bv_app a b : bv (a ++ b) = bv a * 2 ^ len b + bv b.
Proof. unfold bv at 1. rewrite foldl_app. apply bv_app_aux. Qed.

Lemma bv_range l : 0 <= bv l < 2 ^ len l.
Proof.
  induction l as [|x l IH] using rev_ind; [done|]. rewrite bv_app, len_app. change (len [x]) with 1.
  rewrite Z.pow_add_r by (try apply len_nonneg; lia). change (2 ^ 1) with 2.
  destruct x; [change (bv [true]) with 1|change (bv [false]) with 0]; lia.
Qed.

Lemma len_zbits n x : len (zbits n x) = Z.of_nat n.
Proof. induction n as [|n IH]; [done|]. cbn [zbits]. rewrite len_cons, IH. lia. Qed.

Lemma bv_zbits n x : bv (zbits n x) = x mod 2 ^ Z.of_nat n.
Proof.
  induction n as [|n IH]; [cbn; by rewrite Z.mod_1_r|]. cbn [zbits]. change (?b :: ?l) with ([b] ++ l).
  rewrite bv_app, IH, len_zbits. replace (Z.of_nat (S n)) with (Z.of_nat n + 1) by lia.
  rewrite Z.pow_add_r, Z.rem_mul_r by lia. change (2 ^ 1) with 2.
  rewrite <- Z.testbit_spec' by lia. cbn. destruct (Z.testbit x (Z.of_nat n)); cbn; lia.
Qed.

Lemma bv_inj a : forall b, len a = len b -> bv a = bv b -> a = b.
Proof.
  induction a as [|x a IH] using rev_ind; intros b Hl Hv.
  - symmetry in Hl. by apply len_zero_nil in Hl.
  - destruct b as [|y b] using rev_ind; [rewrite len_app in Hl; change (len [x]) with 1 in Hl; pose proof (len_nonneg a); rewrite len_nil in Hl; lia|].
    rewrite !len_app in Hl. rewrite !bv_app in Hv. change (len [x]) with 1 in *. change (len [y]) with 1 in *.
    change (2 ^ 1) with 2 in Hv. assert (x = y) as -> by (destruct x, y; cbn in Hv; (done || lia)).
    f_equal. apply IH; [lia|]. destruct y; cbn in Hv; lia.
Qed.

(** ** The window

    [window pend]: the bits still to be written, at the top of 64. *)

Definition window (pend : list bool) : Z := bv pend * 2 ^ (64 - len pend).

Lemma window_split a b : len a + len b <= 64 ->
  window (a ++ b) = bv a * 2 ^ (64 - len a) + bv b * 2 ^ (64 - len a - len b).
Proof.
  intros H. pose proof (len_nonneg a). pose proof (len_nonneg b). unfold window. rewrite bv_app, len_app.
  replace (64 - len a) with (len b + (64 - (len a + len b))) at 1 by lia. rewrite Z.pow_add_r by lia.
  replace (64 - len a - len b) with (64 - (len a + len b)) by lia. ring.
Qed.

Lemma pow2_split a b : 0 <= a <= b -> 2 ^ b = 2 ^ a * 2 ^ (b - a).
Proof. intros. rewrite <- Z.pow_add_r by lia. f_equal. lia. Qed.

Lemma window_rest_small (a b : list bool) : len a + len b <= 64 -> 0 <= bv b * 2 ^ (64 - len a - len b) < 2 ^ (64 - len a).
Proof.
  intros H. pose proof (len_nonneg a). pose proof (len_nonneg b). pose proof (bv_range b).
  rewrite (pow2_split (len b) (64 - len a)) by lia. assert (0 < 2 ^ (64 - len a - len b)) by (apply Z.pow_pos_nonneg; lia). nia.
Qed.

Lemma unpack_cons b bs : unpack (b :: bs) = zbits 8 b ++ unpack bs.
Proof. done. Qed.
Lemma unpack_app a b : unpack (a ++ b) = unpack a ++ unpack b.
Proof. unfold unpack. by rewrite map_app, concat_app. Qed.

(** The first byte of the window, and the window without it. *)
Lemma window_byte (a b : list bool) : len a = 8 -> len b <= 56 ->
  wrap 8 (Z.shiftr (window (a ++ b)) 56) = bv a /\ wrap 64 (Z.shiftl (window (a ++ b)) 8) = window b.
Proof.
  intros Ha Hb. pose proof (len_nonneg b). pose proof (bv_range a) as Hr. rewrite Ha in Hr. change (2 ^ 8) with 256 in Hr.
  pose proof (window_rest_small a b ltac:(lia)) as Hs. rewrite window_split by lia. rewrite Ha in *.
  change (64 - 8) with 56 in *. unfold wrap. split.
  - rewrite Z.shiftr_div_pow2 by lia. rewrite Z.div_add_l, (Z.div_small _ (2 ^ 56)), Z.add_0_r by lia. by apply Z.mod_small.
  - rewrite Z.shiftl_mul_pow2 by lia. rewrite Z.mul_add_distr_r.
    replace (bv a * 2 ^ 56 * 2 ^ 8) with (bv a * 2 ^ 64) by (rewrite <- Z.mul_assoc, <- Z.pow_add_r by lia; done).
    rewrite Z.add_comm, Z.mod_add by lia. rewrite <- Z.mul_assoc, <- Z.pow_add_r by lia.
    replace (56 - len b + 8) with (64 - len b) by lia. apply Z.mod_small. pose proof (bv_range b).
    rewrite (pow2_split (len b) 64) by lia. assert (0 < 2 ^ (64 - len b)) by (apply Z.pow_pos_nonneg; lia).
    split; [apply Z.mul_nonneg_nonneg; lia|apply Z.mul_lt_mono_pos_r; lia].
Qed.

Lemma zbits_bv a : len a = 8 -> zbits 8 (bv a) = a.
Proof.
  intros Ha. apply bv_inj; [by rewrite len_zbits|]. rewrite bv_zbits. apply Z.mod_small.
  pose proof (bv_range a) as H. by rewrite Ha in H.
Qed.

Lemma flush_spec fuel : forall pend, len pend < 8 * Z.of_nat fuel -> len pend <= 64 ->
  exists bs rest, writes (flush fuel (window pend) (len pend)) bs (window rest, len rest) /\
    pend = unpack bs ++ rest /\ len rest < 8 /\ bytes_ok bs.
Proof.
  induction fuel as [|fuel IH]; intros pend Hf Hl; [pose proof (len_nonneg pend); lia|]. cbn [flush].
  destruct (Z.leb_spec 8 (len pend)) as [H8|H8].
  - set (a := ztake 8 pend). set (b := zdrop 8 pend). assert (pend = a ++ b) as Hp by (symmetry; apply ztake_zdrop).
    assert (len a = 8) as Ha by (apply len_ztake; lia). assert (len b = len pend - 8) as Hb by (apply len_zdrop; lia).
    destruct (window_byte a b Ha ltac:(lia)) as [H1 H2]. rewrite <- Hp in H1, H2. rewrite H1, H2, <- Hb.
    destruct (IH b) as (bs & rest & Hw & Hbr & Hr & Hok); [lia..|]. pose proof (bv_range a) as Hra. rewrite Ha in Hra.
    exists (bv a :: bs), rest. split_and!; [| |done|by constructor].
    + eapply (writes_bind _ _ [bv a]); [by apply writes_octet|exact Hw].
    + rewrite unpack_cons, zbits_bv by done. by rewrite Hp, Hbr, <- app_assoc.
  - exists [], pend. split_and!; [apply writes_ret|done|done|constructor].
Qed.

(** ** The encoder writes the code *)

Lemma entries_checked :
  forallb (fun b => let '(n, c) := encode_entry b in (5 <=? n) && (n <=? 30) && (0 <=? c) && (c <? 2 ^ n))
    (map Z.of_nat (seq 0 256)) = true.
Proof. by vm_compute. Qed.

Lemma entry_range b n c : is_u8 b -> encode_entry b = (n, c) -> 5 <= n <= 30 /\ 0 <= c < 2 ^ n.
Proof.
  intros Hb E. pose proof (all_octets _ entries_checked b Hb) as H. cbn beta in H. rewrite E in H.
  rewrite !andb_true_iff, !Z.leb_le, Z.ltb_lt in H. lia.
Qed.

Lemma lowercase_u8 b : is_u8 b -> is_u8 (to_ascii_lowercase b).
Proof. unfold is_u8, to_ascii_lowercase. intros. destruct (Z.leb_spec 65 b), (Z.leb_spec b 90); cbn; lia. Qed.

(** The bytes that are coded. *)
Definition folded (lower : bool) (src : list Z) : list Z := if lower then map to_ascii_lowercase src else src.

Definition text_bits (lower : bool) (src : list Z) : list bool := concat (map code_bits (folded lower src)).

Lemma window_append pend b n c : is_u8 b -> encode_entry b = (n, c) -> len pend < 8 ->
  Z.lor (window pend) (wrap 64 (Z.shiftl c (64 - len pend - n))) = window (pend ++ code_bits b) /\
  len (pend ++ code_bits b) = len pend + n.
Proof.
  intros Hb E Hp. destruct (entry_range b n c Hb E) as [Hn Hc]. pose proof (len_nonneg pend).
  assert (len (code_bits b) = n) as Hl by (unfold code_bits; rewrite E, len_zbits; lia).
  assert (bv (code_bits b) = c) as Hv.
  { unfold code_bits. rewrite E, bv_zbits, Z2Nat.id by lia. by apply Z.mod_small. }
  split; [|by rewrite len_app, Hl]. pose proof (window_rest_small pend (code_bits b) ltac:(lia)) as Hs.
  rewrite window_split by lia. rewrite Hl, Hv in *. rewrite Z.shiftl_mul_pow2 by lia. unfold wrap.
  assert (2 ^ (64 - len pend) <= 2 ^ 64) by (apply Z.pow_le_mono_r; lia).
  rewrite (Z.mod_small (c * _)) by lia. apply (lor_disjoint _ (64 - len pend)); [lia| |done].
  unfold window. apply Z_mod_mult.
Qed.

Lemma encode_loop_spec lower src : forall pend, bytes_ok src -> len pend < 8 ->
  exists bs rest, writes (encode_loop src lower (window pend) (len pend)) bs (window rest, len rest) /\
    pend ++ text_bits lower src = unpack bs ++ rest /\ len rest < 8 /\ bytes_ok bs.
Proof.
  induction src as [|b src IH]; intros pend Hb Hp; cbn [encode_loop].
  { exists [], pend. split_and!; [apply writes_ret| |done|constructor]. unfold text_bits. destruct lower; cbn; by rewrite app_nil_r. }
  apply Forall_cons in Hb as [Hb Hbs]. set (x := if lower then to_ascii_lowercase b else b).
  assert (is_u8 x) as Hx by (unfold x; destruct lower; [by apply lowercase_u8|done]).
  assert (text_bits lower (b :: src) = code_bits x ++ text_bits lower src) as -> by (unfold x; by destruct lower).
  destruct (encode_entry x) as [n c] eqn:E. destruct (entry_range x n c Hx E) as [Hn _]. pose proof (len_nonneg pend).
  destruct (window_append pend x n c Hx E Hp) as [Hw Hl].
  destruct (flush_spec 5 (pend ++ code_bits x)) as (bs1 & r1 & Hf & Hsplit & Hr1 & Hok1); [lia..|].
  destruct (IH r1 Hbs Hr1) as (bs2 & r2 & Hloop & Hsplit2 & Hr2 & Hok2).
  exists (bs1 ++ bs2), r2. split_and!; [| |done|by apply Forall_app].
  - rewrite sub64_ok by lia. eapply (writes_bind _ _ []); [apply writes_clift|]. rewrite sub64_ok by lia. eapply (writes_bind _ _ []); [apply writes_clift|].
    rewrite Hw, <- Hl. eapply writes_bind; [exact Hf|exact Hloop].
  - by rewrite app_assoc, Hsplit, <- app_assoc, Hsplit2, unpack_app, app_assoc.
Qed.

Lemma len_ones m : len (repeat true m) = Z.of_nat m.
Proof. unfold len. by rewrite repeat_length. Qed.

Lemma bv_ones m : bv (repeat true m) = 2 ^ Z.of_nat m - 1.
Proof.
  induction m as [|m IH]; [done|]. cbn [repeat]. change (true :: ?l) with ([true] ++ l). rewrite bv_app, IH, len_ones.
  replace (Z.of_nat (S m)) with (1 + Z.of_nat m) by lia. rewrite Z.pow_add_r by lia. change (bv [true]) with 1. lia.
Qed.

Definition pad_bits (rest : list bool) : list bool := repeat true (Z.to_nat (8 - len rest)).

(** The padding completes the last byte with ones. *)
Lemma window_pad rest : 0 < len rest < 8 ->
  wrap 8 (Z.shiftr (Z.lor (window rest) (wrap 64 (Z.shiftl 1 (64 - len rest)) - 1)) 56) = bv (rest ++ pad_bits rest) /\
  len (rest ++ pad_bits rest) = 8.
Proof.
  intros Hr. unfold pad_bits. set (l := len rest) in *. rewrite len_app, bv_app, len_ones, bv_ones, Z2Nat.id by lia. fold l.
  split; [|lia]. rewrite Z.shiftl_mul_pow2, Z.mul_1_l by lia. unfold wrap.
  assert (0 < 2 ^ (64 - l) < 2 ^ 64) by (split; [apply Z.pow_pos_nonneg|apply Z.pow_lt_mono_r]; lia).
  rewrite (Z.mod_small (2 ^ (64 - l))) by lia.
  rewrite (lor_disjoint _ (64 - l)); [|lia|unfold window; apply Z_mod_mult|lia]. unfold window. fold l.
  pose proof (bv_range rest) as Hb. fold l in Hb.
  assert (2 ^ (64 - l) = 2 ^ (8 - l) * 2 ^ 56) as E by (rewrite <- Z.pow_add_r by lia; f_equal; lia).
  assert (2 ^ 8 = 2 ^ l * 2 ^ (8 - l)) as E8 by (apply pow2_split; lia).
  rewrite Z.shiftr_div_pow2 by lia. rewrite E.
  replace (bv rest * (2 ^ (8 - l) * 2 ^ 56) + (2 ^ (8 - l) * 2 ^ 56 - 1))
    with ((bv rest * 2 ^ (8 - l) + (2 ^ (8 - l) - 1)) * 2 ^ 56 + (2 ^ 56 - 1)) by ring.
  rewrite Z.div_add_l, (Z.div_small (2 ^ 56 - 1)), Z.add_0_r by lia. apply Z.mod_small.
  assert (0 < 2 ^ (8 - l)) by (apply Z.pow_pos_nonneg; lia). rewrite E8. nia.
Qed.

Lemma encode_spec lower src : bytes_ok src ->
  exists bs k, writes (encode src lower) bs tt /\ bytes_ok bs /\ (k < 8)%nat /\
    unpack bs = text_bits lower src ++ repeat true k.
Proof.
  intros Hb. destruct (encode_loop_spec lower src [] Hb) as (bs & rest & Hw & Hsplit & Hr & Hok); [done|].
  cbn [app] in Hsplit. unfold encode. change (window []) with 0 in Hw. change (len (@nil bool)) with 0 in Hw.
  pose proof (len_nonneg rest). destruct (Z.eqb_spec (len rest) 0) as [H0|H0].
  - exists bs, 0%nat. apply len_zero_nil in H0 as ->. rewrite app_nil_r in *. split_and!; [|done|lia|done].
    rewrite <- (app_nil_r bs). eapply writes_bind; [exact Hw|apply writes_ret].
  - destruct (window_pad rest ltac:(lia)) as [Hp Hl]. pose proof (bv_range (rest ++ pad_bits rest)) as Hv. rewrite Hl in Hv.
    exists (bs ++ [bv (rest ++ pad_bits rest)]), (Z.to_nat (8 - len rest)). split_and!; [|apply Forall_app; split; [done|by apply Forall_singleton]|lia|].
    + eapply writes_bind; [exact Hw|]. cbn beta iota. destruct (Z.eqb_spec (len rest) 0); [done|]. cbn [negb]. rewrite Hp.
      eapply (writes_bind _ _ [_] []); [by apply writes_octet|apply writes_ret].
    + rewrite unpack_app, Hsplit, <- app_assoc. f_equal. rewrite unpack_cons, zbits_bv by done. cbn. by rewrite app_nil_r.
Qed.

Lemma len_unpack bs : len (unpack bs) = 8 * len bs.
Proof. induction bs as [|b bs IH]; [done|]. rewrite unpack_cons, len_app, len_zbits, IH, len_cons. lia. Qed.

Lemma len_text lower src : bytes_ok src -> len (text_bits lower src) = encode_bits src lower.
Proof.
  induction 1 as [|b src Hb Hbs IH]; [by destruct lower|]. cbn [encode_bits]. rewrite <- IH.
  set (x := if lower then _ else b). assert (is_u8 x) as Hx by (unfold x; destruct lower; [by apply lowercase_u8|done]).
  assert (text_bits lower (b :: src) = code_bits x ++ text_bits lower src) as -> by (unfold x; by destruct lower).
  rewrite len_app. f_equal. unfold code_bits. destruct (encode_entry x) as [n c] eqn:E.
  destruct (entry_range x n c Hx E). rewrite len_zbits. cbn. lia.
Qed.

Lemma output_length_spec lower src bs k : bytes_ok src -> (k < 8)%nat ->
  unpack bs = text_bits lower src ++ repeat true k -> encode_output_length src lower = len bs.
Proof.
  intros Hb Hk H. apply (f_equal len) in H. rewrite len_app, len_unpack, len_text, len_ones in H by done.
  unfold encode_output_length. change 7 with (Z.ones 3). rewrite Z.land_ones by lia. change (2 ^ 3) with 8.
  pose proof (Z.div_mod (encode_bits src lower) 8 ltac:(lia)). pose proof (Z.mod_pos_bound (encode_bits src lower) 8 ltac:(lia)).
  destruct (Z.eqb_spec (encode_bits src lower mod 8) 0); cbn [negb]; lia.
Qed.

Lemma walk_text lower src : bytes_ok src -> forall tail,
  walk [] (text_bits lower src ++ tail) =
  match walk [] tail with Some (out, p) => Some (folded lower src ++ out, p) | None => None end.
Proof.
  intros Hb tail. unfold text_bits. assert (bytes_ok (folded lower src)) as Hf.
  { unfold folded. destruct lower; [|done]. apply Forall_map. eapply Forall_impl; [exact Hb|]. apply lowercase_u8. }
  induction Hf as [|b l Hl Hls IH]; cbn; [by destruct (walk [] tail) as [[]|]|].
  rewrite <- app_assoc, walk_app. pose proof (all_octets _ codes_checked b Hl) as Hc. cbn beta in Hc.
  apply bool_decide_eq_true in Hc. rewrite Hc, IH. by destruct (walk [] tail) as [[]|].
Qed.

(** What is written is exactly as long as announced and decodes to the coded bytes. *)
Lemma encode_decodes lower src : bytes_ok src ->
  exists bs, writes (encode src lower) bs tt /\ bytes_ok bs /\ len bs = encode_output_length src lower /\
    decode bs = Ok (folded lower src).
Proof.
  intros Hb. destruct (encode_spec lower src Hb) as (bs & k & Hw & Hok & Hk & Hu). exists bs. split_and!; [done|done| |].
  - symmetry. by eapply output_length_spec.
  - rewrite decode_ref, Hu by done. unfold ref_decode. rewrite walk_text by done.
    pose proof padding_checked as Hp. rewrite forallb_forall in Hp.
    specialize (Hp k ltac:(apply in_seq; lia)). apply bool_decide_eq_true in Hp. rewrite Hp, app_nil_r.
    assert (padding (repeat true k) = true) as ->; [|done]. unfold padding. apply andb_true_iff. split.
    + apply forallb_forall. intros x Hx%repeat_spec. by subst.
    + rewrite len_ones. lia.
Qed.

(** Decoding what the encoder writes gives the string back (in lower case
    when the encoder was asked to lower it).  The encoder writes exactly the
    number of bytes [encode_output_length] announces, or reports that the
    buffer is too short. *)
Theorem huffman_roundtrip lower src buf :
  bytes_ok src ->
  exists bs, len bs = encode_output_length src lower /\
    run_enc (encode src lower) buf =
      (if len bs <=? len buf then Ok (len bs, bs ++ zdrop (len bs) buf) else Err BufferTooShort) /\
    decode bs = Ok (if lower then map to_ascii_lowercase src else src).
Proof.
  intros Hb. destruct (encode_decodes lower src Hb) as (bs & Hw & _ & Hl & Hd). exists bs. split_and!; [done| |done].
  by apply run_enc_spec.
Qed.

Lemma huffman_roundtrip_witness :
  exists bs, len bs = encode_output_length [65; 97; 66] true /\ decode bs = Ok [97; 97; 98].
Proof.
  assert (bytes_ok [65; 97; 66]) as H by (repeat constructor; unfold is_u8; lia).
  destruct (huffman_roundtrip true [65; 97; 66] (repeat 0 8) H) as (bs & Hl & _ & Hd). exists bs. split; [exact Hl|exact Hd].
Defined.
