(* ===== verification/StaticTable.v ===== *)
(** * The QPACK static table

    Models [src/src/h3/qpack/static_table.rs]: the table of predefined header
    fields sorted by name for the encoder and by index for the decoder, and the
    search by length and case-insensitive name. *)

From Stdlib Require Import String Ascii.
From S2P Require Import Prelude.
From S2P Require Import Http3.
From S2P Require Import Huffman.

(** A byte string literal. *)
Definition bytes (s : string) : list Z :=
  map (fun c => Z.of_nat (nat_of_ascii c)) (list_ascii_of_string s).
Arguments bytes s%_string_scope.

Definition STATIC_ENCODE_TABLE : list (list Z * list Z * Z) := Eval vm_compute in
  [
    (bytes ":authority", [], 0);
    (bytes ":method", bytes "CONNECT", 15);
    (bytes ":method", bytes "DELETE", 16);
    (bytes ":method", bytes "GET", 17);
    (bytes ":method", bytes "HEAD", 18);
    (bytes ":method", bytes "OPTIONS", 19);
    (bytes ":method", bytes "POST", 20);
    (bytes ":method", bytes "PUT", 21);
    (bytes ":path", bytes "/", 1);
    (bytes ":scheme", bytes "http", 22);
    (bytes ":scheme", bytes "https", 23);
    (bytes ":status", bytes "100", 63);
    (bytes ":status", bytes "103", 24);
    (bytes ":status", bytes "200", 25);
    (bytes ":status", bytes "204", 64);
    (bytes ":status", bytes "206", 65);
    (bytes ":status", bytes "302", 66);
    (bytes ":status", bytes "304", 26);
    (bytes ":status", bytes "400", 67);
    (bytes ":status", bytes "403", 68);
    (bytes ":status", bytes "404", 27);
    (bytes ":status", bytes "421", 69);
    (bytes ":status", bytes "425", 70);
    (bytes ":status", bytes "500", 71);
    (bytes ":status", bytes "503", 28);
    (bytes "accept", bytes "*/*", 29);
    (bytes "accept", bytes "application/dns-message", 30);
    (bytes "accept-encoding", bytes "gzip, deflate, br", 31);
    (bytes "accept-language", [], 72);
    (bytes "accept-ranges", bytes "bytes", 32);
    (bytes "access-control-allow-credentials", bytes "FALSE", 73);
    (bytes "access-control-allow-credentials", bytes "TRUE", 74);
    (bytes "access-control-allow-headers", bytes "*", 75);
    (bytes "access-control-allow-headers", bytes "cache-control", 33);
    (bytes "access-control-allow-headers", bytes "content-type", 34);
    (bytes "access-control-allow-methods", bytes "get", 76);
    (bytes "access-control-allow-methods", bytes "get, post, options", 77);
    (bytes "access-control-allow-methods", bytes "options", 78);
    (bytes "access-control-allow-origin", bytes "*", 35);
    (bytes "access-control-expose-headers", bytes "content-length", 79);
    (bytes "access-control-request-headers", bytes "content-type", 80);
    (bytes "access-control-request-method", bytes "get", 81);
    (bytes "access-control-request-method", bytes "post", 82);
    (bytes "age", bytes "0", 2);
    (bytes "alt-svc", bytes "clear", 83);
    (bytes "authorization", [], 84);
    (bytes "cache-control", bytes "max-age=0", 36);
    (bytes "cache-control", bytes "max-age=2592000", 37);
    (bytes "cache-control", bytes "max-age=604800", 38);
    (bytes "cache-control", bytes "no-cache", 39);
    (bytes "cache-control", bytes "no-store", 40);
    (bytes "cache-control", bytes "public, max-age=31536000", 41);
    (bytes "content-disposition", [], 3);
    (bytes "content-encoding", bytes "br", 42);
    (bytes "content-encoding", bytes "gzip", 43);
    (bytes "content-length", bytes "0", 4);
    (bytes "content-security-policy", bytes "script-src 'none'; object-src 'none'; base-uri 'none'", 85);
    (bytes "content-type", bytes "application/dns-message", 44);
    (bytes "content-type", bytes "application/javascript", 45);
    (bytes "content-type", bytes "application/json", 46);
    (bytes "content-type", bytes "application/x-www-form-urlencoded", 47);
    (bytes "content-type", bytes "image/gif", 48);
    (bytes "content-type", bytes "image/jpeg", 49);
    (bytes "content-type", bytes "image/png", 50);
    (bytes "content-type", bytes "text/css", 51);
    (bytes "content-type", bytes "text/html; charset=utf-8", 52);
    (bytes "content-type", bytes "text/plain", 53);
    (bytes "content-type", bytes "text/plain;charset=utf-8", 54);
    (bytes "cookie", [], 5);
    (bytes "date", [], 6);
    (bytes "early-data", bytes "1", 86);
    (bytes "etag", [], 7);
    (bytes "expect-ct", [], 87);
    (bytes "forwarded", [], 88);
    (bytes "if-modified-since", [], 8);
    (bytes "if-none-match", [], 9);
    (bytes "if-range", [], 89);
    (bytes "last-modified", [], 10);
    (bytes "link", [], 11);
    (bytes "location", [], 12);
    (bytes "origin", [], 90);
    (bytes "purpose", bytes "prefetch", 91);
    (bytes "range", bytes "bytes=0-", 55);
    (bytes "referer", [], 13);
    (bytes "server", [], 92);
    (bytes "set-cookie", [], 14);
    (bytes "strict-transport-security", bytes "max-age=31536000", 56);
    (bytes "strict-transport-security", bytes "max-age=31536000; includesubdomains", 57);
    (bytes "strict-transport-security", bytes "max-age=31536000; includesubdomains; preload", 58);
    (bytes "timing-allow-origin", bytes "*", 93);
    (bytes "upgrade-insecure-requests", bytes "1", 94);
    (bytes "user-agent", [], 95);
    (bytes "vary", bytes "accept-encoding", 59);
    (bytes "vary", bytes "origin", 60);
    (bytes "x-content-type-options", bytes "nosniff", 61);
    (bytes "x-forwarded-for", [], 96);
    (bytes "x-frame-options", bytes "deny", 97);
    (bytes "x-frame-options", bytes "sameorigin", 98);
    (bytes "x-xss-protection", bytes "1; mode=block", 62)].

Definition STATIC_DECODE_TABLE : list (list Z * list Z) := Eval vm_compute in
  [
    (bytes ":authority", []);
    (bytes ":path", bytes "/");
    (bytes "age", bytes "0");
    (bytes "content-disposition", []);
    (bytes "content-length", bytes "0");
    (bytes "cookie", []);
    (bytes "date", []);
    (bytes "etag", []);
    (bytes "if-modified-since", []);
    (bytes "if-none-match", []);
    (bytes "last-modified", []);
    (bytes "link", []);
    (bytes "location", []);
    (bytes "referer", []);
    (bytes "set-cookie", []);
    (bytes ":method", bytes "CONNECT");
    (bytes ":method", bytes "DELETE");
    (bytes ":method", bytes "GET");
    (bytes ":method", bytes "HEAD");
    (bytes ":method", bytes "OPTIONS");
    (bytes ":method", bytes "POST");
    (bytes ":method", bytes "PUT");
    (bytes ":scheme", bytes "http");
    (bytes ":scheme", bytes "https");
    (bytes ":status", bytes "103");
    (bytes ":status", bytes "200");
    (bytes ":status", bytes "304");
    (bytes ":status", bytes "404");
    (bytes ":status", bytes "503");
    (bytes "accept", bytes "*/*");
    (bytes "accept", bytes "application/dns-message");
    (bytes "accept-encoding", bytes "gzip, deflate, br");
    (bytes "accept-ranges", bytes "bytes");
    (bytes "access-control-allow-headers", bytes "cache-control");
    (bytes "access-control-allow-headers", bytes "content-type");
    (bytes "access-control-allow-origin", bytes "*");
    (bytes "cache-control", bytes "max-age=0");
    (bytes "cache-control", bytes "max-age=2592000");
    (bytes "cache-control", bytes "max-age=604800");
    (bytes "cache-control", bytes "no-cache");
    (bytes "cache-control", bytes "no-store");
    (bytes "cache-control", bytes "public, max-age=31536000");
    (bytes "content-encoding", bytes "br");
    (bytes "content-encoding", bytes "gzip");
    (bytes "content-type", bytes "application/dns-message");
    (bytes "content-type", bytes "application/javascript");
    (bytes "content-type", bytes "application/json");
    (bytes "content-type", bytes "application/x-www-form-urlencoded");
    (bytes "content-type", bytes "image/gif");
    (bytes "content-type", bytes "image/jpeg");
    (bytes "content-type", bytes "image/png");
    (bytes "content-type", bytes "text/css");
    (bytes "content-type", bytes "text/html; charset=utf-8");
    (bytes "content-type", bytes "text/plain");
    (bytes "content-type", bytes "text/plain;charset=utf-8");
    (bytes "range", bytes "bytes=0-");
    (bytes "strict-transport-security", bytes "max-age=31536000");
    (bytes "strict-transport-security", bytes "max-age=31536000; includesubdomains");
    (bytes "strict-transport-security", bytes "max-age=31536000; includesubdomains; preload");
    (bytes "vary", bytes "accept-encoding");
    (bytes "vary", bytes "origin");
    (bytes "x-content-type-options", bytes "nosniff");
    (bytes "x-xss-protection", bytes "1; mode=block");
    (bytes ":status", bytes "100");
    (bytes ":status", bytes "204");
    (bytes ":status", bytes "206");
    (bytes ":status", bytes "302");
    (bytes ":status", bytes "400");
    (bytes ":status", bytes "403");
    (bytes ":status", bytes "421");
    (bytes ":status", bytes "425");
    (bytes ":status", bytes "500");
    (bytes "accept-language", []);
    (bytes "access-control-allow-credentials", bytes "FALSE");
    (bytes "access-control-allow-credentials", bytes "TRUE");
    (bytes "access-control-allow-headers", bytes "*");
    (bytes "access-control-allow-methods", bytes "get");
    (bytes "access-control-allow-methods", bytes "get, post, options");
    (bytes "access-control-allow-methods", bytes "options");
    (bytes "access-control-expose-headers", bytes "content-length");
    (bytes "access-control-request-headers", bytes "content-type");
    (bytes "access-control-request-method", bytes "get");
    (bytes "access-control-request-method", bytes "post");
    (bytes "alt-svc", bytes "clear");
    (bytes "authorization", []);
    (bytes "content-security-policy", bytes "script-src 'none'; object-src 'none'; base-uri 'none'");
    (bytes "early-data", bytes "1");
    (bytes "expect-ct", []);
    (bytes "forwarded", []);
    (bytes "if-range", []);
    (bytes "origin", []);
    (bytes "purpose", bytes "prefetch");
    (bytes "server", []);
    (bytes "timing-allow-origin", bytes "*");
    (bytes "upgrade-insecure-requests", bytes "1");
    (bytes "user-agent", []);
    (bytes "x-forwarded-for", []);
    (bytes "x-frame-options", bytes "deny");
    (bytes "x-frame-options", bytes "sameorigin")].

Definition eq_ignore_ascii_case (a b : list Z) : bool :=
  bool_decide (map to_ascii_lowercase a = map to_ascii_lowercase b).

(** The first candidate that matches. *)
Fixpoint first_match (name : list Z) (cs : list (list Z * (Z * Z))) : option (Z * Z) :=
  match cs with
  | [] => None
  | (n, r) :: cs => if eq_ignore_ascii_case name n then Some r else first_match name cs
  end.

(** The arms of the [match] on the length: the names of that length in order, with
    their ranges in the encoder's table. *)
Definition RANGES : list (Z * list (list Z * (Z * Z))) := Eval vm_compute in
  [
    (3, [(bytes "age", (43, 44))]);
    (4, [(bytes "date", (69, 70)); (bytes "etag", (71, 72)); (bytes "link", (78, 79)); (bytes "vary", (92, 94))]);
    (5, [(bytes ":path", (8, 9)); (bytes "range", (82, 83))]);
    (6, [(bytes "accept", (25, 27)); (bytes "cookie", (68, 69)); (bytes "origin", (80, 81)); (bytes "server", (84, 85))]);
    (7, [(bytes ":method", (1, 8)); (bytes ":scheme", (9, 11)); (bytes ":status", (11, 25)); (bytes "alt-svc", (44, 45)); (bytes "purpose", (81, 82)); (bytes "referer", (83, 84))]);
    (8, [(bytes "if-range", (76, 77)); (bytes "location", (79, 80))]);
    (9, [(bytes "expect-ct", (72, 73)); (bytes "forwarded", (73, 74))]);
    (10, [(bytes ":authority", (0, 1)); (bytes "early-data", (70, 71)); (bytes "set-cookie", (85, 86)); (bytes "user-agent", (91, 92))]);
    (12, [(bytes "content-type", (57, 68))]);
    (13, [(bytes "accept-ranges", (29, 30)); (bytes "authorization", (45, 46)); (bytes "cache-control", (46, 52)); (bytes "if-none-match", (75, 76)); (bytes "last-modified", (77, 78))]);
    (14, [(bytes "content-length", (55, 56))]);
    (15, [(bytes "accept-encoding", (27, 28)); (bytes "accept-language", (28, 29)); (bytes "x-forwarded-for", (95, 96)); (bytes "x-frame-options", (96, 98))]);
    (16, [(bytes "content-encoding", (53, 55)); (bytes "x-xss-protection", (98, 99))]);
    (17, [(bytes "if-modified-since", (74, 75))]);
    (19, [(bytes "content-disposition", (52, 53)); (bytes "timing-allow-origin", (89, 90))]);
    (22, [(bytes "x-content-type-options", (94, 95))]);
    (23, [(bytes "content-security-policy", (56, 57))]);
    (25, [(bytes "strict-transport-security", (86, 89)); (bytes "upgrade-insecure-requests", (90, 91))]);
    (27, [(bytes "access-control-allow-origin", (38, 39))]);
    (28, [(bytes "access-control-allow-headers", (32, 35)); (bytes "access-control-allow-methods", (35, 38))]);
    (29, [(bytes "access-control-expose-headers", (39, 40)); (bytes "access-control-request-method", (41, 43))]);
    (30, [(bytes "access-control-request-headers", (40, 41))]);
    (32, [(bytes "access-control-allow-credentials", (30, 32))])].

Fixpoint arm (n : Z) (rs : list (Z * list (list Z * (Z * Z)))) : list (list Z * (Z * Z)) :=
  match rs with
  | [] => []
  | (k, cs) :: rs => if n =? k then cs else arm n rs
  end.

Definition find_static_table_range (name : list Z) : option (Z * Z) := first_match name (arm (len name) RANGES).

(** The loop over the range: [fuel] entries from [i] on. *)
Fixpoint scan (fuel : nat) (i : Z) (value : list Z) (name_match : option (Z * bool)) : option (Z * bool) :=
  match fuel with
  | O => name_match
  | S fuel =>
      let '(_, v, idx) := nth (Z.to_nat i) STATIC_ENCODE_TABLE ([], [], 0) in
      if bool_decide (v = []) then Some (idx, false)
      else if bool_decide (value = v) then Some (idx, true)
      else scan fuel (i + 1) value (match name_match with None => Some (idx, false) | m => m end)
  end.

Definition encode_static (h : Header) : option (Z * bool) :=
  match find_static_table_range h.1 with
  | Some (lo, hi) => scan (Z.to_nat (hi - lo)) lo h.2 None
  | None => None
  end.

Definition decode_static (idx : Z) : res3 (list Z * list Z) :=
  if len STATIC_DECODE_TABLE <=? idx then Err QpackDecompressionFailed
  else Ok (nth (Z.to_nat idx) STATIC_DECODE_TABLE ([], [])).

(** ** The two tables agree *)

(** Every entry of a range has the range's name, in lower case, and its index leads
    the decoder to the same field. *)
Definition entry_agrees (name : list Z) (i : Z) : bool :=
  let '(n, v, idx) := nth (Z.to_nat i) STATIC_ENCODE_TABLE ([], [], 0) in
  bool_decide (n = name) && bool_decide (map to_ascii_lowercase name = name) &&
  (0 <=? idx) && (idx <? 99) && bool_decide (nth (Z.to_nat idx) STATIC_DECODE_TABLE ([], []) = (n, v)).

Definition range_agrees (c : list Z * (Z * Z)) : bool :=
  let '(name, (lo, hi)) := c in
  (0 <=? lo) && forallb (fun k => entry_agrees name (lo + Z.of_nat k)) (seq 0 (Z.to_nat (hi - lo))).

Lemma tables_checked : forallb (fun '(_, cs) => forallb range_agrees cs) RANGES = true.
Proof. by vm_compute. Qed.

Lemma arm_checked n : forallb range_agrees (arm n RANGES) = true.
Proof.
  pose proof tables_checked as H. induction RANGES as [|[k cs] rs IH]; [done|]. cbn in *.
  apply andb_true_iff in H as [Hc Hr]. destruct (n =? k); auto.
Qed.

Lemma first_match_spec name cs r : first_match name cs = Some r ->
  exists n, In (n, r) cs /\ map to_ascii_lowercase name = map to_ascii_lowercase n.
Proof.
  induction cs as [|[n x] cs IH]; [done|]. cbn. unfold eq_ignore_ascii_case. case_bool_decide.
  - intros [= ->]. eauto.
  - intros (m & ? & ?)%IH. eauto.
Qed.

(** The field the encoder refers to, as the decoder will find it. *)
Definition refers (name value : list Z) (r : Z * bool) : Prop :=
  exists v, decode_static r.1 = Ok (name, v) /\ 0 <= r.1 < 99 /\ (r.2 = true -> v = value).

Lemma scan_spec fuel : forall i name value m r, 0 <= i ->
  forallb (fun k => entry_agrees name (i + Z.of_nat k)) (seq 0 fuel) = true ->
  (forall x, m = Some x -> refers name value x) -> scan fuel i value m = Some r -> refers name value r.
Proof.
  induction fuel as [|fuel IH]; intros i name value m r Hi Hall Hm; [auto|]. cbn [scan].
  cbn [seq forallb] in Hall. apply andb_true_iff in Hall as [H0 Hall]. rewrite Z.add_0_r in H0.
  unfold entry_agrees in H0. destruct (nth (Z.to_nat i) STATIC_ENCODE_TABLE _) as [[n v] idx].
  rewrite !andb_true_iff, !bool_decide_eq_true, Z.leb_le, Z.ltb_lt in H0. destruct H0 as ((((-> & Hlow) & Hlo) & Hhi) & Hd).
  assert (decode_static idx = Ok (name, v)) as Hdec.
  { unfold decode_static. rewrite Hd. destruct (Z.leb_spec (len STATIC_DECODE_TABLE) idx); [|done].
    change (len STATIC_DECODE_TABLE) with 99 in *. lia. }
  case_bool_decide as Hv; [intros [= <-]; exists v; done|].
  case_bool_decide as Hv'; [intros [= <-]; exists v; done|].
  apply IH; [lia| |].
  - rewrite forallb_forall in *. intros k Hk. replace (i + 1 + Z.of_nat k) with (i + Z.of_nat (S k)) by lia.
    apply Hall. rewrite in_seq in *. lia.
  - intros x. destruct m; intros Hx; [auto|]. simplify_eq. by exists v.
Qed.

Lemma encode_static_spec name value r : encode_static (name, value) = Some r ->
  refers (map to_ascii_lowercase name) value r.
Proof.
  unfold encode_static, find_static_table_range. cbn [fst snd].
  destruct (first_match name (arm (len name) RANGES)) as [[lo hi]|] eqn:E; [|done].
  apply first_match_spec in E as (n & Hin & Heq). pose proof (arm_checked (len name)) as Hc. rewrite forallb_forall in Hc.
  specialize (Hc _ Hin). unfold range_agrees in Hc. apply andb_true_iff in Hc as [?%Z.leb_le Hc]. intros Hs.
  rewrite Heq. assert (map to_ascii_lowercase n = n) as ->; [|eapply (scan_spec _ lo n value None); [done|exact Hc|done|exact Hs]].
  destruct (Z.to_nat (hi - lo)) as [|k]; [done|]. cbn [seq forallb] in Hc. apply andb_true_iff in Hc as [H0 _].
  unfold entry_agrees in H0. destruct (nth _ STATIC_ENCODE_TABLE _) as [[? ?] ?]. rewrite !andb_true_iff, !bool_decide_eq_true in H0.
  tauto.
Qed.
