(* ===== verification/Qpack.v ===== *)
(** * QPACK field sections

    Models [src/src/h3/qpack/qpack.rs]: the encoder and the decoder of lists of
    header fields.  Both use the static table only; the decoder refuses what
    refers to a dynamic table.  Every turn of the decoder's loop reads at least
    one octet, so the length of the input is enough fuel. *)

From stdpp Require Import strings.
From S2P Require Import Prelude.
From S2P Require Import Error.
From S2P Require Import Codec.
From S2P Require Import Wire.
From S2P Require Import Http3.
From S2P Require Import PrefixInt.
From S2P Require Import Huffman.
From S2P Require Import StaticTable.

Definition INDEXED : Z := 0x80.
Definition INDEXED_WITH_POST_BASE : Z := 0x10.
Definition LITERAL_WITH_NAME_REF : Z := 0x40.
Definition LITERAL_WITH_POST_BASE : Z := 0x00.
Definition LITERAL : Z := 0x20.

Inductive Representation :=
| Indexed | IndexedWithPostBase | LiteralWithNameRef | LiteralWithPostBase | Literal.

#[global] Instance Representation_eq_dec : EqDecision Representation.
Proof. solve_decision. Defined.

Definition representation (b : Z) : Representation :=
  if Z.land b INDEXED =? INDEXED then Indexed
  else if Z.land b LITERAL_WITH_NAME_REF =? LITERAL_WITH_NAME_REF then LiteralWithNameRef
  else if Z.land b LITERAL =? LITERAL then Literal
  else if Z.land b INDEXED_WITH_POST_BASE =? INDEXED_WITH_POST_BASE then IndexedWithPostBase
  else LiteralWithPostBase.

(** ** Encoder *)

Definition encode_str (v : list Z) (prefix : Z) : enc unit :=
  let l := encode_output_length v false in
  if l <? len v then encode_int l 0x80 prefix ;; Huffman.encode v false
  else encode_int (len v) 0 prefix ;; write v ;; mret tt.

Definition encode_header (hdr : Header) : enc unit :=
  match encode_static hdr with
  | Some (idx, true) => encode_int idx (Z.lor INDEXED 0x40) 6
  | Some (idx, false) =>
      encode_int idx (Z.lor LITERAL_WITH_NAME_REF 0x10) 4 ;;
      encode_str hdr.2 7
  | None =>
      let l := encode_output_length hdr.1 true in
      (if l <? len hdr.1 then
         encode_int l (Z.lor LITERAL 0x08) 3 ;;
         Huffman.encode hdr.1 true
       else
         encode_int (len hdr.1) LITERAL 3 ;;
         write (map to_ascii_lowercase hdr.1) ;; mret tt) ;;
      encode_str hdr.2 7
  end.

Fixpoint encode_headers (headers : list Header) : enc unit :=
  match headers with
  | [] => mret tt
  | hdr :: headers => encode_header hdr ;; encode_headers headers
  end.

(** Required Insert Count and Base, then the fields. *)
Definition put_headers (headers : list Header) : enc unit :=
  encode_int 0 0 8 ;; encode_int 0 0 7 ;; encode_headers headers.

(** The encoder has no error of its own: the codec's are converted. *)
Definition qpack_encode (headers : list Header) (out : list Z) : res3 (Z * list Z) :=
  h3 (run_enc (put_headers headers) out).

(** ** Decoder *)

Definition slice_from (off : Z) (buf : list Z) : res3 (list Z) :=
  if off <=? len buf then Ok (zdrop off buf) else Panic.

Definition first_of (buf : list Z) : res3 Z :=
  match buf with b :: _ => Ok b | [] => Panic end.

Definition decode_str (buf : list Z) : res3 (list Z * Z) :=
  match buf with
  | [] => Err QpackDecompressionFailed
  | first :: _ =>
      let buf_len := len buf in
      let huff := Z.land first 0x80 =? 0x80 in
      r ← decode_int buf 7;
      let '(str_len, off) := r in
      buf ← slice_from off buf;
      r ← h3 (read str_len buf);
      let '(str_val, buf) := r in
      val ← (if huff then Huffman.decode str_val else mret str_val);
      mret (val, buf_len - len buf)
  end.

(** [left.checked_sub((name.len() + value.len() + 32) as u64)] *)
Definition header_size (h : Header) : Z := len h.1 + len h.2 + 32.
Definition charge (left : Z) (h : Header) : res3 Z :=
  if header_size h <=? left then Ok (left - header_size h) else Err QpackDecompressionFailed.

(** One field line: the field and what is left of the input. *)
Definition decode_field (buf : list Z) : res3 (Header * list Z) :=
  first ← first_of buf;
  match representation first with
  | Indexed =>
      let static_idx := Z.land first 0x40 =? 0x40 in
      r ← decode_int buf 6;
      let '(index, off) := r in
      buf ← slice_from off buf;
      if negb static_idx then Err QpackDecompressionFailed
      else
        h ← decode_static index;
        mret (h, buf)
  | IndexedWithPostBase =>
      r ← decode_int buf 4;
      Err QpackDecompressionFailed
  | LiteralWithNameRef =>
      let static_idx := Z.land first 0x10 =? 0x10 in
      r ← decode_int buf 4;
      let '(name_idx, off) := r in
      buf ← slice_from off buf;
      r ← decode_str buf;
      let '(value, off) := r in
      buf ← slice_from off buf;
      if negb static_idx then Err QpackDecompressionFailed
      else
        h ← decode_static name_idx;
        mret ((h.1, value), buf)
  | LiteralWithPostBase => Err QpackDecompressionFailed
  | Literal =>
      let name_huff := Z.land first 0x08 =? 0x08 in
      r ← decode_int buf 3;
      let '(name_len, off) := r in
      buf ← slice_from off buf;
      r ← h3 (read name_len buf);
      let '(name, buf) := r in
      name ← (if name_huff then Huffman.decode name else mret name);
      r ← decode_str buf;
      let '(value, off) := r in
      buf ← slice_from off buf;
      mret ((name, value), buf)
  end.

Fixpoint decode_fields (fuel : nat) (buf : list Z) (left : Z) (out : list Header) : res3 (list Header * list Z) :=
  match buf with
  | [] => Ok (out, [])
  | _ =>
      match fuel with
      | O => Panic
      | S fuel =>
          r ← decode_field buf;
          let '(h, buf) := r in
          left ← charge left h;
          decode_fields fuel buf left (out ++ [h])
      end
  end.

Definition qpack_decode (buf : list Z) (max_size : Z) : res3 (list Header * Z) :=
  let buf_len := len buf in
  r ← decode_int buf 8;
  let '(_, off) := r in
  buf ← slice_from off buf;
  r ← decode_int buf 7;
  let '(_, off) := r in
  buf ← slice_from off buf;
  r ← decode_fields (length buf) buf max_size [];
  let '(out, buf) := r in
  mret (out, buf_len - len buf).

(** ** What is written is read back *)

Definition str_ok (v : list Z) : Prop := bytes_ok v /\ is_u64 (len v).

Lemma slice_prefix (a b : list Z) : slice_from (len a) (a ++ b) = Ok b.
Proof.
  unfold slice_from. rewrite len_app. pose proof (len_nonneg b). destruct (Z.leb_spec (len a) (len a + len b)); [|lia].
  by rewrite zdrop_app.
Qed.

Lemma read_prefix a b n : n = len a -> h3 (read n (a ++ b)) = Ok (a, b).
Proof. intros ->. by rewrite (reads_at (read (len a)) a a) by (by apply reads_read). Qed.

(** The first octet of an integer is its flags plus some low bits. *)
Lemma int_bytes_head i first n : is_u64 i -> flags_ok first n ->
  exists x tail, int_bytes i first n = (first + x) :: tail /\ 0 <= x < 2 ^ n.
Proof.
  intros Hi Hf. destruct (prefix_mask_range n) as [Hm Hm']; [apply Hf|]. unfold int_bytes, is_u64 in *.
  destruct (Z.ltb_spec i (prefix_mask n)); eexists _, _; (split; [reflexivity|lia]).
Qed.

Lemma int_bytes_pos i first n : is_u64 i -> flags_ok first n -> 0 < len (int_bytes i first n).
Proof.
  intros Hi Hf. destruct (int_bytes_head i first n Hi Hf) as (x & tail & -> & _). rewrite len_cons. pose proof (len_nonneg tail). lia.
Qed.

(** The octets between two bounds pass a test. *)
Lemma octets_between (p : Z -> bool) lo hi :
  forallb (fun b => implb ((lo <=? b) && (b <? hi)) (p b)) (map Z.of_nat (seq 0 256)) = true ->
  0 <= lo -> hi <= 256 -> forall b, lo <= b < hi -> p b = true.
Proof.
  intros H Hlo Hhi b Hb. pose proof (all_octets _ H b ltac:(lia)) as Hp. cbn beta in Hp.
  destruct (Z.leb_spec lo b), (Z.ltb_spec b hi); try lia. done.
Qed.

Lemma flags_dec first n : (1 <=? n) && (n <=? 8) && (0 <=? first) && (first <? 256) && (first mod 2 ^ n =? 0) = true ->
  flags_ok first n.
Proof. rewrite !andb_true_iff, !Z.leb_le, Z.ltb_lt, Z.eqb_eq. unfold flags_ok. lia. Qed.

(** A literal, plain or in Huffman code, behind an integer with the given flags. *)
Lemma literal_spec (v : list Z) (lower : bool) fh fp n : str_ok v -> flags_ok fh n -> flags_ok fp n ->
  exists i first text,
    writes (if encode_output_length v lower <? len v
            then encode_int (encode_output_length v lower) fh n ;; Huffman.encode v lower
            else encode_int (len v) fp n ;; write (folded lower v) ;; mret tt)
      (int_bytes i first n ++ text) tt /\
    is_u64 i /\ i = len text /\
    (first = fh /\ Huffman.decode text = Ok (folded lower v) \/ first = fp /\ text = folded lower v).
Proof.
  intros [Hb Hl] Hfh Hfp. destruct (encode_decodes lower v Hb) as (bs & Hw & _ & Hlen & Hd).
  destruct (Z.ltb_spec (encode_output_length v lower) (len v)).
  - assert (is_u64 (len bs)) as Hbs by (pose proof (len_nonneg bs); unfold is_u64 in *; lia).
    exists (len bs), fh, bs. rewrite <- Hlen. split_and!; [|done|done|by left].
    eapply writes_bind; [by apply writes_int|exact Hw].
  - assert (len (folded lower v) = len v) as Hlf by (destruct lower; cbn; [unfold len; by rewrite length_map|done]).
    exists (len v), fp, (folded lower v). split_and!; [|done|done|by right].
    eapply writes_bind; [by apply writes_int|]. rewrite <- (app_nil_r (folded lower v)) at 2.
    eapply writes_bind; [apply writes_write|apply writes_ret].
Qed.

Lemma str_spec v : str_ok v ->
  exists bs, writes (encode_str v 7) bs tt /\ forall rest, decode_str (bs ++ rest) = Ok (v, len bs).
Proof.
  intros Hv. destruct (literal_spec v false 0x80 0 7 Hv) as (i & first & text & Hw & Hi & Hlen & Hor); [by apply flags_dec..|].
  exists (int_bytes i first 7 ++ text). split; [exact Hw|]. intros rest.
  assert (flags_ok first 7) as Hf by (destruct Hor as [[-> _]|[-> _]]; by apply flags_dec).
  rewrite <- app_assoc. destruct (int_bytes_head i first 7 Hi Hf) as (x & tail & Hh & Hx).
  unfold decode_str. rewrite Hh at 1. cbn [app]. rewrite decode_int_ok by done. cbn [mbind outcome_bind].
  rewrite slice_prefix. cbn [mbind outcome_bind]. rewrite read_prefix by done. cbn [mbind outcome_bind].
  assert ((Z.land (first + x) 128 =? 128) = (first =? 128)) as ->.
  { destruct Hor as [[-> _]|[-> _]].
    - apply (octets_between (fun b => Z.land b 128 =? 128) 128 256); [by vm_compute|lia..].
    - apply negb_true_iff. apply (octets_between (fun b => negb (Z.land b 128 =? 128)) 0 128); [by vm_compute|lia..]. }
  rewrite !len_app. replace (len (int_bytes i first 7) + (len text + len rest) - len rest) with (len (int_bytes i first 7) + len text) by lia.
  destruct Hor as [[-> ->]|[-> ->]]; done.
Qed.

(** The field as a decoder reports it: names are sent in lower case. *)
Definition lowered (h : Header) : Header := (map to_ascii_lowercase h.1, h.2).
Definition header_ok (h : Header) : Prop := str_ok h.1 /\ str_ok h.2.

(** A field line starts with the octet its first integer starts with. *)
Lemma first_int i first n tail : is_u64 i -> flags_ok first n ->
  exists x, first_of (int_bytes i first n ++ tail) = Ok (first + x) /\ 0 <= x < 2 ^ n.
Proof. intros Hi Hf. destruct (int_bytes_head i first n Hi Hf) as (x & t & -> & Hx). by exists x. Qed.

Lemma field_indexed idx h rest : decode_static idx = Ok h -> 0 <= idx < 99 ->
  decode_field (int_bytes idx 0xc0 6 ++ rest) = Ok (h, rest).
Proof.
  intros Hd Hi. assert (is_u64 idx) as Hu by (unfold is_u64; lia). assert (flags_ok 0xc0 6) as Hf by (by apply flags_dec).
  destruct (first_int idx 0xc0 6 rest Hu Hf) as (x & E & Hx). unfold decode_field. rewrite E. cbn [mbind outcome_bind].
  pose proof (octets_between (fun b => bool_decide (representation b = Indexed) && (Z.land b 0x40 =? 0x40)) 0xc0 256
    ltac:(by vm_compute) ltac:(lia) ltac:(lia) (192 + x) ltac:(lia)) as H.
  apply andb_true_iff in H as [H1%bool_decide_eq_true H2]. rewrite H1, H2, decode_int_ok by done. cbn [mbind outcome_bind].
  rewrite slice_prefix. cbn [mbind outcome_bind negb]. by rewrite Hd.
Qed.

Lemma field_name_ref idx name v bs value rest : decode_static idx = Ok (name, v) -> 0 <= idx < 99 ->
  decode_str (bs ++ rest) = Ok (value, len bs) ->
  decode_field ((int_bytes idx 0x50 4 ++ bs) ++ rest) = Ok ((name, value), rest).
Proof.
  intros Hd Hi Hs. assert (is_u64 idx) as Hu by (unfold is_u64; lia). assert (flags_ok 0x50 4) as Hf by (by apply flags_dec).
  rewrite <- app_assoc. destruct (first_int idx 0x50 4 (bs ++ rest) Hu Hf) as (x & E & Hx).
  unfold decode_field. rewrite E. cbn [mbind outcome_bind].
  pose proof (octets_between (fun b => bool_decide (representation b = LiteralWithNameRef) && (Z.land b 0x10 =? 0x10)) 0x50 0x60
    ltac:(by vm_compute) ltac:(lia) ltac:(lia) (80 + x) ltac:(lia)) as H.
  apply andb_true_iff in H as [H1%bool_decide_eq_true H2]. rewrite H1, H2, decode_int_ok by done. cbn [mbind outcome_bind].
  rewrite slice_prefix. cbn [mbind outcome_bind]. rewrite Hs. cbn [mbind outcome_bind].
  rewrite slice_prefix. cbn [mbind outcome_bind negb]. by rewrite Hd.
Qed.

Lemma field_literal i first text name bs value rest :
  is_u64 i -> i = len text ->
  (first = 0x28 /\ Huffman.decode text = Ok name \/ first = 0x20 /\ text = name) ->
  decode_str (bs ++ rest) = Ok (value, len bs) ->
  decode_field (((int_bytes i first 3 ++ text) ++ bs) ++ rest) = Ok ((name, value), rest).
Proof.
  intros Hu Hlen Hor Hs. assert (flags_ok first 3) as Hf by (destruct Hor as [[-> _]|[-> _]]; by apply flags_dec).
  rewrite <- !app_assoc. destruct (first_int i first 3 (text ++ bs ++ rest) Hu Hf) as (x & E & Hx).
  unfold decode_field. rewrite E. cbn [mbind outcome_bind].
  assert (representation (first + x) = Literal /\ (Z.land (first + x) 0x08 =? 0x08) = (first =? 0x28)) as [H1 H2].
  { destruct Hor as [[-> _]|[-> _]].
    - pose proof (octets_between (fun b => bool_decide (representation b = Literal) && (Z.land b 0x08 =? 0x08)) 0x28 0x30
        ltac:(by vm_compute) ltac:(lia) ltac:(lia) (40 + x) ltac:(lia)) as H.
      apply andb_true_iff in H as [H1%bool_decide_eq_true H2]. done.
    - pose proof (octets_between (fun b => bool_decide (representation b = Literal) && negb (Z.land b 0x08 =? 0x08)) 0x20 0x28
        ltac:(by vm_compute) ltac:(lia) ltac:(lia) (32 + x) ltac:(lia)) as H.
      apply andb_true_iff in H as [H1%bool_decide_eq_true H2%negb_true_iff]. done. }
  rewrite H1, H2, decode_int_ok by done. cbn [mbind outcome_bind]. rewrite slice_prefix. cbn [mbind outcome_bind].
  rewrite read_prefix by done. cbn [mbind outcome_bind].
  assert ((if first =? 40 then Huffman.decode text else mret text) = Ok name) as -> by (destruct Hor as [[-> ?]|[-> ->]]; done).
  cbn [mbind outcome_bind]. rewrite Hs. cbn [mbind outcome_bind]. rewrite slice_prefix. done.
Qed.

Lemma field_spec h : header_ok h ->
  exists bs, writes (encode_header h) bs tt /\ 0 < len bs /\ forall rest, decode_field (bs ++ rest) = Ok (lowered h, rest).
Proof.
  intros [Hn Hv]. destruct h as [name value]. cbn [fst snd] in *. unfold encode_header, lowered. cbn [fst snd].
  destruct (str_spec value Hv) as (vs & Hwv & Hdv).
  destruct (encode_static (name, value)) as [[idx full]|] eqn:E.
  - apply encode_static_spec in E as (v & Hd & Hi & Hfull). cbn [fst snd] in *.
    assert (is_u64 idx) as Hu by (unfold is_u64; lia). destruct full.
    + exists (int_bytes idx 0xc0 6). split_and!; [apply writes_int|apply int_bytes_pos|]; try done; try (by apply flags_dec).
      intros rest. rewrite (field_indexed idx _ rest Hd Hi). by rewrite Hfull.
    + exists (int_bytes idx 0x50 4 ++ vs). split_and!.
      * eapply writes_bind; [apply writes_int; [done|by apply flags_dec]|exact Hwv].
      * rewrite len_app. pose proof (len_nonneg vs). pose proof (int_bytes_pos idx 0x50 4 Hu ltac:(by apply flags_dec)). lia.
      * intros rest. by apply (field_name_ref idx _ v).
  - destruct (literal_spec name true 0x28 0x20 3 Hn) as (i & first & text & Hw & Hi & Hlen & Hor); [by apply flags_dec..|].
    assert (flags_ok first 3) as Hf by (destruct Hor as [[-> _]|[-> _]]; by apply flags_dec).
    exists ((int_bytes i first 3 ++ text) ++ vs). split_and!.
    + eapply writes_bind; [exact Hw|exact Hwv].
    + rewrite !len_app. pose proof (len_nonneg vs). pose proof (len_nonneg text). pose proof (int_bytes_pos i first 3 Hi Hf). lia.
    + intros rest. by apply field_literal.
Qed.

Definition total_size (hs : list Header) : Z := foldr (fun h n => header_size h + n) 0 hs.

Lemma header_size_lowered h : header_size (lowered h) = header_size h.
Proof. unfold header_size, lowered, len. cbn. by rewrite length_map. Qed.

Lemma header_size_pos h : 0 < header_size h.
Proof. unfold header_size. pose proof (len_nonneg h.1). pose proof (len_nonneg h.2). lia. Qed.

Lemma total_size_nonneg hs : 0 <= total_size hs.
Proof.
  induction hs as [|h hs IH]; [done|]. change (total_size (h :: hs)) with (header_size h + total_size hs).
  pose proof (header_size_pos h). lia.
Qed.

Lemma fields_spec hs : Forall header_ok hs ->
  exists bs, writes (encode_headers hs) bs tt /\
    forall fuel left out, (length bs <= fuel)%nat -> 0 <= left ->
      decode_fields fuel bs left out =
        if total_size hs <=? left then Ok (out ++ map lowered hs, []) else Err QpackDecompressionFailed.
Proof.
  induction 1 as [|h hs Hh Hhs IH].
  { exists []. split; [apply writes_ret|]. intros fuel left out _ Hl. cbn [total_size foldr map].
    destruct (Z.leb_spec 0 left); [|lia]. rewrite app_nil_r. by destruct fuel. }
  destruct (field_spec h Hh) as (b1 & Hw1 & Hp & Hd1), IH as (b2 & Hw2 & Hd2).
  exists (b1 ++ b2). split; [eapply writes_bind; [exact Hw1|exact Hw2]|]. intros fuel left out Hf Hl.
  rewrite length_app in Hf. destruct fuel as [|fuel]; [unfold len in Hp; lia|]. destruct b1 as [|x b1]; [done|].
  cbn [decode_fields app]. change (x :: b1 ++ b2) with ((x :: b1) ++ b2). rewrite Hd1. cbn [mbind outcome_bind].
  unfold charge. rewrite header_size_lowered. cbn [total_size foldr]. fold (total_size hs).
  pose proof (total_size_nonneg hs). pose proof (header_size_pos h).
  destruct (Z.leb_spec (header_size h) left); cbn [mbind outcome_bind].
  - cbn [length] in Hf. rewrite Hd2 by lia. destruct (Z.leb_spec (total_size hs) (left - header_size h)),
      (Z.leb_spec (header_size h + total_size hs) left); try lia; [|done]. by rewrite <- app_assoc.
  - destruct (Z.leb_spec (header_size h + total_size hs) left); [lia|done].
Qed.

(** C31.  Decoding an encoded field section gives the list of headers back, the
    names in lower case, provided the list is within the size the decoder
    allows; otherwise the decoder refuses it.  The encoder either writes the
    whole section or reports that the buffer is too short. *)
Theorem qpack_roundtrip hs out max_size :
  Forall header_ok hs -> 0 <= max_size ->
  exists bs,
    qpack_encode hs out =
      (if len bs <=? len out then Ok (len bs, bs ++ zdrop (len bs) out) else Err (TransportError BufferTooShort)) /\
    qpack_decode bs max_size =
      (if total_size hs <=? max_size then Ok (map lowered hs, len bs) else Err QpackDecompressionFailed).
Proof.
  intros Hh Hm. destruct (fields_spec hs Hh) as (bs & Hw & Hd).
  assert (is_u64 0) as H0 by (unfold is_u64; lia).
  assert (flags_ok 0 8) as F8 by (by apply flags_dec). assert (flags_ok 0 7) as F7 by (by apply flags_dec).
  exists (int_bytes 0 0 8 ++ int_bytes 0 0 7 ++ bs). split.
  - unfold qpack_encode. rewrite (run_enc_spec _ (int_bytes 0 0 8 ++ int_bytes 0 0 7 ++ bs)); [by destruct (_ <=? _)|].
    unfold put_headers. eapply writes_bind; [by apply writes_int|].
    eapply writes_bind; [by apply writes_int|exact Hw].
  - unfold qpack_decode. rewrite decode_int_ok by assumption. cbn [mbind outcome_bind].
    rewrite slice_prefix. cbn [mbind outcome_bind]. rewrite decode_int_ok by assumption. cbn [mbind outcome_bind].
    rewrite slice_prefix. cbn [mbind outcome_bind]. rewrite Hd by (assumption || lia).
    destruct (total_size hs <=? max_size); [|done]. cbn [mbind outcome_bind app].
    rewrite (@len_nil Z), Z.sub_0_r. reflexivity.
Qed.

Lemma qpack_roundtrip_witness :
  exists bs, qpack_decode bs 1000 = Ok ([(bytes ":path", bytes "/x"); (bytes "x-proto", bytes "QUIC")], len bs).
Proof.
  assert (forall v, forallb (fun b => (0 <=? b) && (b <? 256)) v = true -> len v < 100 -> str_ok v) as Hok.
  { intros v Hv Hl. split; [|pose proof (len_nonneg v); unfold is_u64; lia].
    apply Forall_forall. intros b Hb%list_elem_of_In. rewrite forallb_forall in Hv. specialize (Hv b Hb).
    apply andb_true_iff in Hv as [?%Z.leb_le ?%Z.ltb_lt]. unfold is_u8. lia. }
  destruct (qpack_roundtrip [(bytes ":Path", bytes "/x"); (bytes "X-Proto", bytes "QUIC")] (repeat 0 100) 1000) as (bs & _ & H).
  - repeat (apply Forall_cons; split; [split; apply Hok; by vm_compute|]). by apply Forall_nil.
  - lia.
  - exists bs. exact H.
Defined.

(** ** Any input *)

Lemma slice_from_ok buf off : 0 <= off <= len buf -> slice_from off buf = Ok (zdrop off buf).
Proof. intros H. unfold slice_from. by destruct (Z.leb_spec off (len buf)); [|lia]. Qed.

Lemma read_total buf n : bytes_ok buf -> 0 <= n ->
  match h3 (read n buf) with
  | Ok (v, rest) => bytes_ok v /\ bytes_ok rest /\ len rest <= len buf
  | Err _ => True
  | Panic => False
  end.
Proof.
  intros Hb Hn. pose proof (safe_read n Hn buf Hb) as H. destruct (read n buf) as [[v rest]| |]; [|done..].
  destruct H as [[_ Hv] [pre ->]]. apply bytes_ok_app in Hb as [_ Hr]. rewrite len_app. pose proof (len_nonneg pre). cbn. split_and!; [done|done|lia].
Qed.

Lemma huffman_total (v : list Z) : bytes_ok v -> match Huffman.decode v with Panic => False | _ => True end.
Proof. intros Hv. rewrite decode_ref by done. by destruct (ref_decode _). Qed.

Lemma decode_str_total buf : bytes_ok buf ->
  match decode_str buf with
  | Ok (_, off) => 0 < off <= len buf
  | Err _ => True
  | Panic => False
  end.
Proof.
  intros Hb. unfold decode_str. destruct buf as [|b buf']; [done|]. set (buf := b :: buf') in *.
  pose proof (decode_int_total buf 7 Hb ltac:(lia)) as H. destruct (decode_int buf 7) as [[n off]| |]; [|done..].
  destruct H as [Hn Ho]. cbn [mbind outcome_bind]. rewrite slice_from_ok by lia. cbn [mbind outcome_bind].
  pose proof (read_total (zdrop off buf) n ltac:(by apply bytes_ok_zdrop) ltac:(apply Hn)) as Hr.
  destruct (h3 (read n (zdrop off buf))) as [[v rest]| |]; [|done..]. destruct Hr as (Hv & _ & Hl). cbn [mbind outcome_bind].
  rewrite len_zdrop in Hl by lia. pose proof (len_nonneg rest).
  assert (match (if Z.land b 128 =? 128 then Huffman.decode v else mret v) with Panic => False | _ => True end) as Hh
    by (destruct (_ =? _); [by apply huffman_total|done]).
  destruct (if Z.land b 128 =? 128 then Huffman.decode v else mret v) as [x| |]; [|done..]. cbn [mbind outcome_bind mret outcome_ret]. lia.
Qed.

Lemma decode_static_total idx : match decode_static idx with Panic => False | _ => True end.
Proof. unfold decode_static. by destruct (_ <=? _). Qed.

Lemma decode_field_total buf : bytes_ok buf -> buf <> [] ->
  match decode_field buf with
  | Ok (_, rest) => bytes_ok rest /\ len rest < len buf
  | Err _ => True
  | Panic => False
  end.
Proof.
  intros Hb Hne. unfold decode_field. destruct buf as [|b buf']; [done|]. set (buf := b :: buf') in *.
  change (first_of buf) with (Ok (E := Http3Error) b). cbn [mbind outcome_bind].
  assert (forall n, 1 <= n <= 8 -> match decode_int buf n with
    | Ok (v, off) => is_u64 v /\ slice_from off buf = Ok (zdrop off buf) /\ bytes_ok (zdrop off buf) /\ len (zdrop off buf) < len buf
    | Err _ => True | Panic => False end) as Hint.
  { intros n Hn. pose proof (decode_int_total buf n Hb Hn) as H. destruct (decode_int buf n) as [[v off]| |]; [|done..].
    destruct H as [Hv Ho]. split_and!; [done|apply slice_from_ok; lia|by apply bytes_ok_zdrop|rewrite len_zdrop; lia]. }
  assert (forall t, bytes_ok t -> match decode_str t with
    | Ok (_, off) => slice_from off t = Ok (zdrop off t) /\ bytes_ok (zdrop off t) /\ len (zdrop off t) <= len t
    | Err _ => True | Panic => False end) as Hstr.
  { intros t Ht. pose proof (decode_str_total t Ht) as H. destruct (decode_str t) as [[v off]| |]; [|done..].
    split_and!; [apply slice_from_ok; lia|by apply bytes_ok_zdrop|rewrite len_zdrop; lia]. }
  destruct (representation b).
  - pose proof (Hint 6 ltac:(lia)) as H. destruct (decode_int buf 6) as [[v off]| |]; [|done..].
    destruct H as (_ & E & Hz & Hl). cbn [mbind outcome_bind]. rewrite E. cbn [mbind outcome_bind].
    destruct (negb _); [done|]. pose proof (decode_static_total v). by destruct (decode_static v).
  - pose proof (Hint 4 ltac:(lia)) as H. by destruct (decode_int buf 4) as [[v off]| |].
  - pose proof (Hint 4 ltac:(lia)) as H. destruct (decode_int buf 4) as [[v off]| |]; [|done..].
    destruct H as (_ & E & Hz & Hl). cbn [mbind outcome_bind]. rewrite E. cbn [mbind outcome_bind].
    pose proof (Hstr _ Hz) as H. destruct (decode_str (zdrop off buf)) as [[s off2]| |]; [|done..].
    destruct H as (E2 & Hz2 & Hl2). cbn [mbind outcome_bind]. rewrite E2. cbn [mbind outcome_bind].
    destruct (negb _); [done|]. pose proof (decode_static_total v). destruct (decode_static v); [|done..]. cbn. split; [done|lia].
  - done.
  - pose proof (Hint 3 ltac:(lia)) as H. destruct (decode_int buf 3) as [[v off]| |]; [|done..].
    destruct H as (Hv & E & Hz & Hl). cbn [mbind outcome_bind]. rewrite E. cbn [mbind outcome_bind].
    pose proof (read_total _ v Hz ltac:(apply Hv)) as Hr. destruct (h3 (read v (zdrop off buf))) as [[nm rest]| |]; [|done..].
    destruct Hr as (Hnm & Hrest & Hlr). cbn [mbind outcome_bind].
    assert (match (if Z.land b 8 =? 8 then Huffman.decode nm else mret nm) with Panic => False | _ => True end) as Hh
      by (destruct (_ =? _); [by apply huffman_total|done]).
    destruct (if Z.land b 8 =? 8 then Huffman.decode nm else mret nm) as [x| |]; [|done..]. cbn [mbind outcome_bind].
    pose proof (Hstr _ Hrest) as H. destruct (decode_str rest) as [[s off2]| |]; [|done..].
    destruct H as (E2 & Hz2 & Hl2). cbn [mbind outcome_bind]. rewrite E2. cbn. split; [done|lia].
Qed.

Lemma decode_fields_total fuel : forall buf left out, bytes_ok buf -> (length buf <= fuel)%nat -> 0 <= left ->
  match decode_fields fuel buf left out with
  | Ok (hs, rest) => rest = [] /\ exists new, hs = out ++ new /\ total_size new <= left
  | Err _ => True
  | Panic => False
  end.
Proof.
  induction fuel as [|fuel IH]; intros [|b buf] left out Hb Hf Hl; cbn [decode_fields]; cbn [length] in Hf; try lia;
    try (split; [done|]; exists []; by rewrite app_nil_r).
  pose proof (decode_field_total (b :: buf) Hb ltac:(done)) as H.
  destruct (decode_field (b :: buf)) as [[h rest]| |]; [|done..]. destruct H as [Hr Hlr]. cbn [mbind outcome_bind].
  unfold charge. destruct (Z.leb_spec (header_size h) left); [|done]. cbn [mbind outcome_bind].
  specialize (IH rest (left - header_size h) (out ++ [h]) Hr). rewrite len_cons in Hlr. unfold len in Hlr.
  specialize (IH ltac:(lia) ltac:(lia)). destruct (decode_fields fuel rest _ _) as [[hs r]| |]; [|done..].
  destruct IH as [-> (new & -> & Hn)]. split; [done|]. exists (h :: new). rewrite <- app_assoc. split; [done|].
  change (total_size (h :: new)) with (header_size h + total_size new). lia.
Qed.

(** C32.  On any bytes the decoder of field sections terminates without a panic;
    when it accepts, it has consumed the whole section and the headers it
    returns are within the size limit. *)
Theorem qpack_decode_total buf max_size :
  bytes_ok buf -> 0 <= max_size ->
  match qpack_decode buf max_size with
  | Ok (hs, n) => n = len buf /\ total_size hs <= max_size
  | Err _ => True
  | Panic => False
  end.
Proof.
  intros Hb Hm. unfold qpack_decode. pose proof (decode_int_total buf 8 Hb ltac:(lia)) as H1.
  destruct (decode_int buf 8) as [[v off]| |]; [|done..]. destruct H1 as [_ H1]. cbn [mbind outcome_bind].
  rewrite slice_from_ok by lia. cbn [mbind outcome_bind].
  pose proof (decode_int_total (zdrop off buf) 7 ltac:(by apply bytes_ok_zdrop) ltac:(lia)) as H2.
  destruct (decode_int (zdrop off buf) 7) as [[v2 off2]| |]; [|done..]. destruct H2 as [_ H2]. cbn [mbind outcome_bind].
  rewrite slice_from_ok by lia. cbn [mbind outcome_bind]. set (rest := zdrop off2 (zdrop off buf)).
  pose proof (decode_fields_total (length rest) rest max_size []) as H.
  destruct (decode_fields (length rest) rest max_size []) as [[hs r]| |].
  - destruct H as [-> (new & -> & Hn)]; [by do 2 apply bytes_ok_zdrop|done|done|]. cbn. rewrite (@len_nil Z). split; [lia|done].
  - done.
  - apply H; [by do 2 apply bytes_ok_zdrop|done|done].
Qed.

Lemma qpack_decode_total_witness :
  bytes_ok [0; 0; 0xd1; 0xd7] /\
  match qpack_decode [0; 0; 0xd1; 0xd7] 100 with
  | Ok (hs, n) => n = 4 /\ total_size hs <= 100
  | _ => False
  end.
Proof.
  assert (bytes_ok [0; 0; 0xd1; 0xd7]) as H by (repeat constructor; unfold is_u8; lia).
  split; [exact H|]. pose proof (qpack_decode_total [0; 0; 0xd1; 0xd7] 100 H ltac:(lia)) as HT.
  destruct (qpack_decode [0; 0; 0xd1; 0xd7] 100) as [[hs n]|e|] eqn:E; [exact HT|vm_compute in E; discriminate E|exact HT].
Defined.
