(* ===== verification/H3Frame.v ===== *)
(** * HTTP/3 frames

    Models [src/src/h3/frame.rs].  A frame is a type, a length and a payload; the
    decoder of a payload gets the length that was announced and the bytes that
    were collected. *)

From S2P Require Import Prelude.
From S2P Require Import Error.
From S2P Require Import Codec.
From S2P Require Import Wire.
From S2P Require Import Http3.

Definition DATA_FRAME_TYPE : Z := 0x0.
Definition HEADERS_FRAME_TYPE : Z := 0x1.
Definition CANCEL_PUSH_FRAME_TYPE : Z := 0x3.
Definition SETTINGS_FRAME_TYPE : Z := 0x4.
Definition PUSH_PROMISE_FRAME_TYPE : Z := 0x5.
Definition GOAWAY_FRAME_TYPE : Z := 0x7.
Definition MAX_PUSH_ID_FRAME_TYPE : Z := 0xD.
Definition PRIORITY_UPDATE_FRAME_REQUEST_TYPE : Z := 0xF0700.
Definition PRIORITY_UPDATE_FRAME_PUSH_TYPE : Z := 0xF0701.

Definition SETTINGS_QPACK_MAX_TABLE_CAPACITY : Z := 0x1.
Definition SETTINGS_MAX_FIELD_SECTION_SIZE : Z := 0x6.
Definition SETTINGS_QPACK_BLOCKED_STREAMS : Z := 0x7.
Definition SETTINGS_ENABLE_CONNECT_PROTOCOL : Z := 0x8.

Definition MAX_SETTINGS_PAYLOAD_SIZE : Z := 256.

Inductive Http3Frame :=
| Data (data : list Z)
| Headers (field_section : list Z)
| CancelPush (push_id : Z)
| Settings (max_field_section_size qpack_max_table_capacity qpack_blocked_streams
            connect_protocol_enabled : option Z) (raw : option (list (Z * Z)))
| PushPromise (push_id : Z) (field_section : list Z)
| GoAway (id : Z)
| MaxPushId (push_id : Z)
| PriorityUpdateRequest (prioritized_element_id : Z) (priority_field_value : list Z)
| PriorityUpdatePush (prioritized_element_id : Z) (priority_field_value : list Z)
| Unknown (raw_type payload_length : Z).

(** ** Encoding *)

Definition setting_len (id : Z) (v : option Z) : res Z :=
  match v with
  | Some v => a ← encode_varint_len id; b ← encode_varint_len v; mret (a + b)
  | None => mret 0
  end.
Definition put_setting (id : Z) (v : option Z) : enc unit :=
  match v with
  | Some v => write_varint id ;; write_varint v ;; mret tt
  | None => mret tt
  end.

Definition encode_settings_frame (mfs cap blocked connect : option Z) : enc unit :=
  a ← clift (setting_len SETTINGS_MAX_FIELD_SECTION_SIZE mfs);
  b ← clift (setting_len SETTINGS_QPACK_MAX_TABLE_CAPACITY cap);
  c ← clift (setting_len SETTINGS_QPACK_BLOCKED_STREAMS blocked);
  d ← clift (setting_len SETTINGS_ENABLE_CONNECT_PROTOCOL connect);
  write_varint SETTINGS_FRAME_TYPE ;;
  write_varint (a + b + c + d) ;;
  put_setting SETTINGS_MAX_FIELD_SECTION_SIZE mfs ;;
  put_setting SETTINGS_QPACK_MAX_TABLE_CAPACITY cap ;;
  put_setting SETTINGS_QPACK_BLOCKED_STREAMS blocked ;;
  put_setting SETTINGS_ENABLE_CONNECT_PROTOCOL connect.

(** A frame of raw bytes, of one integer, and of an integer followed by bytes. *)
Definition put_bytes (t : Z) (bs : list Z) : enc unit :=
  write_varint t ;; write_varint (len bs) ;; write bs ;; mret tt.
Definition put_int (t n : Z) : enc unit :=
  write_varint t ;; l ← clift (encode_varint_len n); write_varint l ;; write_varint n ;; mret tt.
Definition put_int_bytes (t n : Z) (bs : list Z) : enc unit :=
  l ← clift (encode_varint_len n);
  write_varint t ;; write_varint (l + len bs) ;; write_varint n ;; write bs ;; mret tt.

Definition put_h3_frame (f : Http3Frame) : enc unit :=
  match f with
  | Data data => put_bytes DATA_FRAME_TYPE data
  | Headers fs => put_bytes HEADERS_FRAME_TYPE fs
  | CancelPush n => put_int CANCEL_PUSH_FRAME_TYPE n
  | Settings a b c d _ => encode_settings_frame a b c d
  | PushPromise n fs => put_int_bytes PUSH_PROMISE_FRAME_TYPE n fs
  | GoAway n => put_int GOAWAY_FRAME_TYPE n
  | MaxPushId n => put_int MAX_PUSH_ID_FRAME_TYPE n
  | PriorityUpdateRequest n v => put_int_bytes PRIORITY_UPDATE_FRAME_REQUEST_TYPE n v
  | PriorityUpdatePush n v => put_int_bytes PRIORITY_UPDATE_FRAME_PUSH_TYPE n v
  | Unknown _ _ => cpanic
  end.

Definition h3_encode (f : Http3Frame) (b : list Z) : res3 (Z * list Z) := h3 (run_enc (put_h3_frame f) b).

(** ** Decoding *)

(** The known settings seen so far. *)
Record settings := mkSettings {
  s_mfs : option Z; s_cap : option Z; s_blocked : option Z; s_connect : option Z; s_raw : list (Z * Z) }.

Definition add_setting (id v : Z) (s : settings) : res3 settings :=
  let s := mkSettings (s_mfs s) (s_cap s) (s_blocked s) (s_connect s) (s_raw s ++ [(id, v)]) in
  match id with
  | 0x6 => Ok (mkSettings (Some v) (s_cap s) (s_blocked s) (s_connect s) (s_raw s))
  | 0x1 => Ok (mkSettings (s_mfs s) (Some v) (s_blocked s) (s_connect s) (s_raw s))
  | 0x7 => Ok (mkSettings (s_mfs s) (s_cap s) (Some v) (s_connect s) (s_raw s))
  | 0x8 =>
      if 1 <? v then Err SettingsError
      else Ok (mkSettings (s_mfs s) (s_cap s) (s_blocked s) (Some v) (s_raw s))
  | 0x0 | 0x2 | 0x3 | 0x4 | 0x5 => Err SettingsError
  | _ => Ok s
  end.

Fixpoint settings_loop (fuel : nat) (b : list Z) (s : settings) : res3 settings :=
  match b with
  | [] => Ok s
  | _ =>
      match fuel with
      | O => Panic
      | S fuel =>
          r ← h3 (read_varint b);
          let '(id, b) := r in
          r ← h3 (read_varint b);
          let '(v, b) := r in
          s ← add_setting id v s;
          settings_loop fuel b s
      end
  end.

Definition decode_settings_frame (payload_length : Z) (b : list Z) : res3 Http3Frame :=
  if MAX_SETTINGS_PAYLOAD_SIZE <? payload_length then Err ExcessiveLoad
  else
    s ← settings_loop (length b) b (mkSettings None None None None []);
    mret (Settings (s_mfs s) (s_cap s) (s_blocked s) (s_connect s) (Some (s_raw s))).

(** The integer and the bytes of PUSH_PROMISE and PRIORITY_UPDATE; the length of
    the bytes is computed with checked arithmetic from the announced length. *)
Definition int_and_bytes (payload_length : Z) (b : list Z) : res3 (Z * list Z) :=
  r ← h3 (read_varint b);
  let '(n, b) := r in
  l ← h3 (encode_varint_len n);
  k ← h3 (sub64 payload_length l);
  r ← h3 (read k b);
  mret (n, r.1).

Definition decode_push_promise (payload_length : Z) (b : list Z) : res3 Http3Frame :=
  r ← int_and_bytes payload_length b; mret (PushPromise r.1 r.2).

Definition decode_priority_update (frame_type payload_length : Z) (b : list Z) : res3 Http3Frame :=
  r ← int_and_bytes payload_length b;
  match frame_type with
  | 0xF0700 => mret (PriorityUpdateRequest r.1 r.2)
  | 0xF0701 => mret (PriorityUpdatePush r.1 r.2)
  | _ => Panic
  end.

Definition decode_payload (frame_type payload_length : Z) (buf : list Z) : res3 Http3Frame :=
  match frame_type with
  | 0x0 => r ← h3 (read payload_length buf); mret (Data r.1)
  | 0x1 => r ← h3 (read payload_length buf); mret (Headers r.1)
  | 0x3 => r ← h3 (read_varint buf); mret (CancelPush r.1)
  | 0x4 => decode_settings_frame payload_length buf
  | 0x5 => decode_push_promise payload_length buf
  | 0x7 => r ← h3 (read_varint buf); mret (GoAway r.1)
  | 0xD => r ← h3 (read_varint buf); mret (MaxPushId r.1)
  | 0xF0700 | 0xF0701 => decode_priority_update frame_type payload_length buf
  | _ => mret (Unknown frame_type payload_length)
  end.

Definition h3_decode (buf : list Z) : res3 Http3Frame :=
  r ← h3 (read_varint buf);
  let '(frame_type, buf) := r in
  r ← h3 (read_varint buf);
  let '(payload_length, buf) := r in
  decode_payload frame_type payload_length buf.

(** ** The bytes of a frame *)

Definition setting_list (f : Http3Frame) : list (Z * Z) :=
  match f with
  | Settings a b c d _ =>
      option_list ((fun v => (SETTINGS_MAX_FIELD_SECTION_SIZE, v)) <$> a) ++
      option_list ((fun v => (SETTINGS_QPACK_MAX_TABLE_CAPACITY, v)) <$> b) ++
      option_list ((fun v => (SETTINGS_QPACK_BLOCKED_STREAMS, v)) <$> c) ++
      option_list ((fun v => (SETTINGS_ENABLE_CONNECT_PROTOCOL, v)) <$> d)
  | _ => []
  end.

Definition setting_bytes (l : list (Z * Z)) : list Z := concat (map (fun '(id, v) => vb id ++ vb v) l).

Definition frame_type (f : Http3Frame) : Z :=
  match f with
  | Data _ => DATA_FRAME_TYPE | Headers _ => HEADERS_FRAME_TYPE | CancelPush _ => CANCEL_PUSH_FRAME_TYPE
  | Settings _ _ _ _ _ => SETTINGS_FRAME_TYPE | PushPromise _ _ => PUSH_PROMISE_FRAME_TYPE
  | GoAway _ => GOAWAY_FRAME_TYPE | MaxPushId _ => MAX_PUSH_ID_FRAME_TYPE
  | PriorityUpdateRequest _ _ => PRIORITY_UPDATE_FRAME_REQUEST_TYPE
  | PriorityUpdatePush _ _ => PRIORITY_UPDATE_FRAME_PUSH_TYPE | Unknown t _ => t
  end.

Definition payload (f : Http3Frame) : list Z :=
  match f with
  | Data bs | Headers bs => bs
  | CancelPush n | GoAway n | MaxPushId n => vb n
  | Settings _ _ _ _ _ => setting_bytes (setting_list f)
  | PushPromise n bs | PriorityUpdateRequest n bs | PriorityUpdatePush n bs => vb n ++ bs
  | Unknown _ _ => []
  end.

Definition h3_bytes (f : Http3Frame) : list Z := vb (frame_type f) ++ vb (len (payload f)) ++ payload f.

Definition opt_vint (v : option Z) : Prop := match v with Some v => is_vint v | None => True end.

(** Frames the encoder is given. *)
Definition h3_ok (f : Http3Frame) : Prop :=
  match f with
  | Data bs | Headers bs => is_vint (len bs)
  | CancelPush n | GoAway n | MaxPushId n => is_vint n
  | Settings a b c d _ => opt_vint a /\ opt_vint b /\ opt_vint c /\ (d = None \/ d = Some 0 \/ d = Some 1)
  | PushPromise n bs | PriorityUpdateRequest n bs | PriorityUpdatePush n bs =>
      is_vint n /\ is_vint (varint_len n + len bs)
  | Unknown _ _ => False
  end.

(** The settings come back with the list they were sent in. *)
Definition h3_decoded (f : Http3Frame) : Http3Frame :=
  match f with
  | Settings a b c d _ => Settings a b c d (Some (setting_list f))
  | _ => f
  end.

#[local] Opaque vb.

#[local] Hint Resolve varint_len_vint : wire.

Lemma writes_put_bytes t bs : is_vint t -> is_vint (len bs) -> writes (put_bytes t bs) (vb t ++ vb (len bs) ++ bs) tt.
Proof.
  intros Ht Hl. rewrite <- (app_nil_r bs) at 3. do 2 (eapply writes_bind; [by apply writes_vb|]).
  eapply writes_bind; [apply writes_write|apply writes_ret].
Qed.

Lemma writes_put_int t n : is_vint t -> is_vint n -> writes (put_int t n) (vb t ++ vb (len (vb n)) ++ vb n) tt.
Proof.
  intros Ht Hn. rewrite len_vb. eapply writes_bind; [by apply writes_vb|].
  rewrite encode_varint_len_ok by apply Hn. eapply (writes_bind _ _ []); [apply writes_clift|].
  eapply writes_bind; [apply writes_vb, varint_len_vint|]. rewrite <- (app_nil_r (vb n)).
  eapply writes_bind; [by apply writes_vb|apply writes_ret].
Qed.

Lemma writes_put_int_bytes t n bs : is_vint t -> is_vint n -> is_vint (varint_len n + len bs) ->
  writes (put_int_bytes t n bs) (vb t ++ vb (len (vb n ++ bs)) ++ vb n ++ bs) tt.
Proof.
  intros Ht Hn Hl. rewrite len_app, len_vb. unfold put_int_bytes. rewrite encode_varint_len_ok by apply Hn.
  eapply (writes_bind _ _ []); [apply writes_clift|]. do 3 (eapply writes_bind; [by apply writes_vb|]).
  rewrite <- (app_nil_r bs) at 2. eapply writes_bind; [apply writes_write|apply writes_ret].
Qed.

(** One optional setting. *)
Abbreviation opt_setting id v := (option_list ((fun v => (id, v)) <$> v)).

Lemma setting_len_ok id v : is_vint id -> opt_vint v -> setting_len id v = Ok (len (setting_bytes (opt_setting id v))).
Proof.
  intros Hid Hv. destruct v as [v|]; [|done]. unfold setting_len. rewrite (encode_varint_len_ok id) by apply Hid.
  cbn [mbind outcome_bind]. rewrite encode_varint_len_ok by apply Hv. cbn. by rewrite app_nil_r, len_app, !len_vb.
Qed.

Lemma writes_put_setting id v : is_vint id -> opt_vint v ->
  writes (put_setting id v) (setting_bytes (opt_setting id v)) tt.
Proof.
  intros Hid Hv. destruct v as [v|]; [|apply writes_ret]. cbn. rewrite <- app_assoc.
  eapply writes_bind; [by apply writes_vb|]. eapply writes_bind; [by apply writes_vb|apply writes_ret].
Qed.

Lemma setting_bytes_app a b : setting_bytes (a ++ b) = setting_bytes a ++ setting_bytes b.
Proof. unfold setting_bytes. by rewrite map_app, concat_app. Qed.

Lemma len_opt_setting id v : len (setting_bytes (opt_setting id v)) <= 16.
Proof.
  destruct v as [v|]; [|unfold len; cbn; lia]. cbn. rewrite app_nil_r, len_app, !len_vb.
  destruct (varint_len_size id) as [->|[->|[->| ->]]], (varint_len_size v) as [->|[->|[->| ->]]]; lia.
Qed.

Lemma writes_settings a b c d : opt_vint a -> opt_vint b -> opt_vint c -> opt_vint d ->
  let p := setting_bytes (setting_list (Settings a b c d None)) in
  len p <= 64 /\ writes (encode_settings_frame a b c d) (vb SETTINGS_FRAME_TYPE ++ vb (len p) ++ p) tt.
Proof.
  intros Ha Hb Hc Hd. cbn zeta. unfold setting_list. rewrite !setting_bytes_app, !len_app.
  pose proof (len_opt_setting SETTINGS_MAX_FIELD_SECTION_SIZE a). pose proof (len_opt_setting SETTINGS_QPACK_MAX_TABLE_CAPACITY b).
  pose proof (len_opt_setting SETTINGS_QPACK_BLOCKED_STREAMS c). pose proof (len_opt_setting SETTINGS_ENABLE_CONNECT_PROTOCOL d).
  split; [lia|]. unfold encode_settings_frame.
  do 4 (eapply writes_pure; [by apply setting_len_ok; [apply small_vint|]|]).
  eapply writes_bind; [by apply writes_vb, small_vint|]. eapply writes_bind.
  { rewrite <- !Z.add_assoc. apply writes_vb, small_vint. pose proof (len_nonneg (setting_bytes (opt_setting SETTINGS_MAX_FIELD_SECTION_SIZE a))).
    pose proof (len_nonneg (setting_bytes (opt_setting SETTINGS_QPACK_MAX_TABLE_CAPACITY b))).
    pose proof (len_nonneg (setting_bytes (opt_setting SETTINGS_QPACK_BLOCKED_STREAMS c))).
    pose proof (len_nonneg (setting_bytes (opt_setting SETTINGS_ENABLE_CONNECT_PROTOCOL d))). lia. }
  do 3 (eapply writes_bind; [by apply writes_put_setting; [apply small_vint|]|]). by apply writes_put_setting; [apply small_vint|].
Qed.

Lemma writes_h3 f : h3_ok f -> writes (put_h3_frame f) (h3_bytes f) tt.
Proof.
  intros Hf. destruct f; cbn [h3_ok put_h3_frame] in *; unfold h3_bytes; cbn [frame_type payload];
    try (apply writes_put_bytes; [by apply small_vint|done]); try (apply writes_put_int; [by apply small_vint|done]);
    try (destruct Hf; apply writes_put_int_bytes; [by apply small_vint|done..]); [|done].
  destruct Hf as (Ha & Hb & Hc & Hd). apply writes_settings; [done..|]. destruct Hd as [->|[->| ->]]; [done|by apply small_vint..].
Qed.

(** ** Reading it back *)

Lemma read_vb n rest : is_vint n -> h3 (read_varint (vb n ++ rest)) = Ok (n, rest).
Proof. intros Hn. by rewrite (reads_at read_varint (vb n) n) by (by apply reads_vb). Qed.

Lemma read_all bs : h3 (read (len bs) bs) = Ok (bs, []).
Proof. rewrite <- (app_nil_r bs) at 2. by rewrite (reads_at (read (len bs)) bs bs) by (by apply reads_read). Qed.

(** Reading a list of settings is adding them one by one. *)
Fixpoint add_settings (l : list (Z * Z)) (s : settings) : res3 settings :=
  match l with
  | [] => Ok s
  | (id, v) :: l => s ← add_setting id v s; add_settings l s
  end.

Lemma vb_pos n : 1 <= len (vb n).
Proof. rewrite len_vb. destruct (varint_len_size n) as [->|[->|[->| ->]]]; lia. Qed.

Lemma settings_loop_ok l : Forall (fun '(id, v) => is_vint id /\ is_vint v) l -> forall fuel s,
  (length (setting_bytes l) <= fuel)%nat -> settings_loop fuel (setting_bytes l) s = add_settings l s.
Proof.
  induction 1 as [|[id v] l [Hid Hv] Hl IH]; intros fuel s Hf; [by destruct fuel|].
  assert (setting_bytes ((id, v) :: l) = vb id ++ vb v ++ setting_bytes l) as E by (unfold setting_bytes; cbn; by rewrite <- app_assoc).
  rewrite E in *. pose proof (vb_pos id) as Hp. unfold len in Hp. rewrite !length_app in Hf.
  destruct fuel as [|fuel]; [lia|]. destruct (vb id ++ vb v ++ setting_bytes l) as [|x tl] eqn:E2.
  { apply app_eq_nil in E2 as [E2 _]. rewrite E2 in Hp. cbn in Hp. lia. }
  cbn [settings_loop add_settings]. rewrite <- E2, read_vb by done. cbn [mbind outcome_bind]. rewrite read_vb by done.
  cbn [mbind outcome_bind]. destruct (add_setting id v s) as [s'| |]; [|done..]. cbn [mbind outcome_bind]. apply IH. lia.
Qed.

Lemma int_and_bytes_ok n bs : is_vint n -> int_and_bytes (varint_len n + len bs) (vb n ++ bs) = Ok (n, bs).
Proof.
  intros Hn. unfold int_and_bytes. rewrite read_vb by done. cbn [mbind outcome_bind]. rewrite encode_varint_len_ok by apply Hn.
  cbn [h3 mbind outcome_bind]. pose proof (len_nonneg bs). rewrite sub64_ok by lia. cbn [h3 mbind outcome_bind].
  replace (varint_len n + len bs - varint_len n) with (len bs) by lia. by rewrite read_all.
Qed.

Lemma decode_payload_ok f : h3_ok f -> decode_payload (frame_type f) (len (payload f)) (payload f) = Ok (h3_decoded f).
Proof.
  intros Hf. destruct f as [bs|bs|n|a b c d raw|n bs|n|n|n bs|n bs|]; cbn [frame_type payload h3_decoded h3_ok] in *;
    cbv beta iota delta [decode_payload DATA_FRAME_TYPE HEADERS_FRAME_TYPE CANCEL_PUSH_FRAME_TYPE SETTINGS_FRAME_TYPE
      PUSH_PROMISE_FRAME_TYPE GOAWAY_FRAME_TYPE MAX_PUSH_ID_FRAME_TYPE PRIORITY_UPDATE_FRAME_REQUEST_TYPE
      PRIORITY_UPDATE_FRAME_PUSH_TYPE];
    try (by rewrite read_all); try (rewrite <- (app_nil_r (vb n)) at 1; by rewrite read_vb);
    try (destruct Hf; rewrite len_app, len_vb; unfold decode_push_promise, decode_priority_update;
         by rewrite int_and_bytes_ok).
  destruct Hf as (Ha & Hb & Hc & Hd). unfold decode_settings_frame, MAX_SETTINGS_PAYLOAD_SIZE.
  destruct (writes_settings a b c d Ha Hb Hc) as [Hlen _]; [destruct Hd as [->|[->| ->]]; [done|by apply small_vint..]|].
  destruct (Z.ltb_spec 256 (len (setting_bytes (setting_list (Settings a b c d raw))))) as [H|_]; [cbn in *; lia|].
  rewrite settings_loop_ok; [..|done].
  - destruct a, b, c, Hd as [->|[->| ->]]; reflexivity.
  - destruct a, b, c, Hd as [->|[->| ->]]; cbn; repeat (apply Forall_cons; split; [split; [by apply small_vint|done || by apply small_vint]|]); by apply Forall_nil.
Qed.

Lemma header_vints f : h3_ok f -> is_vint (frame_type f) /\ is_vint (len (payload f)).
Proof.
  intros Hf. split; [destruct f; by apply small_vint || done|].
  destruct f as [bs|bs|n|a b c d raw|n bs|n|n|n bs|n bs|]; cbn [payload h3_ok] in *;
    try done; try (rewrite len_vb; apply varint_len_vint); try (destruct Hf; by rewrite len_app, len_vb).
  destruct Hf as (Ha & Hb & Hc & Hd).
  destruct (writes_settings a b c d Ha Hb Hc) as [Hlen _]; [destruct Hd as [->|[->| ->]]; [done|by apply small_vint..]|].
  apply small_vint. pose proof (len_nonneg (setting_bytes (setting_list (Settings a b c d raw)))). cbn in *. lia.
Qed.

(** Decoding what the encoder writes gives the HTTP/3 frame back; a SETTINGS
    frame comes back with the list of its settings as they were sent.  The encoder
    writes the whole frame or reports that the buffer is too short. *)
Theorem h3_frame_roundtrip f buf :
  h3_ok f ->
  exists bs,
    h3_encode f buf =
      (if len bs <=? len buf then Ok (len bs, bs ++ zdrop (len bs) buf) else Err (TransportError BufferTooShort)) /\
    h3_decode bs = Ok (h3_decoded f).
Proof.
  intros Hf. exists (h3_bytes f). split.
  - unfold h3_encode. rewrite (run_enc_spec _ _ buf (writes_h3 f Hf)). by destruct (_ <=? _).
  - unfold h3_decode, h3_bytes. destruct (header_vints f Hf) as [Ht Hl].
    rewrite read_vb by done. cbn [mbind outcome_bind]. rewrite read_vb by done. cbn [mbind outcome_bind]. by apply decode_payload_ok.
Qed.

Lemma h3_frame_roundtrip_witness :
  exists bs, h3_decode bs = Ok (Settings (Some 4096) None (Some 16) (Some 1) (Some [(6, 4096); (7, 16); (8, 1)])).
Proof.
  destruct (h3_frame_roundtrip (Settings (Some 4096) None (Some 16) (Some 1) None) (repeat 0 64)) as (bs & _ & H).
  - split_and!; [by apply small_vint|done|by apply small_vint|auto].
  - by exists bs.
Defined.

(** ** Any payload *)

Definition h3_refusal (e : Http3Error) : Prop :=
  e = TransportError BufferTooShort \/ e = ExcessiveLoad \/ e = SettingsError.

(** What a decoded payload holds. *)
Definition h3_received (t : Z) (buf : list Z) (f : Http3Frame) : Prop :=
  frame_type f = t /\
  match f with
  | Data d | Headers d => d = buf
  | CancelPush n | GoAway n | MaxPushId n => is_vint n
  | Settings _ _ _ d _ => match d with Some v => v <= 1 | None => True end /\ len buf <= MAX_SETTINGS_PAYLOAD_SIZE
  | PushPromise n bs | PriorityUpdateRequest n bs | PriorityUpdatePush n bs => is_vint n /\ varint_len n + len bs <= len buf
  | Unknown _ l => l = len buf
  end.

Definition h3_safe {A} (r : res3 A) (P : A -> Prop) : Prop :=
  match r with Ok a => P a | Err e => h3_refusal e | Panic => False end.

Lemma h3_safe_bind {A B} (r : res3 A) (f : A -> res3 B) P Q :
  h3_safe r P -> (forall a, P a -> h3_safe (f a) Q) -> h3_safe (r ≫= f) Q.
Proof. destruct r as [a| |]; cbn; auto. Qed.

Lemma h3_varint b : bytes_ok b ->
  h3_safe (h3 (read_varint b)) (fun '(n, rest) => is_vint n /\ bytes_ok rest /\ varint_len n + len rest <= len b).
Proof.
  intros Hb. pose proof (read_varint_total b Hb) as Ht. pose proof (read_varint_consumes b) as Hc.
  destruct (read_varint b) as [[n rest]|e|]; [by apply Hc|destruct Ht as [-> _]; by left|done].
Qed.

Lemma h3_read n b : 0 <= n -> h3_safe (h3 (read n b)) (fun r => r.1 = ztake n b /\ n <= len b).
Proof.
  intros Hn. unfold read, copy_to_slice, mbind, cursor_bind. rewrite ensure_run.
  destruct (Z.ltb_spec (len b) n); [by left|]. destruct (Z.leb_spec n (len b)); [done|lia].
Qed.

Lemma int_and_bytes_total buf : bytes_ok buf ->
  h3_safe (int_and_bytes (len buf) buf) (fun r => is_vint r.1 /\ varint_len r.1 + len r.2 <= len buf).
Proof.
  intros Hb. eapply h3_safe_bind; [by apply h3_varint|]. intros [n rest] (Hn & Hr & Hl).
  rewrite encode_varint_len_ok by apply Hn. cbn [h3 mbind outcome_bind]. pose proof (len_nonneg rest).
  rewrite sub64_ok by lia. cbn [h3 mbind outcome_bind].
  eapply h3_safe_bind; [apply h3_read; lia|]. intros [d ?] [Hd Hle]. cbn in *. subst d. rewrite len_ztake by lia. split; [done|lia].
Qed.

Lemma settings_loop_total fuel : forall b s, bytes_ok b -> (length b <= fuel)%nat ->
  match s_connect s with Some v => v <= 1 | None => True end ->
  h3_safe (settings_loop fuel b s) (fun s => match s_connect s with Some v => v <= 1 | None => True end).
Proof.
  induction fuel as [|fuel IH]; intros b s Hb Hf Hs; (destruct b as [|x b]; [done|]); [cbn in Hf; lia|].
  cbn [settings_loop]. eapply h3_safe_bind; [by apply h3_varint|]. intros [id b1] (_ & Hb1 & L1).
  eapply h3_safe_bind; [by apply h3_varint|]. intros [v b2] (_ & Hb2 & L2).
  eapply (h3_safe_bind _ _ (fun s => match s_connect s with Some v => v <= 1 | None => True end)).
  - unfold add_setting. repeat case_match; cbn; try done; try (by right; right); lia.
  - intros s' Hs'. apply IH; [done| |done]. pose proof (vb_pos id). rewrite len_vb in *. pose proof (vb_pos v). rewrite len_vb in *.
    unfold len in *. lia.
Qed.

(** On any bytes, the decoder of a collected payload ends without a panic:
    the subtraction of the integer's length never underflows and the loop over
    the settings ends.  It returns a frame of the announced type whose content
    lies within the payload, or one of three errors. *)
Theorem h3_payload_total t buf :
  bytes_ok buf ->
  match decode_payload t (len buf) buf with
  | Ok f => h3_received t buf f
  | Err e => h3_refusal e
  | Panic => False
  end.
Proof.
  intros Hb. change (h3_safe (decode_payload t (len buf) buf) (h3_received t buf)).
  assert (h3_safe (h3 (read (len buf) buf)) (fun r => r.1 = buf)) as Hread.
  { pose proof (h3_read (len buf) buf (len_nonneg _)) as H. destruct (h3 _); [|done..]. destruct H as [H _]. cbn. rewrite H. by apply ztake_over. }
  unfold decode_payload. repeat case_match; try done;
    try (eapply h3_safe_bind; [apply Hread|by intros r ?]);
    try (eapply h3_safe_bind; [by apply h3_varint|by intros [n rest] (? & _)]);
    try (eapply h3_safe_bind; [by apply int_and_bytes_total|by intros r ?]).
  unfold decode_settings_frame. zcase; [by right; left|].
  eapply h3_safe_bind; [by apply settings_loop_total|]. intros s Hs. cbn. split; [done|]. split; [done|lia].
Qed.

Lemma h3_payload_total_witness :
  bytes_ok [0x08; 0x02] /\ match decode_payload SETTINGS_FRAME_TYPE 2 [0x08; 0x02] with Err e => h3_refusal e | _ => False end.
Proof.
  assert (bytes_ok [0x08; 0x02]) as H by (repeat constructor; unfold is_u8; lia).
  split; [exact H|]. exact (h3_payload_total SETTINGS_FRAME_TYPE [0x08; 0x02] H).
Defined.
