(* ===== verification/Rtt.v ===== *)
(** * Round-trip time estimation

    Models [src/src/connection/rtt.rs].  The theorem shows what the estimator
    knows after any sequence of samples; [smoothed_below_min] shows where it
    departs from its documentation. *)

From S2P Require Import Prelude.
From S2P Require Import Error.
From S2P Require Import Time.

Definition TIMER_GRANULARITY : Duration := from_millis 1.

Module RttEstimator.

Record RttEstimator := mkRtt {
  latest_rtt : Duration;
  smoothed : option Duration;
  rttvar : Duration;
  min_rtt : Duration;
  max_rtt : Duration;
}.

Definition new (initial_rtt : Duration) : RttEstimator :=
  mkRtt initial_rtt None (initial_rtt / 2) initial_rtt initial_rtt.

Definition smoothed_rtt (r : RttEstimator) : Duration := default (latest_rtt r) (smoothed r).

Definition pto_base (r : RttEstimator) : res Duration :=
  v ← dur_mul (rttvar r) 4;
  dur_add (smoothed_rtt r) (Z.max v TIMER_GRANULARITY).

Definition try_set_init_rtt (init_rtt : Duration) (r : RttEstimator) : RttEstimator :=
  match smoothed r with
  | Some _ => r
  | None => mkRtt init_rtt None (init_rtt / 2) init_rtt init_rtt
  end.

Definition update (ack_delay rtt : Duration) (r : RttEstimator) : res RttEstimator :=
  let min := Z.min (min_rtt r) rtt in
  let max := Z.max (max_rtt r) rtt in
  match smoothed r with
  | Some s =>
      let adjusted_rtt := sat_sub rtt ack_delay in
      var_sample ← (if adjusted_rtt <? s then dur_sub s adjusted_rtt else dur_sub adjusted_rtt s);
      v ← dur_mul (rttvar r) 3; v ← dur_add v var_sample;
      s ← dur_mul s 7; s ← dur_add s adjusted_rtt;
      mret (mkRtt rtt (Some (s / 8)) (v / 4) min max)
  | None => mret (mkRtt rtt (Some rtt) (rtt / 2) rtt rtt)
  end.

(** Samples of one estimator: the delay the peer reports and the time measured. *)
Fixpoint samples (l : list (Duration * Duration)) (r : RttEstimator) : res RttEstimator :=
  match l with
  | [] => Ok r
  | (ack_delay, rtt) :: l => r ← update ack_delay rtt r; samples l r
  end.

End RttEstimator.

Import RttEstimator.

(** Durations of at most [H], which leaves the arithmetic far from its limits. *)
Definition HORIZON : Duration := from_secs (2 ^ 29).

(** Estimates within [b], the estimate of the mean included. *)
Definition rtt_within (b : Duration) (r : RttEstimator) : Prop :=
  0 <= min_rtt r <= latest_rtt r /\ latest_rtt r <= max_rtt r <= b /\
  0 <= rttvar r <= max_rtt r /\ 0 <= smoothed_rtt r <= max_rtt r.

Lemma new_within d : 0 <= d -> rtt_within d (new d).
Proof. intros. unfold rtt_within, smoothed_rtt. cbn. pose proof (Z.div_pos d 2). pose proof (Z.div_le_upper_bound d 2 d). lia. Qed.

Lemma update_within b ack_delay rtt r :
  b <= HORIZON -> 0 <= ack_delay -> 0 <= rtt <= b -> rtt_within b r ->
  exists r', update ack_delay rtt r = Ok r' /\ rtt_within b r' /\ latest_rtt r' = rtt /\ smoothed r' <> None /\
    (smoothed r <> None -> min_rtt r' = Z.min (min_rtt r) rtt /\ max_rtt r' = Z.max (max_rtt r) rtt) /\
    (smoothed r = None -> min_rtt r' = rtt /\ max_rtt r' = rtt).
Proof.
  intros Hb Ha Hr (H1 & H2 & H3 & H4). unfold update, smoothed_rtt in *. destruct (smoothed r) as [s|]; cbn in H4.
  - set (adj := sat_sub rtt ack_delay). assert (0 <= adj <= rtt) as Hadj by (unfold adj, sat_sub; lia).
    set (var := if adj <? s then s - adj else adj - s).
    assert ((if adj <? s then dur_sub s adj else dur_sub adj s) = Ok var) as ->.
    { unfold var. destruct (Z.ltb_spec adj s); apply dur_sub_ok; lia. }
    assert (0 <= var <= Z.max (max_rtt r) rtt) as Hv by (unfold var; destruct (Z.ltb_spec adj s); lia).
    unfold HORIZON, from_secs, NANOS_PER_SEC in Hb. cbn [mbind outcome_bind].
    do 2 (rewrite dur_mul_ok by (unfold DURATION_LIMIT, NANOS_PER_SEC; lia); cbn [mbind outcome_bind];
          rewrite dur_add_ok by (unfold DURATION_LIMIT, NANOS_PER_SEC; lia); cbn [mbind outcome_bind]).
    eexists. split; [reflexivity|]. unfold rtt_within, smoothed_rtt. cbn.
    split; [|split_and!; done]. pose proof (Z.div_le_upper_bound (rttvar r * 3 + var) 4 (Z.max (max_rtt r) rtt)).
    pose proof (Z.div_le_upper_bound (s * 7 + adj) 8 (Z.max (max_rtt r) rtt)).
    pose proof (Z.div_pos (rttvar r * 3 + var) 4). pose proof (Z.div_pos (s * 7 + adj) 8). lia.
  - eexists. split; [reflexivity|]. unfold rtt_within, smoothed_rtt. cbn.
    pose proof (Z.div_pos rtt 2). pose proof (Z.div_le_upper_bound rtt 2 rtt). split; [lia|]. split_and!; done.
Qed.

Lemma pto_base_ok b r : b <= HORIZON -> rtt_within b r ->
  exists d, pto_base r = Ok d /\ TIMER_GRANULARITY <= d <= 5 * HORIZON + TIMER_GRANULARITY.
Proof.
  intros Hb (H1 & H2 & H3 & H4). unfold pto_base, HORIZON, TIMER_GRANULARITY, from_secs, from_millis, NANOS_PER_SEC in *.
  rewrite dur_mul_ok by (unfold DURATION_LIMIT, NANOS_PER_SEC; lia). cbn [mbind outcome_bind].
  rewrite dur_add_ok by (unfold DURATION_LIMIT, NANOS_PER_SEC; lia). eexists. split; [reflexivity|]. lia.
Qed.

(** The lowest and highest of a non-empty list of measured times. *)
Definition lowest (x : Duration) (l : list Duration) : Duration := foldr Z.min x l.
Definition highest (x : Duration) (l : list Duration) : Duration := foldr Z.max x l.

Lemma lowest_min y l : forall x, lowest (Z.min x y) l = Z.min y (lowest x l).
Proof. induction l as [|z l IH]; intros x; cbn; [lia|]. unfold lowest in IH. rewrite IH. lia. Qed.
Lemma highest_max y l : forall x, highest (Z.max x y) l = Z.max y (highest x l).
Proof. induction l as [|z l IH]; intros x; cbn; [lia|]. unfold highest in IH. rewrite IH. lia. Qed.

Lemma samples_within b l : forall r,
  b <= HORIZON -> Forall (fun '(ack_delay, rtt) => 0 <= ack_delay /\ 0 <= rtt <= b) l ->
  rtt_within b r -> smoothed r <> None ->
  exists r', samples l r = Ok r' /\ rtt_within b r' /\ smoothed r' <> None /\
    latest_rtt r' = default (latest_rtt r) (last (map snd l)) /\
    min_rtt r' = lowest (min_rtt r) (map snd l) /\ max_rtt r' = highest (max_rtt r) (map snd l).
Proof.
  induction l as [|[ack_delay rtt] l IH]; intros r Hb Hl Hr Hs; [by exists r|].
  apply Forall_cons_1 in Hl as [[Ha Hx] Hl]. cbn [samples].
  destruct (update_within b ack_delay rtt r) as (r1 & -> & Hr1 & Hlat & Hs1 & Hmm & _); [done..|]. cbn [mbind outcome_bind].
  destruct (Hmm Hs) as [Hmin Hmax]. destruct (IH r1) as (r' & -> & Hr' & Hs' & Hl' & Hmin' & Hmax'); [done..|].
  exists r'. split_and!; [done..| | |].
  - rewrite Hl', Hlat. cbn. rewrite last_cons. by destruct (last (map snd l)).
  - rewrite Hmin', Hmin. cbn. apply lowest_min.
  - rewrite Hmax', Hmax. cbn. apply highest_max.
Qed.

(** C36.  After any non-empty sequence of samples the estimator has not panicked,
    its latest, lowest and highest times are those of the samples, and both the
    smoothed time and the variation are at most the highest sample: the initial
    guess is forgotten. *)
Theorem rtt_samples_correct init ack_delay rtt l :
  0 <= init <= HORIZON ->
  Forall (fun '(ack_delay, rtt) => 0 <= ack_delay /\ 0 <= rtt <= HORIZON) ((ack_delay, rtt) :: l) ->
  exists r, samples ((ack_delay, rtt) :: l) (new init) = Ok r /\
    latest_rtt r = default rtt (last (map snd l)) /\
    min_rtt r = lowest rtt (map snd l) /\ max_rtt r = highest rtt (map snd l) /\
    0 <= smoothed_rtt r <= max_rtt r /\ 0 <= rttvar r <= max_rtt r.
Proof.
  intros Hi Hl. apply Forall_cons_1 in Hl as [[Ha Hx] Hl]. cbn [samples].
  assert (rtt_within HORIZON (new init)) as Hw.
  { destruct (new_within init ltac:(lia)) as (? & ? & ? & ?). unfold rtt_within. lia. }
  destruct (update_within HORIZON ack_delay rtt (new init)) as (r1 & -> & Hr1 & Hlat & Hs1 & _ & Hfirst); [done..|].
  destruct Hfirst as [Hmin Hmax]; [done|]. cbn [mbind outcome_bind].
  destruct (samples_within HORIZON l r1) as (r & -> & (_ & _ & ? & ?) & _ & Hl' & Hmin' & Hmax'); [done..|].
  exists r. rewrite Hlat in Hl'. rewrite Hmin in Hmin'. rewrite Hmax in Hmax'. split_and!; done || lia.
Qed.

Lemma rtt_samples_correct_witness :
  exists r, samples [(0, from_millis 80); (from_millis 25, from_millis 120)] (new (from_millis 333)) = Ok r /\
    min_rtt r = from_millis 80 /\ max_rtt r = from_millis 120.
Proof.
  destruct (rtt_samples_correct (from_millis 333) 0 (from_millis 80) [(from_millis 25, from_millis 120)]) as (r & E & _ & Hmin & Hmax & _).
  - split; vm_compute; discriminate.
  - repeat constructor; vm_compute; discriminate.
  - exists r. split; [exact E|]. rewrite Hmin, Hmax. split; reflexivity.
Defined.

(** On the three samples of the example in the documentation of [update] the
    smoothed time is 76.0 ms, not the 79.1 ms given there, and when the peer goes
    on reporting the same delay it falls below every time measured. *)
Theorem smoothed_below_min :
  let ms := from_millis in
  let example := [(ms 10, ms 80); (ms 25, ms 120); (ms 25, ms 60)] in
  (smoothed_rtt <$> samples example (new (ms 333))) = Ok 76015625 /\
  exists r, samples (example ++ repeat (ms 25, ms 60) 10) (new (ms 333)) = Ok r /\ smoothed_rtt r < min_rtt r.
Proof. split; [vm_compute; reflexivity|]. eexists. split; [vm_compute; reflexivity|reflexivity]. Qed.
