(* ===== verification/Float64.v ===== *)
(** * Floating point

    The part of [f64] the program uses, on the specification of binary floating
    point of the Standard Library (53 bits, round to nearest even), with the
    conversions between [Duration] and seconds of [std::time].  The lemmas bound
    the magnitude of results, which is enough to show that the conversions back
    do not panic. *)

From Stdlib Require Import Floats.SpecFloat.
From S2P Require Import Prelude.
From S2P Require Import Error.
From S2P Require Import Time.

Abbreviation f64 := spec_float (only parsing).

Definition of_int (n : Z) : f64 := binary_normalize 53 1024 n 0 false.
Definition fadd : f64 -> f64 -> f64 := SFadd 53 1024.
Definition fmul : f64 -> f64 -> f64 := SFmul 53 1024.
Definition fdiv : f64 -> f64 -> f64 := SFdiv 53 1024.

(** The quotient rounded to the nearest integer, ties to even. *)
Definition div_half_even (a b : Z) : Z :=
  let q := a / b in let r := a mod b in
  if 2 * r <? b then q else if b <? 2 * r then q + 1 else if Z.even q then q else q + 1.

Definition as_secs_f64 (d : Duration) : f64 :=
  fadd (of_int (d / NANOS_PER_SEC)) (fdiv (of_int (d mod NANOS_PER_SEC)) (of_int NANOS_PER_SEC)).

(** [Duration::from_secs_f64] panics on a negative, too large or non-finite
    number of seconds. *)
Definition from_secs_f64 (x : f64) : res Duration :=
  match x with
  | S754_zero _ => Ok 0
  | S754_finite false m e =>
      let n := if 0 <=? e then Zpos m * 2 ^ e * NANOS_PER_SEC
               else div_half_even (Zpos m * NANOS_PER_SEC) (2 ^ (- e)) in
      if n <? DURATION_LIMIT then Ok n else Panic
  | _ => Panic
  end.

(** [x as u64]: truncation, saturating at the ends. *)
Definition as_u64 (x : f64) : Z :=
  match x with
  | S754_finite false m e =>
      Z.min 18446744073709551615 (if 0 <=? e then Zpos m * 2 ^ e else Zpos m / 2 ^ (- e))
  | S754_infinity false => 18446744073709551615
  | _ => 0
  end.

Definition mul_f64 (d : Duration) (x : f64) : res Duration := from_secs_f64 (fmul x (as_secs_f64 d)).

(** ** Magnitudes *)

(** [x] is not negative and below [2 ^ k]. *)
Definition below (k : Z) (x : f64) : Prop :=
  match x with
  | S754_zero _ => True
  | S754_finite false m e => Zdigits2 (Zpos m) + e <= k
  | _ => False
  end.

Lemma digits_pos p : 2 ^ (Zpos (digits2_pos p) - 1) <= Zpos p < 2 ^ Zpos (digits2_pos p).
Proof.
  induction p as [p IH|p IH|]; cbn [digits2_pos]; [| |lia]; rewrite Pos2Z.inj_succ.
  - replace (Z.succ (Zpos (digits2_pos p)) - 1) with (Z.succ (Zpos (digits2_pos p) - 1)) by lia. rewrite !Z.pow_succ_r by lia. lia.
  - replace (Z.succ (Zpos (digits2_pos p)) - 1) with (Z.succ (Zpos (digits2_pos p) - 1)) by lia. rewrite !Z.pow_succ_r by lia. lia.
Qed.

Lemma digits_bound n : 0 <= n -> n < 2 ^ Zdigits2 n.
Proof. destruct n as [|p|p]; intros; [cbn; lia|apply digits_pos|lia]. Qed.
Lemma digits_nonneg n : 0 <= Zdigits2 n.
Proof. destruct n; cbn; lia. Qed.

Lemma digits_le n k : 0 <= k -> 0 <= n < 2 ^ k -> Zdigits2 n <= k.
Proof.
  intros Hk Hn. destruct n as [|p|p]; [done| |lia]. cbn. pose proof (digits_pos p) as [H _].
  destruct (Z.le_gt_cases (Zpos (digits2_pos p)) k) as [|Hlt]; [done|].
  pose proof (Z.pow_le_mono_r 2 k (Zpos (digits2_pos p) - 1)). lia.
Qed.

Lemma shr_1_below k mrs : 0 <= shr_m mrs < 2 ^ Z.max 0 k ->
  0 <= shr_m (shr_1 mrs) < 2 ^ Z.max 0 (k - 1).
Proof.
  intros H. assert (shr_m (shr_1 mrs) = shr_m mrs / 2) as ->.
  { destruct mrs as [[|[p|p|]|p] r s]; cbn in *; try lia; try reflexivity.
    - rewrite <- (Z.div2_div (Zpos p~1)). reflexivity.
    - rewrite <- (Z.div2_div (Zpos p~0)). reflexivity. }
  split; [apply Z.div_pos; lia|]. apply Z.div_lt_upper_bound; [lia|].
  destruct (Z.le_gt_cases k 0).
  - rewrite (Z.max_l 0 k) in H by lia. rewrite Z.max_l by lia. lia.
  - rewrite (Z.max_r 0 k) in H by lia. rewrite Z.max_r by lia. rewrite <- Z.pow_succ_r by lia.
    replace (Z.succ (k - 1)) with k by lia. lia.
Qed.

Lemma iter_pos_below p : forall k mrs, 0 <= shr_m mrs < 2 ^ Z.max 0 k ->
  0 <= shr_m (SpecFloat.iter_pos shr_1 p mrs) < 2 ^ Z.max 0 (k - Zpos p).
Proof.
  induction p as [p IH|p IH|]; intros k mrs H; cbn [SpecFloat.iter_pos].
  - replace (k - Zpos p~1) with (k - 1 - Zpos p - Zpos p) by lia. by apply IH, IH, shr_1_below.
  - replace (k - Zpos p~0) with (k - Zpos p - Zpos p) by lia. by apply IH, IH.
  - by apply shr_1_below.
Qed.

Lemma shr_fexp_below m e l mrs e' k : shr_fexp 53 1024 m e l = (mrs, e') ->
  0 <= m -> Zdigits2 m + e <= k -> -1074 <= k ->
  0 <= shr_m mrs < 2 ^ Z.max 0 (k - e') /\ e <= e' <= Z.max e (Z.max (k - 53) (-1074)).
Proof.
  intros H Hm Hd Hk. unfold shr_fexp in H. pose proof (digits_bound m Hm). pose proof (digits_nonneg m).
  assert (0 <= shr_m (shr_record_of_loc m l) < 2 ^ Z.max 0 (k - e)) as Hb.
  { replace (shr_m (shr_record_of_loc m l)) with m by (by destruct l as [|[]]). split; [done|].
    eapply Z.lt_le_trans; [done|]. apply Z.pow_le_mono_r; lia. }
  set (n := fexp 53 1024 (Zdigits2 m + e) - e) in H.
  assert (n = Z.max (Zdigits2 m + e - 53) (-1074) - e) as Hn by reflexivity. clearbody n.
  destruct n as [|p|p]; cbn in H; injection H as <- <-.
  - split; [done|lia].
  - split; [|lia]. pose proof (iter_pos_below p (k - e) _ Hb) as Hi. replace (k - (e + Zpos p)) with (k - e - Zpos p) by lia. done.
  - split; [done|lia].
Qed.

Lemma round_nearest_below m l n : 0 <= m < 2 ^ n -> 0 <= n -> 0 <= round_nearest_even m l < 2 ^ (n + 1).
Proof.
  intros Hm Hn. rewrite Z.pow_add_r by lia. unfold round_nearest_even.
  destruct l as [|[]]; [lia| |lia|lia]. destruct (Z.even m); lia.
Qed.

Lemma round_aux_below mx ex lx k :
  0 <= mx -> Zdigits2 mx + ex <= k -> ex <= k -> -1074 <= k <= 900 ->
  below (k + 1) (binary_round_aux 53 1024 false mx ex lx).
Proof.
  intros Hm Hd He Hk. unfold binary_round_aux.
  destruct (shr_fexp 53 1024 mx ex lx) as [mrs' e'] eqn:E1.
  destruct (shr_fexp_below mx ex lx mrs' e' k E1) as [Hm1 He1]; [lia..|].
  set (m1 := round_nearest_even _ _). assert (0 <= m1 < 2 ^ (k - e' + 1)) as Hm2.
  { apply round_nearest_below; [|lia]. replace (k - e') with (Z.max 0 (k - e')) by lia. done. }
  assert (Zdigits2 m1 <= k - e' + 1) by (apply digits_le; lia).
  destruct (shr_fexp 53 1024 m1 e' loc_Exact) as [mrs'' e''] eqn:E2.
  destruct (shr_fexp_below m1 e' loc_Exact mrs'' e'' (k + 1) E2) as [Hm3 He2]; [lia..|].
  destruct (shr_m mrs'') as [|p|p] eqn:Hp; [done| |lia]. rewrite ?Hp in Hm3.
  assert (e'' <= 1024 - 53) as He3 by lia. unfold below. destruct (Z.leb_spec e'' (1024 - 53)); [|lia].
  assert (Zdigits2 (Zpos p) <= Z.max 0 (k + 1 - e'')) by (apply digits_le; lia). cbn [Zdigits2] in *. lia.
Qed.

Lemma iter_xO m p : Zpos (Pos.iter xO m p) = Zpos m * 2 ^ Zpos p.
Proof.
  induction p as [|p IH] using Pos.peano_ind; [cbn; lia|]. rewrite Pos.iter_succ, Pos2Z.inj_succ, Z.pow_succ_r by lia. lia.
Qed.

Lemma shl_align_val m e e' : Zpos (fst (shl_align m e e')) = Zpos m * 2 ^ Z.max 0 (e - e') /\
  snd (shl_align m e e') = Z.min e e'.
Proof.
  unfold shl_align. destruct (e' - e) as [|p|p] eqn:E; cbn [fst snd].
  - rewrite Z.max_l by lia. lia.
  - rewrite Z.max_l by lia. lia.
  - rewrite Z.max_r by lia. replace (e - e') with (Zpos p) by lia. split; [|lia].
    apply iter_xO.
Qed.

Lemma normalize_below n e k : 0 <= n -> Zdigits2 n + e <= k -> e <= k -> -1074 <= k <= 900 ->
  below (k + 1) (binary_normalize 53 1024 n e false).
Proof.
  intros Hn Hd He Hk. destruct n as [|m|m]; [done| |lia]. cbn [binary_normalize]. unfold binary_round.
  set (e' := fexp _ _ _). destruct (shl_align m e e') as [mz ez] eqn:E.
  destruct (shl_align_val m e e') as [Hm Hz]. rewrite E in Hm, Hz. cbn [fst snd] in Hm, Hz. subst ez.
  apply round_aux_below; [lia| |lia|done].
  assert (Zdigits2 (Zpos mz) <= Zdigits2 (Zpos m) + Z.max 0 (e - e')); [|lia].
  pose proof (digits_nonneg (Zpos m)). apply digits_le; [lia|]. split; [lia|]. rewrite Hm, Z.pow_add_r by lia.
  pose proof (digits_bound (Zpos m)). apply Z.mul_lt_mono_pos_r; [apply Z.pow_pos_nonneg; lia|lia].
Qed.

Lemma of_int_below n k : 0 <= n < 2 ^ k -> 0 <= k <= 900 -> below (k + 1) (of_int n).
Proof. intros Hn Hk. apply normalize_below; [lia| |lia|lia]. pose proof (digits_le n k). lia. Qed.

Lemma below_mono k k' x : below k x -> k <= k' -> below k' x.
Proof. destruct x as [| | |[] m e]; cbn; lia || done. Qed.

Lemma fmul_below a b x y : below a x -> below b y -> -1074 <= a + b <= 900 -> below (a + b + 1) (fmul x y).
Proof.
  intros Hx Hy Hk. destruct x as [| | |[] m e], y as [| | |[] m' e']; try done. unfold fmul, SFmul.
  cbn [below] in *. pose proof (digits_nonneg (Zpos m)). pose proof (digits_nonneg (Zpos m')).
  assert (Zdigits2 (Zpos (m * m')) <= Zdigits2 (Zpos m) + Zdigits2 (Zpos m')).
  { apply digits_le; [lia|]. split; [lia|]. rewrite Z.pow_add_r, Pos2Z.inj_mul by lia.
    pose proof (digits_bound (Zpos m)). pose proof (digits_bound (Zpos m')). apply Z.mul_lt_mono_nonneg; lia. }
  apply round_aux_below; lia.
Qed.

Lemma align_digits m e e' : e' <= e -> Zdigits2 (Zpos (fst (shl_align m e e'))) <= Zdigits2 (Zpos m) + (e - e').
Proof.
  intros He. destruct (shl_align_val m e e') as [Hm _]. pose proof (digits_nonneg (Zpos m)).
  apply digits_le; [lia|]. split; [lia|]. rewrite Hm, Z.max_r, Z.pow_add_r by lia.
  pose proof (digits_bound (Zpos m)). apply Z.mul_lt_mono_pos_r; [apply Z.pow_pos_nonneg; lia|lia].
Qed.

Lemma fadd_below k x y : below k x -> below k y -> -1074 <= k <= 800 -> below (k + 2) (fadd x y).
Proof.
  intros Hx Hy Hk. destruct x as [s| | |[] m e], y as [s'| | |[] m' e']; try done; try (destruct s, s'; done).
  1-2: cbn [below fadd SFadd] in *; lia.
  unfold fadd, SFadd. cbn [below cond_Zopp] in *. set (z := Z.min e e').
  pose proof (align_digits m e z ltac:(lia)) as H1. pose proof (align_digits m' e' z ltac:(lia)) as H2.
  set (a := Zpos (fst (shl_align m e z))) in *. set (b := Zpos (fst (shl_align m' e' z))) in *.
  assert (0 <= a /\ 0 <= b) as [Ha Hb] by (unfold a, b; lia). clearbody a b.
  assert (Zdigits2 (a + b) <= k - z + 1).
  { pose proof (digits_bound a Ha). pose proof (digits_bound b Hb). pose proof (digits_nonneg a).
    pose proof (Z.pow_le_mono_r 2 (Zdigits2 a) (k - z)). pose proof (Z.pow_le_mono_r 2 (Zdigits2 b) (k - z)).
    pose proof (digits_nonneg b). assert (0 <= k - z) by (cbn in *; lia).
    apply digits_le; [lia|]. rewrite Z.pow_add_r by lia. lia. }
  replace (k + 2) with (k + 1 + 1) by lia. pose proof (digits_nonneg (Zpos m)).
  apply normalize_below; [lia|lia| |lia]. cbn in *. lia.
Qed.

Lemma fdiv_below k x m2 e2 : below k x -> -1074 <= k - e2 <= 900 ->
  below (k - e2 + 1) (fdiv x (S754_finite false m2 e2)).
Proof.
  intros Hx Hk. destruct x as [| | |[] m e]; try done. unfold fdiv, SFdiv, SFdiv_core_binary.
  set (e' := Z.min _ (e - e2)). assert (e' <= e - e2) as He by (unfold e'; lia). clearbody e'.
  cbn [below] in Hx. pose proof (digits_nonneg (Zpos m)). set (m' := match e - e2 - e' with Z0 => _ | _ => _ end).
  assert (m' = Zpos m * 2 ^ (e - e2 - e')) as Hm'.
  { unfold m'. destruct (e - e2 - e') as [|p|p] eqn:Es; [cbn; lia|by rewrite Z.shiftl_mul_pow2|lia]. }
  pose proof (Z.pow_pos_nonneg 2 (e - e2 - e') ltac:(lia) ltac:(lia)) as Hp.
  destruct (Z.div_eucl m' (Zpos m2)) as [q r] eqn:Eq.
  assert (q = m' / Zpos m2) as Hq by (unfold Z.div; by rewrite Eq). cbn [xorb].
  assert (0 <= q <= m') as Hle by (rewrite Hq, Hm'; split; [apply Z.div_pos; nia|apply Z.div_le_upper_bound; nia]).
  apply round_aux_below; [lia| |cbn in *; lia|lia].
  assert (Zdigits2 q <= Zdigits2 (Zpos m) + (e - e2 - e')); [|lia]. apply digits_le; [lia|].
  rewrite Z.pow_add_r by lia. pose proof (digits_bound (Zpos m)). split; [lia|]. nia.
Qed.

(** Seconds below [2 ^ 60] convert back to a [Duration]. *)
Lemma from_secs_below x : below 60 x -> exists d, from_secs_f64 x = Ok d /\ 0 <= d.
Proof.
  destruct x as [s| | |[] m e]; try done; [by exists 0|]. cbn [below]. intros H. unfold from_secs_f64.
  pose proof (digits_bound (Zpos m)) as Hm. pose proof (digits_nonneg (Zpos m)).
  set (n := if 0 <=? e then Zpos m * 2 ^ e * NANOS_PER_SEC else _). assert (0 <= n <= 2 ^ 60 * NANOS_PER_SEC + 1) as Hn.
  { unfold n, NANOS_PER_SEC. destruct (Z.leb_spec 0 e).
    - assert (Zpos m * 2 ^ e < 2 ^ 60); [|pose proof (Z.pow_nonneg 2 e); nia].
      apply Z.lt_le_trans with (2 ^ Zdigits2 (Zpos m) * 2 ^ e).
      + pose proof (Z.pow_pos_nonneg 2 e). nia.
      + rewrite <- Z.pow_add_r by lia. apply Z.pow_le_mono_r; lia.
    - pose proof (Z.pow_pos_nonneg 2 (- e) ltac:(lia) ltac:(lia)) as Hp.
      assert (Zpos m < 2 ^ 60 * 2 ^ (- e)).
      { rewrite <- Z.pow_add_r by lia. eapply Z.lt_le_trans; [apply Hm; lia|]. apply Z.pow_le_mono_r; lia. }
      unfold div_half_even.
      assert (0 <= Zpos m * 1000000000 / 2 ^ (- e) <= 2 ^ 60 * 1000000000).
      { split; [apply Z.div_pos; lia|apply Z.div_le_upper_bound; lia]. }
      zcase; try lia. destruct (Z.even _); lia. }
  exists n. destruct (Z.ltb_spec n DURATION_LIMIT); [split; [done|lia]|]. unfold DURATION_LIMIT, NANOS_PER_SEC in *. lia.
Qed.

(** Multiplying a duration by a small factor does not panic. *)
Lemma mul_f64_ok d x : 0 <= d < 2 ^ 52 * NANOS_PER_SEC -> below 2 x -> exists d', mul_f64 d x = Ok d' /\ 0 <= d'.
Proof.
  intros Hd Hx. apply from_secs_below. unfold as_secs_f64.
  assert (0 <= d / NANOS_PER_SEC < 2 ^ 52) as H1.
  { unfold NANOS_PER_SEC in *. split; [apply Z.div_pos; lia|]. apply Z.div_lt_upper_bound; lia. }
  assert (0 <= d mod NANOS_PER_SEC < 2 ^ 30) as H2.
  { pose proof (Z.mod_pos_bound d NANOS_PER_SEC). unfold NANOS_PER_SEC in *. lia. }
  assert (below 57 (fadd (of_int (d / NANOS_PER_SEC)) (fdiv (of_int (d mod NANOS_PER_SEC)) (of_int NANOS_PER_SEC)))) as H.
  { apply (fadd_below 55); [|apply (fdiv_below (30 + 1) _ 8388608000000000 (-23))|]; [|apply of_int_below; lia|lia..].
    apply (below_mono (52 + 1)); [apply of_int_below; lia|lia]. }
  apply (fmul_below 2 57); [done|done|lia].
Qed.

(** ** Quotients of integers *)

Lemma digits_eq n k : 0 < k -> 2 ^ (k - 1) <= n < 2 ^ k -> Zdigits2 n = k.
Proof.
  intros Hk Hn. pose proof (digits_le n k ltac:(lia) ltac:(pose proof (Z.pow_nonneg 2 (k - 1)); lia)).
  destruct (Z.le_gt_cases k (Zdigits2 n)) as [|Hlt]; [lia|].
  pose proof (digits_bound n ltac:(pose proof (Z.pow_nonneg 2 (k - 1)); lia)). pose proof (digits_nonneg n).
  pose proof (Z.pow_le_mono_r 2 (Zdigits2 n) (k - 1)). lia.
Qed.

(** A mantissa of 53 bits, or the next power of two, with its exponent. *)
Definition norm (t e : Z) : f64 :=
  if t =? 2 ^ 53 then S754_finite false (Z.to_pos (2 ^ 52)) (e + 1) else S754_finite false (Z.to_pos t) e.

Lemma shr_fexp_53 m e l : 2 ^ 52 <= m < 2 ^ 53 -> -1074 <= e ->
  shr_fexp 53 1024 m e l = (shr_record_of_loc m l, e).
Proof.
  intros Hm He. unfold shr_fexp. rewrite (digits_eq m 53) by lia.
  replace (fexp 53 1024 (53 + e) - e) with 0; [done|]. unfold fexp, SpecFloat.emin. lia.
Qed.

Lemma shr_fexp_54 m e l : 2 ^ 53 <= m < 2 ^ 54 -> -1074 <= e ->
  shr_fexp 53 1024 m e l = (shr_1 (shr_record_of_loc m l), e + 1).
Proof.
  intros Hm He. unfold shr_fexp. rewrite (digits_eq m 54) by lia.
  replace (fexp 53 1024 (54 + e) - e) with 1; [done|]. unfold fexp, SpecFloat.emin. lia.
Qed.

Lemma shr_1_m mrs : 0 <= shr_m mrs -> shr_m (shr_1 mrs) = shr_m mrs / 2.
Proof.
  destruct mrs as [[|[p|p|]|p] r s]; cbn; intros; try lia; try reflexivity.
  - rewrite <- (Z.div2_div (Zpos p~1)). reflexivity.
  - rewrite <- (Z.div2_div (Zpos p~0)). reflexivity.
Qed.

Lemma round_even_cases m l : round_nearest_even m l = m \/ round_nearest_even m l = m + 1.
Proof. destruct l as [|[]]; cbn; [auto| |auto..]. destruct (Z.even m); auto. Qed.

(** The second normalisation of [binary_round_aux]. *)
Lemma renormalize t e : 2 ^ 52 <= t <= 2 ^ 53 -> -1074 <= e <= 900 ->
  (let '(mrs'', e'') := shr_fexp 53 1024 t e loc_Exact in
   match shr_m mrs'' with
   | Z0 => S754_zero false
   | Zpos m => if e'' <=? 1024 - 53 then S754_finite false m e'' else S754_infinity false
   | _ => S754_nan
   end) = norm t e.
Proof.
  intros Ht He. unfold norm. destruct (Z.eqb_spec t (2 ^ 53)) as [->|Hne].
  - rewrite shr_fexp_54 by lia. rewrite shr_1_m by (cbn; lia). cbn [shr_m shr_record_of_loc].
    change (2 ^ 53 / 2) with (2 ^ 52). change (2 ^ 52) with (Zpos (Z.to_pos (2 ^ 52))) at 1. zcase; [done|lia].
  - rewrite shr_fexp_53 by lia. cbn [shr_m shr_record_of_loc]. destruct t as [|p|p]; [lia| |lia]. zcase; [done|lia].
Qed.

Lemma round_aux_norm mx ex lx :
  2 ^ 52 <= mx < 2 ^ 54 -> -1074 <= ex <= 800 ->
  let sh := if mx <? 2 ^ 53 then 0 else 1 in
  exists t, (t = mx / 2 ^ sh \/ t = mx / 2 ^ sh + 1) /\ (sh = 0 -> lx = loc_Exact -> t = mx) /\
    binary_round_aux 53 1024 false mx ex lx = norm t (ex + sh).
Proof.
  intros Hm He sh. unfold binary_round_aux.
  assert (Hrec : shr_m (shr_record_of_loc mx lx) = mx) by (by destruct lx as [|[]]).
  subst sh. destruct (Z.ltb_spec mx (2 ^ 53)) as [Hs|Hs].
  - rewrite shr_fexp_53 by lia. rewrite Hrec, Z.div_1_r, Z.add_0_r.
    pose proof (round_even_cases mx (loc_of_shr_record (shr_record_of_loc mx lx))) as Hc.
    set (t := round_nearest_even mx _) in *. exists t. split; [done|]. split.
    + intros _ ->. done.
    + apply renormalize; [destruct Hc as [-> | ->]; lia|lia].
  - rewrite shr_fexp_54 by lia. rewrite shr_1_m, Hrec by (rewrite Hrec; lia). change (2 ^ 1) with 2.
    assert (2 ^ 52 <= mx / 2 < 2 ^ 53) by (split; [apply Z.div_le_lower_bound; lia|apply Z.div_lt_upper_bound; lia]).
    match goal with |- context [round_nearest_even ?m ?l] => pose proof (round_even_cases m l) as Hc; set (t := round_nearest_even m l) in * end.
    exists t. split; [done|]. split; [lia|]. apply renormalize; [destruct Hc as [-> | ->]; lia|lia].
Qed.

(** The mantissa of an integer, scaled to 53 bits. *)
Definition mantissa (n : Z) : Z := n * 2 ^ (53 - Zdigits2 n).

Lemma digits_range n : 1 <= n -> 2 ^ (Zdigits2 n - 1) <= n < 2 ^ Zdigits2 n /\ 1 <= Zdigits2 n.
Proof. intros Hn. destruct n as [|p|p]; [lia| |lia]. pose proof (digits_pos p). cbn. lia. Qed.

Lemma mantissa_range n : 1 <= n < 2 ^ 53 -> 2 ^ 52 <= mantissa n < 2 ^ 53.
Proof.
  intros Hn. destruct (digits_range n) as [H1 H2]; [lia|]. pose proof (digits_le n 53 ltac:(lia) ltac:(lia)).
  unfold mantissa. pose proof (Z.pow_pos_nonneg 2 (53 - Zdigits2 n) ltac:(lia) ltac:(lia)).
  assert (2 ^ (Zdigits2 n - 1) * 2 ^ (53 - Zdigits2 n) = 2 ^ 52) as E1 by (rewrite <- Z.pow_add_r by lia; f_equal; lia).
  assert (2 ^ Zdigits2 n * 2 ^ (53 - Zdigits2 n) = 2 ^ 53) as E2 by (rewrite <- Z.pow_add_r by lia; f_equal; lia).
  nia.
Qed.

Lemma of_int_exact n : 1 <= n < 2 ^ 53 ->
  of_int n = S754_finite false (Z.to_pos (mantissa n)) (Zdigits2 n - 53).
Proof.
  intros Hn. pose proof (mantissa_range n Hn) as Hr. pose proof (digits_le n 53 ltac:(lia) ltac:(lia)) as Hd.
  destruct (digits_range n) as [_ Hp]; [lia|]. unfold of_int. destruct n as [|m|m]; [lia| |lia].
  cbn [binary_normalize]. unfold binary_round. cbn [Zdigits2] in *. rewrite Z.add_0_r.
  assert (fexp 53 1024 (Zpos (digits2_pos m)) = Zpos (digits2_pos m) - 53) as -> by (unfold fexp, SpecFloat.emin; lia).
  destruct (shl_align m 0 (Zpos (digits2_pos m) - 53)) as [mz ez] eqn:E.
  destruct (shl_align_val m 0 (Zpos (digits2_pos m) - 53)) as [Em Ez]. rewrite E in Em, Ez. cbn [fst snd] in *.
  rewrite Z.min_r in Ez by lia. rewrite Z.max_r in Em by lia. subst ez.
  assert (Zpos mz = mantissa (Zpos m)) as Ez by (unfold mantissa; cbn [Zdigits2]; rewrite Em; do 2 f_equal; lia).
  rewrite Ez. destruct (round_aux_norm (mantissa (Zpos m)) (Zpos (digits2_pos m) - 53) loc_Exact) as (t & _ & Ht & ->); [lia..|].
  destruct (Z.ltb_spec (mantissa (Zpos m)) (2 ^ 53)); [|lia]. rewrite Ht by done. unfold norm.
  destruct (Z.eqb_spec (mantissa (Zpos m)) (2 ^ 53)); [lia|]. f_equal. lia.
Qed.

(** The quotient of two integers, truncated to 53 bits or rounded up from there. *)
Lemma fdiv_ints a b : 1 <= a < 2 ^ 53 -> 1 <= b < 2 ^ 53 ->
  let q := mantissa a * 2 ^ 53 / mantissa b in
  let sh := if q <? 2 ^ 53 then 0 else 1 in
  exists t, (t = q / 2 ^ sh \/ t = q / 2 ^ sh + 1) /\
    fdiv (of_int a) (of_int b) = norm t (Zdigits2 a - Zdigits2 b - 53 + sh).
Proof.
  intros Ha Hb q sh. rewrite !of_int_exact by done. unfold fdiv, SFdiv, SFdiv_core_binary.
  pose proof (mantissa_range a Ha) as Ra. pose proof (mantissa_range b Hb) as Rb.
  rewrite !Z2Pos.id by lia. rewrite (digits_eq (mantissa a) 53), (digits_eq (mantissa b) 53) by lia.
  destruct (digits_range a) as [_ Da]; [lia|]. destruct (digits_range b) as [_ Db]; [lia|].
  pose proof (digits_le a 53 ltac:(lia) ltac:(lia)). pose proof (digits_le b 53 ltac:(lia) ltac:(lia)).
  set (k := Zdigits2 a - Zdigits2 b).
  assert (Zdigits2 a - 53 - (Zdigits2 b - 53) = k) as -> by lia.
  assert (53 + (Zdigits2 a - 53) - (53 + (Zdigits2 b - 53)) = k) as -> by lia.
  assert (Z.min (fexp 53 1024 k) k = k - 53) as -> by (unfold fexp, SpecFloat.emin; lia).
  replace (k - (k - 53)) with 53 by lia. cbn [xorb]. rewrite Z.shiftl_mul_pow2 by lia.
  destruct (Z.div_eucl (mantissa a * 2 ^ 53) (mantissa b)) as [q' r] eqn:Eq.
  assert (q' = q) as -> by (unfold q, Z.div; by rewrite Eq).
  assert (2 ^ 52 <= q < 2 ^ 54) as Rq.
  { unfold q. split; [apply Z.div_le_lower_bound; lia|apply Z.div_lt_upper_bound; lia]. }
  destruct (round_aux_norm q (k - 53) (new_location (mantissa b) r)) as (t & Ht & _ & ->); [lia..|]. by exists t.
Qed.
