(* ===== verification/Space.v ===== *)
(** * Packet number spaces

    Models [src/src/connection/space.rs]: the metadata of sent packets, the queue
    of frames waiting to be sent again on another path, a packet number space and
    the map of all spaces.  The map is keyed by the numbers of the spaces; where
    the code iterates over it, the result does not depend on the order. *)

From stdpp Require Import gmap.
From S2P Require Import Prelude.
From S2P Require Import Error.
From S2P Require Import Time.
From S2P Require Import Ranges.
From S2P Require Import Window.
From S2P Require Import Packet.
From S2P Require Import Frame.

Definition MAX_NON_ACK_ELICITING : Z := 24.
Definition MAX_ACK_RANGES : Z := 68.
Definition U64_MAX : Z := 18446744073709551615.

Definition space_to_level (s : SpaceId) : Level :=
  match s with
  | SpaceInitial => LevelInitial
  | SpaceHandshake => LevelHandshake
  | SpaceData | SpaceDataExt _ => LevelOneRTT
  end.

(** [space_id != Initial && space_id != Handshake] *)
Definition is_data_space (s : SpaceId) : bool :=
  negb (bool_decide (s = SpaceInitial)) && negb (bool_decide (s = SpaceHandshake)).

(** ** Frames waiting to be sent again *)

Inductive BufferType := High | Mid | Low.

Definition buffer_type_from (index : Z) : BufferType :=
  match index with 0 => High | 1 => Mid | _ => Low end.

Module BufferQueue.

(** The three queues, the most urgent first, and the number of frames in them. *)
Record BufferQueue := mkBuffer { high : list Frame; mid : list Frame; low : list Frame; count : Z }.

Definition default : BufferQueue := mkBuffer [] [] [] 0.

Definition queue (t : BufferType) (q : BufferQueue) : list Frame :=
  match t with High => high q | Mid => mid q | Low => low q end.
Definition with_queue (t : BufferType) (l : list Frame) (n : Z) (q : BufferQueue) : BufferQueue :=
  match t with
  | High => mkBuffer l (mid q) (low q) n
  | Mid => mkBuffer (high q) l (low q) n
  | Low => mkBuffer (high q) (mid q) l n
  end.

(** The first non-empty queue gives up its first frame. *)
Definition pop_front (q : BufferQueue) : res (option (Frame * BufferType) * BufferQueue) :=
  match high q, mid q, low q with
  | f :: l, _, _ => n ← sub64 (count q) 1; mret (Some (f, High), with_queue High l n q)
  | [], f :: l, _ => n ← sub64 (count q) 1; mret (Some (f, Mid), with_queue Mid l n q)
  | [], [], f :: l => n ← sub64 (count q) 1; mret (Some (f, Low), with_queue Low l n q)
  | [], [], [] => mret (None, q)
  end.

Definition push_front (f : Frame) (t : BufferType) (q : BufferQueue) : BufferQueue :=
  with_queue t (f :: queue t q) (count q + 1) q.
Definition push_back (f : Frame) (t : BufferType) (q : BufferQueue) : BufferQueue :=
  with_queue t (queue t q ++ [f]) (count q + 1) q.
Definition append (fs : list Frame) (t : BufferType) (q : BufferQueue) : BufferQueue :=
  with_queue t (queue t q ++ fs) (count q + len fs) q.

Definition len_ (q : BufferQueue) : Z := count q.
Definition is_empty (q : BufferQueue) : bool := count q =? 0.

End BufferQueue.

Record BufferFlags := mkFlags { from_high : bool; from_mid : bool; from_low : bool }.

Definition has_buffered (f : BufferFlags) : bool := from_high f || from_mid f || from_low f.
Definition mark (t : BufferType) (f : BufferFlags) : BufferFlags :=
  match t with
  | High => mkFlags true (from_mid f) (from_low f)
  | Mid => mkFlags (from_high f) true (from_low f)
  | Low => mkFlags (from_high f) (from_mid f) true
  end.

(** ** Sent packets *)

Record RateSamplePacketState := mkRateSample {
  rs_delivered : Z;
  rs_delivered_time : option Instant;
  rs_first_sent_time : option Instant;
  rs_is_app_limited : bool;
  rs_tx_in_flight : Z;
  rs_lost : Z;
}.

Record SentPacket := mkSent {
  pkt_type : PacketType;
  pkt_num : Z;
  frames : list Frame;
  time_sent : Instant;
  time_acked : option Instant;
  time_lost : option Instant;
  ack_eliciting : bool;
  in_flight : bool;
  has_data : bool;
  pmtu_probe : bool;
  pacing : bool;
  sent_size : Z;
  rate_sample_state : RateSamplePacketState;
  buffer_flags : BufferFlags;
}.

Definition with_pkt_num (x : Z) (p : SentPacket) : SentPacket :=
  mkSent (pkt_type p) x (frames p) (time_sent p) (time_acked p) (time_lost p) (ack_eliciting p) (in_flight p)
    (has_data p) (pmtu_probe p) (pacing p) (sent_size p) (rate_sample_state p) (buffer_flags p).
Definition with_frames (x : list Frame) (p : SentPacket) : SentPacket :=
  mkSent (pkt_type p) (pkt_num p) x (time_sent p) (time_acked p) (time_lost p) (ack_eliciting p) (in_flight p)
    (has_data p) (pmtu_probe p) (pacing p) (sent_size p) (rate_sample_state p) (buffer_flags p).
Definition with_time_sent (x : Instant) (p : SentPacket) : SentPacket :=
  mkSent (pkt_type p) (pkt_num p) (frames p) x (time_acked p) (time_lost p) (ack_eliciting p) (in_flight p) (has_data
    p) (pmtu_probe p) (pacing p) (sent_size p) (rate_sample_state p) (buffer_flags p).
Definition with_time_acked (x : option Instant) (p : SentPacket) : SentPacket :=
  mkSent (pkt_type p) (pkt_num p) (frames p) (time_sent p) x (time_lost p) (ack_eliciting p) (in_flight p) (has_data
    p) (pmtu_probe p) (pacing p) (sent_size p) (rate_sample_state p) (buffer_flags p).
Definition with_time_lost (x : option Instant) (p : SentPacket) : SentPacket :=
  mkSent (pkt_type p) (pkt_num p) (frames p) (time_sent p) (time_acked p) x (ack_eliciting p) (in_flight p) (has_data
    p) (pmtu_probe p) (pacing p) (sent_size p) (rate_sample_state p) (buffer_flags p).
Definition with_rate_sample_state (x : RateSamplePacketState) (p : SentPacket) : SentPacket :=
  mkSent (pkt_type p) (pkt_num p) (frames p) (time_sent p) (time_acked p) (time_lost p) (ack_eliciting p) (in_flight
    p) (has_data p) (pmtu_probe p) (pacing p) (sent_size p) x (buffer_flags p).

(** [SentPacket::default()], the sending time aside. *)
Definition sent_default (now : Instant) : SentPacket :=
  mkSent OneRTT 0 [] now None None false false false false false 0
    (mkRateSample 0 None None false 0 0) (mkFlags false false false).

Record AckedPacket := mkAcked { acked_pkt_num : Z; acked_time_sent : Instant; acked_rtt : Duration }.

(** ** A packet number space *)

Module PacketNumSpace.

Record PacketNumSpace := mkSpace {
  id : SpaceId;
  next_pkt_num : Z;
  consecutive_non_ack_eliciting_sent : Z;
  lowest_1rtt_pkt_num : Z;
  largest_rx_pkt_num : Z;
  first_pkt_num_recv : option Z;
  first_pkt_num_sent : option Z;
  largest_rx_pkt_time : Instant;
  largest_rx_non_probing_pkt_num : Z;
  largest_rx_ack_eliciting_pkt_num : Z;
  recv_pkt_num_need_ack : RangeSet.RangeSet;
  recv_pkt_num_win : SeqNumWindow.SeqNumWindow;
  need_send_ack : bool;
  ack_eliciting_pkts_since_last_sent_ack : Z;
  ack_timer : option Instant;
  sent : list SentPacket;
  lost : list Frame;
  acked : list Frame;
  buffered : BufferQueue.BufferQueue;
  time_of_last_sent_ack_eliciting_pkt : option Instant;
  loss_time : option Instant;
  largest_acked_pkt : Z;
  loss_probes : Z;
  bytes_in_flight : Z;
  ack_eliciting_in_flight : Z;
  is_data : bool;
}.

Definition new (id : SpaceId) (now : Instant) : PacketNumSpace :=
  mkSpace id 0 0 U64_MAX 0 None None now 0 0 (RangeSet.new MAX_ACK_RANGES) SeqNumWindow.default false 0 None
    [] [] [] BufferQueue.default None None U64_MAX 0 0 0 (is_data_space id).

Definition with_next_pkt_num (x : Z) (s : PacketNumSpace) : PacketNumSpace :=
  mkSpace (id s) x (consecutive_non_ack_eliciting_sent s) (lowest_1rtt_pkt_num s) (largest_rx_pkt_num s)
    (first_pkt_num_recv s) (first_pkt_num_sent s) (largest_rx_pkt_time s) (largest_rx_non_probing_pkt_num s)
    (largest_rx_ack_eliciting_pkt_num s) (recv_pkt_num_need_ack s) (recv_pkt_num_win s) (need_send_ack s)
    (ack_eliciting_pkts_since_last_sent_ack s) (ack_timer s) (sent s) (lost s) (acked s) (buffered s)
    (time_of_last_sent_ack_eliciting_pkt s) (loss_time s) (largest_acked_pkt s) (loss_probes s) (bytes_in_flight s)
    (ack_eliciting_in_flight s) (is_data s).
Definition with_consecutive_non_ack_eliciting_sent (x : Z) (s : PacketNumSpace) : PacketNumSpace :=
  mkSpace (id s) (next_pkt_num s) x (lowest_1rtt_pkt_num s) (largest_rx_pkt_num s) (first_pkt_num_recv s)
    (first_pkt_num_sent s) (largest_rx_pkt_time s) (largest_rx_non_probing_pkt_num s)
    (largest_rx_ack_eliciting_pkt_num s) (recv_pkt_num_need_ack s) (recv_pkt_num_win s) (need_send_ack s)
    (ack_eliciting_pkts_since_last_sent_ack s) (ack_timer s) (sent s) (lost s) (acked s) (buffered s)
    (time_of_last_sent_ack_eliciting_pkt s) (loss_time s) (largest_acked_pkt s) (loss_probes s) (bytes_in_flight s)
    (ack_eliciting_in_flight s) (is_data s).
Definition with_sent (x : list SentPacket) (s : PacketNumSpace) : PacketNumSpace :=
  mkSpace (id s) (next_pkt_num s) (consecutive_non_ack_eliciting_sent s) (lowest_1rtt_pkt_num s) (largest_rx_pkt_num
    s) (first_pkt_num_recv s) (first_pkt_num_sent s) (largest_rx_pkt_time s) (largest_rx_non_probing_pkt_num s)
    (largest_rx_ack_eliciting_pkt_num s) (recv_pkt_num_need_ack s) (recv_pkt_num_win s) (need_send_ack s)
    (ack_eliciting_pkts_since_last_sent_ack s) (ack_timer s) x (lost s) (acked s) (buffered s)
    (time_of_last_sent_ack_eliciting_pkt s) (loss_time s) (largest_acked_pkt s) (loss_probes s) (bytes_in_flight s)
    (ack_eliciting_in_flight s) (is_data s).
Definition with_lost (x : list Frame) (s : PacketNumSpace) : PacketNumSpace :=
  mkSpace (id s) (next_pkt_num s) (consecutive_non_ack_eliciting_sent s) (lowest_1rtt_pkt_num s) (largest_rx_pkt_num
    s) (first_pkt_num_recv s) (first_pkt_num_sent s) (largest_rx_pkt_time s) (largest_rx_non_probing_pkt_num s)
    (largest_rx_ack_eliciting_pkt_num s) (recv_pkt_num_need_ack s) (recv_pkt_num_win s) (need_send_ack s)
    (ack_eliciting_pkts_since_last_sent_ack s) (ack_timer s) (sent s) x (acked s) (buffered s)
    (time_of_last_sent_ack_eliciting_pkt s) (loss_time s) (largest_acked_pkt s) (loss_probes s) (bytes_in_flight s)
    (ack_eliciting_in_flight s) (is_data s).
Definition with_acked (x : list Frame) (s : PacketNumSpace) : PacketNumSpace :=
  mkSpace (id s) (next_pkt_num s) (consecutive_non_ack_eliciting_sent s) (lowest_1rtt_pkt_num s) (largest_rx_pkt_num
    s) (first_pkt_num_recv s) (first_pkt_num_sent s) (largest_rx_pkt_time s) (largest_rx_non_probing_pkt_num s)
    (largest_rx_ack_eliciting_pkt_num s) (recv_pkt_num_need_ack s) (recv_pkt_num_win s) (need_send_ack s)
    (ack_eliciting_pkts_since_last_sent_ack s) (ack_timer s) (sent s) (lost s) x (buffered s)
    (time_of_last_sent_ack_eliciting_pkt s) (loss_time s) (largest_acked_pkt s) (loss_probes s) (bytes_in_flight s)
    (ack_eliciting_in_flight s) (is_data s).
Definition with_time_of_last_sent_ack_eliciting_pkt (x : option Instant) (s : PacketNumSpace) : PacketNumSpace :=
  mkSpace (id s) (next_pkt_num s) (consecutive_non_ack_eliciting_sent s) (lowest_1rtt_pkt_num s) (largest_rx_pkt_num
    s) (first_pkt_num_recv s) (first_pkt_num_sent s) (largest_rx_pkt_time s) (largest_rx_non_probing_pkt_num s)
    (largest_rx_ack_eliciting_pkt_num s) (recv_pkt_num_need_ack s) (recv_pkt_num_win s) (need_send_ack s)
    (ack_eliciting_pkts_since_last_sent_ack s) (ack_timer s) (sent s) (lost s) (acked s) (buffered s) x (loss_time s)
    (largest_acked_pkt s) (loss_probes s) (bytes_in_flight s) (ack_eliciting_in_flight s) (is_data s).
Definition with_loss_time (x : option Instant) (s : PacketNumSpace) : PacketNumSpace :=
  mkSpace (id s) (next_pkt_num s) (consecutive_non_ack_eliciting_sent s) (lowest_1rtt_pkt_num s) (largest_rx_pkt_num
    s) (first_pkt_num_recv s) (first_pkt_num_sent s) (largest_rx_pkt_time s) (largest_rx_non_probing_pkt_num s)
    (largest_rx_ack_eliciting_pkt_num s) (recv_pkt_num_need_ack s) (recv_pkt_num_win s) (need_send_ack s)
    (ack_eliciting_pkts_since_last_sent_ack s) (ack_timer s) (sent s) (lost s) (acked s) (buffered s)
    (time_of_last_sent_ack_eliciting_pkt s) x (largest_acked_pkt s) (loss_probes s) (bytes_in_flight s)
    (ack_eliciting_in_flight s) (is_data s).
Definition with_largest_acked_pkt (x : Z) (s : PacketNumSpace) : PacketNumSpace :=
  mkSpace (id s) (next_pkt_num s) (consecutive_non_ack_eliciting_sent s) (lowest_1rtt_pkt_num s) (largest_rx_pkt_num
    s) (first_pkt_num_recv s) (first_pkt_num_sent s) (largest_rx_pkt_time s) (largest_rx_non_probing_pkt_num s)
    (largest_rx_ack_eliciting_pkt_num s) (recv_pkt_num_need_ack s) (recv_pkt_num_win s) (need_send_ack s)
    (ack_eliciting_pkts_since_last_sent_ack s) (ack_timer s) (sent s) (lost s) (acked s) (buffered s)
    (time_of_last_sent_ack_eliciting_pkt s) (loss_time s) x (loss_probes s) (bytes_in_flight s)
    (ack_eliciting_in_flight s) (is_data s).
Definition with_loss_probes (x : Z) (s : PacketNumSpace) : PacketNumSpace :=
  mkSpace (id s) (next_pkt_num s) (consecutive_non_ack_eliciting_sent s) (lowest_1rtt_pkt_num s) (largest_rx_pkt_num
    s) (first_pkt_num_recv s) (first_pkt_num_sent s) (largest_rx_pkt_time s) (largest_rx_non_probing_pkt_num s)
    (largest_rx_ack_eliciting_pkt_num s) (recv_pkt_num_need_ack s) (recv_pkt_num_win s) (need_send_ack s)
    (ack_eliciting_pkts_since_last_sent_ack s) (ack_timer s) (sent s) (lost s) (acked s) (buffered s)
    (time_of_last_sent_ack_eliciting_pkt s) (loss_time s) (largest_acked_pkt s) x (bytes_in_flight s)
    (ack_eliciting_in_flight s) (is_data s).
Definition with_bytes_in_flight (x : Z) (s : PacketNumSpace) : PacketNumSpace :=
  mkSpace (id s) (next_pkt_num s) (consecutive_non_ack_eliciting_sent s) (lowest_1rtt_pkt_num s) (largest_rx_pkt_num
    s) (first_pkt_num_recv s) (first_pkt_num_sent s) (largest_rx_pkt_time s) (largest_rx_non_probing_pkt_num s)
    (largest_rx_ack_eliciting_pkt_num s) (recv_pkt_num_need_ack s) (recv_pkt_num_win s) (need_send_ack s)
    (ack_eliciting_pkts_since_last_sent_ack s) (ack_timer s) (sent s) (lost s) (acked s) (buffered s)
    (time_of_last_sent_ack_eliciting_pkt s) (loss_time s) (largest_acked_pkt s) (loss_probes s) x
    (ack_eliciting_in_flight s) (is_data s).
Definition with_ack_eliciting_in_flight (x : Z) (s : PacketNumSpace) : PacketNumSpace :=
  mkSpace (id s) (next_pkt_num s) (consecutive_non_ack_eliciting_sent s) (lowest_1rtt_pkt_num s) (largest_rx_pkt_num
    s) (first_pkt_num_recv s) (first_pkt_num_sent s) (largest_rx_pkt_time s) (largest_rx_non_probing_pkt_num s)
    (largest_rx_ack_eliciting_pkt_num s) (recv_pkt_num_need_ack s) (recv_pkt_num_win s) (need_send_ack s)
    (ack_eliciting_pkts_since_last_sent_ack s) (ack_timer s) (sent s) (lost s) (acked s) (buffered s)
    (time_of_last_sent_ack_eliciting_pkt s) (loss_time s) (largest_acked_pkt s) (loss_probes s) (bytes_in_flight s) x
    (is_data s).
Definition with_lowest_1rtt_pkt_num (x : Z) (s : PacketNumSpace) : PacketNumSpace :=
  mkSpace (id s) (next_pkt_num s) (consecutive_non_ack_eliciting_sent s) x (largest_rx_pkt_num s) (first_pkt_num_recv
    s) (first_pkt_num_sent s) (largest_rx_pkt_time s) (largest_rx_non_probing_pkt_num s)
    (largest_rx_ack_eliciting_pkt_num s) (recv_pkt_num_need_ack s) (recv_pkt_num_win s) (need_send_ack s)
    (ack_eliciting_pkts_since_last_sent_ack s) (ack_timer s) (sent s) (lost s) (acked s) (buffered s)
    (time_of_last_sent_ack_eliciting_pkt s) (loss_time s) (largest_acked_pkt s) (loss_probes s) (bytes_in_flight s)
    (ack_eliciting_in_flight s) (is_data s).
Definition with_largest_rx_pkt_num (x : Z) (s : PacketNumSpace) : PacketNumSpace :=
  mkSpace (id s) (next_pkt_num s) (consecutive_non_ack_eliciting_sent s) (lowest_1rtt_pkt_num s) x
    (first_pkt_num_recv s) (first_pkt_num_sent s) (largest_rx_pkt_time s) (largest_rx_non_probing_pkt_num s)
    (largest_rx_ack_eliciting_pkt_num s) (recv_pkt_num_need_ack s) (recv_pkt_num_win s) (need_send_ack s)
    (ack_eliciting_pkts_since_last_sent_ack s) (ack_timer s) (sent s) (lost s) (acked s) (buffered s)
    (time_of_last_sent_ack_eliciting_pkt s) (loss_time s) (largest_acked_pkt s) (loss_probes s) (bytes_in_flight s)
    (ack_eliciting_in_flight s) (is_data s).
Definition with_first_pkt_num_recv (x : option Z) (s : PacketNumSpace) : PacketNumSpace :=
  mkSpace (id s) (next_pkt_num s) (consecutive_non_ack_eliciting_sent s) (lowest_1rtt_pkt_num s) (largest_rx_pkt_num
    s) x (first_pkt_num_sent s) (largest_rx_pkt_time s) (largest_rx_non_probing_pkt_num s)
    (largest_rx_ack_eliciting_pkt_num s) (recv_pkt_num_need_ack s) (recv_pkt_num_win s) (need_send_ack s)
    (ack_eliciting_pkts_since_last_sent_ack s) (ack_timer s) (sent s) (lost s) (acked s) (buffered s)
    (time_of_last_sent_ack_eliciting_pkt s) (loss_time s) (largest_acked_pkt s) (loss_probes s) (bytes_in_flight s)
    (ack_eliciting_in_flight s) (is_data s).
Definition with_first_pkt_num_sent (x : option Z) (s : PacketNumSpace) : PacketNumSpace :=
  mkSpace (id s) (next_pkt_num s) (consecutive_non_ack_eliciting_sent s) (lowest_1rtt_pkt_num s) (largest_rx_pkt_num
    s) (first_pkt_num_recv s) x (largest_rx_pkt_time s) (largest_rx_non_probing_pkt_num s)
    (largest_rx_ack_eliciting_pkt_num s) (recv_pkt_num_need_ack s) (recv_pkt_num_win s) (need_send_ack s)
    (ack_eliciting_pkts_since_last_sent_ack s) (ack_timer s) (sent s) (lost s) (acked s) (buffered s)
    (time_of_last_sent_ack_eliciting_pkt s) (loss_time s) (largest_acked_pkt s) (loss_probes s) (bytes_in_flight s)
    (ack_eliciting_in_flight s) (is_data s).
Definition with_largest_rx_pkt_time (x : Instant) (s : PacketNumSpace) : PacketNumSpace :=
  mkSpace (id s) (next_pkt_num s) (consecutive_non_ack_eliciting_sent s) (lowest_1rtt_pkt_num s) (largest_rx_pkt_num
    s) (first_pkt_num_recv s) (first_pkt_num_sent s) x (largest_rx_non_probing_pkt_num s)
    (largest_rx_ack_eliciting_pkt_num s) (recv_pkt_num_need_ack s) (recv_pkt_num_win s) (need_send_ack s)
    (ack_eliciting_pkts_since_last_sent_ack s) (ack_timer s) (sent s) (lost s) (acked s) (buffered s)
    (time_of_last_sent_ack_eliciting_pkt s) (loss_time s) (largest_acked_pkt s) (loss_probes s) (bytes_in_flight s)
    (ack_eliciting_in_flight s) (is_data s).
Definition with_largest_rx_non_probing_pkt_num (x : Z) (s : PacketNumSpace) : PacketNumSpace :=
  mkSpace (id s) (next_pkt_num s) (consecutive_non_ack_eliciting_sent s) (lowest_1rtt_pkt_num s) (largest_rx_pkt_num
    s) (first_pkt_num_recv s) (first_pkt_num_sent s) (largest_rx_pkt_time s) x (largest_rx_ack_eliciting_pkt_num s)
    (recv_pkt_num_need_ack s) (recv_pkt_num_win s) (need_send_ack s) (ack_eliciting_pkts_since_last_sent_ack s)
    (ack_timer s) (sent s) (lost s) (acked s) (buffered s) (time_of_last_sent_ack_eliciting_pkt s) (loss_time s)
    (largest_acked_pkt s) (loss_probes s) (bytes_in_flight s) (ack_eliciting_in_flight s) (is_data s).
Definition with_largest_rx_ack_eliciting_pkt_num (x : Z) (s : PacketNumSpace) : PacketNumSpace :=
  mkSpace (id s) (next_pkt_num s) (consecutive_non_ack_eliciting_sent s) (lowest_1rtt_pkt_num s) (largest_rx_pkt_num
    s) (first_pkt_num_recv s) (first_pkt_num_sent s) (largest_rx_pkt_time s) (largest_rx_non_probing_pkt_num s) x
    (recv_pkt_num_need_ack s) (recv_pkt_num_win s) (need_send_ack s) (ack_eliciting_pkts_since_last_sent_ack s)
    (ack_timer s) (sent s) (lost s) (acked s) (buffered s) (time_of_last_sent_ack_eliciting_pkt s) (loss_time s)
    (largest_acked_pkt s) (loss_probes s) (bytes_in_flight s) (ack_eliciting_in_flight s) (is_data s).
Definition with_recv_pkt_num_need_ack (x : RangeSet.RangeSet) (s : PacketNumSpace) : PacketNumSpace :=
  mkSpace (id s) (next_pkt_num s) (consecutive_non_ack_eliciting_sent s) (lowest_1rtt_pkt_num s) (largest_rx_pkt_num
    s) (first_pkt_num_recv s) (first_pkt_num_sent s) (largest_rx_pkt_time s) (largest_rx_non_probing_pkt_num s)
    (largest_rx_ack_eliciting_pkt_num s) x (recv_pkt_num_win s) (need_send_ack s)
    (ack_eliciting_pkts_since_last_sent_ack s) (ack_timer s) (sent s) (lost s) (acked s) (buffered s)
    (time_of_last_sent_ack_eliciting_pkt s) (loss_time s) (largest_acked_pkt s) (loss_probes s) (bytes_in_flight s)
    (ack_eliciting_in_flight s) (is_data s).
Definition with_recv_pkt_num_win (x : SeqNumWindow.SeqNumWindow) (s : PacketNumSpace) : PacketNumSpace :=
  mkSpace (id s) (next_pkt_num s) (consecutive_non_ack_eliciting_sent s) (lowest_1rtt_pkt_num s) (largest_rx_pkt_num
    s) (first_pkt_num_recv s) (first_pkt_num_sent s) (largest_rx_pkt_time s) (largest_rx_non_probing_pkt_num s)
    (largest_rx_ack_eliciting_pkt_num s) (recv_pkt_num_need_ack s) x (need_send_ack s)
    (ack_eliciting_pkts_since_last_sent_ack s) (ack_timer s) (sent s) (lost s) (acked s) (buffered s)
    (time_of_last_sent_ack_eliciting_pkt s) (loss_time s) (largest_acked_pkt s) (loss_probes s) (bytes_in_flight s)
    (ack_eliciting_in_flight s) (is_data s).
Definition with_need_send_ack (x : bool) (s : PacketNumSpace) : PacketNumSpace :=
  mkSpace (id s) (next_pkt_num s) (consecutive_non_ack_eliciting_sent s) (lowest_1rtt_pkt_num s) (largest_rx_pkt_num
    s) (first_pkt_num_recv s) (first_pkt_num_sent s) (largest_rx_pkt_time s) (largest_rx_non_probing_pkt_num s)
    (largest_rx_ack_eliciting_pkt_num s) (recv_pkt_num_need_ack s) (recv_pkt_num_win s) x
    (ack_eliciting_pkts_since_last_sent_ack s) (ack_timer s) (sent s) (lost s) (acked s) (buffered s)
    (time_of_last_sent_ack_eliciting_pkt s) (loss_time s) (largest_acked_pkt s) (loss_probes s) (bytes_in_flight s)
    (ack_eliciting_in_flight s) (is_data s).
Definition with_ack_eliciting_pkts_since_last_sent_ack (x : Z) (s : PacketNumSpace) : PacketNumSpace :=
  mkSpace (id s) (next_pkt_num s) (consecutive_non_ack_eliciting_sent s) (lowest_1rtt_pkt_num s) (largest_rx_pkt_num
    s) (first_pkt_num_recv s) (first_pkt_num_sent s) (largest_rx_pkt_time s) (largest_rx_non_probing_pkt_num s)
    (largest_rx_ack_eliciting_pkt_num s) (recv_pkt_num_need_ack s) (recv_pkt_num_win s) (need_send_ack s) x
    (ack_timer s) (sent s) (lost s) (acked s) (buffered s) (time_of_last_sent_ack_eliciting_pkt s) (loss_time s)
    (largest_acked_pkt s) (loss_probes s) (bytes_in_flight s) (ack_eliciting_in_flight s) (is_data s).
Definition with_ack_timer (x : option Instant) (s : PacketNumSpace) : PacketNumSpace :=
  mkSpace (id s) (next_pkt_num s) (consecutive_non_ack_eliciting_sent s) (lowest_1rtt_pkt_num s) (largest_rx_pkt_num
    s) (first_pkt_num_recv s) (first_pkt_num_sent s) (largest_rx_pkt_time s) (largest_rx_non_probing_pkt_num s)
    (largest_rx_ack_eliciting_pkt_num s) (recv_pkt_num_need_ack s) (recv_pkt_num_win s) (need_send_ack s)
    (ack_eliciting_pkts_since_last_sent_ack s) x (sent s) (lost s) (acked s) (buffered s)
    (time_of_last_sent_ack_eliciting_pkt s) (loss_time s) (largest_acked_pkt s) (loss_probes s) (bytes_in_flight s)
    (ack_eliciting_in_flight s) (is_data s).
Definition with_buffered (x : BufferQueue.BufferQueue) (s : PacketNumSpace) : PacketNumSpace :=
  mkSpace (id s) (next_pkt_num s) (consecutive_non_ack_eliciting_sent s) (lowest_1rtt_pkt_num s) (largest_rx_pkt_num
    s) (first_pkt_num_recv s) (first_pkt_num_sent s) (largest_rx_pkt_time s) (largest_rx_non_probing_pkt_num s)
    (largest_rx_ack_eliciting_pkt_num s) (recv_pkt_num_need_ack s) (recv_pkt_num_win s) (need_send_ack s)
    (ack_eliciting_pkts_since_last_sent_ack s) (ack_timer s) (sent s) (lost s) (acked s) x
    (time_of_last_sent_ack_eliciting_pkt s) (loss_time s) (largest_acked_pkt s) (loss_probes s) (bytes_in_flight s)
    (ack_eliciting_in_flight s) (is_data s).

Definition detect_duplicated_pkt_num (pkt_num : Z) (s : PacketNumSpace) : res bool :=
  SeqNumWindow.contains (recv_pkt_num_win s) pkt_num.

Definition need_elicit_ack (s : PacketNumSpace) : bool :=
  if MAX_NON_ACK_ELICITING <=? consecutive_non_ack_eliciting_sent s then true else 0 <? loss_probes s.

Definition need_send_buffered_frames (s : PacketNumSpace) : bool := negb (BufferQueue.is_empty (buffered s)).

Definition get_largest_acked_pkt (s : PacketNumSpace) : option Z :=
  if largest_acked_pkt s =? U64_MAX then None else Some (largest_acked_pkt s).

End PacketNumSpace.

(** ** All spaces of a connection *)

Module PacketNumSpaceMap.

Record PacketNumSpaceMap := mkSpaces {
  spaces : gmap Z PacketNumSpace.PacketNumSpace;
  next_data_ext_id : Z;
}.

Definition new (now : Instant) : PacketNumSpaceMap :=
  mkSpaces (<[2 := PacketNumSpace.new SpaceData now]>
             (<[1 := PacketNumSpace.new SpaceHandshake now]>
               (<[0 := PacketNumSpace.new SpaceInitial now]> ∅))) 3.

Definition key (s : SpaceId) : Z :=
  match s with SpaceInitial => 0 | SpaceHandshake => 1 | SpaceData => 2 | SpaceDataExt i => i end.

Definition get (s : SpaceId) (m : PacketNumSpaceMap) : option PacketNumSpace.PacketNumSpace := spaces m !! key s.

(** Writing back through the reference that [get_mut] returned. *)
Definition set (s : SpaceId) (x : PacketNumSpace.PacketNumSpace) (m : PacketNumSpaceMap) : PacketNumSpaceMap :=
  mkSpaces (<[key s := x]> (spaces m)) (next_data_ext_id m).

Definition add (now : Instant) (m : PacketNumSpaceMap) : SpaceId * PacketNumSpaceMap :=
  let s := SpaceDataExt (next_data_ext_id m) in
  (s, mkSpaces (<[next_data_ext_id m := PacketNumSpace.new s now]> (spaces m)) (next_data_ext_id m + 1)).

Definition drop (s : SpaceId) (m : PacketNumSpaceMap) : PacketNumSpaceMap :=
  mkSpaces (delete (key s) (spaces m)) (next_data_ext_id m).

Definition need_send_buffered_frames (m : PacketNumSpaceMap) : bool :=
  existsb (fun x => PacketNumSpace.need_send_buffered_frames x.2) (map_to_list (spaces m)).

Definition min_ack_timer (m : PacketNumSpaceMap) : option Instant :=
  foldr (fun x t =>
    match PacketNumSpace.ack_timer x.2, t with
    | Some a, Some b => Some (Z.min a b)
    | Some a, None => Some a
    | None, t => t
    end) None (map_to_list (spaces m)).

End PacketNumSpaceMap.
