(* ===== verification/Pacing.v ===== *)
(** * The pacer

    Models [src/src/congestion_control/pacing.rs], a token bucket that spreads
    packets over time.  [pacer_conforms] is its guarantee; [pacer_starves] shows
    that the tokens of short intervals are lost. *)

From S2P Require Import Prelude.
From S2P Require Import Error.
From S2P Require Import Time.

Definition MIN_BURST_PACKET_NUM : Z := 10.
Definition MAX_BURST_PACKET_NUM : Z := 128.

Definition mul128 {E} (a b : Z) : outcome E Z := if a * b <? U128 then Ok (a * b) else Panic.

(** [Ord::clamp], which panics when the bounds are swapped. *)
Definition clamp (x lo hi : Z) : res Z :=
  if lo <=? hi then Ok (if x <? lo then lo else if hi <? x then hi else x) else Panic.

Module Pacer.

Record Pacer := mkPacer {
  enabled : bool;
  capacity : Z;
  tokens : Z;
  last_cwnd : Z;
  last_sched_time : Instant;
  granularity : Duration;
}.

Definition update_capacity (cwnd : Z) (srtt : Duration) (mtu : Z) (p : Pacer) : res Pacer :=
  x ← mul128 cwnd (granularity p);
  let capacity := wrap 64 (x / Z.max srtt 1000000) in
  lo ← mul64 MIN_BURST_PACKET_NUM mtu;
  hi ← mul64 MAX_BURST_PACKET_NUM mtu;
  c ← clamp capacity lo hi;
  mret (mkPacer (enabled p) c (tokens p) (last_cwnd p) (last_sched_time p) (granularity p)).

Definition new (enabled : bool) (srtt : Duration) (cwnd mtu : Z) (now : Instant) (granularity : Duration) : res Pacer :=
  p ← update_capacity cwnd srtt mtu (mkPacer enabled 0 0 cwnd now granularity);
  mret (mkPacer enabled (capacity p) (capacity p) cwnd now granularity).

Definition on_sent (bytes_sent : Z) (p : Pacer) : Pacer :=
  if enabled p
  then mkPacer (enabled p) (capacity p) (sat_sub (tokens p) bytes_sent) (last_cwnd p) (last_sched_time p) (granularity p)
  else p.

(** The cap on the tokens when the congestion window has changed. *)
Definition adapt (srtt : Duration) (cwnd mtu : Z) (p : Pacer) : res Pacer :=
  if cwnd =? last_cwnd p then Ok p
  else
    p ← update_capacity cwnd srtt mtu p;
    mret (mkPacer (enabled p) (capacity p) (Z.min (capacity p) (tokens p)) cwnd (last_sched_time p) (granularity p)).

Definition refill (pacing_rate : Z) (now : Instant) (p : Pacer) : res Pacer :=
  x ← mul128 pacing_rate (since now (last_sched_time p));
  mret (mkPacer (enabled p) (capacity p) (Z.min (sat_add64 (tokens p) (wrap 64 (x / 1000000000))) (capacity p))
          (last_cwnd p) now (granularity p)).

Definition schedule (bytes_to_send pacing_rate : Z) (srtt : Duration) (cwnd mtu : Z) (now : Instant) (p : Pacer)
  : res (option Instant * Pacer) :=
  if negb (enabled p) || (srtt =? 0) || (cwnd =? 0) || (pacing_rate =? 0) then Ok (None, p)
  else
    p ← adapt srtt cwnd mtu p;
    if bytes_to_send <=? tokens p then mret (None, p)
    else
      p ← refill pacing_rate now p;
      if bytes_to_send <=? tokens p then mret (None, p)
      else
        w ← mul64 (sat_sub bytes_to_send (tokens p)) 1000000000;
        mret (Some (last_sched_time p + w / Z.max pacing_rate 1), p).

End Pacer.

Import Pacer.

(** ** The bucket *)

(** What the pacer is asked with: a smoothed RTT and a window that are not zero,
    on a realistic scale, and a rate of at most [rate]. *)
Record request := mkRequest { r_bytes : Z; r_rate : Z; r_srtt : Duration; r_cwnd : Z; r_mtu : Z; r_now : Instant }.

Definition request_ok (rate : Z) (r : request) : Prop :=
  0 <= r_bytes r < 2 ^ 32 /\ 0 < r_rate r <= rate /\ 0 < r_srtt r < DURATION_LIMIT /\
  0 < r_cwnd r < 2 ^ 64 /\ 0 < r_mtu r < 2 ^ 32.

Definition ask (r : request) (p : Pacer) : res (option Instant * Pacer) :=
  schedule (r_bytes r) (r_rate r) (r_srtt r) (r_cwnd r) (r_mtu r) (r_now r) p.

(** A sender asks, and sends what it asked for when it need not wait.  The result
    counts the bytes sent. *)
Fixpoint pace (rs : list request) (sent : Z) (p : Pacer) : res (Z * Pacer) :=
  match rs with
  | [] => Ok (sent, p)
  | r :: rs =>
      x ← ask r p;
      match x.1 with
      | None => pace rs (sent + r_bytes r) (on_sent (r_bytes r) x.2)
      | Some _ => pace rs sent x.2
      end
  end.

Definition pacer_ok (p : Pacer) : Prop :=
  enabled p = true /\ 0 <= tokens p <= capacity p /\ capacity p < 2 ^ 64 /\ 0 <= granularity p < 2 ^ 64.

(** Times at which the pacer is asked, the first not before [t]. *)
Fixpoint times_ok (t : Instant) (rs : list request) (t' : Instant) : Prop :=
  match rs with
  | [] => t <= t'
  | r :: rs => t <= r_now r /\ times_ok (r_now r) rs t'
  end.

Lemma update_capacity_ok cwnd srtt mtu p :
  0 < cwnd < 2 ^ 64 -> 0 <= granularity p < 2 ^ 64 -> 0 < mtu < 2 ^ 32 ->
  exists c, update_capacity cwnd srtt mtu p =
      Ok (mkPacer (enabled p) c (tokens p) (last_cwnd p) (last_sched_time p) (granularity p)) /\
    MIN_BURST_PACKET_NUM * mtu <= c <= MAX_BURST_PACKET_NUM * mtu.
Proof.
  intros Hc Hg Hm. unfold update_capacity, mul128, MIN_BURST_PACKET_NUM, MAX_BURST_PACKET_NUM, clamp, mul64.
  assert (cwnd * granularity p < U128) as Hlt by (unfold U128; nia).
  destruct (Z.ltb_spec (cwnd * granularity p) U128); [|lia]. cbn [mbind outcome_bind].
  destruct (Z.ltb_spec (10 * mtu) 18446744073709551616); [|lia]. cbn [mbind outcome_bind].
  destruct (Z.ltb_spec (128 * mtu) 18446744073709551616); [|lia]. cbn [mbind outcome_bind].
  destruct (Z.leb_spec (10 * mtu) (128 * mtu)); [|lia]. cbn [mbind outcome_bind].
  eexists. split; [reflexivity|]. zcase; lia.
Qed.

Lemma adapt_ok srtt cwnd mtu p : pacer_ok p -> 0 < cwnd < 2 ^ 64 -> 0 < mtu < 2 ^ 32 ->
  exists p', adapt srtt cwnd mtu p = Ok p' /\ pacer_ok p' /\ last_sched_time p' = last_sched_time p /\ tokens p' <= tokens p.
Proof.
  intros (He & Ht & Hc & Hg) Hcw Hm. unfold adapt. destruct (cwnd =? last_cwnd p); [exists p; split_and!; done || lia|].
  destruct (update_capacity_ok cwnd srtt mtu p) as (c & -> & Hb); [done..|]. cbn. unfold MIN_BURST_PACKET_NUM, MAX_BURST_PACKET_NUM in Hb.
  eexists. split; [reflexivity|]. unfold pacer_ok. cbn. split_and!; done || lia.
Qed.

Lemma refill_ok rate now p : pacer_ok p -> 0 < rate < 2 ^ 64 -> last_sched_time p <= now < last_sched_time p + 2 ^ 62 ->
  exists p', refill rate now p = Ok p' /\ pacer_ok p' /\ last_sched_time p' = now /\
    tokens p' * 1000000000 <= tokens p * 1000000000 + rate * (now - last_sched_time p).
Proof.
  intros (He & Ht & Hc & Hg) Hr Hn. unfold refill, mul128, since, sat_sub.
  set (d := now - last_sched_time p) in *. rewrite Z.max_r by lia.
  assert (0 <= rate * d < U128) by (unfold U128; nia). destruct (Z.ltb_spec (rate * d) U128); [|lia].
  eexists. split; [reflexivity|]. cbn. unfold pacer_ok. cbn.
  pose proof (Z.mod_le (rate * d / 1000000000) (2 ^ 64) ltac:(apply Z.div_pos; lia) ltac:(lia)).
  pose proof (Z.mod_pos_bound (rate * d / 1000000000) (2 ^ 64) ltac:(lia)).
  pose proof (Z.mul_div_le (rate * d) 1000000000 ltac:(lia)). unfold sat_add64, wrap. split_and!; done || lia.
Qed.

Lemma ask_ok rate r p :
  pacer_ok p -> request_ok rate r -> rate < 2 ^ 64 -> last_sched_time p <= r_now r < last_sched_time p + 2 ^ 62 ->
  exists o p', ask r p = Ok (o, p') /\ pacer_ok p' /\ last_sched_time p <= last_sched_time p' <= r_now r /\
    tokens p' * 1000000000 <= tokens p * 1000000000 + rate * (last_sched_time p' - last_sched_time p) /\
    (o = None -> r_bytes r <= tokens p').
Proof.
  intros Hp (Hb & Hr & Hs & Hc & Hm) Hrate Hn. unfold ask, schedule. pose proof Hp as (-> & _).
  destruct (Z.eqb_spec (r_srtt r) 0); [lia|]. destruct (Z.eqb_spec (r_cwnd r) 0); [lia|]. destruct (Z.eqb_spec (r_rate r) 0); [lia|].
  cbn [negb orb]. destruct (adapt_ok (r_srtt r) (r_cwnd r) (r_mtu r) p) as (p1 & -> & Hp1 & Hl1 & Ht1); [done..|].
  cbn [mbind outcome_bind]. destruct (Z.leb_spec (r_bytes r) (tokens p1)).
  { exists None, p1. split_and!; [done..|lia|lia|nia|done]. }
  destruct (refill_ok (r_rate r) (r_now r) p1) as (p2 & -> & Hp2 & Hl2 & Ht2); [done|lia|lia|]. cbn [mbind outcome_bind].
  destruct (Z.leb_spec (r_bytes r) (tokens p2)).
  { exists None, p2. split_and!; [done..|lia|lia|nia|done]. }
  destruct Hp2 as (He2 & Hk2 & Hc2 & Hg2). unfold mul64, sat_sub. zcase; [|lia]. cbn [mbind outcome_bind].
  eexists _, p2. split; [reflexivity|]. split_and!; [done|lia..|nia|done].
Qed.

Lemma pace_ok rate t' rs : forall sent p,
  pacer_ok p -> Forall (request_ok rate) rs -> 0 <= rate < 2 ^ 64 -> times_ok (last_sched_time p) rs t' -> t' < last_sched_time p + 2 ^ 62 ->
  exists sent' p', pace rs sent p = Ok (sent', p') /\ pacer_ok p' /\ last_sched_time p <= last_sched_time p' <= t' /\
    sent' * 1000000000 + tokens p' * 1000000000 <=
      sent * 1000000000 + tokens p * 1000000000 + rate * (last_sched_time p' - last_sched_time p).
Proof.
  assert (forall rs t, times_ok t rs t' -> t <= t') as Hmono.
  { induction rs0 as [|r rs0 IH]; intros t Ht; [done|]. destruct Ht as [Ht1 Ht2]. apply IH in Ht2. lia. }
  induction rs as [|r rs IH]; intros sent p Hp Hrs Hrate Ht Hh.
  { exists sent, p. cbn in Ht. split_and!; done || lia. }
  destruct Ht as [Hn Ht]. pose proof (Hmono _ _ Ht). apply Forall_cons_1 in Hrs as [Hr Hrs]. cbn [pace].
  destruct (ask_ok rate r p) as (o & p1 & -> & Hp1 & Hl1 & Hk1 & Ho); [done..|lia|lia|]. cbn [mbind outcome_bind fst snd].
  assert (forall p, last_sched_time p <= r_now r -> times_ok (last_sched_time p) rs t') as Hearly.
  { intros p2 Hp2. destruct rs as [|r2 rs2]; cbn in *; [lia|]. split; [lia|apply Ht]. }
  destruct o as [w|].
  - destruct (IH sent p1) as (s' & p' & -> & Hp' & Hl' & Hk'); [done..|apply Hearly; cbn; lia|lia|].
    exists s', p'. split_and!; [done..|lia|lia|lia].
  - assert (enabled p1 = true) as He by apply Hp1. assert (r_bytes r <= tokens p1) as Hb by (by apply Ho).
    assert (0 <= r_bytes r) as Hb0 by apply Hr. set (p2 := on_sent (r_bytes r) p1).
    assert (p2 = mkPacer true (capacity p1) (tokens p1 - r_bytes r) (last_cwnd p1) (last_sched_time p1) (granularity p1)) as E.
    { unfold p2, on_sent. rewrite He. unfold sat_sub. by rewrite Z.max_r by lia. }
    destruct (IH (sent + r_bytes r) p2) as (s' & p' & -> & Hp' & Hl' & Hk'); rewrite ?E; cbn; [|done..|apply Hearly; cbn; lia|lia|].
    + destruct Hp1 as (_ & Hk & Hc & Hg). unfold pacer_ok. cbn. split_and!; done || lia.
    + rewrite E in Hl', Hk'. cbn in Hl', Hk'. exists s', p'. split_and!; [done..|lia|lia|lia].
Qed.

(** C35.  A sender that asks the pacer, in the order of time, before each packet
    and sends when it need not wait sends no more than the tokens it started with
    and those that accrue at the highest rate it was given: the bucket bounds
    bursts and rate, whatever the congestion window does.  The pacer does not
    panic, and its tokens stay within its capacity. *)
Theorem pacer_conforms rate t' rs p :
  pacer_ok p -> Forall (request_ok rate) rs -> 0 <= rate < 2 ^ 64 ->
  times_ok (last_sched_time p) rs t' -> t' < last_sched_time p + 2 ^ 62 ->
  exists sent p', pace rs 0 p = Ok (sent, p') /\ 0 <= tokens p' <= capacity p' /\
    sent * NANOS_PER_SEC <= tokens p * NANOS_PER_SEC + rate * (t' - last_sched_time p).
Proof.
  intros Hp Hrs Hr Ht Hh. destruct (pace_ok rate t' rs 0 p) as (sent & p' & -> & (_ & Hk & _) & Hl & Hs); [done..|].
  exists sent, p'. unfold NANOS_PER_SEC. split_and!; [done|lia..|]. nia.
Qed.

Lemma pacer_conforms_witness :
  exists sent p', pace (repeat (mkRequest 1200 1000000 (from_millis 50) 12000 1200 0) 12) 0
      (mkPacer true 12000 12000 12000 0 (from_millis 1)) = Ok (sent, p') /\ sent = 12000.
Proof.
  destruct (pacer_conforms 1000000 0 (repeat (mkRequest 1200 1000000 (from_millis 50) 12000 1200 0) 12)
    (mkPacer true 12000 12000 12000 0 (from_millis 1))) as (sent & p' & E & _).
  - unfold pacer_ok, from_millis. cbn. lia.
  - apply Forall_forall. intros r Hr. apply list_elem_of_In, repeat_spec in Hr. subst r.
    unfold request_ok, from_millis, DURATION_LIMIT, NANOS_PER_SEC. cbn. lia.
  - lia.
  - cbn. lia.
  - cbn. lia.
  - exists sent, p'. split; [exact E|]. vm_compute in E. congruence.
Defined.

(** A sender that asks every microsecond at 900 kB/s. *)
Definition impatient (n : nat) (t : Instant) : list request :=
  map (fun i => mkRequest 1200 900000 (from_millis 50) 45000 1200 (t + 1000 * (1 + Z.of_nat i))) (seq 0 n).

Lemma impatient_waits n : forall t,
  exists t', pace (impatient n t) 0 (mkPacer true 12000 0 45000 t (from_millis 1)) =
    Ok (0, mkPacer true 12000 0 45000 t' (from_millis 1)).
Proof.
  induction n as [|n IH]; intros t; [by exists t|].
  assert (impatient (S n) t = mkRequest 1200 900000 (from_millis 50) 45000 1200 (t + 1000) :: impatient n (t + 1000)) as ->.
  { unfold impatient. cbn [seq map]. f_equal. rewrite <- seq_shift, map_map. apply map_ext. intros i. f_equal. lia. }
  cbn [pace]. unfold ask, schedule, adapt, refill. cbn. unfold since, sat_sub. replace (t + 1000 - t) with 1000 by lia. cbn. apply IH.
Qed.

(** Each refill drops the fraction of a token that has accrued and restarts the
    clock, so a sender that is polled often enough waits for ever. *)
Theorem pacer_starves n : exists p', pace (impatient n 0) 0 (mkPacer true 12000 0 45000 0 (from_millis 1)) = Ok (0, p').
Proof. destruct (impatient_waits n 0) as (t' & ->). eauto. Qed.
