(* ===== verification/Congestion.v ===== *)
(** * The interface of congestion controllers

    Models the trait of [src/src/congestion_control/congestion_control.rs] as a
    class, with the part of its contract that loss recovery relies on: a
    controller may write its delivery-rate snapshot into a packet and nothing
    else.  [src/src/congestion_control/dummy.rs] is an instance. *)

From S2P Require Import Prelude.
From S2P Require Import Error.
From S2P Require Import Time.
From S2P Require Import Rtt.
From S2P Require Import Space.

Record CongestionStats := mkCStats {
  cs_bytes_in_flight : Z;
  cs_bytes_sent_in_slow_start : Z;
  cs_bytes_acked_in_slow_start : Z;
  cs_bytes_lost_in_slow_start : Z;
  cs_bytes_sent_in_total : Z;
  cs_bytes_acked_in_total : Z;
  cs_bytes_lost_in_total : Z;
}.

Class CongestionController (C : Type) := {
  cc_on_sent : Instant -> SentPacket -> Z -> C -> SentPacket * C;
  cc_begin_ack : Instant -> Z -> C -> C;
  cc_on_ack : SentPacket -> Instant -> bool -> RttEstimator.RttEstimator -> Z -> C -> SentPacket * C;
  cc_end_ack : C -> C;
  cc_on_congestion_event : Instant -> SentPacket -> bool -> Z -> Z -> C -> C;
  cc_in_slow_start : C -> bool;
  cc_in_recovery : Instant -> C -> bool;
  cc_congestion_window : C -> Z;
  cc_pacing_rate : C -> option Z;
  cc_initial_window : C -> Z;
  cc_minimal_window : C -> Z;
  cc_stats : C -> CongestionStats;
  cc_min_pacing_rate : C -> option Z;
  cc_set_max_datagram_size : Z -> C -> C;
  cc_set_app_limited : bool -> C -> C;
}.

(** What a controller may do to a packet. *)
Definition snapshot_only (p p' : SentPacket) : Prop := p' = with_rate_sample_state (rate_sample_state p') p.

Class LawfulController (C : Type) `{CongestionController C} := {
  cc_on_sent_snapshot : forall now p b c, snapshot_only p (cc_on_sent now p b c).1;
  cc_on_ack_snapshot : forall p now limited rtt b c, snapshot_only p (cc_on_ack p now limited rtt b c).1;
}.

#[global] Instance snapshot_only_refl : Reflexive snapshot_only.
Proof. by intros []. Qed.

(** ** The static controller *)

Module Dummy.

Record Dummy := mkDummy { cwnd : Z; stats : CongestionStats }.

(** [Dummy::new(DummyConfig::from(conf))] *)
Definition new (initial_congestion_window max_datagram_size : Z) : Dummy :=
  mkDummy (Z.min (initial_congestion_window * max_datagram_size) U64_MAX) (mkCStats 0 0 0 0 0 0 0).

Definition on_sent (now : Instant) (p : SentPacket) (bytes_in_flight : Z) (d : Dummy) : SentPacket * Dummy :=
  let s := stats d in
  (p, mkDummy (cwnd d) (mkCStats bytes_in_flight (cs_bytes_sent_in_slow_start s) (cs_bytes_acked_in_slow_start s)
        (cs_bytes_lost_in_slow_start s) (sat_add64 (cs_bytes_sent_in_total s) (sent_size p))
        (cs_bytes_acked_in_total s) (cs_bytes_lost_in_total s))).

Definition on_ack (p : SentPacket) (now : Instant) (app_limited : bool) (rtt : RttEstimator.RttEstimator)
    (bytes_in_flight : Z) (d : Dummy) : SentPacket * Dummy :=
  let s := stats d in
  (p, mkDummy (cwnd d) (mkCStats bytes_in_flight (cs_bytes_sent_in_slow_start s) (cs_bytes_acked_in_slow_start s)
        (cs_bytes_lost_in_slow_start s) (cs_bytes_sent_in_total s)
        (sat_add64 (cs_bytes_acked_in_total s) (sent_size p)) (cs_bytes_lost_in_total s))).

Definition on_congestion_event (now : Instant) (p : SentPacket) (persistent : bool) (lost_bytes bytes_in_flight : Z)
    (d : Dummy) : Dummy :=
  let s := stats d in
  mkDummy (cwnd d) (mkCStats bytes_in_flight (cs_bytes_sent_in_slow_start s) (cs_bytes_acked_in_slow_start s)
    (cs_bytes_lost_in_slow_start s) (cs_bytes_sent_in_total s) (cs_bytes_acked_in_total s)
    (sat_add64 (cs_bytes_lost_in_total s) lost_bytes)).

#[global] Instance dummy_controller : CongestionController Dummy := {|
  cc_on_sent := on_sent;
  cc_begin_ack := fun _ _ d => d;
  cc_on_ack := on_ack;
  cc_end_ack := fun d => d;
  cc_on_congestion_event := on_congestion_event;
  cc_in_slow_start := fun _ => false;
  cc_in_recovery := fun _ _ => false;
  cc_congestion_window := cwnd;
  cc_pacing_rate := fun _ => None;
  cc_initial_window := cwnd;
  cc_minimal_window := cwnd;
  cc_stats := stats;
  cc_min_pacing_rate := fun _ => None;
  cc_set_max_datagram_size := fun _ d => d;
  cc_set_app_limited := fun _ d => d;
|}.

#[global] Instance dummy_lawful : LawfulController Dummy.
Proof. split; intros; reflexivity. Qed.

End Dummy.
