(* ===== verification/Recovery.v ===== *)
(** * Loss recovery

    Models [src/src/connection/recovery.rs], one [Recovery] per path together with
    the packet number spaces it works on.  The congestion controller is any
    instance of its class; the current time, which the code takes from its caller
    or from [Instant::now()], is an argument.  The qlog events and trace messages
    are left out.  Sums of the sizes of packets that are held in memory are taken
    as integers. *)

From Stdlib Require Import Floats.SpecFloat.
From stdpp Require Import gmap.
From S2P Require Import Prelude.
From S2P Require Import Error.
From S2P Require Import Time.
From S2P Require Import Float64.
From S2P Require Import Ranges.
From S2P Require Import Packet.
From S2P Require Import Frame.
From S2P Require Import Rtt.
From S2P Require Import Space.
From S2P Require Import Pacing.
From S2P Require Import Congestion.

Definition INITIAL_PACKET_THRESHOLD : Z := 3.
Definition INITIAL_TIME_THRESHOLD : f64 := fdiv (of_int 9) (of_int 8).
Definition MAX_PTO_PROBES_COUNT : Z := 2.
Definition DEFAULT_SEND_UDP_PAYLOAD_SIZE : Z := 1200.

Record HandshakeStatus := mkStatus {
  derived_handshake_keys : bool;
  peer_verified_address : bool;
  completed : bool;
  is_server : bool;
  at_amplification_limit : bool;
}.

Record PathStats := mkStats {
  recv_count : Z;
  recv_bytes : Z;
  sent_count : Z;
  sent_bytes : Z;
  lost_count : Z;
  lost_bytes : Z;
  acked_count : Z;
  acked_bytes : Z;
  init_cwnd : Z;
  final_cwnd : Z;
  max_cwnd : Z;
  min_cwnd : Z;
  max_inflight : Z;
  loss_event_count : Z;
  spurious_loss_count : Z;
  cwnd_limited_count : Z;
  cwnd_limited_duration : Z;
  st_min_rtt : Z;
  st_max_rtt : Z;
  srtt : Z;
  st_rttvar : Z;
  st_in_slow_start : bool;
  st_pacing_rate : Z;
  st_min_pacing_rate : Z;
  st_pto_count : Z;
  reorder_count : Z;
  loss_rate_permille : Z;
}.

Definition stats_default : PathStats :=
  mkStats 0 0 0 0 0 0 0 0 0 0 0 0 0 0 0 0 0 0 0 0 0 false 0 0 0 0 0.

Definition with_recv_count (x : Z) (s : PathStats) : PathStats :=
  mkStats x (recv_bytes s) (sent_count s) (sent_bytes s) (lost_count s) (lost_bytes s) (acked_count s) (acked_bytes
    s) (init_cwnd s) (final_cwnd s) (max_cwnd s) (min_cwnd s) (max_inflight s) (loss_event_count s)
    (spurious_loss_count s) (cwnd_limited_count s) (cwnd_limited_duration s) (st_min_rtt s) (st_max_rtt s) (srtt s)
    (st_rttvar s) (st_in_slow_start s) (st_pacing_rate s) (st_min_pacing_rate s) (st_pto_count s) (reorder_count s)
    (loss_rate_permille s).
Definition with_recv_bytes (x : Z) (s : PathStats) : PathStats :=
  mkStats (recv_count s) x (sent_count s) (sent_bytes s) (lost_count s) (lost_bytes s) (acked_count s) (acked_bytes
    s) (init_cwnd s) (final_cwnd s) (max_cwnd s) (min_cwnd s) (max_inflight s) (loss_event_count s)
    (spurious_loss_count s) (cwnd_limited_count s) (cwnd_limited_duration s) (st_min_rtt s) (st_max_rtt s) (srtt s)
    (st_rttvar s) (st_in_slow_start s) (st_pacing_rate s) (st_min_pacing_rate s) (st_pto_count s) (reorder_count s)
    (loss_rate_permille s).
Definition with_sent_count (x : Z) (s : PathStats) : PathStats :=
  mkStats (recv_count s) (recv_bytes s) x (sent_bytes s) (lost_count s) (lost_bytes s) (acked_count s) (acked_bytes
    s) (init_cwnd s) (final_cwnd s) (max_cwnd s) (min_cwnd s) (max_inflight s) (loss_event_count s)
    (spurious_loss_count s) (cwnd_limited_count s) (cwnd_limited_duration s) (st_min_rtt s) (st_max_rtt s) (srtt s)
    (st_rttvar s) (st_in_slow_start s) (st_pacing_rate s) (st_min_pacing_rate s) (st_pto_count s) (reorder_count s)
    (loss_rate_permille s).
Definition with_sent_bytes (x : Z) (s : PathStats) : PathStats :=
  mkStats (recv_count s) (recv_bytes s) (sent_count s) x (lost_count s) (lost_bytes s) (acked_count s) (acked_bytes
    s) (init_cwnd s) (final_cwnd s) (max_cwnd s) (min_cwnd s) (max_inflight s) (loss_event_count s)
    (spurious_loss_count s) (cwnd_limited_count s) (cwnd_limited_duration s) (st_min_rtt s) (st_max_rtt s) (srtt s)
    (st_rttvar s) (st_in_slow_start s) (st_pacing_rate s) (st_min_pacing_rate s) (st_pto_count s) (reorder_count s)
    (loss_rate_permille s).
Definition with_lost_count (x : Z) (s : PathStats) : PathStats :=
  mkStats (recv_count s) (recv_bytes s) (sent_count s) (sent_bytes s) x (lost_bytes s) (acked_count s) (acked_bytes
    s) (init_cwnd s) (final_cwnd s) (max_cwnd s) (min_cwnd s) (max_inflight s) (loss_event_count s)
    (spurious_loss_count s) (cwnd_limited_count s) (cwnd_limited_duration s) (st_min_rtt s) (st_max_rtt s) (srtt s)
    (st_rttvar s) (st_in_slow_start s) (st_pacing_rate s) (st_min_pacing_rate s) (st_pto_count s) (reorder_count s)
    (loss_rate_permille s).
Definition with_lost_bytes (x : Z) (s : PathStats) : PathStats :=
  mkStats (recv_count s) (recv_bytes s) (sent_count s) (sent_bytes s) (lost_count s) x (acked_count s) (acked_bytes
    s) (init_cwnd s) (final_cwnd s) (max_cwnd s) (min_cwnd s) (max_inflight s) (loss_event_count s)
    (spurious_loss_count s) (cwnd_limited_count s) (cwnd_limited_duration s) (st_min_rtt s) (st_max_rtt s) (srtt s)
    (st_rttvar s) (st_in_slow_start s) (st_pacing_rate s) (st_min_pacing_rate s) (st_pto_count s) (reorder_count s)
    (loss_rate_permille s).
Definition with_acked_count (x : Z) (s : PathStats) : PathStats :=
  mkStats (recv_count s) (recv_bytes s) (sent_count s) (sent_bytes s) (lost_count s) (lost_bytes s) x (acked_bytes s)
    (init_cwnd s) (final_cwnd s) (max_cwnd s) (min_cwnd s) (max_inflight s) (loss_event_count s) (spurious_loss_count
    s) (cwnd_limited_count s) (cwnd_limited_duration s) (st_min_rtt s) (st_max_rtt s) (srtt s) (st_rttvar s)
    (st_in_slow_start s) (st_pacing_rate s) (st_min_pacing_rate s) (st_pto_count s) (reorder_count s)
    (loss_rate_permille s).
Definition with_acked_bytes (x : Z) (s : PathStats) : PathStats :=
  mkStats (recv_count s) (recv_bytes s) (sent_count s) (sent_bytes s) (lost_count s) (lost_bytes s) (acked_count s) x
    (init_cwnd s) (final_cwnd s) (max_cwnd s) (min_cwnd s) (max_inflight s) (loss_event_count s) (spurious_loss_count
    s) (cwnd_limited_count s) (cwnd_limited_duration s) (st_min_rtt s) (st_max_rtt s) (srtt s) (st_rttvar s)
    (st_in_slow_start s) (st_pacing_rate s) (st_min_pacing_rate s) (st_pto_count s) (reorder_count s)
    (loss_rate_permille s).
Definition with_init_cwnd (x : Z) (s : PathStats) : PathStats :=
  mkStats (recv_count s) (recv_bytes s) (sent_count s) (sent_bytes s) (lost_count s) (lost_bytes s) (acked_count s)
    (acked_bytes s) x (final_cwnd s) (max_cwnd s) (min_cwnd s) (max_inflight s) (loss_event_count s)
    (spurious_loss_count s) (cwnd_limited_count s) (cwnd_limited_duration s) (st_min_rtt s) (st_max_rtt s) (srtt s)
    (st_rttvar s) (st_in_slow_start s) (st_pacing_rate s) (st_min_pacing_rate s) (st_pto_count s) (reorder_count s)
    (loss_rate_permille s).
Definition with_final_cwnd (x : Z) (s : PathStats) : PathStats :=
  mkStats (recv_count s) (recv_bytes s) (sent_count s) (sent_bytes s) (lost_count s) (lost_bytes s) (acked_count s)
    (acked_bytes s) (init_cwnd s) x (max_cwnd s) (min_cwnd s) (max_inflight s) (loss_event_count s)
    (spurious_loss_count s) (cwnd_limited_count s) (cwnd_limited_duration s) (st_min_rtt s) (st_max_rtt s) (srtt s)
    (st_rttvar s) (st_in_slow_start s) (st_pacing_rate s) (st_min_pacing_rate s) (st_pto_count s) (reorder_count s)
    (loss_rate_permille s).
Definition with_max_cwnd (x : Z) (s : PathStats) : PathStats :=
  mkStats (recv_count s) (recv_bytes s) (sent_count s) (sent_bytes s) (lost_count s) (lost_bytes s) (acked_count s)
    (acked_bytes s) (init_cwnd s) (final_cwnd s) x (min_cwnd s) (max_inflight s) (loss_event_count s)
    (spurious_loss_count s) (cwnd_limited_count s) (cwnd_limited_duration s) (st_min_rtt s) (st_max_rtt s) (srtt s)
    (st_rttvar s) (st_in_slow_start s) (st_pacing_rate s) (st_min_pacing_rate s) (st_pto_count s) (reorder_count s)
    (loss_rate_permille s).
Definition with_min_cwnd (x : Z) (s : PathStats) : PathStats :=
  mkStats (recv_count s) (recv_bytes s) (sent_count s) (sent_bytes s) (lost_count s) (lost_bytes s) (acked_count s)
    (acked_bytes s) (init_cwnd s) (final_cwnd s) (max_cwnd s) x (max_inflight s) (loss_event_count s)
    (spurious_loss_count s) (cwnd_limited_count s) (cwnd_limited_duration s) (st_min_rtt s) (st_max_rtt s) (srtt s)
    (st_rttvar s) (st_in_slow_start s) (st_pacing_rate s) (st_min_pacing_rate s) (st_pto_count s) (reorder_count s)
    (loss_rate_permille s).
Definition with_max_inflight (x : Z) (s : PathStats) : PathStats :=
  mkStats (recv_count s) (recv_bytes s) (sent_count s) (sent_bytes s) (lost_count s) (lost_bytes s) (acked_count s)
    (acked_bytes s) (init_cwnd s) (final_cwnd s) (max_cwnd s) (min_cwnd s) x (loss_event_count s)
    (spurious_loss_count s) (cwnd_limited_count s) (cwnd_limited_duration s) (st_min_rtt s) (st_max_rtt s) (srtt s)
    (st_rttvar s) (st_in_slow_start s) (st_pacing_rate s) (st_min_pacing_rate s) (st_pto_count s) (reorder_count s)
    (loss_rate_permille s).
Definition with_spurious_loss_count (x : Z) (s : PathStats) : PathStats :=
  mkStats (recv_count s) (recv_bytes s) (sent_count s) (sent_bytes s) (lost_count s) (lost_bytes s) (acked_count s)
    (acked_bytes s) (init_cwnd s) (final_cwnd s) (max_cwnd s) (min_cwnd s) (max_inflight s) (loss_event_count s) x
    (cwnd_limited_count s) (cwnd_limited_duration s) (st_min_rtt s) (st_max_rtt s) (srtt s) (st_rttvar s)
    (st_in_slow_start s) (st_pacing_rate s) (st_min_pacing_rate s) (st_pto_count s) (reorder_count s)
    (loss_rate_permille s).
Definition with_cwnd_limited_count (x : Z) (s : PathStats) : PathStats :=
  mkStats (recv_count s) (recv_bytes s) (sent_count s) (sent_bytes s) (lost_count s) (lost_bytes s) (acked_count s)
    (acked_bytes s) (init_cwnd s) (final_cwnd s) (max_cwnd s) (min_cwnd s) (max_inflight s) (loss_event_count s)
    (spurious_loss_count s) x (cwnd_limited_duration s) (st_min_rtt s) (st_max_rtt s) (srtt s) (st_rttvar s)
    (st_in_slow_start s) (st_pacing_rate s) (st_min_pacing_rate s) (st_pto_count s) (reorder_count s)
    (loss_rate_permille s).
Definition with_cwnd_limited_duration (x : Z) (s : PathStats) : PathStats :=
  mkStats (recv_count s) (recv_bytes s) (sent_count s) (sent_bytes s) (lost_count s) (lost_bytes s) (acked_count s)
    (acked_bytes s) (init_cwnd s) (final_cwnd s) (max_cwnd s) (min_cwnd s) (max_inflight s) (loss_event_count s)
    (spurious_loss_count s) (cwnd_limited_count s) x (st_min_rtt s) (st_max_rtt s) (srtt s) (st_rttvar s)
    (st_in_slow_start s) (st_pacing_rate s) (st_min_pacing_rate s) (st_pto_count s) (reorder_count s)
    (loss_rate_permille s).

(** The fields of [RecoveryConfig] that are used here. *)
Record RecoveryConfig := mkConfig {
  conf_enable_dplpmtud : bool;
  conf_max_datagram_size : Z;
  conf_max_ack_delay : Duration;
  conf_initial_congestion_window : Z;
  conf_initial_rtt : Duration;
  conf_enable_pacing : bool;
  conf_pacing_granularity : Duration;
  conf_pto_linear_factor : Z;
  conf_max_pto : Duration;
  conf_ack_eliciting_threshold : Z;
}.

Definition with_conf_max_ack_delay (x : Duration) (c : RecoveryConfig) : RecoveryConfig :=
  mkConfig (conf_enable_dplpmtud c) (conf_max_datagram_size c) x (conf_initial_congestion_window c) (conf_initial_rtt c)
    (conf_enable_pacing c) (conf_pacing_granularity c) (conf_pto_linear_factor c) (conf_max_pto c)
    (conf_ack_eliciting_threshold c).

(** [2_u32.saturating_pow(n)] *)
Definition sat_pow2 (n : Z) : Z := if n <? 32 then 2 ^ n else 4294967295.

(** [a < b] on options of times. *)
Definition option_lt (a b : option Instant) : bool :=
  match a, b with
  | None, Some _ => true
  | Some a, Some b => a <? b
  | _, None => false
  end.

Module Recovery.

Section Recovery.
Context {C : Type} `{CongestionController C}.

Record Recovery := mkRecovery {
  max_ack_delay : Duration;
  max_datagram_size : Z;
  pto_linear_factor : Z;
  max_pto : Duration;
  pto_count : Z;
  loss_detection_timer : option Instant;
  pkt_thresh : Z;
  time_thresh : f64;
  bytes_in_flight : Z;
  ack_eliciting_in_flight : Z;
  rtt : RttEstimator.RttEstimator;
  congestion : C;
  pacer : Pacer.Pacer;
  pacer_timer : option Instant;
  cache_pkt_size : Z;
  last_cwnd_limited_time : option Instant;
  stats : PathStats;
}.

Abbreviation State := (Recovery * PacketNumSpaceMap.PacketNumSpaceMap)%type.

Definition with_max_datagram_size (x : Z) (r : Recovery) : Recovery :=
  mkRecovery (max_ack_delay r) x (pto_linear_factor r) (max_pto r) (pto_count r) (loss_detection_timer r) (pkt_thresh
    r) (time_thresh r) (bytes_in_flight r) (ack_eliciting_in_flight r) (rtt r) (congestion r) (pacer r) (pacer_timer
    r) (cache_pkt_size r) (last_cwnd_limited_time r) (stats r).
Definition with_pto_count (x : Z) (r : Recovery) : Recovery :=
  mkRecovery (max_ack_delay r) (max_datagram_size r) (pto_linear_factor r) (max_pto r) x (loss_detection_timer r)
    (pkt_thresh r) (time_thresh r) (bytes_in_flight r) (ack_eliciting_in_flight r) (rtt r) (congestion r) (pacer r)
    (pacer_timer r) (cache_pkt_size r) (last_cwnd_limited_time r) (stats r).
Definition with_loss_detection_timer (x : option Instant) (r : Recovery) : Recovery :=
  mkRecovery (max_ack_delay r) (max_datagram_size r) (pto_linear_factor r) (max_pto r) (pto_count r) x (pkt_thresh r)
    (time_thresh r) (bytes_in_flight r) (ack_eliciting_in_flight r) (rtt r) (congestion r) (pacer r) (pacer_timer r)
    (cache_pkt_size r) (last_cwnd_limited_time r) (stats r).
Definition with_pkt_thresh (x : Z) (r : Recovery) : Recovery :=
  mkRecovery (max_ack_delay r) (max_datagram_size r) (pto_linear_factor r) (max_pto r) (pto_count r)
    (loss_detection_timer r) x (time_thresh r) (bytes_in_flight r) (ack_eliciting_in_flight r) (rtt r) (congestion r)
    (pacer r) (pacer_timer r) (cache_pkt_size r) (last_cwnd_limited_time r) (stats r).
Definition with_bytes_in_flight (x : Z) (r : Recovery) : Recovery :=
  mkRecovery (max_ack_delay r) (max_datagram_size r) (pto_linear_factor r) (max_pto r) (pto_count r)
    (loss_detection_timer r) (pkt_thresh r) (time_thresh r) x (ack_eliciting_in_flight r) (rtt r) (congestion r)
    (pacer r) (pacer_timer r) (cache_pkt_size r) (last_cwnd_limited_time r) (stats r).
Definition with_ack_eliciting_in_flight (x : Z) (r : Recovery) : Recovery :=
  mkRecovery (max_ack_delay r) (max_datagram_size r) (pto_linear_factor r) (max_pto r) (pto_count r)
    (loss_detection_timer r) (pkt_thresh r) (time_thresh r) (bytes_in_flight r) x (rtt r) (congestion r) (pacer r)
    (pacer_timer r) (cache_pkt_size r) (last_cwnd_limited_time r) (stats r).
Definition with_rtt (x : RttEstimator.RttEstimator) (r : Recovery) : Recovery :=
  mkRecovery (max_ack_delay r) (max_datagram_size r) (pto_linear_factor r) (max_pto r) (pto_count r)
    (loss_detection_timer r) (pkt_thresh r) (time_thresh r) (bytes_in_flight r) (ack_eliciting_in_flight r) x
    (congestion r) (pacer r) (pacer_timer r) (cache_pkt_size r) (last_cwnd_limited_time r) (stats r).
Definition with_congestion (x : C) (r : Recovery) : Recovery :=
  mkRecovery (max_ack_delay r) (max_datagram_size r) (pto_linear_factor r) (max_pto r) (pto_count r)
    (loss_detection_timer r) (pkt_thresh r) (time_thresh r) (bytes_in_flight r) (ack_eliciting_in_flight r) (rtt r) x
    (pacer r) (pacer_timer r) (cache_pkt_size r) (last_cwnd_limited_time r) (stats r).
Definition with_pacer (x : Pacer.Pacer) (r : Recovery) : Recovery :=
  mkRecovery (max_ack_delay r) (max_datagram_size r) (pto_linear_factor r) (max_pto r) (pto_count r)
    (loss_detection_timer r) (pkt_thresh r) (time_thresh r) (bytes_in_flight r) (ack_eliciting_in_flight r) (rtt r)
    (congestion r) x (pacer_timer r) (cache_pkt_size r) (last_cwnd_limited_time r) (stats r).
Definition with_pacer_timer (x : option Instant) (r : Recovery) : Recovery :=
  mkRecovery (max_ack_delay r) (max_datagram_size r) (pto_linear_factor r) (max_pto r) (pto_count r)
    (loss_detection_timer r) (pkt_thresh r) (time_thresh r) (bytes_in_flight r) (ack_eliciting_in_flight r) (rtt r)
    (congestion r) (pacer r) x (cache_pkt_size r) (last_cwnd_limited_time r) (stats r).
Definition with_cache_pkt_size (x : Z) (r : Recovery) : Recovery :=
  mkRecovery (max_ack_delay r) (max_datagram_size r) (pto_linear_factor r) (max_pto r) (pto_count r)
    (loss_detection_timer r) (pkt_thresh r) (time_thresh r) (bytes_in_flight r) (ack_eliciting_in_flight r) (rtt r)
    (congestion r) (pacer r) (pacer_timer r) x (last_cwnd_limited_time r) (stats r).
Definition with_last_cwnd_limited_time (x : option Instant) (r : Recovery) : Recovery :=
  mkRecovery (max_ack_delay r) (max_datagram_size r) (pto_linear_factor r) (max_pto r) (pto_count r)
    (loss_detection_timer r) (pkt_thresh r) (time_thresh r) (bytes_in_flight r) (ack_eliciting_in_flight r) (rtt r)
    (congestion r) (pacer r) (pacer_timer r) (cache_pkt_size r) x (stats r).
Definition with_stats (x : PathStats) (r : Recovery) : Recovery :=
  mkRecovery (max_ack_delay r) (max_datagram_size r) (pto_linear_factor r) (max_pto r) (pto_count r)
    (loss_detection_timer r) (pkt_thresh r) (time_thresh r) (bytes_in_flight r) (ack_eliciting_in_flight r) (rtt r)
    (congestion r) (pacer r) (pacer_timer r) (cache_pkt_size r) (last_cwnd_limited_time r) x.
Definition with_max_ack_delay (x : Duration) (r : Recovery) : Recovery :=
  mkRecovery x (max_datagram_size r) (pto_linear_factor r) (max_pto r) (pto_count r) (loss_detection_timer r)
    (pkt_thresh r) (time_thresh r) (bytes_in_flight r) (ack_eliciting_in_flight r) (rtt r) (congestion r) (pacer r)
    (pacer_timer r) (cache_pkt_size r) (last_cwnd_limited_time r) (stats r).

Definition build_pacer_controller (conf : RecoveryConfig) (now : Instant) : res Pacer.Pacer :=
  Pacer.new (conf_enable_pacing conf) (conf_initial_rtt conf)
    (Z.min (conf_initial_congestion_window conf * conf_max_datagram_size conf) U64_MAX)
    (conf_max_datagram_size conf) now (conf_pacing_granularity conf).

(** The controller that was built for the configuration is an argument. *)
Definition new (conf : RecoveryConfig) (cc : C) (now : Instant) : res Recovery :=
  p ← build_pacer_controller conf now;
  mret (mkRecovery (conf_max_ack_delay conf) DEFAULT_SEND_UDP_PAYLOAD_SIZE (conf_pto_linear_factor conf)
    (conf_max_pto conf) 0 None INITIAL_PACKET_THRESHOLD INITIAL_TIME_THRESHOLD 0 0
    (RttEstimator.new (conf_initial_rtt conf)) cc p None (conf_max_datagram_size conf) None stats_default).

(** ** Statistics *)

Definition stat_recv_event (pkts bytes : Z) (r : Recovery) : Recovery :=
  with_stats (with_recv_bytes (sat_add64 (recv_bytes (stats r)) bytes)
    (with_recv_count (sat_add64 (recv_count (stats r)) pkts) (stats r))) r.
Definition stat_acked_event (pkts bytes : Z) (r : Recovery) : Recovery :=
  with_stats (with_acked_bytes (sat_add64 (acked_bytes (stats r)) bytes)
    (with_acked_count (sat_add64 (acked_count (stats r)) pkts) (stats r))) r.
Definition stat_lost_event (pkts bytes : Z) (r : Recovery) : Recovery :=
  with_stats (with_lost_bytes (sat_add64 (lost_bytes (stats r)) bytes)
    (with_lost_count (sat_add64 (lost_count (stats r)) pkts) (stats r))) r.
Definition stat_spurious_loss_event (n : Z) (r : Recovery) : Recovery :=
  with_stats (with_spurious_loss_count (sat_add64 (spurious_loss_count (stats r)) n) (stats r)) r.

Definition stat_cwnd_updated (r : Recovery) : Recovery :=
  let cwnd := cc_congestion_window (congestion r) in
  let s := stats r in
  let s := if init_cwnd s =? 0 then with_max_cwnd cwnd (with_min_cwnd cwnd (with_init_cwnd cwnd s)) else s in
  let s := with_final_cwnd cwnd s in
  let s := if max_cwnd s <? cwnd then with_max_cwnd cwnd s else s in
  let s := if cwnd <? min_cwnd s then with_min_cwnd cwnd s else s in
  let s := if max_inflight s <? bytes_in_flight r then with_max_inflight (bytes_in_flight r) s else s in
  with_stats s r.

Definition stat_sent_event (pkts bytes : Z) (r : Recovery) : Recovery :=
  stat_cwnd_updated (with_stats (with_sent_bytes (sat_add64 (sent_bytes (stats r)) bytes)
    (with_sent_count (sat_add64 (sent_count (stats r)) pkts) (stats r))) r).

Definition stat_cwnd_limited (now : Instant) (r : Recovery) : Recovery :=
  let limited := cc_congestion_window (congestion r) <=? bytes_in_flight r in
  match last_cwnd_limited_time r with
  | Some last =>
      let duration := wrap 64 (since now last / 1000000) in
      let r := with_stats (with_cwnd_limited_duration (sat_add64 (cwnd_limited_duration (stats r)) duration) (stats r)) r in
      with_last_cwnd_limited_time (if limited then Some now else None) r
  | None =>
      if limited
      then with_last_cwnd_limited_time (Some now)
             (with_stats (with_cwnd_limited_count (sat_add64 (cwnd_limited_count (stats r)) 1) (stats r)) r)
      else r
  end.

Definition stat_lazy_update (r : Recovery) : Recovery :=
  let s := stats r in
  let us d := wrap 64 (d / 1000) in
  with_stats (mkStats (recv_count s) (recv_bytes s) (sent_count s) (sent_bytes s) (lost_count s) (lost_bytes s)
    (acked_count s) (acked_bytes s) (init_cwnd s) (final_cwnd s) (max_cwnd s) (min_cwnd s) (max_inflight s)
    (loss_event_count s) (spurious_loss_count s) (cwnd_limited_count s) (cwnd_limited_duration s)
    (us (RttEstimator.min_rtt (rtt r))) (us (RttEstimator.max_rtt (rtt r))) (us (RttEstimator.smoothed_rtt (rtt r)))
    (us (RttEstimator.rttvar (rtt r))) (cc_in_slow_start (congestion r)) (default 0 (cc_pacing_rate (congestion r)))
    (default 0 (cc_min_pacing_rate (congestion r))) (pto_count r) (reorder_count s) (loss_rate_permille s)) r.

(** ** Bytes in flight *)

(** A packet leaves the network: acknowledged or lost. *)
Definition leave_space (p : SentPacket) (s : PacketNumSpace.PacketNumSpace) : PacketNumSpace.PacketNumSpace :=
  if in_flight p then
    let s := PacketNumSpace.with_bytes_in_flight (sat_sub (PacketNumSpace.bytes_in_flight s) (sent_size p)) s in
    if ack_eliciting p
    then PacketNumSpace.with_ack_eliciting_in_flight (sat_sub (PacketNumSpace.ack_eliciting_in_flight s) 1) s
    else s
  else s.
Definition leave (p : SentPacket) (r : Recovery) : Recovery :=
  if in_flight p then
    let r := with_bytes_in_flight (sat_sub (bytes_in_flight r) (sent_size p)) r in
    if ack_eliciting p then with_ack_eliciting_in_flight (sat_sub (ack_eliciting_in_flight r) 1) r else r
  else r.

(** ** Acknowledged packets *)

(** The local variables of [detect_acked_packets] besides the index into the
    sent packets. *)
Record AckScan := mkScan {
  sc_rec : Recovery;
  sc_space : PacketNumSpace.PacketNumSpace;
  sc_largest : Z;
  sc_time : Instant;
  sc_eliciting : bool;
  sc_newly : list AckedPacket;
}.

Definition ack_packet (now : Instant) (p : SentPacket) (st : AckScan) : SentPacket * AckScan :=
  let r := sc_rec st in
  let s := sc_space st in
  let p := with_time_acked (Some now) p in
  let r := match time_lost p with
           | Some _ => stat_spurious_loss_event 1 (with_pkt_thresh (sat_add64 (pkt_thresh r) 1) r)
           | None => r
           end in
  let s := leave_space p s in
  let r := leave p r in
  let '(p, r) :=
    if is_data_space (PacketNumSpace.id s) then
      let '(p, c) := cc_on_ack p now false (rtt r) (bytes_in_flight r) (congestion r) in
      (p, with_congestion c r)
    else (p, r) in
  let r := stat_acked_event 1 (sent_size p) r in
  let s := PacketNumSpace.with_acked (PacketNumSpace.acked s ++ frames p) s in
  (with_frames [] p,
   mkScan r s (pkt_num p) (time_sent p) (if ack_eliciting p then true else sc_eliciting st)
     (sc_newly st ++ [mkAcked (pkt_num p) (time_sent p) (since now (time_sent p))])).

(** One range: the packets passed over or acknowledged, and those still ahead. *)
Fixpoint scan_range (now : Instant) (rg : Range) (ahead : list SentPacket) (st : AckScan)
  : list SentPacket * list SentPacket * AckScan :=
  match ahead with
  | [] => ([], [], st)
  | p :: ahead' =>
      if (pkt_num p <? start rg) || bool_decide (is_Some (time_acked p)) then
        let '(d, a, st) := scan_range now rg ahead' st in (p :: d, a, st)
      else if end_ rg <=? pkt_num p then ([], ahead, st)
      else
        let '(p, st) := ack_packet now p st in
        let '(d, a, st) := scan_range now rg ahead' st in (p :: d, a, st)
  end.

Fixpoint scan_ranges (now : Instant) (rgs : list Range) (ahead : list SentPacket) (st : AckScan)
  : list SentPacket * AckScan :=
  match rgs with
  | [] => (ahead, st)
  | rg :: rgs =>
      let '(d, a, st) := scan_range now rg ahead st in
      let '(rest, st) := scan_ranges now rgs a st in
      (d ++ rest, st)
  end.

Definition detect_acked_packets (ranges : RangeSet.RangeSet) (now : Instant) (r : Recovery)
    (s : PacketNumSpace.PacketNumSpace)
  : option Duration * list AckedPacket * Recovery * PacketNumSpace.PacketNumSpace :=
  let '(sent, st) := scan_ranges now (RangeSet.iter ranges) (PacketNumSpace.sent s) (mkScan r s 0 now false []) in
  let s := PacketNumSpace.with_sent sent (sc_space st) in
  let sample :=
    if (sc_largest st =? PacketNumSpace.largest_acked_pkt s) && sc_eliciting st
    then Some (since now (sc_time st)) else None in
  (sample, sc_newly st, sc_rec st, s).

(** ** Lost packets *)

Definition in_persistent_congestion (r : Recovery) : bool := false.

Record LossScan := mkLoss {
  ls_rec : Recovery;
  ls_space : PacketNumSpace.PacketNumSpace;
  ls_packets : Z;
  ls_bytes : Z;
  ls_latest : option SentPacket;
}.

Definition lose_packet (now : Instant) (p : SentPacket) (st : LossScan) : SentPacket * LossScan :=
  let s := PacketNumSpace.with_lost (PacketNumSpace.lost (ls_space st) ++ frames p) (ls_space st) in
  let p := with_time_lost (Some now) (with_frames [] p) in
  (p, mkLoss (leave p (ls_rec st)) (leave_space p s) (ls_packets st + 1)
        (if in_flight p then ls_bytes st + sent_size p else ls_bytes st)
        (if pmtu_probe p then ls_latest st else Some p)).

Definition keep_packet (loss_delay : Duration) (p : SentPacket) (st : LossScan) : LossScan :=
  let t := time_sent p + loss_delay in
  let t := match PacketNumSpace.loss_time (ls_space st) with None => t | Some t' => Z.min t' t end in
  mkLoss (ls_rec st) (PacketNumSpace.with_loss_time (Some t) (ls_space st)) (ls_packets st) (ls_bytes st) (ls_latest st).

Fixpoint scan_lost (now : Instant) (loss_delay : Duration) (largest_acked_pkt : Z) (sent : list SentPacket) (st : LossScan)
  : list SentPacket * LossScan :=
  match sent with
  | [] => ([], st)
  | p :: sent' =>
      if largest_acked_pkt <? pkt_num p then (sent, st)
      else if bool_decide (is_Some (time_acked p)) || bool_decide (is_Some (time_lost p)) then
        let '(l, st) := scan_lost now loss_delay largest_acked_pkt sent' st in (p :: l, st)
      else
        let '(p, st) :=
          if (time_sent p <=? now - loss_delay) || (pkt_num p + pkt_thresh (ls_rec st) <=? largest_acked_pkt)
          then lose_packet now p st else (p, keep_packet loss_delay p st) in
        let '(l, st) := scan_lost now loss_delay largest_acked_pkt sent' st in
        (p :: l, st)
  end.

Definition loss_delay (r : Recovery) : res Duration :=
  d ← mul_f64 (Z.max (RttEstimator.latest_rtt (rtt r)) (RttEstimator.smoothed_rtt (rtt r))) (time_thresh r);
  mret (Z.max d TIMER_GRANULARITY).

Definition detect_lost_packets (now : Instant) (r : Recovery) (s : PacketNumSpace.PacketNumSpace)
  : res (Z * Z * Recovery * PacketNumSpace.PacketNumSpace) :=
  let s := PacketNumSpace.with_loss_time None s in
  d ← loss_delay r;
  let '(sent, st) := scan_lost now d (PacketNumSpace.largest_acked_pkt s) (PacketNumSpace.sent s) (mkLoss r s 0 0 None) in
  let s := PacketNumSpace.with_sent sent (ls_space st) in
  let r := ls_rec st in
  let r := match ls_latest st with
           | Some p =>
               if is_data_space (PacketNumSpace.id s)
               then with_congestion (cc_on_congestion_event now p (in_persistent_congestion r) (ls_bytes st)
                      (bytes_in_flight r) (congestion r)) r
               else r
           | None => r
           end in
  mret (ls_packets st, ls_bytes st, stat_lost_event (ls_packets st) (ls_bytes st) r, s).

(** The packets that are removed from the front: acknowledged, or lost for longer
    than a round trip. *)
Fixpoint drain (now : Instant) (rtt : Duration) (sent : list SentPacket) : list SentPacket :=
  match sent with
  | [] => []
  | p :: sent' =>
      match time_acked p, time_lost p with
      | None, None => sent
      | _, Some t => if now <? t + rtt then sent else drain now rtt sent'
      | _, None => drain now rtt sent'
      end
  end.

Definition drain_sent_packets (now : Instant) (rtt : Duration) (s : PacketNumSpace.PacketNumSpace)
  : PacketNumSpace.PacketNumSpace :=
  PacketNumSpace.with_sent (drain now rtt (PacketNumSpace.sent s)) s.

(** ** Timers *)

Definition candidates (space_id : SpaceId) : list SpaceId :=
  if is_data_space space_id then [SpaceInitial; SpaceHandshake; space_id]
  else [SpaceInitial; SpaceHandshake; SpaceData].

Fixpoint earliest_loss (cs : list SpaceId) (m : PacketNumSpaceMap.PacketNumSpaceMap)
    (time : option Instant) (sid : SpaceId) : option Instant * SpaceId :=
  match cs with
  | [] => (time, sid)
  | c :: cs =>
      match PacketNumSpaceMap.get c m with
      | None => earliest_loss cs m time sid
      | Some s =>
          let new_time := PacketNumSpace.loss_time s in
          if bool_decide (time = None) || (bool_decide (is_Some new_time) && option_lt new_time time)
          then earliest_loss cs m new_time c
          else earliest_loss cs m time sid
      end
  end.

Definition get_loss_time_and_space (space_id : SpaceId) (m : PacketNumSpaceMap.PacketNumSpaceMap)
  : option Instant * SpaceId :=
  earliest_loss (candidates space_id) m None SpaceInitial.

Definition backoff (r : Recovery) : Z := sat_pow2 (wrap 32 (sat_sub (pto_count r) (pto_linear_factor r))).

Definition calculate_pto (r : Recovery) : res Duration :=
  base ← RttEstimator.pto_base (rtt r);
  d ← dur_mul base (backoff r);
  mret (Z.min d (max_pto r)).

Definition pto_with_ack_delay (duration : Duration) (r : Recovery) : res Duration :=
  d ← dur_mul (max_ack_delay r) (backoff r);
  d ← dur_add duration d;
  mret (Z.min d (max_pto r)).

Fixpoint earliest_pto (cs : list SpaceId) (m : PacketNumSpaceMap.PacketNumSpaceMap) (h : HandshakeStatus) (r : Recovery)
    (duration : Duration) (timeout : option Instant) (sid : SpaceId) : res (option Instant * SpaceId) :=
  match cs with
  | [] => Ok (timeout, sid)
  | c :: cs =>
      match PacketNumSpaceMap.get c m with
      | None => earliest_pto cs m h r duration timeout sid
      | Some s =>
          if PacketNumSpace.ack_eliciting_in_flight s =? 0 then earliest_pto cs m h r duration timeout sid
          else if bool_decide (c = SpaceData) && negb (completed h) then Ok (timeout, sid)
          else
            duration ← (if bool_decide (c = SpaceData) then pto_with_ack_delay duration r else Ok duration);
            let new_time := (fun t => t + duration) <$> PacketNumSpace.time_of_last_sent_ack_eliciting_pkt s in
            if bool_decide (timeout = None) || option_lt new_time timeout
            then earliest_pto cs m h r duration new_time c
            else earliest_pto cs m h r duration timeout sid
      end
  end.

Definition get_pto_time_and_space (space_id : SpaceId) (m : PacketNumSpaceMap.PacketNumSpaceMap) (h : HandshakeStatus)
    (now : Instant) (r : Recovery) : res (option Instant * SpaceId) :=
  duration ← calculate_pto r;
  if ack_eliciting_in_flight r =? 0 then
    mret (Some (now + duration), if derived_handshake_keys h then SpaceHandshake else SpaceInitial)
  else earliest_pto (candidates space_id) m h r duration None SpaceInitial.

Definition set_loss_detection_timer (space_id : SpaceId) (h : HandshakeStatus) (now : Instant)
    (m : PacketNumSpaceMap.PacketNumSpaceMap) (r : Recovery) : res Recovery :=
  match (get_loss_time_and_space space_id m).1 with
  | Some t => mret (with_loss_detection_timer (Some t) r)
  | None =>
      if is_server h && at_amplification_limit h then mret (with_loss_detection_timer None r)
      else if (ack_eliciting_in_flight r =? 0) && peer_verified_address h then mret (with_loss_detection_timer None r)
      else
        x ← get_pto_time_and_space space_id m h now r;
        mret (with_loss_detection_timer x.1 r)
  end.

Definition arm (space_id : SpaceId) (h : HandshakeStatus) (now : Instant) : cursor Error State unit := fun '(r, m) =>
  r ← set_loss_detection_timer space_id h now m r;
  mret (tt, (r, m)).

(** ** Events *)

Definition on_packet_sent (p : SentPacket) (space_id : SpaceId) (h : HandshakeStatus) (now : Instant)
  : cursor Error State unit := fun '(r, m) =>
  let p := with_time_sent now p in
  match PacketNumSpaceMap.get space_id m with
  | None => mret (tt, (r, m))
  | Some s =>
      let '(q, r) :=
        if in_flight p && is_data_space space_id then
          let '(q, c) := cc_on_sent now p (bytes_in_flight r) (congestion r) in (q, with_congestion c r)
        else (p, r) in
      let s := PacketNumSpace.with_sent (PacketNumSpace.sent s ++ [q]) s in
      let s := PacketNumSpace.with_consecutive_non_ack_eliciting_sent
        (if ack_eliciting p then 0 else PacketNumSpace.consecutive_non_ack_eliciting_sent s + 1) s in
      x ← (if in_flight p then
             let s := if ack_eliciting p then
                 PacketNumSpace.with_ack_eliciting_in_flight (PacketNumSpace.ack_eliciting_in_flight s + 1)
                   (PacketNumSpace.with_loss_probes (sat_sub (PacketNumSpace.loss_probes s) 1)
                     (PacketNumSpace.with_time_of_last_sent_ack_eliciting_pkt (Some now) s))
               else s in
             let r := if ack_eliciting p then with_ack_eliciting_in_flight (ack_eliciting_in_flight r + 1) r else r in
             let s := PacketNumSpace.with_bytes_in_flight (PacketNumSpace.bytes_in_flight s + sent_size p) s in
             let r := with_cache_pkt_size (sent_size p) (with_bytes_in_flight (bytes_in_flight r + sent_size p) r) in
             arm space_id h now (r, PacketNumSpaceMap.set space_id s m)
           else mret (tt, (r, PacketNumSpaceMap.set space_id s m)));
      let '(r, m) := x.2 in
      let r := if pacing p then with_pacer (Pacer.on_sent (sent_size p) (pacer r)) r else r in
      mret (tt, (r, m))
  end.

Definition on_ack_received (ranges : RangeSet.RangeSet) (ack_delay : Z) (space_id : SpaceId) (h : HandshakeStatus)
    (now : Instant) : cursor Error State (Z * Z) := fun '(r, m) =>
  s ← ok_or InternalError (PacketNumSpaceMap.get space_id m);
  o ← RangeSet.max ranges;
  largest ← unwrap o;
  let s := PacketNumSpace.with_largest_acked_pkt
    (if PacketNumSpace.largest_acked_pkt s =? U64_MAX then largest
     else Z.max (PacketNumSpace.largest_acked_pkt s) largest) s in
  let r := if is_data_space space_id
           then with_congestion (cc_begin_ack now (bytes_in_flight r) (congestion r)) r else r in
  let '(sample, newly, r, s) := detect_acked_packets ranges now r s in
  match newly with
  | [] => mret (0, 0, (r, PacketNumSpaceMap.set space_id s m))
  | _ =>
      r ← (match sample with
           | Some t =>
               let d := from_micros ack_delay in
               let d := if completed h then Z.min d (max_ack_delay r) else d in
               if t =? 0 then Ok r else e ← RttEstimator.update d t (rtt r); mret (with_rtt e r)
           | None => Ok r
           end);
      x ← detect_lost_packets now r s;
      let '(lost_packets, lost_bytes, r, s) := x in
      let s := drain_sent_packets now (RttEstimator.smoothed_rtt (rtt r)) s in
      let r := if is_data_space space_id then with_congestion (cc_end_ack (congestion r)) r else r in
      let r := with_pto_count 0 r in
      x ← arm space_id h now (r, PacketNumSpaceMap.set space_id s m);
      mret (lost_packets, lost_bytes, x.2)
  end.

(** The frames of the oldest unacknowledged packets with data, at most [n]. *)
Definition probe_frames (n : Z) (sent : list SentPacket) : list Frame :=
  concat (map frames (ztake n (List.filter (fun p =>
    has_data p && negb (bool_decide (is_Some (time_acked p))) && negb (bool_decide (is_Some (time_lost p)))) sent))).

Definition on_loss_detection_timeout (space_id : SpaceId) (h : HandshakeStatus) (now : Instant)
  : cursor Error State (Z * Z) := fun '(r, m) =>
  let '(earliest_loss_time, sid) := get_loss_time_and_space space_id m in
  match PacketNumSpaceMap.get sid m with
  | None => mret (0, 0, (r, m))
  | Some s =>
      match earliest_loss_time with
      | Some _ =>
          x ← detect_lost_packets now r s;
          let '(lost_packets, lost_bytes, r, s) := x in
          let s := drain_sent_packets now (RttEstimator.smoothed_rtt (rtt r)) s in
          x ← arm space_id h now (r, PacketNumSpaceMap.set sid s m);
          mret (lost_packets, lost_bytes, x.2)
      | None =>
          sid ← (if 0 <? ack_eliciting_in_flight r then
                   x ← get_pto_time_and_space space_id m h now r; mret x.2
                 else mret (if derived_handshake_keys h then SpaceHandshake else SpaceInitial));
          match PacketNumSpaceMap.get sid m with
          | None => mret (0, 0, (r, m))
          | Some s =>
              let r := with_pto_count (pto_count r + 1) r in
              let probes := match sid with
                            | SpaceInitial | SpaceHandshake => 1
                            | _ => Z.min (pto_count r) MAX_PTO_PROBES_COUNT
                            end in
              let s := PacketNumSpace.with_loss_probes probes s in
              let s := PacketNumSpace.with_lost
                (PacketNumSpace.lost s ++ probe_frames probes (PacketNumSpace.sent s)) s in
              x ← arm space_id h now (r, PacketNumSpaceMap.set sid s m);
              mret (0, 0, x.2)
          end
      end
  end.

Definition remove_from_bytes_in_flight (sent : list SentPacket) (r : Recovery) : Recovery :=
  foldl (fun r p =>
    if negb (in_flight p) || bool_decide (is_Some (time_acked p)) || bool_decide (is_Some (time_lost p))
    then r else leave p r) r sent.

Definition on_pkt_num_space_discarded (space_id : SpaceId) (h : HandshakeStatus) (now : Instant)
  : cursor Error State unit := fun '(r, m) =>
  match PacketNumSpaceMap.get space_id m with
  | None => mret (tt, (r, m))
  | Some s =>
      let r := remove_from_bytes_in_flight (PacketNumSpace.sent s) r in
      let s := PacketNumSpace.with_acked [] (PacketNumSpace.with_lost [] (PacketNumSpace.with_sent [] s)) in
      let s := PacketNumSpace.with_ack_eliciting_in_flight 0 (PacketNumSpace.with_bytes_in_flight 0
        (PacketNumSpace.with_loss_probes 0 (PacketNumSpace.with_loss_time None
          (PacketNumSpace.with_time_of_last_sent_ack_eliciting_pkt None s)))) in
      arm space_id h now (r, PacketNumSpaceMap.set space_id s m)
  end.

Definition update_max_datagram_size (size : Z) (is_upper : bool) (r : Recovery) : Recovery :=
  let size := if is_upper then Z.min (max_datagram_size r) size else size in
  with_max_datagram_size size (with_congestion (cc_set_max_datagram_size size (congestion r)) r).

(** ** Permission to send *)

Definition can_pacing (now : Instant) (r : Recovery) : res (bool * Recovery) :=
  r ← (match cc_pacing_rate (congestion r) with
       | Some pr =>
           x ← Pacer.schedule (cache_pkt_size r) pr (RttEstimator.smoothed_rtt (rtt r))
                 (cc_congestion_window (congestion r)) (max_datagram_size r) now (pacer r);
           mret (with_pacer x.2 (with_pacer_timer x.1 r))
       | None => Ok r
       end);
  mret (bool_decide (pacer_timer r = None), r).

Definition can_send (now : Instant) (r : Recovery) : res (bool * Recovery) :=
  if cc_congestion_window (congestion r) <=? bytes_in_flight r then Ok (false, r)
  else if Pacer.enabled (pacer r) then can_pacing now r
  else Ok (true, r).

End Recovery.

End Recovery.
