(* ===== verification/RecoveryProps.v ===== *)
(** * Correctness of loss recovery

    The scan that acknowledges packets is compared with a reference; the packets
    declared lost and the timer are characterised; and for every history of a path
    the bytes in flight are related to the packets that are still outstanding,
    and every frame that was sent is accounted for. *)

From Stdlib Require Import Floats.SpecFloat.
From stdpp Require Import gmap sorting.
From S2P Require Import Prelude.
From S2P Require Import Error.
From S2P Require Import Time.
From S2P Require Import Float64.
From S2P Require Import Ranges.
From S2P Require Import Packet.
From S2P Require Import Frame.
From S2P Require Import Rtt.
From S2P Require Import Space.
From S2P Require Import Pacing.
From S2P Require Import Congestion.
From S2P Require Import Recovery.

Import Recovery.

(** Packets in the order of their numbers. *)
Fixpoint ascending (lo : Z) (l : list SentPacket) : Prop :=
  match l with
  | [] => True
  | p :: l => lo < pkt_num p /\ ascending (pkt_num p) l
  end.

Lemma ascending_weaken lo lo' l : lo' <= lo -> ascending lo l -> ascending lo' l.
Proof. destruct l; cbn; intuition lia. Qed.

Lemma ascending_above lo l : ascending lo l -> Forall (fun p => lo < pkt_num p) l.
Proof.
  revert lo. induction l as [|p l IH]; intros lo; [constructor|]. intros [Hp Hl]. constructor; [done|].
  eapply Forall_impl; [by apply IH|]. cbn. lia.
Qed.

Section Props.
Context {C : Type} `{LawfulController C}.

Abbreviation Space := PacketNumSpace.PacketNumSpace.
Abbreviation Rec := (@Recovery C).

(** ** Acknowledging packets *)

(** The reference: go through the sent packets and acknowledge each that is in
    the set and not yet acknowledged. *)
Fixpoint ack_ref (now : Instant) (inside : Z -> bool) (sent : list SentPacket) (st : @AckScan C)
  : list SentPacket * @AckScan C :=
  match sent with
  | [] => ([], st)
  | p :: sent =>
      let '(p, st) :=
        if inside (pkt_num p) && negb (bool_decide (is_Some (time_acked p))) then ack_packet now p st else (p, st) in
      let '(l, st) := ack_ref now inside sent st in
      (p :: l, st)
  end.

Definition inside_list (m : list (Z * Z)) (x : Z) : bool := existsb (fun p => (p.1 <=? x) && (x <? p.2)) m.

Lemma ack_ref_ext now f g sent : Forall (fun p => f (pkt_num p) = g (pkt_num p)) sent ->
  forall st, ack_ref now f sent st = ack_ref now g sent st.
Proof.
  induction 1 as [|p sent Hp _ IH]; intros st; [done|]. cbn [ack_ref]. rewrite Hp.
  destruct (if _ : bool then _ else _) as [p' st']. by rewrite IH.
Qed.

Lemma ack_ref_none now sent : forall st, ack_ref now (fun _ => false) sent st = (sent, st).
Proof. induction sent as [|p sent IH]; intros st; [done|]. cbn. by rewrite IH. Qed.

Lemma inside_cons a b m x : inside_list ((a, b) :: m) x = ((a <=? x) && (x <? b)) || inside_list m x.
Proof. done. Qed.

Lemma inside_low m lo x : RangeSet.chain lo m -> x <= lo -> inside_list m x = false.
Proof.
  revert lo. induction m as [|[a b] m IH]; intros lo; [done|]. intros (Ha & Hab & Hm) Hx.
  rewrite inside_cons, (IH b) by (done || lia). zcase; done || lia.
Qed.

(** One range of the scan does the packets up to its end. *)
Lemma scan_range_ref now a b m sent : a < b -> RangeSet.chain b m -> forall lo st, ascending lo sent ->
  (let '(d, ahead, st1) := scan_range now (mkRange a b) sent st in
   let '(rest, st2) := ack_ref now (inside_list m) ahead st1 in (d ++ rest, st2)) =
  ack_ref now (inside_list ((a, b) :: m)) sent st.
Proof.
  intros Hab Hm. induction sent as [|p sent IH]; intros lo st Hs; [done|]. destruct Hs as [Hp Hs].
  assert (forall st, ack_ref now (inside_list ((a, b) :: m)) sent st =
    let '(d, ahead, st1) := scan_range now (mkRange a b) sent st in
    let '(rest, st2) := ack_ref now (inside_list m) ahead st1 in (d ++ rest, st2)) as IH'.
  { intros st'. symmetry. by apply (IH (pkt_num p)). }
  cbn [scan_range start end_].
  destruct (Z.ltb_spec (pkt_num p) a) as [Hlt|Hge]; cbn [orb];
    [|destruct (bool_decide (is_Some (time_acked p))) eqn:Hack; [|destruct (Z.leb_spec b (pkt_num p)) as [Hend|Hin]]].
  - cbn [ack_ref]. rewrite inside_cons, (inside_low m b) by (done || lia). destruct (Z.leb_spec a (pkt_num p)); [lia|].
    cbn [andb orb]. rewrite IH'. destruct (scan_range now _ sent st) as [[d ahead] st1].
    by destruct (ack_ref now (inside_list m) ahead st1).
  - cbn [ack_ref]. rewrite Hack, andb_false_r, IH'. destruct (scan_range now _ sent st) as [[d ahead] st1].
    by destruct (ack_ref now (inside_list m) ahead st1).
  - rewrite (ack_ref_ext now (inside_list ((a, b) :: m)) (inside_list m)).
    + cbn [app]. by destruct (ack_ref now (inside_list m) (p :: sent) st).
    + eapply Forall_impl; [apply (ascending_above (b - 1)); split; [lia|done]|]. intros q Hq. cbn in Hq.
      rewrite inside_cons. destruct (Z.ltb_spec (pkt_num q) b); [lia|]. by rewrite andb_false_r.
  - cbn [ack_ref]. rewrite Hack, inside_cons. destruct (Z.leb_spec a (pkt_num p)); [|lia].
    destruct (Z.ltb_spec (pkt_num p) b); [|lia]. cbn [andb orb negb]. destruct (ack_packet now p st) as [p' st'].
    rewrite IH'. destruct (scan_range now _ sent st') as [[d ahead] st1]. by destruct (ack_ref now (inside_list m) ahead st1).
Qed.

Lemma scan_range_suffix now rg sent : forall st, exists pre, sent = pre ++ (scan_range now rg sent st).1.2.
Proof.
  induction sent as [|p sent IH]; intros st; [by exists []|]. cbn [scan_range]. destruct (_ || _).
  - destruct (IH st) as [pre E]. exists (p :: pre). destruct (scan_range now rg sent st) as [[d a] st1]. cbn in *. by rewrite E at 1.
  - destruct (_ <=? _); [by exists []|]. destruct (ack_packet now p st) as [p' st']. destruct (IH st') as [pre E].
    exists (p :: pre). destruct (scan_range now rg sent st') as [[d a] st1]. cbn in *. by rewrite E at 1.
Qed.

Lemma ascending_app lo a b : ascending lo (a ++ b) -> exists lo', ascending lo' b.
Proof.
  revert lo. induction a as [|p a IH]; intros lo; [by exists lo|]. intros [_ Ha]. by eapply IH.
Qed.

Lemma scan_ranges_ref now m : forall lo lo' sent st,
  RangeSet.chain lo m -> ascending lo' sent ->
  scan_ranges now (map to_range m) sent st = ack_ref now (inside_list m) sent st.
Proof.
  induction m as [|[a b] m IH]; intros lo lo' sent st Hm Hs; [by rewrite (ack_ref_none now sent)|].
  destruct Hm as (Ha & Hab & Hm). cbn [map scan_ranges]. change (to_range (a, b)) with (mkRange a b).
  rewrite <- (scan_range_ref now a b m sent Hab Hm lo' st Hs).
  destruct (scan_range_suffix now (mkRange a b) sent st) as [pre E].
  destruct (scan_range now (mkRange a b) sent st) as [[d ahead] st1]. cbn in E.
  rewrite E in Hs. apply ascending_app in Hs as [lo2 Hs]. by rewrite (IH b lo2).
Qed.

Lemma inside_contains s x : RangeSet.wf s -> inside_list (RangeSet.set s) x = RangeSet.contains s x.
Proof.
  intros Hwf. apply Bool.eq_iff_eq_true. rewrite RangeSet.contains_spec by done. unfold RangeSet.mem, RangeSet.mem_list, inside_list.
  rewrite existsb_exists, Exists_exists. split.
  - intros (p & Hp%list_elem_of_In & E). exists p. split; [done|]. apply andb_true_iff in E. lia.
  - intros (p & Hp & E). exists p. split; [by apply list_elem_of_In|]. apply andb_true_iff. lia.
Qed.

(** ** What is in flight *)

Definition resolved (p : SentPacket) : bool := bool_decide (is_Some (time_acked p)) || bool_decide (is_Some (time_lost p)).

(** What a packet counts for: its bytes, and one if it elicits an acknowledgment. *)
Definition fly (p : SentPacket) : Z := if in_flight p && negb (resolved p) then sent_size p else 0.
Definition fly1 (p : SentPacket) : Z := if in_flight p && ack_eliciting p && negb (resolved p) then 1 else 0.
Definition total (f : SentPacket -> Z) (l : list SentPacket) : Z := foldr (fun p n => f p + n) 0 l.

(** A counter [a] for a sum [b]: never above it, and exact if [e] holds. *)
Definition counted (e : bool) (a b : Z) : Prop := 0 <= a <= b /\ (e = true -> a = b).

Lemma counted_sub e a b x : counted e a (x + b) -> 0 <= x -> 0 <= b -> counted e (sat_sub a x) b.
Proof. unfold counted, sat_sub. intros [Ha He] Hx Hb. split; [lia|]. intros E. specialize (He E). lia. Qed.
Lemma counted_slack a b x : counted false a b -> 0 <= x -> counted false (sat_sub a x) b.
Proof. unfold counted, sat_sub. intros [Ha _] Hx. split; [lia|done]. Qed.

(** The counters of a path and of a space, for the packets [l] and what the other
    packets of the space ([x], [x1]) and of the path ([y], [y1]) count for. *)
Definition counts (e : bool) (r : Rec) (s : Space) (x y x1 y1 : Z) (l : list SentPacket) : Prop :=
  counted e (PacketNumSpace.bytes_in_flight s) (total fly l + x) /\
  counted e (bytes_in_flight r) (total fly l + y) /\
  counted e (PacketNumSpace.ack_eliciting_in_flight s) (total fly1 l + x1) /\
  counted e (ack_eliciting_in_flight r) (total fly1 l + y1).

Lemma total_cons f p l : total f (p :: l) = f p + total f l.
Proof. done. Qed.
Lemma fly1_nonneg p : 0 <= fly1 p.
Proof. unfold fly1. destruct (_ && _); lia. Qed.
Lemma fly_nonneg p : 0 <= sent_size p -> 0 <= fly p.
Proof. unfold fly. destruct (_ && _); lia. Qed.
Lemma total_fly1_nonneg l : 0 <= total fly1 l.
Proof. induction l as [|p l IH]; [done|]. rewrite total_cons. pose proof (fly1_nonneg p). lia. Qed.
Lemma total_fly_nonneg l : Forall (fun p => 0 <= sent_size p) l -> 0 <= total fly l.
Proof. induction 1 as [|p l Hp _ IH]; [done|]. rewrite total_cons. pose proof (fly_nonneg p Hp). lia. Qed.
Lemma total_app f a b : total f (a ++ b) = total f a + total f b.
Proof. induction a as [|p a IH]; [done|]. cbn [app]. rewrite !total_cons, IH. lia. Qed.

Definition flown (p : SentPacket) : Z := if in_flight p then sent_size p else 0.
Definition flown1 (p : SentPacket) : Z := if in_flight p && ack_eliciting p then 1 else 0.

Lemma leave_bytes p (r : Rec) : 0 <= bytes_in_flight r -> bytes_in_flight (leave p r) = sat_sub (bytes_in_flight r) (flown p).
Proof. intros. unfold leave, flown, sat_sub. destruct (in_flight p), (ack_eliciting p); cbn; lia. Qed.
Lemma leave_eliciting p (r : Rec) : 0 <= ack_eliciting_in_flight r ->
  ack_eliciting_in_flight (leave p r) = sat_sub (ack_eliciting_in_flight r) (flown1 p).
Proof. intros. unfold leave, flown1, sat_sub. destruct (in_flight p), (ack_eliciting p); cbn; lia. Qed.
Lemma leave_space_bytes p (s : Space) : 0 <= PacketNumSpace.bytes_in_flight s ->
  PacketNumSpace.bytes_in_flight (leave_space p s) = sat_sub (PacketNumSpace.bytes_in_flight s) (flown p).
Proof. intros. unfold leave_space, flown, sat_sub. destruct (in_flight p), (ack_eliciting p); cbn; lia. Qed.
Lemma leave_space_eliciting p (s : Space) : 0 <= PacketNumSpace.ack_eliciting_in_flight s ->
  PacketNumSpace.ack_eliciting_in_flight (leave_space p s) = sat_sub (PacketNumSpace.ack_eliciting_in_flight s) (flown1 p).
Proof. intros. unfold leave_space, flown1, sat_sub. destruct (in_flight p), (ack_eliciting p); cbn; lia. Qed.

(** An outstanding packet leaves the network; a packet that has already left
    makes the counters fall short. *)
Lemma leave_counts e r s x y x1 y1 p l :
  0 <= sent_size p -> Forall (fun p => 0 <= sent_size p) l -> 0 <= x -> 0 <= y -> 0 <= x1 -> 0 <= y1 ->
  (e = true -> resolved p = false) ->
  counts e r s x y x1 y1 (p :: l) -> counts e (leave p r) (leave_space p s) x y x1 y1 l.
Proof.
  intros Hp Hl Hx Hy Hx1 Hy1 He (H1 & H2 & H3 & H4). pose proof (total_fly_nonneg l Hl). pose proof (total_fly1_nonneg l).
  unfold counts. rewrite leave_bytes, leave_eliciting, leave_space_bytes, leave_space_eliciting by (apply H1 || apply H2 || apply H3 || apply H4).
  rewrite !total_cons in *. assert (0 <= flown p) by (unfold flown; destruct (in_flight p); lia).
  assert (0 <= flown1 p) by (unfold flown1; destruct (_ && _); lia).
  destruct (resolved p) eqn:Hr.
  - destruct e; [by specialize (He eq_refl)|].
    assert (fly p = 0) as E by (unfold fly; by rewrite Hr, andb_false_r).
    assert (fly1 p = 0) as E1 by (unfold fly1; by rewrite Hr, !andb_false_r).
    rewrite E in *. rewrite E1 in *. split_and!; apply counted_slack; done.
  - assert (fly p = flown p) as E by (unfold fly, flown; rewrite Hr; by rewrite andb_true_r).
    assert (fly1 p = flown1 p) as E1 by (unfold fly1, flown1; rewrite Hr; by rewrite andb_true_r).
    rewrite E in *. rewrite E1 in *. rewrite <- !Z.add_assoc in *. split_and!; apply counted_sub; done || lia.
Qed.

(** What the scans leave alone. *)
Definition kept (r r' : Rec) : Prop :=
  rtt r' = rtt r /\ time_thresh r' = time_thresh r /\ max_ack_delay r' = max_ack_delay r /\
  max_pto r' = max_pto r /\ pto_linear_factor r' = pto_linear_factor r.
Definition kept_space (s s' : Space) : Prop :=
  PacketNumSpace.id s' = PacketNumSpace.id s /\
  PacketNumSpace.next_pkt_num s' = PacketNumSpace.next_pkt_num s /\
  PacketNumSpace.largest_acked_pkt s' = PacketNumSpace.largest_acked_pkt s /\
  PacketNumSpace.time_of_last_sent_ack_eliciting_pkt s' = PacketNumSpace.time_of_last_sent_ack_eliciting_pkt s.

#[local] Instance kept_preorder : PreOrder kept.
Proof. split; [by intros r|]. unfold kept. intros r1 r2 r3 ? ?. intuition congruence. Qed.
#[local] Instance kept_space_preorder : PreOrder kept_space.
Proof. split; [by intros s|]. unfold kept_space. intros s1 s2 s3 ? ?. intuition congruence. Qed.

Lemma leave_kept p r : kept r (leave p r).
Proof. unfold leave. by destruct (in_flight p), (ack_eliciting p). Qed.
Lemma leave_space_kept p s : kept_space s (leave_space p s).
Proof. unfold leave_space. by destruct (in_flight p), (ack_eliciting p). Qed.
Lemma leave_space_frames p s : PacketNumSpace.acked (leave_space p s) = PacketNumSpace.acked s /\
  PacketNumSpace.lost (leave_space p s) = PacketNumSpace.lost s /\ PacketNumSpace.loss_time (leave_space p s) = PacketNumSpace.loss_time s.
Proof. unfold leave_space. by destruct (in_flight p), (ack_eliciting p). Qed.
Lemma leave_space_sent p s : PacketNumSpace.sent (leave_space p s) = PacketNumSpace.sent s.
Proof. unfold leave_space. by destruct (in_flight p), (ack_eliciting p). Qed.

Lemma counts_ext e r s r' s' x y x1 y1 l :
  counts e r s x y x1 y1 l ->
  bytes_in_flight r' = bytes_in_flight r -> ack_eliciting_in_flight r' = ack_eliciting_in_flight r ->
  PacketNumSpace.bytes_in_flight s' = PacketNumSpace.bytes_in_flight s ->
  PacketNumSpace.ack_eliciting_in_flight s' = PacketNumSpace.ack_eliciting_in_flight s ->
  counts e r' s' x y x1 y1 l.
Proof. unfold counts. by intros ? -> -> -> ->. Qed.

(** One acknowledged packet. *)
Lemma ack_packet_spec now p st p' st' : ack_packet now p st = (p', st') ->
  (exists rs, p' = with_rate_sample_state rs (with_frames [] (with_time_acked (Some now) p))) /\
  kept (sc_rec st) (sc_rec st') /\
  bytes_in_flight (sc_rec st') = bytes_in_flight (leave p (sc_rec st)) /\
  ack_eliciting_in_flight (sc_rec st') = ack_eliciting_in_flight (leave p (sc_rec st)) /\
  sc_space st' = PacketNumSpace.with_acked (PacketNumSpace.acked (sc_space st) ++ frames p) (leave_space p (sc_space st)) /\
  sc_newly st' = sc_newly st ++ [mkAcked (pkt_num p) (time_sent p) (since now (time_sent p))] /\
  sc_largest st' = pkt_num p /\ sc_time st' = time_sent p /\ sc_eliciting st' = ack_eliciting p || sc_eliciting st.
Proof.
  unfold ack_packet. set (q := with_time_acked (Some now) p). set (r := match time_lost q with Some _ => _ | None => _ end).
  assert (kept (sc_rec st) r /\ bytes_in_flight r = bytes_in_flight (sc_rec st) /\
    ack_eliciting_in_flight r = ack_eliciting_in_flight (sc_rec st)) as (K & Eb & Ee) by (unfold r; by destruct (time_lost q)).
  assert (leave q r = leave p r /\ leave_space q (sc_space st) = leave_space p (sc_space st)) as [El Es] by done.
  rewrite El, Es. clearbody r. assert (bytes_in_flight (leave p r) = bytes_in_flight (leave p (sc_rec st)) /\
    ack_eliciting_in_flight (leave p r) = ack_eliciting_in_flight (leave p (sc_rec st))) as [Lb Le].
  { unfold leave. destruct (in_flight p), (ack_eliciting p); cbn; by rewrite ?Eb, ?Ee. }
  pose proof (leave_kept p r) as K2. destruct (leave_space_frames p (sc_space st)) as (Fa & _ & _).
  destruct (is_data_space _).
  - destruct (cc_on_ack q now false _ _ _) as [q' c] eqn:Eq.
    pose proof (cc_on_ack_snapshot q now false (rtt (leave p r)) (bytes_in_flight (leave p r)) (congestion (leave p r))) as Hs.
    rewrite Eq in Hs. cbn in Hs. unfold snapshot_only in Hs. set (rs := rate_sample_state q') in Hs. clearbody rs. subst q'.
    intros [= <- <-]. cbn. rewrite Fa. split_and!; [by exists rs|by etrans|done..].
  - intros [= <- <-]. cbn. rewrite Fa. split_and!; [by exists (rate_sample_state p); destruct p|by etrans|done..].
Qed.

Lemma counts_shift e r s x y x1 y1 p l :
  counts e r s x y x1 y1 (p :: l) <-> counts e r s (fly p + x) (fly p + y) (fly1 p + x1) (fly1 p + y1) l.
Proof.
  unfold counts. rewrite !total_cons.
  replace (fly p + total fly l + x) with (total fly l + (fly p + x)) by lia.
  replace (fly p + total fly l + y) with (total fly l + (fly p + y)) by lia.
  replace (fly1 p + total fly1 l + x1) with (total fly1 l + (fly1 p + x1)) by lia.
  replace (fly1 p + total fly1 l + y1) with (total fly1 l + (fly1 p + y1)) by lia. done.
Qed.

Lemma counts_resolved e r s x y x1 y1 p l : resolved p = true ->
  counts e r s x y x1 y1 (p :: l) <-> counts e r s x y x1 y1 l.
Proof.
  intros Hr. rewrite counts_shift. unfold fly, fly1. by rewrite Hr, !andb_false_r.
Qed.

(** Packets of a space, none sent after [b]: a packet that is acknowledged or lost
    has given up its frames. *)
Definition pkt_ok (b : Instant) (p : SentPacket) : Prop :=
  0 <= sent_size p /\ 0 <= time_sent p <= b /\ (resolved p = true -> frames p = []).

Lemma pkts_sizes b l : Forall (pkt_ok b) l -> Forall (fun p => 0 <= sent_size p) l.
Proof. intros Hl. eapply Forall_impl; [done|]. by intros p (? & _). Qed.

Abbreviation all_frames l := (concat (map frames l)).

(** What the scans leave alone in a packet. *)
Definition shape (p : SentPacket) : Z * bool := (pkt_num p, in_flight p && ack_eliciting p).

(** What the scan for acknowledgments does to the packets of a space. *)
Lemma ack_ref_spec e now f b sent : forall st x y x1 y1 sent' st',
  ack_ref now f sent st = (sent', st') -> Forall (pkt_ok b) sent -> 0 <= x -> 0 <= y -> 0 <= x1 -> 0 <= y1 ->
  (e = true -> Forall (fun p => f (pkt_num p) = true -> time_acked p = None -> time_lost p = None) sent) ->
  counts e (sc_rec st) (sc_space st) x y x1 y1 sent ->
  counts e (sc_rec st') (sc_space st') x y x1 y1 sent' /\
  map shape sent' = map shape sent /\ Forall (pkt_ok b) sent' /\
  kept (sc_rec st) (sc_rec st') /\ kept_space (sc_space st) (sc_space st') /\
  PacketNumSpace.lost (sc_space st') = PacketNumSpace.lost (sc_space st) /\
  all_frames sent' ++ PacketNumSpace.acked (sc_space st') ≡ₚ all_frames sent ++ PacketNumSpace.acked (sc_space st).
Proof.
  induction sent as [|p sent IH]; intros st x y x1 y1 sent' st' Hr Hok Hx Hy Hx1 Hy1 He Hc.
  { injection Hr as <- <-. done. }
  cbn [ack_ref] in Hr. pose proof Hok as Hok'. apply Forall_cons_1 in Hok' as [Hp Hl].
  assert (e = true -> Forall (fun p => f (pkt_num p) = true -> time_acked p = None -> time_lost p = None) sent) as He'
    by (intros E; by apply He, Forall_cons_1 in E as [_ E]).
  destruct (f (pkt_num p) && negb (bool_decide (is_Some (time_acked p)))) eqn:Hhit.
  - apply andb_true_iff in Hhit as [Hf Hna]. apply negb_true_iff, bool_decide_eq_false, eq_None_not_Some in Hna.
    destruct (ack_packet now p st) as [p' st1] eqn:Ep. destruct (ack_ref now f sent st1) as [l st2] eqn:Er. injection Hr as <- <-.
    destruct (ack_packet_spec now p st p' st1 Ep) as ([rs ->] & K & Eb & Ee & Es & _).
    destruct (IH st1 x y x1 y1 l st2 Er) as (Hc' & Hn' & Hok2 & K' & Ks' & Hlost & Hperm); [done..| |].
    { apply (counts_ext e (leave p (sc_rec st)) (leave_space p (sc_space st))); [|done|done|by rewrite Es..].
      destruct Hp as (Hsz & _). apply leave_counts; [done|by eapply pkts_sizes|done..| |done].
      intros E. specialize (He E). apply Forall_cons_1 in He as [He _]. unfold resolved. by rewrite Hna, (He Hf Hna). }
    destruct (leave_space_frames p (sc_space st)) as (Fa & Fl & _). split_and!.
    + by apply counts_resolved.
    + cbn. by rewrite Hn'.
    + constructor; [|done]. destruct Hp as (? & ? & _). split; [done|]. by split.
    + by etrans.
    + etrans; [|done]. rewrite Es. etrans; [apply (leave_space_kept p)|done].
    + by rewrite Hlost, Es.
    + rewrite Es in Hperm. cbn in *. rewrite Hperm. rewrite (Permutation_app_comm (PacketNumSpace.acked _)).
      rewrite !app_assoc. f_equiv. apply Permutation_app_comm.
  - destruct (ack_ref now f sent st) as [l st2] eqn:Er. injection Hr as <- <-.
    pose proof (fly_nonneg p ltac:(apply Hp)). pose proof (fly1_nonneg p).
    destruct (IH st (fly p + x) (fly p + y) (fly1 p + x1) (fly1 p + y1) l st2 Er)
      as (Hc' & Hn' & Hok2 & K' & Ks' & Hlost & Hperm); [done|lia..|done|by apply counts_shift|].
    split_and!; [by apply counts_shift| |by constructor|done..|].
    + cbn. by rewrite Hn'.
    + cbn. rewrite <- !app_assoc. by f_equiv.
Qed.

(** ** Losing packets *)

(** The packets that are declared lost: not resolved, not above the largest number
    acknowledged, and either sent long enough ago or far enough below it. *)
Definition overdue (now : Instant) (d : Duration) (thresh largest : Z) (p : SentPacket) : bool :=
  (time_sent p <=? now - d) || (pkt_num p + thresh <=? largest).
Definition suspect (largest : Z) (p : SentPacket) : bool := negb (resolved p) && (pkt_num p <=? largest).
Definition lost_now (now : Instant) (d : Duration) (thresh largest : Z) (p : SentPacket) : bool :=
  suspect largest p && overdue now d thresh largest p.
Definition late (now : Instant) (d : Duration) (thresh largest : Z) (p : SentPacket) : bool :=
  suspect largest p && negb (overdue now d thresh largest p).

Definition declare_lost (now : Instant) (p : SentPacket) : SentPacket := with_time_lost (Some now) (with_frames [] p).

(** The first of the times at which the packets of [l] become overdue. *)
Definition first_due (d : Duration) (l : list SentPacket) (t : option Instant) : option Instant :=
  foldl (fun t p => Some (match t with None => time_sent p + d | Some t => Z.min t (time_sent p + d) end)) t l.

Lemma beyond_none largest lo l : ascending lo l -> largest <= lo -> Forall (fun p => suspect largest p = false) l.
Proof.
  intros Hl Hlo. eapply Forall_impl; [by apply ascending_above|]. intros p Hp. cbn in Hp. unfold suspect.
  destruct (Z.leb_spec (pkt_num p) largest); [lia|]. apply andb_false_r.
Qed.

Lemma filter_nobody (f : SentPacket -> bool) l : Forall (fun p => f p = false) l -> List.filter f l = [].
Proof. induction 1 as [|p l Hp _ IH]; [done|]. cbn. by rewrite Hp. Qed.

Lemma beyond_untouched now d thresh largest l : Forall (fun p => suspect largest p = false) l ->
  map (fun p => if lost_now now d thresh largest p then declare_lost now p else p) l = l /\
  List.filter (lost_now now d thresh largest) l = [] /\ List.filter (late now d thresh largest) l = [].
Proof.
  intros Hl. split_and!; [|apply filter_nobody; eapply Forall_impl; [done|]; intros q Hq; unfold lost_now, late; by rewrite Hq..].
  transitivity (map id l); [|apply map_id]. apply map_ext_Forall. eapply Forall_impl; [done|].
  intros q Hq. unfold lost_now. by rewrite Hq.
Qed.

Lemma scan_lost_spec now d largest sent : forall lo st sent' st',
  scan_lost now d largest sent st = (sent', st') -> ascending lo sent ->
  let thresh := pkt_thresh (ls_rec st) in
  let gone := List.filter (lost_now now d thresh largest) sent in
  sent' = map (fun p => if lost_now now d thresh largest p then declare_lost now p else p) sent /\
  ls_packets st' = ls_packets st + len gone /\ ls_bytes st' = ls_bytes st + total flown gone /\
  PacketNumSpace.lost (ls_space st') = PacketNumSpace.lost (ls_space st) ++ all_frames gone /\
  PacketNumSpace.loss_time (ls_space st') =
    first_due d (List.filter (late now d thresh largest) sent) (PacketNumSpace.loss_time (ls_space st)) /\
  PacketNumSpace.acked (ls_space st') = PacketNumSpace.acked (ls_space st) /\
  kept (ls_rec st) (ls_rec st') /\ kept_space (ls_space st) (ls_space st').
Proof.
  induction sent as [|p sent IH]; intros lo st sent' st' Hr Hs; cbn zeta.
  { injection Hr as <- <-. cbn. rewrite app_nil_r, len_nil. split_and!; done || lia. }
  cbn [scan_lost] in Hr. destruct Hs as [Hp Hs]. set (thresh := pkt_thresh (ls_rec st)) in *.
  destruct (Z.ltb_spec largest (pkt_num p)) as [Hlt|Hle].
  - injection Hr as <- <-. pose proof (beyond_none largest largest (p :: sent) ltac:(by split) ltac:(lia)) as Hno.
    destruct (beyond_untouched now d thresh largest _ Hno) as (-> & -> & ->). cbn. rewrite app_nil_r, len_nil.
    split_and!; done || lia.
  - destruct (bool_decide (is_Some (time_acked p)) || bool_decide (is_Some (time_lost p))) eqn:Hres.
    + destruct (scan_lost now d largest sent st) as [l st1] eqn:Er. injection Hr as <- <-.
      destruct (IH (pkt_num p) st l st1 Er Hs) as (E1 & E2 & E3 & E4 & E5 & E6 & K & Ks). fold thresh in E1, E2, E3, E4, E5.
      assert (suspect largest p = false) as Hsu by (unfold suspect, resolved; by rewrite Hres).
      assert (lost_now now d thresh largest p = false /\ late now d thresh largest p = false) as [Hn Hla]
        by (unfold lost_now, late; by rewrite Hsu).
      cbn [List.filter map]. rewrite Hn, Hla. split; [by rewrite E1|done].
    + assert (suspect largest p = true) as Hsu.
      { unfold suspect, resolved. rewrite Hres. destruct (Z.leb_spec (pkt_num p) largest); [done|lia]. }
      assert (lost_now now d thresh largest p = overdue now d thresh largest p /\
        late now d thresh largest p = negb (overdue now d thresh largest p)) as [Hn Hla] by (unfold lost_now, late; by rewrite Hsu).
      cbn [List.filter map]. rewrite Hn, Hla. fold thresh in Hr. fold (overdue now d thresh largest p) in Hr.
      destruct (overdue now d thresh largest p) eqn:Hov; cbn [negb].
      * unfold lose_packet in Hr.
        set (q := with_time_lost (Some now) (with_frames [] p)) in Hr.
        set (st0 := mkLoss _ _ _ _ _) in Hr. destruct (scan_lost now d largest sent st0) as [l st1] eqn:Er. injection Hr as <- <-.
        destruct (IH (pkt_num p) st0 l st1 Er Hs) as (E1 & E2 & E3 & E4 & E5 & E6 & K & Ks).
        assert (pkt_thresh (ls_rec st0) = thresh) as Et by (unfold st0; cbn; unfold leave; by destruct (in_flight q), (ack_eliciting q)).
        rewrite Et in *. unfold st0 in E2, E3, E4, E5, E6, K, Ks. cbn in E2, E3, E4, E5, E6, K, Ks.
        destruct (leave_space_frames q (PacketNumSpace.with_lost (PacketNumSpace.lost (ls_space st) ++ frames p) (ls_space st))) as (Fa & Fl & Ft).
        rewrite Fa in E6. rewrite Fl in E4. rewrite Ft in E5. cbn in E4, E5, E6. split_and!.
        -- by rewrite E1.
        -- rewrite E2, len_cons. lia.
        -- rewrite E3, total_cons. unfold flown. change (in_flight q) with (in_flight p). change (sent_size q) with (sent_size p).
           destruct (in_flight p); lia.
        -- rewrite E4. cbn. by rewrite <- app_assoc.
        -- done.
        -- done.
        -- etrans; [apply (leave_kept q)|done].
        -- etrans; [|exact Ks]. etrans; [|apply leave_space_kept]. done.
      * set (st0 := keep_packet d p st) in Hr. destruct (scan_lost now d largest sent st0) as [l st1] eqn:Er. injection Hr as <- <-.
        destruct (IH (pkt_num p) st0 l st1 Er Hs) as (E1 & E2 & E3 & E4 & E5 & E6 & K & Ks).
        assert (pkt_thresh (ls_rec st0) = thresh) as Et by done. rewrite Et in *. split; [by rewrite E1|done].
Qed.

Lemma scan_lost_counts e now d largest b sent : forall st x y x1 y1 sent' st',
  scan_lost now d largest sent st = (sent', st') -> Forall (pkt_ok b) sent -> 0 <= x -> 0 <= y -> 0 <= x1 -> 0 <= y1 ->
  counts e (ls_rec st) (ls_space st) x y x1 y1 sent -> counts e (ls_rec st') (ls_space st') x y x1 y1 sent'.
Proof.
  induction sent as [|p sent IH]; intros st x y x1 y1 sent' st' Hr Hok Hx Hy Hx1 Hy1 Hc; [by injection Hr as <- <-|].
  cbn [scan_lost] in Hr. apply Forall_cons_1 in Hok as [Hp Hl].
  pose proof (fly_nonneg p ltac:(apply Hp)). pose proof (fly1_nonneg p).
  destruct (Z.ltb_spec largest (pkt_num p)); [by injection Hr as <- <-|].
  destruct (bool_decide (is_Some (time_acked p)) || bool_decide (is_Some (time_lost p))) eqn:Hres; [|destruct ((_ <=? _) || (_ <=? _))].
  - destruct (scan_lost now d largest sent st) as [l st1] eqn:Er. injection Hr as <- <-. apply counts_shift.
    apply (IH st _ _ _ _ l st1 Er); [done|lia..|by apply counts_shift].
  - unfold lose_packet in Hr. set (st0 := mkLoss _ _ _ _ _) in Hr.
    destruct (scan_lost now d largest sent st0) as [l st1] eqn:Er. injection Hr as <- <-.
    apply counts_resolved; [by unfold resolved; rewrite orb_comm|]. apply (IH st0 x y x1 y1 l st1 Er); [done..|].
    apply (leave_counts e (ls_rec st) (PacketNumSpace.with_lost (PacketNumSpace.lost (ls_space st) ++ frames p) (ls_space st)) x y x1 y1 p);
      [apply Hp|by eapply pkts_sizes|done..].
  - set (st0 := keep_packet d p st) in Hr. destruct (scan_lost now d largest sent st0) as [l st1] eqn:Er. injection Hr as <- <-.
    apply counts_shift. apply (IH st0 _ _ _ _ l st1 Er); [done|lia..|by apply counts_shift].
Qed.

Lemma give_up_ok b now p : pkt_ok b p -> pkt_ok b (declare_lost now p).
Proof. intros (? & ? & _). split; [done|]. by split. Qed.

Lemma lost_frames_perm (f : SentPacket -> bool) now sent :
  all_frames (map (fun p => if f p then declare_lost now p else p) sent) ++ all_frames (List.filter f sent) ≡ₚ all_frames sent.
Proof.
  induction sent as [|p sent IH]; [done|]. cbn. destruct (f p); cbn.
  - rewrite <- IH. rewrite (Permutation_app_comm (frames p)). rewrite (Permutation_app_comm (frames p)).
    by rewrite !app_assoc.
  - rewrite <- app_assoc. by rewrite IH.
Qed.

(** ** The loss delay *)

Lemma time_threshold_below : below 2 INITIAL_TIME_THRESHOLD.
Proof. vm_compute. discriminate. Qed.

Lemma loss_delay_ok b (r : Rec) : b <= HORIZON -> rtt_within b (rtt r) -> time_thresh r = INITIAL_TIME_THRESHOLD ->
  exists d, loss_delay r = Ok d /\ TIMER_GRANULARITY <= d.
Proof.
  intros Hb (H1 & H2 & H3 & H4) Ht. unfold loss_delay. rewrite Ht.
  destruct (mul_f64_ok (Z.max (RttEstimator.latest_rtt (rtt r)) (RttEstimator.smoothed_rtt (rtt r))) INITIAL_TIME_THRESHOLD)
    as (d & -> & Hd); [|apply time_threshold_below|].
  - unfold HORIZON, from_secs, NANOS_PER_SEC in *. lia.
  - eexists. split; [reflexivity|]. lia.
Qed.

(** ** Timers *)

Lemma backoff_bound (r : Rec) : 0 <= backoff r < 2 ^ 32.
Proof.
  unfold backoff, sat_pow2, wrap. pose proof (Z.mod_pos_bound (sat_sub (pto_count r) (pto_linear_factor r)) (2 ^ 32)).
  destruct (Z.ltb_spec (sat_sub (pto_count r) (pto_linear_factor r) mod 2 ^ 32) 32) as [Hlt|]; [|lia].
  split; [apply Z.pow_nonneg; lia|]. apply Z.pow_lt_mono_r; lia.
Qed.

(** What keeps the arithmetic of a path within its bounds. *)
Definition path_ok (b : Instant) (r : Rec) : Prop :=
  rtt_within b (rtt r) /\ time_thresh r = INITIAL_TIME_THRESHOLD /\ 0 <= max_ack_delay r <= HORIZON /\ 0 <= max_pto r.

Lemma kept_path b r r' : kept r r' -> path_ok b r -> path_ok b r'.
Proof. unfold kept, path_ok. intros (-> & -> & -> & -> & _). done. Qed.

Lemma calculate_pto_ok b r : b <= HORIZON -> path_ok b r ->
  exists d, calculate_pto r = Ok d /\ 0 <= d <= max_pto r /\ d <= 2 ^ 32 * (5 * HORIZON + TIMER_GRANULARITY).
Proof.
  intros Hb (Hw & _ & _ & Hm). unfold calculate_pto. destruct (pto_base_ok b (rtt r) Hb Hw) as (d & -> & Hd). cbn [mbind outcome_bind].
  pose proof (backoff_bound r). assert (0 <= d * backoff r <= 2 ^ 32 * (5 * HORIZON + TIMER_GRANULARITY)).
  { unfold HORIZON, TIMER_GRANULARITY, from_secs, from_millis, NANOS_PER_SEC in *. nia. }
  rewrite dur_mul_ok.
  - eexists. split; [reflexivity|]. lia.
  - unfold HORIZON, TIMER_GRANULARITY, DURATION_LIMIT, from_secs, from_millis, NANOS_PER_SEC in *. lia.
Qed.

Lemma pto_with_ack_delay_ok b r d : path_ok b r -> 0 <= d <= 2 ^ 32 * (5 * HORIZON + TIMER_GRANULARITY) -> d <= max_pto r ->
  exists d', pto_with_ack_delay d r = Ok d' /\ d <= d' <= max_pto r.
Proof.
  intros (_ & _ & Ha & Hm) Hd Hle. unfold pto_with_ack_delay. pose proof (backoff_bound r).
  assert (0 <= max_ack_delay r * backoff r <= 2 ^ 32 * HORIZON) by nia.
  unfold HORIZON, TIMER_GRANULARITY, from_secs, from_millis, NANOS_PER_SEC in *.
  rewrite dur_mul_ok by (unfold DURATION_LIMIT, NANOS_PER_SEC; lia). cbn [mbind outcome_bind].
  rewrite dur_add_ok by (unfold DURATION_LIMIT, NANOS_PER_SEC; lia). eexists. split; [reflexivity|]. lia.
Qed.

(** A space that waits for an acknowledgment knows when it last asked for one. *)
Definition asks (s : Space) : Prop := PacketNumSpace.ack_eliciting_in_flight s <> 0.
Definition asked (s : Space) : Prop := asks s -> is_Some (PacketNumSpace.time_of_last_sent_ack_eliciting_pkt s).

Lemma earliest_pto_ok b r m h cs : b <= HORIZON -> path_ok b r -> forall d timeout sid,
  0 <= d <= 2 ^ 32 * (5 * HORIZON + TIMER_GRANULARITY) -> d <= max_pto r -> Forall (fun c => c <> SpaceData) (List.removelast cs) ->
  exists o, earliest_pto cs m h r d timeout sid = Ok o.
Proof.
  intros Hb Hp. induction cs as [|c cs IH]; intros d timeout sid Hd Hm Hcs; [by eexists|]. cbn [earliest_pto].
  assert (Forall (fun c => c <> SpaceData) (List.removelast cs)) as Hcs' by (destruct cs; [constructor|by apply Forall_cons_1 in Hcs as [_ ?]]).
  destruct (PacketNumSpaceMap.get c m) as [s|]; [|by apply IH]. destruct (_ =? 0); [by apply IH|].
  destruct (bool_decide (c = SpaceData)) eqn:Hc; cbn [andb].
  - destruct (negb (completed h)); [by eexists|]. destruct (pto_with_ack_delay_ok b r d Hp Hd Hm) as (d' & -> & Hd'). cbn [mbind outcome_bind].
    apply bool_decide_eq_true in Hc. subst c. destruct cs as [|c cs]; [destruct (_ || _); by eexists|].
    by apply Forall_cons_1 in Hcs as [? _].
  - cbn [mbind outcome_bind]. destruct (_ || _); by apply IH.
Qed.

Lemma candidates_last sid : Forall (fun c => c <> SpaceData) (List.removelast (candidates sid)).
Proof. unfold candidates. destruct (is_data_space sid); repeat constructor; discriminate. Qed.

Lemma set_timer_ok b sid h now m r : b <= HORIZON -> path_ok b r ->
  exists t, set_loss_detection_timer sid h now m r = Ok (with_loss_detection_timer t r).
Proof.
  intros Hb Hp. unfold set_loss_detection_timer. destruct (get_loss_time_and_space sid m).1 as [t|]; [by eexists|].
  destruct (_ && _); [by eexists|]. destruct (_ && _); [by eexists|]. unfold get_pto_time_and_space.
  destruct (calculate_pto_ok b r Hb Hp) as (d & -> & Hd & Hd'). cbn [mbind outcome_bind].
  destruct (ack_eliciting_in_flight r =? 0); [by eexists|].
  destruct (earliest_pto_ok b r m h (candidates sid) Hb Hp d None SpaceInitial) as (o & ->); [lia|lia|apply candidates_last|].
  by eexists.
Qed.

Lemma arm_ok b sid h now (r : Rec) m : b <= HORIZON -> path_ok b r ->
  exists t, arm sid h now (r, m) = Ok (tt, (with_loss_detection_timer t r, m)).
Proof. intros Hb Hp. unfold arm. destruct (set_timer_ok b sid h now m r Hb Hp) as (t & ->). by eexists. Qed.

(** The better of the timeout so far and that of a space. *)
Lemma better_timeout (timeout : option Instant) (t : Instant) :
  exists t', (if bool_decide (timeout = None) || option_lt (Some t) timeout then Some t else timeout) = Some t' /\ t' <= t /\
    forall t0, timeout = Some t0 -> t' <= t0.
Proof.
  destruct timeout as [t0|]; cbn; [|exists t; split_and!; done || lia].
  destruct (Z.ltb_spec t t0); [exists t|exists t0]; split_and!; try lia; try done; intros ? [= <-]; lia.
Qed.

(** The timer for a space that waits and may use it is set, at the latest the
    longest probe timeout after the space last asked. *)
Lemma earliest_pto_min b r m h cs : b <= HORIZON -> path_ok b r -> (forall c s, PacketNumSpaceMap.get c m = Some s -> asked s) ->
  forall d timeout sid o, 0 <= d <= 2 ^ 32 * (5 * HORIZON + TIMER_GRANULARITY) -> d <= max_pto r ->
  Forall (fun c => c <> SpaceData) (List.removelast cs) -> earliest_pto cs m h r d timeout sid = Ok o ->
  (forall t0, timeout = Some t0 -> exists t1, o.1 = Some t1 /\ t1 <= t0) /\
  (forall c s, c ∈ cs -> PacketNumSpaceMap.get c m = Some s -> asks s -> (c = SpaceData -> completed h = true) ->
     exists t1 last, o.1 = Some t1 /\ PacketNumSpace.time_of_last_sent_ack_eliciting_pkt s = Some last /\ t1 <= last + max_pto r).
Proof.
  intros Hb Hp Hasked. induction cs as [|c cs IH]; intros d timeout sid o Hd Hm Hcs Hr.
  { injection Hr as <-. split; [eauto with lia|]. intros c s Hc. by apply not_elem_of_nil in Hc. }
  cbn [earliest_pto] in Hr.
  assert (Forall (fun c => c <> SpaceData) (List.removelast cs)) as Hcs' by (destruct cs; [constructor|by apply Forall_cons_1 in Hcs as [_ ?]]).
  assert (earliest_pto cs m h r d timeout sid = Ok o -> (forall s, PacketNumSpaceMap.get c m = Some s -> ~ asks s) ->
    (forall t0, timeout = Some t0 -> exists t1, o.1 = Some t1 /\ t1 <= t0) /\
    (forall c' s, c' ∈ c :: cs -> PacketNumSpaceMap.get c' m = Some s -> asks s -> (c' = SpaceData -> completed h = true) ->
       exists t1 last, o.1 = Some t1 /\ PacketNumSpace.time_of_last_sent_ack_eliciting_pkt s = Some last /\ t1 <= last + max_pto r)) as Hskip.
  { intros Hr' Hno. destruct (IH d timeout sid o Hd Hm Hcs' Hr') as [I1 I2]. split; [done|].
    intros c' s' [->|Hc']%elem_of_cons Hg Ha; [by destruct (Hno s')|by apply I2]. }
  destruct (PacketNumSpaceMap.get c m) as [s|] eqn:Hget; [|by apply Hskip].
  destruct (Z.eqb_spec (PacketNumSpace.ack_eliciting_in_flight s) 0) as [E|Hne].
  { apply Hskip; [done|]. intros s' [= <-]. unfold asks. lia. }
  clear Hskip. destruct (Hasked c s Hget Hne) as [last Hlast]. rewrite Hlast in Hr. cbn [fmap option_fmap option_map] in Hr.
  destruct (bool_decide (c = SpaceData)) eqn:Hc; cbn [andb] in Hr.
  - apply bool_decide_eq_true in Hc. subst c. destruct cs as [|c cs]; [|by apply Forall_cons_1 in Hcs as [? _]].
    destruct (completed h); cbn [negb] in Hr.
    + destruct (pto_with_ack_delay_ok b r d Hp Hd Hm) as (d' & Ed & Hd'). rewrite Ed in Hr. cbn [mbind outcome_bind] in Hr.
      destruct (better_timeout timeout (last + d')) as (t' & Et & Hle & Hold).
      assert (o.1 = Some t') as Eo by (destruct (_ || _); cbn in Hr; by injection Hr as <-). rewrite Eo. split; [eauto|].
      intros c' s' [->|[]%not_elem_of_nil]%elem_of_cons Hg _ _. simplify_eq. exists t', last. split_and!; done || lia.
    + injection Hr as <-. split; [eauto with lia|]. intros c' s' [->|[]%not_elem_of_nil]%elem_of_cons _ _ Hco. by specialize (Hco eq_refl).
  - cbn [mbind outcome_bind] in Hr. destruct (better_timeout timeout (last + d)) as (t' & Et & Hle & Hold).
    assert (exists sid', earliest_pto cs m h r d (Some t') sid' = Ok o) as [sid' Hr'] by (destruct (_ || _); simplify_eq; eauto).
    destruct (IH d (Some t') sid' o Hd Hm Hcs' Hr') as [I1 I2]. destruct (I1 t' eq_refl) as (t1 & E1 & Hle1). split.
    + intros t0 Ht0. exists t1. split; [done|]. specialize (Hold t0 Ht0). lia.
    + intros c' s' [->|Hc']%elem_of_cons Hg Ha Hco; [|by eapply I2]. simplify_eq. exists t1, last. split_and!; done || lia.
Qed.

(** ** The invariant of a path *)

Record space_ok (e : bool) (b : Instant) (s : Space) : Prop := {
  so_ascending : ascending (-1) (PacketNumSpace.sent s);
  so_next : Forall (fun p => pkt_num p < PacketNumSpace.next_pkt_num s) (PacketNumSpace.sent s) /\ 0 <= PacketNumSpace.next_pkt_num s;
  so_packets : Forall (pkt_ok b) (PacketNumSpace.sent s);
  so_bytes : counted e (PacketNumSpace.bytes_in_flight s) (total fly (PacketNumSpace.sent s));
  so_eliciting : counted e (PacketNumSpace.ack_eliciting_in_flight s) (total fly1 (PacketNumSpace.sent s));
  so_asked : PacketNumSpace.time_of_last_sent_ack_eliciting_pkt s = None ->
    Forall (fun p => in_flight p && ack_eliciting p = false) (PacketNumSpace.sent s);
}.

Lemma space_ok_asked e b s : space_ok e b s -> asked s.
Proof.
  intros Hs Ha. destruct (PacketNumSpace.time_of_last_sent_ack_eliciting_pkt s) eqn:E; [done|]. destruct Ha.
  assert (total fly1 (PacketNumSpace.sent s) = 0) as Hz.
  { pose proof (so_asked _ _ _ Hs E) as Hf. induction Hf as [|p l Hp _ IH]; [done|]. rewrite total_cons, IH.
    unfold fly1. by rewrite Hp. }
  pose proof (so_eliciting _ _ _ Hs) as [Hc _]. lia.
Qed.

Definition sum_spaces (f : SentPacket -> Z) (m : gmap Z Space) : Z :=
  map_fold (fun _ s n => total f (PacketNumSpace.sent s) + n) 0 m.

Record inv (e : bool) (b : Instant) (x : Rec * PacketNumSpaceMap.PacketNumSpaceMap) : Prop := {
  inv_path : path_ok b x.1;
  inv_spaces : map_Forall (fun _ s => space_ok e b s) (PacketNumSpaceMap.spaces x.2);
  inv_bytes : counted e (bytes_in_flight x.1) (sum_spaces fly (PacketNumSpaceMap.spaces x.2));
  inv_eliciting : counted e (ack_eliciting_in_flight x.1) (sum_spaces fly1 (PacketNumSpaceMap.spaces x.2));
}.

Lemma sum_delete f m k s : m !! k = Some s ->
  sum_spaces f m = total f (PacketNumSpace.sent s) + sum_spaces f (delete k m).
Proof. intros Hk. unfold sum_spaces. apply (map_fold_delete_L (fun _ s n => total f (PacketNumSpace.sent s) + n)); [intros; lia|done]. Qed.

Lemma sum_insert f m k s s' : m !! k = Some s ->
  sum_spaces f (<[k := s']> m) = total f (PacketNumSpace.sent s') + sum_spaces f (delete k m).
Proof.
  intros Hk. rewrite (sum_delete f (<[k := s']> m) k s') by apply lookup_insert_eq. by rewrite delete_insert_eq.
Qed.

Lemma sum_nonneg e b m : map_Forall (fun _ s => space_ok e b s) m -> 0 <= sum_spaces fly m /\ 0 <= sum_spaces fly1 m.
Proof.
  induction m as [|k s m Hk Hfold IH] using map_first_key_ind; intros Hm; [done|].
  apply map_Forall_insert in Hm as [Hs Hm]; [|done]. destruct (IH Hm).
  rewrite (sum_delete fly (<[k := s]> m) k s), (sum_delete fly1 (<[k := s]> m) k s) by apply lookup_insert_eq.
  rewrite !delete_insert_eq, !delete_id by done.
  pose proof (total_fly_nonneg _ (pkts_sizes b _ (so_packets _ _ _ Hs))). pose proof (total_fly1_nonneg (PacketNumSpace.sent s)). lia.
Qed.

(** A step that changes one space. *)
Lemma inv_open e b r m sid s : inv e b (r, m) -> PacketNumSpaceMap.get sid m = Some s ->
  exists y y1, 0 <= y /\ 0 <= y1 /\ space_ok e b s /\ path_ok b r /\
    counts e r s 0 y 0 y1 (PacketNumSpace.sent s) /\
    (forall r' s', path_ok b r' -> space_ok e b s' -> counts e r' s' 0 y 0 y1 (PacketNumSpace.sent s') ->
      inv e b (r', PacketNumSpaceMap.set sid s' m)).
Proof.
  intros Hi Hg. unfold PacketNumSpaceMap.get in Hg. set (k := PacketNumSpaceMap.key sid) in *.
  exists (sum_spaces fly (delete k (PacketNumSpaceMap.spaces m))), (sum_spaces fly1 (delete k (PacketNumSpaceMap.spaces m))).
  pose proof (inv_spaces _ _ _ Hi) as Hm. pose proof (map_Forall_lookup_1 _ _ _ _ Hm Hg) as Hs. cbn in Hm.
  destruct (sum_nonneg e b (delete k (PacketNumSpaceMap.spaces m)) ltac:(by apply map_Forall_delete)) as [H1 H2].
  split_and!; [done|done|done|apply Hi| |].
  - pose proof (inv_bytes _ _ _ Hi) as Hb. pose proof (inv_eliciting _ _ _ Hi) as He. cbn in Hb, He.
    rewrite (sum_delete fly _ k s) in Hb by done. rewrite (sum_delete fly1 _ k s) in He by done.
    unfold counts. rewrite !Z.add_0_r. split_and!; [apply Hs|done|apply Hs|done].
  - intros r' s' Hp Hs' (_ & C2 & _ & C4). split; cbn; [done| |by rewrite (sum_insert fly _ k s)|by rewrite (sum_insert fly1 _ k s)].
    by apply map_Forall_insert_2.
Qed.

Lemma ascending_shape l l' : map shape l' = map shape l -> forall lo, ascending lo l -> ascending lo l'.
Proof.
  revert l'. induction l as [|p l IH]; intros [|p' l'] E lo Hl; try done. injection E as E1 _ E3. destruct Hl as [Hp Hl].
  cbn. rewrite E1. split; [done|]. by apply IH.
Qed.

Lemma Forall_shape (P : Z * bool -> Prop) l l' : map shape l' = map shape l ->
  Forall (fun p => P (shape p)) l -> Forall (fun p => P (shape p)) l'.
Proof. intros E Hl. apply (proj1 (List.Forall_map shape P l')). rewrite E. by apply (proj2 (List.Forall_map shape P l)). Qed.

(** A space after a scan, and after the resolved packets at its front are gone. *)
Lemma space_rescanned e b s s' (r' : Rec) y y1 : space_ok e b s -> kept_space s s' ->
  map shape (PacketNumSpace.sent s') = map shape (PacketNumSpace.sent s) ->
  Forall (pkt_ok b) (PacketNumSpace.sent s') -> counts e r' s' 0 y 0 y1 (PacketNumSpace.sent s') -> space_ok e b s'.
Proof.
  intros [H1 [H2 H3] H4 H5 H6 H7] (Ki & Kn & Kl & Kt) Hsh Hp (C1 & _ & C3 & _). rewrite Z.add_0_r in C1, C3. split; try done.
  - by eapply ascending_shape.
  - rewrite Kn. split; [|done]. by apply (Forall_shape (fun x => x.1 < PacketNumSpace.next_pkt_num s) _ _ Hsh).
  - rewrite Kt. intros E. by apply (Forall_shape (fun x => x.2 = false) _ _ Hsh), H7.
Qed.

Lemma drain_spec now d sent : exists pre, sent = pre ++ drain now d sent /\ Forall (fun p => resolved p = true) pre.
Proof.
  induction sent as [|p sent IH]; [by exists []|]. cbn [drain].
  assert (resolved p = true -> exists pre, p :: sent = pre ++ drain now d sent /\ Forall (fun p => resolved p = true) pre) as Hgo.
  { intros Hr. destruct IH as (pre & E & Hpre). exists (p :: pre). split; [cbn; by rewrite <- E|by constructor]. }
  unfold resolved in Hgo. destruct (time_acked p), (time_lost p); try (destruct (_ <? _)); try (by apply Hgo); by exists [].
Qed.

Lemma ascending_suffix a b lo : ascending lo (a ++ b) -> ascending lo b.
Proof.
  revert lo. induction a as [|p a IH]; intros lo; [done|]. intros [Hp Ha]. eapply ascending_weaken; [|by apply IH]. lia.
Qed.

Lemma resolved_total pre l : Forall (fun p => resolved p = true) pre ->
  total fly (pre ++ l) = total fly l /\ total fly1 (pre ++ l) = total fly1 l.
Proof.
  induction 1 as [|p pre Hp _ [IH1 IH2]]; [done|]. cbn [app]. rewrite !total_cons, IH1, IH2. unfold fly, fly1.
  by rewrite Hp, !andb_false_r.
Qed.

Lemma resolved_frames b pre l : Forall (fun p => resolved p = true) pre -> Forall (pkt_ok b) pre -> all_frames (pre ++ l) = all_frames l.
Proof.
  induction 1 as [|p pre Hp _ IH]; [done|]. intros [(_ & _ & Hf) Hl]%Forall_cons_1. cbn. by rewrite (Hf Hp), IH.
Qed.

Definition space_frames (s : Space) : list Frame :=
  all_frames (PacketNumSpace.sent s) ++ PacketNumSpace.acked s ++ PacketNumSpace.lost s.

Lemma drain_ok e b now d (r : Rec) s y y1 : space_ok e b s -> counts e r s 0 y 0 y1 (PacketNumSpace.sent s) ->
  let s' := drain_sent_packets now d s in
  space_ok e b s' /\ counts e r s' 0 y 0 y1 (PacketNumSpace.sent s') /\ space_frames s' = space_frames s.
Proof.
  intros [H1 [H2 H3] H4 H5 H6 H7] Hc. cbn zeta. destruct (drain_spec now d (PacketNumSpace.sent s)) as (pre & E & Hpre).
  unfold drain_sent_packets, space_frames. set (l := drain now d (PacketNumSpace.sent s)) in *. cbn. rewrite E in H1, H2, H4, H5, H6, H7, Hc.
  destruct (resolved_total pre l Hpre) as [T1 T2]. unfold counts in Hc. rewrite T1, T2 in *.
  apply Forall_app in H2 as [_ H2]. apply Forall_app in H4 as [H4' H4]. split_and!; [|done|].
  - split; try done. + by eapply ascending_suffix. + intros Ht. by apply H7, Forall_app in Ht as [_ ?].
  - rewrite E. by rewrite (resolved_frames b pre l Hpre H4').
Qed.

Lemma ack_ref_time now f b sent : forall st sent' st', ack_ref now f sent st = (sent', st') -> Forall (pkt_ok b) sent ->
  0 <= sc_time st -> 0 <= sc_time st'.
Proof.
  induction sent as [|p sent IH]; intros st sent' st' Hr Hok Ht; [by injection Hr as <- <-|].
  apply Forall_cons_1 in Hok as [(_ & Hp & _) Hok]. cbn [ack_ref] in Hr. destruct (_ && _).
  - destruct (ack_packet now p st) as [p' st1] eqn:Ep. destruct (ack_ref now f sent st1) as [l st2] eqn:Er. injection Hr as <- <-.
    apply (IH st1 l st2 Er Hok). destruct (ack_packet_spec now p st p' st1 Ep) as (_ & _ & _ & _ & _ & _ & _ & -> & _). lia.
  - destruct (ack_ref now f sent st) as [l st2] eqn:Er. injection Hr as <- <-. by apply (IH st l st2 Er).
Qed.

(** No packet of a space that was declared lost is in a set of acknowledged numbers. *)
Definition no_spurious (ranges : RangeSet.RangeSet) (s : Space) : Prop :=
  Forall (fun p => RangeSet.contains ranges (pkt_num p) = true -> time_acked p = None -> time_lost p = None) (PacketNumSpace.sent s).

Lemma detect_acked_ok e b ranges now r s y y1 sample newly r' s' :
  detect_acked_packets ranges now r s = (sample, newly, r', s') ->
  RangeSet.wf ranges -> 0 <= now <= b -> 0 <= y -> 0 <= y1 -> space_ok e b s -> (e = true -> no_spurious ranges s) ->
  counts e r s 0 y 0 y1 (PacketNumSpace.sent s) ->
  counts e r' s' 0 y 0 y1 (PacketNumSpace.sent s') /\ kept r r' /\ space_ok e b s' /\
  space_frames s' ≡ₚ space_frames s /\ (forall t, sample = Some t -> 0 <= t <= b).
Proof.
  intros Hd Hwf Hn Hy Hy1 Hs He Hc. unfold detect_acked_packets in Hd.
  unfold RangeSet.iter in Hd. rewrite (scan_ranges_ref now _ (-1) (-1)) in Hd by (done || apply Hs).
  destruct (ack_ref now _ _ _) as [sent' st'] eqn:Er.
  destruct (ack_ref_spec e now (inside_list (RangeSet.set ranges)) b _ _ 0 y 0 y1 sent' st' Er)
    as (Hc' & Hsh & Hok & K & Ks & Hl & Hf); [apply Hs|lia..| |done|].
  { intros E. specialize (He E). eapply Forall_impl; [exact He|]. intros p. cbn. by rewrite inside_contains. }
  pose proof (ack_ref_time now _ b _ _ sent' st' Er ltac:(apply Hs) ltac:(cbn; lia)) as Ht.
  injection Hd as <- <- <- <-. cbn in *.
  assert (counts e (sc_rec st') (PacketNumSpace.with_sent sent' (sc_space st')) 0 y 0 y1 sent') as Hc2 by (eapply counts_ext; done).
  split_and!; [done|done| | |].
  - eapply (space_rescanned e b s _ (sc_rec st') y y1); done.
  - unfold space_frames. cbn. rewrite Hl, !app_assoc. by rewrite Hf.
  - intros t. destruct (_ && _); [|done]. intros [= <-]. unfold since, sat_sub. lia.
Qed.

Lemma map_shape_give_up (f : SentPacket -> bool) now l : map shape (map (fun p => if f p then declare_lost now p else p) l) = map shape l.
Proof. rewrite map_map. apply map_ext. intros p. by destruct (f p). Qed.

(** The packets declared lost, in full: see [detect_lost_exact]. *)
Lemma detect_lost_ok e b now r s y y1 :
  b <= HORIZON -> path_ok b r -> 0 <= y -> 0 <= y1 -> space_ok e b s -> counts e r s 0 y 0 y1 (PacketNumSpace.sent s) ->
  exists n bytes r' s', detect_lost_packets now r s = Ok (n, bytes, r', s') /\
  counts e r' s' 0 y 0 y1 (PacketNumSpace.sent s') /\ kept r r' /\ space_ok e b s' /\ space_frames s' ≡ₚ space_frames s.
Proof.
  intros Hb Hp Hy Hy1 Hs Hc. unfold detect_lost_packets. destruct (loss_delay_ok b r) as (d & -> & _); [done|apply Hp..|].
  cbn [mbind outcome_bind]. set (s0 := PacketNumSpace.with_loss_time None s). set (st0 := mkLoss r s0 0 0 None).
  destruct (scan_lost now d _ _ st0) as [sent' st'] eqn:Er.
  destruct (scan_lost_spec now d _ _ (-1) st0 sent' st' Er ltac:(apply Hs)) as (E1 & _ & _ & E4 & _ & E6 & K & Ks).
  assert (counts e (ls_rec st') (ls_space st') 0 y 0 y1 sent') as Hc'.
  { eapply scan_lost_counts; [exact Er|apply Hs|lia..|]. eapply counts_ext; done. }
  set (r1 := match ls_latest st' with Some _ => _ | None => _ end).
  assert (kept r r1 /\ bytes_in_flight r1 = bytes_in_flight (ls_rec st') /\
    ack_eliciting_in_flight r1 = ack_eliciting_in_flight (ls_rec st')) as (K1 & B1 & L1).
  { unfold r1. destruct (ls_latest st'); [destruct (is_data_space _)|]; done. }
  eexists _, _, _, _. split; [reflexivity|].
  assert (counts e (stat_lost_event (ls_packets st') (ls_bytes st') r1) (PacketNumSpace.with_sent sent' (ls_space st')) 0 y 0 y1 sent') as Hc2.
  { eapply counts_ext; done. }
  split_and!; [done|etrans; [exact K1|done]| |].
  - eapply (space_rescanned e b s _ _ y y1); try done.
    + cbn. rewrite E1. apply map_shape_give_up.
    + cbn. rewrite E1. apply Forall_map. eapply Forall_impl; [apply (so_packets _ _ _ Hs)|]. intros p Hpk. cbn.
      destruct (lost_now _ _ _ _ p); [by apply give_up_ok|done].
  - unfold space_frames. cbn. rewrite E6, E4, E1. cbn.
    rewrite (Permutation_app_comm (PacketNumSpace.lost s)), !app_assoc.
    rewrite <- (app_assoc _ (PacketNumSpace.acked s)), (Permutation_app_comm (PacketNumSpace.acked s)), !app_assoc.
    by rewrite lost_frames_perm.
Qed.

(** ** Histories of a path *)

(** The connection numbers a packet and counts it after it was registered. *)
Definition send_packet (p : SentPacket) (sid : SpaceId) (h : HandshakeStatus) (now : Instant)
  : cursor Error (Rec * PacketNumSpaceMap.PacketNumSpaceMap) unit := fun '(r, m) =>
  match PacketNumSpaceMap.get sid m with
  | None => Err InternalError
  | Some s =>
      let n := PacketNumSpace.next_pkt_num s in
      x ← on_packet_sent (with_pkt_num n p) sid h now (r, m);
      let '(r, m) := x.2 in
      s ← ok_or InternalError (PacketNumSpaceMap.get sid m);
      mret (tt, (r, PacketNumSpaceMap.set sid (PacketNumSpace.with_next_pkt_num (n + 1) s) m))
  end.

(** It takes the lost and the acknowledged frames of a space for processing. *)
Definition take_lost (sid : SpaceId) : cursor Error (Rec * PacketNumSpaceMap.PacketNumSpaceMap) (list Frame) := fun '(r, m) =>
  match PacketNumSpaceMap.get sid m with
  | None => Ok ([], (r, m))
  | Some s => Ok (PacketNumSpace.lost s, (r, PacketNumSpaceMap.set sid (PacketNumSpace.with_lost [] s) m))
  end.
Definition take_acked (sid : SpaceId) : cursor Error (Rec * PacketNumSpaceMap.PacketNumSpaceMap) (list Frame) := fun '(r, m) =>
  match PacketNumSpaceMap.get sid m with
  | None => Ok ([], (r, m))
  | Some s => Ok (PacketNumSpace.acked s, (r, PacketNumSpaceMap.set sid (PacketNumSpace.with_acked [] s) m))
  end.

Inductive event :=
| EvSent (p : SentPacket) (sid : SpaceId) (h : HandshakeStatus)
| EvAck (ranges : RangeSet.RangeSet) (ack_delay : Z) (sid : SpaceId) (h : HandshakeStatus)
| EvTimeout (sid : SpaceId) (h : HandshakeStatus)
| EvDiscard (sid : SpaceId) (h : HandshakeStatus)
| EvTakeLost (sid : SpaceId)
| EvTakeAcked (sid : SpaceId).

(** The frames handed to the connection, if any. *)
Definition apply_event (now : Instant) (ev : event) : cursor Error (Rec * PacketNumSpaceMap.PacketNumSpaceMap) (list Frame) :=
  match ev with
  | EvSent p sid h => send_packet p sid h now ;; mret []
  | EvAck ranges d sid h => on_ack_received ranges d sid h now ;; mret []
  | EvTimeout sid h => on_loss_detection_timeout sid h now ;; mret []
  | EvDiscard sid h => on_pkt_num_space_discarded sid h now ;; mret []
  | EvTakeLost sid => take_lost sid
  | EvTakeAcked sid => take_acked sid
  end.

(** A fresh packet, a set of numbers as a parsed ACK frame has it, and a space
    that exists. *)
Definition event_ok (m : PacketNumSpaceMap.PacketNumSpaceMap) (ev : event) : Prop :=
  match ev with
  | EvSent p sid _ => 0 <= sent_size p /\ time_acked p = None /\ time_lost p = None /\ is_Some (PacketNumSpaceMap.get sid m)
  | EvAck ranges d sid _ =>
      RangeSet.wf ranges /\ RangeSet.set ranges <> [] /\ 0 <= d /\ is_Some (PacketNumSpaceMap.get sid m)
  | _ => True
  end.

(** The frames of the space at a key. *)
Definition frames_at (k : Z) (m : PacketNumSpaceMap.PacketNumSpaceMap) : list Frame :=
  match PacketNumSpaceMap.spaces m !! k with Some s => space_frames s | None => [] end.

Lemma frames_at_set k sid s s' m : PacketNumSpaceMap.get sid m = Some s -> space_frames s ⊆+ space_frames s' ->
  frames_at k m ⊆+ frames_at k (PacketNumSpaceMap.set sid s' m).
Proof.
  intros Hg Hs. unfold frames_at, PacketNumSpaceMap.set. cbn. destruct (decide (k = PacketNumSpaceMap.key sid)) as [->|Hne].
  - rewrite lookup_insert_eq. unfold PacketNumSpaceMap.get in Hg. by rewrite Hg.
  - by rewrite lookup_insert_ne.
Qed.

Lemma set_set sid s s' m : PacketNumSpaceMap.set sid s' (PacketNumSpaceMap.set sid s m) = PacketNumSpaceMap.set sid s' m.
Proof. unfold PacketNumSpaceMap.set. cbn. by rewrite insert_insert_eq. Qed.
Lemma get_set sid s m : PacketNumSpaceMap.get sid (PacketNumSpaceMap.set sid s m) = Some s.
Proof. unfold PacketNumSpaceMap.get, PacketNumSpaceMap.set. cbn. apply lookup_insert_eq. Qed.

Lemma max_some ranges : RangeSet.wf ranges -> RangeSet.set ranges <> [] -> exists a, RangeSet.max ranges = Ok (Some a) /\ 0 <= a.
Proof.
  intros Hwf Hne. pose proof (RangeSet.max_spec ranges Hwf) as Hm. destruct (RangeSet.set ranges) as [|[x z] l] eqn:E; [done|].
  assert (RangeSet.mem ranges x) as Hx.
  { unfold RangeSet.mem, RangeSet.mem_list. rewrite E. left. cbn. unfold RangeSet.wf in Hwf. rewrite E in Hwf. cbn in Hwf. lia. }
  assert (0 <= x) by (unfold RangeSet.wf in Hwf; rewrite E in Hwf; cbn in Hwf; lia).
  destruct (RangeSet.max ranges) as [[a|]| |]; [|by apply Hm in Hx|done..]. exists a. split; [done|]. destruct Hm as [_ Hm]. specialize (Hm x Hx). lia.
Qed.

(** What every step keeps: the invariant, the set of spaces and the frames. *)
Definition step_ok (e : bool) (b : Instant) (m : PacketNumSpaceMap.PacketNumSpaceMap)
    (x : Rec * PacketNumSpaceMap.PacketNumSpaceMap) : Prop :=
  inv e b x /\ dom (PacketNumSpaceMap.spaces x.2) = dom (PacketNumSpaceMap.spaces m) /\ forall k, frames_at k m ⊆+ frames_at k x.2.

Lemma dom_set sid s s' m : PacketNumSpaceMap.get sid m = Some s ->
  dom (PacketNumSpaceMap.spaces (PacketNumSpaceMap.set sid s' m)) = dom (PacketNumSpaceMap.spaces m).
Proof. intros Hg. unfold PacketNumSpaceMap.set. cbn. apply dom_insert_lookup_L. eauto. Qed.

(** A step that changes one space and then sets the timer. *)
Lemma arm_step e b now sid sid' h r' m s s' : b <= HORIZON -> PacketNumSpaceMap.get sid' m = Some s ->
  inv e b (r', PacketNumSpaceMap.set sid' s' m) -> space_frames s ⊆+ space_frames s' ->
  exists x, arm sid h now (r', PacketNumSpaceMap.set sid' s' m) = Ok (tt, x) /\ step_ok e b m x.
Proof.
  intros Hb Hg Hi Hf. destruct (arm_ok b sid h now r' (PacketNumSpaceMap.set sid' s' m) Hb) as (t & ->); [apply Hi|].
  eexists. split; [reflexivity|]. split_and!; cbn.
  - destruct Hi. by split.
  - by eapply dom_set.
  - intros k. by eapply frames_at_set.
Qed.

Lemma kept_rtt b r e : path_ok b r -> rtt_within b e -> path_ok b (with_rtt e r).
Proof. intros (_ & ? & ? & ?) ?. by split. Qed.

Lemma ack_step e b now ranges d sid h r m s :
  b <= HORIZON -> 0 <= now <= b -> inv e b (r, m) -> RangeSet.wf ranges -> RangeSet.set ranges <> [] -> 0 <= d ->
  PacketNumSpaceMap.get sid m = Some s -> (e = true -> no_spurious ranges s) ->
  exists out x, on_ack_received ranges d sid h now (r, m) = Ok (out, x) /\ step_ok e b m x.
Proof.
  intros Hb Hn Hi Hwf Hne Hd Hg He. unfold on_ack_received. rewrite Hg. cbn [ok_or mbind outcome_bind].
  destruct (max_some ranges Hwf Hne) as (largest & -> & Hlarge). cbn [unwrap mbind outcome_bind].
  destruct (inv_open e b r m sid s Hi Hg) as (y & y1 & Hy & Hy1 & Hs & Hp & Hc & Hclose).
  set (s0 := PacketNumSpace.with_largest_acked_pkt _ s). set (r0 := if is_data_space sid then _ else r).
  assert (kept r r0 /\ bytes_in_flight r0 = bytes_in_flight r /\ ack_eliciting_in_flight r0 = ack_eliciting_in_flight r) as (K0 & B0 & L0)
    by (unfold r0; by destruct (is_data_space sid)).
  assert (space_ok e b s0) as Hs0 by (destruct Hs; by split).
  assert (counts e r0 s0 0 y 0 y1 (PacketNumSpace.sent s0)) as Hc0 by (eapply counts_ext; done).
  destruct (detect_acked_packets ranges now r0 s0) as [[[sample newly] r1] s1] eqn:Ed.
  destruct (detect_acked_ok e b ranges now r0 s0 y y1 sample newly r1 s1 Ed) as (Hc1 & K1 & Hs1 & F1 & Ht); [done..|].
  assert (space_frames s ⊆+ space_frames s1) as Hsub by (change (space_frames s) with (space_frames s0); by rewrite F1).
  assert (path_ok b r1) as Hp1 by (eapply kept_path; [|done]; by etrans).
  destruct newly as [|a newly].
  { eexists _, _. split; [reflexivity|]. split_and!; [by apply Hclose|by eapply dom_set|]. intros k. by eapply frames_at_set. }
  set (upd := match sample with Some _ => _ | None => _ end).
  assert (exists r2, upd = Ok r2 /\ path_ok b r2 /\ bytes_in_flight r2 = bytes_in_flight r1 /\
    ack_eliciting_in_flight r2 = ack_eliciting_in_flight r1) as (r2 & -> & Hp2 & B2 & L2).
  { unfold upd. destruct sample as [t|]; [|by exists r1]. destruct (t =? 0); [by exists r1|]. specialize (Ht t eq_refl).
    set (dd := if completed h then _ else _). assert (0 <= dd) as Hdd.
    { unfold dd, from_micros. destruct Hp1 as (_ & _ & ? & _). destruct (completed h); lia. }
    destruct (update_within b dd t (rtt r1) Hb Hdd Ht ltac:(apply Hp1)) as (e' & -> & Hw & _). cbn [mbind outcome_bind].
    exists (with_rtt e' r1). split; [done|]. split; [by apply kept_rtt|done]. }
  cbn [mbind outcome_bind]. destruct (detect_lost_ok e b now r2 s1 y y1 Hb Hp2 Hy Hy1 Hs1) as (n & bytes & r3 & s3 & -> & Hc3 & K3 & Hs3 & F3).
  { eapply counts_ext; done. }
  cbn [mbind outcome_bind]. destruct (drain_ok e b now (RttEstimator.smoothed_rtt (rtt r3)) r3 s3 y y1 Hs3 Hc3) as (Hs4 & Hc4 & F4).
  set (s4 := drain_sent_packets _ _ s3) in *. set (r4 := with_pto_count 0 _).
  assert (kept r3 r4 /\ bytes_in_flight r4 = bytes_in_flight r3 /\ ack_eliciting_in_flight r4 = ack_eliciting_in_flight r3) as (K4 & B4 & L4)
    by (unfold r4; by destruct (is_data_space sid)).
  destruct (arm_step e b now sid sid h r4 m s s4 Hb Hg) as (x & -> & Hx).
  - apply Hclose; [|done|by eapply counts_ext]. eapply kept_path; [exact K4|]. by eapply kept_path.
  - rewrite F4, F3. done.
  - by eexists _, _.
Qed.

(** Changing only what the invariant does not speak of. *)
Lemma space_ok_frames e b s l a t p : space_ok e b s ->
  space_ok e b (PacketNumSpace.with_lost l (PacketNumSpace.with_acked a (PacketNumSpace.with_loss_time t (PacketNumSpace.with_loss_probes p s)))).
Proof. intros []. by split. Qed.

Lemma timeout_step e b now sid h r m : b <= HORIZON -> 0 <= now <= b -> inv e b (r, m) ->
  exists out x, on_loss_detection_timeout sid h now (r, m) = Ok (out, x) /\ step_ok e b m x.
Proof.
  intros Hb Hn Hi. assert (step_ok e b m (r, m)) as Hsame by (split_and!; done). unfold on_loss_detection_timeout.
  destruct (get_loss_time_and_space sid m) as [t sid']. destruct (PacketNumSpaceMap.get sid' m) as [s|] eqn:Hg; [|by eexists _, _].
  destruct (inv_open e b r m sid' s Hi Hg) as (y & y1 & Hy & Hy1 & Hs & Hp & Hc & Hclose). destruct t as [t|].
  - destruct (detect_lost_ok e b now r s y y1 Hb Hp Hy Hy1 Hs Hc) as (n & bytes & r3 & s3 & -> & Hc3 & K3 & Hs3 & F3).
    cbn [mbind outcome_bind]. destruct (drain_ok e b now (RttEstimator.smoothed_rtt (rtt r3)) r3 s3 y y1 Hs3 Hc3) as (Hs4 & Hc4 & F4).
    destruct (arm_step e b now sid sid' h r3 m s (drain_sent_packets now (RttEstimator.smoothed_rtt (rtt r3)) s3) Hb Hg) as (x & -> & Hx).
    + apply Hclose; [by eapply kept_path|done|done].
    + rewrite F4, F3. done.
    + by eexists _, _.
  - clear Hg Hc Hclose Hs s y y1 Hy Hy1.
    assert (exists sid2, (if 0 <? ack_eliciting_in_flight r then x ← get_pto_time_and_space sid m h now r; mret x.2
      else mret (if derived_handshake_keys h then SpaceHandshake else SpaceInitial)) = Ok sid2) as (sid2 & ->).
    { destruct (0 <? _); [|by eexists]. unfold get_pto_time_and_space.
      destruct (calculate_pto_ok b r Hb Hp) as (d & -> & Hd & Hd'). cbn [mbind outcome_bind]. destruct (_ =? 0); [by eexists|].
      destruct (earliest_pto_ok b r m h (candidates sid) Hb Hp d None SpaceInitial) as (o & ->); [lia|lia|apply candidates_last|by eexists]. }
    cbn [mbind outcome_bind]. destruct (PacketNumSpaceMap.get sid2 m) as [s|] eqn:Hg; [|by eexists _, _].
    destruct (inv_open e b r m sid2 s Hi Hg) as (y & y1 & Hy & Hy1 & Hs & _ & Hc & Hclose).
    set (r' := with_pto_count _ r). set (probes := match sid2 with SpaceInitial => 1 | _ => _ end).
    set (s' := PacketNumSpace.with_lost _ _). destruct (arm_step e b now sid sid2 h r' m s s' Hb Hg) as (x & -> & Hx).
    + apply Hclose; [done| |by eapply counts_ext]. destruct Hs. by split.
    + unfold space_frames, s'. cbn. rewrite !app_assoc. apply submseteq_inserts_r. done.
    + by eexists _, _.
Qed.

Lemma discard_counts b sent : forall (r : Rec) y y1, Forall (pkt_ok b) sent -> 0 <= y -> 0 <= y1 -> forall e,
  counted e (bytes_in_flight r) (total fly sent + y) -> counted e (ack_eliciting_in_flight r) (total fly1 sent + y1) ->
  counted e (bytes_in_flight (remove_from_bytes_in_flight sent r)) y /\
  counted e (ack_eliciting_in_flight (remove_from_bytes_in_flight sent r)) y1 /\ kept r (remove_from_bytes_in_flight sent r).
Proof.
  unfold remove_from_bytes_in_flight. induction sent as [|p sent IH]; intros r y y1 Hok Hy Hy1 e Hb He; [done|].
  apply Forall_cons_1 in Hok as [Hp Hok]. cbn [foldl].
  set (r1 := if _ : bool then r else leave p r).
  assert (counted e (bytes_in_flight r1) (total fly sent + y) /\ counted e (ack_eliciting_in_flight r1) (total fly1 sent + y1) /\ kept r r1)
    as (H1 & H2 & K).
  { rewrite total_cons in Hb, He. pose proof (total_fly_nonneg sent (pkts_sizes b _ Hok)). pose proof (total_fly1_nonneg sent).
    rewrite <- Z.add_assoc in Hb, He. unfold r1.
    destruct (negb (in_flight p) || bool_decide (is_Some (time_acked p)) || bool_decide (is_Some (time_lost p))) eqn:E.
    - assert (fly p = 0 /\ fly1 p = 0) as [F0 F1].
      { unfold fly, fly1, resolved. destruct (in_flight p), (ack_eliciting p), (bool_decide (is_Some (time_acked p))), (bool_decide (is_Some (time_lost p)));
          done. }
      rewrite F0 in Hb. rewrite F1 in He. done.
    - assert (in_flight p = true /\ resolved p = false) as [Hfl Hre].
      { unfold resolved. by destruct (in_flight p), (bool_decide (is_Some (time_acked p))), (bool_decide (is_Some (time_lost p))). }
      assert (fly p = flown p /\ fly1 p = flown1 p) as [F0 F1] by (unfold fly, fly1, flown, flown1; by rewrite Hre, !andb_true_r).
      rewrite F0 in Hb. rewrite F1 in He.
      pose proof (fly_nonneg p ltac:(apply Hp)). pose proof (fly1_nonneg p). rewrite leave_bytes, leave_eliciting by (apply Hb || apply He).
      split_and!; [apply counted_sub; done || lia..|apply leave_kept]. }
  destruct (IH r1 y y1 Hok Hy Hy1 e H1 H2) as (I1 & I2 & I3). split_and!; [done|done|by etrans].
Qed.

Lemma discard_step e b now sid h r m : b <= HORIZON -> inv e b (r, m) ->
  exists x, on_pkt_num_space_discarded sid h now (r, m) = Ok (tt, x) /\ inv e b x /\
    dom (PacketNumSpaceMap.spaces x.2) = dom (PacketNumSpaceMap.spaces m) /\
    forall k, k <> PacketNumSpaceMap.key sid -> frames_at k x.2 = frames_at k m.
Proof.
  intros Hb Hi. unfold on_pkt_num_space_discarded. destruct (PacketNumSpaceMap.get sid m) as [s|] eqn:Hg; [|by eexists].
  destruct (inv_open e b r m sid s Hi Hg) as (y & y1 & Hy & Hy1 & Hs & Hp & (_ & C2 & _ & C4) & Hclose).
  destruct (discard_counts b (PacketNumSpace.sent s) r y y1 ltac:(apply Hs) Hy Hy1 e C2 C4) as (H1 & H2 & K).
  set (r' := remove_from_bytes_in_flight _ r) in *. set (s' := PacketNumSpace.with_ack_eliciting_in_flight 0 _).
  assert (counted e 0 0) as Hz by (unfold counted; lia).
  assert (inv e b (r', PacketNumSpaceMap.set sid s' m)) as Hi'.
  { apply Hclose; [by eapply kept_path| |]. - split; try done. cbn. split; [constructor|apply Hs]. - by split_and!. }
  destruct (arm_ok b sid h now r' (PacketNumSpaceMap.set sid s' m) Hb) as (t & ->); [apply Hi'|].
  eexists. split; [reflexivity|]. split_and!; cbn.
  - destruct Hi'. by split.
  - by eapply dom_set.
  - intros k Hk. unfold frames_at. cbn. by rewrite lookup_insert_ne.
Qed.

Lemma ascending_snoc l p : forall lo, ascending lo l -> Forall (fun q => pkt_num q < pkt_num p) l -> lo < pkt_num p -> ascending lo (l ++ [p]).
Proof.
  induction l as [|q l IH]; intros lo Hl Hlt Hlo; [done|]. destruct Hl as [Hq Hl]. apply Forall_cons_1 in Hlt as [Hqp Hlt].
  split; [done|]. by apply IH.
Qed.

(** A packet that joins a space, its counters raised by what it is. *)
Lemma joined_ok e b s s' q :
  space_ok e b s -> pkt_ok b q -> resolved q = false -> pkt_num q = PacketNumSpace.next_pkt_num s ->
  PacketNumSpace.sent s' = PacketNumSpace.sent s ++ [q] ->
  PacketNumSpace.next_pkt_num s' = PacketNumSpace.next_pkt_num s + 1 ->
  PacketNumSpace.bytes_in_flight s' = PacketNumSpace.bytes_in_flight s + flown q ->
  PacketNumSpace.ack_eliciting_in_flight s' = PacketNumSpace.ack_eliciting_in_flight s + flown1 q ->
  PacketNumSpace.time_of_last_sent_ack_eliciting_pkt s' =
    (if in_flight q && ack_eliciting q then Some (time_sent q) else PacketNumSpace.time_of_last_sent_ack_eliciting_pkt s) ->
  space_ok e b s'.
Proof.
  intros [H1 [H2 H3] H4 H5 H6 H7] Hq Hr Hn Es En Eb Ee Et. pose proof (fly_nonneg q ltac:(apply Hq)). pose proof (fly1_nonneg q).
  assert (fly q = flown q /\ fly1 q = flown1 q) as [F0 F1] by (unfold fly, fly1, flown, flown1; by rewrite Hr, !andb_true_r).
  split; rewrite Es.
  - apply ascending_snoc; [done| |lia]. eapply Forall_impl; [exact H2|]. cbn. lia.
  - rewrite En. split; [|lia]. apply Forall_app. split; [eapply Forall_impl; [exact H2|]; cbn; lia|]. repeat constructor. lia.
  - apply Forall_app. split; [done|]. by constructor.
  - rewrite Eb, total_app. cbn. unfold counted in *. destruct H5 as [? H5]. split; [lia|]. intros E. specialize (H5 E). lia.
  - rewrite Ee, total_app. cbn. unfold counted in *. destruct H6 as [? H6]. split; [lia|]. intros E. specialize (H6 E). lia.
  - rewrite Et. destruct (in_flight q && ack_eliciting q) eqn:E; [done|]. intros Hnone. apply Forall_app. split; [by apply H7|].
    by constructor.
Qed.

Lemma joined_counts e (r r' : Rec) s s' y y1 l q : counts e r s 0 y 0 y1 l -> 0 <= fly q ->
  fly q = flown q -> fly1 q = flown1 q ->
  bytes_in_flight r' = bytes_in_flight r + flown q -> ack_eliciting_in_flight r' = ack_eliciting_in_flight r + flown1 q ->
  PacketNumSpace.bytes_in_flight s' = PacketNumSpace.bytes_in_flight s + flown q ->
  PacketNumSpace.ack_eliciting_in_flight s' = PacketNumSpace.ack_eliciting_in_flight s + flown1 q ->
  counts e r' s' 0 y 0 y1 (l ++ [q]).
Proof.
  intros (C1 & C2 & C3 & C4) Hq F0 F1 E1 E2 E3 E4. pose proof (fly1_nonneg q). unfold counts, counted in *.
  rewrite E1, E2, E3, E4, !total_app. cbn. rewrite F0, F1 in *.
  split_and!; try lia; intros E; [destruct C1 as [_ Q]|destruct C2 as [_ Q]|destruct C3 as [_ Q]|destruct C4 as [_ Q]]; specialize (Q E); lia.
Qed.

(** The controller is told of a packet and leaves its snapshot in it. *)
Lemma told now q0 sid (r : Rec) : exists q r1,
  (if in_flight q0 && is_data_space sid
   then let '(q, c) := cc_on_sent now q0 (bytes_in_flight r) (congestion r) in (q, with_congestion c r) else (q0, r)) = (q, r1) /\
  (exists rs, q = with_rate_sample_state rs q0) /\ kept r r1 /\
  bytes_in_flight r1 = bytes_in_flight r /\ ack_eliciting_in_flight r1 = ack_eliciting_in_flight r.
Proof.
  destruct (in_flight q0 && is_data_space sid).
  - pose proof (cc_on_sent_snapshot now q0 (bytes_in_flight r) (congestion r)) as Hs.
    destruct (cc_on_sent now q0 (bytes_in_flight r) (congestion r)) as [q c]. cbn in Hs. eexists _, _. split; [reflexivity|].
    split_and!; try done. by eexists.
  - eexists _, _. split; [reflexivity|]. split_and!; try done. exists (rate_sample_state q0). by destruct q0.
Qed.

Lemma send_step e b now p sid h r m : b <= HORIZON -> 0 <= now <= b -> inv e b (r, m) -> event_ok m (EvSent p sid h) ->
  exists x, send_packet p sid h now (r, m) = Ok (tt, x) /\ step_ok e b m x /\
    frames_at (PacketNumSpaceMap.key sid) m ++ frames p ⊆+ frames_at (PacketNumSpaceMap.key sid) x.2.
Proof.
  intros Hb Hn Hi (Hsz & Hna & Hnl & [s Hg]). unfold send_packet. rewrite Hg. unfold on_packet_sent. rewrite Hg.
  destruct (inv_open e b r m sid s Hi Hg) as (y & y1 & Hy & Hy1 & Hs & Hp & Hc & Hclose).
  set (n := PacketNumSpace.next_pkt_num s). set (q0 := with_time_sent now (with_pkt_num n p)).
  destruct (told now q0 sid r) as (q & r1 & -> & [rs Hq] & K1 & B1 & L1).
  assert (pkt_ok b q /\ resolved q = false /\ pkt_num q = n /\ frames q = frames p /\ in_flight q = in_flight p /\
    ack_eliciting q = ack_eliciting p /\ sent_size q = sent_size p /\ time_sent q = now) as (Hok & Hr & Hnum & Hf & Efl & Eel & Esz & Ets).
  { subst q. cbn. unfold pkt_ok, resolved. cbn. rewrite Hna, Hnl. split_and!; done || lia. }
  assert (fly q = flown q /\ fly1 q = flown1 q) as [F0 F1] by (unfold fly, fly1, flown, flown1; by rewrite Hr, !andb_true_r).
  assert (forall (r' : Rec) s1, path_ok b r' -> bytes_in_flight r' = bytes_in_flight r + flown q ->
    ack_eliciting_in_flight r' = ack_eliciting_in_flight r + flown1 q -> PacketNumSpace.sent s1 = PacketNumSpace.sent s ++ [q] ->
    PacketNumSpace.acked s1 = PacketNumSpace.acked s -> PacketNumSpace.lost s1 = PacketNumSpace.lost s ->
    PacketNumSpace.bytes_in_flight s1 = PacketNumSpace.bytes_in_flight s + flown q ->
    PacketNumSpace.ack_eliciting_in_flight s1 = PacketNumSpace.ack_eliciting_in_flight s + flown1 q ->
    PacketNumSpace.time_of_last_sent_ack_eliciting_pkt s1 =
      (if in_flight q && ack_eliciting q then Some (time_sent q) else PacketNumSpace.time_of_last_sent_ack_eliciting_pkt s) ->
    let m' := PacketNumSpaceMap.set sid (PacketNumSpace.with_next_pkt_num (n + 1) s1) m in
    step_ok e b m (r', m') /\ frames_at (PacketNumSpaceMap.key sid) m ++ frames p ⊆+ frames_at (PacketNumSpaceMap.key sid) m') as Hdone.
  { intros r' s1 Hp' Eb Ee Es Ea El Esb Ese Et. cbn zeta. set (s2 := PacketNumSpace.with_next_pkt_num (n + 1) s1).
    assert (space_frames s ++ frames p ≡ₚ space_frames s2) as Hperm.
    { unfold space_frames. cbn. rewrite Es, Ea, El, map_app, concat_app. cbn. rewrite app_nil_r, Hf, <- !app_assoc.
      f_equiv. rewrite !app_assoc. rewrite (Permutation_app_comm _ (frames p)). by rewrite !app_assoc. }
    split; [split_and!|].
    - apply Hclose; [done|by eapply (joined_ok e b s s2 q)|].
      cbn. rewrite Es. eapply (joined_counts e r r' s); try done. by apply fly_nonneg, Hok.
    - by eapply dom_set.
    - intros k. eapply frames_at_set; [done|]. rewrite <- Hperm. by apply submseteq_inserts_r.
    - unfold frames_at. cbn. unfold PacketNumSpaceMap.get in Hg. rewrite Hg, lookup_insert_eq. by rewrite Hperm. }
  change (in_flight q0) with (in_flight p). change (ack_eliciting q0) with (ack_eliciting p).
  change (sent_size q0) with (sent_size p). change (pacing q0) with (pacing p).
  assert (path_ok b r1) as Hp1 by (by eapply kept_path).
  assert (flown q = (if in_flight p then sent_size p else 0) /\ flown1 q = (if in_flight p && ack_eliciting p then 1 else 0)) as [G0 G1].
  { unfold flown, flown1. by rewrite Efl, Eel, Esz. }
  rewrite Efl, Eel, Ets, G0, G1 in Hdone.
  destruct (in_flight p).
  - set (s1 := PacketNumSpace.with_bytes_in_flight _ _). set (r2 := with_cache_pkt_size _ _).
    destruct (arm_ok b sid h now r2 (PacketNumSpaceMap.set sid s1 m) Hb) as (t & ->).
    { unfold r2. by destruct (ack_eliciting p). }
    cbn [mbind outcome_bind mret outcome_ret snd]. rewrite get_set. cbn [ok_or mbind outcome_bind]. rewrite set_set.
    eexists. split; [reflexivity|]. unfold s1, r2.
    destruct (ack_eliciting p), (pacing p); apply Hdone; cbn; rewrite ?B1, ?L1; try done; try lia.
  - cbn [mbind outcome_bind mret outcome_ret snd]. rewrite get_set. cbn [ok_or mbind outcome_bind]. rewrite set_set.
    eexists. split; [reflexivity|]. destruct (ack_eliciting p), (pacing p); apply Hdone; cbn; rewrite ?B1, ?L1; try done; try lia.
Qed.

Lemma take_step e b r m sid s s' : inv e b (r, m) -> PacketNumSpaceMap.get sid m = Some s ->
  (exists l a, s' = PacketNumSpace.with_lost l (PacketNumSpace.with_acked a s)) ->
  inv e b (r, PacketNumSpaceMap.set sid s' m) /\
  dom (PacketNumSpaceMap.spaces (PacketNumSpaceMap.set sid s' m)) = dom (PacketNumSpaceMap.spaces m).
Proof.
  intros Hi Hg (l & a & ->). destruct (inv_open e b r m sid s Hi Hg) as (y & y1 & Hy & Hy1 & Hs & Hp & Hc & Hclose).
  split; [|by eapply dom_set]. apply Hclose; [done| |by eapply counts_ext]. destruct Hs. by split.
Qed.

(** An event that acknowledges no packet declared lost. *)
Definition clean_event (m : PacketNumSpaceMap.PacketNumSpaceMap) (ev : event) : Prop :=
  match ev with
  | EvAck ranges _ sid _ => forall s, PacketNumSpaceMap.get sid m = Some s -> no_spurious ranges s
  | _ => True
  end.

(** Frames an event puts into and takes out of the space at a key. *)
Definition sent_at (k : Z) (ev : event) : list Frame :=
  match ev with EvSent p sid _ => if k =? PacketNumSpaceMap.key sid then frames p else [] | _ => [] end.
Definition taken_at (k : Z) (ev : event) (out : list Frame) : list Frame :=
  match ev with
  | EvTakeLost sid | EvTakeAcked sid => if k =? PacketNumSpaceMap.key sid then out else []
  | _ => []
  end.
Definition discards (k : Z) (ev : event) : Prop :=
  match ev with EvDiscard sid _ => k = PacketNumSpaceMap.key sid | _ => False end.

Lemma take_frames (k : Z) sid s s' m out : PacketNumSpaceMap.get sid m = Some s -> space_frames s ⊆+ space_frames s' ++ out ->
  frames_at k m ⊆+ frames_at k (PacketNumSpaceMap.set sid s' m) ++ (if k =? PacketNumSpaceMap.key sid then out else []).
Proof.
  intros Hg Hs. unfold frames_at, PacketNumSpaceMap.set. cbn. destruct (Z.eqb_spec k (PacketNumSpaceMap.key sid)) as [->|Hne].
  - rewrite lookup_insert_eq. unfold PacketNumSpaceMap.get in Hg. by rewrite Hg.
  - rewrite lookup_insert_ne by done. by rewrite app_nil_r.
Qed.

Lemma event_step e b now ev r m : b <= HORIZON -> 0 <= now <= b -> inv e b (r, m) -> event_ok m ev ->
  (e = true -> clean_event m ev) ->
  exists out x, apply_event now ev (r, m) = Ok (out, x) /\ inv e b x /\
    dom (PacketNumSpaceMap.spaces x.2) = dom (PacketNumSpaceMap.spaces m) /\
    forall k, ~ discards k ev -> frames_at k m ++ sent_at k ev ⊆+ frames_at k x.2 ++ taken_at k ev out.
Proof.
  intros Hb Hn Hi Hok He. destruct ev as [p sid h|ranges d sid h|sid h|sid h|sid|sid]; cbn [apply_event sent_at taken_at discards];
    unfold mbind, cursor_bind.
  - destruct (send_step e b now p sid h r m Hb Hn Hi Hok) as (x & -> & (Hi' & Hd & Hf) & Hp). eexists _, x. split; [reflexivity|].
    split_and!; [done|done|]. intros k _. rewrite app_nil_r. destruct (Z.eqb_spec k (PacketNumSpaceMap.key sid)) as [->|]; [done|].
    rewrite app_nil_r. apply Hf.
  - destruct Hok as (Hwf & Hne & Hd & [s Hg]).
    destruct (ack_step e b now ranges d sid h r m s Hb Hn Hi Hwf Hne Hd Hg) as (out & x & -> & Hi' & Hd' & Hf); [by intros E; apply He|].
    eexists _, x. split; [reflexivity|]. split_and!; [done|done|]. intros k _. rewrite !app_nil_r. apply Hf.
  - destruct (timeout_step e b now sid h r m Hb Hn Hi) as (out & x & -> & Hi' & Hd' & Hf).
    eexists _, x. split; [reflexivity|]. split_and!; [done|done|]. intros k _. rewrite !app_nil_r. apply Hf.
  - destruct (discard_step e b now sid h r m Hb Hi) as (x & -> & Hi' & Hd' & Hf).
    eexists _, x. split; [reflexivity|]. split_and!; [done|done|]. intros k Hk. rewrite !app_nil_r. by rewrite Hf.
  - unfold take_lost. destruct (PacketNumSpaceMap.get sid m) as [s|] eqn:Hg.
    + eexists _, _. split; [reflexivity|]. destruct (take_step e b r m sid s (PacketNumSpace.with_lost [] s) Hi Hg) as [Hi' Hd'].
      { exists [], (PacketNumSpace.acked s). by destruct s. }
      split_and!; [done|done|]. intros k _. rewrite app_nil_r. apply (take_frames k sid s); [done|]. unfold space_frames. cbn.
      by rewrite app_nil_r, <- app_assoc.
    + eexists _, _. split; [reflexivity|]. split_and!; [done|done|]. intros k _. cbn. by destruct (_ =? _); rewrite !app_nil_r.
  - unfold take_acked. destruct (PacketNumSpaceMap.get sid m) as [s|] eqn:Hg.
    + eexists _, _. split; [reflexivity|]. destruct (take_step e b r m sid s (PacketNumSpace.with_acked [] s) Hi Hg) as [Hi' Hd'].
      { exists (PacketNumSpace.lost s), []. by destruct s. }
      split_and!; [done|done|]. intros k _. rewrite app_nil_r. apply (take_frames k sid s); [done|]. unfold space_frames. cbn.
      rewrite <- app_assoc. apply submseteq_app; [done|]. by rewrite Permutation_app_comm.
    + eexists _, _. split; [reflexivity|]. split_and!; [done|done|]. intros k _. cbn. by destruct (_ =? _); rewrite !app_nil_r.
Qed.

(** A history: events with their times.  The result lists what each event handed
    to the connection. *)
Fixpoint run (evs : list (Instant * event)) (x : Rec * PacketNumSpaceMap.PacketNumSpaceMap)
  : res (list (list Frame) * (Rec * PacketNumSpaceMap.PacketNumSpaceMap)) :=
  match evs with
  | [] => Ok ([], x)
  | (now, ev) :: evs =>
      y ← apply_event now ev x;
      z ← run evs y.2;
      mret (y.1 :: z.1, z.2)
  end.

Fixpoint clean (evs : list (Instant * event)) (x : Rec * PacketNumSpaceMap.PacketNumSpaceMap) : Prop :=
  match evs with
  | [] => True
  | (now, ev) :: evs =>
      clean_event x.2 ev /\ match apply_event now ev x with Ok y => clean evs y.2 | _ => True end
  end.

Definition timely (m : PacketNumSpaceMap.PacketNumSpaceMap) (x : Instant * event) : Prop :=
  0 <= x.1 <= HORIZON /\ event_ok m x.2.

Definition all_sent (k : Z) (evs : list (Instant * event)) : list Frame := concat (map (fun x => sent_at k x.2) evs).
Definition all_taken (k : Z) (evs : list (Instant * event)) (outs : list (list Frame)) : list Frame :=
  concat (zip_with (fun x out => taken_at k x.2 out) evs outs).

Lemma event_ok_dom m m' ev : dom (PacketNumSpaceMap.spaces m') = dom (PacketNumSpaceMap.spaces m) -> event_ok m ev -> event_ok m' ev.
Proof.
  intros Hd. assert (forall sid, is_Some (PacketNumSpaceMap.get sid m) -> is_Some (PacketNumSpaceMap.get sid m')) as Hs.
  { intros sid. unfold PacketNumSpaceMap.get. rewrite <- !elem_of_dom. by rewrite Hd. }
  destruct ev; cbn; naive_solver.
Qed.

Lemma run_ok e evs : forall r m, inv e HORIZON (r, m) -> Forall (timely m) evs -> (e = true -> clean evs (r, m)) ->
  exists outs x, run evs (r, m) = Ok (outs, x) /\ inv e HORIZON x /\
    forall k, Forall (fun y => ~ discards k y.2) evs ->
      frames_at k m ++ all_sent k evs ⊆+ frames_at k x.2 ++ all_taken k evs outs.
Proof.
  induction evs as [|[now ev] evs IH]; intros r m Hi Ht He.
  { exists [], (r, m). split_and!; [done|done|]. intros k _. cbn. by rewrite !app_nil_r. }
  apply Forall_cons_1 in Ht as [[Hn Hok] Ht]. cbn [run].
  destruct (event_step e HORIZON now ev r m) as (out & [r1 m1] & E & Hi1 & Hd & Hf); [done..|by intros Et; apply He|].
  rewrite E. cbn [mbind outcome_bind snd fst]. destruct (IH r1 m1 Hi1) as (outs & x & -> & Hix & Hfx).
  - eapply Forall_impl; [exact Ht|]. intros y [Hy1 Hy2]. split; [done|]. by eapply event_ok_dom.
  - intros Et. destruct (He Et) as [_ Hc]. by rewrite E in Hc.
  - cbn [mbind outcome_bind snd fst]. exists (out :: outs), x. split_and!; [done|done|]. intros k Hk.
    apply Forall_cons_1 in Hk as [Hk Hks]. specialize (Hf k Hk). specialize (Hfx k Hks). unfold all_sent, all_taken. cbn.
    rewrite app_assoc. etrans; [apply submseteq_app; [exact Hf|done]|]. cbn.
    rewrite <- app_assoc, (Permutation_app_comm (taken_at k ev out)), app_assoc.
    etrans; [apply submseteq_app; [exact Hfx|done]|]. rewrite <- app_assoc. by rewrite (Permutation_app_comm (all_taken k evs outs)).
Qed.

(** ** A new path *)

Definition conf_ok (c : RecoveryConfig) : Prop :=
  0 <= conf_initial_rtt c <= HORIZON /\ 0 <= conf_max_ack_delay c <= HORIZON /\ 0 <= conf_max_pto c /\
  0 < conf_initial_congestion_window c /\ 0 < conf_max_datagram_size c < 2 ^ 32 /\ 0 <= conf_pacing_granularity c < 2 ^ 64.

Lemma new_inv e c cc t0 : conf_ok c -> exists r, new c cc t0 = Ok r /\ inv e HORIZON (r, PacketNumSpaceMap.new t0).
Proof.
  intros (H1 & H2 & H3 & H4 & H5 & H6). unfold new, build_pacer_controller, Pacer.new.
  destruct (update_capacity_ok (Z.min (conf_initial_congestion_window c * conf_max_datagram_size c) U64_MAX) (conf_initial_rtt c)
    (conf_max_datagram_size c) (Pacer.mkPacer (conf_enable_pacing c) 0 0
      (Z.min (conf_initial_congestion_window c * conf_max_datagram_size c) U64_MAX) t0 (conf_pacing_granularity c))) as (cap & -> & _).
  { unfold U64_MAX. nia. }
  { done. }
  { done. }
  cbn [mbind outcome_bind]. eexists. split; [reflexivity|].
  assert (counted e 0 0) as Hz by (unfold counted; lia). split; cbn; [| |done|done].
  - split_and!; cbn; try done; try lia. destruct (new_within (conf_initial_rtt c) ltac:(lia)) as (? & ? & ? & ?). unfold rtt_within. lia.
  - unfold PacketNumSpaceMap.new. cbn. assert (forall id, space_ok e HORIZON (PacketNumSpace.new id t0)) as Hnew.
    { intros id. split; cbn; done || (split; [constructor|lia]). }
    repeat apply map_Forall_insert_2; done.
Qed.

(** ** The theorems *)

(** C7.  For every history of a path (packets sent, ACK frames, timeouts, spaces
    discarded and frames taken for processing, in any order) nothing panics, and
    the bytes in flight and the number of ack-eliciting packets in flight, of the
    path and of each space, never exceed what is outstanding in the sent packets.
    They are exact as long as no packet is acknowledged after it was declared
    lost. *)
Theorem in_flight_correct c cc t0 evs :
  conf_ok c -> Forall (timely (PacketNumSpaceMap.new t0)) evs ->
  exists r0 outs r m, new c cc t0 = Ok r0 /\ run evs (r0, PacketNumSpaceMap.new t0) = Ok (outs, (r, m)) /\
    bytes_in_flight r <= sum_spaces fly (PacketNumSpaceMap.spaces m) /\
    ack_eliciting_in_flight r <= sum_spaces fly1 (PacketNumSpaceMap.spaces m) /\
    (forall sid s, PacketNumSpaceMap.get sid m = Some s ->
      PacketNumSpace.bytes_in_flight s <= total fly (PacketNumSpace.sent s) /\
      PacketNumSpace.ack_eliciting_in_flight s <= total fly1 (PacketNumSpace.sent s)) /\
    (clean evs (r0, PacketNumSpaceMap.new t0) ->
      bytes_in_flight r = sum_spaces fly (PacketNumSpaceMap.spaces m) /\
      ack_eliciting_in_flight r = sum_spaces fly1 (PacketNumSpaceMap.spaces m)).
Proof.
  intros Hc He. destruct (new_inv false c cc t0 Hc) as (r0 & E0 & Hi).
  destruct (run_ok false evs r0 _ Hi He) as (outs & [r m] & E & [_ Hs [Hb _] [Hl _]] & _); [done|].
  exists r0, outs, r, m. split_and!; [done|done|apply Hb|apply Hl| |].
  - intros sid s Hg. destruct (map_Forall_lookup_1 _ _ _ _ Hs Hg) as [_ _ _ [Hx _] [Hy _] _]. lia.
  - intros Hcl. destruct (new_inv true c cc t0 Hc) as (r1 & E1 & Hi'). assert (r1 = r0) as -> by congruence.
    destruct (run_ok true evs r0 _ Hi' He) as (outs' & x' & E' & [_ _ [_ Hb'] [_ Hl']] & _); [done|].
    assert (x' = (r, m)) as -> by congruence. split; [by apply Hb'|by apply Hl'].
Qed.

(** C8.  No frame is forgotten: in a space that was not discarded, every frame of
    every packet sent is, counted with multiplicity, still with its outstanding
    packet, waiting as acknowledged or lost, or has been handed to the connection
    as such. *)
Theorem frames_accounted c cc t0 evs k :
  conf_ok c -> Forall (timely (PacketNumSpaceMap.new t0)) evs -> Forall (fun y => ~ discards k y.2) evs ->
  exists r0 outs x, new c cc t0 = Ok r0 /\ run evs (r0, PacketNumSpaceMap.new t0) = Ok (outs, x) /\
    all_sent k evs ⊆+ frames_at k x.2 ++ all_taken k evs outs.
Proof.
  intros Hc He Hk. destruct (new_inv false c cc t0 Hc) as (r0 & E0 & Hi).
  destruct (run_ok false evs r0 _ Hi He) as (outs & x & E & _ & Hf); [done|]. exists r0, outs, x. split_and!; [done|done|].
  specialize (Hf k Hk). etrans; [|exact Hf]. by apply submseteq_inserts_l.
Qed.

(** C25.  The scan that runs through the ACK ranges and the sent packets together
    acknowledges the same packets, with the same effects in the same order, as
    testing each sent packet for membership in the acknowledged set. *)
Theorem ack_scan_equiv ranges now lo sent st :
  RangeSet.wf ranges -> ascending lo sent ->
  scan_ranges now (RangeSet.iter ranges) sent st = ack_ref now (RangeSet.contains ranges) sent st.
Proof.
  intros Hwf Hs. unfold RangeSet.iter. rewrite (scan_ranges_ref now _ (-1) lo) by done. apply ack_ref_ext.
  apply Forall_forall. intros p _. by apply inside_contains.
Qed.


Lemma total_fly1_pos p l : p ∈ l -> in_flight p = true -> ack_eliciting p = true -> resolved p = false -> 0 < total fly1 l.
Proof.
  intros Hp Hf Ha Hr. apply list_elem_of_split in Hp as (l1 & l2 & ->). rewrite total_app, total_cons.
  pose proof (total_fly1_nonneg l1). pose proof (total_fly1_nonneg l2). unfold fly1 at 2. rewrite Hf, Ha, Hr. cbn. lia.
Qed.

Lemma set_timer_armed b sid h now m r c s : b <= HORIZON -> inv true b (r, m) ->
  c ∈ candidates sid -> PacketNumSpaceMap.get c m = Some s -> asks s ->
  (c = SpaceData -> completed h = true) -> is_server h && at_amplification_limit h = false ->
  exists t, set_loss_detection_timer sid h now m r = Ok (with_loss_detection_timer (Some t) r) /\
    ((get_loss_time_and_space sid m).1 = None ->
      exists last, PacketNumSpace.time_of_last_sent_ack_eliciting_pkt s = Some last /\ t <= last + max_pto r).
Proof.
  intros Hb Hi Hc Hg Ha Hco Hamp. pose proof (inv_path _ _ _ Hi) as Hp. cbn in Hp. unfold set_loss_detection_timer.
  destruct (get_loss_time_and_space sid m).1 as [t|]; [by exists t|]. rewrite Hamp.
  assert (forall c s, PacketNumSpaceMap.get c m = Some s -> asked s) as Hasked.
  { intros c' s' Hg'. eapply space_ok_asked. exact (map_Forall_lookup_1 _ _ _ _ (inv_spaces _ _ _ Hi) Hg'). }
  assert (ack_eliciting_in_flight r <> 0) as Hr.
  { destruct (inv_open true b r m c s Hi Hg) as (y & y1 & Hy & Hy1 & Hs & _ & (_ & _ & [_ C3] & [_ C4]) & _).
    specialize (C3 eq_refl). specialize (C4 eq_refl). pose proof (total_fly1_nonneg (PacketNumSpace.sent s)). unfold asks in Ha. lia. }
  destruct (Z.eqb_spec (ack_eliciting_in_flight r) 0); [done|]. cbn [andb]. unfold get_pto_time_and_space.
  destruct (calculate_pto_ok b r Hb Hp) as (d & -> & Hd & Hd'). cbn [mbind outcome_bind].
  destruct (Z.eqb_spec (ack_eliciting_in_flight r) 0); [done|].
  destruct (earliest_pto_ok b r m h (candidates sid) Hb Hp d None SpaceInitial) as (o & Eo); [lia|lia|apply candidates_last|].
  destruct (earliest_pto_min b r m h (candidates sid) Hb Hp Hasked d None SpaceInitial o) as [_ Hmin];
    [lia|lia|apply candidates_last|done|]. rewrite Eo. cbn [mbind outcome_bind].
  destruct (Hmin c s Hc Hg Ha Hco) as (t1 & last & -> & Hlast & Hle). exists t1. split; [done|]. intros _. by exists last.
Qed.

End Props.

(** ** Runs with the static controller *)

Definition demo_conf : RecoveryConfig :=
  mkConfig true 1200 (from_millis 25) 10 (from_millis 333) true (from_millis 1) 0 (from_secs 60) 2.
Definition demo_status : HandshakeStatus := mkStatus true true true false false.
Definition demo_packet (f : Frame) : SentPacket :=
  mkSent OneRTT 0 [f] 0 None None true true true false true 1200 (mkRateSample 0 None None false 0 0) (mkFlags false false false).
Definition demo_ack (l : list (Z * Z)) : event := EvAck (RangeSet.mkRangeSet l 68) 0 SpaceData demo_status.
Definition demo_send (f : Frame) : event := EvSent (demo_packet f) SpaceData demo_status.

(** Four packets are sent and the last three acknowledged, so the first is lost. *)
Definition demo_loss : list (Instant * event) :=
  [(0, demo_send (MaxData 1)); (0, demo_send (MaxData 2)); (0, demo_send (MaxData 3)); (0, demo_send (MaxData 4));
   (from_millis 50, demo_ack [(1, 4)]); (from_millis 50, EvTakeLost SpaceData)].

Lemma demo_conf_ok : conf_ok demo_conf.
Proof. unfold conf_ok, HORIZON, from_secs, from_millis, NANOS_PER_SEC. cbn. unfold from_secs, from_millis, NANOS_PER_SEC. lia. Qed.

Lemma timely_send now f : 0 <= now <= HORIZON -> timely (PacketNumSpaceMap.new 0) (now, demo_send f).
Proof. by intros Hn. Qed.
Lemma timely_ack now l : 0 <= now <= HORIZON -> RangeSet.chain (-1) l -> l <> [] -> timely (PacketNumSpaceMap.new 0) (now, demo_ack l).
Proof. by intros Hn Hl Hne. Qed.
Lemma timely_take now sid : 0 <= now <= HORIZON -> timely (PacketNumSpaceMap.new 0) (now, EvTakeLost sid).
Proof. by intros Hn. Qed.

Ltac demo_timely :=
  repeat (apply Forall_cons; split; [first [apply timely_send | apply timely_ack | apply timely_take];
    try discriminate; vm_compute; intuition discriminate|]); apply Forall_nil_2.

Lemma demo_loss_timely : Forall (timely (PacketNumSpaceMap.new 0)) demo_loss.
Proof. demo_timely. Qed.

Lemma in_flight_correct_witness :
  exists (r0 : Recovery.Recovery) outs r m, Recovery.new demo_conf (Dummy.new 10 1200) 0 = Ok r0 /\
    run demo_loss (r0, PacketNumSpaceMap.new 0) = Ok (outs, (r, m)) /\ bytes_in_flight r = 0 /\ sum_spaces fly (PacketNumSpaceMap.spaces m) = 0.
Proof.
  destruct (in_flight_correct demo_conf (Dummy.new 10 1200) 0 demo_loss demo_conf_ok demo_loss_timely) as (r0 & outs & r & m & E0 & E & _).
  exists r0, outs, r, m. split; [exact E0|]. split; [exact E|]. vm_compute in E0. injection E0 as <-. vm_compute in E.
  injection E as _ <- <-. split; vm_compute; reflexivity.
Defined.

Lemma frames_accounted_witness :
  exists (r0 : Recovery.Recovery) outs x, Recovery.new demo_conf (Dummy.new 10 1200) 0 = Ok r0 /\
    run demo_loss (r0, PacketNumSpaceMap.new 0) = Ok (outs, x) /\ all_taken 2 demo_loss outs = [MaxData 1] /\
    all_sent 2 demo_loss ⊆+ frames_at 2 x.2 ++ all_taken 2 demo_loss outs.
Proof.
  destruct (frames_accounted demo_conf (Dummy.new 10 1200) 0 demo_loss 2 demo_conf_ok demo_loss_timely) as (r0 & outs & x & E0 & E & H).
  - repeat (apply Forall_cons; split; [intros []|]). apply Forall_nil_2.
  - exists r0, outs, x. split; [exact E0|]. split; [exact E|]. split; [|exact H].
    vm_compute in E0. injection E0 as <-. vm_compute in E. injection E as <- _. vm_compute. reflexivity.
Defined.

Lemma ack_scan_equiv_witness :
  let ranges := RangeSet.mkRangeSet [(1, 4); (5, 6)] 68 in
  let sent := [with_pkt_num 0 (demo_packet (MaxData 1)); with_pkt_num 1 (demo_packet (MaxData 2)); with_pkt_num 5 (demo_packet (MaxData 3))] in
  exists (r : Recovery.Recovery), Recovery.new demo_conf (Dummy.new 10 1200) 0 = Ok r /\
    let st := mkScan r (PacketNumSpace.new SpaceData 0) 0 0 false [] in
    scan_ranges 7 (RangeSet.iter ranges) sent st = ack_ref 7 (RangeSet.contains ranges) sent st /\
    map acked_pkt_num (sc_newly (scan_ranges 7 (RangeSet.iter ranges) sent st).2) = [1; 5].
Proof.
  intros ranges sent. eexists. split; [by vm_compute|]. intros st. split; [|by vm_compute].
  apply (ack_scan_equiv ranges 7 (-1) sent st); vm_compute; intuition discriminate.
Defined.



