(* ===== verification/TransParam.v ===== *)
(** * Transport parameters

    Models [src/src/trans_param.rs]: the parameters each endpoint declares in the
    handshake, with their encoding and decoding.  The qlog conversion is left
    out. *)

From S2P Require Import Prelude.
From S2P Require Import Error.
From S2P Require Import Codec.
From S2P Require Import Wire.
From S2P Require Import ConnectionId.
From S2P Require Import StreamMap.

(** Addresses by their octets and ports; a [SocketAddrV6] also has a flow label
    and a scope. *)
Definition SocketAddrV4 : Type := (list Z * Z)%type.
Definition SocketAddrV6 : Type := (list Z * Z * Z * Z)%type.

Definition unspecified (octets : list Z) : bool := forallb (fun b => b =? 0) octets.

(** [ResetToken::new]: [clone_from_slice] panics unless the lengths agree. *)
Definition reset_token_new (data : list Z) : res (list Z) :=
  if len data <? RESET_TOKEN_LEN then Err BufferTooShort
  else if len data =? RESET_TOKEN_LEN then Ok data else Panic.

Module PreferredAddress.

Record PreferredAddress := mkPA {
  ipv4_address : option SocketAddrV4;
  ipv6_address : option SocketAddrV6;
  connection_id : ConnectionId.ConnectionId;
  stateless_reset_token : list Z;
}.

Definition wire_len (a : PreferredAddress) : Z :=
  4 + 2 + 16 + 2 + 1 + len (ConnectionId.deref (connection_id a)) + 16.

Definition put (a : PreferredAddress) : enc unit :=
  match ipv4_address a with
  | Some (ip, port) => write ip ;; write_u16 port ;; mret tt
  | None => write (repeat 0 4) ;; write_u16 0 ;; mret tt
  end ;;
  match ipv6_address a with
  | Some (ip, port, _, _) => write ip ;; write_u16 port ;; mret tt
  | None => write (repeat 0 16) ;; write_u16 0 ;; mret tt
  end ;;
  write_u8 (wrap 8 (len (ConnectionId.deref (connection_id a)))) ;;
  write (ConnectionId.deref (connection_id a)) ;;
  write (stateless_reset_token a) ;;
  mret tt.

Definition get : dec PreferredAddress :=
  ip4 ← read_ipv4_addr;
  port4 ← read_u16;
  ip6 ← read_ipv6_addr;
  port6 ← read_u16;
  cid_len ← read_u8;
  cid ← read cid_len;
  token ← read RESET_TOKEN_LEN;
  token ← clift (reset_token_new token);
  mret (mkPA (if unspecified ip4 && (port4 =? 0) then None else Some (ip4, port4))
             (if unspecified ip6 && (port6 =? 0) then None else Some (ip6, port6, 0, 0))
             (ConnectionId.new cid) token).

Definition from_bytes (buf : list Z) : res (PreferredAddress * Z) :=
  r ← get buf; mret (r.1, len buf - len r.2).

Definition to_bytes (a : PreferredAddress) (buf : list Z) : res (Z * list Z) := run_enc (put a) buf.

End PreferredAddress.

Module TransportParams.

Record TransportParams := mkTP {
  original_destination_connection_id : option ConnectionId.ConnectionId;
  max_idle_timeout : Z;
  stateless_reset_token : option Z;
  max_udp_payload_size : Z;
  initial_max_data : Z;
  initial_max_stream_data_bidi_local : Z;
  initial_max_stream_data_bidi_remote : Z;
  initial_max_stream_data_uni : Z;
  initial_max_streams_bidi : Z;
  initial_max_streams_uni : Z;
  ack_delay_exponent : Z;
  max_ack_delay : Z;
  disable_active_migration : bool;
  preferred_address : option PreferredAddress.PreferredAddress;
  active_conn_id_limit : Z;
  initial_source_connection_id : option ConnectionId.ConnectionId;
  retry_source_connection_id : option ConnectionId.ConnectionId;
  enable_multipath : bool;
  disable_encryption : bool;
  max_datagram_frame_size : option Z;
}.

Definition default : TransportParams :=
  mkTP None 0 None 65527 0 0 0 0 0 0 3 25 false None 2 None None false false None.

Definition with_original_destination_connection_id (x : option ConnectionId.ConnectionId) (t : TransportParams) :
    TransportParams :=
  mkTP x (max_idle_timeout t) (stateless_reset_token t) (max_udp_payload_size t) (initial_max_data t)
    (initial_max_stream_data_bidi_local t) (initial_max_stream_data_bidi_remote t) (initial_max_stream_data_uni t)
    (initial_max_streams_bidi t) (initial_max_streams_uni t) (ack_delay_exponent t) (max_ack_delay t)
    (disable_active_migration t) (preferred_address t) (active_conn_id_limit t) (initial_source_connection_id t)
    (retry_source_connection_id t) (enable_multipath t) (disable_encryption t) (max_datagram_frame_size t).
Definition with_max_idle_timeout (x : Z) (t : TransportParams) : TransportParams :=
  mkTP (original_destination_connection_id t) x (stateless_reset_token t) (max_udp_payload_size t) (initial_max_data
    t) (initial_max_stream_data_bidi_local t) (initial_max_stream_data_bidi_remote t) (initial_max_stream_data_uni t)
    (initial_max_streams_bidi t) (initial_max_streams_uni t) (ack_delay_exponent t) (max_ack_delay t)
    (disable_active_migration t) (preferred_address t) (active_conn_id_limit t) (initial_source_connection_id t)
    (retry_source_connection_id t) (enable_multipath t) (disable_encryption t) (max_datagram_frame_size t).
Definition with_stateless_reset_token (x : option Z) (t : TransportParams) : TransportParams :=
  mkTP (original_destination_connection_id t) (max_idle_timeout t) x (max_udp_payload_size t) (initial_max_data t)
    (initial_max_stream_data_bidi_local t) (initial_max_stream_data_bidi_remote t) (initial_max_stream_data_uni t)
    (initial_max_streams_bidi t) (initial_max_streams_uni t) (ack_delay_exponent t) (max_ack_delay t)
    (disable_active_migration t) (preferred_address t) (active_conn_id_limit t) (initial_source_connection_id t)
    (retry_source_connection_id t) (enable_multipath t) (disable_encryption t) (max_datagram_frame_size t).
Definition with_max_udp_payload_size (x : Z) (t : TransportParams) : TransportParams :=
  mkTP (original_destination_connection_id t) (max_idle_timeout t) (stateless_reset_token t) x (initial_max_data t)
    (initial_max_stream_data_bidi_local t) (initial_max_stream_data_bidi_remote t) (initial_max_stream_data_uni t)
    (initial_max_streams_bidi t) (initial_max_streams_uni t) (ack_delay_exponent t) (max_ack_delay t)
    (disable_active_migration t) (preferred_address t) (active_conn_id_limit t) (initial_source_connection_id t)
    (retry_source_connection_id t) (enable_multipath t) (disable_encryption t) (max_datagram_frame_size t).
Definition with_initial_max_data (x : Z) (t : TransportParams) : TransportParams :=
  mkTP (original_destination_connection_id t) (max_idle_timeout t) (stateless_reset_token t) (max_udp_payload_size t)
    x (initial_max_stream_data_bidi_local t) (initial_max_stream_data_bidi_remote t) (initial_max_stream_data_uni t)
    (initial_max_streams_bidi t) (initial_max_streams_uni t) (ack_delay_exponent t) (max_ack_delay t)
    (disable_active_migration t) (preferred_address t) (active_conn_id_limit t) (initial_source_connection_id t)
    (retry_source_connection_id t) (enable_multipath t) (disable_encryption t) (max_datagram_frame_size t).
Definition with_initial_max_stream_data_bidi_local (x : Z) (t : TransportParams) : TransportParams :=
  mkTP (original_destination_connection_id t) (max_idle_timeout t) (stateless_reset_token t) (max_udp_payload_size t)
    (initial_max_data t) x (initial_max_stream_data_bidi_remote t) (initial_max_stream_data_uni t)
    (initial_max_streams_bidi t) (initial_max_streams_uni t) (ack_delay_exponent t) (max_ack_delay t)
    (disable_active_migration t) (preferred_address t) (active_conn_id_limit t) (initial_source_connection_id t)
    (retry_source_connection_id t) (enable_multipath t) (disable_encryption t) (max_datagram_frame_size t).
Definition with_initial_max_stream_data_bidi_remote (x : Z) (t : TransportParams) : TransportParams :=
  mkTP (original_destination_connection_id t) (max_idle_timeout t) (stateless_reset_token t) (max_udp_payload_size t)
    (initial_max_data t) (initial_max_stream_data_bidi_local t) x (initial_max_stream_data_uni t)
    (initial_max_streams_bidi t) (initial_max_streams_uni t) (ack_delay_exponent t) (max_ack_delay t)
    (disable_active_migration t) (preferred_address t) (active_conn_id_limit t) (initial_source_connection_id t)
    (retry_source_connection_id t) (enable_multipath t) (disable_encryption t) (max_datagram_frame_size t).
Definition with_initial_max_stream_data_uni (x : Z) (t : TransportParams) : TransportParams :=
  mkTP (original_destination_connection_id t) (max_idle_timeout t) (stateless_reset_token t) (max_udp_payload_size t)
    (initial_max_data t) (initial_max_stream_data_bidi_local t) (initial_max_stream_data_bidi_remote t) x
    (initial_max_streams_bidi t) (initial_max_streams_uni t) (ack_delay_exponent t) (max_ack_delay t)
    (disable_active_migration t) (preferred_address t) (active_conn_id_limit t) (initial_source_connection_id t)
    (retry_source_connection_id t) (enable_multipath t) (disable_encryption t) (max_datagram_frame_size t).
Definition with_initial_max_streams_bidi (x : Z) (t : TransportParams) : TransportParams :=
  mkTP (original_destination_connection_id t) (max_idle_timeout t) (stateless_reset_token t) (max_udp_payload_size t)
    (initial_max_data t) (initial_max_stream_data_bidi_local t) (initial_max_stream_data_bidi_remote t)
    (initial_max_stream_data_uni t) x (initial_max_streams_uni t) (ack_delay_exponent t) (max_ack_delay t)
    (disable_active_migration t) (preferred_address t) (active_conn_id_limit t) (initial_source_connection_id t)
    (retry_source_connection_id t) (enable_multipath t) (disable_encryption t) (max_datagram_frame_size t).
Definition with_initial_max_streams_uni (x : Z) (t : TransportParams) : TransportParams :=
  mkTP (original_destination_connection_id t) (max_idle_timeout t) (stateless_reset_token t) (max_udp_payload_size t)
    (initial_max_data t) (initial_max_stream_data_bidi_local t) (initial_max_stream_data_bidi_remote t)
    (initial_max_stream_data_uni t) (initial_max_streams_bidi t) x (ack_delay_exponent t) (max_ack_delay t)
    (disable_active_migration t) (preferred_address t) (active_conn_id_limit t) (initial_source_connection_id t)
    (retry_source_connection_id t) (enable_multipath t) (disable_encryption t) (max_datagram_frame_size t).
Definition with_ack_delay_exponent (x : Z) (t : TransportParams) : TransportParams :=
  mkTP (original_destination_connection_id t) (max_idle_timeout t) (stateless_reset_token t) (max_udp_payload_size t)
    (initial_max_data t) (initial_max_stream_data_bidi_local t) (initial_max_stream_data_bidi_remote t)
    (initial_max_stream_data_uni t) (initial_max_streams_bidi t) (initial_max_streams_uni t) x (max_ack_delay t)
    (disable_active_migration t) (preferred_address t) (active_conn_id_limit t) (initial_source_connection_id t)
    (retry_source_connection_id t) (enable_multipath t) (disable_encryption t) (max_datagram_frame_size t).
Definition with_max_ack_delay (x : Z) (t : TransportParams) : TransportParams :=
  mkTP (original_destination_connection_id t) (max_idle_timeout t) (stateless_reset_token t) (max_udp_payload_size t)
    (initial_max_data t) (initial_max_stream_data_bidi_local t) (initial_max_stream_data_bidi_remote t)
    (initial_max_stream_data_uni t) (initial_max_streams_bidi t) (initial_max_streams_uni t) (ack_delay_exponent t) x
    (disable_active_migration t) (preferred_address t) (active_conn_id_limit t) (initial_source_connection_id t)
    (retry_source_connection_id t) (enable_multipath t) (disable_encryption t) (max_datagram_frame_size t).
Definition with_disable_active_migration (x : bool) (t : TransportParams) : TransportParams :=
  mkTP (original_destination_connection_id t) (max_idle_timeout t) (stateless_reset_token t) (max_udp_payload_size t)
    (initial_max_data t) (initial_max_stream_data_bidi_local t) (initial_max_stream_data_bidi_remote t)
    (initial_max_stream_data_uni t) (initial_max_streams_bidi t) (initial_max_streams_uni t) (ack_delay_exponent t)
    (max_ack_delay t) x (preferred_address t) (active_conn_id_limit t) (initial_source_connection_id t)
    (retry_source_connection_id t) (enable_multipath t) (disable_encryption t) (max_datagram_frame_size t).
Definition with_preferred_address (x : option PreferredAddress.PreferredAddress) (t : TransportParams) :
    TransportParams :=
  mkTP (original_destination_connection_id t) (max_idle_timeout t) (stateless_reset_token t) (max_udp_payload_size t)
    (initial_max_data t) (initial_max_stream_data_bidi_local t) (initial_max_stream_data_bidi_remote t)
    (initial_max_stream_data_uni t) (initial_max_streams_bidi t) (initial_max_streams_uni t) (ack_delay_exponent t)
    (max_ack_delay t) (disable_active_migration t) x (active_conn_id_limit t) (initial_source_connection_id t)
    (retry_source_connection_id t) (enable_multipath t) (disable_encryption t) (max_datagram_frame_size t).
Definition with_active_conn_id_limit (x : Z) (t : TransportParams) : TransportParams :=
  mkTP (original_destination_connection_id t) (max_idle_timeout t) (stateless_reset_token t) (max_udp_payload_size t)
    (initial_max_data t) (initial_max_stream_data_bidi_local t) (initial_max_stream_data_bidi_remote t)
    (initial_max_stream_data_uni t) (initial_max_streams_bidi t) (initial_max_streams_uni t) (ack_delay_exponent t)
    (max_ack_delay t) (disable_active_migration t) (preferred_address t) x (initial_source_connection_id t)
    (retry_source_connection_id t) (enable_multipath t) (disable_encryption t) (max_datagram_frame_size t).
Definition with_initial_source_connection_id (x : option ConnectionId.ConnectionId) (t : TransportParams) :
    TransportParams :=
  mkTP (original_destination_connection_id t) (max_idle_timeout t) (stateless_reset_token t) (max_udp_payload_size t)
    (initial_max_data t) (initial_max_stream_data_bidi_local t) (initial_max_stream_data_bidi_remote t)
    (initial_max_stream_data_uni t) (initial_max_streams_bidi t) (initial_max_streams_uni t) (ack_delay_exponent t)
    (max_ack_delay t) (disable_active_migration t) (preferred_address t) (active_conn_id_limit t) x
    (retry_source_connection_id t) (enable_multipath t) (disable_encryption t) (max_datagram_frame_size t).
Definition with_retry_source_connection_id (x : option ConnectionId.ConnectionId) (t : TransportParams) :
    TransportParams :=
  mkTP (original_destination_connection_id t) (max_idle_timeout t) (stateless_reset_token t) (max_udp_payload_size t)
    (initial_max_data t) (initial_max_stream_data_bidi_local t) (initial_max_stream_data_bidi_remote t)
    (initial_max_stream_data_uni t) (initial_max_streams_bidi t) (initial_max_streams_uni t) (ack_delay_exponent t)
    (max_ack_delay t) (disable_active_migration t) (preferred_address t) (active_conn_id_limit t)
    (initial_source_connection_id t) x (enable_multipath t) (disable_encryption t) (max_datagram_frame_size t).
Definition with_enable_multipath (x : bool) (t : TransportParams) : TransportParams :=
  mkTP (original_destination_connection_id t) (max_idle_timeout t) (stateless_reset_token t) (max_udp_payload_size t)
    (initial_max_data t) (initial_max_stream_data_bidi_local t) (initial_max_stream_data_bidi_remote t)
    (initial_max_stream_data_uni t) (initial_max_streams_bidi t) (initial_max_streams_uni t) (ack_delay_exponent t)
    (max_ack_delay t) (disable_active_migration t) (preferred_address t) (active_conn_id_limit t)
    (initial_source_connection_id t) (retry_source_connection_id t) x (disable_encryption t) (max_datagram_frame_size
    t).
Definition with_disable_encryption (x : bool) (t : TransportParams) : TransportParams :=
  mkTP (original_destination_connection_id t) (max_idle_timeout t) (stateless_reset_token t) (max_udp_payload_size t)
    (initial_max_data t) (initial_max_stream_data_bidi_local t) (initial_max_stream_data_bidi_remote t)
    (initial_max_stream_data_uni t) (initial_max_streams_bidi t) (initial_max_streams_uni t) (ack_delay_exponent t)
    (max_ack_delay t) (disable_active_migration t) (preferred_address t) (active_conn_id_limit t)
    (initial_source_connection_id t) (retry_source_connection_id t) (enable_multipath t) x (max_datagram_frame_size
    t).
Definition with_max_datagram_frame_size (x : option Z) (t : TransportParams) : TransportParams :=
  mkTP (original_destination_connection_id t) (max_idle_timeout t) (stateless_reset_token t) (max_udp_payload_size t)
    (initial_max_data t) (initial_max_stream_data_bidi_local t) (initial_max_stream_data_bidi_remote t)
    (initial_max_stream_data_uni t) (initial_max_streams_bidi t) (initial_max_streams_uni t) (ack_delay_exponent t)
    (max_ack_delay t) (disable_active_migration t) (preferred_address t) (active_conn_id_limit t)
    (initial_source_connection_id t) (retry_source_connection_id t) (enable_multipath t) (disable_encryption t) x.

(** ** Decoding *)

(** A parameter that only a server sends. *)
Definition server_only {A} (is_server : bool) (m : res A) : res A :=
  if is_server then Err TransportParameterError else m.

(** The variable-length integer at the start of a value. *)
Definition int_of (val : list Z) : res Z := r ← read_varint val; mret r.1.

Definition decode_param (is_server : bool) (id : Z) (val : list Z) (t : TransportParams) : res TransportParams :=
  if id =? 0x00 then
    server_only is_server (Ok (with_original_destination_connection_id (Some (ConnectionId.new val)) t))
  else if id =? 0x01 then
    n ← int_of val; mret (with_max_idle_timeout n t)
  else if id =? 0x02 then
    server_only is_server (r ← read 16 val; mret (with_stateless_reset_token (Some (be_val r.1)) t))
  else if id =? 0x03 then
    n ← int_of val;
    if n <? 1200 then Err TransportParameterError else mret (with_max_udp_payload_size n t)
  else if id =? 0x04 then
    n ← int_of val; mret (with_initial_max_data n t)
  else if id =? 0x05 then
    n ← int_of val; mret (with_initial_max_stream_data_bidi_local n t)
  else if id =? 0x06 then
    n ← int_of val; mret (with_initial_max_stream_data_bidi_remote n t)
  else if id =? 0x07 then
    n ← int_of val; mret (with_initial_max_stream_data_uni n t)
  else if id =? 0x08 then
    n ← int_of val;
    if MAX_STREAMS_PER_TYPE <? n then Err TransportParameterError else mret (with_initial_max_streams_bidi n t)
  else if id =? 0x09 then
    n ← int_of val;
    if MAX_STREAMS_PER_TYPE <? n then Err TransportParameterError else mret (with_initial_max_streams_uni n t)
  else if id =? 0x0a then
    n ← int_of val;
    if 20 <? n then Err TransportParameterError else mret (with_ack_delay_exponent n t)
  else if id =? 0x0b then
    n ← int_of val;
    if 16384 <=? n then Err TransportParameterError else mret (with_max_ack_delay n t)
  else if id =? 0x0c then
    Ok (with_disable_active_migration true t)
  else if id =? 0x0d then
    server_only is_server (r ← PreferredAddress.from_bytes val; mret (with_preferred_address (Some r.1) t))
  else if id =? 0x0e then
    n ← int_of val;
    if n <? 2 then Err TransportParameterError else mret (with_active_conn_id_limit n t)
  else if id =? 0x0f then
    Ok (with_initial_source_connection_id (Some (ConnectionId.new val)) t)
  else if id =? 0x10 then
    server_only is_server (Ok (with_retry_source_connection_id (Some (ConnectionId.new val)) t))
  else if id =? 0x0f739bbc1b666d05 then
    Ok (with_enable_multipath true t)
  else if id =? 0xbaad then
    Ok (with_disable_encryption true t)
  else if id =? 0x20 then
    n ← int_of val; mret (with_max_datagram_frame_size (if n =? 0 then None else Some n) t)
  (* Ignore unknown parameters. *)
  else Ok t.

Fixpoint decode_loop (fuel : nat) (is_server : bool) (buf : list Z) (found : list Z) (t : TransportParams)
  : res TransportParams :=
  match buf with
  | [] => Ok t
  | _ =>
      match fuel with
      | O => Panic
      | S fuel =>
          r ← read_varint buf;
          let '(id, buf) := r in
          if existsb (Z.eqb id) found then Err TransportParameterError
          else
            r ← read_with_varint_length buf;
            let '(val, buf) := r in
            t ← decode_param is_server id val t;
            decode_loop fuel is_server buf (id :: found) t
      end
  end.

(** The loop ends when the buffer is empty, so all of it is consumed. *)
Definition decode (buf : list Z) (is_server : bool) : res (TransportParams * Z) :=
  t ← decode_loop (length buf) is_server buf [] default;
  mret (t, len buf).

(** ** Encoding *)

Definition put_int (id n : Z) : enc unit :=
  write_varint id ;; l ← clift (encode_varint_len n); write_varint l ;; write_varint n ;; mret tt.
Definition put_bytes (id : Z) (v : list Z) : enc unit :=
  write_varint id ;; write_varint (len v) ;; write v ;; mret tt.
Definition put_flag (id : Z) : enc unit := write_varint id ;; write_varint 0 ;; mret tt.

Definition opt_put {A} (o : option A) (f : A -> enc unit) : enc unit :=
  match o with Some a => f a | None => mret tt end.
Definition if_put (b : bool) (m : enc unit) : enc unit := if b then m else mret tt.

Definition put (t : TransportParams) (is_server : bool) : enc unit :=
  if_put is_server (opt_put (original_destination_connection_id t) (fun c => put_bytes 0x00 (ConnectionId.deref c))) ;;
  if_put (negb (max_idle_timeout t =? 0)) (put_int 0x01 (max_idle_timeout t)) ;;
  if_put is_server (opt_put (stateless_reset_token t) (fun n => put_bytes 0x02 (be_bytes 16 n))) ;;
  if_put (negb (max_udp_payload_size t =? 0)) (put_int 0x03 (max_udp_payload_size t)) ;;
  if_put (negb (initial_max_data t =? 0)) (put_int 0x04 (initial_max_data t)) ;;
  if_put (negb (initial_max_stream_data_bidi_local t =? 0)) (put_int 0x05 (initial_max_stream_data_bidi_local t)) ;;
  if_put (negb (initial_max_stream_data_bidi_remote t =? 0)) (put_int 0x06 (initial_max_stream_data_bidi_remote t)) ;;
  if_put (negb (initial_max_stream_data_uni t =? 0)) (put_int 0x07 (initial_max_stream_data_uni t)) ;;
  if_put (negb (initial_max_streams_bidi t =? 0)) (put_int 0x08 (initial_max_streams_bidi t)) ;;
  if_put (negb (initial_max_streams_uni t =? 0)) (put_int 0x09 (initial_max_streams_uni t)) ;;
  if_put (negb (ack_delay_exponent t =? 0)) (put_int 0x0a (ack_delay_exponent t)) ;;
  if_put (negb (max_ack_delay t =? 0)) (put_int 0x0b (max_ack_delay t)) ;;
  if_put (disable_active_migration t) (put_flag 0x0c) ;;
  opt_put (preferred_address t) (fun a =>
    write_varint 0x0d ;; write_varint (PreferredAddress.wire_len a) ;; PreferredAddress.put a) ;;
  if_put (2 <=? active_conn_id_limit t) (put_int 0x0e (active_conn_id_limit t)) ;;
  opt_put (initial_source_connection_id t) (fun c => put_bytes 0x0f (ConnectionId.deref c)) ;;
  if_put is_server (opt_put (retry_source_connection_id t) (fun c => put_bytes 0x10 (ConnectionId.deref c))) ;;
  if_put (enable_multipath t) (put_flag 0x0f739bbc1b666d05) ;;
  if_put (disable_encryption t) (put_flag 0xbaad) ;;
  opt_put (max_datagram_frame_size t) (put_int 0x20).

Definition encode (t : TransportParams) (is_server : bool) (buf : list Z) : res (Z * list Z) := run_enc (put t is_server) buf.

End TransportParams.

(** ** Round trip

    A message is a sequence of entries, each an identifier and a value. *)

Definition entry_bytes (e : Z * list Z) : list Z := vb e.1 ++ vb (len e.2) ++ e.2.
Definition entries_bytes (es : list (Z * list Z)) : list Z := flat_map entry_bytes es.

Definition entry_ok (e : Z * list Z) : Prop := is_vint e.1 /\ is_vint (len e.2).

(** The entries of a message, applied one by one. *)
Fixpoint apply_entries (is_server : bool) (es : list (Z * list Z)) (t : TransportParams.TransportParams)
  : res TransportParams.TransportParams :=
  match es with
  | [] => Ok t
  | e :: es => t ← TransportParams.decode_param is_server e.1 e.2 t; apply_entries is_server es t
  end.

Lemma apply_entries_app s es fs t :
  apply_entries s (es ++ fs) t = (t' ← apply_entries s es t; apply_entries s fs t').
Proof.
  revert t. induction es as [|e es IH]; intros t; [done|]. cbn.
  destruct (TransportParams.decode_param s e.1 e.2 t); cbn; [apply IH|done..].
Qed.

Lemma entry_bytes_nonempty e : (0 < length (entry_bytes e))%nat.
Proof.
  unfold entry_bytes. rewrite length_app. pose proof (len_vb e.1) as H. unfold len in H.
  destruct (varint_len_size e.1) as [E|[E|[E|E]]]; lia.
Qed.

Lemma reads_entry e rest : entry_ok e ->
  read_varint (entry_bytes e ++ rest) = Ok (e.1, vb (len e.2) ++ e.2 ++ rest) /\
  read_with_varint_length (vb (len e.2) ++ e.2 ++ rest) = Ok (e.2, rest).
Proof.
  intros [Hi Hl]. split.
  - unfold entry_bytes. rewrite <- !app_assoc. by apply reads_at, reads_vb.
  - unfold read_with_varint_length. rewrite (reads_then _ _ _ (len e.2) _ _ (reads_vb _ Hl) eq_refl).
    by apply reads_at, reads_read.
Qed.

(** With distinct identifiers the loop applies every entry, and one round per
    entry is enough. *)
Lemma decode_loop_entries fuel s es found t :
  Forall entry_ok es -> NoDup (es.*1 ++ found) -> (length (entries_bytes es) <= fuel)%nat ->
  TransportParams.decode_loop fuel s (entries_bytes es) found t = apply_entries s es t.
Proof.
  revert fuel found t. induction es as [|e es IH]; intros fuel found t Hok Hnd Hfuel; [by destruct fuel|].
  apply Forall_cons_1 in Hok as [He Hok]. cbn [entries_bytes flat_map] in *. rewrite length_app in Hfuel.
  pose proof (entry_bytes_nonempty e) as Hne. destruct fuel as [|fuel]; [lia|].
  destruct (reads_entry e (entries_bytes es) He) as [E1 E2]. fold (entries_bytes es) in *.
  remember (entry_bytes e ++ entries_bytes es) as bs eqn:Hbs. cbn [TransportParams.decode_loop].
  destruct bs as [|b bs]; [destruct (entry_bytes e); cbn in *; [lia|done]|].
  rewrite E1. cbn [mbind outcome_bind]. cbn [fmap list_fmap app] in Hnd. apply NoDup_cons in Hnd as [Hni Hnd].
  destruct (existsb (Z.eqb e.1) found) eqn:Hex.
  - apply existsb_exists in Hex as (x & Hx & Ex%Z.eqb_eq). exfalso. apply Hni. rewrite elem_of_app. right. apply list_elem_of_In. by rewrite Ex.
  - rewrite E2. cbn [mbind outcome_bind apply_entries]. destruct (TransportParams.decode_param s e.1 e.2 t); cbn; [|done..].
    apply IH; [done| |lia]. apply NoDup_app. apply NoDup_app in Hnd as (H1 & H2 & H3).
    split_and!; [done| |].
    + intros x Hx. rewrite elem_of_cons. intros [->|Hf]; [apply Hni, elem_of_app; by left|by eapply H2].
    + constructor; [|done]. intros Hf. apply Hni, elem_of_app. by right.
Qed.

(** The entries a message holds, in the order of the encoder. *)
Definition int_entry (b : bool) (id n : Z) : list (Z * list Z) := if b then [(id, vb n)] else [].
Definition opt_entry {A} (b : bool) (o : option A) (id : Z) (f : A -> list Z) : list (Z * list Z) :=
  match o with Some a => if b then [(id, f a)] else [] | None => [] end.
Definition flag_entry (b : bool) (id : Z) : list (Z * list Z) := if b then [(id, [])] else [].

Definition v4_bytes (a : option SocketAddrV4) : list Z :=
  match a with Some (ip, port) => ip ++ be_bytes 2 port | None => repeat 0 4 ++ be_bytes 2 0 end.
Definition v6_bytes (a : option SocketAddrV6) : list Z :=
  match a with Some (ip, port, _, _) => ip ++ be_bytes 2 port | None => repeat 0 16 ++ be_bytes 2 0 end.
Definition address_bytes (a : PreferredAddress.PreferredAddress) : list Z :=
  let cid := ConnectionId.deref (PreferredAddress.connection_id a) in
  v4_bytes (PreferredAddress.ipv4_address a) ++ v6_bytes (PreferredAddress.ipv6_address a) ++
  be_bytes 1 (len cid) ++ cid ++ PreferredAddress.stateless_reset_token a.

Definition entries (t : TransportParams.TransportParams) (s : bool) : list (list (Z * list Z)) :=
  [ opt_entry s (TransportParams.original_destination_connection_id t) 0x00 ConnectionId.deref;
    int_entry (negb (TransportParams.max_idle_timeout t =? 0)) 0x01 (TransportParams.max_idle_timeout t);
    opt_entry s (TransportParams.stateless_reset_token t) 0x02 (be_bytes 16);
    int_entry (negb (TransportParams.max_udp_payload_size t =? 0)) 0x03 (TransportParams.max_udp_payload_size t);
    int_entry (negb (TransportParams.initial_max_data t =? 0)) 0x04 (TransportParams.initial_max_data t);
    int_entry (negb (TransportParams.initial_max_stream_data_bidi_local t =? 0)) 0x05
      (TransportParams.initial_max_stream_data_bidi_local t);
    int_entry (negb (TransportParams.initial_max_stream_data_bidi_remote t =? 0)) 0x06
      (TransportParams.initial_max_stream_data_bidi_remote t);
    int_entry (negb (TransportParams.initial_max_stream_data_uni t =? 0)) 0x07
      (TransportParams.initial_max_stream_data_uni t);
    int_entry (negb (TransportParams.initial_max_streams_bidi t =? 0)) 0x08 (TransportParams.initial_max_streams_bidi t);
    int_entry (negb (TransportParams.initial_max_streams_uni t =? 0)) 0x09 (TransportParams.initial_max_streams_uni t);
    int_entry (negb (TransportParams.ack_delay_exponent t =? 0)) 0x0a (TransportParams.ack_delay_exponent t);
    int_entry (negb (TransportParams.max_ack_delay t =? 0)) 0x0b (TransportParams.max_ack_delay t);
    flag_entry (TransportParams.disable_active_migration t) 0x0c;
    opt_entry true (TransportParams.preferred_address t) 0x0d address_bytes;
    int_entry (2 <=? TransportParams.active_conn_id_limit t) 0x0e (TransportParams.active_conn_id_limit t);
    opt_entry true (TransportParams.initial_source_connection_id t) 0x0f ConnectionId.deref;
    opt_entry s (TransportParams.retry_source_connection_id t) 0x10 ConnectionId.deref;
    flag_entry (TransportParams.enable_multipath t) 0x0f739bbc1b666d05;
    flag_entry (TransportParams.disable_encryption t) 0xbaad;
    opt_entry true (TransportParams.max_datagram_frame_size t) 0x20 vb ].

(** ** What may be sent, and what the peer makes of it *)

Definition cid_valid (c : option ConnectionId.ConnectionId) : Prop :=
  match c with Some c => ConnectionId.valid c | None => True end.

Definition octets_ok (n : Z) (ip : list Z) : Prop := len ip = n /\ bytes_ok ip.

Definition address_ok (a : PreferredAddress.PreferredAddress) : Prop :=
  match PreferredAddress.ipv4_address a with
  | Some (ip, port) => octets_ok 4 ip /\ 0 <= port < 65536
  | None => True
  end /\
  match PreferredAddress.ipv6_address a with
  | Some (ip, port, _, _) => octets_ok 16 ip /\ 0 <= port < 65536
  | None => True
  end /\
  ConnectionId.valid (PreferredAddress.connection_id a) /\
  octets_ok 16 (PreferredAddress.stateless_reset_token a).

Record sendable (s : bool) (t : TransportParams.TransportParams) : Prop := {
  send_odcid : cid_valid (TransportParams.original_destination_connection_id t);
  send_idle : is_vint (TransportParams.max_idle_timeout t);
  send_token : match TransportParams.stateless_reset_token t with Some n => 0 <= n < U128 | None => True end;
  send_udp : TransportParams.max_udp_payload_size t = 0 \/ 1200 <= TransportParams.max_udp_payload_size t <= VINT_MAX;
  send_data : is_vint (TransportParams.initial_max_data t);
  send_bidi_local : is_vint (TransportParams.initial_max_stream_data_bidi_local t);
  send_bidi_remote : is_vint (TransportParams.initial_max_stream_data_bidi_remote t);
  send_uni : is_vint (TransportParams.initial_max_stream_data_uni t);
  send_streams_bidi : 0 <= TransportParams.initial_max_streams_bidi t <= MAX_STREAMS_PER_TYPE;
  send_streams_uni : 0 <= TransportParams.initial_max_streams_uni t <= MAX_STREAMS_PER_TYPE;
  send_exponent : 0 <= TransportParams.ack_delay_exponent t <= 20;
  send_ack_delay : 0 <= TransportParams.max_ack_delay t < 16384;
  send_address : match TransportParams.preferred_address t with Some a => s = true /\ address_ok a | None => True end;
  send_limit : is_vint (TransportParams.active_conn_id_limit t);
  send_iscid : cid_valid (TransportParams.initial_source_connection_id t);
  send_rscid : cid_valid (TransportParams.retry_source_connection_id t);
  send_dgram : match TransportParams.max_datagram_frame_size t with Some n => is_vint n | None => True end;
}.

(** An unspecified address with port 0 stands for no address, and a flow label
    and scope are not sent. *)
Definition seen_address (a : PreferredAddress.PreferredAddress) : PreferredAddress.PreferredAddress :=
  PreferredAddress.mkPA
    match PreferredAddress.ipv4_address a with
    | Some (ip, port) => if unspecified ip && (port =? 0) then None else Some (ip, port)
    | None => None
    end
    match PreferredAddress.ipv6_address a with
    | Some (ip, port, _, _) => if unspecified ip && (port =? 0) then None else Some (ip, port, 0, 0)
    | None => None
    end
    (PreferredAddress.connection_id a) (PreferredAddress.stateless_reset_token a).

Definition or_default (d n : Z) : Z := if n =? 0 then d else n.

(** The parameters the peer of [s] ends up with: a client's server-only fields
    are dropped, and a zero that is not sent is read as the default. *)
Definition received (s : bool) (t : TransportParams.TransportParams) : TransportParams.TransportParams :=
  TransportParams.mkTP
    (if s then TransportParams.original_destination_connection_id t else None)
    (TransportParams.max_idle_timeout t)
    (if s then TransportParams.stateless_reset_token t else None)
    (or_default 65527 (TransportParams.max_udp_payload_size t))
    (TransportParams.initial_max_data t)
    (TransportParams.initial_max_stream_data_bidi_local t)
    (TransportParams.initial_max_stream_data_bidi_remote t)
    (TransportParams.initial_max_stream_data_uni t)
    (TransportParams.initial_max_streams_bidi t)
    (TransportParams.initial_max_streams_uni t)
    (or_default 3 (TransportParams.ack_delay_exponent t))
    (or_default 25 (TransportParams.max_ack_delay t))
    (TransportParams.disable_active_migration t)
    (option_map seen_address (TransportParams.preferred_address t))
    (Z.max 2 (TransportParams.active_conn_id_limit t))
    (TransportParams.initial_source_connection_id t)
    (if s then TransportParams.retry_source_connection_id t else None)
    (TransportParams.enable_multipath t)
    (TransportParams.disable_encryption t)
    match TransportParams.max_datagram_frame_size t with Some n => if n =? 0 then None else Some n | None => None end.

(** ** The encoder writes the entries *)

#[local] Opaque vb.

Lemma is_vint_max n : is_vint n -> n <= VINT_MAX.
Proof. intros [_ H]. exact H. Qed.

Lemma entries_bytes_one id v : entries_bytes [(id, v)] = vb id ++ vb (len v) ++ v.
Proof. unfold entries_bytes. cbn [flat_map]. by rewrite app_nil_r. Qed.

Lemma writes_int_param b id n : is_vint id -> is_vint n ->
  writes (TransportParams.if_put b (TransportParams.put_int id n)) (entries_bytes (int_entry b id n)) tt.
Proof.
  intros Hi Hn. destruct b; cbn [TransportParams.if_put int_entry]; [|apply writes_ret].
  rewrite entries_bytes_one, len_vb, <- (app_nil_r (vb n)). eapply writes_bind; [by apply writes_vb|].
  eapply writes_pure; [by apply encode_varint_len_ok, is_vint_max|].
  eapply writes_bind; [apply writes_vb, varint_len_vint|]. eapply writes_bind; [by apply writes_vb|apply writes_ret].
Qed.

Lemma writes_flag_param b id : is_vint id ->
  writes (TransportParams.if_put b (TransportParams.put_flag id)) (entries_bytes (flag_entry b id)) tt.
Proof.
  intros Hi. destruct b; cbn [TransportParams.if_put flag_entry]; [|apply writes_ret]. rewrite entries_bytes_one.
  eapply writes_bind; [by apply writes_vb|]. eapply writes_bind; [by apply writes_vb, small_vint|apply writes_ret].
Qed.

Lemma writes_bytes_param id v : is_vint id -> is_vint (len v) ->
  writes (TransportParams.put_bytes id v) (entries_bytes [(id, v)]) tt.
Proof.
  intros Hi Hl. rewrite entries_bytes_one. do 2 (eapply writes_bind; [by apply writes_vb|]).
  eapply writes_eq; [eapply writes_bind; [apply writes_write|apply writes_ret]|apply app_nil_r].
Qed.

Lemma writes_opt_param {A} (o : option A) id (f : A -> list Z) (m : A -> enc unit) :
  (forall a, o = Some a -> writes (m a) (entries_bytes [(id, f a)]) tt) ->
  writes (TransportParams.opt_put o m) (entries_bytes (opt_entry true o id f)) tt.
Proof. intros H. destruct o as [a|]; cbn; [by apply H|apply writes_ret]. Qed.

Lemma writes_server_param {A} s (o : option A) id (f : A -> list Z) (m : A -> enc unit) :
  (forall a, o = Some a -> writes (m a) (entries_bytes [(id, f a)]) tt) ->
  writes (TransportParams.if_put s (TransportParams.opt_put o m)) (entries_bytes (opt_entry s o id f)) tt.
Proof. destruct s; [apply writes_opt_param|]. intros _. destruct o; apply writes_ret. Qed.

Lemma cid_len_vint c : ConnectionId.valid c -> is_vint (len (ConnectionId.deref c)).
Proof.
  intros Hc%ConnectionId.valid_len. apply small_vint. unfold MAX_CID_LEN in Hc.
  pose proof (len_nonneg (ConnectionId.deref c)). lia.
Qed.

Lemma writes_v4 a :
  writes match a with
         | Some (ip, port) => write ip ;; write_u16 port ;; mret tt
         | None => write (repeat 0 4) ;; write_u16 0 ;; mret tt
         end (v4_bytes a) tt.
Proof.
  destruct a as [[ip port]|]; cbn [v4_bytes]; (eapply writes_bind; [apply writes_write|]);
    (eapply writes_eq; [eapply writes_bind; [apply writes_u16|apply writes_ret]|apply app_nil_r]).
Qed.

Lemma writes_v6 a :
  writes match a with
         | Some (ip, port, _, _) => write ip ;; write_u16 port ;; mret tt
         | None => write (repeat 0 16) ;; write_u16 0 ;; mret tt
         end (v6_bytes a) tt.
Proof.
  destruct a as [[[[ip port] flow] scope]|]; cbn [v6_bytes]; (eapply writes_bind; [apply writes_write|]);
    (eapply writes_eq; [eapply writes_bind; [apply writes_u16|apply writes_ret]|apply app_nil_r]).
Qed.

Lemma writes_address a : address_ok a -> writes (PreferredAddress.put a) (address_bytes a) tt.
Proof.
  intros (_ & _ & Hc & _). unfold PreferredAddress.put, address_bytes.
  eapply writes_bind; [apply writes_v4|]. eapply writes_bind; [apply writes_v6|].
  eapply writes_bind.
  { eapply writes_eq; [apply writes_u8|]. unfold wrap. apply (be_bytes_wrap 1). }
  eapply writes_bind; [apply writes_write|].
  eapply writes_eq; [eapply writes_bind; [apply writes_write|apply writes_ret]|apply app_nil_r].
Qed.

Lemma len_address_bytes a : address_ok a -> len (address_bytes a) = PreferredAddress.wire_len a.
Proof.
  intros (H4 & H6 & Hc & [Ht _]). unfold address_bytes, PreferredAddress.wire_len. rewrite !len_app, len_be_bytes, Ht.
  assert (len (v4_bytes (PreferredAddress.ipv4_address a)) = 6) as ->.
  { destruct (PreferredAddress.ipv4_address a) as [[ip port]|]; cbn [v4_bytes]; [|done].
    destruct H4 as [[H4 _] _]. rewrite len_app, len_be_bytes. lia. }
  assert (len (v6_bytes (PreferredAddress.ipv6_address a)) = 18) as ->; [|lia].
  destruct (PreferredAddress.ipv6_address a) as [[[[ip port] flow] scope]|]; cbn [v6_bytes]; [|done].
  destruct H6 as [[H6 _] _]. rewrite len_app, len_be_bytes. lia.
Qed.

Lemma address_len_vint a : address_ok a -> is_vint (PreferredAddress.wire_len a).
Proof.
  intros (_ & _ & Hc & _). apply ConnectionId.valid_len in Hc. apply small_vint.
  unfold PreferredAddress.wire_len, MAX_CID_LEN in *.
  pose proof (len_nonneg (ConnectionId.deref (PreferredAddress.connection_id a))). lia.
Qed.

Lemma writes_address_param a : address_ok a ->
  writes (write_varint 0x0d ;; write_varint (PreferredAddress.wire_len a) ;; PreferredAddress.put a)
         (entries_bytes [(0x0d, address_bytes a)]) tt.
Proof.
  intros Ha. rewrite entries_bytes_one, len_address_bytes by done.
  eapply writes_bind; [by apply writes_vb, small_vint|].
  eapply writes_bind; [by apply writes_vb, address_len_vint|by apply writes_address].
Qed.

Lemma writes_params s t : sendable s t ->
  writes (TransportParams.put t s) (entries_bytes (concat (entries t s))) tt.
Proof.
  intros []. unfold entries, entries_bytes. cbn [concat]. rewrite !flat_map_app.
  fold (entries_bytes []). rewrite app_nil_r. unfold TransportParams.put.
  repeat (eapply writes_bind; [
    first [ apply writes_int_param; [by apply small_vint|try done]
          | apply writes_flag_param; by apply small_vint
          | (apply writes_server_param || apply writes_opt_param); intros x E; rewrite E in *; 
            first [ apply writes_address_param; by destruct send_address0
                  | apply (writes_bytes_param _ (be_bytes 16 x)); [by apply small_vint|by apply small_vint; rewrite len_be_bytes]
                  | apply writes_bytes_param; [by apply small_vint|by apply cid_len_vint]] ]|]).
  all: try (unfold is_vint, VINT_MAX, MAX_STREAMS_PER_TYPE in *; lia).
  apply writes_opt_param. intros n E. rewrite E in *. by apply (writes_int_param true 0x20 n); [apply small_vint|].
Qed.

(** ** The decoder applies them *)

Lemma int_of_vb n : is_vint n -> TransportParams.int_of (vb n) = Ok n.
Proof.
  intros Hn. unfold TransportParams.int_of. rewrite <- (app_nil_r (vb n)).
  by rewrite (reads_at read_varint (vb n) n [] (reads_vb n Hn)).
Qed.

Lemma step_then s es ess t t' r :
  apply_entries s es t = Ok t' -> apply_entries s (concat ess) t' = r -> apply_entries s (concat (es :: ess)) t = r.
Proof. intros E <-. cbn [concat]. by rewrite apply_entries_app, E. Qed.

Lemma int_step s b id n t t' :
  (b = true -> TransportParams.decode_param s id (vb n) t = Ok t') -> (b = false -> t = t') ->
  apply_entries s (int_entry b id n) t = Ok t'.
Proof. intros H1 H2. destruct b; cbn; [by rewrite H1|by rewrite H2]. Qed.

Lemma flag_step s b id t t' :
  (b = true -> TransportParams.decode_param s id [] t = Ok t') -> (b = false -> t = t') ->
  apply_entries s (flag_entry b id) t = Ok t'.
Proof. intros H1 H2. destruct b; cbn; [by rewrite H1|by rewrite H2]. Qed.

Lemma opt_step {A} s b (o : option A) id f t t' :
  (forall a, b = true -> o = Some a -> TransportParams.decode_param s id (f a) t = Ok t') ->
  (b = false \/ o = None -> t = t') ->
  apply_entries s (opt_entry b o id f) t = Ok t'.
Proof. intros H1 H2. destruct o, b; cbn; [by erewrite H1|rewrite H2; auto..]. Qed.

Lemma reads_address a : address_ok a -> reads PreferredAddress.get (address_bytes a) (seen_address a).
Proof.
  intros (H4 & H6 & Hc & Ht). unfold address_bytes.
  set (parts4 := match PreferredAddress.ipv4_address a with Some p => p | None => (repeat 0 4, 0) end).
  set (parts6 := match PreferredAddress.ipv6_address a with Some (ip, port, _, _) => (ip, port) | None => (repeat 0 16, 0) end).
  assert (v4_bytes (PreferredAddress.ipv4_address a) = parts4.1 ++ be_bytes 2 parts4.2 /\
          octets_ok 4 parts4.1 /\ 0 <= parts4.2 < 2 ^ 16) as (-> & [L4 _] & P4).
  { subst parts4. destruct (PreferredAddress.ipv4_address a) as [[ip port]|]; [by destruct H4|]. split; [done|]. split; [split; [done|repeat constructor; unfold is_u8; lia]|done]. }
  assert (v6_bytes (PreferredAddress.ipv6_address a) = parts6.1 ++ be_bytes 2 parts6.2 /\
          octets_ok 16 parts6.1 /\ 0 <= parts6.2 < 2 ^ 16) as (-> & [L6 _] & P6).
  { subst parts6. destruct (PreferredAddress.ipv6_address a) as [[[[ip port] flow] scope]|]; [by destruct H6|]. split; [done|]. split; [split; [done|repeat constructor; unfold is_u8; lia]|done]. }
  destruct Hc as [Ec Hb]. assert (Hc := conj Ec Hb). apply ConnectionId.valid_len in Hc. destruct Ht as [Lt Ht].
  set (cid := ConnectionId.deref (PreferredAddress.connection_id a)) in *.
  rewrite <- !app_assoc. unfold PreferredAddress.get.
  eapply reads_bind; [by apply (reads_read 4)|]. eapply reads_bind; [by apply reads_u16|].
  eapply reads_bind; [by apply (reads_read 16)|]. eapply reads_bind; [by apply reads_u16|].
  eapply reads_bind; [apply reads_u8; unfold is_u8, MAX_CID_LEN in *; pose proof (len_nonneg cid); lia|].
  eapply reads_bind; [by apply reads_read|].
  eapply reads_eq; [eapply reads_bind; [by apply (reads_read _ (PreferredAddress.stateless_reset_token a))|]|apply app_nil_r].
  unfold reset_token_new. rewrite Lt. cbn. intros rest. unfold seen_address. crun. rewrite <- Ec. do 2 f_equal.
  subst parts4 parts6. destruct (PreferredAddress.ipv4_address a) as [[ip port]|],
    (PreferredAddress.ipv6_address a) as [[[[ip' port'] flow] scope]|]; done.
Qed.

Lemma address_from_bytes a : address_ok a ->
  PreferredAddress.from_bytes (address_bytes a) = Ok (seen_address a, len (address_bytes a)).
Proof.
  intros Ha. unfold PreferredAddress.from_bytes. rewrite <- (app_nil_r (address_bytes a)) at 1.
  rewrite (reads_at _ _ _ [] (reads_address a Ha)). cbn. do 2 f_equal. rewrite len_nil. lia.
Qed.

Lemma cid_back c : cid_valid (Some c) -> ConnectionId.new (ConnectionId.deref c) = c.
Proof. intros [E _]. by rewrite <- E. Qed.

Lemma token_back n : 0 <= n < U128 -> read 16 (be_bytes 16 n) = Ok (be_bytes 16 n, []) /\ be_val (be_bytes 16 n) = n.
Proof.
  intros Hn. split.
  - rewrite <- (app_nil_r (be_bytes 16 n)) at 1. by apply reads_at, reads_read.
  - rewrite be_val_be_bytes. by apply Z.mod_small.
Qed.

(** One parameter: the field is set to what the peer is to see. *)
Ltac param post :=
  match goal with
  | |- apply_entries _ (concat (_ :: _)) ?pre = _ => eapply (step_then _ _ _ pre (post pre))
  end.
Ltac sent_int :=
  apply int_step; unfold or_default;
  [ intros E%negb_true_iff; rewrite ?E; cbn; rewrite int_of_vb by (unfold is_vint, VINT_MAX, MAX_STREAMS_PER_TYPE in *; lia);
    cbn; try match goal with |- (if ?b then _ else _) = _ => destruct b eqn:?; [unfold MAX_STREAMS_PER_TYPE in *; lia|] end; done
  | intros E%negb_false_iff; rewrite ?E; apply Z.eqb_eq in E; rewrite ?E; done ].
Ltac sent_flag := apply flag_step; intros ->; done.
Ltac server_cid :=
  apply opt_step;
  [ let E := fresh in intros c ? E; subst; rewrite E in *; cbn; by rewrite cid_back
  | intros [E|E]; [done || by rewrite E|rewrite E; try done];
    match goal with |- context [if ?b then _ else _] => by destruct b end ].

#[local] Opaque read be_bytes be_val.

Lemma apply_params s t : sendable s t ->
  apply_entries (negb s) (concat (entries t s)) TransportParams.default = Ok (received s t).
Proof.
  intros []. unfold entries.
  param (TransportParams.with_original_destination_connection_id (if s then TransportParams.original_destination_connection_id t else None)).
  { server_cid. }
  param (TransportParams.with_max_idle_timeout (TransportParams.max_idle_timeout t)).
  { sent_int. }
  param (TransportParams.with_stateless_reset_token (if s then TransportParams.stateless_reset_token t else None)).
  { apply opt_step; [intros n -> E|intros [->|E]; [done|]]; rewrite E in *; [|by destruct s]. destruct (token_back n send_token0) as [R V]. cbn. rewrite R. cbn. by rewrite V. }
  param (TransportParams.with_max_udp_payload_size (or_default 65527 (TransportParams.max_udp_payload_size t))).
  { sent_int. }
  param (TransportParams.with_initial_max_data (TransportParams.initial_max_data t)).
  { sent_int. }
  param (TransportParams.with_initial_max_stream_data_bidi_local (TransportParams.initial_max_stream_data_bidi_local t)).
  { sent_int. }
  param (TransportParams.with_initial_max_stream_data_bidi_remote (TransportParams.initial_max_stream_data_bidi_remote t)).
  { sent_int. }
  param (TransportParams.with_initial_max_stream_data_uni (TransportParams.initial_max_stream_data_uni t)).
  { sent_int. }
  param (TransportParams.with_initial_max_streams_bidi (TransportParams.initial_max_streams_bidi t)).
  { sent_int. }
  param (TransportParams.with_initial_max_streams_uni (TransportParams.initial_max_streams_uni t)).
  { sent_int. }
  param (TransportParams.with_ack_delay_exponent (or_default 3 (TransportParams.ack_delay_exponent t))).
  { sent_int. }
  param (TransportParams.with_max_ack_delay (or_default 25 (TransportParams.max_ack_delay t))).
  { sent_int. }
  param (TransportParams.with_disable_active_migration (TransportParams.disable_active_migration t)).
  { sent_flag. }
  param (TransportParams.with_preferred_address (option_map seen_address (TransportParams.preferred_address t))).
  { apply opt_step; [intros a _ E|intros [?|E]; [done|]]; rewrite E in *; [|done]. destruct send_address0 as [-> Ha]. cbn. by rewrite address_from_bytes. }
  param (TransportParams.with_active_conn_id_limit (Z.max 2 (TransportParams.active_conn_id_limit t))).
  { apply int_step; intros E; [cbn; rewrite int_of_vb by done; cbn; destruct (_ <? 2) eqn:?; [lia|]; by rewrite Z.max_r by lia|by rewrite Z.max_l by lia]. }
  param (TransportParams.with_initial_source_connection_id (TransportParams.initial_source_connection_id t)).
  { server_cid. }
  param (TransportParams.with_retry_source_connection_id (if s then TransportParams.retry_source_connection_id t else None)).
  { server_cid. }
  param (TransportParams.with_enable_multipath (TransportParams.enable_multipath t)).
  { sent_flag. }
  param (TransportParams.with_disable_encryption (TransportParams.disable_encryption t)).
  { sent_flag. }
  param (TransportParams.with_max_datagram_frame_size (match TransportParams.max_datagram_frame_size t with Some n => if n =? 0 then None else Some n | None => None end)).
  { apply opt_step; [intros n _ E|intros [?|E]; [done|]]; rewrite E in *; [|done]. cbn. by rewrite int_of_vb. }
  done.
Qed.

(** ** The identifiers of a message are distinct *)

Definition all_ids : list Z :=
  [0x00; 0x01; 0x02; 0x03; 0x04; 0x05; 0x06; 0x07; 0x08; 0x09; 0x0a; 0x0b; 0x0c; 0x0d; 0x0e; 0x0f; 0x10;
   0x0f739bbc1b666d05; 0xbaad; 0x20].

(** Each group of entries is empty or one entry with its identifier. *)
Lemma entries_ids s t : Forall2 (fun es id => es.*1 = [] \/ es.*1 = [id]) (entries t s) all_ids.
Proof.
  assert (forall b id n, (int_entry b id n).*1 = [] \/ (int_entry b id n).*1 = [id]) by (intros [] ??; auto).
  assert (forall b id, (flag_entry b id).*1 = [] \/ (flag_entry b id).*1 = [id]) by (intros [] ?; auto).
  assert (forall A b (o : option A) id f, (opt_entry b o id f).*1 = [] \/ (opt_entry b o id f).*1 = [id])
    by (intros ? [] [] ??; auto).
  unfold entries, all_ids. repeat (apply Forall2_cons; split; [auto|]). apply Forall2_nil_2.
Qed.

Lemma ids_sublist (ess : list (list (Z * list Z))) ids :
  Forall2 (fun es id => es.*1 = [] \/ es.*1 = [id]) ess ids -> (concat ess).*1 `sublist_of` ids.
Proof.
  induction 1 as [|es id ess ids [E|E] _ IH]; cbn [concat]; [done|..]; rewrite fmap_app, E.
  - by apply sublist_cons.
  - by apply sublist_skip.
Qed.

Lemma nodup_ids s t : NoDup (concat (entries t s)).*1.
Proof.
  eapply sublist_NoDup; [|apply ids_sublist, (entries_ids s t)].
  apply (bool_decide_unpack (NoDup all_ids)). by vm_compute.
Qed.

Lemma int_entry_ok b id n : is_vint id -> Forall entry_ok (int_entry b id n).
Proof.
  intros Hi. destruct b; [|apply Forall_nil_2]. apply Forall_cons; split; [|apply Forall_nil_2].
  split; [done|]. cbn. rewrite len_vb. apply varint_len_vint.
Qed.

Lemma flag_entry_ok b id : is_vint id -> Forall entry_ok (flag_entry b id).
Proof.
  intros Hi. destruct b; [|apply Forall_nil_2]. apply Forall_cons; split; [|apply Forall_nil_2].
  split; [done|]. by apply small_vint.
Qed.

Lemma opt_entry_ok {A} b (o : option A) id f :
  is_vint id -> (forall a, o = Some a -> is_vint (len (f a))) -> Forall entry_ok (opt_entry b o id f).
Proof.
  intros Hi Hf. destruct o as [a|], b; try apply Forall_nil_2. apply Forall_cons; split; [|apply Forall_nil_2].
  split; [done|by apply Hf].
Qed.

Lemma entries_ok s t : sendable s t -> Forall entry_ok (concat (entries t s)).
Proof.
  intros []. unfold entries. cbn [concat]. rewrite app_nil_r. repeat (apply Forall_app; split).
  all: first [ apply int_entry_ok; by apply small_vint | apply flag_entry_ok; by apply small_vint
             | apply opt_entry_ok; [by apply small_vint|intros x E; rewrite E in *] ].
  all: try by apply cid_len_vint.
  - apply small_vint. by rewrite len_be_bytes.
  - destruct send_address0 as [_ Ha]. rewrite len_address_bytes by done. by apply address_len_vint.
  - rewrite len_vb. apply varint_len_vint.
Qed.

(** C27.  The peer decodes what an endpoint encodes: every parameter arrives as it
    was set, except that a client sends no server-only parameter and that a zero
    the encoder leaves out is read as the default.  The encoder writes the whole
    message or reports that the buffer is too short. *)
Theorem params_roundtrip s t buf :
  sendable s t ->
  exists bs,
    TransportParams.encode t s buf =
      (if len bs <=? len buf then Ok (len bs, bs ++ zdrop (len bs) buf) else Err BufferTooShort) /\
    TransportParams.decode bs (negb s) = Ok (received s t, len bs).
Proof.
  intros Ht. exists (entries_bytes (concat (entries t s))). split.
  - by apply run_enc_spec, writes_params.
  - unfold TransportParams.decode. rewrite decode_loop_entries.
    + by rewrite apply_params.
    + by apply entries_ok.
    + rewrite app_nil_r. apply nodup_ids.
    + done.
Qed.

(** ** Any message *)

(** What a decoded set of parameters satisfies, [s] telling whether the decoder
    is a server. *)
Record accepted (s : bool) (t : TransportParams.TransportParams) : Prop := {
  acc_server : s = true ->
    TransportParams.original_destination_connection_id t = None /\
    TransportParams.stateless_reset_token t = None /\
    TransportParams.preferred_address t = None /\
    TransportParams.retry_source_connection_id t = None;
  acc_sendable : sendable (negb s) t;
  acc_udp : 1200 <= TransportParams.max_udp_payload_size t;
  acc_limit : 2 <= TransportParams.active_conn_id_limit t;
  acc_dgram : TransportParams.max_datagram_frame_size t <> Some 0;
}.

Ltac accepted_by Ha :=
  destruct Ha as [? [] ? ? ?]; split; try done; cbn;
  first [ by intros; exfalso | by intros ?; simplify_eq | tauto | split; cbn; try done; try tauto;
    unfold is_vint, VINT_MAX, MAX_STREAMS_PER_TYPE in *; lia
        | unfold is_vint, VINT_MAX, MAX_STREAMS_PER_TYPE in *; lia ].

Lemma accepted_default s : accepted s TransportParams.default.
Proof. split; try done. split; cbn; try done; unfold is_vint, VINT_MAX, MAX_STREAMS_PER_TYPE; lia. Qed.

(** Neither a panic nor a result outside [P]. *)
Definition ok_within {A} (m : res A) (P : A -> Prop) : Prop :=
  match m with Ok a => P a | Err _ => True | Panic => False end.

Lemma int_of_within {A} val (f : Z -> res A) P :
  bytes_ok val -> (forall n, is_vint n -> ok_within (f n) P) -> ok_within (n ← TransportParams.int_of val; f n) P.
Proof.
  intros Hb Hf. unfold TransportParams.int_of. pose proof (safe_varint val Hb) as Hs.
  destruct (read_varint val) as [[n rest]| |]; [|done..]. apply Hf, Hs.
Qed.

Lemma token_within {A} val (f : list Z * list Z -> res A) P : bytes_ok val ->
  (forall r, len r.1 = 16 -> bytes_ok r.1 -> ok_within (f r) P) -> ok_within (r ← read 16 val; f r) P.
Proof.
  intros Hb Hf. pose proof (safe_read 16 ltac:(lia) val Hb) as Hs.
  destruct (read 16 val) as [r| |]; [|done..]. destruct r as [r rest]. apply Hf; apply Hs.
Qed.

Lemma safe_address : safe PreferredAddress.get address_ok.
Proof.
  unfold PreferredAddress.get.
  eapply safe_bind; [by apply (safe_read 4)|]. intros ip4 [L4 B4]. eapply safe_bind; [apply safe_u16|]. intros port4 P4.
  eapply safe_bind; [by apply (safe_read 16)|]. intros ip6 [L6 B6]. eapply safe_bind; [apply safe_u16|]. intros port6 P6.
  eapply safe_bind; [apply safe_u8|]. intros n Hn. eapply safe_bind; [apply safe_read, Hn|]. intros cid [_ Bc].
  eapply safe_bind; [by apply (safe_read 16)|]. intros token [Lt Bt].
  unfold reset_token_new. rewrite Lt. cbn. eapply safe_bind; [by apply (safe_clift (Ok token) (fun x => x = token)); [|intros ? [=]]|].
  intros ? ->. apply safe_ret. split; [|split; [|split]]; cbn.
  - by destruct (unspecified ip4 && (port4 =? 0)).
  - by destruct (unspecified ip6 && (port6 =? 0)).
  - by apply ConnectionId.valid_new.
  - done.
Qed.

Lemma address_within {A} val (f : PreferredAddress.PreferredAddress * Z -> res A) P : bytes_ok val ->
  (forall r, address_ok r.1 -> ok_within (f r) P) -> ok_within (r ← PreferredAddress.from_bytes val; f r) P.
Proof.
  intros Hb Hf. unfold PreferredAddress.from_bytes. pose proof (safe_address val Hb) as Hs.
  destruct (PreferredAddress.get val) as [[a rest]| |]; [|done..]. by apply Hf, Hs.
Qed.

Lemma decode_param_within s id val t :
  bytes_ok val -> accepted s t -> ok_within (TransportParams.decode_param s id val t) (accepted s).
Proof.
  intros Hb Ha. pose proof (ConnectionId.valid_new val Hb). unfold TransportParams.decode_param, TransportParams.server_only.
  repeat match goal with |- ok_within (if id =? _ then _ else _) _ => destruct (id =? _); [destruct s eqn:?; try done|] end.
  all: try (apply int_of_within; [done|]; intros n Hn; try match goal with |- ok_within (if ?b then _ else _) _ => destruct b eqn:?; [done|] end).
  all: try (apply token_within; [done|]; intros r Lr Br; pose proof (be_val_bound r.1 Br) as Hv; rewrite Lr in Hv).
  all: try (apply address_within; [done|]; intros r Hr).
  all: try destruct (n =? 0) eqn:?.
  all: accepted_by Ha.
Qed.

Lemma with_length_within b v rest : bytes_ok b -> read_with_varint_length b = Ok (v, rest) ->
  bytes_ok v /\ bytes_ok rest /\ (length rest <= length b)%nat.
Proof.
  intros Hb E. pose proof (safe_with_varint_length b Hb) as Hs. rewrite E in Hs. destruct Hs as [Hv [pre ->]].
  apply bytes_ok_app in Hb as [_ Hr]. rewrite length_app. split_and!; [done..|lia].
Qed.

Lemma decode_loop_within fuel s buf found t :
  bytes_ok buf -> accepted s t -> (length buf <= fuel)%nat ->
  ok_within (TransportParams.decode_loop fuel s buf found t) (accepted s).
Proof.
  revert buf found t. induction fuel as [|fuel IH]; intros buf found t Hb Ha Hf; (destruct buf as [|b buf]; [done|cbn in Hf]); [lia|].
  cbn [TransportParams.decode_loop]. pose proof (safe_varint _ Hb) as Hs.
  destruct (read_varint (b :: buf)) as [[id rest]| |] eqn:E; [|done..]. cbn [mbind outcome_bind].
  destruct (read_varint_consumes _ _ _ Hb E) as (_ & Hr & Hl).
  destruct (existsb (Z.eqb id) found); [done|].
  pose proof (safe_with_varint_length _ Hr) as Hs'.
  destruct (read_with_varint_length rest) as [[v rest']| |] eqn:E'; [|done..]. cbn [mbind outcome_bind].
  destruct (with_length_within _ _ _ Hr E') as (Hv & Hr' & Hl').
  pose proof (decode_param_within s id v t Hv Ha) as Hp.
  destruct (TransportParams.decode_param s id v t) as [t'| |]; [|done..]. apply IH; [done..|].
  unfold len in Hl. cbn [length] in Hl. destruct (varint_len_size id) as [X|[X|[X|X]]]; lia.
Qed.

(** C28.  On any bytes the decoder returns, without panic: it refuses the message or
    consumes all of it, and then every parameter is within the range the protocol
    allows.  A server accepts none of the parameters only a server sends, and what
    was accepted meets the conditions under which it can be encoded. *)
Theorem params_decode_typed s buf :
  bytes_ok buf ->
  match TransportParams.decode buf s with
  | Ok (t, n) => n = len buf /\ accepted s t
  | Err _ => True
  | Panic => False
  end.
Proof.
  intros Hb. unfold TransportParams.decode.
  pose proof (decode_loop_within (length buf) s buf [] _ Hb (accepted_default s) ltac:(lia)) as H.
  by destruct (TransportParams.decode_loop _ _ _ _ _).
Qed.

(** A client's message with a zero acknowledgement delay, and a server's with a
    preferred address. *)
Definition client_params : TransportParams.TransportParams :=
  TransportParams.with_max_ack_delay 0 (TransportParams.with_initial_max_data 65536
    (TransportParams.with_initial_source_connection_id (Some (ConnectionId.new [1; 2; 3; 4])) TransportParams.default)).

Definition server_address : PreferredAddress.PreferredAddress :=
  PreferredAddress.mkPA (Some ([127; 0; 0; 1], 443)) None (ConnectionId.new [9; 9]) (repeat 7 16).

Definition server_params : TransportParams.TransportParams :=
  TransportParams.with_preferred_address (Some server_address)
    (TransportParams.with_stateless_reset_token (Some 5) (TransportParams.with_initial_max_streams_bidi 100 TransportParams.default)).

Lemma params_roundtrip_witness :
  (exists bs, TransportParams.decode bs true = Ok (received false client_params, len bs)) /\
  (exists bs, TransportParams.decode bs false = Ok (server_params, len bs)).
Proof.
  split.
  - destruct (params_roundtrip false client_params (repeat 0 100)) as (bs & _ & H); [|by exists bs].
    split; cbn; try done; try (unfold is_vint, VINT_MAX, MAX_STREAMS_PER_TYPE; lia).
    apply ConnectionId.valid_new. repeat constructor; unfold is_u8; lia.
  - destruct (params_roundtrip true server_params (repeat 0 100)) as (bs & _ & H); [|by exists bs].
    split; cbn; try done; try (unfold is_vint, VINT_MAX, MAX_STREAMS_PER_TYPE, U128; lia).
    split; [done|]. unfold address_ok, octets_ok. cbn.
    split; [split; [split; [done|]|lia]|split; [done|split; [|split; [done|]]]]; try apply ConnectionId.valid_new;
      repeat constructor; unfold is_u8; lia.
Defined.

Lemma params_decode_typed_witness :
  (exists t, TransportParams.decode [0x01; 0x01; 0x1e; 0x0f; 0x00] true = Ok (t, 5) /\ accepted true t) /\
  TransportParams.decode [0x10; 0x00] true = Err TransportParameterError.
Proof.
  assert (Hb : bytes_ok [0x01; 0x01; 0x1e; 0x0f; 0x00]) by (repeat constructor; unfold is_u8; lia).
  pose proof (params_decode_typed true _ Hb) as H. split; [|by vm_compute].
  destruct (TransportParams.decode _ _) as [[t n]| |] eqn:E; [|by vm_compute in E..].
  exists t. destruct H as [-> Ha]. by split.
Defined.
