(* ===== verification/Pmtu.v ===== *)
(** * Path MTU discovery

    Models [src/src/connection/pmtu.rs]: the search for the largest datagram a
    path carries.  The main theorem runs the search against a path that carries
    datagrams up to a fixed size. *)

From Stdlib Require Import Floats.SpecFloat.
From S2P Require Import Prelude.
From S2P Require Import Error.
From S2P Require Import Float64.
From S2P Require Import Recovery.

Definition MAX_PACKET_SIZE_IPV4 : Z := 1472.
Definition MAX_PACKET_SIZE_IPV6 : Z := 1452.
Definition MAX_PROBE_COUNT : Z := 3.

Module Dplpmtud.

Record Dplpmtud := mkPmtu {
  should_probe : bool;
  current_size : Z;
  probe_size : option Z;
  probe_count : Z;
  failed_size : Z;
  max_pmtu : Z;
  is_ipv6 : bool;
}.

Definition new (enable : bool) (max_pmtu : Z) (is_ipv6 : bool) : Dplpmtud :=
  let max_pmtu :=
    if max_pmtu =? DEFAULT_SEND_UDP_PAYLOAD_SIZE
    then if is_ipv6 then MAX_PACKET_SIZE_IPV6 else MAX_PACKET_SIZE_IPV4
    else max_pmtu in
  mkPmtu enable DEFAULT_SEND_UDP_PAYLOAD_SIZE None 0 0 max_pmtu is_ipv6.

Definition cal_mtu_ceiling (peer_max_udp_payload : Z) (d : Dplpmtud) : Z :=
  let mtu_ceiling := if 0 <? failed_size d then failed_size d else max_pmtu d in
  if peer_max_udp_payload <? mtu_ceiling then peer_max_udp_payload else mtu_ceiling.

Definition cal_probe_size (peer_max_udp_payload : Z) (d : Dplpmtud) : res Z :=
  let mtu_ceiling := cal_mtu_ceiling peer_max_udp_payload d in
  if (failed_size d =? 0) && (mtu_ceiling <? 1500) then Ok mtu_ceiling
  else
    s ← add64 (current_size d) mtu_ceiling;
    mret (s / 2).

(** The literal [0.99]: the quotient is rounded to the nearest value as well. *)
Definition NEAR : f64 := Eval vm_compute in fdiv (of_int 99) (of_int 100).

Definition check_finish (peer_max_udp_payload : Z) (d : Dplpmtud) : bool :=
  let mtu_ceiling := cal_mtu_ceiling peer_max_udp_payload d in
  (mtu_ceiling <=? current_size d) || SFleb NEAR (fdiv (of_int (current_size d)) (of_int mtu_ceiling)).

Definition get_probe_size (peer_max_udp_payload : Z) (d : Dplpmtud) : res (Z * Dplpmtud) :=
  match probe_size d with
  | Some n => Ok (n, d)
  | None =>
      n ← cal_probe_size peer_max_udp_payload d;
      mret (n, mkPmtu (should_probe d) (current_size d) (Some n) (probe_count d) (failed_size d) (max_pmtu d) (is_ipv6 d))
  end.

Definition on_pmtu_probe_sent (d : Dplpmtud) : Dplpmtud :=
  mkPmtu false (current_size d) (probe_size d) (probe_count d) (failed_size d) (max_pmtu d) (is_ipv6 d).

Definition on_pmtu_probe_acked (pkt_size peer_max_udp_payload : Z) (d : Dplpmtud) : res Dplpmtud :=
  let d := mkPmtu (should_probe d) (Z.max (current_size d) pkt_size) (probe_size d) 0 (failed_size d) (max_pmtu d) (is_ipv6 d) in
  n ← cal_probe_size peer_max_udp_payload d;
  mret (mkPmtu (negb (check_finish peer_max_udp_payload d)) (current_size d) (Some n) 0 (failed_size d) (max_pmtu d) (is_ipv6 d)).

Definition on_pmtu_probe_lost (pkt_size peer_max_udp_payload : Z) (d : Dplpmtud) : res Dplpmtud :=
  if decide (Some pkt_size <> probe_size d) then Ok d
  else if probe_count d + 1 <? MAX_PROBE_COUNT then
    Ok (mkPmtu true (current_size d) (probe_size d) (probe_count d + 1) (failed_size d) (max_pmtu d) (is_ipv6 d))
  else
    let d := mkPmtu (should_probe d) (current_size d) (probe_size d) (probe_count d + 1) pkt_size (max_pmtu d) (is_ipv6 d) in
    n ← cal_probe_size peer_max_udp_payload d;
    mret (mkPmtu (negb (check_finish peer_max_udp_payload d)) (current_size d) (Some n) 0 (failed_size d) (max_pmtu d) (is_ipv6 d)).

End Dplpmtud.

(** ** The search on a path *)

Import Dplpmtud.

Section Search.

(** The peer's limit, and the size up to which the path carries datagrams. *)
Variables (peer mtu : Z).

(** One probe: the path delivers it, and it is acknowledged, or it is lost. *)
Definition probe (d : Dplpmtud) : res Dplpmtud :=
  '(n, d) ← get_probe_size peer d;
  let d := on_pmtu_probe_sent d in
  if n <=? mtu then on_pmtu_probe_acked n peer d else on_pmtu_probe_lost n peer d.

(** Probe while a probe is due, with the number of probes sent. *)
Fixpoint search (fuel : nat) (d : Dplpmtud) : res (Dplpmtud * nat) :=
  if should_probe d then
    match fuel with
    | O => Err InternalError
    | S fuel => d ← probe d; '(d, n) ← search fuel d; mret (d, S n)
    end
  else Ok (d, O).

(** The state between two probes; [top] bounds the sizes. *)
Record searching (top : Z) (d : Dplpmtud) : Prop := {
  se_current : 1200 <= current_size d <= mtu /\ current_size d <= cal_mtu_ceiling peer d;
  se_ceiling : cal_mtu_ceiling peer d <= top;
  se_failed : failed_size d = 0 \/ mtu < failed_size d;
  se_count : 0 <= probe_count d < MAX_PROBE_COUNT;
  se_more : should_probe d = true ->
    check_finish peer d = false \/ (failed_size d = 0 /\ cal_mtu_ceiling peer d < 1500);
  se_done : should_probe d = false -> check_finish peer d = true;
  se_probe : forall n, probe_size d = Some n -> cal_probe_size peer d = Ok n;
}.

(** What is left to do: it shrinks with every probe. *)
Definition left (d : Dplpmtud) : Z :=
  if should_probe d
  then 1 + 4 * (cal_mtu_ceiling peer d - current_size d) + (MAX_PROBE_COUNT - probe_count d) + (if failed_size d =? 0 then 4 else 0)
  else 0.

End Search.

(** ** The test for the end of the search *)

Definition near (n ceiling : Z) : bool := SFleb NEAR (fdiv (of_int n) (of_int ceiling)).

Lemma near_norm t e : 2 ^ 52 <= t <= 2 ^ 53 -> e <= -53 ->
  SFleb NEAR (norm t e) = (e =? -53) && (8917127262193582 <=? t).
Proof.
  intros Ht He. unfold norm, NEAR. destruct (Z.eqb_spec t (2 ^ 53)) as [->|Hne].
  - unfold SFleb, SFcompare. destruct (Z.eqb_spec e (-53)) as [->|]; [done|].
    destruct (Z.eq_dec e (-54)) as [->|]; [done|]. by rewrite (proj2 (Z.compare_gt_iff (-53) (e + 1))) by lia.
  - destruct t as [|p|p]; [lia| |lia]. unfold SFleb, SFcompare. destruct (Z.eqb_spec e (-53)) as [->|].
    + cbn [Z.to_pos andb]. unfold Z.leb. change (-53 ?= -53) with Eq. cbn match.
      change (Pos.compare_cont Eq 8917127262193582 p) with (8917127262193582 ?= Zpos p).
      destruct (8917127262193582 ?= Zpos p); reflexivity.
    + by rewrite (proj2 (Z.compare_gt_iff (-53) e)) by lia.
Qed.

(** The truncated quotient against the mantissa of [0.99]; rounding does not
    matter as long as the sizes are far below the precision. *)
Lemma quotient_near a b t : 1 <= a < b -> b <= 2 ^ 40 -> t = a * 2 ^ 53 / b \/ t = a * 2 ^ 53 / b + 1 ->
  (8917127262193582 <=? t) = (99 * b <=? 100 * a).
Proof.
  intros Ha Hb Ht. pose proof (Z.mul_div_le (a * 2 ^ 53) b ltac:(lia)).
  pose proof (Z.mul_succ_div_gt (a * 2 ^ 53) b ltac:(lia)).
  set (q := a * 2 ^ 53 / b) in *. destruct (Z.leb_spec (99 * b) (100 * a)).
  - apply Z.leb_le. assert (8917127262193582 < Z.succ q); [|lia].
    apply (Z.mul_lt_mono_pos_l b); [lia|]. lia.
  - apply Z.leb_gt. assert (q < 8917127262193582 - 1); [|lia].
    apply (Z.mul_lt_mono_pos_l b); [lia|]. lia.
Qed.

Lemma mantissa_quotient a b : 1 <= a < b -> b < 2 ^ 53 ->
  let q := mantissa a * 2 ^ 53 / mantissa b in
  (Zdigits2 a = Zdigits2 b -> q = a * 2 ^ 53 / b) /\
  (Zdigits2 a = Zdigits2 b - 1 -> q = 2 * a * 2 ^ 53 / b).
Proof.
  intros Ha Hb q. unfold q, mantissa. pose proof (digits_le b 53 ltac:(lia) ltac:(lia)).
  pose proof (Z.pow_pos_nonneg 2 (53 - Zdigits2 b) ltac:(lia) ltac:(lia)) as Hp.
  split; intros ->; [|replace (53 - (Zdigits2 b - 1)) with (Z.succ (53 - Zdigits2 b)) by lia; rewrite Z.pow_succ_r by lia];
    set (p := 2 ^ (53 - Zdigits2 b)) in *; rewrite <- (Z.div_mul_cancel_r _ b p) by lia; f_equal; lia.
Qed.

Lemma digits_mono a b : 1 <= a <= b -> Zdigits2 a <= Zdigits2 b.
Proof.
  intros H. destruct (digits_range b) as [Hb ?]; [lia|]. apply digits_le; lia.
Qed.

(** The floating-point test is the exact test for 99 per cent. *)
Lemma near_spec a b : 1 <= a < b -> b <= 2 ^ 40 -> near a b = (99 * b <=? 100 * a).
Proof.
  intros Ha Hb. unfold near. destruct (fdiv_ints a b) as (t & Ht & ->); [lia..|].
  destruct (mantissa_quotient a b) as [Q0 Q1]; [lia..|]. pose proof (digits_mono a b ltac:(lia)).
  pose proof (mantissa_range a ltac:(lia)) as Ra. pose proof (mantissa_range b ltac:(lia)) as Rb.
  set (q := mantissa a * 2 ^ 53 / mantissa b) in *.
  assert (2 ^ 52 <= q < 2 ^ 54) as Rq.
  { unfold q. split; [apply Z.div_le_lower_bound; lia|apply Z.div_lt_upper_bound; lia]. }
  assert (Zdigits2 a <= Zdigits2 b - 2 -> 2 * a < b) as Hhalf.
  { intros Hd. destruct (digits_range a) as [A1 A2]; [lia|]. destruct (digits_range b) as [B1 B2]; [lia|].
    pose proof (Z.pow_le_mono_r 2 (Zdigits2 a + 1) (Zdigits2 b - 1) ltac:(lia) ltac:(lia)) as P.
    rewrite Z.pow_add_r in P by lia. lia. }
  destruct (Z.ltb_spec q (2 ^ 53)) as [Hq|Hq].
  - rewrite Z.div_1_r in Ht. rewrite near_norm by lia. destruct (Z.eqb_spec (Zdigits2 a - Zdigits2 b - 53 + 0) (-53)) as [E|E].
    + cbn [andb]. apply quotient_near; [done..|]. rewrite <- Q0 by lia. done.
    + symmetry. apply Z.leb_gt. destruct (Z.eq_dec (Zdigits2 a) (Zdigits2 b - 1)) as [D|D]; [|lia].
      assert (2 * a < b); [|lia]. destruct (Z.le_gt_cases b (2 * a)); [|done].
      assert (2 ^ 53 <= q); [|lia]. rewrite Q1 by done. apply Z.div_le_lower_bound; lia.
  - change (2 ^ 1) with 2 in Ht.
    assert (2 ^ 52 <= q / 2 < 2 ^ 53) by (split; [apply Z.div_le_lower_bound; lia|apply Z.div_lt_upper_bound; lia]).
    destruct (Z.eq_dec (Zdigits2 a) (Zdigits2 b)) as [D|D].
    { assert (q < 2 ^ 53); [|lia]. rewrite Q0 by done. apply Z.div_lt_upper_bound; lia. }
    rewrite near_norm by lia. destruct (Z.eqb_spec (Zdigits2 a - Zdigits2 b - 53 + 1) (-53)) as [E|E].
    + cbn [andb]. apply quotient_near; [done..|]. rewrite Q1 in Ht by lia. rewrite Z.div_div in Ht by lia.
      replace (2 * a * 2 ^ 53) with (a * 2 ^ 53 * 2) in Ht by lia. by rewrite Z.div_mul_cancel_r in Ht by lia.
    + symmetry. apply Z.leb_gt. lia.
Qed.

(** ** The search ends at the right size *)

Section Result.
Variables (peer mtu top : Z).
Hypotheses (Hmtu : 1200 <= mtu) (Htop : top <= 2 ^ 40).

Lemma finish_spec d : 1200 <= current_size d -> cal_mtu_ceiling peer d <= top -> 0 < cal_mtu_ceiling peer d ->
  check_finish peer d = (99 * cal_mtu_ceiling peer d <=? 100 * current_size d).
Proof.
  intros Hc Ht Hp. unfold check_finish. set (c := cal_mtu_ceiling peer d) in *.
  destruct (Z.leb_spec c (current_size d)); cbn [orb].
  - symmetry. apply Z.leb_le. lia.
  - apply near_spec; lia.
Qed.

(** The size of the next probe: above the current size unless that is the limit,
    at most the ceiling, and below it unless nothing failed so far. *)
Lemma probe_size_spec d : searching peer mtu top d -> should_probe d = true ->
  exists n, cal_probe_size peer d = Ok n /\ current_size d <= n <= cal_mtu_ceiling peer d /\
    ((failed_size d = 0 /\ n = cal_mtu_ceiling peer d) \/ current_size d < n < cal_mtu_ceiling peer d).
Proof.
  intros [[Hc Hcc] Ht Hf Hn Hm _ _] Hs. specialize (Hm Hs). unfold cal_probe_size.
  rewrite finish_spec in Hm by lia. set (c := cal_mtu_ceiling peer d) in *.
  destruct (Z.eqb_spec (failed_size d) 0) as [E|E], (Z.ltb_spec c 1500); cbn [andb]; [exists c; split; [done|]; lia|..].
  all: rewrite add64_ok by (unfold is_u64, U64; lia); cbn [mbind outcome_bind]; exists ((current_size d + c) / 2);
    split; [done|]; destruct Hm as [Hm%Z.leb_gt|Hm]; [|lia].
  all: assert (current_size d < (current_size d + c) / 2 < c);
    [split; [|apply Z.div_lt_upper_bound; lia]; enough (current_size d + 1 <= (current_size d + c) / 2) by lia; apply Z.div_le_lower_bound; lia|lia].
Qed.

Lemma get_probe_size_spec d n : searching peer mtu top d -> cal_probe_size peer d = Ok n ->
  get_probe_size peer d =
    Ok (n, mkPmtu (should_probe d) (current_size d) (Some n) (probe_count d) (failed_size d) (max_pmtu d) (is_ipv6 d)).
Proof.
  intros [_ _ _ _ _ _ Hp] Hn. unfold get_probe_size. destruct (probe_size d) as [n'|] eqn:E.
  - specialize (Hp n' eq_refl). assert (n' = n) as -> by congruence. rewrite <- E. by destruct d.
  - by rewrite Hn.
Qed.

Lemma cal_probe_total d : current_size d <= 2 ^ 40 -> cal_mtu_ceiling peer d <= top -> exists n, cal_probe_size peer d = Ok n.
Proof.
  intros Hc Ht. unfold cal_probe_size. destruct (_ && _); [by eexists|].
  rewrite add64_ok by lia. by eexists.
Qed.

(** The state after the outcome of a probe is known and the next size chosen. *)
Lemma settle cur fl mx v6 :
  let d := mkPmtu false cur None 0 fl mx v6 in
  1200 <= cur <= mtu -> cur <= cal_mtu_ceiling peer d <= top -> fl = 0 \/ mtu < fl ->
  exists n, cal_probe_size peer d = Ok n /\
    searching peer mtu top (mkPmtu (negb (check_finish peer d)) cur (Some n) 0 fl mx v6).
Proof.
  intros d Hc Ht Hf. destruct (cal_probe_total d) as [n Hn]; [cbn; lia|lia|]. exists n. split; [done|].
  split; cbn [current_size failed_size probe_count should_probe probe_size]; [split; [done|apply Ht]|apply Ht|done|unfold MAX_PROBE_COUNT; lia|..].
  - intros E%negb_true_iff. by left.
  - intros E%negb_false_iff. done.
  - intros ? [= <-]. done.
Qed.

Lemma ceiling_peer d : cal_mtu_ceiling peer d <= peer.
Proof. unfold cal_mtu_ceiling. zcase; lia. Qed.

Lemma ceiling_failed sp cur ps k fl mx v6 : 0 < fl <= peer -> cal_mtu_ceiling peer (mkPmtu sp cur ps k fl mx v6) = fl.
Proof. intros H. unfold cal_mtu_ceiling. cbn [failed_size max_pmtu]. rewrite (proj2 (Z.ltb_lt 0 fl)) by lia. zcase; lia. Qed.

Definition ceiling fl mx := cal_mtu_ceiling peer (mkPmtu false 0 None 0 fl mx false).

Lemma probe_acked cur k fl mx v6 n : 1200 <= cur <= n -> n <= mtu -> n <= ceiling fl mx <= top -> fl = 0 \/ mtu < fl ->
  0 <= k < 3 -> n = ceiling fl mx \/ cur < n ->
  exists d', on_pmtu_probe_acked n peer (mkPmtu false cur (Some n) k fl mx v6) = Ok d' /\ searching peer mtu top d' /\
    left peer d' < 1 + 4 * (ceiling fl mx - cur) + (3 - k) + (if fl =? 0 then 4 else 0) /\
    failed_size d' = fl /\ max_pmtu d' = mx.
Proof.
  intros Hc Hm Ht Hf Hk Hcase. unfold on_pmtu_probe_acked.
  cbn [should_probe current_size probe_size probe_count failed_size max_pmtu is_ipv6].
  rewrite Z.max_r by lia. destruct (settle n fl mx v6) as (n' & En' & Hs'); [lia|exact Ht|done|].
  change (cal_probe_size peer (mkPmtu false n (Some n) 0 fl mx v6)) with (cal_probe_size peer (mkPmtu false n None 0 fl mx v6)).
  rewrite En'. cbn [mbind outcome_bind]. eexists. split; [done|]. split; [exact Hs'|]. split; [|done].
  unfold left. cbn [should_probe current_size failed_size probe_count]. unfold MAX_PROBE_COUNT.
  change (cal_mtu_ceiling peer _) with (ceiling fl mx).
  destruct (check_finish peer _) eqn:Ef; cbn [negb]; [destruct (fl =? 0); lia|].
  rewrite finish_spec in Ef by (exact (proj2 Ht) || (cbn; lia) || (change (0 < ceiling fl mx); lia)).
  apply Z.leb_gt in Ef. change (cal_mtu_ceiling peer _) with (ceiling fl mx) in Ef. cbn [current_size] in Ef.
  destruct (fl =? 0); lia.
Qed.

Lemma probe_lost sp cur k fl mx v6 n : 1200 <= cur <= mtu -> mtu < n -> n <= ceiling fl mx <= top -> fl = 0 \/ mtu < fl ->
  0 <= k < 3 -> (fl = 0 /\ n = ceiling fl mx) \/ n < ceiling fl mx ->
  check_finish peer (mkPmtu sp cur (Some n) k fl mx v6) = false \/ (fl = 0 /\ ceiling fl mx < 1500) ->
  cal_probe_size peer (mkPmtu sp cur (Some n) k fl mx v6) = Ok n ->
  exists d', on_pmtu_probe_lost n peer (mkPmtu false cur (Some n) k fl mx v6) = Ok d' /\ searching peer mtu top d' /\
    left peer d' < 1 + 4 * (ceiling fl mx - cur) + (3 - k) + (if fl =? 0 then 4 else 0) /\
    (failed_size d' = fl \/ failed_size d' = n) /\ max_pmtu d' = mx.
Proof.
  intros Hc Hm Ht Hf Hk Hcase Hmore Hcal. unfold on_pmtu_probe_lost.
  cbn [should_probe current_size probe_size probe_count failed_size max_pmtu is_ipv6].
  destruct (decide (Some n <> Some n)) as [|_]; [done|]. unfold MAX_PROBE_COUNT.
  destruct (Z.ltb_spec (k + 1) 3) as [Hk3|Hk3].
  - eexists. split; [done|]. split; [|split; [|by split; [left|]]].
    + split; cbn [current_size failed_size probe_count should_probe probe_size]; try done; try (unfold MAX_PROBE_COUNT; lia).
      * split; [done|]. change (cur <= ceiling fl mx). lia.
      * apply Ht.
      * by intros ? [= <-].
    + unfold left. cbn [should_probe current_size failed_size probe_count]. change (cal_mtu_ceiling peer _) with (ceiling fl mx).
      unfold MAX_PROBE_COUNT. destruct (fl =? 0); lia.
  - assert (n <= peer) by (etrans; [apply Ht|apply ceiling_peer]).
    pose proof (fun sp cur ps k => ceiling_failed sp cur ps k n mx v6 ltac:(lia)) as Hcn.
    destruct (settle cur n mx v6) as (n' & En' & Hs'); [done|rewrite Hcn; lia|by right|].
    change (cal_probe_size peer (mkPmtu false cur (Some n) (k + 1) n mx v6)) with (cal_probe_size peer (mkPmtu false cur None 0 n mx v6)).
    rewrite En'. cbn [mbind outcome_bind]. eexists. split; [done|]. split; [exact Hs'|]. split; [|by split; [right|]].
    unfold left. cbn [should_probe current_size failed_size probe_count]. rewrite Hcn. unfold MAX_PROBE_COUNT.
    destruct (Z.eqb_spec n 0); [lia|].
    match goal with |- context [negb ?b] => destruct b end; cbn [negb]; destruct (Z.eqb_spec fl 0); lia.
Qed.

(** One probe: the search stays on track and has less to do. *)
Lemma probe_step d : searching peer mtu top d -> should_probe d = true ->
  exists d', probe peer mtu d = Ok d' /\ searching peer mtu top d' /\ left peer d' < left peer d /\ max_pmtu d' = max_pmtu d.
Proof.
  intros Hd Hs. destruct (probe_size_spec d Hd Hs) as (n & En & Hn & Hcase). unfold probe.
  rewrite (get_probe_size_spec d n Hd En). cbn [mbind outcome_bind]. pose proof Hd as [[Hc Hcc] Ht Hf Hk Hmore _ _].
  specialize (Hmore Hs). unfold left. rewrite Hs. unfold MAX_PROBE_COUNT in *. destruct d as [sp cur ps k fl mx v6].
  unfold on_pmtu_probe_sent. cbn [should_probe current_size probe_size probe_count failed_size max_pmtu is_ipv6] in *.
  change (cal_mtu_ceiling peer (mkPmtu sp cur ps k fl mx v6)) with (ceiling fl mx) in *.
  destruct (Z.leb_spec n mtu) as [Hle|Hgt].
  - destruct (probe_acked cur k fl mx v6 n) as (d' & -> & ? & ? & _ & ?); [lia..|]. by exists d'.
  - destruct (probe_lost sp cur k fl mx v6 n) as (d' & -> & ? & ? & _ & ?); [lia..|exact Hmore|exact En|]. by exists d'.
Qed.

Lemma search_ends fuel d : searching peer mtu top d -> left peer d <= Z.of_nat fuel ->
  exists d' n, search peer mtu fuel d = Ok (d', n) /\ searching peer mtu top d' /\ should_probe d' = false /\
    Z.of_nat n <= left peer d /\ max_pmtu d' = max_pmtu d.
Proof.
  revert d. induction fuel as [|fuel IH]; intros d Hd Hl; cbn [search]; destruct (should_probe d) eqn:Hs.
  - exfalso. destruct Hd as [[? ?] ? ? ? ? ? ?]. unfold left, MAX_PROBE_COUNT in *. rewrite Hs in Hl. destruct (failed_size d =? 0); lia.
  - exists d, O. unfold left. rewrite Hs. by split_and!.
  - destruct (probe_step d Hd Hs) as (d1 & -> & Hd1 & Hl1 & Hx). destruct (IH d1 Hd1 ltac:(lia)) as (d' & n & E & ? & ? & ? & ?).
    cbn [mbind outcome_bind]. rewrite E. cbn. exists d', (S n). split_and!; [done..|lia|congruence].
  - exists d, O. unfold left. rewrite Hs. by split_and!.
Qed.
End Result.

(** The largest size the two endpoints allow. *)
Definition limit (peer max : Z) (v6 : bool) : Z := Z.min peer (max_pmtu (new true max v6)).

Lemma new_searching peer mtu max v6 :
  1200 <= peer -> 1200 <= mtu -> 1200 <= max -> limit peer max v6 <= 2 ^ 40 ->
  searching peer mtu (limit peer max v6) (new true max v6).
Proof.
  intros Hp Hm Hx Ht.
  assert (1200 <= max_pmtu (new true max v6)) as Hmx.
  { unfold new, DEFAULT_SEND_UDP_PAYLOAD_SIZE. cbn [max_pmtu]. destruct (Z.eqb_spec max 1200); [by destruct v6|lia]. }
  assert (cal_mtu_ceiling peer (new true max v6) = limit peer max v6) as Hc.
  { unfold limit, cal_mtu_ceiling. change (failed_size (new true max v6)) with 0. cbn [Z.ltb Z.compare]. zcase; lia. }
  change (current_size (new true max v6)) with 1200 in *.
  split; rewrite ?Hc; cbn; try (unfold limit, MAX_PROBE_COUNT in *; lia); try done.
  { unfold DEFAULT_SEND_UDP_PAYLOAD_SIZE, limit in *. lia. }
  intros _. rewrite (finish_spec peer (limit peer max v6)) by (rewrite ?Hc; cbn; unfold limit, DEFAULT_SEND_UDP_PAYLOAD_SIZE in *; lia).
  rewrite Hc. change (current_size (new true max v6)) with 1200. destruct (Z.le_gt_cases 1500 (limit peer max v6)); [left; apply Z.leb_gt; lia|right; lia].
Qed.

(** C21.  On a path that carries datagrams up to [mtu] bytes and no larger ones, the
    search ends, without panic and after a bounded number of probes, at a size the
    path carries and both endpoints allow; a larger size is missed by at most one
    per cent: either of the limit, or of a size the path does not carry. *)
Theorem pmtu_search_correct peer mtu max v6 :
  1200 <= peer -> 1200 <= mtu -> 1200 <= max -> limit peer max v6 <= 2 ^ 40 ->
  exists d n, search peer mtu (Z.to_nat (4 * limit peer max v6)) (new true max v6) = Ok (d, n) /\
    Z.of_nat n <= 8 + 4 * (limit peer max v6 - 1200) /\
    1200 <= current_size d <= Z.min mtu (limit peer max v6) /\
    (99 * limit peer max v6 <= 100 * current_size d \/
     exists failed, mtu < failed /\ 99 * failed <= 100 * current_size d).
Proof.
  intros Hp Hm Hx Ht. pose proof (new_searching peer mtu max v6 Hp Hm Hx Ht) as Hs.
  assert (1200 <= limit peer max v6) by (destruct Hs as [[? ?] ? ? ? ? ? ?]; cbn in *; lia).
  assert (left peer (new true max v6) <= 8 + 4 * (limit peer max v6 - 1200)) as Hl.
  { destruct Hs as [_ Hc _ _ _ _ _]. unfold left, MAX_PROBE_COUNT. cbn [should_probe new current_size probe_count failed_size].
    change (0 =? 0) with true. unfold new, DEFAULT_SEND_UDP_PAYLOAD_SIZE in *. lia. }
  destruct (search_ends peer mtu (limit peer max v6) Hm Ht (Z.to_nat (4 * limit peer max v6)) (new true max v6) Hs) as (d & n & E & Hd & Hsp & Hn & Hx'); [lia|].
  exists d, n. split; [done|]. pose proof Hd as [[Hc Hcc] Hct Hf _ _ Hdone _]. specialize (Hdone Hsp).
  rewrite (finish_spec peer (limit peer max v6)) in Hdone by lia. apply Z.leb_le in Hdone. split; [lia|]. split; [lia|].
  unfold cal_mtu_ceiling in Hdone. destruct (Z.ltb_spec 0 (failed_size d)).
  - destruct (Z.ltb_spec peer (failed_size d)); [left; unfold limit in *; lia|right; exists (failed_size d); lia].
  - left. rewrite Hx' in Hdone. unfold limit. destruct (Z.ltb_spec peer (max_pmtu (new true max v6))); lia.
Qed.

Lemma pmtu_search_correct_witness :
  exists d n, search 65527 1400 (Z.to_nat (4 * 1472)) (new true 1200 false) = Ok (d, n) /\
    1200 <= current_size d <= 1400 /\ current_size d = 1395.
Proof.
  destruct (pmtu_search_correct 65527 1400 1200 false) as (d & n & E & _ & Hc & _); [lia..|by vm_compute|].
  change (limit 65527 1200 false) with 1472 in *. exists d, n. split; [exact E|]. split; [lia|].
  vm_compute in E. injection E as <- _. reflexivity.
Defined.
