(* ===== verification/Path.v ===== *)
(** * Paths

    Models [src/src/connection/path.rs]: a network path with its validation, its
    limit before the peer's address is verified, its loss recovery and its MTU
    discovery, and the map of the paths of a connection.  Over any congestion
    controller.  Trace ids and the application's peer context are left out; the
    clock is an argument.

    The map stores its paths in a [slab::Slab], which chooses the key of a new
    entry; here the key is an argument of the operations that insert, and what
    they rely on is that the key was vacant.  Iteration goes by key. *)

From S2P Require Import Prelude.
From S2P Require Import Error.
From S2P Require Import Time.
From S2P Require Import Btree.
From S2P Require Import Packet.
From S2P Require Import Rtt.
From S2P Require Import Space.
From S2P Require Import Congestion.
From S2P Require Import Recovery.
From S2P Require Import Pmtu.
From S2P Require Import TransParam.

Definition INITIAL_CHAL_TIMEOUT : Z := 25.
Definition MAX_PROBING_TIMEOUTS : Z := 8.
Definition MAX_PATH_CHALS_RECV : Z := 8.
Definition MIN_PATH_PROBE_SIZE : Z := 64.
Definition MIN_CLIENT_INITIAL_LEN : Z := 1200.

Inductive SocketAddr := AddrV4 (a : SocketAddrV4) | AddrV6 (a : SocketAddrV6).

#[global] Instance socket_addr_eq_dec : EqDecision SocketAddr.
Proof. solve_decision. Defined.

Inductive PathState := Failed | Unknown | Validating | ValidatingMTU | Validated.

#[global] Instance path_state_eq_dec : EqDecision PathState.
Proof. solve_decision. Defined.

(** The derived order of the states. *)
Definition rank (s : PathState) : Z :=
  match s with Failed => 0 | Unknown => 1 | Validating => 2 | ValidatingMTU => 3 | Validated => 4 end.

(** A pending challenge: its data, the size of the packet with it, when it was
    sent and when it counts as lost. *)
Record Challenge := mkChal { ch_data : list Z; ch_size : Z; ch_sent : Instant; ch_loss : Instant }.

Module Path.

Section Path.
Context {C : Type} `{CongestionController C}.

Record Path := mkPath {
  local_addr : SocketAddr;
  remote_addr : SocketAddr;
  scid_seq : option Z;
  dcid_seq : option Z;
  active_ : bool;
  recovery : @Recovery.Recovery C;
  state : PathState;
  recv_chals : list (list Z);
  sent_chals : list Challenge;
  need_send_challenge : bool;
  lost_chal : Z;
  max_challenge_size : Z;
  verified_peer_address : bool;
  peer_verified_local_address : bool;
  anti_ampl_limit : Z;
  dplpmtud : Dplpmtud.Dplpmtud;
  need_send_ping : bool;
  space_id : SpaceId;
  is_abandon : bool;
  last_recv_time : Instant;
}.

Definition with_active_ (x : bool) (p : Path) : Path :=
  mkPath (local_addr p) (remote_addr p) (scid_seq p) (dcid_seq p) x (recovery p) (state p) (recv_chals p) (sent_chals
    p) (need_send_challenge p) (lost_chal p) (max_challenge_size p) (verified_peer_address p)
    (peer_verified_local_address p) (anti_ampl_limit p) (dplpmtud p) (need_send_ping p) (space_id p) (is_abandon p)
    (last_recv_time p).
Definition with_recovery (x : @Recovery.Recovery C) (p : Path) : Path :=
  mkPath (local_addr p) (remote_addr p) (scid_seq p) (dcid_seq p) (active_ p) x (state p) (recv_chals p) (sent_chals
    p) (need_send_challenge p) (lost_chal p) (max_challenge_size p) (verified_peer_address p)
    (peer_verified_local_address p) (anti_ampl_limit p) (dplpmtud p) (need_send_ping p) (space_id p) (is_abandon p)
    (last_recv_time p).
Definition with_state (x : PathState) (p : Path) : Path :=
  mkPath (local_addr p) (remote_addr p) (scid_seq p) (dcid_seq p) (active_ p) (recovery p) x (recv_chals p)
    (sent_chals p) (need_send_challenge p) (lost_chal p) (max_challenge_size p) (verified_peer_address p)
    (peer_verified_local_address p) (anti_ampl_limit p) (dplpmtud p) (need_send_ping p) (space_id p) (is_abandon p)
    (last_recv_time p).
Definition with_recv_chals (x : list (list Z)) (p : Path) : Path :=
  mkPath (local_addr p) (remote_addr p) (scid_seq p) (dcid_seq p) (active_ p) (recovery p) (state p) x (sent_chals p)
    (need_send_challenge p) (lost_chal p) (max_challenge_size p) (verified_peer_address p)
    (peer_verified_local_address p) (anti_ampl_limit p) (dplpmtud p) (need_send_ping p) (space_id p) (is_abandon p)
    (last_recv_time p).
Definition with_sent_chals (x : list Challenge) (p : Path) : Path :=
  mkPath (local_addr p) (remote_addr p) (scid_seq p) (dcid_seq p) (active_ p) (recovery p) (state p) (recv_chals p) x
    (need_send_challenge p) (lost_chal p) (max_challenge_size p) (verified_peer_address p)
    (peer_verified_local_address p) (anti_ampl_limit p) (dplpmtud p) (need_send_ping p) (space_id p) (is_abandon p)
    (last_recv_time p).
Definition with_need_send_challenge (x : bool) (p : Path) : Path :=
  mkPath (local_addr p) (remote_addr p) (scid_seq p) (dcid_seq p) (active_ p) (recovery p) (state p) (recv_chals p)
    (sent_chals p) x (lost_chal p) (max_challenge_size p) (verified_peer_address p) (peer_verified_local_address p)
    (anti_ampl_limit p) (dplpmtud p) (need_send_ping p) (space_id p) (is_abandon p) (last_recv_time p).
Definition with_lost_chal (x : Z) (p : Path) : Path :=
  mkPath (local_addr p) (remote_addr p) (scid_seq p) (dcid_seq p) (active_ p) (recovery p) (state p) (recv_chals p)
    (sent_chals p) (need_send_challenge p) x (max_challenge_size p) (verified_peer_address p)
    (peer_verified_local_address p) (anti_ampl_limit p) (dplpmtud p) (need_send_ping p) (space_id p) (is_abandon p)
    (last_recv_time p).
Definition with_max_challenge_size (x : Z) (p : Path) : Path :=
  mkPath (local_addr p) (remote_addr p) (scid_seq p) (dcid_seq p) (active_ p) (recovery p) (state p) (recv_chals p)
    (sent_chals p) (need_send_challenge p) (lost_chal p) x (verified_peer_address p) (peer_verified_local_address p)
    (anti_ampl_limit p) (dplpmtud p) (need_send_ping p) (space_id p) (is_abandon p) (last_recv_time p).
Definition with_verified_peer_address (x : bool) (p : Path) : Path :=
  mkPath (local_addr p) (remote_addr p) (scid_seq p) (dcid_seq p) (active_ p) (recovery p) (state p) (recv_chals p)
    (sent_chals p) (need_send_challenge p) (lost_chal p) (max_challenge_size p) x (peer_verified_local_address p)
    (anti_ampl_limit p) (dplpmtud p) (need_send_ping p) (space_id p) (is_abandon p) (last_recv_time p).
Definition with_peer_verified_local_address (x : bool) (p : Path) : Path :=
  mkPath (local_addr p) (remote_addr p) (scid_seq p) (dcid_seq p) (active_ p) (recovery p) (state p) (recv_chals p)
    (sent_chals p) (need_send_challenge p) (lost_chal p) (max_challenge_size p) (verified_peer_address p) x
    (anti_ampl_limit p) (dplpmtud p) (need_send_ping p) (space_id p) (is_abandon p) (last_recv_time p).
Definition with_anti_ampl_limit (x : Z) (p : Path) : Path :=
  mkPath (local_addr p) (remote_addr p) (scid_seq p) (dcid_seq p) (active_ p) (recovery p) (state p) (recv_chals p)
    (sent_chals p) (need_send_challenge p) (lost_chal p) (max_challenge_size p) (verified_peer_address p)
    (peer_verified_local_address p) x (dplpmtud p) (need_send_ping p) (space_id p) (is_abandon p) (last_recv_time p).
Definition with_need_send_ping (x : bool) (p : Path) : Path :=
  mkPath (local_addr p) (remote_addr p) (scid_seq p) (dcid_seq p) (active_ p) (recovery p) (state p) (recv_chals p)
    (sent_chals p) (need_send_challenge p) (lost_chal p) (max_challenge_size p) (verified_peer_address p)
    (peer_verified_local_address p) (anti_ampl_limit p) (dplpmtud p) x (space_id p) (is_abandon p) (last_recv_time p).
Definition with_is_abandon (x : bool) (p : Path) : Path :=
  mkPath (local_addr p) (remote_addr p) (scid_seq p) (dcid_seq p) (active_ p) (recovery p) (state p) (recv_chals p)
    (sent_chals p) (need_send_challenge p) (lost_chal p) (max_challenge_size p) (verified_peer_address p)
    (peer_verified_local_address p) (anti_ampl_limit p) (dplpmtud p) (need_send_ping p) (space_id p) x
    (last_recv_time p).
Definition with_scid_seq (x : option Z) (p : Path) : Path :=
  mkPath (local_addr p) (remote_addr p) x (dcid_seq p) (active_ p) (recovery p) (state p) (recv_chals p) (sent_chals
    p) (need_send_challenge p) (lost_chal p) (max_challenge_size p) (verified_peer_address p)
    (peer_verified_local_address p) (anti_ampl_limit p) (dplpmtud p) (need_send_ping p) (space_id p) (is_abandon p)
    (last_recv_time p).
Definition with_dcid_seq (x : option Z) (p : Path) : Path :=
  mkPath (local_addr p) (remote_addr p) (scid_seq p) x (active_ p) (recovery p) (state p) (recv_chals p) (sent_chals
    p) (need_send_challenge p) (lost_chal p) (max_challenge_size p) (verified_peer_address p)
    (peer_verified_local_address p) (anti_ampl_limit p) (dplpmtud p) (need_send_ping p) (space_id p) (is_abandon p)
    (last_recv_time p).
Definition with_dplpmtud (x : Dplpmtud.Dplpmtud) (p : Path) : Path :=
  mkPath (local_addr p) (remote_addr p) (scid_seq p) (dcid_seq p) (active_ p) (recovery p) (state p) (recv_chals p)
    (sent_chals p) (need_send_challenge p) (lost_chal p) (max_challenge_size p) (verified_peer_address p)
    (peer_verified_local_address p) (anti_ampl_limit p) x (need_send_ping p) (space_id p) (is_abandon p)
    (last_recv_time p).
Definition with_space_id (x : SpaceId) (p : Path) : Path :=
  mkPath (local_addr p) (remote_addr p) (scid_seq p) (dcid_seq p) (active_ p) (recovery p) (state p) (recv_chals p)
    (sent_chals p) (need_send_challenge p) (lost_chal p) (max_challenge_size p) (verified_peer_address p)
    (peer_verified_local_address p) (anti_ampl_limit p) (dplpmtud p) (need_send_ping p) x (is_abandon p)
    (last_recv_time p).
Definition with_last_recv_time (x : Instant) (p : Path) : Path :=
  mkPath (local_addr p) (remote_addr p) (scid_seq p) (dcid_seq p) (active_ p) (recovery p) (state p) (recv_chals p)
    (sent_chals p) (need_send_challenge p) (lost_chal p) (max_challenge_size p) (verified_peer_address p)
    (peer_verified_local_address p) (anti_ampl_limit p) (dplpmtud p) (need_send_ping p) (space_id p) (is_abandon p) x.

(** A pure IPv6 address, not an IPv4-mapped one. *)
Definition is_ipv6 (addr : SocketAddr) : bool :=
  match addr with
  | AddrV4 _ => false
  | AddrV6 (ip, _, _, _) => negb (bool_decide (ztake 12 ip = repeat 0 10 ++ [255; 255]))
  end.

Definition new (local remote : SocketAddr) (is_initial : bool) (conf : RecoveryConfig) (cc : C) (now : Instant) : res Path :=
  let '(st, scid, dcid) :=
    if is_initial then (Validated, Some 0, Some 0) else (Unknown, None, None) in
  r ← Recovery.new conf cc now;
  mret (mkPath local remote scid dcid false r st [] [] false 0 0 false false 0
    (Dplpmtud.new (conf_enable_dplpmtud conf) (conf_max_datagram_size conf) (is_ipv6 remote)) false SpaceData false now).

Definition promote_to (s : PathState) (p : Path) : Path :=
  if rank (state p) <? rank s then with_state s p else p.

Definition validated (p : Path) : bool := bool_decide (state p = Validated).
Definition active (p : Path) : bool := active_ p && bool_decide (is_Some (dcid_seq p)).
Definition unused (p : Path) : bool := negb (active_ p) && bool_decide (dcid_seq p = None).

Definition on_path_chal_received (data : list Z) (p : Path) : Path :=
  let p := if MAX_PATH_CHALS_RECV <=? len (recv_chals p) then with_recv_chals (tail (recv_chals p)) p else p in
  let p := with_recv_chals (recv_chals p ++ [data]) p in
  with_peer_verified_local_address true p.

(** The challenges that match a response: the size of the last one, and the
    initial round trip time each of them suggests. *)
Fixpoint match_chals (data : list Z) (now : Instant) (cs : list Challenge) (size : Z) (r : RttEstimator.RttEstimator)
  : list Challenge * Z * RttEstimator.RttEstimator :=
  match cs with
  | [] => ([], size, r)
  | c :: cs =>
      if decide (ch_data c = data) then
        match_chals data now cs (ch_size c) (RttEstimator.try_set_init_rtt (since now (ch_sent c)) r)
      else
        let '(cs, size, r) := match_chals data now cs size r in (c :: cs, size, r)
  end.

(** The address is reachable; the MTU is not checked yet. *)
Definition absorb_response (data : list Z) (now : Instant) (p : Path) : Path :=
  let p := with_lost_chal 0 (with_verified_peer_address true p) in
  let '(cs, size, r) := match_chals data now (sent_chals p) 0 (Recovery.rtt (recovery p)) in
  let p := with_recovery (Recovery.with_rtt r (recovery p)) (with_sent_chals cs p) in
  let p := with_max_challenge_size (Z.max (max_challenge_size p) size) p in
  promote_to ValidatingMTU p.

Definition on_path_resp_received (data : list Z) (multipath : bool) (now : Instant) (p : Path) : bool * Path :=
  if decide (state p = Validated) then (false, p)
  else
    let p := absorb_response data now p in
    if MIN_CLIENT_INITIAL_LEN <=? max_challenge_size p then
      (true, with_sent_chals [] (with_active_ multipath (promote_to Validated p)))
    else (false, with_need_send_challenge true p).

Definition pop_recv_chal (p : Path) : option (list Z) * Path :=
  (head (recv_chals p), with_recv_chals (tail (recv_chals p)) p).

Definition initiate_path_chal (p : Path) : Path := with_need_send_challenge true p.

(** A shift by 64 or more panics. *)
Definition on_path_chal_sent (data : list Z) (pkt_size : Z) (sent_time : Instant) (p : Path) : res Path :=
  let p := with_need_send_challenge false (promote_to Validating p) in
  if lost_chal p <? 64 then
    let loss_time := sent_time + from_millis (wrap 64 (Z.shiftl INITIAL_CHAL_TIMEOUT (lost_chal p))) in
    Ok (with_sent_chals (sent_chals p ++ [mkChal data pkt_size sent_time loss_time]) p)
  else Panic.

Fixpoint timeout_loop (now : Instant) (cs : list Challenge) (p : Path) : Path :=
  match cs with
  | [] => with_sent_chals [] p
  | c :: cs' =>
      if now <? ch_loss c then with_sent_chals cs p
      else
        let p := with_lost_chal (lost_chal p + 1) p in
        if lost_chal p <? MAX_PROBING_TIMEOUTS then timeout_loop now cs' (initiate_path_chal p)
        else with_sent_chals [] (with_active_ false (with_state Failed p))
  end.

Definition on_path_chal_timeout (now : Instant) (p : Path) : Path :=
  if decide (state p <> Validating /\ state p <> ValidatingMTU) then p
  else timeout_loop now (sent_chals p) p.

Definition need_send_validation_frames (is_server : bool) (p : Path) : bool :=
  if is_server && (anti_ampl_limit p <? MIN_PATH_PROBE_SIZE) then false
  else need_send_challenge p || negb (bool_decide (recv_chals p = [])).

Definition need_expand_padding_frames (is_server : bool) (p : Path) : bool :=
  if validated p then false
  else if is_server && (anti_ampl_limit p <=? Recovery.max_datagram_size (recovery p)) then false
  else true.

Definition path_stats (p : Path) : PathStats * Path :=
  let p := with_recovery (Recovery.stat_lazy_update (recovery p)) p in
  (Recovery.stats (recovery p), p).

End Path.

End Path.

Module PathMap.

Section PathMap.
Context {C : Type} `{CongestionController C}.

Abbreviation path := (@Path.Path C).

Record PathMap := mkPaths {
  paths : list (Z * path);
  max_paths : Z;
  addrs : list ((SocketAddr * SocketAddr) * Z);
  anti_ampl_factor : Z;
  is_multipath : bool;
  is_server : bool;
}.

Definition with_paths (x : list (Z * path)) (m : PathMap) : PathMap :=
  mkPaths x (max_paths m) (addrs m) (anti_ampl_factor m) (is_multipath m) (is_server m).
Definition with_addrs (x : list ((SocketAddr * SocketAddr) * Z)) (m : PathMap) : PathMap :=
  mkPaths (paths m) (max_paths m) x (anti_ampl_factor m) (is_multipath m) (is_server m).
Definition with_is_multipath (x : bool) (m : PathMap) : PathMap :=
  mkPaths (paths m) (max_paths m) (addrs m) (anti_ampl_factor m) x (is_server m).

(** The map from address pairs to path ids; only looked up by key. *)
Fixpoint addr_get (a : SocketAddr * SocketAddr) (l : list ((SocketAddr * SocketAddr) * Z)) : option Z :=
  match l with
  | [] => None
  | (b, pid) :: l => if decide (a = b) then Some pid else addr_get a l
  end.
Definition addr_remove (a : SocketAddr * SocketAddr) (l : list ((SocketAddr * SocketAddr) * Z)) :=
  List.filter (fun e => negb (bool_decide (a = e.1))) l.
Definition addr_insert (a : SocketAddr * SocketAddr) (pid : Z) (l : list ((SocketAddr * SocketAddr) * Z)) :=
  (a, pid) :: addr_remove a l.

Definition addr_of (p : path) : SocketAddr * SocketAddr := (Path.local_addr p, Path.remote_addr p).

Definition new (initial_path : path) (max_paths anti_ampl_factor : Z) (is_server : bool) (slot : Z) : PathMap :=
  let p := Path.with_active_ true initial_path in
  mkPaths (Btree.insert slot p []) max_paths (addr_insert (addr_of p) slot []) anti_ampl_factor false is_server.

Definition get (pid : Z) (m : PathMap) : res path := ok_or InternalError (Btree.get pid (paths m)).

(** Change the path [pid] in place. *)
Definition update (pid : Z) (f : path -> path) (m : PathMap) : PathMap :=
  with_paths (map (fun e => if e.1 =? pid then (e.1, f e.2) else e) (paths m)) m.
Definition update_all (f : path -> path) (m : PathMap) : PathMap :=
  with_paths (map (fun e => (e.1, f e.2)) (paths m)) m.

Definition get_path_id (a : SocketAddr * SocketAddr) (m : PathMap) : option Z := addr_get a (addrs m).

Definition get_active_with_path_id (m : PathMap) : res (Z * path) :=
  ok_or InternalError (List.find (fun e => Path.active_ e.2) (paths m)).

(** The path to give up for a new one: an abandoned one, else an unused or failed
    one. *)
Definition victim (m : PathMap) : option (Z * path) :=
  match List.find (fun e => Path.is_abandon e.2) (paths m) with
  | Some e => Some e
  | None => List.find (fun e => Path.unused e.2 || bool_decide (Path.state e.2 = Failed)) (paths m)
  end.

Definition insert_path (p : path) (slot : Z) (m : PathMap) : res (Z * PathMap) :=
  m ← (if max_paths m <=? len (paths m) then
         e ← ok_or Done (victim m);
         let m := with_paths (Btree.remove e.1 (paths m)) m in
         mret (with_addrs (addr_remove (addr_of e.2) (addrs m)) m)
       else Ok m);
  let m := with_paths (Btree.insert slot p (paths m)) m in
  mret (slot, with_addrs (addr_insert (addr_of p) slot (addrs m)) m).

Definition on_path_chal_received (pid : Z) (data : list Z) (m : PathMap) : PathMap :=
  update pid (Path.on_path_chal_received data) m.

Definition on_path_resp_received (pid : Z) (data : list Z) (now : Instant) (m : PathMap) : bool * PathMap :=
  match Btree.get pid (paths m) with
  | Some p =>
      let '(b, p) := Path.on_path_resp_received data (is_multipath m) now p in
      (b, update pid (fun _ => p) m)
  | None => (false, m)
  end.

Definition on_path_chal_sent (pid : Z) (data : list Z) (pkt_size : Z) (sent_time : Instant) (m : PathMap) : res PathMap :=
  p ← get pid m;
  p ← Path.on_path_chal_sent data pkt_size sent_time p;
  mret (update pid (fun _ => p) m).

Definition on_path_chal_timeout (now : Instant) (m : PathMap) : PathMap := update_all (Path.on_path_chal_timeout now) m.

(** The least of some times. *)
Definition min_time (l : list Instant) : option Instant :=
  foldr (fun t o => match o with Some t' => Some (Z.min t t') | None => Some t end) None l.

Definition min_loss_detection_timer (m : PathMap) : option Instant :=
  min_time (omap (fun e => Recovery.loss_detection_timer (Path.recovery e.2)) (paths m)).
Definition min_pacer_timer (m : PathMap) : option Instant :=
  min_time (omap (fun e => Recovery.pacer_timer (Path.recovery e.2)) (paths m)).
Definition min_path_chal_timer (m : PathMap) : option Instant :=
  min_time (omap (fun e => ch_loss <$> head (Path.sent_chals e.2)) (paths m)).

Definition max_pto (m : PathMap) : res (option Duration) :=
  foldl (fun acc e =>
    o ← acc;
    d ← RttEstimator.pto_base (Recovery.rtt (Path.recovery e.2));
    mret (Some (match o with Some d' => Z.max d' d | None => d end))) (Ok None) (paths m).

Definition inc_anti_ampl_limit (pid pkt_len : Z) (m : PathMap) : PathMap :=
  if negb (is_server m) then m
  else update pid (fun p =>
    if negb (Path.verified_peer_address p)
    then Path.with_anti_ampl_limit (sat_add64 (Path.anti_ampl_limit p) (Z.min (anti_ampl_factor m * pkt_len) U64_MAX)) p
    else p) m.

Definition dec_anti_ampl_limit (pid pkt_len : Z) (m : PathMap) : PathMap :=
  if negb (is_server m) then m
  else update pid (fun p =>
    if negb (Path.verified_peer_address p)
    then Path.with_anti_ampl_limit (sat_sub (Path.anti_ampl_limit p) pkt_len) p
    else p) m.

Definition cmp_anti_ampl_limit (pid left : Z) (m : PathMap) : Z :=
  if negb (is_server m) then left
  else match Btree.get pid (paths m) with
       | Some p => if negb (Path.verified_peer_address p) then Z.min left (Path.anti_ampl_limit p) else left
       | None => left
       end.

Definition mark_ping (path_addr : option (SocketAddr * SocketAddr)) (m : PathMap) : res PathMap :=
  if negb (is_multipath m) then
    e ← get_active_with_path_id m;
    mret (update e.1 (Path.with_need_send_ping true) m)
  else
    match path_addr with
    | Some a =>
        match get_path_id a m with
        | Some pid => _ ← get pid m; mret (update pid (Path.with_need_send_ping true) m)
        | None => Ok m
        end
    | None => Ok (update_all (fun p => if Path.active p then Path.with_need_send_ping true p else p) m)
    end.

(** A path that has not received anything for longer than the timeout. *)
Definition stale (now : Instant) (timeout : Duration) (p : path) : bool :=
  negb (Path.active_ p || Path.is_abandon p) && (timeout <? since now (Path.last_recv_time p)).

Definition abandon_stale_paths (now : Instant) (timeout_ms : Z) (m : PathMap) : Z * PathMap :=
  if timeout_ms =? 0 then (0, m)
  else
    let st := stale now (from_millis timeout_ms) in
    (len (List.filter (fun e => st e.2) (paths m)),
     update_all (fun p => if st p then Path.with_active_ false (Path.with_is_abandon true p) else p) m).

Definition enable_multipath (m : PathMap) : PathMap := with_is_multipath true m.

End PathMap.

End PathMap.
