(* ===== verification/PathProps.v ===== *)
(** * Properties of paths

    A server sends to an address it has not verified at most a fixed multiple of
    what it received from there; a path counts as validated only after a response
    to a challenge that was sent in a full-sized datagram; and the map of paths
    and the map of their addresses stay in step. *)

From S2P Require Import Prelude.
From S2P Require Import Error.
From S2P Require Import Time.
From S2P Require Import Btree.
From S2P Require Import Packet.
From S2P Require Import Rtt.
From S2P Require Import Space.
From S2P Require Import Congestion.
From S2P Require Import Recovery.
From S2P Require Import Path.

(** ** The validation of a path *)

Section Validation.
Context {C : Type} `{CongestionController C}.
Abbreviation path := (@Path.Path C).

(** What happens to a path. *)
Inductive path_event :=
| ChalIn (data : list Z)
| ChalPopped
| RespIn (data : list Z) (multipath : bool) (now : Instant)
| ChalDue
| ChalOut (data : list Z) (size : Z) (now : Instant)
| ChalTimeout (now : Instant)
| SetActive (b : bool).

Definition path_step (e : path_event) (p : path) : res path :=
  match e with
  | ChalIn data => Ok (Path.on_path_chal_received data p)
  | ChalPopped => Ok (Path.pop_recv_chal p).2
  | RespIn data multipath now => Ok (Path.on_path_resp_received data multipath now p).2
  | ChalDue => Ok (Path.initiate_path_chal p)
  | ChalOut data size now => Path.on_path_chal_sent data size now p
  | ChalTimeout now => Ok (Path.on_path_chal_timeout now p)
  | SetActive b => Ok (Path.with_active_ b p)
  end.

Fixpoint path_run (evs : list path_event) (p : path) : res path :=
  match evs with
  | [] => Ok p
  | e :: evs => p ← path_step e p; path_run evs p
  end.

(** A challenge in a datagram of at least [MIN_CLIENT_INITIAL_LEN] bytes went out
    and a response with the same data came in later. *)
Definition answered (h : list path_event) : Prop :=
  exists h1 h2 h3 data size sent multipath now,
    h = h1 ++ ChalOut data size sent :: h2 ++ RespIn data multipath now :: h3 /\ MIN_CLIENT_INITIAL_LEN <= size.

Definition was_sent (h : list path_event) (c : Challenge) : Prop :=
  exists sent, ChalOut (ch_data c) (ch_size c) sent ∈ h.

Record justified (h : list path_event) (p : path) : Prop := {
  ju_sent : Forall (was_sent h) (Path.sent_chals p);
  ju_size : MIN_CLIENT_INITIAL_LEN <= Path.max_challenge_size p -> answered h;
  ju_state : Path.state p = Validated -> answered h;
}.

Lemma answered_more h e : answered h -> answered (h ++ [e]).
Proof.
  intros (h1 & h2 & h3 & data & size & sent & mp & now & -> & Hs).
  exists h1, h2, (h3 ++ [e]), data, size, sent, mp, now. split; [|done]. by rewrite <- !app_assoc, <- !app_comm_cons, <- app_assoc.
Qed.

Lemma was_sent_more h e cs : Forall (was_sent h) cs -> Forall (was_sent (h ++ [e])) cs.
Proof. intros Hc. eapply Forall_impl; [done|]. intros c [t Ht]. exists t. apply elem_of_app. by left. Qed.

(** The size reported for a response is 0 or that of a matching challenge. *)
Lemma match_chals_spec data now cs size r cs' size' r' :
  Path.match_chals data now cs size r = (cs', size', r') ->
  (forall c, c ∈ cs' -> c ∈ cs) /\ (size' = size \/ exists c, c ∈ cs /\ ch_data c = data /\ ch_size c = size').
Proof.
  revert cs' size' r' size r. induction cs as [|c cs IH]; intros cs' size' r' size r; cbn.
  - intros [= <- <- <-]. split; [done|by left].
  - destruct (decide (ch_data c = data)) as [Hd|Hd].
    + intros E. destruct (IH _ _ _ _ _ E) as [H1 H2]. split; [intros x Hx; right; auto|].
      right. destruct H2 as [->|(x & Hx & ?)]; [exists c|exists x]; (split; [by constructor|done]).
    + destruct (Path.match_chals data now cs size r) as [[cs1 size1] r1] eqn:E. intros [= <- <- <-].
      destruct (IH _ _ _ _ _ E) as [H1 H2]. split.
      * intros x [->|Hx]%elem_of_cons; [by left|right; auto].
      * destruct H2 as [->|(x & Hx & ?)]; [by left|right; exists x; split; [by right|done]].
Qed.

Lemma promote_chals s (p : path) : Path.sent_chals (Path.promote_to s p) = Path.sent_chals p /\
  Path.max_challenge_size (Path.promote_to s p) = Path.max_challenge_size p /\
  Path.lost_chal (Path.promote_to s p) = Path.lost_chal p /\
  (Path.state (Path.promote_to s p) = Path.state p \/ Path.state (Path.promote_to s p) = s).
Proof. unfold Path.promote_to. destruct (_ <? _); cbn; auto. Qed.

Lemma justified_more h e (p q : path) : justified h p ->
  (forall c, c ∈ Path.sent_chals q -> c ∈ Path.sent_chals p) ->
  (MIN_CLIENT_INITIAL_LEN <= Path.max_challenge_size q -> MIN_CLIENT_INITIAL_LEN <= Path.max_challenge_size p \/ answered (h ++ [e])) ->
  (Path.state q = Validated -> Path.state p = Validated \/ answered (h ++ [e])) ->
  justified (h ++ [e]) q.
Proof.
  intros [H1 H2 H3] Hc Hm Hs. split.
  - apply was_sent_more. rewrite Forall_forall in H1 |- *. auto.
  - intros E. destruct (Hm E); [apply answered_more|]; auto.
  - intros E. destruct (Hs E); [apply answered_more|]; auto.
Qed.

Lemma absorb_spec data now (p : path) :
  let q := Path.absorb_response data now p in
  Path.verified_peer_address q = true /\ Path.anti_ampl_limit q = Path.anti_ampl_limit p /\
  (Path.state q = Path.state p \/ Path.state q = ValidatingMTU) /\
  exists cs size r, Path.match_chals data now (Path.sent_chals p) 0 (Recovery.rtt (Path.recovery p)) = (cs, size, r) /\
    Path.sent_chals q = cs /\ Path.max_challenge_size q = Z.max (Path.max_challenge_size p) size.
Proof.
  unfold Path.absorb_response. cbn [Path.sent_chals Path.recovery Path.with_lost_chal Path.with_verified_peer_address].
  destruct (Path.match_chals _ _ _ _ _) as [[cs size] r]. unfold Path.promote_to.
  destruct (_ <? _); cbn; split_and!; auto; by exists cs, size, r.
Qed.

Lemma justified_resp h data multipath now (p : path) : justified h p ->
  justified (h ++ [RespIn data multipath now]) (Path.on_path_resp_received data multipath now p).2.
Proof.
  intros Hj. unfold Path.on_path_resp_received. destruct (decide (Path.state p = Validated)) as [Hv|Hv].
  { by apply (justified_more _ _ p); auto. }
  destruct (absorb_spec data now p) as (_ & _ & P4 & cs & size & r & E & P1 & P2).
  destruct (match_chals_spec _ _ _ _ _ _ _ _ E) as [Hcs Hsize]. set (p1 := Path.absorb_response data now p) in *.
  assert (MIN_CLIENT_INITIAL_LEN <= Path.max_challenge_size p1 ->
    MIN_CLIENT_INITIAL_LEN <= Path.max_challenge_size p \/ answered (h ++ [RespIn data multipath now])) as Hans.
  { rewrite P2. intros Hm. destruct (Z.le_gt_cases MIN_CLIENT_INITIAL_LEN (Path.max_challenge_size p)); [by left|right].
    destruct Hsize as [->|(c & Hc & <- & <-)]; [unfold MIN_CLIENT_INITIAL_LEN in *; lia|].
    destruct Hj as [H1 _ _]. rewrite Forall_forall in H1. destruct (H1 c Hc) as [t Ht].
    apply list_elem_of_split in Ht as (h1 & h2 & ->). exists h1, h2, [], (ch_data c), (ch_size c), t, multipath, now.
    split; [by rewrite <- app_assoc|lia]. }
  clearbody p1. destruct (Z.leb_spec MIN_CLIENT_INITIAL_LEN (Path.max_challenge_size p1)) as [Hb|Hb]; cbn [snd].
  - apply (justified_more _ _ p); [done| | |]; cbn.
    + intros c Hc. by apply elem_of_nil in Hc.
    + by destruct (promote_chals Validated p1) as (_ & -> & _ & _).
    + intros _. destruct (Hans Hb) as [Hold|]; [|by right]. right. apply answered_more. by apply Hj.
  - apply (justified_more _ _ p); [done| | |]; cbn.
    + by rewrite P1.
    + done.
    + intros Hs. destruct P4 as [P4|P4]; rewrite P4 in Hs; [by left|done].
Qed.

Lemma timeout_spec now cs (p : path) : 
  (forall c, c ∈ Path.sent_chals (Path.timeout_loop now cs p) -> c ∈ cs) /\
  Path.max_challenge_size (Path.timeout_loop now cs p) = Path.max_challenge_size p /\
  (Path.state (Path.timeout_loop now cs p) = Path.state p \/ Path.state (Path.timeout_loop now cs p) = Failed).
Proof.
  revert p. induction cs as [|c cs IH]; intros p; cbn [Path.timeout_loop].
  - cbn. auto.
  - destruct (now <? ch_loss c); [cbn; auto|]. destruct (_ <? MAX_PROBING_TIMEOUTS).
    + destruct (IH (Path.initiate_path_chal (Path.with_lost_chal (Path.lost_chal p + 1) p))) as (I1 & I2 & I3).
      split_and!; [intros x Hx; right; auto|done|done].
    + cbn. split_and!; [|done|auto]. intros x Hx. by apply elem_of_nil in Hx.
Qed.

Lemma justified_step h e (p q : path) : justified h p -> path_step e p = Ok q -> justified (h ++ [e]) q.
Proof.
  intros Hj. destruct e as [data| |data mp now| |data size now|now|b]; cbn [path_step].
  - intros [= <-]. unfold Path.on_path_chal_received. apply (justified_more _ _ p); [done|..]; destruct (_ <=? _); cbn; auto.
  - intros [= <-]. apply (justified_more _ _ p); cbn; auto.
  - intros [= <-]. by apply justified_resp.
  - intros [= <-]. apply (justified_more _ _ p); cbn; auto.
  - unfold Path.on_path_chal_sent. cbn. destruct (promote_chals Validating p) as (P1 & P2 & P3 & P4). destruct (_ <? 64); [|done].
    intros [= <-]. destruct Hj as [H1 H2 H3]. split; cbn.
    + rewrite P1. apply Forall_app. split; [by apply was_sent_more|]. apply Forall_cons; split; [|apply Forall_nil_2].
      exists now. apply elem_of_app. right. by constructor.
    + rewrite P2. intros Hm. apply answered_more. auto.
    + intros Hs. destruct P4 as [P4|P4]; rewrite P4 in Hs; [apply answered_more; auto|done].
  - intros [= <-]. unfold Path.on_path_chal_timeout. destruct (decide _); [apply (justified_more _ _ p); auto|].
    destruct (timeout_spec now (Path.sent_chals p) p) as (T1 & T2 & T3). apply (justified_more _ _ p); [done|done|rewrite T2; auto|].
    intros Hs. destruct T3 as [T3|T3]; rewrite T3 in Hs; [by left|done].
  - intros [= <-]. apply (justified_more _ _ p); cbn; auto.
Qed.

Lemma justified_run evs h (p q : path) : justified h p -> path_run evs p = Ok q -> justified (h ++ evs) q.
Proof.
  revert h p. induction evs as [|e evs IH]; intros h p Hj; cbn [path_run].
  - intros [= <-]. by rewrite app_nil_r.
  - intros (p1 & E1 & E2)%bind_Ok. replace (h ++ e :: evs) with ((h ++ [e]) ++ evs) by (by rewrite <- app_assoc).
    eapply IH; [|done]. by eapply justified_step.
Qed.
End Validation.

(** C19.  A path that was created for a new address is validated only after a
    response to a challenge that went out in a datagram of at least 1200 bytes,
    whatever else happened to it in between. *)
Theorem path_validation_sound {C} `{CongestionController C} local remote conf (cc : C) t0 p0 evs p :
  Path.new local remote false conf cc t0 = Ok p0 -> path_run evs p0 = Ok p -> Path.validated p = true -> answered evs.
Proof.
  intros E0 E Hv. unfold Path.new in E0. apply bind_Ok in E0 as (r & _ & [= <-]).
  assert (justified evs p) as [_ _ Hs]; [|apply Hs; unfold Path.validated in Hv; by apply bool_decide_eq_true_1 in Hv].
  apply (justified_run evs [] _ p) in E; [done|]. split; cbn; [apply Forall_nil_2|unfold MIN_CLIENT_INITIAL_LEN; lia|done].
Qed.

(** ** The limit before the peer's address is verified *)

Section Amplification.
Context {C : Type} `{CongestionController C}.
Abbreviation path := (@Path.Path C).
Abbreviation PathMap := (@PathMap.PathMap C).

(** What happens to the paths of a connection.  [DatagramOut] is the assembly of
    a datagram with room for [spare] bytes, which takes as much as it may. *)
Inductive map_event :=
| DatagramIn (pid n : Z)
| DatagramOut (pid spare : Z)
| MapChalIn (pid : Z) (data : list Z)
| MapRespIn (pid : Z) (data : list Z) (now : Instant)
| MapChalOut (pid : Z) (data : list Z) (size : Z) (now : Instant)
| MapTimeout (now : Instant)
| MapStale (now : Instant) (timeout_ms : Z)
| MapPing (a : option (SocketAddr * SocketAddr))
| MapMultipath.

(** An operation that fails leaves the map alone. *)
Definition or_same (r : res PathMap) (m : PathMap) : PathMap := match r with Ok m' => m' | _ => m end.

Definition map_step (e : map_event) (m : PathMap) : PathMap :=
  match e with
  | DatagramIn pid n => PathMap.inc_anti_ampl_limit pid n m
  | DatagramOut pid spare => PathMap.dec_anti_ampl_limit pid (PathMap.cmp_anti_ampl_limit pid spare m) m
  | MapChalIn pid data => PathMap.on_path_chal_received pid data m
  | MapRespIn pid data now => (PathMap.on_path_resp_received pid data now m).2
  | MapChalOut pid data size now => or_same (PathMap.on_path_chal_sent pid data size now m) m
  | MapTimeout now => PathMap.on_path_chal_timeout now m
  | MapStale now timeout_ms => (PathMap.abandon_stale_paths now timeout_ms m).2
  | MapPing a => or_same (PathMap.mark_ping a m) m
  | MapMultipath => PathMap.enable_multipath m
  end.

(** Bytes received from and sent to path [pid]. *)
Definition bytes_in (pid : Z) (e : map_event) : Z :=
  match e with DatagramIn i n => if i =? pid then n else 0 | _ => 0 end.
Definition bytes_out (pid : Z) (e : map_event) (m : PathMap) : Z :=
  match e with DatagramOut i spare => if i =? pid then PathMap.cmp_anti_ampl_limit i spare m else 0 | _ => 0 end.

Fixpoint traffic (pid : Z) (evs : list map_event) (m : PathMap) : Z * Z * PathMap :=
  match evs with
  | [] => (0, 0, m)
  | e :: evs =>
      let '(i, o, m') := traffic pid evs (map_step e m) in
      (bytes_in pid e + i, bytes_out pid e m + o, m')
  end.

Definition event_ok (e : map_event) : Prop :=
  match e with DatagramIn _ n => 0 <= n | DatagramOut _ spare => 0 <= spare | _ => True end.

(** How one step changes the path: what it adds to the limit and takes from it. *)
Definition paced (i o : Z) (p q : path) : Prop :=
  (Path.verified_peer_address p = true -> Path.verified_peer_address q = true) /\
  (0 <= Path.anti_ampl_limit p -> 0 <= Path.anti_ampl_limit q) /\
  (Path.verified_peer_address q = false -> 0 <= Path.anti_ampl_limit p -> Path.anti_ampl_limit q + o <= Path.anti_ampl_limit p + i).

Lemma paced_same p q : Path.verified_peer_address q = Path.verified_peer_address p ->
  Path.anti_ampl_limit q = Path.anti_ampl_limit p -> paced 0 0 p q.
Proof. intros Ev El. unfold paced. rewrite Ev, El. split_and!; auto; lia. Qed.

Lemma get_mapped (f : Z -> path -> path) k (l : list (Z * path)) :
  Btree.get k (map (fun e => (e.1, f e.1 e.2)) l) = f k <$> Btree.get k l.
Proof.
  induction l as [|[k' v] l IH]; [done|]. cbn. destruct (Z.eqb_spec k k') as [->|]; [done|]. exact IH.
Qed.

Lemma get_update pid f k (m : PathMap) :
  Btree.get k (PathMap.paths (PathMap.update pid f m)) =
  (if k =? pid then f else id) <$> Btree.get k (PathMap.paths m).
Proof.
  unfold PathMap.update. cbn. rewrite <- (get_mapped (fun k => if k =? pid then f else id)). f_equal.
  apply map_ext. intros [k' v]. cbn. by destruct (k' =? pid).
Qed.

Lemma get_update_all f k (m : PathMap) :
  Btree.get k (PathMap.paths (PathMap.update_all f m)) = f <$> Btree.get k (PathMap.paths m).
Proof. unfold PathMap.update_all. cbn. apply (get_mapped (fun _ => f)). Qed.

Lemma promote_limit s (p : path) :
  Path.verified_peer_address (Path.promote_to s p) = Path.verified_peer_address p /\
  Path.anti_ampl_limit (Path.promote_to s p) = Path.anti_ampl_limit p.
Proof. unfold Path.promote_to. by destruct (_ <? _). Qed.

Lemma resp_verifies data mp now (p : path) : Path.state p <> Validated ->
  let q := (Path.on_path_resp_received data mp now p).2 in
  Path.verified_peer_address q = true /\ Path.anti_ampl_limit q = Path.anti_ampl_limit p.
Proof.
  intros Hv. unfold Path.on_path_resp_received. destruct (decide _); [done|].
  destruct (absorb_spec data now p) as (Ev & El & _). set (p1 := Path.absorb_response data now p) in *. clearbody p1.
  destruct (promote_limit Validated p1) as [Ev' El']. destruct (_ <=? _); cbn; split; congruence.
Qed.

Lemma paced_resp data mp now (p : path) : paced 0 0 p (Path.on_path_resp_received data mp now p).2.
Proof.
  destruct (decide (Path.state p = Validated)) as [Hv|Hv].
  - unfold Path.on_path_resp_received. destruct (decide _); [by apply paced_same|done].
  - destruct (resp_verifies data mp now p Hv) as [Ev El]. unfold paced. rewrite Ev, El. split_and!; auto; lia || done.
Qed.

Lemma paced_timeout now (p : path) : paced 0 0 p (Path.on_path_chal_timeout now p).
Proof.
  unfold Path.on_path_chal_timeout. destruct (decide _); [by apply paced_same|].
  enough (forall cs (q : path), Path.verified_peer_address (Path.timeout_loop now cs q) = Path.verified_peer_address q /\
    Path.anti_ampl_limit (Path.timeout_loop now cs q) = Path.anti_ampl_limit q) as H1 by (by apply paced_same; apply H1).
  intros cs. induction cs as [|c cs IH]; intros q; cbn [Path.timeout_loop]; [done|].
  destruct (now <? ch_loss c); [done|]. destruct (_ <? MAX_PROBING_TIMEOUTS); [|done].
  destruct (IH (Path.initiate_path_chal (Path.with_lost_chal (Path.lost_chal q + 1) q))) as [-> ->]. done.
Qed.

Lemma map_step_flags e (m : PathMap) :
  PathMap.is_server (map_step e m) = PathMap.is_server m /\ PathMap.anti_ampl_factor (map_step e m) = PathMap.anti_ampl_factor m.
Proof.
  destruct e as [pid n|pid spare|pid data|pid data now|pid data size now|now|now ms|a|]; cbn [map_step]; try done.
  - unfold PathMap.inc_anti_ampl_limit. by destruct (negb _).
  - unfold PathMap.dec_anti_ampl_limit. by destruct (negb _).
  - unfold PathMap.on_path_resp_received. destruct (Btree.get pid _); [|done]. by destruct (Path.on_path_resp_received _ _ _ _).
  - unfold PathMap.on_path_chal_sent, PathMap.get. destruct (Btree.get pid _); [|done]. cbn.
    by destruct (Path.on_path_chal_sent _ _ _ _).
  - unfold PathMap.abandon_stale_paths. by destruct (_ =? _).
  - unfold PathMap.mark_ping. destruct (negb _); [by destruct (PathMap.get_active_with_path_id m)|].
    destruct a as [a|]; [|done]. destruct (PathMap.get_path_id a m) as [i|]; [|done]. by destruct (PathMap.get i m).
Qed.

Lemma id_fmap (o : option path) : id <$> o = o.
Proof. by destruct o. Qed.

Lemma paced_refl (p : path) : paced 0 0 p p.
Proof. by apply paced_same. Qed.

(** Changing one path, or all, by functions that keep the limit. *)
Lemma update_paced i f (m : PathMap) pid (p : path) : (forall q, paced 0 0 q (f q)) ->
  Btree.get pid (PathMap.paths m) = Some p ->
  exists q, Btree.get pid (PathMap.paths (PathMap.update i f m)) = Some q /\ paced 0 0 p q.
Proof.
  intros Hf Hp. rewrite get_update, Hp. destruct (pid =? i); cbn; eexists; (split; [done|]); [apply Hf|apply paced_refl].
Qed.

Lemma update_all_paced f (m : PathMap) pid (p : path) : (forall q, paced 0 0 q (f q)) ->
  Btree.get pid (PathMap.paths m) = Some p ->
  exists q, Btree.get pid (PathMap.paths (PathMap.update_all f m)) = Some q /\ paced 0 0 p q.
Proof. intros Hf Hp. rewrite get_update_all, Hp. cbn. by eexists. Qed.

Lemma set_paced i (p' q' : path) (m : PathMap) pid (p : path) :
  Btree.get i (PathMap.paths m) = Some p' -> paced 0 0 p' q' -> Btree.get pid (PathMap.paths m) = Some p ->
  exists q, Btree.get pid (PathMap.paths (PathMap.update i (fun _ => q') m)) = Some q /\ paced 0 0 p q.
Proof.
  intros Hi Hq Hp. rewrite get_update, Hp. destruct (Z.eqb_spec pid i) as [->|]; cbn; eexists; (split; [done|]).
  - assert (p' = p) as -> by congruence. done.
  - apply paced_refl.
Qed.

(** A step other than the transfer of a datagram. *)
Lemma quiet_step e (m : PathMap) pid (p : path) :
  match e with DatagramIn _ _ | DatagramOut _ _ => False | _ => True end ->
  Btree.get pid (PathMap.paths m) = Some p ->
  exists q, Btree.get pid (PathMap.paths (map_step e m)) = Some q /\ paced 0 0 p q.
Proof.
  intros He Hp. destruct e as [i n|i spare|i data|i data now|i data size now|now|now ms|a|]; try done; cbn [map_step]; [..|by exists p].
  - apply update_paced; [|done]. intros q. unfold Path.on_path_chal_received. apply paced_same; by destruct (_ <=? _).
  - unfold PathMap.on_path_resp_received. destruct (Btree.get i _) as [p'|] eqn:E; [|by exists p].
    pose proof (paced_resp data (PathMap.is_multipath m) now p') as Hq.
    destruct (Path.on_path_resp_received _ _ _ _) as [b q']. by eapply set_paced.
  - unfold PathMap.on_path_chal_sent, PathMap.get. destruct (Btree.get i _) as [p'|] eqn:E; [|by exists p]. cbn.
    unfold Path.on_path_chal_sent. cbn. destruct (promote_limit Validating p'). destruct (_ <? 64); [|by exists p]. cbn.
    eapply set_paced; [done| |done]. by apply paced_same.
  - apply update_all_paced; [|done]. intros q. apply paced_timeout.
  - unfold PathMap.abandon_stale_paths. destruct (_ =? _); [by exists p|]. apply update_all_paced; [|done].
    intros q. destruct (PathMap.stale _ _ q); [by apply paced_same|apply paced_refl].
  - unfold PathMap.mark_ping. destruct (negb _).
    + destruct (PathMap.get_active_with_path_id m) as [e| |]; [|by exists p..]. apply update_paced; [|done]. intros q. by apply paced_same.
    + destruct a as [a|].
      * destruct (PathMap.get_path_id a m) as [i|]; [|by exists p]. destruct (PathMap.get i m); [|by exists p..].
        apply update_paced; [|done]. intros q. by apply paced_same.
      * apply update_all_paced; [|done]. intros q. destruct (Path.active q); [by apply paced_same|apply paced_refl].
Qed.

Lemma step_paced e (m : PathMap) pid (p : path) :
  event_ok e -> PathMap.is_server m = true -> 0 <= PathMap.anti_ampl_factor m -> Btree.get pid (PathMap.paths m) = Some p ->
  exists q, Btree.get pid (PathMap.paths (map_step e m)) = Some q /\
    paced (PathMap.anti_ampl_factor m * bytes_in pid e) (bytes_out pid e m) p q.
Proof.
  intros He Hs Hf Hp. destruct e as [i n|i spare| | | | | | |]; cbn [bytes_in bytes_out];
    try (rewrite Z.mul_0_r; apply quiet_step; done).
  - cbn [map_step]. unfold PathMap.inc_anti_ampl_limit. rewrite Hs. cbn [negb]. rewrite get_update, Hp, (Z.eqb_sym i).
    destruct (Z.eqb_spec pid i) as [->|]; cbn; eexists; (split; [done|]); [|rewrite Z.mul_0_r; apply paced_refl].
    cbn [event_ok] in He. unfold paced. destruct (Path.verified_peer_address p) eqn:Ev; cbn; rewrite ?Ev; split_and!; try done; try nia.
    + intros ?. unfold sat_add64, U64_MAX. zcase; nia.
    + intros _ ?. unfold sat_add64, U64_MAX. zcase; nia.
  - cbn [map_step]. unfold PathMap.dec_anti_ampl_limit. rewrite Hs. cbn [negb]. rewrite get_update, Hp, (Z.eqb_sym i), Z.mul_0_r.
    destruct (Z.eqb_spec pid i) as [->|]; cbn; eexists; (split; [done|]); [|apply paced_refl].
    unfold PathMap.cmp_anti_ampl_limit. rewrite Hs, Hp. cbn [negb event_ok] in *. unfold paced, sat_sub.
    destruct (Path.verified_peer_address p) eqn:Ev; cbn; rewrite ?Ev; split_and!; try done; lia.
Qed.

Lemma traffic_paced pid evs (m : PathMap) (p : path) i o m' :
  Forall event_ok evs -> PathMap.is_server m = true -> 0 <= PathMap.anti_ampl_factor m ->
  Btree.get pid (PathMap.paths m) = Some p -> traffic pid evs m = (i, o, m') ->
  exists q, Btree.get pid (PathMap.paths m') = Some q /\ paced (PathMap.anti_ampl_factor m * i) o p q.
Proof.
  revert m p i o. induction evs as [|e evs IH]; intros m p i o He Hs Hf Hp; cbn [traffic].
  - intros [= <- <- <-]. exists p. split; [done|]. rewrite Z.mul_0_r. apply paced_refl.
  - apply Forall_cons_1 in He as [He Hes]. destruct (step_paced e m pid p He Hs Hf Hp) as (q & Hq & V1 & N1 & L1).
    destruct (map_step_flags e m) as [Fs Ff]. destruct (traffic pid evs (map_step e m)) as [[i1 o1] m1] eqn:E. intros [= <- <- <-].
    destruct (IH (map_step e m) q i1 o1 Hes ltac:(congruence) ltac:(lia) Hq E) as (q' & Hq' & V2 & N2 & L2). exists q'. split; [done|].
    rewrite Ff in L2. split_and!; [auto|auto|]. intros Hv Hp0.
    assert (Path.verified_peer_address q = false) as Hqv by (destruct (Path.verified_peer_address q); [by rewrite V2 in Hv|done]).
    specialize (L1 Hqv Hp0). specialize (L2 Hv (N1 Hp0)). lia.
Qed.
End Amplification.


(** Any PATH_RESPONSE verifies the peer's address, also one that answers no
    challenge: after it the server may send as much as it likes to an address that
    has shown nothing. *)
Theorem forged_response_verifies {C} `{CongestionController C} pid data now spare (m : @PathMap.PathMap C) p :
  Btree.get pid (PathMap.paths m) = Some p -> Path.state p <> Validated -> Path.sent_chals p = [] ->
  let m' := (PathMap.on_path_resp_received pid data now m).2 in
  PathMap.cmp_anti_ampl_limit pid spare m' = spare.
Proof.
  intros Hp Hv Hc. unfold PathMap.on_path_resp_received. rewrite Hp.
  destruct (Path.on_path_resp_received data (PathMap.is_multipath m) now p) as [b q] eqn:E. cbn [snd].
  unfold PathMap.cmp_anti_ampl_limit. rewrite get_update, Hp, Z.eqb_refl. cbn.
  destruct (resp_verifies data (PathMap.is_multipath m) now p Hv) as [Ev _]. rewrite E in Ev. cbn in Ev. rewrite Ev. by destruct (negb _).
Qed.

(** ** The map of paths *)

Section PathMapProps.
Context {C : Type} `{CongestionController C}.
Abbreviation path := (@Path.Path C).
Abbreviation PathMap := (@PathMap.PathMap C).

(** The paths and their addresses are in step, within the limit on paths. *)
Record map_wf (m : PathMap) : Prop := {
  wf_sorted : Btree.above (-1) (PathMap.paths m);
  wf_addr : forall pid p, Btree.get pid (PathMap.paths m) = Some p -> PathMap.get_path_id (PathMap.addr_of p) m = Some pid;
  wf_path : forall a pid, PathMap.get_path_id a m = Some pid ->
    exists p, Btree.get pid (PathMap.paths m) = Some p /\ PathMap.addr_of p = a;
  wf_limit : len (PathMap.paths m) <= PathMap.max_paths m;
}.

Lemma get_remove lo k k' (l : list (Z * path)) : Btree.above lo l ->
  Btree.get k' (Btree.remove k l) = if k' =? k then None else Btree.get k' l.
Proof.
  revert lo. induction l as [|[k1 v1] l IH]; intros lo; cbn; [by destruct (k' =? k)|]. intros [Hk Hl].
  destruct (Z.eqb_spec k k1) as [->|Hne].
  - destruct (Z.eqb_spec k' k1) as [->|]; [|done]. destruct (Btree.get k1 l) as [v|] eqn:E; [|done].
    apply (Btree.get_In _ _ _ _ Hl), list_elem_of_In in E. apply Btree.above_keys_gt in Hl. unfold Btree.keys_gt in Hl.
    rewrite Forall_forall in Hl. specialize (Hl _ E). cbn in Hl. lia.
  - cbn. rewrite (IH k1) by done. zcase; subst; done || lia.
Qed.

Lemma remove_length k v (l : list (Z * path)) : Btree.get k l = Some v -> len (Btree.remove k l) = len l - 1.
Proof.
  induction l as [|[k1 v1] l IH]; [done|]. cbn. destruct (k =? k1); rewrite ?len_cons; [lia|]. intros E. rewrite IH by done. lia.
Qed.

Lemma addr_get_remove a b l : PathMap.addr_get a (PathMap.addr_remove b l) = if decide (a = b) then None else PathMap.addr_get a l.
Proof.
  induction l as [|[c pid] l IH]; cbn; [by destruct (decide _)|]. unfold PathMap.addr_remove in *. cbn.
  destruct (bool_decide (b = c)) eqn:E; cbn.
  - apply bool_decide_eq_true_1 in E as ->. rewrite IH. by destruct (decide (a = c)).
  - apply bool_decide_eq_false_1 in E. destruct (decide (a = c)) as [->|]; [by destruct (decide (c = b))|done].
Qed.

Lemma addr_get_insert a b pid l : PathMap.addr_get a (PathMap.addr_insert b pid l) = if decide (a = b) then Some pid else PathMap.addr_get a l.
Proof. unfold PathMap.addr_insert. cbn. destruct (decide (a = b)); [done|]. rewrite addr_get_remove. by destruct (decide _). Qed.

Lemma victim_in (m : PathMap) e : map_wf m -> PathMap.victim m = Some e -> Btree.get e.1 (PathMap.paths m) = Some e.2.
Proof.
  intros [Hs _ _ _] E. apply (Btree.get_In _ _ _ _ Hs). destruct e as [pid p]. unfold PathMap.victim in E.
  destruct (List.find _ _) as [e|] eqn:E1; [injection E as ->; by apply find_some in E1 as [? _]|].
  by apply find_some in E as [? _].
Qed.

(** Removing a path with its address. *)
Definition evict (e : Z * path) (m : PathMap) : PathMap :=
  PathMap.with_addrs (PathMap.addr_remove (PathMap.addr_of e.2) (PathMap.addrs m)) (PathMap.with_paths (Btree.remove e.1 (PathMap.paths m)) m).

Lemma evict_wf e (m : PathMap) : map_wf m -> Btree.get e.1 (PathMap.paths m) = Some e.2 ->
  map_wf (evict e m) /\ len (PathMap.paths (evict e m)) = len (PathMap.paths m) - 1 /\
  (forall k, Btree.get k (PathMap.paths (evict e m)) = if k =? e.1 then None else Btree.get k (PathMap.paths m)) /\
  (forall a, PathMap.get_path_id a (evict e m) = if decide (a = PathMap.addr_of e.2) then None else PathMap.get_path_id a m).
Proof.
  intros [Hs Ha Hp Hl] He.
  assert (forall k, Btree.get k (PathMap.paths (evict e m)) = if k =? e.1 then None else Btree.get k (PathMap.paths m)) as G1
    by (intros k; by apply (get_remove (-1))).
  assert (forall a, PathMap.get_path_id a (evict e m) = if decide (a = PathMap.addr_of e.2) then None else PathMap.get_path_id a m) as G2
    by (intros a; apply addr_get_remove).
  assert (len (PathMap.paths (evict e m)) = len (PathMap.paths m) - 1) as G3 by (by eapply remove_length).
  split; [|done]. split; [by apply Btree.remove_above|..|rewrite G3; cbn; lia].
  - intros pid p. rewrite G1, G2. destruct (Z.eqb_spec pid e.1); [done|]. intros E. rewrite (Ha _ _ E).
    destruct (decide (PathMap.addr_of p = PathMap.addr_of e.2)) as [Eq|]; [|done].
    pose proof (Ha _ _ E) as E1. rewrite Eq, (Ha _ _ He) in E1. congruence.
  - intros a pid. rewrite G2. destruct (decide _) as [|Hne]; [done|]. intros E. destruct (Hp _ _ E) as (p & E1 & E2).
    exists p. split; [|done]. rewrite G1. destruct (Z.eqb_spec pid e.1) as [->|]; [|done]. congruence.
Qed.

Lemma path_insert_wf p slot (m : PathMap) : map_wf m -> PathMap.get_path_id (PathMap.addr_of p) m = None ->
  Btree.get slot (PathMap.paths m) = None -> 0 <= slot -> len (PathMap.paths m) < PathMap.max_paths m ->
  let m' := PathMap.with_addrs (PathMap.addr_insert (PathMap.addr_of p) slot (PathMap.addrs m))
              (PathMap.with_paths (Btree.insert slot p (PathMap.paths m)) m) in
  map_wf m' /\ PathMap.get_path_id (PathMap.addr_of p) m' = Some slot /\
  (forall k, Btree.get k (PathMap.paths m') = if k =? slot then Some p else Btree.get k (PathMap.paths m)).
Proof.
  intros [Hs Ha Hp Hl] Hfree Hslot H0 Hlt m'.
  assert (forall k, Btree.get k (PathMap.paths m') = if k =? slot then Some p else Btree.get k (PathMap.paths m)) as G1
    by (intros k; by apply (Btree.get_insert (-1))).
  assert (forall a, PathMap.get_path_id a m' = if decide (a = PathMap.addr_of p) then Some slot else PathMap.get_path_id a m) as G2
    by (intros a; apply addr_get_insert).
  split; [|split; [by rewrite G2, decide_True|done]]. split; [by apply Btree.insert_above; [lia|]|..].
  - intros pid q. rewrite G1, G2. destruct (Z.eqb_spec pid slot) as [->|]; [intros [= ->]; by rewrite decide_True|].
    intros E. pose proof (Ha _ _ E) as E1. destruct (decide _) as [Eq|]; [congruence|done].
  - intros a pid. rewrite G2. destruct (decide _) as [->|].
    + intros [= <-]. exists p. by rewrite G1, Z.eqb_refl.
    + intros E. destruct (Hp _ _ E) as (q & E1 & E2). exists q. split; [|done]. rewrite G1. destruct (Z.eqb_spec pid slot) as [->|]; [congruence|done].
  - cbn. pose proof (Btree.insert_length slot p (PathMap.paths m)). unfold len in *. lia.
Qed.
End PathMapProps.

(** Inserting a path for an address that has none: while there is room the
    path is added; when the limit is reached one abandoned, unused or failed path
    gives way, with its address, and without such a path the insertion is refused.
    All other paths are untouched, and the two maps stay in step within the limit,
    whatever vacant key the slab picks. *)
Theorem insert_path_correct {C} `{CongestionController C} p slot (m : @PathMap.PathMap C) :
  map_wf m -> 1 <= PathMap.max_paths m -> PathMap.get_path_id (PathMap.addr_of p) m = None -> 0 <= slot ->
  let gone := if PathMap.max_paths m <=? len (PathMap.paths m) then PathMap.victim m else None in
  Btree.get slot (PathMap.paths m) = None \/ fst <$> gone = Some slot ->
  match PathMap.insert_path p slot m with
  | Ok (pid, m') => pid = slot /\ map_wf m' /\ PathMap.get_path_id (PathMap.addr_of p) m' = Some slot /\
      Btree.get slot (PathMap.paths m') = Some p /\
      (forall k, k <> slot -> Btree.get k (PathMap.paths m') =
        if decide (fst <$> gone = Some k) then None else Btree.get k (PathMap.paths m)) /\
      (forall e, gone = Some e -> Path.is_abandon e.2 = true \/ Path.unused e.2 = true \/ Path.state e.2 = Failed)
  | Err e => e = Done /\ PathMap.max_paths m <= len (PathMap.paths m) /\ PathMap.victim m = None
  | Panic => False
  end.
Proof.
  intros Hwf Hmax Hfree H0 gone Hslot. unfold PathMap.insert_path, gone in *. clear gone.
  destruct (Z.leb_spec (PathMap.max_paths m) (len (PathMap.paths m))) as [Hfull|Hroom].
  - destruct (PathMap.victim m) as [e|] eqn:Ev; [|done]. pose proof (victim_in m e Hwf Ev) as He.
    destruct (evict_wf e m Hwf He) as (Hwf1 & Hl1 & G1 & G2). cbn [mbind outcome_bind ok_or mret outcome_ret].
    change (PathMap.with_addrs _ (PathMap.with_paths (Btree.remove e.1 (PathMap.paths m)) m)) with (evict e m).
    assert (Btree.get slot (PathMap.paths (evict e m)) = None) as Hs1.
    { rewrite G1. destruct (Z.eqb_spec slot e.1); [done|]. destruct Hslot as [|Hslot]; [done|]. cbn in Hslot. congruence. }
    destruct (path_insert_wf p slot (evict e m)) as (Hwf2 & Hid & G3); [done|by rewrite G2, Hfree; destruct (decide _)|done|done| |].
    { rewrite Hl1. pose proof (wf_limit m Hwf). change (PathMap.max_paths (evict e m)) with (PathMap.max_paths m). lia. }
    split_and!; [done|done|done|by rewrite G3, Z.eqb_refl| |].
    + intros k Hk. rewrite G3. destruct (Z.eqb_spec k slot); [done|]. rewrite G1. cbn.
      destruct (Z.eqb_spec k e.1), (decide (Some e.1 = Some k)); congruence.
    + intros ? [= <-]. unfold PathMap.victim in Ev. destruct (List.find _ _) eqn:E1.
      * injection Ev as ->. apply find_some in E1 as [_ ?]. by left.
      * apply find_some in Ev as [_ Ev]. right. apply orb_true_iff in Ev as [|Ev]; [by left|right]. by apply bool_decide_eq_true_1 in Ev.
  - cbn [mbind outcome_bind mret outcome_ret]. destruct Hslot as [Hslot|Hslot]; [|done].
    destruct (path_insert_wf p slot m) as (Hwf2 & Hid & G3); [done..|].
    split_and!; [done|done|done|by rewrite G3, Z.eqb_refl| |done].
    intros k Hk. rewrite G3. destruct (Z.eqb_spec k slot); [done|]. by rewrite decide_False.
Qed.

Lemma path_map_new_wf {C} `{CongestionController C} (p : @Path.Path C) max_paths factor server slot :
  1 <= max_paths -> 0 <= slot -> map_wf (PathMap.new p max_paths factor server slot).
Proof.
  intros Hm Hs. split; cbn; [lia|..|rewrite len_cons, len_nil; lia].
  - intros pid q. destruct (Z.eqb_spec pid slot) as [->|]; [|done]. intros [= <-].
    unfold PathMap.get_path_id. cbn. by rewrite decide_True.
  - intros a pid. unfold PathMap.get_path_id. cbn. destruct (decide _) as [->|]; [|done]. intros [= <-].
    rewrite Z.eqb_refl. by eexists.
Qed.

(** ** Examples *)

Definition example_addr (n port : Z) : SocketAddr := AddrV4 ([10; 0; 0; n], port).
Definition example_conf : RecoveryConfig :=
  mkConfig true 1200 (from_millis 25) 10 (from_millis 333) true (from_millis 1) 0 (from_secs 60) 2.
Definition example_path (n : Z) (initial : bool) : res (@Path.Path Dummy.Dummy) :=
  Path.new (example_addr 1 443) (example_addr n 5000) initial example_conf (Dummy.new 10 1200) 0.

Lemma path_validation_sound_witness :
  exists p0 p, example_path 2 false = Ok p0 /\
    path_run [ChalDue; ChalOut [1; 2] 1200 0; ChalIn [7]; RespIn [1; 2] true (from_millis 30)] p0 = Ok p /\
    answered [ChalDue; ChalOut [1; 2] 1200 0; ChalIn [7]; RespIn [1; 2] true (from_millis 30)].
Proof.
  assert (exists p0, example_path 2 false = Ok p0) as [p0 E0] by (vm_compute; by eexists).
  assert (exists p, path_run [ChalDue; ChalOut [1; 2] 1200 0; ChalIn [7]; RespIn [1; 2] true (from_millis 30)] p0 = Ok p /\
    Path.validated p = true) as (p & E & Hv) by (vm_compute in E0; injection E0 as <-; vm_compute; by eexists).
  exists p0, p. split_and!; [done..|]. exact (path_validation_sound _ _ _ _ _ p0 _ p E0 E Hv).
Defined.

(** A server path to a new address, which has received one datagram. *)
Definition example_map : res (@PathMap.PathMap Dummy.Dummy) :=
  p ← example_path 2 false;
  mret (PathMap.new (Path.with_anti_ampl_limit 3600 p) 4 3 true 0).


Lemma forged_response_verifies_witness :
  exists m, example_map = Ok m /\
    PathMap.cmp_anti_ampl_limit 0 1000000 (PathMap.on_path_resp_received 0 [6; 6; 6] 0 m).2 = 1000000.
Proof.
  assert (exists m, example_map = Ok m) as [m Em] by (vm_compute; by eexists). exists m. split; [done|].
  assert (exists p, Btree.get 0 (PathMap.paths m) = Some p /\ Path.state p <> Validated /\ Path.sent_chals p = []) as (p & Ep & Hs & Hc)
    by (vm_compute in Em; injection Em as <-; vm_compute; by eexists).
  exact (forged_response_verifies 0 [6; 6; 6] 0 1000000 m p Ep Hs Hc).
Defined.

Lemma insert_path_correct_witness :
  exists m p pid m', example_map = Ok m /\ example_path 3 false = Ok p /\ PathMap.insert_path p 7 m = Ok (pid, m') /\ map_wf m'.
Proof.
  assert (exists p0, example_path 2 false = Ok p0) as [p0 E0] by (vm_compute; by eexists).
  set (m := PathMap.new (Path.with_anti_ampl_limit 3600 p0) 4 3 true 0).
  assert (example_map = Ok m) as Em by (unfold example_map; by rewrite E0).
  assert (exists p, example_path 3 false = Ok p) as [p Ep] by (vm_compute; by eexists).
  pose proof (insert_path_correct p 7 m) as Hi. destruct (PathMap.insert_path p 7 m) as [[pid m']| |] eqn:E.
  - exists m, p, pid, m'. split_and!; [done..|]. apply Hi; [by apply path_map_new_wf|done| |done|by left].
    vm_compute in E0, Ep. injection E0 as <-. injection Ep as <-. by vm_compute.
  - vm_compute in E0, Ep. injection E0 as <-. injection Ep as <-. by vm_compute in E.
  - vm_compute in E0, Ep. injection E0 as <-. injection Ep as <-. by vm_compute in E.
Defined.
