(* ===== verification/Timers.v ===== *)
(** * Timers

    Models [src/src/connection/timer.rs], the timers of one connection, and
    [src/src/timer_queue.rs], the timers of all connections of an endpoint.  The
    queue is built on the [priority_queue] package, which appears as the class
    [DoublePriorityQueue] of its operations and the class [LawfulQueue] of what its
    documentation says about them: a map from items to priorities, of which
    [peek_min] and [pop_min] give an item of least priority. *)

From stdpp Require Import gmap sorting.
From S2P Require Import Prelude.
From S2P Require Import Error.
From S2P Require Import Time.

(** ** The timers of a connection *)

Inductive Timer :=
| LossDetection | Ack | Pacer | Idle | HandshakeTimer | Draining | KeyDiscard | KeepAlive | PathChallengeTimer.

#[global] Instance timer_eq_dec : EqDecision Timer.
Proof. solve_decision. Defined.

(** The variants in their order, as [Timer::iter()] goes through them. *)
Definition all_timers : list Timer :=
  [LossDetection; Ack; Pacer; Idle; HandshakeTimer; Draining; KeyDiscard; KeepAlive; PathChallengeTimer].

Definition timer_index (t : Timer) : nat :=
  match t with
  | LossDetection => 0 | Ack => 1 | Pacer => 2 | Idle => 3 | HandshakeTimer => 4
  | Draining => 5 | KeyDiscard => 6 | KeepAlive => 7 | PathChallengeTimer => 8
  end%nat.

Module TimerTable.

Record TimerTable := mkTable { expires : list (option Instant) }.

Definition default : TimerTable := mkTable (repeat None 9).

Definition set (t : Timer) (time : Instant) (x : TimerTable) : TimerTable :=
  mkTable (<[timer_index t := Some time]> (expires x)).
Definition get (t : Timer) (x : TimerTable) : option Instant := expires x !!! timer_index t.
Definition stop (t : Timer) (x : TimerTable) : TimerTable := mkTable (<[timer_index t := None]> (expires x)).
Definition next_timeout (x : TimerTable) : option Instant :=
  foldr (fun t o => match t, o with
                    | Some t, Some t' => Some (Z.min t t')
                    | Some t, None => Some t
                    | None, o => o
                    end) None (expires x).
Definition is_expired (t : Timer) (after : Instant) (x : TimerTable) : bool :=
  match get t x with Some e => e <=? after | None => false end.

Definition wf (x : TimerTable) : Prop := length (expires x) = 9%nat.

Lemma default_wf : wf default.
Proof. reflexivity. Qed.
Lemma set_wf t e x : wf x -> wf (set t e x).
Proof. unfold wf, set. cbn. by rewrite length_insert. Qed.
Lemma stop_wf t x : wf x -> wf (stop t x).
Proof. unfold wf, stop. cbn. by rewrite length_insert. Qed.

Lemma timer_index_lt t : (timer_index t < 9)%nat.
Proof. destruct t; cbn; lia. Qed.
#[global] Instance timer_index_inj : Inj (=) (=) timer_index.
Proof. intros [] []; cbn; congruence. Qed.

Lemma get_after_set t e u x : wf x -> get u (set t e x) = if decide (u = t) then Some e else get u x.
Proof.
  intros Hx. unfold get, set. cbn. destruct (decide (u = t)) as [->|Hne].
  - apply list_lookup_total_insert_eq. rewrite Hx. apply timer_index_lt.
  - apply list_lookup_total_insert_ne. intros E. apply Hne. by apply (inj timer_index).
Qed.

Lemma get_stop t u x : wf x -> get u (stop t x) = if decide (u = t) then None else get u x.
Proof.
  intros Hx. unfold get, stop. cbn. destruct (decide (u = t)) as [->|Hne].
  - apply list_lookup_total_insert_eq. rewrite Hx. apply timer_index_lt.
  - apply list_lookup_total_insert_ne. intros E. apply Hne. by apply (inj timer_index).
Qed.

Lemma get_stop_ne t u x : u <> t -> get u (stop t x) = get u x.
Proof. intros Hne. unfold get, stop. cbn. apply list_lookup_total_insert_ne. intros E. apply Hne. by apply (inj timer_index). Qed.

(** Setting a timer leaves none unset. *)
Lemma set_is_Some t e u x : is_Some (get u x) -> is_Some (get u (set t e x)).
Proof.
  unfold get, set. cbn. intros Hx. destruct (decide (u = t)) as [->|Hne].
  - destruct (decide (timer_index t < length (expires x))%nat) as [Hl|Hl].
    + rewrite list_lookup_total_insert_eq by done. by eexists.
    + by rewrite list_insert_ge by lia.
  - rewrite list_lookup_total_insert_ne; [done|]. intros E. apply Hne. by apply (inj timer_index).
Qed.

(** The table never sleeps past a timer: [next_timeout] is the least expiry. *)
Lemma next_timeout_min x : wf x ->
  match next_timeout x with
  | Some m => (exists t, get t x = Some m) /\ forall t e, get t x = Some e -> m <= e
  | None => forall t, get t x = None
  end.
Proof.
  intros Hx.
  assert (Hin : forall t e, get t x = Some e -> Some e ∈ expires x).
  { intros t e Ht. unfold get in Ht. rewrite <- Ht. apply list_elem_of_lookup_total_2.
    rewrite Hx. apply timer_index_lt. }
  assert (Hout : forall e, Some e ∈ expires x -> exists t, get t x = Some e).
  { intros e He. apply list_elem_of_lookup in He as [i Hi].
    assert (i < 9)%nat as Hlt by (rewrite <- Hx; eauto using lookup_lt_Some).
    assert (exists t, timer_index t = i) as [t <-].
    { exists (nth i all_timers LossDetection). do 9 (destruct i as [|i]; [reflexivity|]). lia. }
    exists t. unfold get. by apply list_lookup_total_correct. }
  assert (Hmin : forall l : list (option Instant),
    match foldr (fun t o => match t, o with
                    | Some t, Some t' => Some (Z.min t t')
                    | Some t, None => Some t
                    | None, o => o
                    end) None l with
    | Some m => Some m ∈ l /\ forall e, Some e ∈ l -> m <= e
    | None => forall e, Some e ∉ l
    end).
  { induction l as [|[t|] l IH]; cbn; [by intros e ?%not_elem_of_nil| |].
    - destruct (foldr _ None l) as [m|].
      + destruct IH as [IH1 IH2]. split.
        * destruct (Z.min_spec t m) as [[_ ->]|[_ ->]]; [left|by right].
        * intros e [[= ->]|He]%elem_of_cons; [lia|]. specialize (IH2 e He). lia.
      + split; [left|]. intros e [[= ->]|He]%elem_of_cons; [lia|]. by destruct (IH e).
    - destruct (foldr _ None l) as [m|].
      + destruct IH as [IH1 IH2]. split; [by right|]. intros e [?|He]%elem_of_cons; [done|]. eauto.
      + intros e [?|He]%elem_of_cons; [done|]. by destruct (IH e). }
  specialize (Hmin (expires x)). unfold next_timeout. destruct (foldr _ None _) as [m|].
  - destruct Hmin as [H1 H2]. split; [by apply Hout|]. intros t e He. eapply H2, Hin, He.
  - intros t. destruct (get t x) as [e|] eqn:E; [|done]. by destruct (Hmin e (Hin _ _ E)).
Qed.

End TimerTable.

(** ** The timers of an endpoint *)

Class DoublePriorityQueue (Q : Type) := {
  dpq_new : Q;
  dpq_len : Q -> Z;
  dpq_push : Z -> Instant -> Q -> Q;
  dpq_remove : Z -> Q -> Q;
  dpq_peek_min : Q -> option (Z * Instant);
  dpq_pop_min : Q -> option (Z * Instant) * Q;
  dpq_clear : Q -> Q;
}.

Class LawfulQueue (Q : Type) `{DoublePriorityQueue Q} := {
  contents : Q -> gmap Z Instant;
  contents_new : contents dpq_new = ∅;
  contents_len q : dpq_len q = Z.of_nat (size (contents q));
  contents_push k e q : contents (dpq_push k e q) = <[k := e]> (contents q);
  contents_remove k q : contents (dpq_remove k q) = delete k (contents q);
  contents_clear q : contents (dpq_clear q) = ∅;
  peek_none q : dpq_peek_min q = None -> contents q = ∅;
  peek_some q k e : dpq_peek_min q = Some (k, e) ->
    contents q !! k = Some e /\ forall k' e', contents q !! k' = Some e' -> e <= e';
  pop_result q : (dpq_pop_min q).1 = dpq_peek_min q;
  pop_contents q k e : dpq_peek_min q = Some (k, e) -> contents (dpq_pop_min q).2 = delete k (contents q);
}.

Module TimerQueue.

Section TimerQueue.
Context {Q : Type} `{DoublePriorityQueue Q}.

Record TimerQueue := mkQueue { timers : Q }.

Definition new : TimerQueue := mkQueue dpq_new.
Definition len_ (x : TimerQueue) : Z := dpq_len (timers x).
Definition is_empty (x : TimerQueue) : bool := dpq_len (timers x) =? 0.
Definition add (idx : Z) (duration : Duration) (now : Instant) (x : TimerQueue) : TimerQueue :=
  mkQueue (dpq_push idx (now + duration) (timers x)).
Definition del (idx : Z) (x : TimerQueue) : TimerQueue := mkQueue (dpq_remove idx (timers x)).
Definition time_remaining (now : Instant) (x : TimerQueue) : option Duration :=
  (fun e => if e.2 <? now then 0 else since e.2 now) <$> dpq_peek_min (timers x).
Definition next_expire (now : Instant) (x : TimerQueue) : res (option Z * TimerQueue) :=
  match dpq_peek_min (timers x) with
  | Some (_, expires_at) =>
      if expires_at <=? now then
        let '(e, q) := dpq_pop_min (timers x) in
        idx ← unwrap (fst <$> e);
        mret (Some idx, mkQueue q)
      else mret (None, x)
  | None => mret (None, x)
  end.
Definition clear (x : TimerQueue) : TimerQueue := mkQueue (dpq_clear (timers x)).

(** [while let Some(idx) = self.timers.next_expire(now)], the loop of the
    endpoint's timeout handler, with the ids it handles. *)
Fixpoint expire_all (fuel : nat) (now : Instant) (x : TimerQueue) : res (list Z * TimerQueue) :=
  match fuel with
  | O => Panic
  | S fuel =>
      '(o, x) ← next_expire now x;
      match o with
      | Some idx => '(l, x) ← expire_all fuel now x; mret (idx :: l, x)
      | None => mret ([], x)
      end
  end.

End TimerQueue.

Section Laws.
Context {Q : Type} `{LawfulQueue Q}.

Definition pending (x : TimerQueue (Q := Q)) : gmap Z Instant := contents (timers x).

Lemma next_expire_spec now x :
  (exists idx e x', next_expire now x = Ok (Some idx, x') /\ pending x !! idx = Some e /\ e <= now /\
     (forall k e', pending x !! k = Some e' -> e <= e') /\ pending x' = delete idx (pending x)) \/
  (next_expire now x = Ok (None, x) /\ forall k e, pending x !! k = Some e -> now < e).
Proof.
  unfold next_expire, pending. destruct (dpq_peek_min (timers x)) as [[k e]|] eqn:E.
  - pose proof (peek_some _ _ _ E) as [Hk Hmin]. pose proof (pop_result (timers x)) as Hr.
    pose proof (pop_contents _ _ _ E) as Hc.
    destruct (Z.leb_spec e now).
    + left. destruct (dpq_pop_min (timers x)) as [r q]. cbn in *. subst r. rewrite E. cbn.
      exists k, e, (mkQueue q). auto.
    + right. split; [done|]. intros k' e' Hk'. specialize (Hmin _ _ Hk'). lia.
  - right. split; [done|]. intros k e. rewrite (peek_none _ E). by rewrite lookup_empty.
Qed.

(** The handler takes out exactly the timers that are due, each once, earliest
    first, and leaves the others as they were. *)
Lemma expire_all_correct fuel now x :
  (size (pending x) < fuel)%nat ->
  exists l x', expire_all fuel now x = Ok (l, x') /\
    NoDup l /\
    (forall k, k ∈ l <-> exists e, pending x !! k = Some e /\ e <= now) /\
    pending x' = filter (fun p => now < p.2) (pending x) /\
    exists es, StronglySorted Z.le es /\ Forall2 (fun k e => pending x !! k = Some e) l es.
Proof.
  revert x. induction fuel as [|fuel IH]; intros x Hf; [lia|]. cbn.
  destruct (next_expire_spec now x) as [(idx & e & x' & -> & Hidx & Hle & Hmin & Hdel)|[-> Hlater]]; cbn.
  - assert (Hsize : size (pending x) = S (size (pending x'))).
    { rewrite Hdel. symmetry. rewrite map_size_delete_Some; [|eauto].
      assert (size (pending x) <> 0)%nat by (intros Hz%map_size_empty_inv; rewrite Hz, lookup_empty in Hidx; done). lia. }
    destruct (IH x') as (l & x'' & -> & Hnd & Hmem & Hrest & es & Hsorted & Htimes); [lia|]. cbn.
    exists (idx :: l), x''. split; [done|].
    assert (Hni : idx ∉ l).
    { rewrite Hmem, Hdel, lookup_delete_eq. naive_solver. }
    split; [by constructor|]. split; [|split].
    + intros k. rewrite elem_of_cons, Hmem, Hdel. destruct (decide (k = idx)) as [->|Hne].
      * rewrite lookup_delete_eq. naive_solver.
      * rewrite lookup_delete_ne by done. naive_solver.
    + rewrite Hrest, Hdel. rewrite map_filter_delete_not; [done|]. intros y Hy. cbn. rewrite Hidx in Hy.
      injection Hy as <-. lia.
    + assert (Hsub : Forall2 (fun k e => pending x !! k = Some e) l es).
      { eapply Forall2_impl; [exact Htimes|]. intros k t. rewrite Hdel. apply lookup_delete_Some. }
      exists (e :: es). split; [|by constructor]. constructor; [done|].
      eapply Forall2_Forall_r; [exact Hsub|]. apply Forall_forall. eauto.
  - exists [], x. split; [done|]. split; [constructor|]. split; [|split; [|exists []; split; constructor]].
    + intros k. split; [by intros ?%not_elem_of_nil|]. intros (e & He & Hle). specialize (Hlater _ _ He). lia.
    + symmetry. apply map_filter_id. intros k e He. eauto.
Qed.

End Laws.

End TimerQueue.

(** A queue that satisfies the laws: a finite map, searched for its least
    priority. *)

Module MapQueue.

Fixpoint least (l : list (Z * Instant)) : option (Z * Instant) :=
  match l with
  | [] => None
  | x :: l => match least l with
              | Some y => if x.2 <=? y.2 then Some x else Some y
              | None => Some x
              end
  end.

Lemma least_none l : least l = None -> l = [].
Proof. destruct l as [|x l]; cbn; [done|]. destruct (least l); zcase; done. Qed.

Lemma least_some l k e : least l = Some (k, e) -> (k, e) ∈ l /\ forall k' e', (k', e') ∈ l -> e <= e'.
Proof.
  revert k e. induction l as [|[a b] l IH]; cbn; intros k e H; [done|].
  destruct (least l) as [[k0 e0]|] eqn:E.
  - destruct (IH _ _ eq_refl) as [Hin Hmin]. cbn in H. destruct (Z.leb_spec b e0); simplify_eq; split.
    + left.
    + intros k' e' [[=]|Hk]%elem_of_cons; [lia|]. specialize (Hmin _ _ Hk). lia.
    + by right.
    + intros k' e' [[=]|Hk]%elem_of_cons; [lia|]. eauto.
  - apply least_none in E as ->. simplify_eq. split; [left|]. intros k' e' [[=]|?%not_elem_of_nil]%elem_of_cons; [lia|done].
Qed.

#[export] Instance map_queue : DoublePriorityQueue (gmap Z Instant) := {
  dpq_new := ∅;
  dpq_len q := Z.of_nat (size q);
  dpq_push k e q := <[k := e]> q;
  dpq_remove k q := delete k q;
  dpq_peek_min q := least (map_to_list q);
  dpq_pop_min q := match least (map_to_list q) with
                   | Some (k, e) => (Some (k, e), delete k q)
                   | None => (None, q)
                   end;
  dpq_clear q := ∅;
}.

#[export] Program Instance map_queue_lawful : LawfulQueue (gmap Z Instant) := {
  contents q := q;
}.
Solve Obligations with try done.
Next Obligation. intros q H. apply least_none in H. by apply map_to_list_empty_iff. Qed.
Next Obligation.
  intros q k e H. apply least_some in H as [Hin Hmin]. split; [by apply elem_of_map_to_list|].
  intros k' e' Hk. eapply Hmin, elem_of_map_to_list, Hk.
Qed.
Next Obligation. intros q. cbn. by destruct (least (map_to_list q)) as [[k e]|]. Qed.
Next Obligation. intros q k e H. cbn in *. by rewrite H. Qed.

End MapQueue.
