(* ===== verification/Tls.v ===== *)
(** * Keys and the TLS session

    Models [src/src/tls/key.rs] and the keys of [src/src/tls/boringssl/crypto.rs]
    (Module [CryptoKey]), the crypto streams of [src/src/connection/connection.rs]
    (Module [CryptoStreams]), and [TlsSession] of [src/src/tls/tls.rs] with the
    callbacks of [src/src/tls/boringssl/tls.rs] (Module [TlsSession]).

    The primitives of the [ring] package and BoringSSL are operations of two
    classes: [CryptoBackend] for HKDF and the ciphers, [TlsBackend] for the TLS
    state machine.  A call into BoringSSL may call back before it returns; it is a
    [Dialogue], a tree of callbacks that branches on what each callback returned.
    Key logging, the selection of certificates and session tickets are left out,
    and storing the pointer to the session data ([SSL_set_ex_data]) succeeds. *)

From stdpp Require Import strings.
From S2P Require Import Prelude.
From S2P Require Import Error.
From S2P Require Import Time.
From S2P Require Import Codec.
From S2P Require Import Wire.
From S2P Require Import SendBuf.
From S2P Require Import RecvBuf.
From S2P Require Import Stream.
From S2P Require Import ConnectionId.
From S2P Require Import Packet.
From S2P Require Import Protect.
From S2P Require Import Space.
From S2P Require Import Timers.

#[global] Instance level_eq_dec : EqDecision Level.
Proof. solve_decision. Defined.

(** ** Keys *)

Inductive Algorithm := Aes128Gcm | Aes256Gcm | ChaCha20Poly1305.
Inductive Hkdf := HKDF_SHA256 | HKDF_SHA384.

Definition hkdf_algor (a : Algorithm) : Hkdf :=
  match a with Aes256Gcm => HKDF_SHA384 | _ => HKDF_SHA256 end.
Definition key_len (a : Algorithm) : Z := match a with Aes128Gcm => 16 | _ => 32 end.
Definition nonce_len (a : Algorithm) : Z := 12.
Definition tag_len (a : Algorithm) : Z := 16.

(** A pseudorandom key of [ring::hkdf] knows its algorithm. *)
Definition Prk : Type := (Hkdf * list Z)%type.

(** [hkdf::Salt::extract], [Prk::expand] followed by [fill], [EVP_AEAD_CTX_init] with
    the sealing and opening it enables, [HeaderProtectionKey::new] with its
    [new_mask], and the tag of a Retry packet as in [Packet]. *)
Class CryptoBackend := {
  hkdf_extract : Hkdf -> list Z -> list Z -> list Z;
  hkdf_expand : Prk -> list Z -> Z -> option (list Z);
  aead_init : Algorithm -> list Z ->
    option ((list Z -> list Z -> list Z -> option (list Z) -> option (list Z)) *
            (list Z -> list Z -> list Z -> option (list Z)));
  hp_init : Algorithm -> list Z -> option (list Z -> option (list Z));
  retry_tag : list Z -> option (list Z);
}.

Module CryptoKey.

Section Keys.
Context `{CryptoBackend}.

Definition LABEL_PREFIX : list Z := [116; 108; 115; 49; 51; 32].
Definition INITIAL_SALT : list Z :=
  [0x38; 0x76; 0x2c; 0xf7; 0xf5; 0x59; 0x34; 0xb3; 0x4d; 0x17; 0x9a; 0xe6; 0xa4; 0xc8; 0x0c;
   0xad; 0xcc; 0xbb; 0x7f; 0x0a].

(** [tls13 ] and the label, between their lengths and an empty context. *)
Definition hkdf_expand_label (prk : Prk) (label : list Z) (n : Z) : res (list Z) :=
  let info := be_bytes 2 (wrap 16 n) ++ [wrap 8 (len LABEL_PREFIX + len label)] ++ LABEL_PREFIX ++ label ++ [0] in
  ok_or CryptoFail (hkdf_expand prk info n).

Definition derive_initial_secret (secret : list Z) (version : Z) : Prk :=
  (HKDF_SHA256, hkdf_extract HKDF_SHA256 INITIAL_SALT secret).
(** The labels [client in], [server in], [quic key], [quic iv], [quic hp] and [quic ku]. *)
Definition derive_client_initial_secret (prk : Prk) (n : Z) : res (list Z) :=
  hkdf_expand_label prk [99; 108; 105; 101; 110; 116; 32; 105; 110] n.
Definition derive_server_initial_secret (prk : Prk) (n : Z) : res (list Z) :=
  hkdf_expand_label prk [115; 101; 114; 118; 101; 114; 32; 105; 110] n.
Definition derive_pkt_key (algor : Hkdf) (secret : list Z) (n : Z) : res (list Z) :=
  hkdf_expand_label (algor, secret) [113; 117; 105; 99; 32; 107; 101; 121] n.
Definition derive_pkt_iv (algor : Hkdf) (secret : list Z) (n : Z) : res (list Z) :=
  hkdf_expand_label (algor, secret) [113; 117; 105; 99; 32; 105; 118] n.
Definition derive_hdr_key (algor : Hkdf) (secret : list Z) (n : Z) : res (list Z) :=
  hkdf_expand_label (algor, secret) [113; 117; 105; 99; 32; 104; 112] n.
Definition derive_next_packet_secret (algor : Hkdf) (secret : list Z) (n : Z) : res (list Z) :=
  hkdf_expand_label (algor, secret) [113; 117; 105; 99; 32; 107; 117] n.

(** [Seal] and [Open] have the same fields: the algorithm, the secret, the header
    key as bytes, and the ciphers with the nonce they were set up with. *)
Record CryptoKey := mkKey {
  algor : Algorithm;
  secret : list Z;
  hdr_raw : list Z;
  pkt_raw : list Z;
  iv : list Z;
  ctx : (list Z -> list Z -> list Z -> option (list Z) -> option (list Z)) *
        (list Z -> list Z -> list Z -> option (list Z));
  mask : list Z -> option (list Z);
}.

(** The operations of [Protect] under a key. *)
Definition aead (k : CryptoKey) : Aead :=
  {| evp_seal := (ctx k).1; evp_open := (ctx k).2; hp_mask := mask k |}.

Definition new (algor : Algorithm) (secret hp_key key iv : list Z) : res CryptoKey :=
  m ← ok_or CryptoFail (hp_init algor hp_key);
  c ← ok_or CryptoFail (aead_init algor key);
  mret (mkKey algor secret hp_key key iv c m).

Definition new_with_secret (algor : Algorithm) (secret : list Z) : res CryptoKey :=
  key ← derive_pkt_key (hkdf_algor algor) secret (key_len algor);
  iv ← derive_pkt_iv (hkdf_algor algor) secret (nonce_len algor);
  hp_key ← derive_hdr_key (hkdf_algor algor) secret (key_len algor);
  new algor secret hp_key key iv.

(** The header protection key is not updated. *)
Definition derive_next_packet_key (k : CryptoKey) : res CryptoKey :=
  next_secret ← derive_next_packet_secret (hkdf_algor (algor k)) (secret k) (len (secret k));
  next_key ← new_with_secret (algor k) next_secret;
  m ← ok_or CryptoFail (hp_init (algor k) (hdr_raw k));
  mret (mkKey (algor next_key) (secret next_key) (hdr_raw k) (pkt_raw next_key) (iv next_key) (ctx next_key) m).

(** The opening and the sealing key of the first flight.  The buffer [secret] is
    reused, so both keys keep the secret of the server. *)
Definition derive_initial_secrets (cid : list Z) (version : Z) (is_server : bool) : res (CryptoKey * CryptoKey) :=
  let a := Aes128Gcm in
  let initial_secret := derive_initial_secret cid version in
  client ← derive_client_initial_secret initial_secret 32;
  client_key ← derive_pkt_key (hkdf_algor a) client (key_len a);
  client_iv ← derive_pkt_iv (hkdf_algor a) client (nonce_len a);
  client_hp_key ← derive_hdr_key (hkdf_algor a) client (key_len a);
  server ← derive_server_initial_secret initial_secret 32;
  server_key ← derive_pkt_key (hkdf_algor a) server (key_len a);
  server_iv ← derive_pkt_iv (hkdf_algor a) server (nonce_len a);
  server_hp_key ← derive_hdr_key (hkdf_algor a) server (key_len a);
  c ← new a server client_hp_key client_key client_iv;
  s ← new a server server_hp_key server_key server_iv;
  mret (if is_server then (c, s) else (s, c)).

End Keys.

End CryptoKey.

Abbreviation CryptoKey := CryptoKey.CryptoKey.

Record Keys := mkKeys { open : option CryptoKey; seal : option CryptoKey }.

Definition keys_default : Keys := mkKeys None None.

(** ** The crypto streams *)

Module CryptoStreams.

(** [stream::MAX_STREAM_WINDOW] *)
Definition MAX_STREAM_WINDOW : Z := 6 * 1024 * 1024.

Record CryptoStreams := mkStreams { initial : Stream.Stream; handshake : Stream.Stream; onertt : Stream.Stream }.

Definition new_stream : Stream.Stream := Stream.new true true U64_MAX U64_MAX MAX_STREAM_WINDOW.
Definition new : CryptoStreams := mkStreams new_stream new_stream new_stream.

Definition get_mut (level : Level) (c : CryptoStreams) : res Stream.Stream :=
  match level with
  | LevelInitial => Ok (initial c)
  | LevelHandshake => Ok (handshake c)
  | LevelOneRTT => Ok (onertt c)
  | LevelZeroRTT => Err InternalError
  end.

(** Writing back through the reference. *)
Definition set (level : Level) (s : Stream.Stream) (c : CryptoStreams) : CryptoStreams :=
  match level with
  | LevelInitial => mkStreams s (handshake c) (onertt c)
  | LevelHandshake => mkStreams (initial c) s (onertt c)
  | LevelOneRTT => mkStreams (initial c) (handshake c) s
  | LevelZeroRTT => c
  end.

(** Both arms reset the first stream. *)
Definition clear (level : Level) (c : CryptoStreams) : CryptoStreams :=
  match level with
  | LevelInitial => mkStreams new_stream (handshake c) (onertt c)
  | LevelHandshake => mkStreams new_stream (handshake c) (onertt c)
  | _ => c
  end.

(** The closure of [get_write_method]. *)
Definition write (level : Level) (data : list Z) : action Error CryptoStreams unit := fun c =>
  match get_mut level c with
  | Ok s =>
      let '(r, b) := SendBuf.write data false (Stream.send s) in
      (r ≫= fun _ => Ok tt, set level (Stream.with_send b s) c)
  | Err e => (Err e, c)
  | Panic => (Panic, c)
  end.

End CryptoStreams.

(** ** BoringSSL *)

(** What a running handshake asks for: to install a secret for reading or writing
    (level, cipher id, secret), to send handshake data, to send an alert; each goes
    on with the result of the callback, 1 for success. *)
Inductive Dialogue (T : Type) : Type :=
| Return (rc : Z) (t : T)
| SetReadSecret (level : Level) (cipher : Z) (secret : list Z) (k : Z -> Dialogue T)
| SetWriteSecret (level : Level) (cipher : Z) (secret : list Z) (k : Z -> Dialogue T)
| AddHandshakeData (level : Level) (data : list Z) (k : Z -> Dialogue T)
| SendAlert (level : Level) (alert : Z) (k : Z -> Dialogue T).
Arguments Return {_} _ _.
Arguments SetReadSecret {_} _ _ _ _.
Arguments SetWriteSecret {_} _ _ _ _.
Arguments AddHandshakeData {_} _ _ _.
Arguments SendAlert {_} _ _ _.

Class TlsBackend (T : Type) := {
  ssl_provide_quic_data : Level -> list Z -> T -> Z * T;
  ssl_do_handshake : T -> Dialogue T;
  ssl_process_quic_post_handshake : T -> Dialogue T;
  ssl_get_error : Z -> T -> Z;
  ssl_reset_early_data_reject : T -> T;
  ssl_in_init : T -> bool;
  ssl_in_early_data : T -> bool;
  ssl_quic_write_level : T -> Level;
  ssl_peer_quic_transport_params : T -> list Z;
  ssl_set_quic_transport_params : list Z -> T -> Z * T;
  ssl_set_session : list Z -> T -> option Z * T;
  ssl_clear : T -> Z * T;
}.

Module TlsSession.

Section TlsSession.
Context {T : Type} `{TlsBackend T} `{CryptoBackend}.

(** The fields of [TlsSessionData] the connection depends on; [error] is the code of
    the [TlsError]. *)
Record TlsSessionData := mkData {
  k_initial : Keys;
  k_zerortt : Keys;
  k_handshake : Keys;
  k_onertt : Keys;
  is_server : bool;
  error : option Z;
  early_data_rejected : bool;
}.

Record TlsSession := mkSession {
  ssl : T;
  provided_data_outstanding : bool;
  data : TlsSessionData;
  current_key_phase : bool;
  prev_key : option Keys;
  next_key : option Keys;
}.

Definition with_ssl (t : T) (s : TlsSession) : TlsSession :=
  mkSession t (provided_data_outstanding s) (data s) (current_key_phase s) (prev_key s) (next_key s).
Definition with_outstanding (b : bool) (s : TlsSession) : TlsSession :=
  mkSession (ssl s) b (data s) (current_key_phase s) (prev_key s) (next_key s).
Definition with_data (d : TlsSessionData) (s : TlsSession) : TlsSession :=
  mkSession (ssl s) (provided_data_outstanding s) d (current_key_phase s) (prev_key s) (next_key s).
Definition with_prev_key (k : option Keys) (s : TlsSession) : TlsSession :=
  mkSession (ssl s) (provided_data_outstanding s) (data s) (current_key_phase s) k (next_key s).
Definition with_next_key (k : option Keys) (s : TlsSession) : TlsSession :=
  mkSession (ssl s) (provided_data_outstanding s) (data s) (current_key_phase s) (prev_key s) k.

Definition new (t : T) (is_server : bool) : TlsSession :=
  mkSession t false (mkData keys_default keys_default keys_default keys_default is_server None false) false None None.

(** [key_collection[level]] *)
Definition data_keys (level : Level) (d : TlsSessionData) : Keys :=
  match level with
  | LevelInitial => k_initial d
  | LevelZeroRTT => k_zerortt d
  | LevelHandshake => k_handshake d
  | LevelOneRTT => k_onertt d
  end.
Definition with_keys (level : Level) (k : Keys) (d : TlsSessionData) : TlsSessionData :=
  match level with
  | LevelInitial => mkData k (k_zerortt d) (k_handshake d) (k_onertt d) (is_server d) (error d) (early_data_rejected d)
  | LevelZeroRTT => mkData (k_initial d) k (k_handshake d) (k_onertt d) (is_server d) (error d) (early_data_rejected d)
  | LevelHandshake => mkData (k_initial d) (k_zerortt d) k (k_onertt d) (is_server d) (error d) (early_data_rejected d)
  | LevelOneRTT => mkData (k_initial d) (k_zerortt d) (k_handshake d) k (is_server d) (error d) (early_data_rejected d)
  end.
Definition with_error (e : option Z) (d : TlsSessionData) : TlsSessionData :=
  mkData (k_initial d) (k_zerortt d) (k_handshake d) (k_onertt d) (is_server d) e (early_data_rejected d).
Definition with_rejected (b : bool) (d : TlsSessionData) : TlsSessionData :=
  mkData (k_initial d) (k_zerortt d) (k_handshake d) (k_onertt d) (is_server d) (error d) b.

(** *** Callbacks *)

Definition get_cipher_from_ptr (cipher_id : Z) : option Algorithm :=
  if cipher_id =? 0x03001301 then Some Aes128Gcm
  else if cipher_id =? 0x03001302 then Some Aes256Gcm
  else if cipher_id =? 0x03001303 then Some ChaCha20Poly1305
  else None.

Definition set_read_secret (level : Level) (cipher : Z) (secret : list Z) (d : TlsSessionData) : Z * TlsSessionData :=
  match get_cipher_from_ptr cipher with
  | None => (0, d)
  | Some algor =>
      if negb (bool_decide (level = LevelZeroRTT)) || is_server d then
        match CryptoKey.new_with_secret algor secret with
        | Ok k => (1, with_keys level (mkKeys (Some k) (seal (data_keys level d))) d)
        | _ => (0, d)
        end
      else (1, d)
  end.

Definition set_write_secret (level : Level) (cipher : Z) (secret : list Z) (d : TlsSessionData) : Z * TlsSessionData :=
  match get_cipher_from_ptr cipher with
  | None => (0, d)
  | Some algor =>
      if negb (bool_decide (level = LevelZeroRTT)) || negb (is_server d) then
        match CryptoKey.new_with_secret algor secret with
        | Ok k => (1, with_keys level (mkKeys (open (data_keys level d)) (Some k)) d)
        | _ => (0, d)
        end
      else (1, d)
  end.

Definition send_alert (alert : Z) (d : TlsSessionData) : Z * TlsSessionData := (1, with_error (Some (0x100 + alert)) d).

(** The callbacks of one call, in order; a panic in one ends the call. *)
Fixpoint run_dialogue (t : Dialogue T) (d : TlsSessionData) (c : CryptoStreams.CryptoStreams)
  : option (Z * T) * TlsSessionData * CryptoStreams.CryptoStreams :=
  match t with
  | Return rc t => (Some (rc, t), d, c)
  | SetReadSecret level cipher secret k =>
      let '(rc, d) := set_read_secret level cipher secret d in run_dialogue (k rc) d c
  | SetWriteSecret level cipher secret k =>
      let '(rc, d) := set_write_secret level cipher secret d in run_dialogue (k rc) d c
  | AddHandshakeData level bytes k =>
      let '(r, c) := CryptoStreams.write level bytes c in
      match r with
      | Ok _ => run_dialogue (k 1) d c
      | Err _ => run_dialogue (k 0) d c
      | Panic => (None, d, c)
      end
  | SendAlert level alert k =>
      let '(rc, d) := send_alert alert d in run_dialogue (k rc) d c
  end.

(** *** The session *)

(** The state the TLS operations work on: the session and the crypto streams it
    shares with the connection. *)
Abbreviation Tls := (TlsSession * CryptoStreams.CryptoStreams)%type.

(** The text of an SSL error is left out. *)
Definition map_result_ssl (rc : Z) (has_data : bool) (s : TlsSession) : res unit * TlsSession :=
  if rc =? 1 then (Ok tt, s)
  else
    let e := ssl_get_error rc (ssl s) in
    if e =? 1 then (Err (TlsFail "SSL error"), s)
    else if (e =? 2) || (e =? 3) || (e =? 4) then (Err Done, s)
    else if e =? 5 then (Err (TlsFail "SSL error, syscall"), s)
    else if (e =? 11) || (e =? 12) || (e =? 13) || (e =? 14) then (Err Done, s)
    else if e =? 15 then
      let s := with_ssl (ssl_reset_early_data_reject (ssl s)) s in
      (Err Done, if has_data then with_data (with_rejected true (data s)) s else s)
    else if e =? 16 then (Err Done, s)
    else (Err (TlsFail "SSL error, unknown"), s).

Definition set_transport_error (rc : Z) (s : TlsSession) : TlsSession :=
  if (ssl_get_error rc (ssl s) =? 1) && bool_decide (error (data s) = None)
  then with_data (with_error (Some 0x01) (data s)) s else s.

Definition provide_data (level : Level) (buf : list Z) (s : TlsSession) : res unit * TlsSession :=
  let '(rc, t) := ssl_provide_quic_data level buf (ssl s) in
  map_result_ssl rc false (with_ssl t (with_outstanding true s)).

(** Run a call and translate its result. *)
Definition converse (f : T -> Dialogue T) : action Error Tls unit := fun '(s, c) =>
  match run_dialogue (f (ssl s)) (data s) c with
  | (Some (rc, t), d, c) =>
      let s := set_transport_error rc (with_data d (with_ssl t s)) in
      let '(r, s) := map_result_ssl rc true s in (r, (s, c))
  | (None, d, c) => (Panic, (with_data d s, c))
  end.

Definition is_completed (s : TlsSession) : bool := negb (ssl_in_init (ssl s)).
Definition is_in_early_data (s : TlsSession) : bool := ssl_in_early_data (ssl s).
Definition write_level (s : TlsSession) : Level := ssl_quic_write_level (ssl s).
Definition peer_transport_params (s : TlsSession) : list Z := ssl_peer_quic_transport_params (ssl s).

Definition process_post_handshake : action Error Tls unit := fun '(s, c) =>
  if negb (provided_data_outstanding s) then (Ok tt, (s, c))
  else converse ssl_process_quic_post_handshake (with_outstanding false s, c).

Definition process : action Error Tls unit := fun x =>
  if is_completed x.1 then process_post_handshake x else converse ssl_do_handshake x.

Definition provide (level : Level) (buf : list Z) : action Error Tls unit := fun '(s, c) =>
  match buf with
  | [] => (Err (TlsFail "no data"), (s, c))
  | _ =>
      let '(r, s) := provide_data level buf s in
      match r with
      | Ok _ => process (s, c)
      | _ => (r, (s, c))
      end
  end.

Definition set_transport_params (buf : list Z) (s : TlsSession) : res unit * TlsSession :=
  let '(rc, t) := ssl_set_quic_transport_params buf (ssl s) in map_result_ssl rc false (with_ssl t s).
(** [ssl_set_session] gives [None] for bytes that are not a session. *)
Definition set_session (bytes : list Z) (s : TlsSession) : res unit * TlsSession :=
  let '(o, t) := ssl_set_session bytes (ssl s) in
  (match o with
   | None => Err (TlsFail "SSL session is null")
   | Some rc => if rc =? 1 then Ok tt else Err (TlsFail "SSL set session failed")
   end, with_ssl t s).
Definition clear (s : TlsSession) : res unit * TlsSession :=
  let '(rc, t) := ssl_clear (ssl s) in map_result_ssl rc false (with_ssl t s).

Definition derive_initial_secrets (cid : list Z) (version : Z) (s : TlsSession) : res unit * TlsSession :=
  match CryptoKey.derive_initial_secrets cid version (is_server (data s)) with
  | Ok (o, k) => (Ok tt, with_data (with_keys LevelInitial (mkKeys (Some o) (Some k)) (data s)) s)
  | Err e => (Err e, s)
  | Panic => (Panic, s)
  end.

Definition get_keys (level : Level) (s : TlsSession) : Keys := data_keys level (data s).
Definition drop_keys (level : Level) (s : TlsSession) : TlsSession :=
  with_data (with_keys level keys_default (data s)) s.
Definition get_overhead (level : Level) (s : TlsSession) : option Z :=
  (fun k => tag_len (CryptoKey.algor k)) <$> seal (get_keys level s).

(** *** Key updates *)

Definition derive_keys (s : TlsSession) : res Keys :=
  match k_onertt (data s) with
  | mkKeys (Some o) (Some k) =>
      o ← CryptoKey.derive_next_packet_key o;
      k ← CryptoKey.derive_next_packet_key k;
      mret (mkKeys (Some o) (Some k))
  | _ => Err (TlsFail "derive not available now")
  end.

(** [if self.next_key.is_none() { self.next_key = Some(self.derive_keys()?) }] *)
Definition ensure_next_key : action Error TlsSession Keys := fun s =>
  match next_key s with
  | Some k => (Ok k, s)
  | None =>
      match derive_keys s with
      | Ok k => (Ok k, with_next_key (Some k) s)
      | Err e => (Err e, s)
      | Panic => (Panic, s)
      end
  end.

(** The key a packet is to be opened with, and whether it announces an update. *)
Definition select_key (confirmed : bool) (hdr : PacketHeader) (space : PacketNumSpace.PacketNumSpace)
  : action Error TlsSession (CryptoKey * bool) := fun s =>
  if negb confirmed || negb (bool_decide (Packet.pkt_type hdr = OneRTT)) || eqb (current_key_phase s) (Packet.key_phase hdr) then
    ((level ← to_level (Packet.pkt_type hdr); k ← ok_or InternalError (open (get_keys level s)); mret (k, false)), s)
  else
    if match PacketNumSpace.first_pkt_num_recv space with Some first => first <? Packet.pkt_num hdr | None => false end then
      (k ← ensure_next_key; o ← lift (ok_or InternalError (open k)); mret (o, true)) s
    else
      match prev_key s with
      | Some k => ((o ← ok_or InternalError (open k); mret (o, false)), s)
      | None => (Err Done, s)
      end.

(** The next keys become the current ones and those the previous ones. *)
Definition rotate (k : Keys) (s : TlsSession) : TlsSession :=
  mkSession (ssl s) (provided_data_outstanding s) (with_keys LevelOneRTT k (data s)) (negb (current_key_phase s))
    (Some (k_onertt (data s))) None.

Definition reset_key_phase_tracking (space : PacketNumSpace.PacketNumSpace) : PacketNumSpace.PacketNumSpace :=
  PacketNumSpace.with_first_pkt_num_sent None (PacketNumSpace.with_first_pkt_num_recv None space).

Definition update_key : action Error (TlsSession * PacketNumSpace.PacketNumSpace) unit := fun '(s, space) =>
  match ensure_next_key s with
  | (Ok k, s) => (Ok tt, (rotate k s, reset_key_phase_tracking space))
  | (Err e, s) => (Err e, (s, space))
  | (Panic, s) => (Panic, (s, space))
  end.

Definition try_update_key (attempt_key_update : bool) (hdr : PacketHeader) (now : Instant) (max_pto : option Duration)
  : action Error (TlsSession * PacketNumSpace.PacketNumSpace * TimerTable.TimerTable) bool := fun '(s, space, timers) =>
  let '(r, (s, space)) := if attempt_key_update then update_key (s, space) else (Ok tt, (s, space)) in
  match r with
  | Ok _ =>
      if bool_decide (PacketNumSpace.first_pkt_num_recv space = None) && eqb (current_key_phase s) (Packet.key_phase hdr) then
        let space := PacketNumSpace.with_first_pkt_num_recv (Some (Packet.pkt_num hdr)) space in
        match prev_key s, max_pto with
        | Some _, Some d =>
            match dur_mul d 3 with
            | Ok d => (Ok attempt_key_update, (s, space, TimerTable.set KeyDiscard (now + d) timers))
            | Err e => (Err e, (s, space, timers))
            | Panic => (Panic, (s, space, timers))
            end
        | _, _ => (Ok attempt_key_update, (s, space, timers))
        end
      else (Ok attempt_key_update, (s, space, timers))
  | Err e => (Err e, (s, space, timers))
  | Panic => (Panic, (s, space, timers))
  end.

(** A packet of the current phase was acknowledged in one of the data spaces. *)
Definition key_update_allowed (spaces : list PacketNumSpace.PacketNumSpace) : bool :=
  existsb (fun x => PacketNumSpace.is_data x &&
    match PacketNumSpace.first_pkt_num_sent x with
    | Some first => first <=? PacketNumSpace.largest_acked_pkt x
    | None => false
    end) spaces.

Definition initiate_key_update : action Error (TlsSession * list PacketNumSpace.PacketNumSpace) unit := fun '(s, spaces) =>
  if negb (key_update_allowed spaces) then (Err Done, (s, spaces))
  else
    match ensure_next_key s with
    | (Ok k, s) =>
        (Ok tt, (rotate k s, map (fun x => if PacketNumSpace.is_data x then reset_key_phase_tracking x else x) spaces))
    | (Err e, s) => (Err e, (s, spaces))
    | (Panic, s) => (Panic, (s, spaces))
    end.

Definition discard_prev_key (s : TlsSession) : TlsSession := with_prev_key None s.

End TlsSession.

End TlsSession.
