(* ===== verification/Scheduler.v ===== *)
(** * Multipath schedulers

    Models [src/src/multipath_scheduler/]: the five schedulers that choose the
    path of the next packet of a multipath connection, behind the interface of the
    trait [MultipathScheduler].  A scheduler works on the paths, the packet number
    spaces and the streams of the connection ([View]).  [Path::recovery.can_send]
    may refill the pacer of a path, so a selection also changes the paths it looked
    at.  The logging, and the ignored fields of the configuration, are left out. *)

From stdpp Require Import strings.
From S2P Require Import Prelude.
From S2P Require Import Error.
From S2P Require Import Time.
From S2P Require Import Btree.
From S2P Require Import Packet.
From S2P Require Import Frame.
From S2P Require Import Float64.
From S2P Require Import Rtt.
From S2P Require Import Space.
From S2P Require Import Congestion.
From S2P Require Import Recovery.
From S2P Require Import StreamMap.
From S2P Require Import Path.

Inductive MultipathAlgorithm := MinRtt | Redundant | RoundRobin | Weighted | Blest.
Inductive MultipathBondMode := Aggregate | Failover | LoadBalance.

(** [crate::MultipathConfig] *)
Record MultipathConfig := mkMultipath {
  multipath_algorithm : MultipathAlgorithm;
  bond_mode : MultipathBondMode;
  blest_lambda : f64;
  failover_rtt_threshold_us : Z;
  path_timeout_ms : Z;
  path_probe_interval_ms : Z;
}.

Inductive PathEvent :=
| PathValidated (pid : Z) | PathAbandoned (pid : Z) | PathFailed (pid : Z) | PathClosed (pid : Z)
| PathDegraded (pid : Z) | PathRecovered (pid : Z) | PathAdded (pid : Z).

(** [str::eq_ignore_ascii_case]. *)
Definition to_lower (c : Ascii.ascii) : Ascii.ascii :=
  let n := Z.of_N (Ascii.N_of_ascii c) in
  if (65 <=? n) && (n <=? 90) then Ascii.ascii_of_N (Z.to_N (n + 32)) else c.
Fixpoint lower_string (s : string) : string :=
  match s with EmptyString => EmptyString | String c s => String (to_lower c) (lower_string s) end.
Definition eq_ignore_ascii_case (a b : string) : bool := bool_decide (lower_string a = lower_string b).

Definition algorithm_from_str (algor : string) : res MultipathAlgorithm :=
  if eq_ignore_ascii_case algor "minrtt" then Ok MinRtt
  else if eq_ignore_ascii_case algor "redundant" then Ok Redundant
  else if eq_ignore_ascii_case algor "roundrobin" then Ok RoundRobin
  else if eq_ignore_ascii_case algor "weighted" then Ok Weighted
  else if eq_ignore_ascii_case algor "blest" then Ok Blest
  else Err (InvalidConfig "unknown").

Definition bond_mode_from_str (mode : string) : res MultipathBondMode :=
  if eq_ignore_ascii_case mode "aggregate" then Ok Aggregate
  else if eq_ignore_ascii_case mode "failover" then Ok Failover
  else if eq_ignore_ascii_case mode "loadbalance" then Ok LoadBalance
  else Err (InvalidConfig "unknown bond mode").

Definition buffer_required (algor : MultipathAlgorithm) : bool :=
  match algor with Redundant => true | _ => false end.

Section Schedulers.
Context {C : Type} `{CongestionController C}.

Abbreviation path := (@Path.Path C).
Abbreviation entry := (Z * path)%type.

Record View := mkView {
  v_paths : @PathMap.PathMap C;
  v_spaces : PacketNumSpaceMap.PacketNumSpaceMap;
  v_streams : StreamMap.StreamMap;
}.

Definition with_entries (l : list entry) (v : View) : View :=
  mkView (PathMap.with_paths l (v_paths v)) (v_spaces v) (v_streams v).

(** ** What the schedulers share

    [!path.active() || path.is_abandoned() || !path.recovery.can_send()], the
    test for a path that is to be skipped, negated. *)
Definition ready (now : Instant) (p : path) : res (bool * path) :=
  if negb (Path.active p) || Path.is_abandon p then Ok (false, p)
  else
    '(b, r) ← Recovery.can_send now (Path.recovery p);
    mret (b, Path.with_recovery r p).

(** Stop at the first ready path. *)
Fixpoint first_ready (now : Instant) (l : list entry) : res (option Z * list entry) :=
  match l with
  | [] => mret (None, [])
  | (pid, p) :: l =>
      '(b, p) ← ready now p;
      if (b : bool) then mret (Some pid, (pid, p) :: l)
      else '(o, l) ← first_ready now l; mret (o, (pid, p) :: l)
  end.

(** Look at every path: the ready ones, and all of them. *)
Fixpoint all_ready (now : Instant) (l : list entry) : res (list entry * list entry) :=
  match l with
  | [] => mret ([], [])
  | (pid, p) :: l =>
      '(b, p) ← ready now p;
      '(rs, l) ← all_ready now l;
      mret (if (b : bool) then (pid, p) :: rs else rs, (pid, p) :: l)
  end.

Definition srtt_of (p : path) : Duration := RttEstimator.smoothed_rtt (Recovery.rtt (Path.recovery p)).
Definition cwnd_of (p : path) : Z := cc_congestion_window (Recovery.congestion (Path.recovery p)).

(** The first entry with the least key, as [Iterator::min_by_key] and the loop of
    [MinRttScheduler] find it. *)
Fixpoint min_by {A} (key : A -> Z) (best : option A) (l : list A) : option A :=
  match l with
  | [] => best
  | x :: l =>
      min_by key (match best with
                  | None => Some x
                  | Some b => if key x <? key b then Some x else Some b
                  end) l
  end.

(** ** MinRtt *)

Definition minrtt_select (now : Instant) (l : list entry) : res (option Z * list entry) :=
  '(rs, l) ← all_ready now l;
  mret (fst <$> min_by (fun e => srtt_of e.2) None rs, l).

(** ** Redundant *)

Definition is_stream (f : Frame) : bool := match f with Stream _ _ _ _ _ => true | _ => false end.

Definition reinject (fs : list Frame) (s : PacketNumSpace.PacketNumSpace) : PacketNumSpace.PacketNumSpace :=
  PacketNumSpace.with_buffered
    (foldl (fun q f => if is_stream f then BufferQueue.push_back f High q else q) (PacketNumSpace.buffered s) fs) s.

(** [return] leaves the loop when a space is gone. *)
Fixpoint reinject_all (path_id : Z) (fs : list Frame) (l : list entry) (m : PacketNumSpaceMap.PacketNumSpaceMap)
  : PacketNumSpaceMap.PacketNumSpaceMap :=
  match l with
  | [] => m
  | (pid, p) :: l =>
      if (pid =? path_id) || negb (Path.active p) || Path.is_abandon p then reinject_all path_id fs l m
      else match PacketNumSpaceMap.get (Path.space_id p) m with
           | Some s => reinject_all path_id fs l (PacketNumSpaceMap.set (Path.space_id p) (reinject fs s) m)
           | None => m
           end
  end.

Definition redundant_on_sent (packet : SentPacket) (path_id : Z) (v : View) : View :=
  if has_buffered (buffer_flags packet) then v
  else mkView (v_paths v) (reinject_all path_id (frames packet) (PathMap.paths (v_paths v)) (v_spaces v)) (v_streams v).

(** ** RoundRobin *)

(** The entries up to and with [last], and those after it. *)
Fixpoint find_last (last : Z) (l : list entry) : option (list entry * list entry) :=
  match l with
  | [] => None
  | e :: l => if e.1 =? last then Some ([e], l) else prod_map (cons e) id <$> find_last last l
  end.

Definition rr_select (last : option Z) (now : Instant) (l : list entry) : res (option Z * list entry) :=
  match last ≫= fun k => find_last k l with
  | Some (before, after) =>
      '(o, after) ← first_ready now after;
      match o with
      | Some pid => mret (Some pid, before ++ after)
      | None => first_ready now (before ++ after)
      end
  | None => first_ready now l
  end.

(** ** Weighted *)

Record WeightedScheduler := mkWeighted {
  accumulated_weights : list (Z * Z);
  counter : Z;
  total_weight : Z;
}.

Definition calculate_weight (cwnd : Z) (srtt : Duration) : Z :=
  let srtt_ms := wrap 64 (srtt / 1000000) in
  if srtt_ms =? 0 then cwnd else Z.min (cwnd * 1000) U64_MAX / srtt_ms.

(** The entries with a weight, in order. *)
Definition raw_weights (l : list entry) : list (Z * Z) :=
  List.filter (fun e => 0 <? e.2) (map (fun e => (e.1, calculate_weight (cwnd_of e.2) (srtt_of e.2))) l).

Definition min_weight (l : list (Z * Z)) : Z := foldl (fun m e => Z.min m e.2) U64_MAX l.

(** Running totals of the weights relative to the smallest one. *)
Fixpoint accumulate (divisor total : Z) (l : list (Z * Z)) : list (Z * Z) * Z :=
  match l with
  | [] => ([], total)
  | (pid, weight) :: l =>
      let total := sat_add64 total (Z.max (weight / divisor) 1) in
      let '(acc, t) := accumulate divisor total l in ((pid, total) :: acc, t)
  end.

Definition weighted_pick (target : Z) (acc : list (Z * Z)) : res Z :=
  match List.find (fun e => target <? e.2) acc with
  | Some e => Ok e.1
  | None => e ← unwrap (last acc); mret e.1
  end.

Definition weighted_select (w : WeightedScheduler) (now : Instant) (l : list entry)
  : res (option Z * list entry * WeightedScheduler) :=
  '(rs, l) ← all_ready now l;
  let raw := raw_weights rs in
  match raw with
  | [] => mret (None, l, mkWeighted [] (counter w) 0)
  | _ =>
      let divisor := Z.max (min_weight raw) 1 in
      let '(acc, total) := accumulate divisor 0 raw in
      let counter := wrap 64 (counter w + 1) in
      pid ← weighted_pick (counter mod total) acc;
      mret (Some pid, l, mkWeighted acc counter total)
  end.

(** ** Blest *)

Record BlestScheduler := mkBlest {
  lambda : f64;
  b_bytes_in_flight : list (Z * Z);
  fallback_path : option Z;
}.

Definition estimate_completion_time (srtt : Duration) (cwnd bytes_in_flight : Z) : res Duration :=
  let srtt_ms := wrap 64 (srtt / 1000000) in
  if (srtt_ms =? 0) || (cwnd =? 0) then Ok srtt
  else
    let bandwidth := Z.min (cwnd * 1000) U64_MAX / srtt_ms in
    if bandwidth =? 0 then Ok srtt
    else dur_add srtt (from_millis (Z.min (bytes_in_flight * 1000) U64_MAX / bandwidth)).

Definition calculate_blocking_potential (path_completion min_completion min_rtt : Duration) (lambda : f64) : res bool :=
  threshold ← from_secs_f64 (fmul (as_secs_f64 min_rtt) lambda);
  limit ← dur_add min_completion threshold;
  mret (limit <? path_completion).

(** The path id, the completion time and the round trip time of each ready path. *)
Fixpoint blest_candidates (l : list entry) : res (list (Z * Duration * Duration)) :=
  match l with
  | [] => mret []
  | (pid, p) :: l =>
      ct ← estimate_completion_time (srtt_of p) (cwnd_of p) (Recovery.bytes_in_flight (Path.recovery p));
      r ← blest_candidates l;
      mret ((pid, ct, srtt_of p) :: r)
  end.

Definition least_of (d : Duration) (l : list Duration) : Duration :=
  match l with [] => d | x :: l => foldl Z.min x l end.

Fixpoint blest_eligible (lambda : f64) (min_completion min_rtt : Duration) (l : list (Z * Duration * Duration))
  : res (list (Z * Duration * Duration)) :=
  match l with
  | [] => mret []
  | c :: l =>
      blocked ← calculate_blocking_potential c.1.2 min_completion min_rtt lambda;
      r ← blest_eligible lambda min_completion min_rtt l;
      mret (if (blocked : bool) then r else c :: r)
  end.

Definition blest_select (b : BlestScheduler) (now : Instant) (l : list entry)
  : res (option Z * list entry * BlestScheduler) :=
  '(rs, l) ← all_ready now l;
  cs ← blest_candidates rs;
  match cs with
  | [] => mret (None, l, b)
  | _ =>
      let min_completion := least_of 0 (map (fun c => c.1.2) cs) in
      let min_rtt := least_of (from_millis 1) (map snd cs) in
      eligible ← blest_eligible (lambda b) min_completion min_rtt cs;
      let best := (fun c => c.1.1) <$> min_by (fun c => c.1.2) None (match eligible with [] => cs | _ => eligible end) in
      mret (best, l, mkBlest (lambda b) (b_bytes_in_flight b) best)
  end.

Fixpoint blest_track (path_id size : Z) (l : list (Z * Z)) : list (Z * Z) :=
  match l with
  | [] => [(path_id, size)]
  | e :: l => if e.1 =? path_id then (e.1, sat_add64 e.2 size) :: l else e :: blest_track path_id size l
  end.

Definition blest_on_sent (packet : SentPacket) (path_id : Z) (b : BlestScheduler) : BlestScheduler :=
  mkBlest (lambda b) (blest_track path_id (sent_size packet) (b_bytes_in_flight b)) (fallback_path b).

Definition blest_on_path_updated (ev : PathEvent) (b : BlestScheduler) : BlestScheduler :=
  match ev with
  | PathClosed pid | PathFailed pid =>
      mkBlest (lambda b) (List.filter (fun e => negb (e.1 =? pid)) (b_bytes_in_flight b))
        (if decide (fallback_path b = Some pid) then None else fallback_path b)
  | _ => b
  end.

(** ** The trait *)

Inductive Scheduler :=
| SMinRtt
| SRedundant
| SRoundRobin (last : option Z)
| SWeighted (w : WeightedScheduler)
| SBlest (b : BlestScheduler).

Definition build_multipath_scheduler (conf : MultipathConfig) : Scheduler :=
  match multipath_algorithm conf with
  | MinRtt => SMinRtt
  | Redundant => SRedundant
  | RoundRobin => SRoundRobin None
  | Weighted => SWeighted (mkWeighted [] 0 0)
  | Blest => SBlest (mkBlest (blest_lambda conf) [] None)
  end.

(** The choice of a path: its id or [None] for [Err(Done)], the paths, and the
    scheduler afterwards. *)
Definition select (now : Instant) (s : Scheduler) (l : list entry) : res (option Z * list entry * Scheduler) :=
  match s with
  | SMinRtt => '(o, l) ← minrtt_select now l; mret (o, l, SMinRtt)
  | SRedundant => '(o, l) ← first_ready now l; mret (o, l, SRedundant)
  | SRoundRobin last =>
      '(o, l) ← rr_select last now l;
      mret (o, l, SRoundRobin (match o with Some pid => Some pid | None => last end))
  | SWeighted w => '(o, l, w) ← weighted_select w now l; mret (o, l, SWeighted w)
  | SBlest b => '(o, l, b) ← blest_select b now l; mret (o, l, SBlest b)
  end.

Definition on_select (now : Instant) : action Error (Scheduler * View) Z := fun '(s, v) =>
  match select now s (PathMap.paths (v_paths v)) with
  | Ok (Some pid, l, s) => (Ok pid, (s, with_entries l v))
  | Ok (None, l, s) => (Err Done, (s, with_entries l v))
  | Err e => (Err e, (s, v))
  | Panic => (Panic, (s, v))
  end.

Definition on_sent (packet : SentPacket) (path_id : Z) (s : Scheduler) (v : View) : Scheduler * View :=
  match s with
  | SRedundant => (s, redundant_on_sent packet path_id v)
  | SBlest b => (SBlest (blest_on_sent packet path_id b), v)
  | _ => (s, v)
  end.

Definition on_path_updated (ev : PathEvent) (s : Scheduler) : Scheduler :=
  match s with SBlest b => SBlest (blest_on_path_updated ev b) | _ => s end.

End Schedulers.
