(* ===== verification/SchedulerProps.v ===== *)
(** * Properties of the multipath schedulers

    Every scheduler chooses a path that may be used, by its own criterion, and
    reports that there is none only when there is none; the weighted scheduler
    shares the packets in proportion to the weights; the blocking estimation of
    [BlestScheduler] never has an effect on its choice. *)

From stdpp Require Import strings sorting.
From S2P Require Import Prelude.
From S2P Require Import Error.
From S2P Require Import Time.
From S2P Require Import Float64.
From S2P Require Import Space.
From S2P Require Import Pacing.
From S2P Require Import Congestion.
From S2P Require Import Recovery.
From S2P Require Import Path.
From S2P Require Import Scheduler.

Lemma min_by_spec {A} (key : A -> Z) l : forall b,
  match min_by key b l with
  | Some m => (m ∈ l \/ b = Some m) /\ (forall x, x ∈ l -> key m <= key x) /\ (forall x, b = Some x -> key m <= key x)
  | None => l = [] /\ b = None
  end.
Proof.
  induction l as [|x l IH]; intros b; cbn.
  - destruct b as [b|]; [|done]. split; [by right|]. split; [by intros x ?%not_elem_of_nil|]. intros x [= ->]. lia.
  - set (b' := match b with None => Some x | Some y => if key x <? key y then Some x else Some y end).
    specialize (IH b'). destruct (min_by key b' l) as [m|].
    + destruct IH as (Hin & Hl & Hb).
      assert (Hx : key m <= key x /\ (forall y, b = Some y -> key m <= key y)).
      { unfold b' in Hb. destruct b as [y|].
        - destruct (Z.ltb_spec (key x) (key y)); specialize (Hb _ eq_refl); split; try intros ? [= ->]; lia.
        - specialize (Hb _ eq_refl). done. }
      split; [|split; [|apply Hx]].
      * destruct Hin as [Hin|Hin]; [left; by right|]. unfold b' in Hin. destruct b as [y|].
        -- destruct (key x <? key y); injection Hin as ->; [left; left|by right].
        -- injection Hin as ->. left; left.
      * destruct Hx as [Hx _]. intros y [->|Hy]%elem_of_cons; [done|by apply Hl].
    + destruct IH as [_ Hb]. unfold b' in Hb. destruct b as [y|]; [destruct (key x <? key y)|]; done.
Qed.

Lemma min_by_none {A} (key : A -> Z) l :
  match min_by key None l with
  | Some m => m ∈ l /\ forall x, x ∈ l -> key m <= key x
  | None => l = []
  end.
Proof. pose proof (min_by_spec key l None) as H. destruct (min_by key None l); naive_solver. Qed.

(** The minimum that is found is the first one. *)
Lemma min_by_find {A} (key : A -> Z) l : forall b m, min_by key (Some b) l = Some m ->
  List.find (fun x => key x <=? key m) (b :: l) = Some m.
Proof.
  induction l as [|x l IH]; intros b m; cbn.
  { intros [= ->]. by rewrite Z.leb_refl. }
  destruct (Z.ltb_spec (key x) (key b)); intros E; pose proof (IH _ _ E) as Hf; cbn in Hf.
  - pose proof (min_by_spec key l (Some x)) as Hs. rewrite E in Hs. destruct Hs as (_ & _ & Hb).
    specialize (Hb _ eq_refl). destruct (Z.leb_spec (key b) (key m)); [lia|]. done.
  - destruct (Z.leb_spec (key b) (key m)); [done|]. destruct (Z.leb_spec (key x) (key m)); [lia|done].
Qed.

Lemma min_by_first {A} (key : A -> Z) l m : min_by key None l = Some m ->
  List.find (fun x => key x <=? key m) l = Some m.
Proof. destruct l as [|x l]; cbn [min_by]; [done|]. apply min_by_find. Qed.

Lemma find_filter {A} (f g : A -> bool) l : (forall x, x ∈ l -> f x = true -> g x = true) ->
  List.find f (List.filter g l) = List.find f l.
Proof.
  induction l as [|x l IH]; intros Hfg; cbn; [done|].
  assert (IH' : List.find f (List.filter g l) = List.find f l) by (apply IH; intros y Hy; apply Hfg; by right).
  destruct (g x) eqn:Eg; cbn.
  - destruct (f x); [done|]. exact IH'.
  - destruct (f x) eqn:Ef; [|exact IH']. rewrite Hfg in Eg; [done|left|done].
Qed.

Lemma from_secs_nonneg x d : from_secs_f64 x = Ok d -> 0 <= d.
Proof.
  destruct x as [s| | |[] m e]; cbn -[Z.mul Z.pow NANOS_PER_SEC]; try done; [intros [= <-]; lia|].
  destruct (Z.leb_spec 0 e).
  - zcase; [|done]. intros [= <-]. pose proof (Z.pow_nonneg 2 e). unfold NANOS_PER_SEC. nia.
  - zcase; [|done]. intros [= <-]. unfold div_half_even, NANOS_PER_SEC.
    pose proof (Z.pow_pos_nonneg 2 (- e) ltac:(lia) ltac:(lia)).
    assert (0 <= Zpos m * 1000000000 / 2 ^ (- e)) by (apply Z.div_pos; lia).
    zcase; try lia. destruct (Z.even _); lia.
Qed.

Lemma Forall2_elem_of_l {A B} (P : A -> B -> Prop) l k x : Forall2 P l k -> x ∈ l -> exists y, y ∈ k /\ P x y.
Proof.
  intros H [i Hi]%list_elem_of_lookup. destruct (Forall2_lookup_l _ _ _ _ _ H Hi) as (y & Hy & ?).
  exists y. split; [|done]. by apply list_elem_of_lookup; exists i.
Qed.
Lemma Forall2_elem_of_r {A B} (P : A -> B -> Prop) l k y : Forall2 P l k -> y ∈ k -> exists x, x ∈ l /\ P x y.
Proof.
  intros H [i Hi]%list_elem_of_lookup. destruct (Forall2_lookup_r _ _ _ _ _ H Hi) as (x & Hx & ?).
  exists x. split; [|done]. by apply list_elem_of_lookup; exists i.
Qed.

Section Selection.
Context {C : Type} `{CongestionController C}.

Abbreviation path := (@Path.Path C).
Abbreviation entry := (Z * path)%type.

(** A path a packet may be sent on now. *)
Definition usable (now : Instant) (p : path) : Prop :=
  Path.active p = true /\ Path.is_abandon p = false /\ exists r, Recovery.can_send now (Path.recovery p) = Ok (true, r).

(** What a look at a path keeps. *)
Definition looked (p p' : path) : Prop :=
  srtt_of p' = srtt_of p /\ cwnd_of p' = cwnd_of p /\
  Recovery.bytes_in_flight (Path.recovery p') = Recovery.bytes_in_flight (Path.recovery p).

Lemma can_send_keeps now (r r' : @Recovery.Recovery C) b : Recovery.can_send now r = Ok (b, r') ->
  Recovery.rtt r' = Recovery.rtt r /\ Recovery.congestion r' = Recovery.congestion r /\
  Recovery.bytes_in_flight r' = Recovery.bytes_in_flight r.
Proof.
  unfold Recovery.can_send, Recovery.can_pacing. zcase; intros E; [by simplify_eq|].
  destruct (Pacer.enabled _); [|by simplify_eq].
  destruct (cc_pacing_rate _); cbn in E; [|by inversion E; subst].
  destruct (Pacer.schedule _ _ _ _ _ _ _) as [[t x]| |]; cbn in E; try done. by inversion E; subst.
Qed.

(** A pacer that makes a packet wait still does so when it is asked again. *)
Lemma schedule_again bytes rate srtt cwnd mtu now p t p' : Pacer.schedule bytes rate srtt cwnd mtu now p = Ok (Some t, p') ->
  Pacer.enabled p' = true /\ forall p'', Pacer.schedule bytes rate srtt cwnd mtu now p' <> Ok (None, p'').
Proof.
  unfold Pacer.schedule at 1. destruct (negb (Pacer.enabled p) || _ || _ || _) eqn:G; [done|].
  destruct (Pacer.adapt srtt cwnd mtu p) as [q| |] eqn:Ea; cbn [mbind outcome_bind]; try done.
  assert (Hq : Pacer.enabled q = Pacer.enabled p /\ Pacer.last_cwnd q = cwnd).
  { unfold Pacer.adapt in Ea. destruct (Z.eqb_spec cwnd (Pacer.last_cwnd p)); [by inversion Ea; subst|].
    unfold Pacer.update_capacity in Ea.
    destruct (mul128 _ _); try discriminate. cbn in Ea. do 2 (destruct (mul64 _ _); try discriminate; cbn in Ea).
    destruct (clamp _ _ _); try discriminate. cbn in Ea. by inversion Ea; subst. }
  destruct (Z.leb_spec bytes (Pacer.tokens q)); [done|].
  unfold Pacer.refill at 1. destruct (mul128 _ _) as [x| |]; cbn [mbind outcome_bind]; try done.
  cbn. zcase; [done|]. destruct (mul64 _ _) as [w| |]; cbn [mbind outcome_bind]; try done. intros [= <- <-].
  destruct Hq as [-> ->]. split; [by destruct (Pacer.enabled p)|]. intros p''. unfold Pacer.schedule. cbn. rewrite G. unfold Pacer.adapt. cbn. rewrite Z.eqb_refl.
  cbn [mbind outcome_bind]. zcase; [cbn in *; lia|]. unfold Pacer.refill. cbn.
  unfold since. replace (sat_sub now now) with 0 by (unfold sat_sub; lia).
  assert (mul128 rate 0 = @Ok Error Z 0) as -> by (unfold mul128; by rewrite Z.mul_0_r).
  cbn [mbind outcome_bind mret outcome_ret]. change (wrap 64 (0 / 1000000000)) with 0. cbn.
  unfold sat_add64 in *. zcase; [lia|]. destruct (mul64 _ _); discriminate.
Qed.

Lemma ready_spec now p b p' : ready now p = Ok (b, p') -> looked p p' /\ (b = true <-> usable now p).
Proof.
  unfold ready, usable. destruct (Path.active p) eqn:Ea, (Path.is_abandon p) eqn:Eb; cbn;
    try (intros [= <- <-]; split; [by unfold looked|naive_solver]).
  destruct (Recovery.can_send now (Path.recovery p)) as [[b' r]| |] eqn:E; cbn; try done.
  intros [= <- <-]. apply can_send_keeps in E as (E1 & E2 & E3). unfold looked, srtt_of, cwnd_of. cbn.
  rewrite E1, E2, E3. naive_solver.
Qed.

Lemma ready_again now p p' : ready now p = Ok (false, p') -> ~ usable now p'.
Proof.
  unfold ready, usable. destruct (Path.active p) eqn:Ea, (Path.is_abandon p) eqn:Eb; cbn;
    try (intros [= <-]; rewrite ?Ea, ?Eb; naive_solver).
  destruct (Recovery.can_send now (Path.recovery p)) as [[b' r]| |] eqn:E; cbn; try done.
  intros [= -> <-] (_ & _ & r' & Hr). cbn in Hr.
  pose proof (can_send_keeps _ _ _ _ E) as (E1 & E2 & E3).
  unfold Recovery.can_send, Recovery.can_pacing in E, Hr. rewrite E1, E2, E3 in Hr.
  destruct (Z.leb_spec (cc_congestion_window (Recovery.congestion (Path.recovery p)))
    (Recovery.bytes_in_flight (Path.recovery p))); [done|].
  destruct (Pacer.enabled (Recovery.pacer (Path.recovery p))) eqn:Ep; [|done].
  destruct (cc_pacing_rate (Recovery.congestion (Path.recovery p))) as [pr|] eqn:Epr; cbn in E.
  - destruct (Pacer.schedule _ _ _ _ _ _ _) as [[t x]| |] eqn:Es; cbn in E; try done.
    injection E as Et <-. cbn in Hr, Et. destruct t as [t|]; [|done].
    apply schedule_again in Es as [Hen Hno]. rewrite Hen in Hr.
    destruct (Pacer.schedule _ _ _ _ _ _ x) as [[[t'|] y]| |]; cbn in Hr; try done. by destruct (Hno y).
  - injection E as Et <-. rewrite Ep in Hr. cbn in Hr. injection Hr as Hr _. congruence.
Qed.

Lemma first_ready_spec now l o l' : first_ready now l = Ok (o, l') ->
  match o with
  | Some pid => exists pre p post, l = pre ++ (pid, p) :: post /\ usable now p /\ Forall (fun e => ~ usable now e.2) pre
  | None => Forall (fun e => ~ usable now e.2) l /\ Forall (fun e => ~ usable now e.2) l'
  end /\ Forall2 (fun e e' => e'.1 = e.1 /\ (looked e.2 e'.2)) l l'.
Proof.
  revert o l'. induction l as [|[pid p] l IH]; intros o l'; cbn.
  { intros [= <- <-]. split; [split|]; constructor. }
  destruct (ready now p) as [[b p']| |] eqn:E; cbn; try done. pose proof (ready_spec _ _ _ _ E) as [Hl Hb]. destruct b.
  - intros [= <- <-]. split.
    + exists [], p, l. split; [done|]. split; [tauto|constructor].
    + constructor; [done|]. apply Forall2_same_length_lookup_2; [done|]. intros i x y Hx Hy. simplify_eq. by unfold looked.
  - destruct (first_ready now l) as [[o1 l1]| |] eqn:E1; cbn; try done. intros [= <- <-].
    destruct (IH _ _ eq_refl) as [IH1 IH2]. assert (~ usable now p) by naive_solver. split; [|by constructor].
    destruct o1 as [k|]; [|apply ready_again in E; destruct IH1; split; by constructor]. destruct IH1 as (pre & q & post & -> & Hq & Hpre).
    exists ((pid, p) :: pre), q, post. split; [done|]. split; [done|by constructor].
Qed.

Lemma all_ready_spec now l rs l' : all_ready now l = Ok (rs, l') ->
  forall pid, (forall p', (pid, p') ∈ rs -> exists p, (pid, p) ∈ l /\ usable now p /\ looked p p') /\
         (forall p, (pid, p) ∈ l -> usable now p -> exists p', (pid, p') ∈ rs /\ looked p p').
Proof.
  revert rs l'. induction l as [|[k q] l IH]; intros rs l'; cbn.
  { intros [= <- <-] pid. split; intros ? ?%not_elem_of_nil; done. }
  destruct (ready now q) as [[b q']| |] eqn:E; cbn; try done. apply ready_spec in E as [Hl Hb].
  destruct (all_ready now l) as [[rs1 l1]| |]; cbn; try done. intros [= <- <-] pid.
  specialize (IH _ _ eq_refl pid) as [IH1 IH2]. split.
  - intros p' Hin. assert ((pid, p') ∈ rs1 \/ (b = true /\ pid = k /\ p' = q')) as [Hr|(-> & -> & ->)].
    { destruct b; [apply elem_of_cons in Hin as [[= -> ->]|]|]; auto. }
    + destruct (IH1 _ Hr) as (p & Hp & ?). exists p. split; [by right|done].
    + exists q. split; [left|]. tauto.
  - intros p [[= -> ->]|Hp]%elem_of_cons Hu.
    + apply Hb in Hu as ->. exists q'. split; [left|done].
    + destruct (IH2 _ Hp Hu) as (p' & Hp' & ?). exists p'. split; [|done]. destruct b; [by right|done].
Qed.

(** ** Blest

    The candidates, each with the time it takes to be done. *)
Lemma candidates_spec rs cs : blest_candidates rs = Ok cs ->
  Forall2 (fun (e : entry) c => c.1.1 = e.1 /\
    estimate_completion_time (srtt_of e.2) (cwnd_of e.2) (Recovery.bytes_in_flight (Path.recovery e.2)) = Ok c.1.2) rs cs.
Proof.
  revert cs. induction rs as [|[pid p] rs IH]; intros cs; cbn; [intros [= <-]; constructor|].
  destruct (estimate_completion_time _ _ _) as [ct| |] eqn:E; cbn; try done.
  destruct (blest_candidates rs) as [cs1| |]; cbn; try done. intros [= <-]. constructor; [done|]. by apply IH.
Qed.

Lemma foldl_min_le l : forall x, foldl Z.min x l <= x /\ Forall (fun y => foldl Z.min x l <= y) l.
Proof.
  induction l as [|y l IH]; intros x; cbn; [split; [lia|constructor]|].
  destruct (IH (Z.min x y)) as [H1 H2]. split; [lia|]. constructor; [lia|done].
Qed.

Lemma least_of_le d l x : x ∈ l -> least_of d l <= x.
Proof.
  destruct l as [|y l]; cbn; [by intros ?%not_elem_of_nil|]. destruct (foldl_min_le l y) as [H1 H2].
  intros [->|Hx]%elem_of_cons; [done|]. rewrite Forall_forall in H2. by apply H2.
Qed.

Lemma least_of_in d l : l <> [] -> least_of d l ∈ l.
Proof.
  destruct l as [|x l]; [done|]. intros _. cbn. revert x. induction l as [|y l IH]; intros x; cbn; [left|].
  destruct (Z.min_spec x y) as [[_ ->]|[_ ->]].
  - destruct (elem_of_cons l (foldl Z.min x l) x) as [Hc _]. destruct (Hc (IH x)) as [->|?]; [left|by right; right].
  - right. apply IH.
Qed.

(** The paths that are not held back are those that are done by some limit, which
    the fastest one meets. *)
Lemma eligible_filter lam mc mr cs es : blest_eligible lam mc mr cs = Ok es ->
  exists limit, mc <= limit /\ es = List.filter (fun c => c.1.2 <=? limit) cs.
Proof.
  revert es. induction cs as [|c cs IH]; intros es; cbn; [intros [= <-]; by exists mc|].
  unfold calculate_blocking_potential at 1.
  destruct (from_secs_f64 _) as [th| |] eqn:Eth; cbn; try done.
  unfold dur_add. destruct (Z.ltb_spec (mc + th) DURATION_LIMIT) as [Hlim|]; cbn; try done.
  destruct (blest_eligible lam mc mr cs) as [es1| |] eqn:Ees; cbn; try done. intros [= <-].
  pose proof (from_secs_nonneg _ _ Eth). exists (mc + th). split; [lia|].
  assert (es1 = List.filter (fun c => c.1.2 <=? mc + th) cs) as ->.
  { clear IH. revert es1 Ees. induction cs as [|x cs IH]; intros es1; cbn; [by intros [= <-]|].
    unfold calculate_blocking_potential at 1. rewrite Eth. cbn. unfold dur_add.
    destruct (Z.ltb_spec (mc + th) DURATION_LIMIT); [|lia]. cbn.
    destruct (blest_eligible lam mc mr cs) as [es2| |]; cbn; try done. intros [= <-]. rewrite (IH _ eq_refl).
    rewrite Z.leb_antisym. by destruct (mc + th <? x.1.2). }
  rewrite Z.leb_antisym. by destruct (mc + th <? c.1.2).
Qed.

(** The choice, written without the estimation. *)
Lemma blest_choice b now l o l' b' : blest_select b now l = Ok (o, l', b') ->
  exists rs cs, all_ready now l = Ok (rs, l') /\ blest_candidates rs = Ok cs /\
    o = (fun c => c.1.1) <$> List.find (fun c => c.1.2 <=? least_of 0 (map (fun c => c.1.2) cs)) cs.
Proof.
  unfold blest_select. destruct (all_ready now l) as [[rs l1]| |]; cbn; try done.
  destruct (blest_candidates rs) as [cs| |] eqn:Ec; cbn; try done. intros E. exists rs, cs.
  destruct cs as [|c cs]; [by injection E as <- <- <-|]. set (l0 := c :: cs) in *.
  set (mc := least_of 0 (map (fun c => c.1.2) l0)) in *.
  destruct (blest_eligible _ mc _ l0) as [es| |] eqn:Ee; cbn in E; try done. injection E as <- <- <-.
  split; [done|]. split; [done|].
  apply eligible_filter in Ee as (limit & Hlim & Hes).
  assert (Hmin : forall x, x ∈ l0 -> mc <= x.1.2).
  { intros x Hx. apply least_of_le. apply list_elem_of_fmap. by exists x. }
  assert (exists c0, c0 ∈ l0 /\ c0.1.2 = mc) as (c0 & Hc0 & Hc0m).
  { assert (mc ∈ map (fun c => c.1.2) l0) as Hin by (by apply least_of_in).
    apply list_elem_of_fmap in Hin as (c0 & ? & ?). eauto. }
  assert (Hc0e : c0 ∈ es).
  { rewrite Hes. apply list_elem_of_In, filter_In. rewrite <- list_elem_of_In. split; [done|]. apply Z.leb_le. lia. }
  destruct es as [|e0 es0]; [by apply not_elem_of_nil in Hc0e|]. set (es := e0 :: es0) in *.
  pose proof (min_by_none (fun c : Z * Duration * Duration => c.1.2) es) as Hm.
  destruct (min_by _ None es) as [m|] eqn:Em; [|discriminate Hm]. destruct Hm as [Hin Hle].
  assert (m.1.2 = mc) as Hmm.
  { specialize (Hle _ Hc0e). rewrite Hes in Hin. apply list_elem_of_In, filter_In in Hin as [Hin _].
    apply list_elem_of_In, Hmin in Hin. lia. }
  apply min_by_first in Em. rewrite Hmm, Hes, find_filter in Em; [by rewrite Em|].
  intros x _ Hx. apply Z.leb_le in Hx. apply Z.leb_le. lia.
Qed.

(** Where the round-robin scheduler starts looking. *)
Definition rotation (last : option Z) (l : list entry) : list entry :=
  match last ≫= fun k => find_last (C := C) k l with
  | Some (before, after) => after ++ before
  | None => l
  end.

Lemma find_last_app k (l before after : list entry) : find_last k l = Some (before, after) -> l = before ++ after.
Proof.
  revert before. induction l as [|e l IH]; intros before; cbn; [done|]. destruct (e.1 =? k); [by intros [= <- <-]|].
  destruct (find_last k l) as [[b a]|]; [|done]. intros [= <- <-]. cbn. f_equal. by apply IH.
Qed.

Lemma rotation_elem last l e : e ∈ rotation last l -> e ∈ l.
Proof.
  unfold rotation. destruct last as [k|]; cbn; [|done]. destruct (find_last k l) as [[b a]|] eqn:E; [|done].
  apply find_last_app in E as ->. rewrite !elem_of_app. tauto.
Qed.

Definition first_usable (now : Instant) (l : list entry) (pid : Z) (p : path) : Prop :=
  exists pre post, l = pre ++ (pid, p) :: post /\ usable now p /\ Forall (fun e => ~ usable now e.2) pre.

Lemma rr_select_spec last now l o l' : rr_select last now l = Ok (o, l') ->
  match o with
  | Some pid => exists p, first_usable now (rotation last l) pid p
  | None => Forall (fun e => ~ usable now e.2) l
  end.
Proof.
  unfold rr_select, rotation.
  destruct (last ≫= _) as [[before after]|] eqn:Ef.
  - assert (l = before ++ after) as ->.
    { destruct last as [k|]; [|done]. cbn in Ef. by apply find_last_app in Ef. }
    destruct (first_ready now after) as [[o1 after1]| |] eqn:E1; cbn; try done.
    apply first_ready_spec in E1 as [E1 H2]. destruct o1 as [pid|].
    + intros [= <- <-]. destruct E1 as (pre & p & post & -> & Hu & Hpre). exists p, pre, (post ++ before).
      split; [|done]. by rewrite <- app_assoc.
    + intros E2. destruct E1 as [Ha Ha1]. apply first_ready_spec in E2 as [E2 _]. destruct o as [pid|].
      * destruct E2 as (pre & p & post & Heq & Hu & Hpre).
        assert (Hno : (pid, p) ∉ after1) by (intros Hin; rewrite Forall_forall in Ha1; by apply (Ha1 _ Hin)).
        apply app_eq_inv in Heq as [([|e k] & Hb & Hk)|(k & Hb & Hk)]; cbn in Hk.
        -- destruct Hno. rewrite <- Hk. left.
        -- injection Hk as <- ->. exists p, (after ++ pre), k. rewrite Hb, app_assoc. split; [done|].
           split; [done|]. by apply Forall_app.
        -- destruct Hno. rewrite Hk. apply elem_of_app. right. left.
      * destruct E2 as [E2 _]. apply Forall_app in E2 as [E2 _]. by apply Forall_app.
  - intros E. apply first_ready_spec in E as [E _]. destruct o; [|tauto]. destruct E as (pre & p & post & ? & ? & ?).
    exists p, pre, post. done.
Qed.

(** ** Weighted *)

Definition weight (p : path) : Z := calculate_weight (cwnd_of p) (srtt_of p).

Lemma raw_weights_spec rs k w : (k, w) ∈ raw_weights rs <-> exists p, (k, p) ∈ rs /\ w = weight p /\ 0 < w.
Proof.
  unfold raw_weights. rewrite list_elem_of_In, filter_In, in_map_iff, Z.ltb_lt. cbn. split.
  - intros [([k' p] & [= <- <-] & Hin) Hw]. exists p. by rewrite list_elem_of_In.
  - intros (p & Hin & -> & Hw). split; [|done]. exists (k, p). by rewrite <- list_elem_of_In.
Qed.

Lemma accumulate_keys divisor l : forall total, (accumulate divisor total l).1.*1 = l.*1.
Proof.
  induction l as [|[k w] l IH]; intros total; cbn; [done|].
  specialize (IH (sat_add64 total (Z.max (w / divisor) 1))). destruct (accumulate _ _ l). cbn in *. by rewrite IH.
Qed.

Lemma weighted_pick_in t acc : acc <> [] -> exists k, weighted_pick t acc = Ok k /\ k ∈ acc.*1.
Proof.
  intros Hne. unfold weighted_pick. destruct (List.find _ acc) as [[k w]|] eqn:E.
  - exists k. split; [done|]. apply find_some in E as [E _]. apply list_elem_of_In in E.
    apply list_elem_of_fmap. by exists (k, w).
  - destruct (last acc) as [[k w]|] eqn:El; [|by apply last_None in El]. cbn. exists k. split; [done|].
    apply last_Some in El as [l ->]. rewrite fmap_app. apply elem_of_app. right. left.
Qed.

(** ** Every choice is right *)

Definition completion (p : path) : res Duration :=
  estimate_completion_time (srtt_of p) (cwnd_of p) (Recovery.bytes_in_flight (Path.recovery p)).

(** What a scheduler says of the path it chose. *)
Definition criterion (now : Instant) (s : Scheduler) (l : list entry) (pid : Z) (p : path) : Prop :=
  match s with
  | SMinRtt => forall e, e ∈ l -> usable now e.2 -> srtt_of p <= srtt_of e.2
  | SRedundant => first_usable now l pid p
  | SRoundRobin last => first_usable now (rotation last l) pid p
  | SWeighted _ => 0 < weight p
  | SBlest _ => forall e ct ct', e ∈ l -> usable now e.2 -> completion p = Ok ct -> completion e.2 = Ok ct' -> ct <= ct'
  end.

Lemma looked_weight p p' : looked p p' -> weight p' = weight p /\ completion p' = completion p /\ srtt_of p' = srtt_of p.
Proof. intros (E1 & E2 & E3). unfold weight, completion. by rewrite E1, E2, E3. Qed.

Lemma minrtt_correct now l o l' : minrtt_select now l = Ok (o, l') ->
  match o with
  | Some pid => exists p, (pid, p) ∈ l /\ usable now p /\ criterion now SMinRtt l pid p
  | None => forall e, e ∈ l -> ~ usable now e.2
  end.
Proof.
  unfold minrtt_select. destruct (all_ready now l) as [[rs l1]| |] eqn:E; cbn; try done. intros [= <- <-].
  pose proof (all_ready_spec _ _ _ _ E) as Hr. pose proof (min_by_none (fun e : entry => srtt_of e.2) rs) as Hm.
  destruct (min_by _ None rs) as [[pid p']|]; cbn.
  - destruct Hm as [Hin Hmin]. destruct (Hr pid) as [Hr1 _]. destruct (Hr1 _ Hin) as (p & Hp & Hu & Hl).
    exists p. split; [done|]. split; [done|]. intros [k q] Hq Huq. destruct (Hr k) as [_ Hr2].
    destruct (Hr2 _ Hq Huq) as (q' & Hq' & Hlq). specialize (Hmin _ Hq'). cbn in *.
    apply looked_weight in Hl as (_ & _ & <-). apply looked_weight in Hlq as (_ & _ & <-). done.
  - subst rs. intros [k q] Hq Hu. destruct (Hr k) as [_ Hr2]. destruct (Hr2 _ Hq Hu) as (q' & Hq' & _).
    by apply not_elem_of_nil in Hq'.
Qed.

Lemma weighted_correct w now l o l' w' : weighted_select w now l = Ok (o, l', w') ->
  match o with
  | Some pid => exists p, (pid, p) ∈ l /\ usable now p /\ 0 < weight p
  | None => forall e, e ∈ l -> usable now e.2 -> weight e.2 <= 0
  end.
Proof.
  unfold weighted_select. destruct (all_ready now l) as [[rs l1]| |] eqn:E; cbn; try done.
  pose proof (all_ready_spec _ _ _ _ E) as Hr. destruct (raw_weights rs) as [|r raw] eqn:Eraw.
  - intros [= <- <- <-] [k q] Hq Hu. destruct (Hr k) as [_ Hr2]. destruct (Hr2 _ Hq Hu) as (q' & Hq' & Hl).
    apply looked_weight in Hl as (Hl & _ & _). cbn. rewrite <- Hl. destruct (Z.le_gt_cases (weight q') 0); [done|].
    assert ((k, weight q') ∈ raw_weights rs) as Hin by (apply raw_weights_spec; eauto with lia).
    rewrite Eraw in Hin. by apply not_elem_of_nil in Hin.
  - set (d := Z.max (min_weight (r :: raw)) 1). pose proof (accumulate_keys d (r :: raw) 0) as Hk.
    destruct (accumulate d 0 (r :: raw)) as [acc total] eqn:Ea. cbn in Hk.
    destruct (weighted_pick_in (wrap 64 (counter w + 1) mod total) acc) as (k & -> & Hin); [by intros ->|].
    cbn. intros [= <- <- <-]. rewrite Hk in Hin. change (k ∈ (r :: raw).*1) in Hin. rewrite <- Eraw in Hin.
    apply list_elem_of_fmap in Hin as ([k' x] & -> & Hin). apply raw_weights_spec in Hin as (p' & Hp' & -> & Hpos).
    destruct (Hr k') as [Hr1 _]. destruct (Hr1 _ Hp') as (p & Hp & Hu & Hl). apply looked_weight in Hl as (Hl & _ & _).
    exists p. split; [done|]. split; [done|]. by rewrite <- Hl.
Qed.

Lemma blest_correct b now l o l' b' : blest_select b now l = Ok (o, l', b') ->
  match o with
  | Some pid => exists p, (pid, p) ∈ l /\ usable now p /\ criterion now (SBlest b) l pid p
  | None => forall e, e ∈ l -> ~ usable now e.2
  end.
Proof.
  intros E. apply blest_choice in E as (rs & cs & Er & Ec & ->). pose proof (all_ready_spec _ _ _ _ Er) as Hr.
  apply candidates_spec in Ec. set (mc := least_of 0 (map (fun c => c.1.2) cs)).
  assert (Hmin : forall c, c ∈ cs -> mc <= c.1.2).
  { intros c Hc. apply least_of_le. apply list_elem_of_fmap. by exists c. }
  destruct (List.find _ cs) as [c|] eqn:Ef; cbn.
  - apply find_some in Ef as [Hin Hle]. apply list_elem_of_In in Hin. apply Z.leb_le in Hle.
    destruct (Forall2_elem_of_r _ _ _ _ Ec Hin) as ([k p'] & Hp' & Hk & Hct). cbn in *. subst k.
    destruct (Hr c.1.1) as [Hr1 _]. destruct (Hr1 _ Hp') as (p & Hp & Hu & Hl).
    exists p. split; [done|]. split; [done|]. intros [k q] ct ct' Hq Huq Hpc Hqc. destruct (Hr k) as [_ Hr2].
    destruct (Hr2 _ Hq Huq) as (q' & Hq' & Hlq). destruct (Forall2_elem_of_l _ _ _ _ Ec Hq') as (c' & Hc' & _ & Hct').
    apply looked_weight in Hl as (_ & Hl & _). apply looked_weight in Hlq as (_ & Hlq & _).
    unfold completion in *. cbn in *. rewrite Hl, Hpc in Hct. rewrite Hlq, Hqc in Hct'.
    injection Hct as ->. injection Hct' as ->. specialize (Hmin _ Hc'). lia.
  - intros [k q] Hq Hu. destruct (Hr k) as [_ Hr2]. destruct (Hr2 _ Hq Hu) as (q' & Hq' & _).
    destruct (Forall2_elem_of_l _ _ _ _ Ec Hq') as (c & Hc & _). assert (mc ∈ map (fun c => c.1.2) cs) as Hm.
    { apply least_of_in. intros Hn. apply map_eq_nil in Hn. subst cs. by apply not_elem_of_nil in Hc. }
    apply list_elem_of_fmap in Hm as (c0 & Hc0 & Hin). apply list_elem_of_In in Hin.
    apply (find_none _ _ Ef) in Hin. apply Z.leb_gt in Hin. fold mc in Hin. lia.
Qed.


(** The factor [lambda], documented as the threshold beyond which a slow path is
    avoided, has no influence on the choice. *)
Theorem blest_lambda_irrelevant b1 b2 now l o1 l1 b1' o2 l2 b2' :
  blest_select b1 now l = Ok (o1, l1, b1') -> blest_select b2 now l = Ok (o2, l2, b2') -> o1 = o2 /\ l1 = l2.
Proof.
  intros (rs1 & cs1 & Hr1 & Hc1 & ->)%blest_choice (rs2 & cs2 & Hr2 & Hc2 & ->)%blest_choice.
  rewrite Hr1 in Hr2. injection Hr2 as -> ->. rewrite Hc1 in Hc2. by injection Hc2 as ->.
Qed.

End Selection.

(** ** The share of each path *)

Section Shares.
Context (divisor : Z).

Definition share (w : Z) : Z := Z.max (w / divisor) 1.

Lemma map_constant {A B} (f : A -> B) l y : (forall x, x ∈ l -> f x = y) -> map f l = repeat y (length l).
Proof. induction l as [|x l IH]; intros Hf; cbn; [done|]. rewrite Hf by left. f_equal. apply IH. intros z Hz. apply Hf. by right. Qed.

Lemma pick_later t k a acc : a <= t -> (exists e, e ∈ acc /\ t < e.2) ->
  weighted_pick t ((k, a) :: acc) = weighted_pick t acc.
Proof.
  intros Ha (e & He & Ht). unfold weighted_pick. cbn. destruct (Z.ltb_spec t a); [lia|].
  destruct (List.find _ acc) eqn:E; [done|]. apply list_elem_of_In in He. apply (find_none _ _ E) in He. lia.
Qed.

Definition shares (raw : list (Z * Z)) : list Z := flat_map (fun e => repeat e.1 (Z.to_nat (share e.2))) raw.

Fixpoint sum_shares (raw : list (Z * Z)) : Z :=
  match raw with [] => 0 | e :: raw => share e.2 + sum_shares raw end.

Lemma sum_shares_nonneg raw : 0 <= sum_shares raw.
Proof. induction raw; cbn; [lia|]. unfold share. lia. Qed.

Lemma accumulate_sum raw : forall base acc total, accumulate divisor base raw = (acc, total) ->
  0 <= base -> base + sum_shares raw < 18446744073709551616 ->
  total = base + sum_shares raw /\ (raw <> [] -> exists e, e ∈ acc /\ e.2 = total).
Proof.
  induction raw as [|[k w] raw IH]; intros base acc total; cbn; [intros [= <- <-]; split; [lia|done]|].
  intros E Hb Hs. pose proof (sum_shares_nonneg raw). assert (1 <= share w) by (unfold share; lia).
  assert (sat_add64 base (Z.max (w / divisor) 1) = base + share w) as Es by (unfold sat_add64, share in *; lia).
  rewrite Es in E. destruct (accumulate divisor (base + share w) raw) as [acc1 t1] eqn:E1. injection E as <- <-.
  destruct (IH _ _ _ E1) as [-> Hin]; [lia..|]. split; [lia|]. intros _. destruct raw as [|e raw].
  - cbn in *. exists (k, base + share w). split; [left|]. cbn. lia.
  - destruct Hin as (x & Hx & Hx2); [done|]. exists x. split; [by right|]. lia.
Qed.

(** All targets in order. *)
Lemma picks_in_order raw : forall base acc total, accumulate divisor base raw = (acc, total) ->
  0 <= base -> base + sum_shares raw < 18446744073709551616 ->
  map (fun t => weighted_pick t acc) (seqZ base (total - base)) = map Ok (shares raw).
Proof.
  induction raw as [|[k w] raw IH]; intros base acc total; cbn.
  { intros [= <- <-] _ _. by rewrite Z.sub_diag. }
  intros E Hb Hs. pose proof (sum_shares_nonneg raw). assert (1 <= share w) by (unfold share; lia).
  assert (sat_add64 base (Z.max (w / divisor) 1) = base + share w) as Es by (unfold sat_add64, share in *; lia).
  rewrite Es in E. destruct (accumulate divisor (base + share w) raw) as [acc1 t1] eqn:E1. injection E as <- <-.
  destruct (accumulate_sum _ _ _ _ E1) as [Ht Hin]; [lia..|].
  replace (t1 - base) with (share w + sum_shares raw) by lia. rewrite seqZ_app by lia.
  change (flat_map _ raw) with (shares raw). rewrite !map_app. f_equal.
  - rewrite (map_constant _ _ (Ok k)).
    + rewrite length_seqZ. by rewrite map_repeat.
    + intros t Ht1%elem_of_seqZ. unfold weighted_pick. cbn. destruct (Z.ltb_spec t (base + share w)); [done|lia].
  - rewrite <- (IH _ _ _ E1) by lia. replace (t1 - (base + share w)) with (sum_shares raw) by lia.
    apply map_ext_in. intros t Ht1. apply list_elem_of_In, elem_of_seqZ in Ht1. apply pick_later; [lia|].
    destruct raw as [|e raw]; [cbn in *; lia|]. destruct Hin as (x & Hx & Hx2); [done|]. exists x. split; [done|]. lia.
Qed.

(** The targets of consecutive packets go through all residues. *)
Lemma residues c total : 0 < total -> map (fun k => (c + k) mod total) (seqZ 0 total) ≡ₚ seqZ 0 total.
Proof.
  intros Ht. apply NoDup_Permutation_bis.
  - rewrite <- NoDup_ListNoDup. apply NoDup_fmap_2_strong; [|apply NoDup_seqZ].
    intros x y Hx%elem_of_seqZ Hy%elem_of_seqZ E.
    assert (exists q, x - y = q * total) as [q Hq].
    { exists ((c + x) / total - (c + y) / total). pose proof (Z.div_mod (c + x) total). pose proof (Z.div_mod (c + y) total). lia. }
    assert (q = 0) by nia. lia.
  - rewrite length_map. done.
  - intros x Hx. apply in_map_iff in Hx as (k & <- & _). apply list_elem_of_In, elem_of_seqZ.
    pose proof (Z.mod_pos_bound (c + k) total). lia.
Qed.

(** As many consecutive packets as the shares add up to give every path exactly
    its share of them. *)
Theorem weighted_shares raw acc total c :
  accumulate divisor 0 raw = (acc, total) -> raw <> [] -> sum_shares raw < 18446744073709551616 ->
  map (fun k => weighted_pick ((c + k) mod total) acc) (seqZ 0 total) ≡ₚ map Ok (shares raw).
Proof.
  intros E Hne Hs. destruct (accumulate_sum _ _ _ _ E) as [Ht _]; [lia..|].
  assert (0 < total).
  { destruct raw as [|e raw]; [done|]. cbn in Ht. pose proof (sum_shares_nonneg raw). unfold share in Ht. lia. }
  rewrite <- (picks_in_order _ _ _ _ E), Z.sub_0_r by lia.
  rewrite <- (map_map (fun k => (c + k) mod total) (fun t => weighted_pick t acc)). by rewrite (residues c total).
Qed.

End Shares.

(** ** Examples *)

Definition two_paths_conf : RecoveryConfig := mkConfig false 1200 25000000 10 100000000 false 1000000 2 1000000000 10.
Definition two_paths_new (port : Z) : res (@Path.Path Dummy.Dummy) :=
  Path.new (AddrV4 ([127; 0; 0; 1], port)) (AddrV4 ([127; 0; 0; 1], 443)) true two_paths_conf (Dummy.new 10 1200) 0.

Lemma two_paths_ok port : match two_paths_new port with Ok _ => True | _ => False end.
Proof. exact I. Qed.

(** Two active paths of which the first is abandoned. *)
Definition two_paths : list (Z * @Path.Path Dummy.Dummy) :=
  [(0, Path.with_is_abandon true (Path.with_active_ true (get_ok (two_paths_new 1000) (two_paths_ok 1000))));
   (1, Path.with_active_ true (get_ok (two_paths_new 1001) (two_paths_ok 1001)))].

