(* ===== verification/Connection.v ===== *)
(** * The connection

    Models [src/src/connection/connection.rs]: the state of a connection, its
    creation, the packets that wait for keys, and the operations of
    [src/src/connection/query.rs] that the rest of the connection is built on.
    Receiving is in [ConnRecv], sending in [ConnSend], timeouts and the
    application's interface in [ConnQuery].

    A connection is built from the components of the other files, over any
    congestion controller, any TLS state machine and any ciphers.  [Platform] holds
    the two choices that are made elsewhere: the controller a configuration asks
    for, and the key [slab] gives to a new path.  The clock is an argument; the
    reads of the clock in one call give one value.  Logging (qlog and trace
    ids), the application's context and the key log are left out.

    [Panic] is an outcome of a call that does not return: besides a panic, it stands
    for a loop that has not ended when the fuel of the call is spent. *)

From stdpp Require Import strings gmap.
From S2P Require Import Prelude.
From S2P Require Import Error.
From S2P Require Import Time.
From S2P Require Import Codec.
From S2P Require Import Btree.
From S2P Require Import Ranges.
From S2P Require Import Window.
From S2P Require Import FlowControl.
From S2P Require Import RecvBuf.
From S2P Require Import SendBuf.
From S2P Require Import Events.
From S2P Require Import Stream.
From S2P Require Import StreamMap.
From S2P Require Import ConnectionId.
From S2P Require Import Wire.
From S2P Require Import PacketNum.
From S2P Require Import Packet.
From S2P Require Import Protect.
From S2P Require Import Frame.
From S2P Require Import Cid.
From S2P Require Import Rtt.
From S2P Require Import Space.
From S2P Require Import Congestion.
From S2P Require Import Recovery.
From S2P Require Import TransParam.
From S2P Require Import Pmtu.
From S2P Require Import Path.
From S2P Require Import Timers.
From S2P Require Import Tls.
From S2P Require Import Scheduler.

Definition MAX_CID_LIMIT : Z := 8.

(** ** Parts of the state *)

Record ConnectionError := mkConnError { is_app : bool; error_code : Z; error_frame : option Z; error_reason : list Z }.

Record ConnectionStats := mkConnStats {
  recv_count : Z;
  recv_bytes : Z;
  sent_count : Z;
  sent_bytes : Z;
  lost_count : Z;
  lost_bytes : Z;
}.

Definition add_recv (n bytes : Z) (s : ConnectionStats) : ConnectionStats :=
  mkConnStats (recv_count s + n) (recv_bytes s + bytes) (sent_count s) (sent_bytes s) (lost_count s) (lost_bytes s).
Definition add_sent (n bytes : Z) (s : ConnectionStats) : ConnectionStats :=
  mkConnStats (recv_count s) (recv_bytes s) (sent_count s + n) (sent_bytes s + bytes) (lost_count s) (lost_bytes s).
Definition add_lost (n bytes : Z) (s : ConnectionStats) : ConnectionStats :=
  mkConnStats (recv_count s) (recv_bytes s) (sent_count s) (sent_bytes s) (lost_count s + n) (lost_bytes s + bytes).

Inductive ConnectionFlags :=
| DidVersionNegotiation | DidRetry | DerivedInitialSecrets | InitiatedClientHandshake | GotPeerCid
| AppliedPeerTransportParams | PeerVerifiedInitialAddress | HandshakeCompleted | HandshakeConfirmed | Closed
| IdleTimeout | HandshakeTimeout | GotReset | NeedSendAckEliciting | NeedSendNewToken | NeedSendHandshakeDone
| HandshakeDoneAcked | SentAckElicitingSinceRecvPkt | Tickable | Sendable | EnableMultipath | DisableEncryption.

#[global] Instance connection_flags_eq_dec : EqDecision ConnectionFlags.
Proof. solve_decision. Defined.

(** The bit of a flag. *)
Definition flag_bit (f : ConnectionFlags) : Z :=
  match f with
  | DidVersionNegotiation => 0 | DidRetry => 1 | DerivedInitialSecrets => 2 | InitiatedClientHandshake => 3
  | GotPeerCid => 4 | AppliedPeerTransportParams => 5 | PeerVerifiedInitialAddress => 6 | HandshakeCompleted => 7
  | HandshakeConfirmed => 8 | Closed => 9 | IdleTimeout => 10 | HandshakeTimeout => 11 | GotReset => 12
  | NeedSendAckEliciting => 13 | NeedSendNewToken => 14 | NeedSendHandshakeDone => 15 | HandshakeDoneAcked => 16
  | SentAckElicitingSinceRecvPkt => 17 | Tickable => 18 | Sendable => 19 | EnableMultipath => 20
  | DisableEncryption => 21
  end.

(** [BitFlags] *)
Definition flag_in (f : ConnectionFlags) (x : Z) : bool := Z.testbit x (flag_bit f).
Definition flag_insert (f : ConnectionFlags) (x : Z) : Z := Z.lor x (Z.shiftl 1 (flag_bit f)).
Definition flag_remove (f : ConnectionFlags) (x : Z) : Z := Z.ldiff x (Z.shiftl 1 (flag_bit f)).

#[global] Instance flag_bit_inj : Inj (=) (=) flag_bit.
Proof. intros [] []; cbn; congruence. Qed.

Lemma flag_bit_nonneg f : 0 <= flag_bit f.
Proof. destruct f; cbn; lia. Qed.

Lemma flag_in_insert f g x : flag_in g (flag_insert f x) = bool_decide (g = f) || flag_in g x.
Proof.
  unfold flag_in, flag_insert. rewrite Z.lor_spec, Z.shiftl_1_l, Z.pow2_bits_eqb by apply flag_bit_nonneg.
  rewrite orb_comm. f_equal. destruct (Z.eqb_spec (flag_bit f) (flag_bit g)) as [E|E].
  - apply (inj flag_bit) in E as ->. by rewrite bool_decide_true.
  - rewrite bool_decide_false; [done|]. by intros ->.
Qed.

Lemma flag_in_remove f g x : flag_in g (flag_remove f x) = negb (bool_decide (g = f)) && flag_in g x.
Proof.
  unfold flag_in, flag_remove. rewrite Z.ldiff_spec, Z.shiftl_1_l, Z.pow2_bits_eqb by apply flag_bit_nonneg.
  rewrite andb_comm. f_equal. f_equal. destruct (Z.eqb_spec (flag_bit f) (flag_bit g)) as [E|E].
  - apply (inj flag_bit) in E as ->. by rewrite bool_decide_true.
  - rewrite bool_decide_false; [done|]. by intros ->.
Qed.

(** Where a datagram came from and went to, and when it arrived. *)
Record PacketInfo := mkInfo { src : SocketAddr; dst : SocketAddr; time : Instant }.

(** [crate::ConnectionQueues], the queues of the endpoint a connection enters. *)
Record ConnectionQueues := mkQueues { tickable : gset Z; sendable_conns : gset Z }.

Module UndecryptablePackets.

Record UndecryptablePackets := mkUndec {
  zerortt_pkts : list (list Z * PacketInfo);
  handshake_pkts : list (list Z * PacketInfo);
  onertt_pkts : list (list Z * PacketInfo);
  capacity : Z;
}.

Definition new (capacity : Z) : UndecryptablePackets := mkUndec [] [] [] capacity.

(** Whether the packet was kept. *)
Definition push (t : PacketType) (pkt : list Z) (info : PacketInfo) (u : UndecryptablePackets)
  : bool * UndecryptablePackets :=
  match t with
  | ZeroRTT =>
      if capacity u <? len (zerortt_pkts u) then (false, u)
      else (true, mkUndec (zerortt_pkts u ++ [(pkt, info)]) (handshake_pkts u) (onertt_pkts u) (capacity u))
  | Handshake =>
      if capacity u <? len (handshake_pkts u) then (false, u)
      else (true, mkUndec (zerortt_pkts u) (handshake_pkts u ++ [(pkt, info)]) (onertt_pkts u) (capacity u))
  | OneRTT =>
      if capacity u <? len (onertt_pkts u) then (false, u)
      else (true, mkUndec (zerortt_pkts u) (handshake_pkts u) (onertt_pkts u ++ [(pkt, info)]) (capacity u))
  | _ => (false, u)
  end.

Definition pkts (t : PacketType) (u : UndecryptablePackets) : list (list Z * PacketInfo) :=
  match t with
  | ZeroRTT => zerortt_pkts u
  | Handshake => handshake_pkts u
  | OneRTT => onertt_pkts u
  | _ => []
  end.

Definition pop (t : PacketType) (u : UndecryptablePackets) : option (list Z * PacketInfo) * UndecryptablePackets :=
  (head (pkts t u),
   match t with
   | ZeroRTT => mkUndec (tail (zerortt_pkts u)) (handshake_pkts u) (onertt_pkts u) (capacity u)
   | Handshake => mkUndec (zerortt_pkts u) (tail (handshake_pkts u)) (onertt_pkts u) (capacity u)
   | OneRTT => mkUndec (zerortt_pkts u) (handshake_pkts u) (tail (onertt_pkts u)) (capacity u)
   | _ => u
   end).

Definition is_empty (t : PacketType) (u : UndecryptablePackets) : bool := bool_decide (pkts t u = []).
Definition all_empty (u : UndecryptablePackets) : bool :=
  bool_decide (zerortt_pkts u = []) && bool_decide (handshake_pkts u = []) && bool_decide (onertt_pkts u = []).

End UndecryptablePackets.

(** ** The connection *)

(** [vacant_key m] is the key under which [insert_path] stores a path in [m]. *)
Class Platform (C : Type) := {
  build_congestion_controller : RecoveryConfig -> C;
  vacant_key : @PathMap.PathMap C -> Z;
}.

(** The fields of [Config] a connection is created from. *)
Record Config := mkConf {
  conf_transport_params : TransportParams.TransportParams;
  conf_max_handshake_timeout : Duration;
  conf_max_connection_window : Z;
  conf_max_stream_window : Z;
  conf_stateless_reset : bool;
  conf_anti_amplification_factor : Z;
  conf_max_undecryptable_packets : Z;
  conf_recovery : RecoveryConfig;
  conf_multipath : MultipathConfig;
}.

(** The fields of an [AddressToken] of a retried connection. *)
Record AddressToken := mkAddressToken {
  token_odcid : option ConnectionId.ConnectionId;
  token_rscid : option ConnectionId.ConnectionId;
}.

(** [StreamTransportParams::from] *)
Definition stream_params (tp : TransportParams.TransportParams) : StreamTransportParams :=
  mkSTP (TransportParams.initial_max_data tp) (TransportParams.initial_max_stream_data_bidi_local tp)
    (TransportParams.initial_max_stream_data_bidi_remote tp) (TransportParams.initial_max_stream_data_uni tp)
    (TransportParams.initial_max_streams_bidi tp) (TransportParams.initial_max_streams_uni tp).

Module Connection.

Section Connection.
Context {C : Type} `{CongestionController C} `{Platform C} {T : Type} `{TlsBackend T} `{CryptoBackend}.

Record Connection := mkConn {
  version : Z;
  is_server : bool;
  cids : ConnectionIdMgr.ConnectionIdMgr;
  spaces : PacketNumSpaceMap.PacketNumSpaceMap;
  paths : @PathMap.PathMap C;
  multipath_scheduler : option Scheduler;
  multipath_conf : MultipathConfig;
  streams : StreamMap.StreamMap;
  tls_session : @TlsSession.TlsSession T;
  crypto_streams : CryptoStreams.CryptoStreams;
  undecryptable_packets : UndecryptablePackets.UndecryptablePackets;
  peer_transport_params : TransportParams.TransportParams;
  local_transport_params : TransportParams.TransportParams;
  recovery_conf : RecoveryConfig;
  local_error : option ConnectionError;
  peer_error : option ConnectionError;
  timers : TimerTable.TimerTable;
  flags : Z;
  stats : ConnectionStats;
  odcid : option ConnectionId.ConnectionId;
  rscid : option ConnectionId.ConnectionId;
  token : option (list Z);
  dgram_recv_queue : list (list Z);
  dgram_send_queue : list (list Z);
  index : option Z;
  events : EventQueue.EventQueue;
  queues : option ConnectionQueues;
}.

Definition with_version (x : Z) (c : Connection) : Connection :=
  mkConn x (is_server c) (cids c) (spaces c) (paths c) (multipath_scheduler c) (multipath_conf c) (streams c)
    (tls_session c) (crypto_streams c) (undecryptable_packets c) (peer_transport_params c) (local_transport_params c)
    (recovery_conf c) (local_error c) (peer_error c) (timers c) (flags c) (stats c) (odcid c) (rscid c) (token c)
    (dgram_recv_queue c) (dgram_send_queue c) (index c) (events c) (queues c).
Definition with_cids (x : ConnectionIdMgr.ConnectionIdMgr) (c : Connection) : Connection :=
  mkConn (version c) (is_server c) x (spaces c) (paths c) (multipath_scheduler c) (multipath_conf c) (streams c)
    (tls_session c) (crypto_streams c) (undecryptable_packets c) (peer_transport_params c) (local_transport_params c)
    (recovery_conf c) (local_error c) (peer_error c) (timers c) (flags c) (stats c) (odcid c) (rscid c) (token c)
    (dgram_recv_queue c) (dgram_send_queue c) (index c) (events c) (queues c).
Definition with_spaces (x : PacketNumSpaceMap.PacketNumSpaceMap) (c : Connection) : Connection :=
  mkConn (version c) (is_server c) (cids c) x (paths c) (multipath_scheduler c) (multipath_conf c) (streams c)
    (tls_session c) (crypto_streams c) (undecryptable_packets c) (peer_transport_params c) (local_transport_params c)
    (recovery_conf c) (local_error c) (peer_error c) (timers c) (flags c) (stats c) (odcid c) (rscid c) (token c)
    (dgram_recv_queue c) (dgram_send_queue c) (index c) (events c) (queues c).
Definition with_paths (x : @PathMap.PathMap C) (c : Connection) : Connection :=
  mkConn (version c) (is_server c) (cids c) (spaces c) x (multipath_scheduler c) (multipath_conf c) (streams c)
    (tls_session c) (crypto_streams c) (undecryptable_packets c) (peer_transport_params c) (local_transport_params c)
    (recovery_conf c) (local_error c) (peer_error c) (timers c) (flags c) (stats c) (odcid c) (rscid c) (token c)
    (dgram_recv_queue c) (dgram_send_queue c) (index c) (events c) (queues c).
Definition with_multipath_scheduler (x : option Scheduler) (c : Connection) : Connection :=
  mkConn (version c) (is_server c) (cids c) (spaces c) (paths c) x (multipath_conf c) (streams c) (tls_session c)
    (crypto_streams c) (undecryptable_packets c) (peer_transport_params c) (local_transport_params c) (recovery_conf
    c) (local_error c) (peer_error c) (timers c) (flags c) (stats c) (odcid c) (rscid c) (token c) (dgram_recv_queue
    c) (dgram_send_queue c) (index c) (events c) (queues c).
Definition with_streams (x : StreamMap.StreamMap) (c : Connection) : Connection :=
  mkConn (version c) (is_server c) (cids c) (spaces c) (paths c) (multipath_scheduler c) (multipath_conf c) x
    (tls_session c) (crypto_streams c) (undecryptable_packets c) (peer_transport_params c) (local_transport_params c)
    (recovery_conf c) (local_error c) (peer_error c) (timers c) (flags c) (stats c) (odcid c) (rscid c) (token c)
    (dgram_recv_queue c) (dgram_send_queue c) (index c) (events c) (queues c).
Definition with_tls_session (x : @TlsSession.TlsSession T) (c : Connection) : Connection :=
  mkConn (version c) (is_server c) (cids c) (spaces c) (paths c) (multipath_scheduler c) (multipath_conf c) (streams
    c) x (crypto_streams c) (undecryptable_packets c) (peer_transport_params c) (local_transport_params c)
    (recovery_conf c) (local_error c) (peer_error c) (timers c) (flags c) (stats c) (odcid c) (rscid c) (token c)
    (dgram_recv_queue c) (dgram_send_queue c) (index c) (events c) (queues c).
Definition with_crypto_streams (x : CryptoStreams.CryptoStreams) (c : Connection) : Connection :=
  mkConn (version c) (is_server c) (cids c) (spaces c) (paths c) (multipath_scheduler c) (multipath_conf c) (streams
    c) (tls_session c) x (undecryptable_packets c) (peer_transport_params c) (local_transport_params c)
    (recovery_conf c) (local_error c) (peer_error c) (timers c) (flags c) (stats c) (odcid c) (rscid c) (token c)
    (dgram_recv_queue c) (dgram_send_queue c) (index c) (events c) (queues c).
Definition with_undecryptable_packets (x : UndecryptablePackets.UndecryptablePackets) (c : Connection) : Connection :=
  mkConn (version c) (is_server c) (cids c) (spaces c) (paths c) (multipath_scheduler c) (multipath_conf c) (streams
    c) (tls_session c) (crypto_streams c) x (peer_transport_params c) (local_transport_params c) (recovery_conf c)
    (local_error c) (peer_error c) (timers c) (flags c) (stats c) (odcid c) (rscid c) (token c) (dgram_recv_queue c)
    (dgram_send_queue c) (index c) (events c) (queues c).
Definition with_peer_transport_params (x : TransportParams.TransportParams) (c : Connection) : Connection :=
  mkConn (version c) (is_server c) (cids c) (spaces c) (paths c) (multipath_scheduler c) (multipath_conf c) (streams
    c) (tls_session c) (crypto_streams c) (undecryptable_packets c) x (local_transport_params c) (recovery_conf c)
    (local_error c) (peer_error c) (timers c) (flags c) (stats c) (odcid c) (rscid c) (token c) (dgram_recv_queue c)
    (dgram_send_queue c) (index c) (events c) (queues c).
Definition with_local_transport_params (x : TransportParams.TransportParams) (c : Connection) : Connection :=
  mkConn (version c) (is_server c) (cids c) (spaces c) (paths c) (multipath_scheduler c) (multipath_conf c) (streams
    c) (tls_session c) (crypto_streams c) (undecryptable_packets c) (peer_transport_params c) x (recovery_conf c)
    (local_error c) (peer_error c) (timers c) (flags c) (stats c) (odcid c) (rscid c) (token c) (dgram_recv_queue c)
    (dgram_send_queue c) (index c) (events c) (queues c).
Definition with_recovery_conf (x : RecoveryConfig) (c : Connection) : Connection :=
  mkConn (version c) (is_server c) (cids c) (spaces c) (paths c) (multipath_scheduler c) (multipath_conf c) (streams
    c) (tls_session c) (crypto_streams c) (undecryptable_packets c) (peer_transport_params c) (local_transport_params
    c) x (local_error c) (peer_error c) (timers c) (flags c) (stats c) (odcid c) (rscid c) (token c)
    (dgram_recv_queue c) (dgram_send_queue c) (index c) (events c) (queues c).
Definition with_local_error (x : option ConnectionError) (c : Connection) : Connection :=
  mkConn (version c) (is_server c) (cids c) (spaces c) (paths c) (multipath_scheduler c) (multipath_conf c) (streams
    c) (tls_session c) (crypto_streams c) (undecryptable_packets c) (peer_transport_params c) (local_transport_params
    c) (recovery_conf c) x (peer_error c) (timers c) (flags c) (stats c) (odcid c) (rscid c) (token c)
    (dgram_recv_queue c) (dgram_send_queue c) (index c) (events c) (queues c).
Definition with_peer_error (x : option ConnectionError) (c : Connection) : Connection :=
  mkConn (version c) (is_server c) (cids c) (spaces c) (paths c) (multipath_scheduler c) (multipath_conf c) (streams
    c) (tls_session c) (crypto_streams c) (undecryptable_packets c) (peer_transport_params c) (local_transport_params
    c) (recovery_conf c) (local_error c) x (timers c) (flags c) (stats c) (odcid c) (rscid c) (token c)
    (dgram_recv_queue c) (dgram_send_queue c) (index c) (events c) (queues c).
Definition with_timers (x : TimerTable.TimerTable) (c : Connection) : Connection :=
  mkConn (version c) (is_server c) (cids c) (spaces c) (paths c) (multipath_scheduler c) (multipath_conf c) (streams
    c) (tls_session c) (crypto_streams c) (undecryptable_packets c) (peer_transport_params c) (local_transport_params
    c) (recovery_conf c) (local_error c) (peer_error c) x (flags c) (stats c) (odcid c) (rscid c) (token c)
    (dgram_recv_queue c) (dgram_send_queue c) (index c) (events c) (queues c).
Definition with_flags (x : Z) (c : Connection) : Connection :=
  mkConn (version c) (is_server c) (cids c) (spaces c) (paths c) (multipath_scheduler c) (multipath_conf c) (streams
    c) (tls_session c) (crypto_streams c) (undecryptable_packets c) (peer_transport_params c) (local_transport_params
    c) (recovery_conf c) (local_error c) (peer_error c) (timers c) x (stats c) (odcid c) (rscid c) (token c)
    (dgram_recv_queue c) (dgram_send_queue c) (index c) (events c) (queues c).
Definition with_stats (x : ConnectionStats) (c : Connection) : Connection :=
  mkConn (version c) (is_server c) (cids c) (spaces c) (paths c) (multipath_scheduler c) (multipath_conf c) (streams
    c) (tls_session c) (crypto_streams c) (undecryptable_packets c) (peer_transport_params c) (local_transport_params
    c) (recovery_conf c) (local_error c) (peer_error c) (timers c) (flags c) x (odcid c) (rscid c) (token c)
    (dgram_recv_queue c) (dgram_send_queue c) (index c) (events c) (queues c).
Definition with_odcid (x : option ConnectionId.ConnectionId) (c : Connection) : Connection :=
  mkConn (version c) (is_server c) (cids c) (spaces c) (paths c) (multipath_scheduler c) (multipath_conf c) (streams
    c) (tls_session c) (crypto_streams c) (undecryptable_packets c) (peer_transport_params c) (local_transport_params
    c) (recovery_conf c) (local_error c) (peer_error c) (timers c) (flags c) (stats c) x (rscid c) (token c)
    (dgram_recv_queue c) (dgram_send_queue c) (index c) (events c) (queues c).
Definition with_rscid (x : option ConnectionId.ConnectionId) (c : Connection) : Connection :=
  mkConn (version c) (is_server c) (cids c) (spaces c) (paths c) (multipath_scheduler c) (multipath_conf c) (streams
    c) (tls_session c) (crypto_streams c) (undecryptable_packets c) (peer_transport_params c) (local_transport_params
    c) (recovery_conf c) (local_error c) (peer_error c) (timers c) (flags c) (stats c) (odcid c) x (token c)
    (dgram_recv_queue c) (dgram_send_queue c) (index c) (events c) (queues c).
Definition with_token (x : option (list Z)) (c : Connection) : Connection :=
  mkConn (version c) (is_server c) (cids c) (spaces c) (paths c) (multipath_scheduler c) (multipath_conf c) (streams
    c) (tls_session c) (crypto_streams c) (undecryptable_packets c) (peer_transport_params c) (local_transport_params
    c) (recovery_conf c) (local_error c) (peer_error c) (timers c) (flags c) (stats c) (odcid c) (rscid c) x
    (dgram_recv_queue c) (dgram_send_queue c) (index c) (events c) (queues c).
Definition with_dgram_recv_queue (x : list (list Z)) (c : Connection) : Connection :=
  mkConn (version c) (is_server c) (cids c) (spaces c) (paths c) (multipath_scheduler c) (multipath_conf c) (streams
    c) (tls_session c) (crypto_streams c) (undecryptable_packets c) (peer_transport_params c) (local_transport_params
    c) (recovery_conf c) (local_error c) (peer_error c) (timers c) (flags c) (stats c) (odcid c) (rscid c) (token c)
    x (dgram_send_queue c) (index c) (events c) (queues c).
Definition with_dgram_send_queue (x : list (list Z)) (c : Connection) : Connection :=
  mkConn (version c) (is_server c) (cids c) (spaces c) (paths c) (multipath_scheduler c) (multipath_conf c) (streams
    c) (tls_session c) (crypto_streams c) (undecryptable_packets c) (peer_transport_params c) (local_transport_params
    c) (recovery_conf c) (local_error c) (peer_error c) (timers c) (flags c) (stats c) (odcid c) (rscid c) (token c)
    (dgram_recv_queue c) x (index c) (events c) (queues c).
Definition with_index (x : option Z) (c : Connection) : Connection :=
  mkConn (version c) (is_server c) (cids c) (spaces c) (paths c) (multipath_scheduler c) (multipath_conf c) (streams
    c) (tls_session c) (crypto_streams c) (undecryptable_packets c) (peer_transport_params c) (local_transport_params
    c) (recovery_conf c) (local_error c) (peer_error c) (timers c) (flags c) (stats c) (odcid c) (rscid c) (token c)
    (dgram_recv_queue c) (dgram_send_queue c) x (events c) (queues c).
Definition with_events (x : EventQueue.EventQueue) (c : Connection) : Connection :=
  mkConn (version c) (is_server c) (cids c) (spaces c) (paths c) (multipath_scheduler c) (multipath_conf c) (streams
    c) (tls_session c) (crypto_streams c) (undecryptable_packets c) (peer_transport_params c) (local_transport_params
    c) (recovery_conf c) (local_error c) (peer_error c) (timers c) (flags c) (stats c) (odcid c) (rscid c) (token c)
    (dgram_recv_queue c) (dgram_send_queue c) (index c) x (queues c).
Definition with_queues (x : option ConnectionQueues) (c : Connection) : Connection :=
  mkConn (version c) (is_server c) (cids c) (spaces c) (paths c) (multipath_scheduler c) (multipath_conf c) (streams
    c) (tls_session c) (crypto_streams c) (undecryptable_packets c) (peer_transport_params c) (local_transport_params
    c) (recovery_conf c) (local_error c) (peer_error c) (timers c) (flags c) (stats c) (odcid c) (rscid c) (token c)
    (dgram_recv_queue c) (dgram_send_queue c) (index c) (events c) x.

Abbreviation path := (@Path.Path C).
Abbreviation conn := (action Error Connection).

(** [2_u64.pow(n as u32)] *)
Definition pow64 (n : Z) : res Z := if wrap 32 n <? 64 then Ok (2 ^ wrap 32 n) else Panic.

(** ** Access to the parts *)

Definition contains (f : ConnectionFlags) (c : Connection) : bool := flag_in f (flags c).
Definition insert_flag (f : ConnectionFlags) : conn unit := modify (fun c => with_flags (flag_insert f (flags c)) c).
Definition remove_flag (f : ConnectionFlags) : conn unit := modify (fun c => with_flags (flag_remove f (flags c)) c).

Definition set_timer (t : Timer) (at_ : Instant) : conn unit :=
  modify (fun c => with_timers (TimerTable.set t at_ (timers c)) c).
Definition stop_timer (t : Timer) : conn unit := modify (fun c => with_timers (TimerTable.stop t (timers c)) c).
Definition add_event (e : Event) : conn unit := modify (fun c => with_events (EventQueue.add e (events c)).2 c).

Definition get_path (pid : Z) : conn path := fun c => (PathMap.get pid (paths c), c).
Definition update_path (pid : Z) (f : path -> path) : conn unit :=
  modify (fun c => with_paths (PathMap.update pid f (paths c)) c).
Definition get_active_path_id : conn Z := fun c => (fst <$> PathMap.get_active_with_path_id (paths c), c).
Definition get_active : conn path := fun c => (snd <$> PathMap.get_active_with_path_id (paths c), c).

Definition get_space (s : SpaceId) : conn PacketNumSpace.PacketNumSpace := fun c =>
  (ok_or InternalError (PacketNumSpaceMap.get s (spaces c)), c).
Definition set_space (s : SpaceId) (x : PacketNumSpace.PacketNumSpace) : conn unit :=
  modify (fun c => with_spaces (PacketNumSpaceMap.set s x (spaces c)) c).

Definition add_space (now : Instant) : conn SpaceId := fun c =>
  let '(sid, m) := PacketNumSpaceMap.add now (spaces c) in (Ok sid, with_spaces m c).

Definition on_cids {A} (m : action Error ConnectionIdMgr.ConnectionIdMgr A) : conn A := zoom cids with_cids m.
Definition on_streams {A} (m : action Error StreamMap.StreamMap A) : conn A := zoom streams with_streams m.
Definition on_session {A} (m : action Error TlsSession.TlsSession A) : conn A := zoom tls_session with_tls_session m.
Definition on_tls {A} (m : action Error (TlsSession.TlsSession * CryptoStreams.CryptoStreams) A) : conn A :=
  zoom (fun c => (tls_session c, crypto_streams c)) (fun x c => with_crypto_streams x.2 (with_tls_session x.1 c)) m.

(** The recovery of a path with the spaces of the connection. *)
Definition on_recovery {A} (pid : Z) (f : cursor Error (@Recovery.Recovery C * PacketNumSpaceMap.PacketNumSpaceMap) A)
  : conn A := fun c =>
  match PathMap.get pid (paths c) with
  | Ok p =>
      match f (Path.recovery p, spaces c) with
      | Ok (a, (r, m)) => (Ok a, with_spaces m (with_paths (PathMap.update pid (Path.with_recovery r) (paths c)) c))
      | Err e => (Err e, c)
      | Panic => (Panic, c)
      end
  | Err e => (Err e, c)
  | Panic => (Panic, c)
  end.

(** [let _ = m], and [m.ok()]: an error is dropped. *)
Definition ignore {A} (m : conn A) : conn unit := fun c =>
  match m c with
  | (Panic, c) => (Panic, c)
  | (_, c) => (Ok tt, c)
  end.

(** ** Queries *)

Definition is_established (c : Connection) : bool := contains HandshakeCompleted c.
Definition is_confirmed (c : Connection) : bool := contains HandshakeConfirmed c.
Definition is_multipath (c : Connection) : bool := contains EnableMultipath c.
Definition is_draining (c : Connection) : bool := bool_decide (is_Some (TimerTable.get Draining (timers c))).
Definition is_closing (c : Connection) : bool := bool_decide (is_Some (local_error c)).
Definition is_closed (c : Connection) : bool := contains Closed c.
Definition is_idle_timeout (c : Connection) : bool := contains IdleTimeout c.
Definition is_handshake_timeout (c : Connection) : bool := contains HandshakeTimeout c.
Definition is_reset (c : Connection) : bool := contains GotReset c.
Definition is_tickable (c : Connection) : bool := contains Tickable c.
Definition is_sendable (c : Connection) : bool := contains Sendable c.

Definition is_encryption_disabled (t : PacketType) (c : Connection) : bool :=
  bool_decide (t = OneRTT) && contains DisableEncryption c.

(** The ids of the active path. *)
Definition scid (c : Connection) : res ConnectionId.ConnectionId :=
  e ← PathMap.get_active_with_path_id (paths c);
  seq ← ok_or InternalError (Path.scid_seq (snd e));
  item ← ConnectionIdMgr.get_scid seq (cids c);
  mret (cid item).
Definition dcid (c : Connection) : res ConnectionId.ConnectionId :=
  e ← PathMap.get_active_with_path_id (paths c);
  seq ← ok_or InternalError (Path.dcid_seq (snd e));
  item ← ConnectionIdMgr.get_dcid seq (cids c);
  mret (cid item).
Definition original_dcid (c : Connection) : option ConnectionId.ConnectionId :=
  if is_server c then TransportParams.original_destination_connection_id (local_transport_params c) else odcid c.

(** Whether the server has used up what it may send before the address is known. *)
Definition at_amplification_limit (c : Connection) (p : path) : bool :=
  is_server c && negb (Path.verified_peer_address p) && (Path.anti_ampl_limit p =? 0).

Definition handshake_status (p : path) (c : Connection) : HandshakeStatus :=
  let keys := TlsSession.get_keys LevelHandshake (tls_session c) in
  mkStatus (bool_decide (is_Some (seal keys)) && bool_decide (is_Some (open keys)))
    (contains PeerVerifiedInitialAddress c) (is_established c) (is_server c) (at_amplification_limit c p).

(** The least of the advertised timeouts, at least three times the PTO. *)
Definition idle_timeout (c : Connection) : res (option Duration) :=
  let l := TransportParams.max_idle_timeout (local_transport_params c) in
  let r := TransportParams.max_idle_timeout (peer_transport_params c) in
  if (l =? 0) && (r =? 0) then mret None
  else
    let t := if l =? 0 then r else if r =? 0 then l else Z.min l r in
    pto ← match PathMap.get_active_with_path_id (paths c) with
          | Ok (_, p) => RttEstimator.pto_base (Recovery.rtt (Path.recovery p))
          | _ => mret 0
          end;
    pto ← dur_mul pto 3;
    mret (Some (Z.max (from_millis t) pto)).

(** Restart the idle timer. *)
Definition restart_idle_timer (now : Instant) : conn unit :=
  c ← get;
  t ← lift (idle_timeout c);
  match t with Some t => set_timer Idle (now + t) | None => mret tt end.

(** ** Closing *)

Definition mark_tickable (b : bool) : conn unit := fun c =>
  if eqb b (is_tickable c) then (Ok tt, c)
  else
    match index c with
    | None => (Ok tt, c)
    | Some idx =>
        match queues c with
        | None => (Panic, c)
        | Some q =>
            if b then (Ok tt, with_flags (flag_insert Tickable (flags c))
                         (with_queues (Some (mkQueues ({[idx]} ∪ tickable q) (sendable_conns q))) c))
            else (Ok tt, with_flags (flag_remove Tickable (flags c))
                    (with_queues (Some (mkQueues (tickable q ∖ {[idx]}) (sendable_conns q))) c))
        end
    end.

Definition mark_sendable (b : bool) : conn unit := fun c =>
  if eqb b (is_sendable c) then (Ok tt, c)
  else
    match index c with
    | None => (Ok tt, c)
    | Some idx =>
        match queues c with
        | None => (Panic, c)
        | Some q =>
            if b then (Ok tt, with_flags (flag_insert Sendable (flags c))
                         (with_queues (Some (mkQueues (tickable q) ({[idx]} ∪ sendable_conns q))) c))
            else (Ok tt, with_flags (flag_remove Sendable (flags c))
                    (with_queues (Some (mkQueues (tickable q) (sendable_conns q ∖ {[idx]}))) c))
        end
    end.

Definition close (app : bool) (err : Z) (reason : list Z) : conn unit :=
  c ← get;
  if is_closed c || is_draining c then fail Done
  else if bool_decide (is_Some (local_error c)) then fail Done
  else
    modify (with_local_error (Some (mkConnError app err None reason))) ;;
    mark_tickable true.

(** A stateless reset from the peer starts the draining period. *)
Definition reset (now : Instant) : conn unit :=
  c ← get;
  if is_closed c || is_draining c then mret tt
  else
    insert_flag GotReset ;;
    match PathMap.get_active_with_path_id (paths c) with
    | Ok (_, p) =>
        pto ← lift (RttEstimator.pto_base (Recovery.rtt (Path.recovery p)));
        d ← lift (dur_mul pto 3);
        set_timer Draining (now + d)
    | _ => mret tt
    end.

(** ** Keys and spaces *)

Definition drop_space_state (sid : SpaceId) (now : Instant) : conn unit :=
  match sid with
  | SpaceInitial | SpaceHandshake =>
      let level := space_to_level sid in
      c ← get;
      match open (TlsSession.get_keys level (tls_session c)) with
      | None => mret tt
      | Some _ =>
          modify (fun c => with_tls_session (TlsSession.drop_keys level (tls_session c)) c) ;;
          modify (fun c => with_crypto_streams (CryptoStreams.clear level (crypto_streams c)) c) ;;
          c ← get;
          match PathMap.get_active_with_path_id (paths c) with
          | Ok (pid, p) => on_recovery pid (Recovery.on_pkt_num_space_discarded sid (handshake_status p c) now)
          | _ => mret tt
          end
      end
  | _ => mret tt
  end.

(** The space of a packet of some type on some path. *)
Definition get_space_id (t : PacketType) (pid : Z) (c : Connection) : res SpaceId :=
  if negb (contains EnableMultipath c) then to_space t
  else if negb (bool_decide (t = OneRTT)) then to_space t
  else p ← PathMap.get pid (paths c); mret (Path.space_id p).

Definition set_initial_dcid (cid : ConnectionId.ConnectionId) (reset_token : option Z) (pid : Z) : conn unit :=
  modify (fun c => with_cids (ConnectionIdMgr.set_initial_dcid cid reset_token (Some pid) (cids c)) c) ;;
  get_path pid ;;
  update_path pid (Path.with_dcid_seq (Some 0)).

(** The parameters are encoded into a buffer of 128 bytes. *)
Definition set_transport_params : conn unit :=
  c ← get;
  x ← lift (TransportParams.encode (local_transport_params c) (is_server c) (repeat 0 128));
  on_session (TlsSession.set_transport_params (ztake x.1 x.2)).

Definition try_set_dcid_for_initial_path (pid : Z) (hdr : PacketHeader) : conn unit :=
  c ← get;
  if contains GotPeerCid c then mret tt
  else
    let token := TransportParams.stateless_reset_token (peer_transport_params c) in
    (if negb (is_server c) then
       (if bool_decide (odcid c = None) then
          d ← lift (dcid c);
          modify (with_odcid (Some d))
        else mret tt) ;;
       set_initial_dcid (Packet.scid hdr) token pid
     else
       set_initial_dcid (Packet.scid hdr) token pid ;;
       if contains DidRetry c then mret tt
       else
         modify (fun c => with_local_transport_params
           (TransportParams.with_original_destination_connection_id (Some (Packet.dcid hdr)) (local_transport_params c)) c) ;;
         set_transport_params) ;;
    insert_flag GotPeerCid.

(** The path of an incoming packet; the packet has not been opened yet. *)
Definition get_or_create_path (recv_pid : option Z) (d : ConnectionId.ConnectionId) (info : PacketInfo) (buf_len : Z)
    (now : Instant) : conn Z :=
  c ← get;
  '(cid_seq, cid_pid) ← lift (ok_or Done (ConnectionIdMgr.find_scid d (cids c)));
  match recv_pid with
  | Some recv_pid =>
      recv_path ← get_path recv_pid;
      let item := seq ← Path.scid_seq recv_path;
                  match ConnectionIdMgr.get_scid seq (cids c) with Ok i => Some (cid i) | _ => None end in
      (if bool_decide (item = Some d) then mret tt
       else
         update_path recv_pid (Path.with_scid_seq (Some cid_seq)) ;;
         on_cids (ConnectionIdMgr.mark_scid_used cid_seq recv_pid)) ;;
      mret recv_pid
  | None =>
      let cid_pid : option Z := if ConnectionIdMgr.zero_length_scid (cids c) then None else cid_pid in
      p ← lift (Path.new (dst info) (src info) false (recovery_conf c) (build_congestion_controller (recovery_conf c)) now);
      p ← (if is_server c then
             n ← lift (mul64 buf_len (PathMap.anti_ampl_factor (paths c)));
             mret (Path.with_anti_ampl_limit n p)
           else mret p);
      let p := Path.initiate_path_chal (Path.with_scid_seq (Some cid_seq) p) in
      p ← (if contains EnableMultipath c then
             match cid_pid with
             | None => sid ← add_space now; mret (Path.with_space_id sid p)
             | Some pid => q ← get_path pid; mret (Path.with_space_id (Path.space_id q) p)
             end
           else mret p);
      '(pid, m) ← lift (PathMap.insert_path p (vacant_key (paths c)) (paths c));
      modify (with_paths m) ;;
      (if bool_decide (cid_pid = None) then on_cids (ConnectionIdMgr.mark_scid_used cid_seq pid) else mret tt) ;;
      mret pid
  end.

(** ** Creation *)

(** What follows the construction of the fields in [Connection::new]. *)
Definition initialize (addr_token : option AddressToken) (conf : Config) (reset_token : option Z)
    (initial_dcid : ConnectionId.ConnectionId) (resume_token : option (list Z)) (active_pid : Z) (now : Instant) : conn unit :=
  c ← get;
  (if ConnectionIdMgr.zero_length_scid (cids c) || ConnectionIdMgr.zero_length_dcid (cids c) then
     modify (fun c => with_local_transport_params
       (TransportParams.with_enable_multipath false (local_transport_params c)) c)
   else mret tt) ;;
  item ← lift (ConnectionIdMgr.get_scid 0 (cids c));
  modify (fun c => with_local_transport_params
    (TransportParams.with_initial_source_connection_id (Some (cid item)) (local_transport_params c)) c) ;;
  match addr_token with
  | Some t =>
      modify (fun c => with_local_transport_params
        (TransportParams.with_retry_source_connection_id (token_rscid t)
          (TransportParams.with_original_destination_connection_id (token_odcid t) (local_transport_params c))) c) ;;
      insert_flag DidRetry
  | None => mret tt
  end ;;
  modify (fun c => with_local_transport_params
    (TransportParams.with_stateless_reset_token reset_token (local_transport_params c)) c) ;;
  set_transport_params ;;
  (if negb (is_server c) then
     set_initial_dcid initial_dcid (TransportParams.stateless_reset_token (peer_transport_params c)) active_pid ;;
     on_session (TlsSession.derive_initial_secrets (ConnectionId.deref initial_dcid) (version c)) ;;
     insert_flag DerivedInitialSecrets
   else mret tt) ;;
  (if conf_max_handshake_timeout conf =? 0 then mret tt
   else set_timer HandshakeTimer (now + conf_max_handshake_timeout conf)) ;;
  if is_server c then
    match resume_token with Some t => modify (with_token (Some t)) | None => mret tt end
  else mret tt.

(** The TLS session, the reset token generated for [scid], the random id of the client
    and the encoded token for resumption are arguments. *)
Definition new (scid : ConnectionId.ConnectionId) (local remote : SocketAddr) (addr_token : option AddressToken)
    (conf : Config) (is_server : bool) (session : res T) (generated_token : Z) (initial_dcid : ConnectionId.ConnectionId)
    (resume_token : option (list Z)) (now : Instant) : res Connection :=
  p ← Path.new local remote true (conf_recovery conf) (build_congestion_controller (conf_recovery conf)) now;
  let p := if is_server
           then Path.with_peer_verified_local_address true
                  (Path.with_verified_peer_address (bool_decide (is_Some addr_token)) p)
           else p in
  let tp := conf_transport_params conf in
  let cid_limit := TransportParams.active_conn_id_limit tp in
  let factor := conf_anti_amplification_factor conf in
  let paths := PathMap.new p cid_limit factor is_server (vacant_key (PathMap.mkPaths [] cid_limit [] factor false is_server)) in
  e ← PathMap.get_active_with_path_id paths;
  let reset_token := if is_server && conf_stateless_reset conf then Some generated_token else None in
  cids ← ConnectionIdMgr.new cid_limit scid (fst e) reset_token;
  let streams := StreamMap.new is_server (conf_max_connection_window conf) (conf_max_stream_window conf) (stream_params tp) in
  t ← session;
  let c := mkConn QUIC_VERSION_V1 is_server cids (PacketNumSpaceMap.new now) paths None (conf_multipath conf) streams
    (TlsSession.new t is_server) CryptoStreams.new
    (UndecryptablePackets.new (conf_max_undecryptable_packets conf)) TransportParams.default tp (conf_recovery conf)
    None None TimerTable.default 0 (mkConnStats 0 0 0 0 0 0) None None None [] [] None None None in
  let '(r, c) := initialize addr_token conf reset_token initial_dcid resume_token (fst e) now c in
  r ≫= fun _ => Ok c.

(** ** Preparing frames *)

Definition try_schedule_control_frames : conn unit :=
  c ← get;
  let id_limit := Z.min (TransportParams.active_conn_id_limit (peer_transport_params c)) MAX_CID_LIMIT in
  n ← lift (sub64 id_limit 1);
  add_event (ScidToAdvertise (wrap 8 n)) ;;
  if is_server c && bool_decide (is_Some (token c)) then insert_flag NeedSendNewToken else mret tt.

Definition try_buffer_undecryptable_packets (hdr : PacketHeader) (pkt : list Z) (info : PacketInfo) : conn unit :=
  let t := Packet.pkt_type hdr in
  modify (fun c =>
    if is_established c
       || (is_server c && negb (bool_decide (t = ZeroRTT)) && negb (bool_decide (t = OneRTT)))
       || (negb (is_server c) && negb (bool_decide (t = Handshake)) && negb (bool_decide (t = OneRTT)))
    then c
    else with_undecryptable_packets (UndecryptablePackets.push t pkt info (undecryptable_packets c)).2 c).

(** ** Acknowledgements *)

Definition send_ack_now (x : PacketNumSpace.PacketNumSpace) : PacketNumSpace.PacketNumSpace :=
  PacketNumSpace.with_ack_timer None (PacketNumSpace.with_need_send_ack true x).

Definition try_schedule_ack_frame (sid : SpaceId) (pkt_num : Z) (ack_eliciting : bool) (now : Instant) : conn unit :=
  if negb ack_eliciting then mret tt
  else
    x ← get_space sid;
    if PacketNumSpace.need_send_ack x then mret tt
    else if negb (is_data_space (PacketNumSpace.id x)) then set_space sid (PacketNumSpace.with_need_send_ack true x)
    else
      c ← get;
      let n := PacketNumSpace.ack_eliciting_pkts_since_last_sent_ack x + 1 in
      let x := PacketNumSpace.with_ack_eliciting_pkts_since_last_sent_ack n x in
      if conf_ack_eliciting_threshold (recovery_conf c) <=? n then set_space sid (send_ack_now x)
      else
        next ← lift (add64 (PacketNumSpace.largest_rx_ack_eliciting_pkt_num x) 1);
        if (pkt_num <? PacketNumSpace.largest_rx_ack_eliciting_pkt_num x) || (next <? pkt_num)
        then set_space sid (send_ack_now x)
        else
          match PacketNumSpace.ack_timer x with
          | None =>
              let d := from_millis (TransportParams.max_ack_delay (peer_transport_params c)) in
              set_space sid (PacketNumSpace.with_ack_timer (Some (now + d)) x)
          | Some _ => set_space sid x
          end.

Definition on_crypto_send (level : Level) (f : SendBuf.SendBuf -> res SendBuf.SendBuf) : conn unit := fun c =>
  match CryptoStreams.get_mut level (crypto_streams c) with
  | Ok s =>
      match f (Stream.send s) with
      | Ok b => (Ok tt, with_crypto_streams (CryptoStreams.set level (Stream.with_send b s) (crypto_streams c)) c)
      | Err e => (Err e, c)
      | Panic => (Panic, c)
      end
  | _ => (Ok tt, c)
  end.

Definition run_streams (f : StreamMap.StreamMap -> res StreamMap.StreamMap) : conn unit := fun c =>
  match f (streams c) with
  | Ok s => (Ok tt, with_streams s c)
  | Err e => (Err e, c)
  | Panic => (Panic, c)
  end.

(** The entry of the map of spaces at [key]. *)
Definition put_space (key : Z) (x : PacketNumSpace.PacketNumSpace) : conn unit :=
  modify (fun c => with_spaces (PacketNumSpaceMap.mkSpaces (<[key := x]> (PacketNumSpaceMap.spaces (spaces c)))
    (PacketNumSpaceMap.next_data_ext_id (spaces c))) c).

(** A frame the peer has acknowledged in the space [key]. *)
Definition process_acked_frame (key : Z) (f : Frame) : conn unit :=
  match f with
  | Frame.Ack _ ack_ranges _ =>
      m ← lift (RangeSet.max ack_ranges);
      match m with
      | Some largest_acked =>
          c ← get;
          match PacketNumSpaceMap.spaces (spaces c) !! key with
          | Some x =>
              need ← lift (RangeSet.remove_until (PacketNumSpace.recv_pkt_num_need_ack x) largest_acked);
              put_space key (PacketNumSpace.with_recv_pkt_num_need_ack need x)
          | None => mret tt
          end
      | None => mret tt
      end
  | Frame.Crypto offset length _ =>
      c ← get;
      match PacketNumSpaceMap.spaces (spaces c) !! key with
      | Some x => on_crypto_send (space_to_level (PacketNumSpace.id x)) (SendBuf.ack_and_drop offset length)
      | None => mret tt
      end
  | HandshakeDone => remove_flag NeedSendHandshakeDone ;; insert_flag HandshakeDoneAcked
  | Frame.Stream stream_id offset length _ _ => run_streams (StreamMap.on_stream_frame_acked stream_id offset length)
  | ResetStream stream_id _ _ =>
      modify (fun c => with_streams (StreamMap.on_reset_stream_frame_acked stream_id (streams c)) c)
  | Ping (Some (pid, probe_size)) =>
      c ← get;
      match PathMap.get pid (paths c) with
      | Ok p =>
          let peer_mds := TransportParams.max_udp_payload_size (peer_transport_params c) in
          d ← lift (Dplpmtud.on_pmtu_probe_acked probe_size peer_mds (Path.dplpmtud p));
          update_path pid (fun p => Path.with_recovery
            (Recovery.update_max_datagram_size (Dplpmtud.current_size d) false (Path.recovery p)) (Path.with_dplpmtud d p))
      | _ => mret tt
      end
  | _ => mret tt
  end.

(** Take the list out of every space, in the order of the map, and handle its
    frames. *)
Definition drain_spaces (get_list : PacketNumSpace.PacketNumSpace -> list Frame)
    (clear : PacketNumSpace.PacketNumSpace -> PacketNumSpace.PacketNumSpace) (handle : Z -> Frame -> conn unit) : conn unit :=
  c ← get;
  for_each (fun e : Z * PacketNumSpace.PacketNumSpace =>
    c ← get;
    match PacketNumSpaceMap.spaces (spaces c) !! e.1 with
    | Some x =>
        put_space e.1 (clear x) ;;
        for_each (handle e.1) (get_list x)
    | None => mret tt
    end) (map_to_list (PacketNumSpaceMap.spaces (spaces c))).

Definition try_process_acked_frames : conn unit :=
  drain_spaces PacketNumSpace.acked (PacketNumSpace.with_acked []) process_acked_frame.

(** ** Ids for paths *)

(** The paths without an id of the peer, in order, until the ids run out. *)
Fixpoint allocate_cids (pids : list Z) : conn unit :=
  match pids with
  | [] => mret tt
  | pid :: pids =>
      c ← get;
      if ConnectionIdMgr.zero_length_dcid (cids c) then
        update_path pid (Path.with_dcid_seq (Some 0)) ;; allocate_cids pids
      else
        match ConnectionIdMgr.lowest_unused_dcid_seq (cids c) with
        | None => mret tt
        | Some seq =>
            ignore (on_cids (ConnectionIdMgr.mark_dcid_used seq pid)) ;;
            update_path pid (Path.with_dcid_seq (Some seq)) ;;
            allocate_cids pids
        end
  end.

Definition try_allocate_cids_from_peer : conn unit :=
  c ← get;
  allocate_cids (fst <$> List.filter (fun e => bool_decide (Path.dcid_seq e.2 = None)) (PathMap.paths (paths c))).

End Connection.

End Connection.
