(* ===== verification/ConnRecv.v ===== *)
(** * Receiving

    Models [src/src/connection/recv.rs] with [try_process_undecryptable_packets] of
    [src/src/connection/handshake.rs].

    A packet that completes the handshake makes the connection process the packets
    that waited for keys, each with a nested call of [recv].  The functions are
    parametrised by that step ([undec]); [recv] ties the knot with a fuel that
    bounds the nesting and the number of waiting packets.  [clock] is the
    value of [Instant::now()], [info.time] the arrival of the datagram. *)

From stdpp Require Import strings gmap.
From S2P Require Import Prelude.
From S2P Require Import Error.
From S2P Require Import Time.
From S2P Require Import Codec.
From S2P Require Import Btree.
From S2P Require Import Ranges.
From S2P Require Import Window.
From S2P Require Import FlowControl.
From S2P Require Import RecvBuf.
From S2P Require Import SendBuf.
From S2P Require Import Events.
From S2P Require Import Stream.
From S2P Require Import StreamMap.
From S2P Require Import ConnectionId.
From S2P Require Import Wire.
From S2P Require Import PacketNum.
From S2P Require Import Packet.
From S2P Require Import Protect.
From S2P Require Import Frame.
From S2P Require Import Cid.
From S2P Require Import Rtt.
From S2P Require Import Space.
From S2P Require Import Congestion.
From S2P Require Import Recovery.
From S2P Require Import TransParam.
From S2P Require Import Pmtu.
From S2P Require Import Path.
From S2P Require Import Timers.
From S2P Require Import Tls.
From S2P Require Import Scheduler.

From S2P Require Import RangeBuf.
From S2P Require Import Connection.

Import Connection.

Module ConnRecv.

Section ConnRecv.
Context {C : Type} `{CongestionController C} `{Platform C} {T : Type} `{TlsBackend T} `{CryptoBackend}.

Abbreviation Connection := (@Connection C T).
Abbreviation conn := (action Error Connection).

(** The result of a call as a value. *)
Definition attempt {A} (m : conn A) : conn (res A) := fun c =>
  match m c with
  | (Panic, c) => (Panic, c)
  | (r, c) => (Ok r, c)
  end.

(** [map_err(|_| e)] *)
Definition map_err {A} (e : Error) (m : res A) : res A := match m with Err _ => Err e | _ => m end.

Lemma map_err_inv {A} (e : Error) (m : res A) a : map_err e m = Ok a -> m = Ok a.
Proof. by destruct m. Qed.

(** ** Transport parameters *)

Definition set_peer_trans_params (p : TransportParams.TransportParams) : conn unit :=
  on_streams (StreamMap.update_peer_stream_transport_params (stream_params p)) ;;
  pid ← get_active_path_id;
  let max_ack_delay := from_millis (TransportParams.max_ack_delay p) in
  update_path pid (fun q => Path.with_recovery (Recovery.with_max_ack_delay max_ack_delay (Path.recovery q)) q) ;;
  modify (fun c => with_recovery_conf (with_conf_max_ack_delay max_ack_delay (recovery_conf c)) c) ;;
  update_path pid (fun q => Path.with_recovery
    (Recovery.update_max_datagram_size (TransportParams.max_udp_payload_size p) true (Path.recovery q)) q) ;;
  modify (fun c => with_cids (ConnectionIdMgr.set_scid_limit (TransportParams.active_conn_id_limit p) (cids c)) c) ;;
  modify (with_peer_transport_params p).

(** The ids the peer saw during the handshake are checked. *)
Definition process_peer_trans_params (p : TransportParams.TransportParams) : conn unit :=
  c ← get;
  d ← lift (dcid c);
  if negb (bool_decide (TransportParams.initial_source_connection_id p = Some d)) then fail TransportParameterError
  else if negb (is_server c) &&
    negb (bool_decide (TransportParams.original_destination_connection_id p = odcid c)) then fail TransportParameterError
  else if negb (is_server c) &&
    negb (bool_decide (TransportParams.retry_source_connection_id p = rscid c)) then fail TransportParameterError
  else
    match TransportParams.stateless_reset_token p with
    | Some t => add_event (ResetTokenAdvertised (be_bytes 16 t))
    | None => mret tt
    end ;;
    (if TransportParams.disable_encryption p && TransportParams.disable_encryption (local_transport_params c)
     then insert_flag DisableEncryption else mret tt) ;;
    set_peer_trans_params p ;;
    insert_flag AppliedPeerTransportParams.

Definition try_apply_peer_params : conn unit :=
  c ← get;
  let raw := TlsSession.peer_transport_params (tls_session c) in
  if negb (contains AppliedPeerTransportParams c) && negb (bool_decide (raw = [])) then
    '(p, _) ← lift (TransportParams.decode raw (is_server c));
    process_peer_trans_params p
  else mret tt.

(** ** Version negotiation and Retry *)

(** The largest supported version of the list, 0 if there is none. *)
Fixpoint scan_versions (payload : list Z) (found : Z) : res Z :=
  match payload with
  | [] => Ok found
  | a :: b :: c :: d :: rest =>
      let v := be_val [a; b; c; d] in
      scan_versions rest (if version_is_supported v then Z.max found v else found)
  | _ => Err Done
  end.

Definition process_version_negotiation (hdr : PacketHeader) (payload : list Z) (now : Instant) : conn Z :=
  c ← get;
  if is_server c then fail Done
  else if contains DidVersionNegotiation c then fail Done
  else if 0 <? recv_count (stats c) then fail Done
  else
    s ← lift (scid c);
    if negb (bool_decide (Packet.dcid hdr = s)) then fail Done
    else
      d ← lift (dcid c);
      if negb (bool_decide (Packet.scid hdr = d)) then fail Done
      else
        found ← lift (scan_versions payload 0);
        if found =? 0 then fail UnknownVersion
        else if found =? version c then fail Done
        else
          modify (with_version found) ;;
          insert_flag DidVersionNegotiation ;;
          remove_flag GotPeerCid ;;
          drop_space_state SpaceInitial now ;;
          on_session TlsSession.clear ;;
          set_transport_params ;;
          c ← get;
          d ← lift (dcid c);
          on_session (TlsSession.derive_initial_secrets (ConnectionId.deref d) (version c)) ;;
          on_tls TlsSession.process ;;
          fail Done.

Definition process_retry (hdr : PacketHeader) (buf : list Z) (now : Instant) : conn Z :=
  c ← get;
  if is_server c then fail Done
  else if contains DidRetry c then fail Done
  else
    d ← lift (dcid c);
    match verify_retry_integrity_tag retry_tag buf (ConnectionId.deref d) with
    | Panic => panic
    | Err _ => fail Done
    | Ok _ =>
        modify (with_token (Packet.token hdr)) ;;
        insert_flag DidRetry ;;
        remove_flag GotPeerCid ;;
        modify (with_odcid (Some d)) ;;
        pid ← get_active_path_id;
        set_initial_dcid (Packet.scid hdr) None pid ;;
        c ← get;
        d ← lift (dcid c);
        modify (with_rscid (Some d)) ;;
        drop_space_state SpaceInitial now ;;
        on_session TlsSession.clear ;;
        c ← get;
        d ← lift (dcid c);
        on_session (TlsSession.derive_initial_secrets (ConnectionId.deref d) (version c)) ;;
        on_tls TlsSession.process ;;
        fail Done
    end.

Section Nested.

(** [try_process_undecryptable_packets], one level of nesting down. *)
Context (undec : conn unit) (clock : Instant).

(** ** The handshake *)

Definition promote_to_multipath : conn unit :=
  c ← get;
  if TransportParams.enable_multipath (peer_transport_params c) && TransportParams.enable_multipath (local_transport_params c)
  then
    if ConnectionIdMgr.zero_length_dcid (cids c) then fail MultipathProtocolViolation
    else
      modify (fun c => with_multipath_scheduler (Some (build_multipath_scheduler (multipath_conf c))) c) ;;
      modify (fun c => with_paths (PathMap.enable_multipath (paths c)) c) ;;
      insert_flag EnableMultipath
  else mret tt.

Definition process_tls_session (tls_result : res unit) : conn unit :=
  c ← get;
  if contains HandshakeCompleted c then lift tls_result
  else
    match tls_result with
    | Err Done => try_apply_peer_params
    | Err e => fail e
    | Panic => panic
    | Ok _ =>
        try_apply_peer_params ;;
        c ← get;
        if TlsSession.is_completed (tls_session c) then
          insert_flag HandshakeCompleted ;;
          add_event ConnectionEstablished ;;
          stop_timer HandshakeTimer ;;
          undec ;;
          (if is_server c then
             insert_flag HandshakeConfirmed ;;
             insert_flag NeedSendHandshakeDone ;;
             drop_space_state SpaceHandshake clock
           else mret tt) ;;
          promote_to_multipath ;;
          try_schedule_control_frames
        else mret tt
    end.

(** ** Frames *)

Definition recv_ack (ack_delay : Z) (ranges : RangeSet.RangeSet) (pid : Z) (sid : SpaceId) (now : Instant) : conn unit :=
  c ← get;
  mul ← lift (pow64 (TransportParams.ack_delay_exponent (peer_transport_params c)));
  let ack_delay := ack_delay * mul in
  if 18446744073709551616 <=? ack_delay then fail FrameEncodingError
  else
    (if bool_decide (sid = SpaceHandshake) then insert_flag PeerVerifiedInitialAddress else mret tt) ;;
    (if bool_decide (sid = SpaceData) && is_established c then
       insert_flag PeerVerifiedInitialAddress ;;
       x ← get_space sid;
       m ← lift (RangeSet.max ranges);
       if negb (is_server c) && match m with Some m => PacketNumSpace.lowest_1rtt_pkt_num x <? m | None => false end
       then insert_flag HandshakeConfirmed else mret tt
     else mret tt) ;;
    p ← get_path pid;
    c ← get;
    '(lost_pkts, lost_bytes) ← on_recovery pid (Recovery.on_ack_received ranges ack_delay sid (handshake_status p c) now);
    modify (fun c => with_stats (add_lost lost_pkts lost_bytes (stats c)) c) ;;
    c ← get;
    if contains HandshakeConfirmed c then drop_space_state SpaceHandshake now else mret tt.

(** Read what is in order, 512 bytes at a time, and feed it to TLS. *)
Fixpoint feed_tls (fuel : nat) (level : Level) : conn unit :=
  match fuel with
  | O => panic
  | S fuel =>
      c ← get;
      s ← lift (CryptoStreams.get_mut level (crypto_streams c));
      let '(r, b) := RecvBuf.read 512 (Stream.recv s) in
      modify (fun c => with_crypto_streams (CryptoStreams.set level (Stream.with_recv b s) (crypto_streams c)) c) ;;
      match r with
      | Ok (bytes, _) =>
          r ← attempt (on_tls (TlsSession.provide level bytes));
          process_tls_session r ;;
          feed_tls fuel level
      | Err _ => mret tt
      | Panic => panic
      end
  end.

(** The bytes held by a crypto stream bound the number of reads. *)
Definition buffered_bytes (s : Stream.Stream) : nat :=
  foldr (fun e n => (length (RangeBuf.data e.2) + n)%nat) 0%nat (RecvBuf.data (Stream.recv s)).

Definition recv_crypto (offset : Z) (data : list Z) (sid : SpaceId) : conn unit :=
  let level := space_to_level sid in
  c ← get;
  s ← lift (CryptoStreams.get_mut level (crypto_streams c));
  let '(r, b) := RecvBuf.write offset data false (Stream.recv s) in
  let s := Stream.with_recv b s in
  modify (fun c => with_crypto_streams (CryptoStreams.set level s (crypto_streams c)) c) ;;
  lift r ;;
  feed_tls (S (buffered_bytes s)) level.

(** The paths whose id was retired get another one. *)
Definition reassign_dcid (e : Z * Z) : conn unit :=
  p ← get_path e.2;
  if negb (bool_decide (Path.dcid_seq p = Some e.1)) then mret tt
  else
    c ← get;
    match ConnectionIdMgr.lowest_unused_dcid_seq (cids c) with
    | Some seq => update_path e.2 (Path.with_dcid_seq (Some seq)) ;; on_cids (ConnectionIdMgr.mark_dcid_used seq e.2)
    | None => update_path e.2 (Path.with_dcid_seq None)
    end.

Definition recv_new_connection_id (seq_num retire_prior_to : Z) (conn_id : ConnectionId.ConnectionId) (reset_token : list Z)
  : conn unit :=
  c ← get;
  if ConnectionIdMgr.zero_length_dcid (cids c) then fail ProtocolViolation
  else
    retired ← on_cids (ConnectionIdMgr.add_dcid conn_id seq_num (be_val reset_token) retire_prior_to);
    add_event (DcidAdvertised reset_token) ;;
    for_each reassign_dcid retired.

Definition recv_retire_connection_id (seq_num : Z) (hdr : PacketHeader) : conn unit :=
  c ← get;
  if ConnectionIdMgr.zero_length_scid (cids c) then fail ProtocolViolation
  else
    match ConnectionIdMgr.get_scid seq_num (cids c) with
    | Ok item =>
        add_event (ScidRetired (ConnectionId.deref (cid item))) ;;
        o ← on_cids (ConnectionIdMgr.retire_scid seq_num (Packet.dcid hdr));
        match o with
        | Some pid =>
            p ← get_path pid;
            if bool_decide (Path.scid_seq p = Some seq_num) then update_path pid (Path.with_scid_seq None) else mret tt
        | None => mret tt
        end
    | _ => mret tt
    end.

(** The peer has closed the connection. *)
Definition recv_close (app : bool) (err : Z) (reason : list Z) (now : Instant) : conn unit :=
  modify (with_peer_error (Some (mkConnError app err None reason))) ;;
  p ← get_active;
  pto ← lift (RttEstimator.pto_base (Recovery.rtt (Path.recovery p)));
  d ← lift (dur_mul pto 3);
  set_timer Draining (now + d).

Definition recv_path_response (pid : Z) (data : list Z) : conn unit :=
  c ← get;
  let '(b, m) := PathMap.on_path_resp_received pid data clock (paths c) in
  modify (with_paths m) ;;
  if b : bool then
    modify (fun c => with_multipath_scheduler (on_path_updated (PathValidated pid) <$> multipath_scheduler c) c)
  else mret tt.

Definition recv_datagram_frame (data : list Z) : conn unit :=
  c ← get;
  if bool_decide (TransportParams.max_datagram_frame_size (local_transport_params c) = None) then fail ProtocolViolation
  else if len (dgram_recv_queue c) <? 128 then
    modify (fun c => with_dgram_recv_queue (dgram_recv_queue c ++ [data]) c) ;;
    add_event DatagramReceived
  else mret tt.

Definition recv_frame (f : Frame) (hdr : PacketHeader) (pid : Z) (sid : SpaceId) (now : Instant) : conn unit :=
  match f with
  | Paddings _ | Ping _ | PathAbandon _ _ _ | PathStatus _ _ _ => mret tt
  | Frame.Ack ack_delay ranges _ => recv_ack ack_delay ranges pid sid now
  | Frame.Crypto offset _ data => recv_crypto offset data sid
  | HandshakeDone =>
      c ← get;
      if is_server c then fail ProtocolViolation
      else
        insert_flag PeerVerifiedInitialAddress ;;
        insert_flag HandshakeConfirmed ;;
        drop_space_state SpaceHandshake now
  | NewConnectionId seq_num retire_prior_to conn_id reset_token =>
      recv_new_connection_id seq_num retire_prior_to conn_id reset_token
  | RetireConnectionId seq_num => recv_retire_connection_id seq_num hdr
  | PathChallenge data => modify (fun c => with_paths (PathMap.on_path_chal_received pid data (paths c)) c)
  | PathResponse data => recv_path_response pid data
  | Frame.NewToken t => add_event (Events.NewToken t)
  | ConnectionClose err _ reason => recv_close false err reason now
  | ApplicationClose err reason => recv_close true err reason now
  | Frame.Stream stream_id offset length fin data =>
      on_streams (StreamMap.on_stream_frame_received stream_id offset length fin data)
  | ResetStream stream_id err final_size => on_streams (StreamMap.on_reset_stream_frame_received stream_id err final_size)
  | StopSending stream_id err => on_streams (StreamMap.on_stop_sending_frame_received stream_id err)
  | MaxData max => on_streams (StreamMap.on_max_data_frame_received max)
  | MaxStreamData stream_id max => on_streams (StreamMap.on_max_stream_data_frame_received stream_id max)
  | MaxStreams bidi max => on_streams (StreamMap.on_max_streams_frame_received max bidi)
  | DataBlocked max => modify (fun c => with_streams (StreamMap.on_data_blocked_frame_received max (streams c)) c)
  | StreamDataBlocked stream_id max => on_streams (StreamMap.on_stream_data_blocked_frame_received stream_id max)
  | StreamsBlocked bidi max => on_streams (StreamMap.on_streams_blocked_frame_received max bidi)
  | Datagram data => recv_datagram_frame data
  end.

(** The frames of a packet; whether one of them elicits an acknowledgement, and
    whether all are probing frames.  A frame takes at least one byte. *)
Fixpoint recv_frames (fuel : nat) (payload : list Z) (hdr : PacketHeader) (pid : Z) (sid : SpaceId) (now : Instant)
    (ack_eliciting probing : bool) : conn (bool * bool) :=
  match payload, fuel with
  | [], _ => mret (ack_eliciting, probing)
  | _, O => panic
  | _, S fuel =>
      '(f, n) ← lift (Frame.from_bytes payload (Packet.pkt_type hdr));
      recv_frame f hdr pid sid now ;;
      recv_frames fuel (zdrop n payload) hdr pid sid now (ack_eliciting || Frame.ack_eliciting f) (probing && Frame.probing f)
  end.

(** ** Packets *)

Definition check_version (hdr : PacketHeader) : conn unit :=
  c ← get;
  (if is_server c && negb (contains DidVersionNegotiation c) then
     if negb (version_is_supported (Packet.version hdr)) then fail UnknownVersion
     else
       modify (with_version (Packet.version hdr)) ;;
       insert_flag DidVersionNegotiation
   else mret tt) ;;
  c ← get;
  if negb (bool_decide (Packet.pkt_type hdr = OneRTT)) && negb (Packet.version hdr =? version c) then fail Done
  else mret tt.

(** The length of the packet number and the payload, and where they start. *)
Definition packet_length (hdr : PacketHeader) (buf : list Z) (read : Z) : res (Z * Z) :=
  if bool_decide (Packet.pkt_type hdr = OneRTT) then Ok (len buf - read, read)
  else
    '(n, rest) ← map_err Done (read_varint (zdrop read buf));
    if len rest <? n then Err Done else Ok (n, len buf - len rest).

(** [try_update_key] on the space [sid] and the timers of the connection. *)
Definition on_key_update {A} (sid : SpaceId)
    (m : action Error (TlsSession.TlsSession * PacketNumSpace.PacketNumSpace * TimerTable.TimerTable) A) : conn A := fun c =>
  match PacketNumSpaceMap.get sid (spaces c) with
  | Some x =>
      let '(r, (s, x, t)) := m (tls_session c, x, timers c) in
      (r, with_timers t (with_spaces (PacketNumSpaceMap.set sid x (spaces c)) (with_tls_session s c)))
  | None => (Err InternalError, c)
  end.

(** Every other data space starts afresh with a new key phase. *)
Definition reset_other_spaces (sid : SpaceId) (m : PacketNumSpaceMap.PacketNumSpaceMap) : PacketNumSpaceMap.PacketNumSpaceMap :=
  PacketNumSpaceMap.mkSpaces
    ((fun x => if PacketNumSpace.is_data x && negb (bool_decide (PacketNumSpace.id x = sid))
               then TlsSession.reset_key_phase_tracking x else x) <$> PacketNumSpaceMap.spaces m)
    (PacketNumSpaceMap.next_data_ext_id m).

(** Remove the protection of a packet: the clear header, the packet number, its
    space and the payload. *)
Definition open_packet (buf : list Z) (hdr : PacketHeader) (pid : Z) (hdr_key : CryptoKey) (pkt_num_offset length : Z)
  : conn (PacketHeader * Z * SpaceId * list Z) :=
  c ← get;
  let plaintext := is_encryption_disabled (Packet.pkt_type hdr) c in
  '(buf, hdr) ← lift (map_err Done (@decrypt_header (CryptoKey.aead hdr_key) buf pkt_num_offset hdr plaintext));
  sid ← lift (get_space_id (Packet.pkt_type hdr) pid c);
  x ← get_space sid;
  pkt_num ← lift (decode_packet_num (PacketNumSpace.largest_rx_pkt_num x) (Packet.pkt_num hdr) (Packet.pkt_num_len hdr));
  dup ← lift (PacketNumSpace.detect_duplicated_pkt_num pkt_num x);
  if dup : bool then fail Done
  else
    let payload_offset := pkt_num_offset + Packet.pkt_num_len hdr in
    let payload_len := length - Packet.pkt_num_len hdr in
    if payload_len <? 0 then fail Done
    else
      cid_seq ← lift (if contains EnableMultipath c then
                        '(seq, _) ← ok_or (InvalidState "unknown dcid") (ConnectionIdMgr.find_scid (Packet.dcid hdr) (cids c));
                        mret (Some (wrap 32 seq))
                      else mret None);
      '(key, attempt_key_update) ← on_session (TlsSession.select_key (is_confirmed c) hdr x);
      payload ← lift (if plaintext then slice payload_offset payload_len buf
                      else map_err Done (@decrypt_payload (CryptoKey.aead key) (CryptoKey.iv key) buf payload_offset
                                           payload_len cid_seq pkt_num));
      if bool_decide (payload = []) then fail ProtocolViolation
      else
        max_pto ← lift (PathMap.max_pto (paths c));
        updated ← on_key_update sid (TlsSession.try_update_key attempt_key_update hdr clock max_pto);
        (if updated && contains EnableMultipath c then modify (fun c => with_spaces (reset_other_spaces sid (spaces c)) c)
         else mret tt) ;;
        mret (hdr, pkt_num, sid, payload).

(** Note a processed packet in its space. *)
Definition record_packet (sid : SpaceId) (pkt_num : Z) (ack_eliciting probing : bool) (at_ : Instant) : conn unit :=
  x ← get_space sid;
  m ← lift (RangeSet.max (PacketNumSpace.recv_pkt_num_need_ack x));
  let x := if match m with Some m => m <? pkt_num | None => true end then PacketNumSpace.with_largest_rx_pkt_time at_ x else x in
  win ← lift (SeqNumWindow.insert (PacketNumSpace.recv_pkt_num_win x) pkt_num);
  need ← lift (RangeSet.add_elem (PacketNumSpace.recv_pkt_num_need_ack x) pkt_num);
  let x := PacketNumSpace.with_recv_pkt_num_need_ack need (PacketNumSpace.with_recv_pkt_num_win win x) in
  let x := PacketNumSpace.with_largest_rx_pkt_num (Z.max (PacketNumSpace.largest_rx_pkt_num x) pkt_num) x in
  let x := if probing then x
           else PacketNumSpace.with_largest_rx_non_probing_pkt_num
                  (Z.max (PacketNumSpace.largest_rx_non_probing_pkt_num x) pkt_num) x in
  let x := if ack_eliciting
           then PacketNumSpace.with_largest_rx_ack_eliciting_pkt_num
                  (Z.max (PacketNumSpace.largest_rx_ack_eliciting_pkt_num x) pkt_num) x
           else x in
  set_space sid x.

(** What follows the frames of a packet of [read] bytes. *)
Definition finish_packet (hdr : PacketHeader) (pid : Z) (sid : SpaceId) (pkt_num read : Z) (ack_eliciting probing : bool)
    (at_ : Instant) : conn unit :=
  try_process_acked_frames ;;
  try_allocate_cids_from_peer ;;
  record_packet sid pkt_num ack_eliciting probing at_ ;;
  try_schedule_ack_frame sid pkt_num ack_eliciting clock ;;
  restart_idle_timer clock ;;
  modify (fun c => with_stats (add_recv 1 read (stats c)) c) ;;
  get_path pid ;;
  update_path pid (fun p => Path.with_recovery (Recovery.stat_recv_event 1 read (Path.recovery p))
    (Path.with_last_recv_time clock p)) ;;
  c ← get;
  (if is_server c && bool_decide (Packet.pkt_type hdr = Handshake) then
     drop_space_state SpaceInitial at_ ;;
     get_path pid ;;
     update_path pid (Path.with_verified_peer_address true)
   else mret tt) ;;
  insert_flag NeedSendAckEliciting.

(** The packet once its path, its length and the position of its number are known. *)
Definition recv_protected (buf : list Z) (info : PacketInfo) (hdr : PacketHeader) (pid length pkt_num_offset : Z) : conn Z :=
  c ← get;
  (if contains DerivedInitialSecrets c then mret tt
   else
     on_session (TlsSession.derive_initial_secrets (ConnectionId.deref (Packet.dcid hdr)) (version c)) ;;
     insert_flag DerivedInitialSecrets) ;;
  level ← lift (to_level (Packet.pkt_type hdr));
  c ← get;
  let read := pkt_num_offset + length in
  match open (TlsSession.get_keys level (tls_session c)) with
  | None =>
      pkt ← lift (slice 0 read buf);
      try_buffer_undecryptable_packets hdr pkt info ;;
      mret read
  | Some key =>
      '(hdr, pkt_num, sid, payload) ← open_packet buf hdr pid key pkt_num_offset length;
      try_set_dcid_for_initial_path pid hdr ;;
      '(ack_eliciting, probing) ← recv_frames (S (List.length payload)) payload hdr pid sid (time info) false true;
      finish_packet hdr pid sid pkt_num read ack_eliciting probing (time info) ;;
      mret read
  end.

Definition recv_packet (buf : list Z) (info : PacketInfo) (pid : option Z) : conn Z :=
  if bool_decide (buf = []) then fail Done
  else
    c ← get;
    if is_closing c || is_draining c || is_closed c then fail Done
    else
      s ← lift (scid c);
      '(hdr, read) ← lift (map_err Done (Packet.from_bytes buf (ConnectionId.len_ s)));
      if bool_decide (Packet.pkt_type hdr = VersionNegotiation) then
        process_version_negotiation hdr (zdrop read buf) (time info)
      else if bool_decide (Packet.pkt_type hdr = Retry) then process_retry hdr buf (time info)
      else
        check_version hdr ;;
        c ← get;
        pid ← (if bool_decide (Packet.pkt_type hdr = OneRTT) && contains HandshakeCompleted c
               then get_or_create_path pid (Packet.dcid hdr) info (len buf) clock
               else get_active_path_id);
        '(length, pkt_num_offset) ← lift (packet_length hdr buf read);
        recv_protected buf info hdr pid length pkt_num_offset.

(** ** Datagrams *)

(** The packets of a datagram; an error closes the connection.  A packet takes at
    least one byte. *)
Fixpoint recv_packets (fuel : nat) (buf : list Z) (info : PacketInfo) (pid : option Z) : conn unit :=
  match buf, fuel with
  | [], _ => mret tt
  | _, O => panic
  | _, S fuel =>
      r ← attempt (recv_packet buf info pid);
      match r with
      | Ok read => lift (sub64 (len buf) read) ;; recv_packets fuel (zdrop read buf) info pid
      | Err Done => mret tt
      | Err e => ignore (close false (to_wire e) []) ;; fail e
      | Panic => panic
      end
  end.

Definition recv_datagram (buf : list Z) (info : PacketInfo) : conn Z :=
  if bool_decide (buf = []) then fail NoError
  else
    c ← get;
    let pid := PathMap.get_path_id (dst info, src info) (paths c) in
    if bool_decide (pid = None) && negb (is_server c) then mret (len buf)
    else
      match pid with
      | Some pid => modify (fun c => with_paths (PathMap.inc_anti_ampl_limit pid (len buf) (paths c)) c)
      | None => mret tt
      end ;;
      recv_packets (List.length buf) buf info pid ;;
      c ← get;
      (if is_established c then mret tt else undec) ;;
      mret (len buf).

End Nested.

(** ** Packets that waited for keys *)

Section Waiting.
Context (recv : list Z -> PacketInfo -> conn Z).

Fixpoint drain_undecryptable (fuel : nat) (t : PacketType) : conn unit :=
  c ← get;
  match UndecryptablePackets.pop t (undecryptable_packets c), fuel with
  | (None, _), _ => mret tt
  | _, O => panic
  | (Some (pkt, info), u), S fuel =>
      modify (with_undecryptable_packets u) ;;
      ignore (recv pkt info) ;;
      drain_undecryptable fuel t
  end.

Definition try_process_undecryptable_packets (fuel : nat) : conn unit :=
  c ← get;
  if UndecryptablePackets.all_empty (undecryptable_packets c) then mret tt
  else
    for_each (fun t =>
      c ← get;
      if UndecryptablePackets.is_empty t (undecryptable_packets c) then mret tt
      else
        match to_level t with
        | Ok level =>
            match open (TlsSession.get_keys level (tls_session c)) with
            | None => mret tt
            | Some _ => drain_undecryptable fuel t
            end
        | _ => panic
        end)
      (if is_server c then [ZeroRTT; OneRTT] else [Handshake; OneRTT]).

End Waiting.

Fixpoint recv (fuel : nat) (clock : Instant) (buf : list Z) (info : PacketInfo) : conn Z :=
  match fuel with
  | O => panic
  | S fuel => recv_datagram (try_process_undecryptable_packets (recv fuel clock) fuel) clock buf info
  end.

End ConnRecv.

End ConnRecv.
