(* ===== verification/ConnSend.v ===== *)
(** * Sending

    Models [src/src/connection/send.rs]: the choice of a path and of a packet type,
    the frames of a packet, its protection, and the coalescing of packets
    into a datagram.

    Frames are written by actions on a [Sending]: the connection, the payload
    part of the buffer and the [FrameWriteStatus].  The source passes a slice of the
    buffer; here the buffer is whole and [limit] is the end of the slice.  The
    random data of a PATH_CHALLENGE is the argument [chal] and [clock] the value
    of [Instant::now()].  A set or a map is visited in the order of [elements] and
    [map_to_list]. *)

From stdpp Require Import strings gmap.
From S2P Require Import Prelude.
From S2P Require Import Error.
From S2P Require Import Time.
From S2P Require Import Codec.
From S2P Require Import Btree.
From S2P Require Import Ranges.
From S2P Require Import Window.
From S2P Require Import FlowControl.
From S2P Require Import RecvBuf.
From S2P Require Import SendBuf.
From S2P Require Import Events.
From S2P Require Import Stream.
From S2P Require Import StreamMap.
From S2P Require Import ConnectionId.
From S2P Require Import Wire.
From S2P Require Import PacketNum.
From S2P Require Import Packet.
From S2P Require Import Protect.
From S2P Require Import Frame.
From S2P Require Import Cid.
From S2P Require Import Rtt.
From S2P Require Import Space.
From S2P Require Import Congestion.
From S2P Require Import Recovery.
From S2P Require Import TransParam.
From S2P Require Import Pmtu.
From S2P Require Import Path.
From S2P Require Import Timers.
From S2P Require Import Tls.
From S2P Require Import Scheduler.

From S2P Require Import RangeBuf.
From S2P Require Import Concurrency.
From S2P Require Import Float64.
From S2P Require Import Connection.

Import Connection.

Definition LENGTH_FIELD_LEN : Z := 2.
Definition MIN_PAYLOAD_LEN : Z := 4.
Definition CONNECTION_WINDOW_FACTOR : f64 := Eval vm_compute in fdiv (of_int 3) (of_int 2).

Module FrameWriteStatus.

Record FrameWriteStatus := mkFWS {
  written : Z;
  frames : list Frame;
  ack_eliciting : bool;
  in_flight : bool;
  has_data : bool;
  challenge : option (list Z);
  ack_elicit_required : bool;
  is_probe : bool;
  is_pmtu_probe : bool;
  pacing : bool;
  overhead : Z;
  buffer_flags : BufferFlags;
}.

Definition with_in_flight (x : bool) (s : FrameWriteStatus) : FrameWriteStatus :=
  mkFWS (written s) (frames s) (ack_eliciting s) x (has_data s) (challenge s) (ack_elicit_required s) (is_probe s)
    (is_pmtu_probe s) (pacing s) (overhead s) (buffer_flags s).
Definition with_has_data (x : bool) (s : FrameWriteStatus) : FrameWriteStatus :=
  mkFWS (written s) (frames s) (ack_eliciting s) (in_flight s) x (challenge s) (ack_elicit_required s) (is_probe s)
    (is_pmtu_probe s) (pacing s) (overhead s) (buffer_flags s).
Definition with_challenge (x : option (list Z)) (s : FrameWriteStatus) : FrameWriteStatus :=
  mkFWS (written s) (frames s) (ack_eliciting s) (in_flight s) (has_data s) x (ack_elicit_required s) (is_probe s)
    (is_pmtu_probe s) (pacing s) (overhead s) (buffer_flags s).
Definition with_is_pmtu_probe (x : bool) (s : FrameWriteStatus) : FrameWriteStatus :=
  mkFWS (written s) (frames s) (ack_eliciting s) (in_flight s) (has_data s) (challenge s) (ack_elicit_required s)
    (is_probe s) x (pacing s) (overhead s) (buffer_flags s).
Definition with_pacing (x : bool) (s : FrameWriteStatus) : FrameWriteStatus :=
  mkFWS (written s) (frames s) (ack_eliciting s) (in_flight s) (has_data s) (challenge s) (ack_elicit_required s)
    (is_probe s) (is_pmtu_probe s) x (overhead s) (buffer_flags s).
Definition with_buffer_flags (x : BufferFlags) (s : FrameWriteStatus) : FrameWriteStatus :=
  mkFWS (written s) (frames s) (ack_eliciting s) (in_flight s) (has_data s) (challenge s) (ack_elicit_required s)
    (is_probe s) (is_pmtu_probe s) (pacing s) (overhead s) x.

Definition init (ack_elicit_required is_probe : bool) (overhead : Z) : FrameWriteStatus :=
  mkFWS 0 [] false false false None ack_elicit_required is_probe false false overhead (mkFlags false false false).

(** [n] bytes for the frame [f]. *)
Definition wrote (n : Z) (f : Frame) (s : FrameWriteStatus) : FrameWriteStatus :=
  mkFWS (written s + n) (frames s ++ [f]) (ack_eliciting s) (in_flight s) (has_data s) (challenge s)
    (ack_elicit_required s) (is_probe s) (is_pmtu_probe s) (pacing s) (overhead s) (buffer_flags s).

(** [st.ack_eliciting = true; st.in_flight = true] *)
Definition elicit (s : FrameWriteStatus) : FrameWriteStatus :=
  mkFWS (written s) (frames s) true true (has_data s) (challenge s)
    (ack_elicit_required s) (is_probe s) (is_pmtu_probe s) (pacing s) (overhead s) (buffer_flags s).

End FrameWriteStatus.

Module ConnSend.

Section ConnSend.
Context {C : Type} `{CongestionController C} `{Platform C} {T : Type} `{TlsBackend T} `{CryptoBackend}.

Abbreviation Connection := (@Connection C T).
Abbreviation conn := (action Error Connection).

(** The payload being written. *)
Record Sending := mkSending { conn_ : Connection; buf : list Z; st : FrameWriteStatus.FrameWriteStatus }.
Abbreviation sending := (action Error Sending).

Definition with_conn (c : Connection) (s : Sending) : Sending := mkSending c (buf s) (st s).
Definition with_st (f : FrameWriteStatus.FrameWriteStatus -> FrameWriteStatus.FrameWriteStatus) (s : Sending) : Sending :=
  mkSending (conn_ s) (buf s) (f (st s)).
Definition written (s : Sending) : Z := FrameWriteStatus.written (st s).

Definition on_conn {A} (m : conn A) : sending A := zoom conn_ with_conn m.
Definition elicit : sending unit := modify (with_st FrameWriteStatus.elicit).

(** [l[o..o + len bs].copy_from_slice(bs)] *)
Definition splice (o : Z) (bs l : list Z) : list Z := ztake o l ++ bs ++ zdrop (o + len bs) l.

(** The rest of the slice up to [limit] is replaced by [out] and [n] bytes of it count. *)
Definition commit (limit n : Z) (out : list Z) (f : Frame) : sending unit :=
  modify (fun s => mkSending (conn_ s) (ztake (written s) (buf s) ++ out ++ zdrop limit (buf s))
                     (FrameWriteStatus.wrote n f (st s))).

(** [&mut out[st.written..]] *)
Definition rest (limit : Z) (s : Sending) : list Z := ztake (limit - written s) (zdrop (written s) (buf s)).

Definition write_frame_to_packet (limit : Z) (f : Frame) : sending unit :=
  s ← get;
  n ← lift (wire_len f);
  if limit <? written s + n then fail Done
  else
    '(k, out) ← lift (Frame.to_bytes f (rest limit s));
    commit limit k out f.

(** A frame that elicits an acknowledgement. *)
Definition write_eliciting (limit : Z) (f : Frame) : sending unit := write_frame_to_packet limit f ;; elicit.

Section Packet.
Context (clock : Instant) (chal : list Z) (pkt_type : PacketType) (pid : Z).

Definition is_1rtt : bool := bool_decide (pkt_type = OneRTT).

(** ** Acknowledgements and closing *)

Definition try_write_ack_frame (limit : Z) : sending unit :=
  c ← gets conn_;
  sid ← lift (get_space_id pkt_type pid c);
  x ← on_conn (get_space sid);
  if RangeSet.is_empty (PacketNumSpace.recv_pkt_num_need_ack x) || negb (PacketNumSpace.need_send_ack x) || is_closing c
  then mret tt
  else
    p ← on_conn (get_path pid);
    if negb (Path.active p) then mret tt
    else
      e ← lift (pow64 (TransportParams.ack_delay_exponent (local_transport_params c)));
      let ack_delay := wrap 64 (since clock (PacketNumSpace.largest_rx_pkt_time x) / 1000) / e in
      write_frame_to_packet limit (Frame.Ack ack_delay (PacketNumSpace.recv_pkt_num_need_ack x) None) ;;
      on_conn (set_space sid (PacketNumSpace.with_ack_eliciting_pkts_since_last_sent_ack 0
                                (PacketNumSpace.with_need_send_ack false x))).

(** The frame an error is reported with in this packet. *)
Definition close_frame (e : ConnectionError) : option Frame :=
  if negb (is_app e) then Some (ConnectionClose (error_code e) 0 (error_reason e))
  else if is_1rtt || bool_decide (pkt_type = ZeroRTT) then Some (ApplicationClose (error_code e) (error_reason e))
  else None.

Definition try_write_close_frame (limit : Z) : sending unit :=
  p ← on_conn (get_path pid);
  c ← gets conn_;
  if negb (Path.active p) && (1 <? len (PathMap.paths (paths c))) then mret tt
  else
    match local_error c ≫= close_frame with
    | Some f =>
        write_eliciting limit f ;;
        p ← on_conn (get_path pid);
        pto ← lift (RttEstimator.pto_base (Recovery.rtt (Path.recovery p)));
        d ← lift (dur_mul pto 3);
        on_conn (set_timer Draining (clock + d))
    | None => mret tt
    end.

(** ** Probes *)

(** The probe may fill the whole buffer; it ends the packet. *)
Definition try_write_pmut_probe_frames (first : bool) : sending unit :=
  s ← get;
  let c := conn_ s in
  if negb is_1rtt || negb (contains HandshakeCompleted c) || is_closing c || negb first
     || negb (bool_decide (FrameWriteStatus.frames (st s) = []))
  then mret tt
  else
    p ← on_conn (get_path pid);
    '(probe_size, d) ← lift (Dplpmtud.get_probe_size (TransportParams.max_udp_payload_size (peer_transport_params c))
                               (Path.dplpmtud p));
    on_conn (update_path pid (Path.with_dplpmtud d)) ;;
    let cc := Recovery.congestion (Path.recovery p) in
    if negb (Path.validated p) || negb (Dplpmtud.should_probe d) || (len (buf s) <? probe_size)
       || (cc_congestion_window cc <? probe_size) || cc_in_recovery clock cc
    then mret tt
    else
      write_frame_to_packet (len (buf s)) (Ping (Some (pid, probe_size))) ;;
      n ← lift (sub64 probe_size (FrameWriteStatus.overhead (st s)));
      n ← lift (sub64 n 1);
      write_frame_to_packet (len (buf s)) (Paddings n) ;;
      elicit ;;
      modify (with_st (FrameWriteStatus.with_is_pmtu_probe true)) ;;
      fail Done.

Fixpoint write_path_responses (limit : Z) (fuel : nat) : sending unit :=
  match fuel with
  | O => panic
  | S fuel =>
      p ← on_conn (get_path pid);
      let '(o, p) := Path.pop_recv_chal p in
      on_conn (update_path pid (fun _ => p)) ;;
      match o with
      | Some data => write_eliciting limit (PathResponse data) ;; write_path_responses limit fuel
      | None => mret tt
      end
  end.

Definition try_write_path_validation_frames (limit : Z) : sending unit :=
  if negb is_1rtt then mret tt
  else
    p ← on_conn (get_path pid);
    write_path_responses limit (S (length (Path.recv_chals p))) ;;
    p ← on_conn (get_path pid);
    if Path.need_send_challenge p then
      write_eliciting limit (PathChallenge chal) ;;
      modify (with_st (FrameWriteStatus.with_challenge (Some chal)))
    else mret tt.

(** ** Connection ids and the handshake *)

(** The loops of [CidControl] on this buffer; a loop that does not end is a
    call that does not return. *)
Definition try_write_cid_control_frame (limit : Z) : sending unit := fun s =>
  let c := conn_ s in
  let w := CidControl.mkWriting (cids c) (ztake limit (buf s)) (written s) (FrameWriteStatus.frames (st s))
             (FrameWriteStatus.ack_eliciting (st s)) (FrameWriteStatus.in_flight (st s)) (events c) in
  let fuel := S (length (ConnectionIdMgr.scids_to_advertise (cids c)) + length (ConnectionIdMgr.dcids_to_retire (cids c))) in
  let path := (fun p => (Path.active_ p, Path.dcid_seq p)) <$> PathMap.get pid (paths c) in
  match CidControl.try_write_cid_control_frame pkt_type (is_closing c) path fuel w with
  | None => (Panic, s)
  | Some (r, w) =>
      let t := st s in
      (r, mkSending (with_events (CidControl.events w) (with_cids (CidControl.cids w) c))
            (CidControl.out w ++ zdrop limit (buf s))
            (FrameWriteStatus.mkFWS (CidControl.written w) (CidControl.frames w) (CidControl.st_ack_eliciting w)
               (CidControl.in_flight w) (FrameWriteStatus.has_data t) (FrameWriteStatus.challenge t)
               (FrameWriteStatus.ack_elicit_required t) (FrameWriteStatus.is_probe t) (FrameWriteStatus.is_pmtu_probe t)
               (FrameWriteStatus.pacing t) (FrameWriteStatus.overhead t) (FrameWriteStatus.buffer_flags t)))
  end.

Definition need_send_handshake_done_frame (c : Connection) : bool :=
  is_server c && is_established c && contains NeedSendHandshakeDone c.
Definition need_send_new_token_frame (c : Connection) : bool :=
  is_server c && is_established c && contains NeedSendNewToken c.

Definition write_handshake_done (limit : Z) : sending unit :=
  c ← gets conn_;
  if negb is_1rtt || is_closing c then mret tt
  else
    p ← on_conn (get_path pid);
    if Path.active p && need_send_handshake_done_frame c then
      write_eliciting limit HandshakeDone ;;
      on_conn (remove_flag NeedSendHandshakeDone)
    else mret tt.

Definition try_write_new_token_frame (limit : Z) : sending unit :=
  c ← gets conn_;
  match token c with
  | Some t =>
      if is_1rtt && is_server c && negb (is_closing c) then
        p ← on_conn (get_path pid);
        if Path.active p && contains NeedSendNewToken c then
          write_eliciting limit (Frame.NewToken t) ;;
          on_conn (remove_flag NeedSendNewToken)
        else mret tt
      else mret tt
  | None => mret tt
  end.

(** ** Stream control frames *)

Definition get_streams : sending StreamMap.StreamMap := gets (fun s => streams (conn_ s)).
Definition modify_streams (f : StreamMap.StreamMap -> StreamMap.StreamMap) : sending unit :=
  on_conn (modify (fun c => with_streams (f (streams c)) c)).

(** [max_streams_next] and [streams_blocked_at] *)
Definition max_streams_next (bidi : bool) (s : StreamMap.StreamMap) : Z :=
  let cc := StreamMap.concurrency_control s in
  if bidi then ConcurrencyControl.local_max_streams_bidi_next cc else ConcurrencyControl.local_max_streams_uni_next cc.
Definition streams_blocked_at (bidi : bool) (s : StreamMap.StreamMap) : option Z :=
  let cc := StreamMap.concurrency_control s in
  if bidi then ConcurrencyControl.streams_blocked_at_bidi cc else ConcurrencyControl.streams_blocked_at_uni cc.

Definition write_max_streams (limit : Z) (bidi : bool) : sending unit :=
  s ← get_streams;
  b ← lift (ConcurrencyControl.should_update_local_max_streams bidi (StreamMap.concurrency_control s));
  if b : bool then
    write_eliciting limit (MaxStreams bidi (max_streams_next bidi s)) ;;
    modify_streams (StreamMap.update_local_max_streams bidi)
  else mret tt.

Definition write_data_blocked (limit : Z) : sending unit :=
  s ← get_streams;
  match SendCapacity.blocked_at (StreamMap.send_capacity s) with
  | Some n => write_eliciting limit (DataBlocked n) ;; modify_streams (StreamMap.update_data_blocked_at None)
  | None => mret tt
  end.

Definition write_max_stream_data (limit : Z) (srtt : Duration) (id : Z) : sending unit :=
  s ← get_streams;
  match StreamMap.streams s !! id with
  | None => modify_streams (StreamMap.mark_almost_full id false)
  | Some x =>
      b ← lift (RecvBuf.autotune_window clock srtt (Stream.recv x));
      modify_streams (StreamMap.put_stream id (Stream.with_recv b x)) ;;
      n ← lift (RecvBuf.max_data_next b);
      write_eliciting limit (MaxStreamData id n) ;;
      let recv_win := RecvBuf.window b in
      b ← lift (RecvBuf.update_max_data clock b);
      modify_streams (fun s =>
        StreamMap.with_rx_almost_full true
          (StreamMap.ensure_window_lower_bound (as_u64 (fmul (of_int recv_win) CONNECTION_WINDOW_FACTOR))
            (StreamMap.mark_almost_full id false (StreamMap.put_stream id (Stream.with_recv b x) s))))
  end.

Definition write_max_data (limit : Z) (srtt : Duration) : sending unit :=
  s ← get_streams;
  b ← lift (StreamMap.need_send_max_data s);
  if b : bool then
    s ← lift (StreamMap.autotune_window clock srtt s);
    modify_streams (fun _ => s) ;;
    n ← lift (StreamMap.max_rx_data_next s);
    write_eliciting limit (MaxData n) ;;
    s ← lift (StreamMap.update_max_rx_data clock (StreamMap.with_rx_almost_full false s));
    modify_streams (fun _ => s)
  else mret tt.

Definition write_streams_blocked (limit : Z) (bidi : bool) : sending unit :=
  s ← get_streams;
  match streams_blocked_at bidi s with
  | Some n => write_eliciting limit (StreamsBlocked bidi n) ;; modify_streams (StreamMap.update_streams_blocked_at bidi None)
  | None => mret tt
  end.

Definition try_write_stream_control_frames (limit : Z) : sending unit :=
  c ← gets conn_;
  if negb is_1rtt || is_closing c then mret tt
  else
    p ← on_conn (get_path pid);
    if negb (Path.active p) then mret tt
    else
      let srtt := RttEstimator.smoothed_rtt (Recovery.rtt (Path.recovery p)) in
      for_each (write_max_streams limit) [true; false] ;;
      write_data_blocked limit ;;
      s ← get_streams;
      for_each (write_max_stream_data limit srtt) (elements (StreamMap.almost_full_ s)) ;;
      write_max_data limit srtt ;;
      s ← get_streams;
      for_each (fun e : Z * Z =>
        write_eliciting limit (StopSending e.1 e.2) ;;
        modify_streams (StreamMap.mark_stopped e.1 false 0)) (map_to_list (StreamMap.stopped_ s)) ;;
      s ← get_streams;
      for_each (fun e : Z * (Z * Z) =>
        write_eliciting limit (ResetStream e.1 e.2.1 e.2.2) ;;
        modify_streams (StreamMap.mark_reset e.1 false 0 0)) (map_to_list (StreamMap.reset_ s)) ;;
      s ← get_streams;
      for_each (fun e : Z * Z =>
        write_eliciting limit (StreamDataBlocked e.1 e.2) ;;
        modify_streams (StreamMap.mark_blocked e.1 false 0)) (map_to_list (StreamMap.data_blocked s)) ;;
      for_each (write_streams_blocked limit) [true; false].

(** ** Data *)

(** A frame whose data was read into the buffer after room for its header. *)
Definition commit_data (limit hdr_len : Z) (header : Codec.enc unit) (bytes : list Z) (f : Frame) : sending unit :=
  s ← get;
  '(_, h) ← lift (run_enc header (ztake hdr_len (rest limit s)));
  commit limit (hdr_len + len bytes) (h ++ bytes ++ zdrop (hdr_len + len bytes) (rest limit s)) f ;;
  elicit ;;
  modify (with_st (FrameWriteStatus.with_has_data true)).

Definition try_write_crypto_frame (limit : Z) : sending unit :=
  if bool_decide (pkt_type = ZeroRTT) then mret tt
  else
    level ← lift (to_level pkt_type);
    s ← get;
    let c := conn_ s in
    x ← lift (CryptoStreams.get_mut level (crypto_streams c));
    room ← lift (sub64 limit (written s));
    if negb (Stream.is_sendable x && (MAX_CRYPTO_OVERHEAD <? room) && negb (is_closing c)) then mret tt
    else
      p ← on_conn (get_path pid);
      if negb (Path.active p) then mret tt
      else
        let off := SendBuf.send_off (Stream.send x) in
        hdr_len ← lift (crypto_header_wire_len off);
        if room <=? hdr_len then mret tt
        else
          '(bytes, _, b) ← lift (SendBuf.read (room - hdr_len) (Stream.send x));
          on_conn (modify (fun c => with_crypto_streams
            (CryptoStreams.set level (Stream.with_send b x) (crypto_streams c)) c)) ;;
          commit_data limit hdr_len (encode_crypto_header off (len bytes)) bytes (Frame.Crypto off (len bytes) []).

(** The streams waiting to send bound the turns that write nothing. *)
Definition sendable_count (s : StreamMap.StreamMap) : nat :=
  foldr (fun e n => (length (StreamPriorityQueue.non_incremental e.2) + length (StreamPriorityQueue.incremental e.2) + n)%nat)
    0%nat (StreamMap.sendable s).

Fixpoint write_streams (limit : Z) (fuel : nat) : sending unit :=
  match fuel with
  | O => panic
  | S fuel =>
      s ← get_streams;
      let '(o, m) := StreamMap.peek_sendable s in
      modify_streams (fun _ => m) ;;
      match o with
      | None => mret tt
      | Some id =>
          match StreamMap.streams m !! id with
          | None => modify_streams StreamMap.remove_sendable ;; write_streams limit fuel
          | Some x =>
              if SendBuf.is_stopped (Stream.send x) then
                modify_streams StreamMap.remove_sendable ;; write_streams limit fuel
              else
                let off := SendBuf.send_off (Stream.send x) in
                hdr_len ← lift (stream_header_wire_len id off);
                s ← get;
                room ← lift (sub64 (limit - written s) hdr_len);
                '(bytes, fin, b) ← lift (SendBuf.read room (Stream.send x));
                let x := Stream.with_send b x in
                modify_streams (StreamMap.put_stream id x) ;;
                let c := conn_ s in
                let data := if contains EnableMultipath c && buffer_required (multipath_algorithm (multipath_conf c))
                            then bytes else [] in
                commit_data limit hdr_len (encode_stream_header id off (len bytes) fin) bytes
                  (Frame.Stream id off (len bytes) fin data) ;;
                (if Stream.is_sendable x then mret tt else modify_streams StreamMap.remove_sendable) ;;
                s ← get;
                if limit - written s <=? MAX_STREAM_OVERHEAD then mret tt else write_streams limit fuel
          end
      end
  end.

Definition try_write_stream_frames (limit : Z) : sending unit :=
  s ← get;
  let c := conn_ s in
  room ← lift (sub64 limit (written s));
  if negb (is_1rtt || bool_decide (pkt_type = ZeroRTT)) || is_closing c || (room <=? MAX_STREAM_OVERHEAD) then mret tt
  else
    p ← on_conn (get_path pid);
    if negb (Path.active p) then mret tt
    else write_streams limit (S (sendable_count (streams c) + Z.to_nat room)).

(** A retained frame, cut to the room that is left; the number of its bytes that
    were written. *)
Definition write_buffered_stream_frame_to_packet (limit id off : Z) (fin : bool) (data : list Z) (t : BufferType)
  : sending Z :=
  s ← get;
  room ← lift (sub64 limit (written s));
  if room <=? MAX_STREAM_OVERHEAD then mret 0
  else
    hdr_len ← lift (stream_header_wire_len id off);
    n ← lift (sub64 room hdr_len);
    let data_len := Z.min (len data) n in
    let fin := if data_len <? len data then false else fin in
    let data := ztake data_len data in
    commit_data limit hdr_len (encode_stream_header id off data_len fin) data (Frame.Stream id off (len data) fin data) ;;
    modify (with_st (fun x => FrameWriteStatus.with_buffer_flags (mark t (FrameWriteStatus.buffer_flags x)) x)) ;;
    mret data_len.

Definition modify_space (sid : SpaceId) (f : PacketNumSpace.PacketNumSpace -> PacketNumSpace.PacketNumSpace) : sending unit :=
  x ← on_conn (get_space sid);
  on_conn (set_space sid (f x)).

Fixpoint write_buffered (limit : Z) (sid : SpaceId) (fuel : nat) : sending unit :=
  match fuel with
  | O => panic
  | S fuel =>
      x ← on_conn (get_space sid);
      '(o, q) ← lift (BufferQueue.pop_front (PacketNumSpace.buffered x));
      modify_space sid (PacketNumSpace.with_buffered q) ;;
      match o with
      | None => mret tt
      | Some (Frame.Stream id off length fin data, t) =>
          s ← get_streams;
          match StreamMap.streams s !! id with
          | None => write_buffered limit sid fuel
          | Some y =>
              match SendBuf.filter_acked (mkRange off (off + length)) (Stream.send y) with
              | None => write_buffered limit sid fuel
              | Some r =>
                  part ← lift (slice (start r - off) (end_ r - start r) data);
                  n ← write_buffered_stream_frame_to_packet limit id (start r) (fin && (end_ r =? off + length)) part t;
                  (if start r + n <? off + length then
                     let tail_len := off + length - start r - n in
                     tail ← lift (slice (length - tail_len) (len data - (length - tail_len)) data);
                     modify_space sid (fun x => PacketNumSpace.with_buffered
                       (BufferQueue.push_front (Frame.Stream id (start r + n) tail_len fin tail) t (PacketNumSpace.buffered x)) x)
                   else mret tt) ;;
                  if n =? 0 then mret tt else write_buffered limit sid fuel
              end
          end
      | Some _ => write_buffered limit sid fuel
      end
  end.

(** Every turn but the last drops a frame or shortens one. *)
Definition buffered_weight (q : BufferQueue.BufferQueue) : nat :=
  foldr (fun f n => (match f with Frame.Stream _ _ length _ _ => Z.to_nat length | _ => 0 end + 1 + n)%nat) 0%nat
    (BufferQueue.high q ++ BufferQueue.mid q ++ BufferQueue.low q).

Definition try_write_buffered_frames (limit : Z) : sending unit :=
  s ← get;
  let c := conn_ s in
  if negb (contains EnableMultipath c) then mret tt
  else
    p ← on_conn (get_path pid);
    room ← lift (sub64 limit (written s));
    if negb is_1rtt || is_closing c || (room <=? MAX_STREAM_OVERHEAD) || negb (Path.active p) then mret tt
    else
      x ← on_conn (get_space (Path.space_id p));
      if BufferQueue.is_empty (PacketNumSpace.buffered x) then mret tt
      else write_buffered limit (Path.space_id p) (S (buffered_weight (PacketNumSpace.buffered x))).

(** A datagram that does not fit is dropped. *)
Fixpoint write_datagrams (limit peer_max : Z) (queue : list (list Z)) : sending unit :=
  match queue with
  | [] => mret tt
  | data :: queue =>
      on_conn (modify (with_dgram_send_queue queue)) ;;
      s ← get;
      wire ← lift (wire_len (Datagram data));
      room ← lift (sub64 limit (written s));
      if (peer_max <? wire) || (room <? wire) then mret tt
      else write_eliciting limit (Datagram data) ;; write_datagrams limit peer_max queue
  end.

Definition try_write_datagram_frames (limit : Z) : sending unit :=
  c ← gets conn_;
  if negb is_1rtt || is_closing c then mret tt
  else
    match TransportParams.max_datagram_frame_size (peer_transport_params c) with
    | Some v => if 0 <? v then write_datagrams limit v (dgram_send_queue c) else mret tt
    | None => mret tt
    end.

(** ** The payload *)

Definition write_ping (limit : Z) : sending unit :=
  s ← get;
  p ← on_conn (get_path pid);
  if ((FrameWriteStatus.ack_elicit_required (st s) && negb (FrameWriteStatus.ack_eliciting (st s))) || Path.need_send_ping p)
     && negb (is_closing (conn_ s))
  then
    write_eliciting limit (Ping None) ;;
    on_conn (update_path pid (Path.with_need_send_ping false))
  else mret tt.

Definition set_app_limited (b : bool) : conn unit :=
  get_path pid ;;
  update_path pid (fun p => Path.with_recovery
    (Recovery.with_congestion (cc_set_app_limited b (Recovery.congestion (Path.recovery p))) (Path.recovery p)) p).

Definition write_paddings (limit n : Z) : sending unit :=
  write_frame_to_packet limit (Paddings n) ;;
  modify (with_st (FrameWriteStatus.with_in_flight true)).

Definition pad_packet (limit : Z) (has_initial : bool) : sending unit :=
  s ← get;
  p ← on_conn (get_path pid);
  room ← lift (sub64 limit (written s));
  (if (1 <=? room) &&
      (has_initial || (FrameWriteStatus.is_probe (st s) && negb (is_server (conn_ s)) && bool_decide (pkt_type = Handshake))
       || Path.need_expand_padding_frames (is_server (conn_ s)) p)
   then write_paddings limit room else mret tt) ;;
  s ← get;
  if written s <? MIN_PAYLOAD_LEN then write_paddings limit (MIN_PAYLOAD_LEN - written s) else mret tt.

(** The congestion window and the pacer let a packet out, or it is a probe. *)
Definition check_congestion : sending unit :=
  s ← get;
  if FrameWriteStatus.is_probe (st s) then mret tt
  else
    p ← on_conn (get_path pid);
    '(b, r) ← lift (Recovery.can_send clock (Path.recovery p));
    on_conn (update_path pid (Path.with_recovery r)) ;;
    if b : bool then mret tt else fail Done.

Definition send_frames (left : Z) (first has_initial : bool) : sending unit :=
  try_write_ack_frame left ;;
  try_write_close_frame left ;;
  p ← on_conn (get_path pid);
  on_conn (update_path pid (fun p => Path.with_recovery (Recovery.stat_cwnd_limited clock (Path.recovery p)) p)) ;;
  check_congestion ;;
  modify (with_st (FrameWriteStatus.with_pacing true)) ;;
  try_write_pmut_probe_frames first ;;
  try_write_path_validation_frames left ;;
  try_write_cid_control_frame left ;;
  write_handshake_done left ;;
  try_write_stream_control_frames left ;;
  try_write_crypto_frame left ;;
  try_write_buffered_frames left ;;
  try_write_stream_frames left ;;
  try_write_new_token_frame left ;;
  try_write_datagram_frames left ;;
  write_ping left ;;
  s ← get;
  if bool_decide (FrameWriteStatus.frames (st s) = []) then
    on_conn (set_app_limited true) ;;
    fail Done
  else pad_packet left has_initial.

End Packet.

(** ** Lost frames *)

(** A frame of the space [key] that is taken to be lost. *)
Definition process_lost_frame (key : Z) (f : Frame) : conn unit :=
  match f with
  | Frame.Ack _ _ _ =>
      c ← get;
      match PacketNumSpaceMap.spaces (spaces c) !! key with
      | Some x => put_space key (PacketNumSpace.with_need_send_ack true x)
      | None => mret tt
      end
  | HandshakeDone =>
      c ← get;
      if contains HandshakeDoneAcked c then mret tt else insert_flag NeedSendHandshakeDone
  | NewConnectionId seq_num _ _ _ =>
      modify (fun c => with_cids (ConnectionIdMgr.mark_scid_to_advertise seq_num true (cids c)) c)
  | RetireConnectionId seq_num =>
      modify (fun c => with_cids (ConnectionIdMgr.mark_dcid_to_retire seq_num true (cids c)) c)
  | Frame.NewToken _ => insert_flag NeedSendNewToken
  | Frame.Crypto offset length _ =>
      c ← get;
      match PacketNumSpaceMap.spaces (spaces c) !! key with
      | Some x => on_crypto_send (space_to_level (PacketNumSpace.id x)) (SendBuf.retransmit offset length)
      | None => mret tt
      end
  | Frame.Stream stream_id offset length fin _ => run_streams (StreamMap.on_stream_frame_lost stream_id offset length fin)
  | ResetStream stream_id error_code final_size =>
      modify (fun c => with_streams (StreamMap.on_reset_stream_frame_lost stream_id error_code final_size (streams c)) c)
  | MaxStreamData stream_id _ =>
      modify (fun c => with_streams (StreamMap.on_max_stream_data_frame_lost stream_id (streams c)) c)
  | MaxData _ => modify (fun c => with_streams (StreamMap.on_max_data_frame_lost (streams c)) c)
  | StopSending stream_id error_code =>
      modify (fun c => with_streams (StreamMap.on_stop_sending_frame_lost stream_id error_code (streams c)) c)
  | StreamsBlocked bidi max =>
      modify (fun c => with_streams (StreamMap.on_streams_blocked_frame_lost bidi max (streams c)) c)
  | StreamDataBlocked stream_id max =>
      modify (fun c => with_streams (StreamMap.on_stream_data_blocked_frame_lost stream_id max (streams c)) c)
  | DataBlocked max => modify (fun c => with_streams (StreamMap.on_data_blocked_frame_lost max (streams c)) c)
  | Ping (Some (pid, probe_size)) =>
      c ← get;
      match PathMap.get pid (paths c) with
      | Ok p =>
          d ← lift (Dplpmtud.on_pmtu_probe_lost probe_size (TransportParams.max_udp_payload_size (peer_transport_params c))
                      (Path.dplpmtud p));
          update_path pid (Path.with_dplpmtud d)
      | _ => mret tt
      end
  | _ => mret tt
  end.

Definition process_all_lost_frames : conn unit :=
  drain_spaces PacketNumSpace.lost (PacketNumSpace.with_lost []) process_lost_frame.

(** ** The path and the type of the next packet *)

Definition has_app_error (c : Connection) : bool := match local_error c with Some e => is_app e | None => false end.
Definition has_transport_error (c : Connection) : bool := match local_error c with Some e => negb (is_app e) | None => false end.

Definition need_send_path_unaware_frames (c : Connection) : res bool :=
  if need_send_handshake_done_frame c || need_send_new_token_frame c || has_app_error c
     || ConnectionIdMgr.need_send_cid_control_frames (cids c)
  then Ok true else StreamMap.need_send_stream_frames (streams c).

Definition on_select_path (clock : Instant) (s : Scheduler) : conn (res Z) := fun c =>
  let '(r, (s, v)) := on_select clock (s, mkView (paths c) (spaces c) (streams c)) in
  let c := with_multipath_scheduler (Some s)
             (with_streams (v_streams v) (with_spaces (v_spaces v) (with_paths (v_paths v) c))) in
  match r with Panic => (Panic, c) | _ => (Ok r, c) end.

(** The first usable path with acknowledgements, probes, retained frames or a ping. *)
Fixpoint select_pending (clock : Instant) (pids : list Z) : conn (option Z) :=
  match pids with
  | [] => mret None
  | pid :: pids =>
      p ← get_path pid;
      c ← get;
      if negb (Path.active p) || Path.is_abandon p then select_pending clock pids
      else
        match PacketNumSpaceMap.get (Path.space_id p) (spaces c) with
        | None => select_pending clock pids
        | Some x =>
            if (negb (RangeSet.is_empty (PacketNumSpace.recv_pkt_num_need_ack x)) && PacketNumSpace.need_send_ack x)
               || (0 <? PacketNumSpace.loss_probes x)
            then mret (Some pid)
            else
              b ← (if PacketNumSpace.need_send_buffered_frames x then
                     '(b, r) ← lift (Recovery.can_send clock (Path.recovery p));
                     update_path pid (Path.with_recovery r) ;;
                     mret b
                   else mret false);
              if (b : bool) || Path.need_send_ping p then mret (Some pid) else select_pending clock pids
        end
  end.

Definition select_send_path (clock : Instant) : conn Z :=
  c ← get;
  let probing := List.filter (fun e => bool_decide (is_Some (Path.dcid_seq e.2)) && Path.need_send_validation_frames (is_server c) e.2)
                   (PathMap.paths (paths c)) in
  match (if is_established c then probing else []) with
  | (pid, _) :: _ => mret pid
  | [] =>
      if contains EnableMultipath c then
        b ← lift (need_send_path_unaware_frames c);
        o ← (if b : bool then
               match multipath_scheduler c with
               | None => fail InternalError
               | Some s => r ← on_select_path clock s; mret (match r with Ok pid => Some pid | _ => None end)
               end
             else mret None);
        match o with
        | Some pid => mret pid
        | None =>
            o ← select_pending clock (fst <$> PathMap.paths (paths c));
            match o with
            | Some pid => mret pid
            | None => get_active_path_id
            end
        end
      else get_active_path_id
  end.

(** A packet of this type carries handshake data, acknowledgements or a probe. *)
Definition has_pending (t : PacketType) (pid : Z) (c : Connection) : res bool :=
  level ← to_level t;
  match seal (TlsSession.get_keys level (tls_session c)) with
  | None => mret false
  | Some _ =>
      s ← CryptoStreams.get_mut level (crypto_streams c);
      if Stream.is_sendable s then mret true
      else
        sid ← get_space_id t pid c;
        x ← ok_or InternalError (PacketNumSpaceMap.get sid (spaces c));
        mret (PacketNumSpace.need_send_ack x || negb (bool_decide (PacketNumSpace.lost x = [])) || (0 <? PacketNumSpace.loss_probes x))
  end.

Fixpoint first_pending (ts : list PacketType) (pid : Z) (c : Connection) : res (option PacketType) :=
  match ts with
  | [] => mret None
  | t :: ts => b ← has_pending t pid c; if b : bool then mret (Some t) else first_pending ts pid c
  end.

(** The type of a packet that reports a transport error. *)
Definition close_packet_type (c : Connection) : res PacketType :=
  t ← match TlsSession.write_level (tls_session c) with
      | LevelInitial => Ok Initial
      | LevelHandshake => Ok Handshake
      | LevelZeroRTT => Panic
      | LevelOneRTT => Ok OneRTT
      end;
  mret (if is_established c then t
        else
          match t with
          | OneRTT => Handshake
          | Handshake =>
              if bool_decide (is_Some (seal (TlsSession.get_keys LevelInitial (tls_session c)))) then Initial else t
          | _ => t
          end).

Definition select_send_packet_type (pid : Z) (c : Connection) : res PacketType :=
  if has_transport_error c then close_packet_type c
  else
    o ← first_pending [Initial; Handshake; OneRTT] pid c;
    match o with
    | Some t => mret t
    | None =>
        p ← PathMap.get pid (paths c);
        let ready := is_established c || bool_decide (is_Some (seal (TlsSession.get_keys LevelOneRTT (tls_session c))))
                     || TlsSession.is_in_early_data (tls_session c) in
        b ← (if ready then
               if need_send_handshake_done_frame c || need_send_new_token_frame c || has_app_error c
                  || Path.need_send_validation_frames (is_server c) p || Dplpmtud.should_probe (Path.dplpmtud p)
                  || Path.need_send_ping p || ConnectionIdMgr.need_send_cid_control_frames (cids c)
               then mret true
               else
                 b ← StreamMap.need_send_stream_frames (streams c);
                 mret (b || PacketNumSpaceMap.need_send_buffered_frames (spaces c)
                       || negb (bool_decide (dgram_send_queue c = [])))
             else mret false);
        if b : bool then
          mret (if negb (is_server c) && TlsSession.is_in_early_data (tls_session c) then ZeroRTT else OneRTT)
        else Err Done
    end.

(** ** Packets *)

(** The header of the next packet, up to its packet number, with the number and
    the sequence number of the destination id. *)
Definition packet_header (t : PacketType) (pid : Z) (sid : SpaceId) (c : Connection) : res (PacketHeader * Z * Z) :=
  x ← ok_or InternalError (PacketNumSpaceMap.get sid (spaces c));
  let pkt_num := PacketNumSpace.next_pkt_num x in
  let pkt_num_len := packet_num_len pkt_num (PacketNumSpace.get_largest_acked_pkt x) in
  p ← PathMap.get pid (paths c);
  dcid_seq ← ok_or InternalError (Path.dcid_seq p);
  d ← ConnectionIdMgr.get_dcid dcid_seq (cids c);
  s ← match Path.scid_seq p with
      | Some seq => i ← ConnectionIdMgr.get_scid seq (cids c); mret (cid i)
      | None => if bool_decide (t = OneRTT) then mret ConnectionId.default else Err InternalError
      end;
  mret (mkHeader t (version c) (cid d) s pkt_num_len 0
          (if negb (is_server c) && bool_decide (t = Initial) then token c else None)
          (TlsSession.current_key_phase (tls_session c)), pkt_num, dcid_seq).

(** The packet of [written] bytes is recorded with the scheduler, recovery, the path
    and the statistics. *)
Definition note_sent (t : PacketType) (pid : Z) (sid : SpaceId) (pkt_num written : Z)
    (w : FrameWriteStatus.FrameWriteStatus) (now : Instant) : conn unit :=
  let pkt := mkSent t pkt_num (FrameWriteStatus.frames w) now None None (FrameWriteStatus.ack_eliciting w)
               (FrameWriteStatus.in_flight w) (FrameWriteStatus.has_data w) (FrameWriteStatus.is_pmtu_probe w)
               (FrameWriteStatus.pacing w) written (mkRateSample 0 None None false 0 0) (FrameWriteStatus.buffer_flags w) in
  modify (fun c =>
    match multipath_scheduler c with
    | Some s =>
        let '(s, v) := on_sent pkt pid s (mkView (paths c) (spaces c) (streams c)) in
        with_multipath_scheduler (Some s) (with_streams (v_streams v) (with_spaces (v_spaces v) (with_paths (v_paths v) c)))
    | None => c
    end) ;;
  (if FrameWriteStatus.in_flight w then set_app_limited pid false else mret tt) ;;
  p ← get_path pid;
  c ← get;
  on_recovery pid (Recovery.on_packet_sent pkt sid (handshake_status p c) now) ;;
  match FrameWriteStatus.challenge w with
  | Some data =>
      c ← get;
      m ← lift (PathMap.on_path_chal_sent pid data written now (paths c));
      modify (with_paths m)
  | None => mret tt
  end ;;
  (if FrameWriteStatus.is_pmtu_probe w then
     get_path pid ;;
     update_path pid (fun p => Path.with_dplpmtud (Dplpmtud.on_pmtu_probe_sent (Path.dplpmtud p)) p)
   else mret tt) ;;
  modify (fun c => with_stats (add_sent 1 written (stats c)) c) ;;
  get_path pid ;;
  update_path pid (fun p => Path.with_recovery (Recovery.stat_sent_event 1 written (Path.recovery p)) p) ;;
  modify (fun c => with_paths (PathMap.dec_anti_ampl_limit pid written (paths c)) c).

(** The packet number is used up. *)
Definition use_pkt_num (t : PacketType) (sid : SpaceId) (pkt_num : Z) : conn unit :=
  x ← get_space sid;
  next ← lift (add64 (PacketNumSpace.next_pkt_num x) 1);
  let x := PacketNumSpace.with_next_pkt_num next x in
  set_space sid
    (if bool_decide (t = OneRTT) then
       let x := PacketNumSpace.with_lowest_1rtt_pkt_num (Z.min (PacketNumSpace.lowest_1rtt_pkt_num x) pkt_num) x in
       if bool_decide (PacketNumSpace.first_pkt_num_sent x = None) then PacketNumSpace.with_first_pkt_num_sent (Some pkt_num) x
       else x
     else x).

(** A client that has sent a Handshake packet is done with Initial packets; the first
    ack-eliciting packet restarts the idle timer. *)
Definition after_sent (t : PacketType) (ack_eliciting : bool) (now : Instant) : conn unit :=
  c ← get;
  (if negb (is_server c) && bool_decide (t = Handshake) then drop_space_state SpaceInitial now else mret tt) ;;
  c ← get;
  (if ack_eliciting && negb (contains SentAckElicitingSinceRecvPkt c) then restart_idle_timer now else mret tt) ;;
  if ack_eliciting then insert_flag SentAckElicitingSinceRecvPkt else mret tt.

(** Write the frames at [payload_offset]; a packet that has filled up is done. *)
Definition write_payload (clock : Instant) (chal : list Z) (t : PacketType) (pid left : Z) (first has_initial : bool)
    (out : list Z) (payload_offset : Z) (w : FrameWriteStatus.FrameWriteStatus)
  : conn (list Z * FrameWriteStatus.FrameWriteStatus) := fun c =>
  let '(r, s) := send_frames clock chal t pid left first has_initial (mkSending c (zdrop payload_offset out) w) in
  let done : res (list Z * FrameWriteStatus.FrameWriteStatus) := Ok (ztake payload_offset out ++ buf s, st s) in
  (match r with
   | Ok _ => done
   | Err Done => if 0 <? written s then done else Err Done
   | Err e => Err e
   | Panic => Panic
   end, conn_ s).

(** The type of the packet, whether it probes the MTU, its size, and the buffer. *)
Definition send_packet (clock : Instant) (chal out : list Z) (left pid : Z) (first has_initial : bool)
  : conn (PacketType * bool * Z * list Z) :=
  if len out <? left then fail (InvalidState "buffer too short")
  else
    c ← get;
    if is_draining c then fail Done
    else
      t ← lift (select_send_packet_type pid c);
      level ← lift (to_level t);
      sid ← lift (get_space_id t pid c);
      '(hdr, pkt_num, dcid_seq) ← lift (packet_header t pid sid c);
      let pkt_num_len := Packet.pkt_num_len hdr in
      '(hdr_offset, head) ← lift (Packet.to_bytes hdr (ztake left out));
      let out := head ++ zdrop left out in
      let pkt_num_offset := if bool_decide (t = OneRTT) then hdr_offset else hdr_offset + LENGTH_FIELD_LEN in
      crypto_overhead ← lift (ok_or InternalError (TlsSession.get_overhead level (tls_session c)));
      let total_overhead := if is_encryption_disabled t c then pkt_num_offset + pkt_num_len
                            else pkt_num_offset + pkt_num_len + crypto_overhead in
      let left := left - total_overhead in
      if left <? MIN_PAYLOAD_LEN then fail BufferTooShort
      else
        '(_, pn) ← lift (run_enc (encode_packet_num pkt_num pkt_num_len ;; mret tt)
                           (ztake pkt_num_len (zdrop pkt_num_offset out)));
        let out := splice pkt_num_offset pn out in
        let payload_offset := pkt_num_offset + pkt_num_len in
        x ← get_space sid;
        let w := FrameWriteStatus.init (PacketNumSpace.need_elicit_ack x) (0 <? PacketNumSpace.loss_probes x) total_overhead in
        '(out, w) ← write_payload clock chal t pid left first has_initial out payload_offset w;
        let payload_len := FrameWriteStatus.written w in
        out ← lift (if bool_decide (t = OneRTT) then mret out
                    else
                      '(_, l) ← run_enc (write_varint_with_len (pkt_num_len + payload_len + crypto_overhead) LENGTH_FIELD_LEN ;; mret tt)
                                  (zdrop hdr_offset out);
                      mret (ztake hdr_offset out ++ l));
        c ← get;
        key ← lift (ok_or InternalError (seal (TlsSession.get_keys level (tls_session c))));
        let cid_seq := if contains EnableMultipath c then Some (wrap 32 dcid_seq) else None in
        '(written, out) ← lift (if is_encryption_disabled t c then mret (payload_offset + payload_len, out)
                                else @encrypt_packet (CryptoKey.aead key) (CryptoKey.iv key) out cid_seq pkt_num pkt_num_len
                                       payload_len payload_offset None);
        note_sent t pid sid pkt_num written w clock ;;
        use_pkt_num t sid pkt_num ;;
        after_sent t (FrameWriteStatus.ack_eliciting w) clock ;;
        mret (t, FrameWriteStatus.is_pmtu_probe w, written, out).

(** ** Datagrams *)

Definition max_datagram_size (pid : Z) (c : Connection) : Z :=
  if negb (contains AppliedPeerTransportParams c) then MIN_CLIENT_INITIAL_LEN
  else
    match PathMap.get pid (paths c) with
    | Ok p => Recovery.max_datagram_size (Path.recovery p)
    | _ => MIN_CLIENT_INITIAL_LEN
    end.

(** The packets of a datagram: what is left, what is done, whether there is an Initial
    packet, and the buffer.  A packet takes at least one byte. *)
Fixpoint send_packets (clock : Instant) (chal : list Z) (pid : Z) (fuel : nat) (left done : Z) (has_initial : bool) (out : list Z)
  : conn (Z * Z * bool * list Z) := fun c =>
  if left <=? 0 then (Ok (left, done, has_initial, out), c)
  else
    match fuel with
    | O => (Panic, c)
    | S fuel =>
        match send_packet clock chal (zdrop done out) left pid (done =? 0) has_initial c with
        | (Ok (t, is_pmtu_probe, written, tail), c) =>
            let out := ztake done out ++ tail in
            let left := sat_sub left written in
            let done := sat_add64 done written in
            let has_initial := if bool_decide (t = Initial) then true else has_initial in
            if bool_decide (t = OneRTT) || is_pmtu_probe then (Ok (left, done, has_initial, out), c)
            else send_packets clock chal pid fuel left done has_initial out c
        | (Err BufferTooShort, c) | (Err Done, c) => (Ok (left, done, has_initial, out), c)
        | (Err e, c) => (Err e, c)
        | (Panic, c) => (Panic, c)
        end
    end.

(** A client starts its handshake with the first datagram. *)
Definition initiate_handshake : conn unit :=
  c ← get;
  if negb (is_server c) && negb (contains InitiatedClientHandshake c) then
    (fun c => match on_tls TlsSession.process c with
              | (Err Done, c) => (Ok tt, c)
              | r => r
              end) ;;
    insert_flag InitiatedClientHandshake
  else mret tt.

(** The datagram and where it goes. *)
Definition send (clock : Instant) (chal out : list Z) : conn (list Z * PacketInfo) :=
  if len out <? MIN_CLIENT_INITIAL_LEN then fail BufferTooShort
  else
    c ← get;
    if is_draining c || is_closed c then fail Done
    else if negb (contains DerivedInitialSecrets c) then fail Done
    else
      initiate_handshake ;;
      process_all_lost_frames ;;
      pid ← select_send_path clock;
      c ← get;
      let left := PathMap.cmp_anti_ampl_limit pid (Z.min (len out) (max_datagram_size pid c)) (paths c) in
      '(left, done, has_initial, out) ← send_packets clock chal pid (S (length out)) left 0 false out;
      if done =? 0 then fail Done
      else
        let pad_len := if has_initial && (0 <? left) && (done <? MIN_CLIENT_INITIAL_LEN)
                       then Z.min left (MIN_CLIENT_INITIAL_LEN - done) else 0 in
        let out := splice done (repeat 0 (Z.to_nat pad_len)) out in
        p ← get_path pid;
        mret (ztake (done + pad_len) out, mkInfo (Path.local_addr p) (Path.remote_addr p) clock).

End ConnSend.

End ConnSend.
