(* ===== verification/ConnQuery.v ===== *)
(** * Timeouts, paths and the application's interface

    Models the rest of [src/src/connection/query.rs], [src/src/connection/dgram.rs] and
    [set_session] and [set_token] of [src/src/connection/connection.rs]: the
    timers of a connection, adding, abandoning and migrating paths, streams,
    datagrams, and the events and queues of the endpoint. *)

From stdpp Require Import strings gmap.
From S2P Require Import Prelude.
From S2P Require Import Error.
From S2P Require Import Time.
From S2P Require Import Codec.
From S2P Require Import Btree.
From S2P Require Import Ranges.
From S2P Require Import Window.
From S2P Require Import FlowControl.
From S2P Require Import RecvBuf.
From S2P Require Import SendBuf.
From S2P Require Import Events.
From S2P Require Import Stream.
From S2P Require Import StreamMap.
From S2P Require Import ConnectionId.
From S2P Require Import Wire.
From S2P Require Import PacketNum.
From S2P Require Import Packet.
From S2P Require Import Protect.
From S2P Require Import Frame.
From S2P Require Import Cid.
From S2P Require Import Rtt.
From S2P Require Import Space.
From S2P Require Import Congestion.
From S2P Require Import Recovery.
From S2P Require Import TransParam.
From S2P Require Import Pmtu.
From S2P Require Import Path.
From S2P Require Import Timers.
From S2P Require Import Tls.
From S2P Require Import Scheduler.

From S2P Require Import Connection.
From S2P Require Import ConnRecv.

Import Connection.

Module ConnQuery.

Section ConnQuery.
Context {C : Type} `{CongestionController C} `{Platform C} {T : Type} `{TlsBackend T} `{CryptoBackend}.

Abbreviation Connection := (@Connection C T).
Abbreviation conn := (action Error Connection).

(** ** Timeouts *)

Definition set_or_stop (t : Timer) (o : option Instant) : conn unit :=
  match o with Some at_ => set_timer t at_ | None => stop_timer t end.

(** The time until the next event. *)
Definition timeout (now : Instant) : conn (option Duration) :=
  c ← get;
  if is_closed c then mret None
  else
    at_ ← (if is_draining c then mret (TimerTable.get Draining (timers c))
           else
             set_or_stop LossDetection (PathMap.min_loss_detection_timer (paths c)) ;;
             set_or_stop Pacer (PathMap.min_pacer_timer (paths c)) ;;
             set_or_stop PathChallengeTimer (PathMap.min_path_chal_timer (paths c)) ;;
             set_or_stop Ack (PacketNumSpaceMap.min_ack_timer (spaces c)) ;;
             gets (fun c => TimerTable.next_timeout (timers c)));
    mret ((fun v => if v <=? now then 0 else v - now) <$> at_).

Definition loss_detection_timeout (now : Instant) (pid : Z) : conn unit :=
  p ← get_path pid;
  match Recovery.loss_detection_timer (Path.recovery p) with
  | Some t =>
      if now <? t then mret tt
      else
        c ← get;
        '(lost_pkts, lost_bytes) ← on_recovery pid (Recovery.on_loss_detection_timeout (Path.space_id p) (handshake_status p c) now);
        modify (fun c => with_stats (add_lost lost_pkts lost_bytes (stats c)) c)
  | None => mret tt
  end.

Definition ack_timeout (now : Instant) (x : PacketNumSpace.PacketNumSpace) : PacketNumSpace.PacketNumSpace :=
  match PacketNumSpace.ack_timer x with
  | Some t => if now <? t then x else send_ack_now x
  | None => x
  end.

Definition pacer_timeout (now : Instant) (p : @Path.Path C) : @Path.Path C :=
  match Recovery.pacer_timer (Path.recovery p) with
  | Some t => if now <? t then p else Path.with_recovery (Recovery.with_pacer_timer None (Path.recovery p)) p
  | None => p
  end.

Definition on_timer (now : Instant) (t : Timer) : conn unit :=
  match t with
  | LossDetection => c ← get; for_each (loss_detection_timeout now) (fst <$> PathMap.paths (paths c))
  | Ack => modify (fun c => with_spaces (PacketNumSpaceMap.mkSpaces (ack_timeout now <$> PacketNumSpaceMap.spaces (spaces c))
                              (PacketNumSpaceMap.next_data_ext_id (spaces c))) c)
  | Pacer => modify (fun c => with_paths (PathMap.update_all (pacer_timeout now) (paths c)) c) ;; mark_tickable true
  | Idle => insert_flag Closed ;; insert_flag IdleTimeout
  | HandshakeTimer => insert_flag Closed ;; insert_flag HandshakeTimeout
  | Draining => insert_flag Closed
  | KeyDiscard => modify (fun c => with_tls_session (TlsSession.discard_prev_key (tls_session c)) c)
  | KeepAlive =>
      modify (fun c => match PathMap.mark_ping None (paths c) with Ok m => with_paths m c | _ => c end) ;;
      modify (fun c => with_paths (PathMap.abandon_stale_paths now (path_timeout_ms (multipath_conf c)) (paths c)).2 c)
  | PathChallengeTimer => modify (fun c => with_paths (PathMap.on_path_chal_timeout now (paths c)) c)
  end.

Definition expire (now : Instant) (t : Timer) : conn unit :=
  c ← get;
  if TimerTable.is_expired t now (timers c) then stop_timer t ;; on_timer now t else mret tt.

Definition on_timeout (now : Instant) : conn unit := for_each (expire now) all_timers.

(** ** Paths *)

Definition ping (addr : option (SocketAddr * SocketAddr)) : conn unit :=
  c ← get;
  m ← lift (PathMap.mark_ping addr (paths c));
  modify (with_paths m).

Definition add_path (local remote : SocketAddr) (now : Instant) : conn Z :=
  c ← get;
  if is_server c then fail (InvalidOperation "disallowed")
  else if negb (contains HandshakeCompleted c) then fail (InvalidOperation "disallowed")
  else if bool_decide (is_Some (PathMap.get_path_id (local, remote) (paths c))) then fail Done
  else
    let dcid_seq := if ConnectionIdMgr.zero_length_dcid (cids c) then Some 0
                    else ConnectionIdMgr.lowest_unused_dcid_seq (cids c) in
    p ← lift (Path.new local remote false (recovery_conf c) (build_congestion_controller (recovery_conf c)) now);
    '(pid, m) ← lift (PathMap.insert_path (Path.with_dcid_seq dcid_seq p) (vacant_key (paths c)) (paths c));
    modify (with_paths m) ;;
    match dcid_seq with
    | Some seq => on_cids (ConnectionIdMgr.mark_dcid_used seq pid)
    | None => mret tt
    end ;;
    update_path pid Path.initiate_path_chal ;;
    (if contains EnableMultipath c then
       sid ← add_space now;
       update_path pid (Path.with_space_id sid)
     else mret tt) ;;
    mark_tickable true ;;
    mret pid.

Definition abandon_path (local remote : SocketAddr) : conn unit :=
  c ← get;
  if negb (contains EnableMultipath c) then fail (InvalidOperation "disallowed")
  else
    match PathMap.get_path_id (local, remote) (paths c) with
    | None => mret tt
    | Some pid =>
        p ← get_path pid;
        if Path.active p && (len (List.filter (fun e => Path.active e.2) (PathMap.paths (paths c))) <=? 1)
        then fail (InvalidOperation "cannot abandon last active path")
        else update_path pid (Path.with_is_abandon true)
    end.

Definition migrate_path (local remote : SocketAddr) : conn unit :=
  c ← get;
  if negb (contains HandshakeCompleted c) then fail (InvalidOperation "handshake not completed")
  else
    pid ← lift (ok_or (InvalidOperation "path not found") (PathMap.get_path_id (local, remote) (paths c)));
    p ← get_path pid;
    if bool_decide (Path.state p = Failed) then fail (InvalidOperation "path validation failed")
    else if Path.active p then mret tt
    else
      match Path.dcid_seq p with
      | Some _ => mret tt
      | None =>
          seq ← lift (ok_or (InvalidOperation "no available connection ID")
                        (if ConnectionIdMgr.zero_length_dcid (cids c) then Some 0
                         else ConnectionIdMgr.lowest_unused_dcid_seq (cids c)));
          update_path pid (Path.with_dcid_seq (Some seq)) ;;
          on_cids (ConnectionIdMgr.mark_dcid_used seq pid)
      end ;;
      (if contains EnableMultipath c then mret tt
       else
         modify (fun c =>
           match PathMap.get_active_with_path_id (paths c) with
           | Ok (old, _) => with_paths (PathMap.update old (Path.with_active_ false) (paths c)) c
           | _ => c
           end)) ;;
      update_path pid (fun p =>
        let p := Path.with_active_ true p in
        if negb (Path.validated p) && negb (Path.need_send_challenge p) then Path.initiate_path_chal p else p) ;;
      mark_tickable true.

Definition add_scid (scid : ConnectionId.ConnectionId) (reset_token : Z) (retire_if_needed : bool) : conn Z :=
  on_cids (ConnectionIdMgr.add_scid scid (Some reset_token) true None retire_if_needed).

Definition get_path_stats (local remote : SocketAddr) : conn PathStats :=
  c ← get;
  pid ← lift (ok_or (InvalidOperation "not found") (PathMap.get_path_id (local, remote) (paths c)));
  p ← get_path pid;
  let '(s, p) := Path.path_stats p in
  update_path pid (fun _ => p) ;;
  mret s.

(** ** Streams *)

(** Most operations on streams make the connection tickable first. *)
Definition tick {A} (m : action Error StreamMap.StreamMap A) : conn A := mark_tickable true ;; on_streams m.

Definition stream_want_write (id : Z) (want : bool) : conn unit := tick (StreamMap.want_write id want).
Definition stream_want_read (id : Z) (want : bool) : conn unit := tick (StreamMap.want_read id want).
Definition stream_read (id cap : Z) : conn (list Z * bool) := tick (StreamMap.stream_read id cap).
Definition stream_write (id : Z) (bytes : list Z) (fin : bool) : conn Z := tick (StreamMap.stream_write id bytes fin).
Definition stream_set_priority (id urgency : Z) (incremental : bool) : conn unit :=
  tick (StreamMap.stream_set_priority id urgency incremental).
Definition stream_new (id urgency : Z) (incremental : bool) : conn unit := stream_set_priority id urgency incremental.
Definition stream_bidi_new (urgency : Z) (incremental : bool) : conn Z := tick (StreamMap.stream_bidi_new urgency incremental).
Definition stream_uni_new (urgency : Z) (incremental : bool) : conn Z := tick (StreamMap.stream_uni_new urgency incremental).
Definition stream_shutdown (id : Z) (direction : Shutdown) (err : Z) : conn unit := tick (StreamMap.stream_shutdown id direction err).
Definition stream_writable (id n : Z) : conn bool := on_streams (StreamMap.stream_writable id n).
Definition stream_destroy (id : Z) : conn unit :=
  modify (fun c => with_streams (StreamMap.stream_destroy id (streams c)) c).

(** ** The endpoint *)

Definition set_index (v : Z) : conn unit :=
  modify (with_index (Some v)) ;;
  modify (fun c => with_events (EventQueue.enable (events c)) c) ;;
  modify (fun c => with_streams (StreamMap.with_events (EventQueue.enable (StreamMap.events (streams c))) (streams c)) c).

Definition set_queues (q : ConnectionQueues) : conn unit := modify (with_queues (Some q)).

Definition start_handshake : conn unit :=
  c ← get;
  if is_server c then mret tt
  else fun c => match on_tls TlsSession.process c with (Err Done, c) => (Ok tt, c) | r => r end.

(** The next event, those of the connection first. *)
Definition poll : conn (option Event) := fun c =>
  match EventQueue.poll (events c) with
  | (Some e, q) => (Ok (Some e), with_events q c)
  | (None, q) =>
      let c := with_events q c in
      let '(o, q) := EventQueue.poll (StreamMap.events (streams c)) in
      (Ok o, with_streams (StreamMap.with_events q (streams c)) c)
  end.

Definition is_ready (c : Connection) : res bool :=
  if negb (EventQueue.is_empty (events c)) || negb (EventQueue.is_empty (StreamMap.events (streams c)))
     || StreamMap.has_readable (streams c)
  then Ok true
  else b ← StreamMap.has_writable (streams c); mret (b || is_closed c).

(** ** Resumption *)

(** The TLS session and the transport parameters it was established with. *)
Definition set_session (buf : list Z) : conn unit :=
  '(n, buf) ← lift (read_u64 buf);
  '(session, buf) ← lift (read n buf);
  on_session (TlsSession.set_session session) ;;
  '(n, buf) ← lift (read_u64 buf);
  '(params, buf) ← lift (read n buf);
  c ← get;
  '(p, _) ← lift (TransportParams.decode params (is_server c));
  ConnRecv.set_peer_trans_params p.

Definition set_token (t : list Z) : conn unit :=
  c ← get;
  if is_server c then fail (InvalidOperation "not a client") else modify (with_token (Some t)).

(** ** Datagrams *)

Definition dgram_recv : conn (list Z) := fun c =>
  match dgram_recv_queue c with
  | data :: q => (Ok data, with_dgram_recv_queue q c)
  | [] => (Err Done, c)
  end.
Definition dgram_readable (c : Connection) : bool := negb (bool_decide (dgram_recv_queue c = [])).

Definition dgram_send (data : list Z) : conn unit :=
  c ← get;
  peer_max ← lift (ok_or (InvalidState "peer does not support datagrams")
                     (TransportParams.max_datagram_frame_size (peer_transport_params c)));
  n ← lift (encode_varint_len (len data));
  if peer_max <? 1 + n + len data then fail BufferTooShort
  else
    (if 128 <=? len (dgram_send_queue c) then modify (fun c => with_dgram_send_queue (tail (dgram_send_queue c)) c)
     else mret tt) ;;
    modify (fun c => with_dgram_send_queue (dgram_send_queue c ++ [data]) c) ;;
    mark_tickable true.

Definition dgram_max_payload_size (c : Connection) : res (option Z) :=
  match TransportParams.max_datagram_frame_size (peer_transport_params c) with
  | None => mret None
  | Some max => n ← encode_varint_len (sat_sub max 1); mret (Some (sat_sub max (1 + n)))
  end.

Definition dgram_sendable (c : Connection) : bool :=
  bool_decide (is_Some (TransportParams.max_datagram_frame_size (peer_transport_params c)))
  && (len (dgram_send_queue c) <? 128).

End ConnQuery.

End ConnQuery.
