(* ===== verification/ConnSample.v ===== *)
(** * A sample pair of endpoints

    Concrete stand-ins for what the connection gets from elsewhere (key derivation,
    the cipher, TLS, the congestion controller) and two connections made with them.
    Nothing is proved of them in general: they are where the theorems on connections
    are instantiated, and where a handshake is run to its end. *)

From stdpp Require Import strings gmap.
From S2P Require Import Prelude.
From S2P Require Import Error.
From S2P Require Import Time.
From S2P Require Import Codec.
From S2P Require Import Btree.
From S2P Require Import Ranges.
From S2P Require Import Window.
From S2P Require Import FlowControl.
From S2P Require Import RecvBuf.
From S2P Require Import SendBuf.
From S2P Require Import Events.
From S2P Require Import Stream.
From S2P Require Import StreamMap.
From S2P Require Import ConnectionId.
From S2P Require Import Wire.
From S2P Require Import PacketNum.
From S2P Require Import Packet.
From S2P Require Import Protect.
From S2P Require Import Frame.
From S2P Require Import Cid.
From S2P Require Import Rtt.
From S2P Require Import Space.
From S2P Require Import Congestion.
From S2P Require Import Recovery.
From S2P Require Import TransParam.
From S2P Require Import Pmtu.
From S2P Require Import Path.
From S2P Require Import Timers.
From S2P Require Import Tls.
From S2P Require Import Scheduler.
From S2P Require Import Float64.

From S2P Require Import Steps.
From S2P Require Import Connection.
From S2P Require Import ConnRecv.
From S2P Require Import ConnSend.
From S2P Require Import ConnQuery.
Import Connection.

(** ** Backends *)

(** Every derived secret is a checksum of what it is derived from. *)
Definition sum (l : list Z) : Z := foldr Z.add 0 l.

#[global] Instance sample_crypto : CryptoBackend := {|
  hkdf_extract _ salt secret := repeat (wrap 8 (sum salt + sum secret)) 32;
  hkdf_expand prk info n := Some (repeat (wrap 8 (sum prk.2 + sum info)) (Z.to_nat n));
  aead_init _ _ := Some (@evp_seal sample_aead, @evp_open sample_aead);
  hp_init _ _ := Some (@hp_mask sample_aead);
  retry_tag _ := Some (repeat 0 16);
|}.

#[global] Instance sample_platform : Platform Dummy.Dummy := {|
  build_congestion_controller conf := Dummy.new (conf_initial_congestion_window conf) (conf_max_datagram_size conf);
  vacant_key m := len (PathMap.paths m);
|}.

(** A handshake of four messages: the client's parameters, a reply, the server's
    parameters and a final message. *)
Record SampleTls := mkSampleTls {
  tls_server : bool;
  tls_stage : Z;
  tls_params : list Z;
  tls_peer_params : list Z;
  tls_input : option (Level * list Z);
}.

Definition at_stage (n : Z) (peer : list Z) (t : SampleTls) : SampleTls :=
  mkSampleTls (tls_server t) n (tls_params t) peer None.

Definition AES : Z := 0x03001301.
Definition client_secret (n : Z) : list Z := repeat n 32.
Definition server_secret (n : Z) : list Z := repeat (n + 1) 32.

Definition sample_handshake (t : SampleTls) : Dialogue SampleTls :=
  match tls_server t, tls_stage t, tls_input t with
  | false, 0, _ =>
      AddHandshakeData LevelInitial (1 :: tls_params t) (fun _ => Return (-1) (at_stage 1 [] t))
  | false, 1, Some (LevelInitial, _) =>
      SetReadSecret LevelHandshake AES (server_secret 10) (fun _ =>
      SetWriteSecret LevelHandshake AES (client_secret 10) (fun _ => Return (-1) (at_stage 2 [] t)))
  | false, 2, Some (LevelHandshake, _ :: peer) =>
      SetReadSecret LevelOneRTT AES (server_secret 20) (fun _ =>
      SetWriteSecret LevelOneRTT AES (client_secret 20) (fun _ =>
      AddHandshakeData LevelHandshake [20; 0; 0; 1; 7] (fun _ => Return 1 (at_stage 3 peer t))))
  | true, 0, Some (LevelInitial, _ :: peer) =>
      AddHandshakeData LevelInitial [2; 0; 0; 1; 5] (fun _ =>
      SetReadSecret LevelHandshake AES (client_secret 10) (fun _ =>
      SetWriteSecret LevelHandshake AES (server_secret 10) (fun _ =>
      AddHandshakeData LevelHandshake (8 :: tls_params t) (fun _ =>
      SetWriteSecret LevelOneRTT AES (server_secret 20) (fun _ => Return (-1) (at_stage 1 peer t))))))
  | true, 1, Some (LevelHandshake, _) =>
      SetReadSecret LevelOneRTT AES (client_secret 20) (fun _ => Return 1 (at_stage 3 (tls_peer_params t) t))
  | _, _, _ => Return (-1) t
  end.

#[global] Instance sample_tls : TlsBackend SampleTls := {|
  ssl_provide_quic_data level data t :=
    (1, mkSampleTls (tls_server t) (tls_stage t) (tls_params t) (tls_peer_params t) (Some (level, data)));
  ssl_do_handshake := sample_handshake;
  ssl_process_quic_post_handshake t := Return 1 t;
  ssl_get_error rc t := if rc =? 1 then 0 else 2;
  ssl_reset_early_data_reject t := t;
  ssl_in_init t := tls_stage t <? 3;
  ssl_in_early_data t := false;
  ssl_quic_write_level t := if tls_stage t =? 0 then LevelInitial else if tls_stage t <? 3 then LevelHandshake else LevelOneRTT;
  ssl_peer_quic_transport_params t := tls_peer_params t;
  ssl_set_quic_transport_params p t := (1, mkSampleTls (tls_server t) (tls_stage t) p (tls_peer_params t) (tls_input t));
  ssl_set_session _ t := (Some 1, t);
  ssl_clear t := (1, mkSampleTls (tls_server t) 0 (tls_params t) [] None);
|}.

(** ** Two endpoints *)

Definition sample_params : TransportParams.TransportParams :=
  TransportParams.mkTP None 30000 None 1400 100000 50000 50000 50000 10 10 3 25 false None 4 None None false false (Some 1200).

Definition sample_conf : Config :=
  mkConf sample_params 0 100000 50000 false 3 10
    (mkConfig false 1200 25000000 10 100000000 false 1000000 2 1000000000 10)
    (mkMultipath MinRtt Aggregate (of_int 1) 0 0 0).

Definition client_addr : SocketAddr := AddrV4 ([127; 0; 0; 1], 1000).
Definition server_addr : SocketAddr := AddrV4 ([127; 0; 0; 1], 443).
Definition client_cid : ConnectionId.ConnectionId := ConnectionId.new [1; 1; 1; 1; 1; 1; 1; 1].
Definition server_cid : ConnectionId.ConnectionId := ConnectionId.new [2; 2; 2; 2; 2; 2; 2; 2].
Definition first_dcid : ConnectionId.ConnectionId := ConnectionId.new [3; 3; 3; 3; 3; 3; 3; 3].

Lemma sample_client_ok :
  match new client_cid client_addr server_addr None sample_conf false (Ok (mkSampleTls false 0 [] [] None)) 0 first_dcid None 0
  with Ok _ => True | _ => False end.
Proof. by vm_compute. Qed.
Definition sample_client : @Connection Dummy.Dummy SampleTls :=
  get_ok (new client_cid client_addr server_addr None sample_conf false (Ok (mkSampleTls false 0 [] [] None)) 0 first_dcid None 0)
    sample_client_ok.
Lemma sample_client_new :
  new client_cid client_addr server_addr None sample_conf false (Ok (mkSampleTls false 0 [] [] None)) 0 first_dcid None 0
  = Ok sample_client.
Proof. unfold sample_client. apply get_ok_eq. Qed.

Lemma sample_server_ok :
  match new server_cid server_addr client_addr None sample_conf true (Ok (mkSampleTls true 0 [] [] None)) 0 first_dcid None 0
  with Ok _ => True | _ => False end.
Proof. by vm_compute. Qed.
Definition sample_server : @Connection Dummy.Dummy SampleTls :=
  get_ok (new server_cid server_addr client_addr None sample_conf true (Ok (mkSampleTls true 0 [] [] None)) 0 first_dcid None 0)
    sample_server_ok.
Lemma sample_server_new :
  new server_cid server_addr client_addr None sample_conf true (Ok (mkSampleTls true 0 [] [] None)) 0 first_dcid None 0
  = Ok sample_server.
Proof. unfold sample_server. apply get_ok_eq. Qed.

(** ** Exchanges *)

Definition conn2 : Type := (@Connection Dummy.Dummy SampleTls * @Connection Dummy.Dummy SampleTls).

Definition buffer : list Z := repeat 0 1200.

(** One datagram from one endpoint to the other: the sender's result, the receiver's
    result, and both endpoints afterwards. *)
Definition deliver (now : Instant) (from_client : bool) (x : conn2) : (res (list Z) * res Z) * conn2 :=
  let '(a, b) := if from_client then x else (x.2, x.1) in
  let '(r, a) := ConnSend.send now (repeat 7 8) buffer a in
  match r with
  | Ok (d, info) =>
      let '(r', b) := ConnRecv.recv 3 now d (mkInfo (src info) (dst info) now) b in
      ((Ok d, r'), if from_client then (a, b) else (b, a))
  | Err e => ((Err e, Ok 0), if from_client then (a, b) else (b, a))
  | Panic => ((Panic, Ok 0), if from_client then (a, b) else (b, a))
  end.

(** The datagram of the client's first flight. *)
Definition first_flight : list Z :=
  Eval vm_compute in match ConnSend.send 1000000 (repeat 7 8) buffer sample_client with (Ok (d, _), _) => d | _ => [] end.
Definition first_info : PacketInfo := mkInfo client_addr server_addr 1000000.

(** The handshake with the sample backends: four datagrams, after which both endpoints
    have confirmed it. *)
Definition exchange (l : list bool) (x : conn2) : conn2 :=
  (fold_left (fun '(now, x) b => (now + 1000000, (deliver now b x).2)) l (1000000, x)).2.

Definition handshake : conn2 := exchange [true; false; true; false] (sample_client, sample_server).

Lemma handshake_confirmed : is_confirmed handshake.1 && is_confirmed handshake.2 = true.
Proof. by vm_compute. Qed.
