(* ===== verification/ConnSteps.v ===== *)
(** * How a connection evolves

    The relation [evolves] holds between a connection and what any operation makes
    of it: the role does not change, most flags are never cleared, an error to
    report is kept, a connection that drains keeps draining until it is closed,
    and in every packet number space the next number never decreases and a
    number that was seen stays seen.  It is proved of every operation of
    [Connection], [ConnRecv], [ConnSend] and [ConnQuery] whatever the outcome. *)

From stdpp Require Import strings gmap.
From S2P Require Import Prelude.
From S2P Require Import Error.
From S2P Require Import Time.
From S2P Require Import Codec.
From S2P Require Import Btree.
From S2P Require Import Ranges.
From S2P Require Import Window.
From S2P Require Import FlowControl.
From S2P Require Import RecvBuf.
From S2P Require Import SendBuf.
From S2P Require Import Events.
From S2P Require Import Stream.
From S2P Require Import StreamMap.
From S2P Require Import ConnectionId.
From S2P Require Import Wire.
From S2P Require Import PacketNum.
From S2P Require Import Packet.
From S2P Require Import Protect.
From S2P Require Import Frame.
From S2P Require Import Cid.
From S2P Require Import Rtt.
From S2P Require Import Space.
From S2P Require Import Congestion.
From S2P Require Import Recovery.
From S2P Require Import TransParam.
From S2P Require Import Pmtu.
From S2P Require Import Path.
From S2P Require Import Timers.
From S2P Require Import Tls.
From S2P Require Import Scheduler.

From S2P Require Import Steps.
From S2P Require Import Connection.
From S2P Require Import ConnRecv.
From S2P Require Import ConnSend.
From S2P Require Import ConnQuery.

Import Connection.

(** ** Packet number spaces *)

(** The number is rejected as a duplicate. *)
Definition seen (x : PacketNumSpace.PacketNumSpace) (pn : Z) : Prop :=
  PacketNumSpace.detect_duplicated_pkt_num pn x = Ok true.

Definition space_ok (x : PacketNumSpace.PacketNumSpace) : Prop :=
  SeqNumWindow.lower (PacketNumSpace.recv_pkt_num_win x) < U64 /\ is_u64 (PacketNumSpace.next_pkt_num x).

Record space_le (x y : PacketNumSpace.PacketNumSpace) : Prop := {
  sl_id : PacketNumSpace.id y = PacketNumSpace.id x;
  sl_data : PacketNumSpace.is_data y = PacketNumSpace.is_data x;
  sl_next : PacketNumSpace.next_pkt_num x <= PacketNumSpace.next_pkt_num y;
  sl_ok : space_ok x -> space_ok y;
  sl_seen : space_ok x -> forall pn, seen x pn -> seen y pn;
}.

#[global] Instance space_le_preorder : PreOrder space_le.
Proof.
  split; [intros x; by split|]. intros x y z [A1 A2 A3 A4 A5] [B1 B2 B3 B4 B5].
  split; try congruence; [lia|auto|auto].
Qed.

(** What is not compared may change freely. *)
Lemma space_le_same x y :
  PacketNumSpace.id y = PacketNumSpace.id x -> PacketNumSpace.is_data y = PacketNumSpace.is_data x ->
  PacketNumSpace.next_pkt_num y = PacketNumSpace.next_pkt_num x ->
  PacketNumSpace.recv_pkt_num_win y = PacketNumSpace.recv_pkt_num_win x -> space_le x y.
Proof.
  intros E1 E2 E3 E4. split; [done|done|lia| |].
  - unfold space_ok. by rewrite E4, E3.
  - intros _ pn. unfold seen, PacketNumSpace.detect_duplicated_pkt_num. by rewrite E4.
Qed.

Definition spaces_ok (m : PacketNumSpaceMap.PacketNumSpaceMap) : Prop :=
  forall k x, PacketNumSpaceMap.spaces m !! k = Some x -> k < PacketNumSpaceMap.next_data_ext_id m /\ space_ok x.

Record spaces_le (m m' : PacketNumSpaceMap.PacketNumSpaceMap) : Prop := {
  ss_next : PacketNumSpaceMap.next_data_ext_id m <= PacketNumSpaceMap.next_data_ext_id m';
  ss_ok : spaces_ok m -> spaces_ok m';
  ss_old k x : k < PacketNumSpaceMap.next_data_ext_id m -> PacketNumSpaceMap.spaces m !! k = Some x ->
    exists y, PacketNumSpaceMap.spaces m' !! k = Some y /\ space_le x y;
}.

#[global] Instance spaces_le_preorder : PreOrder spaces_le.
Proof.
  split.
  - intros m. split; [done|done|]. intros k x _ Hk. exists x. split; [done|reflexivity].
  - intros m1 m2 m3 [A1 A2 A3] [B1 B2 B3]. split; [lia|auto|].
    intros k x Hk Hx. destruct (A3 k x Hk Hx) as (y & Hy & Hxy). destruct (B3 k y ltac:(lia) Hy) as (z & Hz & Hyz).
    exists z. split; [done|by etrans].
Qed.

(** Writing one entry. *)
Lemma spaces_le_insert m k x y :
  PacketNumSpaceMap.spaces m !! k = Some x -> space_le x y ->
  spaces_le m (PacketNumSpaceMap.mkSpaces (<[k := y]> (PacketNumSpaceMap.spaces m)) (PacketNumSpaceMap.next_data_ext_id m)).
Proof.
  intros Hk Hxy. split; cbn; [done| |].
  - intros Hok j z Hj. cbn in Hj. destruct (decide (k = j)) as [->|Hne].
    + rewrite lookup_insert_eq in Hj. injection Hj as <-. destruct (Hok _ _ Hk). split; [done|by apply (sl_ok _ _ Hxy)].
    + rewrite lookup_insert_ne in Hj by done. by apply Hok.
  - intros j z Hj Hz. destruct (decide (k = j)) as [->|Hne].
    + rewrite lookup_insert_eq. exists y. split; [done|]. rewrite Hk in Hz. by simplify_eq.
    + rewrite lookup_insert_ne by done. exists z. split; [done|reflexivity].
Qed.

Lemma spaces_le_set m s x y :
  PacketNumSpaceMap.get s m = Some x -> space_le x y -> spaces_le m (PacketNumSpaceMap.set s y m).
Proof. apply spaces_le_insert. Qed.

Lemma spaces_le_fmap m f : (forall x, space_le x (f x)) ->
  spaces_le m (PacketNumSpaceMap.mkSpaces (f <$> PacketNumSpaceMap.spaces m) (PacketNumSpaceMap.next_data_ext_id m)).
Proof.
  intros Hf. split; cbn; [done| |].
  - intros Hok k x Hk. cbn in Hk. apply lookup_fmap_Some in Hk as (y & <- & Hy). destruct (Hok _ _ Hy).
    split; [done|by apply (sl_ok _ _ (Hf y))].
  - intros k x _ Hx. exists (f x). by rewrite lookup_fmap, Hx.
Qed.

Lemma spaces_le_add m now : spaces_le m (PacketNumSpaceMap.add now m).2.
Proof.
  unfold PacketNumSpaceMap.add. split; cbn; [lia| |].
  - intros Hok k x Hk. cbn in *. destruct (decide (PacketNumSpaceMap.next_data_ext_id m = k)) as [<-|Hne].
    + rewrite lookup_insert_eq in Hk. injection Hk as <-. split; [lia|done].
    + rewrite lookup_insert_ne in Hk by done. destruct (Hok _ _ Hk). split; [lia|done].
  - intros k x Hk Hx. exists x. rewrite lookup_insert_ne by lia. split; [done|reflexivity].
Qed.

(** ** Recovery and schedulers *)

Ltac same_space := apply space_le_same; reflexivity.

Section Parts.
Context {C : Type} `{CongestionController C}.

Lemma leave_space_le p x : space_le x (Recovery.leave_space p x).
Proof. unfold Recovery.leave_space. repeat case_match; try reflexivity; same_space. Qed.

Lemma ack_packet_le now p (st : @Recovery.AckScan C) : space_le (Recovery.sc_space st) (Recovery.sc_space (Recovery.ack_packet now p st).2).
Proof.
  unfold Recovery.ack_packet. cbv zeta. set (s1 := Recovery.leave_space _ _).
  trans s1; [apply leave_space_le|]. repeat case_match; simplify_eq; cbn; same_space.
Qed.

Lemma scan_range_le now rg ahead : forall st : @Recovery.AckScan C, space_le (Recovery.sc_space st) (Recovery.sc_space (Recovery.scan_range now rg ahead st).2).
Proof.
  induction ahead as [|p ahead IH]; intros st; cbn; [reflexivity|].
  destruct (_ || _).
  - specialize (IH st). by destruct (Recovery.scan_range now rg ahead st) as [[? ?] ?].
  - destruct (_ <=? _); [reflexivity|]. pose proof (ack_packet_le now p st) as Hp.
    destruct (Recovery.ack_packet now p st) as [q st1]. specialize (IH st1).
    destruct (Recovery.scan_range now rg ahead st1) as [[? ?] ?]. cbn in *. by etrans.
Qed.

Lemma scan_ranges_le now rgs : forall ahead (st : @Recovery.AckScan C), space_le (Recovery.sc_space st) (Recovery.sc_space (Recovery.scan_ranges now rgs ahead st).2).
Proof.
  induction rgs as [|rg rgs IH]; intros ahead st; cbn; [reflexivity|].
  pose proof (scan_range_le now rg ahead st) as H1. destruct (Recovery.scan_range now rg ahead st) as [[d a] st1].
  specialize (IH a st1). destruct (Recovery.scan_ranges now rgs a st1). cbn in *. by etrans.
Qed.

Lemma detect_acked_le ranges now r x : space_le x (Recovery.detect_acked_packets ranges now r x).2.
Proof.
  unfold Recovery.detect_acked_packets. pose proof (scan_ranges_le now (RangeSet.iter ranges) (PacketNumSpace.sent x)
    (Recovery.mkScan r x 0 now false [])) as H1.
  destruct (Recovery.scan_ranges _ _ _ _) as [sent st]. cbn in *. etrans; [done|same_space].
Qed.

Lemma scan_lost_le now d largest sent : forall st : @Recovery.LossScan C,
  space_le (Recovery.ls_space st) (Recovery.ls_space (Recovery.scan_lost now d largest sent st).2).
Proof.
  induction sent as [|p sent IH]; intros st; cbn; [reflexivity|].
  destruct (_ <? _); [reflexivity|]. destruct (_ || _).
  - specialize (IH st). by destruct (Recovery.scan_lost now d largest sent st).
  - destruct (_ || _).
    + destruct (Recovery.lose_packet now p st) as [q st1] eqn:E. specialize (IH st1).
      destruct (Recovery.scan_lost now d largest sent st1). cbn in *.
      trans (Recovery.ls_space st1); [|done]. unfold Recovery.lose_packet in E. simplify_eq. cbn.
      etrans; [|apply leave_space_le]. same_space.
    + specialize (IH (Recovery.keep_packet d p st)).
      destruct (Recovery.scan_lost now d largest sent (Recovery.keep_packet d p st)). cbn in *.
      etrans; [|done]. same_space.
Qed.

Lemma detect_lost_le now r x a b r' y : Recovery.detect_lost_packets now r x = Ok (a, b, r', y) -> space_le x y.
Proof.
  unfold Recovery.detect_lost_packets. destruct (Recovery.loss_delay r) as [d| |]; cbn; try done.
  set (st := Recovery.mkLoss _ _ _ _ _). pose proof (scan_lost_le now d (PacketNumSpace.largest_acked_pkt x) (PacketNumSpace.sent x) st) as H1.
  destruct (Recovery.scan_lost now d (PacketNumSpace.largest_acked_pkt x) (PacketNumSpace.sent x) st) as [sent st'] eqn:E.
  cbn in *. intros [= <- <- <- <-]. trans (PacketNumSpace.with_loss_time None x); [same_space|].
  etrans; [done|same_space].
Qed.

(** A part of recovery works on the spaces as any operation does. *)
Definition rec_steps {A} (f : cursor Error (@Recovery.Recovery C * PacketNumSpaceMap.PacketNumSpaceMap) A) : Prop :=
  forall r m a r' m', f (r, m) = Ok (a, (r', m')) -> spaces_le m m'.

Lemma arm_spaces sid h now (r : @Recovery.Recovery C) m a r' m' : Recovery.arm sid h now (r, m) = Ok (a, (r', m')) -> m' = m.
Proof. unfold Recovery.arm. destruct (Recovery.set_loss_detection_timer sid h now m r); cbn; try done. by intros [= <- <- <-]. Qed.

Ltac run_arm :=
  match goal with
  | |- context [@Recovery.arm ?C ?a ?b ?c ?d] =>
      destruct (@Recovery.arm C a b c d) as [[? [? ?]]| |] eqn:Ea; cbn; try done; apply arm_spaces in Ea as ->
  end.

Lemma on_packet_sent_steps p sid h now : rec_steps (Recovery.on_packet_sent p sid h now).
Proof.
  intros r m a r' m'. unfold Recovery.on_packet_sent.
  destruct (PacketNumSpaceMap.get sid m) as [x|] eqn:Ex; [|by intros [= <- <- <-]].
  destruct (if in_flight _ && _ then _ else _) as [q r1].
  destruct (in_flight _).
  - run_arm.
    intros [= <- <- <-]. eapply spaces_le_set; [done|]. destruct (ack_eliciting _); same_space.
  - cbn. intros [= <- <- <-]. eapply spaces_le_set; [done|same_space].
Qed.

Lemma on_ack_received_steps ranges d sid h now : rec_steps (Recovery.on_ack_received ranges d sid h now).
Proof.
  intros r m a r' m'. unfold Recovery.on_ack_received.
  destruct (PacketNumSpaceMap.get sid m) as [x|] eqn:Ex; cbn -[Recovery.arm]; [|done].
  destruct (RangeSet.max ranges) as [o| |]; cbn -[Recovery.arm]; try done. destruct o as [largest|]; cbn -[Recovery.arm]; [|done].
  set (x1 := PacketNumSpace.with_largest_acked_pkt _ x).
  set (r1 := if is_data_space sid then _ else _).
  pose proof (detect_acked_le ranges now r1 x1) as H1.
  destruct (Recovery.detect_acked_packets ranges now r1 x1) as [[[sample newly] r2] x2]. cbn in H1.
  assert (space_le x x2) as H2 by (etrans; [|done]; same_space).
  destruct newly as [|n newly].
  { intros [= <- <- <-]. by eapply spaces_le_set. }
  destruct (match sample with Some _ => _ | None => _ end) as [r3| |]; cbn -[Recovery.arm]; try done.
  destruct (Recovery.detect_lost_packets now r3 x2) as [[[[lp lb] r4] x3]| |] eqn:El; cbn -[Recovery.arm]; try done.
  apply detect_lost_le in El.
  run_arm.
  intros [= <- <- <-]. eapply spaces_le_set; [done|]. etrans; [done|]. etrans; [done|same_space].
Qed.

Lemma on_loss_detection_timeout_steps sid h now : rec_steps (Recovery.on_loss_detection_timeout sid h now).
Proof.
  intros r m a r' m'. unfold Recovery.on_loss_detection_timeout.
  destruct (Recovery.get_loss_time_and_space sid m) as [t s1].
  destruct (PacketNumSpaceMap.get s1 m) as [x|] eqn:Ex; [|by intros [= <- <- <-]]. destruct t.
  - destruct (Recovery.detect_lost_packets now r x) as [[[[lp lb] r4] x3]| |] eqn:El; cbn -[Recovery.arm]; try done.
    apply detect_lost_le in El.
    run_arm.
    intros [= <- <- <-]. eapply spaces_le_set; [done|]. etrans; [done|same_space].
  - destruct (if _ <? _ then _ else _) as [s2| |]; cbn -[Recovery.arm]; try done.
    destruct (PacketNumSpaceMap.get s2 m) as [y|] eqn:Ey; [|by intros [= <- <- <-]]; cbn -[Recovery.arm].
    run_arm.
    intros [= <- <- <-]. eapply spaces_le_set; [done|same_space].
Qed.

Lemma on_pkt_num_space_discarded_steps sid h now : rec_steps (Recovery.on_pkt_num_space_discarded sid h now).
Proof.
  intros r m a r' m'. unfold Recovery.on_pkt_num_space_discarded.
  destruct (PacketNumSpaceMap.get sid m) as [x|] eqn:Ex; [|by intros [= <- <- <-]].
  intros Ea%arm_spaces. subst m'. eapply spaces_le_set; [done|same_space].
Qed.

Lemma reinject_all_le pid fs (l : list (Z * @Path.Path C)) : forall m, spaces_le m (reinject_all pid fs l m).
Proof.
  induction l as [|[q p] l IH]; intros m; cbn; [reflexivity|]. destruct (_ || _); [done|].
  destruct (PacketNumSpaceMap.get (Path.space_id p) m) eqn:E; [|reflexivity].
  etrans; [|apply IH]. eapply spaces_le_set; [done|same_space].
Qed.

Lemma on_sent_le pkt pid s v : spaces_le (v_spaces v) (v_spaces (on_sent (C := C) pkt pid s v).2).
Proof.
  destruct s; cbn; try reflexivity. unfold redundant_on_sent. destruct (has_buffered _); [reflexivity|]. apply reinject_all_le.
Qed.

Lemma on_select_spaces now s v : v_spaces (on_select (C := C) now (s, v)).2.2 = v_spaces v.
Proof. unfold on_select. destruct (select _ _ _) as [[[[?|] ?] ?]| |]; reflexivity. Qed.

End Parts.

(** ** Connections *)

Section Evolves.
Context {C : Type} `{CongestionController C} `{Platform C} {T : Type} `{TlsBackend T} `{CryptoBackend}.

Abbreviation Connection := (@Connection C T).
Abbreviation conn := (action Error Connection).

(** The flags that are never cleared. *)
Definition sticky (f : ConnectionFlags) : bool :=
  match f with
  | GotPeerCid | NeedSendNewToken | NeedSendHandshakeDone | Tickable | Sendable => false
  | _ => true
  end.

Record evolves (c c' : Connection) : Prop := {
  ev_server : is_server c' = is_server c;
  ev_flags f : sticky f = true -> contains f c = true -> contains f c' = true;
  ev_spaces : spaces_le (spaces c) (spaces c');
  ev_error e : local_error c = Some e -> local_error c' = Some e;
  ev_timers : TimerTable.wf (timers c) -> TimerTable.wf (timers c');
  ev_draining : is_draining c = true -> is_draining c' = true \/ is_closed c' = true;
}.

#[global] Instance evolves_preorder : PreOrder evolves.
Proof.
  split.
  - intros c. split; auto. reflexivity.
  - intros c1 c2 c3 [A1 A2 A3 A4 A6 A5] [B1 B2 B3 B4 B6 B5]. split; auto; [congruence|by etrans|].
    intros Hd. destruct (A5 Hd) as [Hd'|Hc]; [auto|]. right. by apply B2.
Qed.

(** What is not compared may change freely, and the spaces as they may. *)
Lemma evolves_spaces c c' :
  is_server c' = is_server c -> flags c' = flags c -> local_error c' = local_error c -> timers c' = timers c ->
  spaces_le (spaces c) (spaces c') -> evolves c c'.
Proof.
  intros E1 E2 E3 E4 E5. split; [done| |done|by rewrite E3|by rewrite E4|].
  - intros f _. unfold contains. by rewrite E2.
  - unfold is_draining. rewrite E4. auto.
Qed.
Lemma evolves_same c c' :
  is_server c' = is_server c -> flags c' = flags c -> local_error c' = local_error c -> timers c' = timers c ->
  spaces c' = spaces c -> evolves c c'.
Proof. intros E1 E2 E3 E4 E5. apply evolves_spaces; try done. by rewrite E5. Qed.

Lemma evolves_flags c x :
  (forall g, sticky g = true -> flag_in g (flags c) = true -> flag_in g x = true) -> evolves c (with_flags x c).
Proof. intros Hx. split; [done|exact Hx|reflexivity|done|done|by left]. Qed.

Lemma evolves_timers c t :
  (TimerTable.wf (timers c) -> TimerTable.wf t) ->
  (is_Some (TimerTable.get Draining (timers c)) -> is_Some (TimerTable.get Draining t)) -> evolves c (with_timers t c).
Proof.
  intros Hw Ht. split; [done|done|reflexivity|done|done|]. intros Hd. left. unfold is_draining in *.
  apply bool_decide_eq_true in Hd. by apply bool_decide_eq_true, Ht.
Qed.

(** An update of a field that is not compared. *)
#[local] Hint Extern 1 (evolves _ _) => (apply evolves_same; reflexivity) : steps.
#[local] Hint Extern 3 (steps evolves (modify _)) => (apply steps_modify; intros) : steps.

(** *** Small operations *)

Lemma contains_insert f (c : Connection) : contains f (insert_flag f c).2 = true.
Proof. change (flag_in f (flag_insert f (flags c)) = true). by rewrite flag_in_insert, bool_decide_eq_true_2. Qed.

Lemma insert_flag_steps f : steps evolves (insert_flag f : conn unit).
Proof. apply steps_modify. intros c. apply evolves_flags. intros g _ Hg. rewrite flag_in_insert, Hg. apply orb_true_r. Qed.
Lemma remove_flag_steps f : sticky f = false -> steps evolves (remove_flag f : conn unit).
Proof.
  intros Hf. apply steps_modify. intros c. apply evolves_flags. intros g Hs Hg. rewrite flag_in_remove, Hg.
  rewrite bool_decide_false; [done|]. intros ->. congruence.
Qed.
Lemma set_timer_steps t at_ : steps evolves (set_timer t at_ : conn unit).
Proof.
  apply steps_modify. intros c. apply evolves_timers; [apply TimerTable.set_wf|apply TimerTable.set_is_Some].
Qed.
Lemma stop_timer_steps t : t <> Draining -> steps evolves (stop_timer t : conn unit).
Proof.
  intros Ht. apply steps_modify. intros c. apply evolves_timers; [apply TimerTable.stop_wf|].
  by rewrite TimerTable.get_stop_ne by done.
Qed.
Lemma add_event_steps e : steps evolves (add_event e : conn unit).
Proof. unfold add_event. steps. Qed.
Lemma get_path_steps pid : steps evolves (get_path pid : conn _).
Proof. intros c. reflexivity. Qed.
Lemma update_path_steps pid f : steps evolves (update_path pid f : conn unit).
Proof. unfold update_path. steps. Qed.
Lemma get_active_path_id_steps : steps evolves (get_active_path_id : conn Z).
Proof. intros c. reflexivity. Qed.
Lemma get_active_steps : steps evolves (get_active : conn _).
Proof. intros c. reflexivity. Qed.
Lemma get_space_steps s : steps evolves (get_space s : conn _).
Proof. intros c. reflexivity. Qed.
Lemma on_cids_steps {A} (m : action Error _ A) : steps evolves (on_cids m : conn A).
Proof. apply (steps_zoom _ (fun _ _ => True)); [|done]. intros. by apply evolves_same. Qed.
Lemma on_streams_steps {A} (m : action Error _ A) : steps evolves (on_streams m : conn A).
Proof. apply (steps_zoom _ (fun _ _ => True)); [|done]. intros. by apply evolves_same. Qed.
Lemma on_session_steps {A} (m : action Error _ A) : steps evolves (on_session m : conn A).
Proof. apply (steps_zoom _ (fun _ _ => True)); [|done]. intros. by apply evolves_same. Qed.
Lemma on_tls_steps {A} (m : action Error _ A) : steps evolves (on_tls m : conn A).
Proof. apply (steps_zoom _ (fun _ _ => True)); [|done]. intros. by apply evolves_same. Qed.
Lemma run_streams_steps f : steps evolves (run_streams f : conn unit).
Proof. intros c. unfold run_streams. destruct (f _); cbn; by apply evolves_same. Qed.
Lemma on_crypto_send_steps level f : steps evolves (on_crypto_send level f : conn unit).
Proof. intros c. unfold on_crypto_send. destruct (CryptoStreams.get_mut _ _); [destruct (f _)|..]; cbn; by apply evolves_same. Qed.
Lemma ignore_steps {A} (m : conn A) : steps evolves m -> steps evolves (ignore m).
Proof. intros Hm c. unfold ignore. specialize (Hm c). by destruct (m c) as [[] ?]. Qed.
Lemma on_recovery_steps {A} pid (f : cursor Error _ A) : rec_steps f -> steps evolves (on_recovery pid f : conn A).
Proof.
  intros Hf c. unfold on_recovery. destruct (PathMap.get pid (paths c)) as [p| |]; try reflexivity.
  destruct (f _) as [[a [r m]]| |] eqn:E; try reflexivity. cbn. by apply evolves_spaces; [..|eapply Hf].
Qed.

(** An entry of the spaces that grows. *)
Lemma set_space_evolves s x y (c : Connection) : PacketNumSpaceMap.get s (spaces c) = Some x -> space_le x y ->
  evolves c (with_spaces (PacketNumSpaceMap.set s y (spaces c)) c).
Proof. intros Hx Hxy. apply evolves_spaces; try done. by eapply spaces_le_set. Qed.

Lemma steps_bind_get_space {A} s (k : _ -> conn A) :
  (forall c x, PacketNumSpaceMap.get s (spaces c) = Some x -> evolves c (k x c).2) -> steps evolves (get_space s ≫= k).
Proof.
  intros Hk c. unfold mbind, action_bind, get_space. destruct (PacketNumSpaceMap.get s (spaces c)) eqn:E; cbn; [by apply Hk|reflexivity].
Qed.

Lemma put_space_evolves k x y (c : Connection) : PacketNumSpaceMap.spaces (spaces c) !! k = Some x -> space_le x y ->
  evolves c (put_space k y c).2.
Proof. intros Hx Hxy. apply evolves_spaces; try done. by eapply spaces_le_insert. Qed.

#[local] Hint Resolve insert_flag_steps set_timer_steps add_event_steps get_path_steps update_path_steps
  get_active_path_id_steps get_active_steps get_space_steps on_cids_steps on_streams_steps on_session_steps on_tls_steps
  run_streams_steps on_crypto_send_steps ignore_steps on_recovery_steps on_packet_sent_steps on_ack_received_steps
  on_loss_detection_timeout_steps on_pkt_num_space_discarded_steps : steps.
#[local] Hint Extern 2 (steps evolves (remove_flag _)) => (apply remove_flag_steps; reflexivity) : steps.
#[local] Hint Extern 2 (steps evolves (stop_timer _)) => (apply stop_timer_steps; discriminate) : steps.

(** *** Operations of [Connection] *)

Lemma restart_idle_timer_steps now : steps evolves (restart_idle_timer now : conn unit).
Proof. unfold restart_idle_timer. steps. Qed.
Lemma mark_tickable_steps b : steps evolves (mark_tickable b : conn unit).
Proof.
  intros c. unfold mark_tickable. destruct (eqb b _); [reflexivity|]. destruct (index c); [|reflexivity].
  destruct (queues c) as [q|]; [|reflexivity]. destruct b; cbn.
  - trans (with_queues (Some (mkQueues ({[z]} ∪ tickable q) (sendable_conns q))) c); [by apply evolves_same|].
    exact (insert_flag_steps Tickable _).
  - trans (with_queues (Some (mkQueues (tickable q ∖ {[z]}) (sendable_conns q))) c); [by apply evolves_same|].
    exact (remove_flag_steps Tickable eq_refl _).
Qed.

Lemma mark_sendable_steps b : steps evolves (mark_sendable b : conn unit).
Proof.
  intros c. unfold mark_sendable. destruct (eqb b _); [reflexivity|]. destruct (index c); [|reflexivity].
  destruct (queues c) as [q|]; [|reflexivity]. destruct b; cbn.
  - trans (with_queues (Some (mkQueues (tickable q) ({[z]} ∪ sendable_conns q))) c); [by apply evolves_same|].
    exact (insert_flag_steps Sendable _).
  - trans (with_queues (Some (mkQueues (tickable q) (sendable_conns q ∖ {[z]}))) c); [by apply evolves_same|].
    exact (remove_flag_steps Sendable eq_refl _).
Qed.
#[local] Hint Resolve restart_idle_timer_steps mark_tickable_steps mark_sendable_steps : steps.

(** Only the first error is kept. *)
Lemma close_steps app err reason : steps evolves (close app err reason : conn unit).
Proof.
  apply steps_bind_get. intros c. destruct (_ || _); [reflexivity|].
  destruct (bool_decide (is_Some (local_error c))) eqn:E; [reflexivity|]. apply bool_decide_eq_false in E.
  unfold mbind, action_bind. cbn -[mark_tickable].
  etrans; [|apply mark_tickable_steps]. split; [done|done|reflexivity| |done|by left].
  intros e He. destruct E. by eexists.
Qed.

Lemma reset_steps now : steps evolves (reset now : conn unit).
Proof. unfold reset. steps. Qed.

Lemma drop_space_state_steps s now : steps evolves (drop_space_state s now : conn unit).
Proof. unfold drop_space_state. steps. Qed.

Lemma set_initial_dcid_steps d t pid : steps evolves (set_initial_dcid d t pid : conn unit).
Proof. unfold set_initial_dcid. steps. Qed.

Lemma set_transport_params_steps : steps evolves (set_transport_params : conn unit).
Proof. unfold set_transport_params. steps. Qed.
#[local] Hint Resolve close_steps reset_steps drop_space_state_steps set_initial_dcid_steps set_transport_params_steps : steps.

Lemma try_set_dcid_steps pid hdr : steps evolves (try_set_dcid_for_initial_path pid hdr : conn unit).
Proof. unfold try_set_dcid_for_initial_path. steps. Qed.

Lemma add_space_steps now : steps evolves (add_space now : conn SpaceId).
Proof.
  intros c. unfold add_space. pose proof (spaces_le_add (spaces c) now) as Hle.
  destruct (PacketNumSpaceMap.add now (spaces c)). cbn in *. by apply evolves_spaces.
Qed.
#[local] Hint Resolve add_space_steps : steps.

Lemma get_or_create_path_steps o d info n now : steps evolves (get_or_create_path o d info n now : conn Z).
Proof. unfold get_or_create_path. steps. Qed.

Lemma try_schedule_control_frames_steps : steps evolves (try_schedule_control_frames : conn unit).
Proof. unfold try_schedule_control_frames. steps. Qed.

Lemma try_buffer_steps hdr pkt info : steps evolves (try_buffer_undecryptable_packets hdr pkt info : conn unit).
Proof. apply steps_modify. intros c. destruct (_ || _); [reflexivity|by apply evolves_same]. Qed.

Lemma try_schedule_ack_frame_steps s pn b now : steps evolves (try_schedule_ack_frame s pn b now : conn unit).
Proof.
  unfold try_schedule_ack_frame. destruct (negb b); [steps|]. apply steps_bind_get_space. intros c x Hx.
  destruct (PacketNumSpace.need_send_ack x); [reflexivity|].
  destruct (negb (is_data_space _)); [eapply set_space_evolves; [done|same_space]|].
  cbv beta delta [mbind action_bind get lift mret action_ret] iota zeta.
  destruct (_ <=? _); [eapply set_space_evolves; [done|same_space]|].
  destruct (add64 _ _); [|reflexivity|reflexivity].
  destruct (_ || _); [eapply set_space_evolves; [done|same_space]|].
  destruct (PacketNumSpace.ack_timer _); eapply set_space_evolves; (done || same_space).
Qed.

Lemma process_acked_frame_steps k f : steps evolves (process_acked_frame k f : conn unit).
Proof.
  destruct f; try (cbn [process_acked_frame]; steps; fail).
  cbn [process_acked_frame]. apply steps_bind; [typeclasses eauto|steps|]. intros [l|]; [|steps].
  apply steps_bind_get. intros c. destruct (PacketNumSpaceMap.spaces (spaces c) !! k) as [x|] eqn:E; [|reflexivity].
  unfold mbind, action_bind, lift. destruct (RangeSet.remove_until _ _); [|reflexivity|reflexivity].
  eapply put_space_evolves; [done|same_space].
Qed.

Lemma drain_spaces_steps get_list clear handle :
  (forall x, space_le x (clear x)) -> (forall k f, steps evolves (handle k f : conn unit)) ->
  steps evolves (drain_spaces get_list clear handle : conn unit).
Proof.
  intros Hc Hh. unfold drain_spaces. apply steps_bind; [typeclasses eauto|steps|]. intros c0.
  apply steps_for_each; [typeclasses eauto|]. intros e. apply steps_bind_get. intros c.
  destruct (PacketNumSpaceMap.spaces (spaces c) !! e.1) as [x|] eqn:E; [|reflexivity].
  assert (steps evolves (for_each (handle e.1) (get_list x))) as Hs.
  { apply steps_for_each; [typeclasses eauto|]. intros f. apply Hh. }
  exact (transitivity (put_space_evolves e.1 x (clear x) c E (Hc x)) (Hs _)).
Qed.

Lemma try_process_acked_frames_steps : steps evolves (try_process_acked_frames : conn unit).
Proof. apply drain_spaces_steps; [intros x; same_space|apply process_acked_frame_steps]. Qed.

Lemma allocate_cids_steps pids : steps evolves (allocate_cids pids : conn unit).
Proof. induction pids; cbn; steps. Qed.

Lemma try_allocate_cids_steps : steps evolves (try_allocate_cids_from_peer : conn unit).
Proof. unfold try_allocate_cids_from_peer. steps. apply allocate_cids_steps. Qed.
#[local] Hint Resolve try_set_dcid_steps get_or_create_path_steps try_schedule_control_frames_steps try_buffer_steps
  try_schedule_ack_frame_steps try_process_acked_frames_steps try_allocate_cids_steps : steps.

(** *** Receiving *)

Lemma attempt_steps {A} (m : conn A) : steps evolves m -> steps evolves (ConnRecv.attempt m).
Proof. intros Hm c. unfold ConnRecv.attempt. specialize (Hm c). by destruct (m c) as [[] ?]. Qed.
#[local] Hint Resolve attempt_steps : steps.

Lemma set_peer_trans_params_steps p : steps evolves (ConnRecv.set_peer_trans_params p : conn unit).
Proof. unfold ConnRecv.set_peer_trans_params. steps. Qed.
#[local] Hint Resolve set_peer_trans_params_steps : steps.

Lemma process_peer_trans_params_steps p : steps evolves (ConnRecv.process_peer_trans_params p : conn unit).
Proof. unfold ConnRecv.process_peer_trans_params. steps. Qed.
#[local] Hint Resolve process_peer_trans_params_steps : steps.

Lemma try_apply_peer_params_steps : steps evolves (ConnRecv.try_apply_peer_params : conn unit).
Proof. unfold ConnRecv.try_apply_peer_params. steps. Qed.

Lemma process_version_negotiation_steps hdr payload now :
  steps evolves (ConnRecv.process_version_negotiation hdr payload now : conn Z).
Proof. unfold ConnRecv.process_version_negotiation. steps. Qed.

Lemma process_retry_steps hdr buf now : steps evolves (ConnRecv.process_retry hdr buf now : conn Z).
Proof. unfold ConnRecv.process_retry. steps. Qed.
#[local] Hint Resolve try_apply_peer_params_steps process_version_negotiation_steps process_retry_steps : steps.

Section Nested.
Context (undec : conn unit) (clock : Instant).
Hypothesis undec_steps : steps evolves undec.
#[local] Hint Resolve undec_steps : steps.

Lemma promote_to_multipath_steps : steps evolves (ConnRecv.promote_to_multipath : conn unit).
Proof. unfold ConnRecv.promote_to_multipath. steps. Qed.
#[local] Hint Resolve promote_to_multipath_steps : steps.

Lemma process_tls_session_steps r : steps evolves (ConnRecv.process_tls_session undec clock r).
Proof. unfold ConnRecv.process_tls_session. steps. Qed.
#[local] Hint Resolve process_tls_session_steps : steps.

Lemma recv_ack_steps d ranges pid s now : steps evolves (ConnRecv.recv_ack d ranges pid s now : conn unit).
Proof. unfold ConnRecv.recv_ack. steps. Qed.

Lemma feed_tls_steps fuel level : steps evolves (ConnRecv.feed_tls undec clock fuel level).
Proof. induction fuel; cbn [ConnRecv.feed_tls]; steps. Qed.
#[local] Hint Resolve feed_tls_steps recv_ack_steps : steps.

Lemma recv_crypto_steps off data s : steps evolves (ConnRecv.recv_crypto undec clock off data s).
Proof. unfold ConnRecv.recv_crypto. steps. Qed.

Lemma reassign_dcid_steps e : steps evolves (ConnRecv.reassign_dcid e : conn unit).
Proof. unfold ConnRecv.reassign_dcid. steps. Qed.
#[local] Hint Resolve recv_crypto_steps reassign_dcid_steps : steps.

Lemma recv_frame_steps f hdr pid s now : steps evolves (ConnRecv.recv_frame undec clock f hdr pid s now).
Proof.
  destruct f; cbn [ConnRecv.recv_frame]; unfold ConnRecv.recv_new_connection_id, ConnRecv.recv_retire_connection_id,
    ConnRecv.recv_close, ConnRecv.recv_path_response, ConnRecv.recv_datagram_frame; steps.
Qed.
#[local] Hint Resolve recv_frame_steps : steps.

Lemma recv_frames_steps fuel : forall payload hdr pid s now a p,
  steps evolves (ConnRecv.recv_frames undec clock fuel payload hdr pid s now a p).
Proof. induction fuel; intros [|b payload] *; cbn [ConnRecv.recv_frames]; steps. Qed.
#[local] Hint Resolve recv_frames_steps : steps.

Lemma check_version_steps hdr : steps evolves (ConnRecv.check_version hdr : conn unit).
Proof. unfold ConnRecv.check_version. steps. Qed.
#[local] Hint Resolve check_version_steps : steps.

Lemma update_key_le s x : space_le x (TlsSession.update_key (T := T) (s, x)).2.2.
Proof. unfold TlsSession.update_key. destruct (TlsSession.ensure_next_key s) as [[] ?]; cbn; same_space. Qed.

Lemma try_update_key_le b hdr now o s x t : space_le x (TlsSession.try_update_key (T := T) b hdr now o (s, x, t)).2.1.2.
Proof.
  unfold TlsSession.try_update_key. pose proof (update_key_le s x) as Hx.
  destruct b; [destruct (TlsSession.update_key (s, x)) as [r [s1 y]]; cbn in Hx|].
  all: repeat case_match; simplify_eq; cbn; try (etrans; [done|same_space]); try done; same_space.
Qed.

Lemma try_update_key_timers b hdr now o s x t :
  let t' := (TlsSession.try_update_key (T := T) b hdr now o (s, x, t)).2.2 in
  t' = t \/ exists e, t' = TimerTable.set KeyDiscard e t.
Proof.
  unfold TlsSession.try_update_key. destruct b; [destruct (TlsSession.update_key (s, x)) as [r [s1 y]]|].
  all: repeat case_match; simplify_eq; cbn; eauto.
Qed.

Lemma on_key_update_steps s b hdr now o :
  steps evolves (ConnRecv.on_key_update s (TlsSession.try_update_key b hdr now o) : conn bool).
Proof.
  intros c. unfold ConnRecv.on_key_update. destruct (PacketNumSpaceMap.get s (spaces c)) as [x|] eqn:Ex; [|reflexivity].
  pose proof (try_update_key_le b hdr now o (tls_session c) x (timers c)) as Hle.
  pose proof (try_update_key_timers b hdr now o (tls_session c) x (timers c)) as Ht.
  destruct (TlsSession.try_update_key _ _ _ _ _) as [r [[ss y] t]] eqn:E. cbn in *.
  set (c1 := with_spaces _ _). trans c1; [by apply evolves_spaces; [..|by eapply spaces_le_set]|].
  apply evolves_timers; destruct Ht as [->|[e ->]]; try done; [apply TimerTable.set_wf|apply TimerTable.set_is_Some].
Qed.
#[local] Hint Resolve on_key_update_steps : steps.

Lemma reset_other_spaces_le s m : spaces_le m (ConnRecv.reset_other_spaces s m).
Proof. apply spaces_le_fmap. intros x. destruct (_ && _); [same_space|reflexivity]. Qed.

Lemma open_packet_steps buf hdr pid key off n : steps evolves (ConnRecv.open_packet clock buf hdr pid key off n : conn _).
Proof.
  unfold ConnRecv.open_packet. steps. apply steps_modify. intros c1. apply evolves_spaces; try done. apply reset_other_spaces_le.
Qed.

(** A processed packet is seen from then on. *)
Lemma record_packet_le s pn a p at_ (c : Connection) x : PacketNumSpaceMap.get s (spaces c) = Some x ->
  match ConnRecv.record_packet s pn a p at_ c with
  | (Ok _, c') => exists y, c' = with_spaces (PacketNumSpaceMap.set s y (spaces c)) c /\ space_le x y /\ (space_ok x -> seen y pn)
  | (_, c') => c' = c
  end.
Proof.
  intros Hx. unfold ConnRecv.record_packet, get_space, mbind, action_bind, lift. rewrite Hx. cbn [ok_or].
  destruct (RangeSet.max _) as [m| |]; try done. 
  set (x1 := if match m with Some m => m <? pn | None => true end then PacketNumSpace.with_largest_rx_pkt_time at_ x else x).
  assert (space_le x x1 /\ PacketNumSpace.recv_pkt_num_win x1 = PacketNumSpace.recv_pkt_num_win x) as [Hx1 E1].
  { unfold x1. destruct (match m with Some m => m <? pn | None => true end); split; done || same_space. }
  rewrite E1. destruct (SeqNumWindow.insert _ pn) as [w| |] eqn:Ew; try done.
  destruct (RangeSet.add_elem _ pn) as [need| |]; try done.
  unfold set_space, modify. eexists. split; [done|].
  assert (space_ok x -> space_ok (PacketNumSpace.with_recv_pkt_num_win w x1) /\ seen (PacketNumSpace.with_recv_pkt_num_win w x1) pn /\
    forall n, seen x n -> seen (PacketNumSpace.with_recv_pkt_num_win w x1) n) as Hw.
  { intros Hok. destruct (sl_ok _ _ Hx1 Hok) as [_ Hnext]. destruct Hok as [Hok _].
    by destruct (SeqNumWindow.insert_seen _ _ _ Hok Ew) as (? & ? & ?). }
  set (y := if a then _ else _).
  assert (space_le (PacketNumSpace.with_recv_pkt_num_win w x1) y) as Hy by (unfold y; destruct a, p; same_space).
  split; [|intros Hok; destruct (Hw Hok) as (? & ? & _); by apply Hy].
  etrans; [|exact Hy]. destruct Hx1 as [B1 B2 B3 B4 B5]. split; [done|done|done|apply Hw|intros Hok; apply Hw, Hok].
Qed.

Lemma record_packet_steps s pn a p at_ : steps evolves (ConnRecv.record_packet s pn a p at_ : conn unit).
Proof.
  intros c. destruct (PacketNumSpaceMap.get s (spaces c)) as [x|] eqn:Ex.
  - pose proof (record_packet_le s pn a p at_ c x Ex) as Hr. destruct (ConnRecv.record_packet s pn a p at_ c) as [[] c']; cbn.
    + destruct Hr as (y & -> & Hy & _). by eapply set_space_evolves.
    + by subst.
    + by subst.
  - unfold ConnRecv.record_packet, mbind, action_bind, get_space. rewrite Ex. reflexivity.
Qed.
#[local] Hint Resolve open_packet_steps record_packet_steps : steps.

Lemma finish_packet_steps hdr pid s pn n a p at_ : steps evolves (ConnRecv.finish_packet clock hdr pid s pn n a p at_ : conn unit).
Proof. unfold ConnRecv.finish_packet. steps. Qed.
#[local] Hint Resolve finish_packet_steps : steps.

Lemma recv_protected_steps buf info hdr pid n off :
  steps evolves (ConnRecv.recv_protected undec clock buf info hdr pid n off).
Proof. unfold ConnRecv.recv_protected. steps. Qed.
#[local] Hint Resolve recv_protected_steps : steps.

Lemma recv_packet_steps buf info pid : steps evolves (ConnRecv.recv_packet undec clock buf info pid).
Proof. unfold ConnRecv.recv_packet. steps. Qed.
#[local] Hint Resolve recv_packet_steps : steps.

Lemma recv_packets_steps fuel : forall buf info pid, steps evolves (ConnRecv.recv_packets undec clock fuel buf info pid).
Proof. induction fuel; intros [|b buf] *; cbn [ConnRecv.recv_packets]; steps. Qed.
#[local] Hint Resolve recv_packets_steps : steps.

Lemma recv_datagram_steps buf info : steps evolves (ConnRecv.recv_datagram undec clock buf info).
Proof. unfold ConnRecv.recv_datagram. steps. Qed.

End Nested.

Lemma drain_undecryptable_steps (recv : list Z -> PacketInfo -> conn Z) fuel t :
  (forall buf info, steps evolves (recv buf info)) -> steps evolves (ConnRecv.drain_undecryptable recv fuel t).
Proof. intros Hr. induction fuel; cbn [ConnRecv.drain_undecryptable]; steps. Qed.

Lemma try_process_undecryptable_steps (recv : list Z -> PacketInfo -> conn Z) fuel :
  (forall buf info, steps evolves (recv buf info)) -> steps evolves (ConnRecv.try_process_undecryptable_packets recv fuel).
Proof.
  intros Hr. unfold ConnRecv.try_process_undecryptable_packets. steps; by apply drain_undecryptable_steps.
Qed.

Lemma recv_steps fuel clock : forall buf info, steps evolves (ConnRecv.recv fuel clock buf info : conn Z).
Proof.
  induction fuel as [|fuel IH]; intros buf info; cbn [ConnRecv.recv]; [steps|].
  apply recv_datagram_steps. by apply try_process_undecryptable_steps.
Qed.
#[local] Hint Resolve recv_steps : steps.

(** *** Writing frames *)

Abbreviation Sending := (@ConnSend.Sending C T).
Abbreviation sending := (action Error Sending).

Definition sends (s s' : Sending) : Prop := evolves (ConnSend.conn_ s) (ConnSend.conn_ s').

#[global] Instance sends_preorder : PreOrder sends.
Proof. apply (preorder_on ConnSend.conn_ evolves). Qed.

#[local] Hint Extern 1 (sends _ _) => (unfold sends; reflexivity) : steps.
#[local] Hint Extern 3 (steps sends (modify _)) => (apply steps_modify; intros) : steps.

Lemma on_conn_steps {A} (m : conn A) : steps evolves m -> steps sends (ConnSend.on_conn m).
Proof. intros Hm. by apply (steps_zoom _ evolves). Qed.
Lemma elicit_steps : steps sends (ConnSend.elicit : sending unit).
Proof. unfold ConnSend.elicit. steps. Qed.
Lemma commit_steps l n out f : steps sends (ConnSend.commit l n out f : sending unit).
Proof. unfold ConnSend.commit. steps. Qed.
#[local] Hint Resolve on_conn_steps elicit_steps commit_steps : steps.
Lemma write_frame_steps l f : steps sends (ConnSend.write_frame_to_packet l f : sending unit).
Proof. unfold ConnSend.write_frame_to_packet. steps. Qed.
#[local] Hint Resolve write_frame_steps : steps.
Lemma write_eliciting_steps l f : steps sends (ConnSend.write_eliciting l f : sending unit).
Proof. unfold ConnSend.write_eliciting. steps. Qed.
Lemma commit_data_steps l n h b f : steps sends (ConnSend.commit_data l n h b f : sending unit).
Proof. unfold ConnSend.commit_data. steps. Qed.
Lemma get_streams_steps : steps sends (ConnSend.get_streams : sending _).
Proof. unfold ConnSend.get_streams. steps. Qed.
Lemma modify_streams_steps f : steps sends (ConnSend.modify_streams f : sending unit).
Proof. unfold ConnSend.modify_streams. steps. Qed.
#[local] Hint Resolve write_eliciting_steps commit_data_steps get_streams_steps modify_streams_steps : steps.

(** A frame goes into the buffer only. *)
Lemma write_frame_conn l f (s : Sending) : ConnSend.conn_ (ConnSend.write_frame_to_packet l f s).2 = ConnSend.conn_ s.
Proof.
  unfold ConnSend.write_frame_to_packet. arun. destruct (wire_len f); cbn; [|done|done].
  destruct (_ <? _); [done|]. by destruct (to_bytes f _) as [[]| |].
Qed.

Lemma modify_space_steps s f : (forall x, space_le x (f x)) -> steps sends (ConnSend.modify_space s f : sending unit).
Proof.
  intros Hf t. unfold ConnSend.modify_space, ConnSend.on_conn, zoom, get_space, mbind, action_bind.
  destruct (PacketNumSpaceMap.get s _) as [x|] eqn:E; [|apply evolves_same; reflexivity]. cbn.
  unfold sends. cbn. by eapply set_space_evolves.
Qed.

Section Packet.
Context (clock : Instant) (chal : list Z) (t : PacketType) (pid : Z).

Lemma try_write_ack_frame_steps l : steps sends (ConnSend.try_write_ack_frame clock t pid l : sending unit).
Proof.
  intros s. unfold ConnSend.try_write_ack_frame. unfold gets, mbind, action_bind, lift, ConnSend.on_conn, zoom, get_space, get_path.
  destruct (get_space_id t pid _) as [sid| |]; cbn; try reflexivity.
  destruct (PacketNumSpaceMap.get sid _) as [x|] eqn:Ex; [|apply evolves_same; reflexivity]. cbn.
  destruct (_ || _); [apply evolves_same; reflexivity|].
  destruct (PathMap.get pid _) as [p| |]; try (apply evolves_same; reflexivity).
  destruct (negb _); [apply evolves_same; reflexivity|].
  destruct (pow64 _) as [e| |]; try (apply evolves_same; reflexivity).
  set (s1 := ConnSend.with_conn _ _). match goal with |- context [ConnSend.write_frame_to_packet l ?f s1] =>
    pose proof (write_frame_conn l f s1) as Ec; destruct (ConnSend.write_frame_to_packet l f s1) as [[] s2] end;
    unfold sends; cbn in *; rewrite Ec; try reflexivity.
  eapply set_space_evolves; [exact Ex|same_space].
Qed.
#[local] Hint Resolve try_write_ack_frame_steps : steps.

Lemma try_write_close_frame_steps l : steps sends (ConnSend.try_write_close_frame clock t pid l : sending unit).
Proof. unfold ConnSend.try_write_close_frame. steps. Qed.

Lemma try_write_pmut_probe_frames_steps b : steps sends (ConnSend.try_write_pmut_probe_frames clock t pid b : sending unit).
Proof. unfold ConnSend.try_write_pmut_probe_frames. steps. Qed.

Lemma write_path_responses_steps l fuel : steps sends (ConnSend.write_path_responses pid l fuel : sending unit).
Proof. induction fuel; cbn [ConnSend.write_path_responses]; steps. Qed.
#[local] Hint Resolve try_write_close_frame_steps try_write_pmut_probe_frames_steps write_path_responses_steps : steps.

Lemma try_write_path_validation_frames_steps l : steps sends (ConnSend.try_write_path_validation_frames chal t pid l : sending unit).
Proof. unfold ConnSend.try_write_path_validation_frames. steps. Qed.

Lemma try_write_cid_control_frame_steps l : steps sends (ConnSend.try_write_cid_control_frame t pid l : sending unit).
Proof.
  intros s. unfold ConnSend.try_write_cid_control_frame. destruct (CidControl.try_write_cid_control_frame _ _ _ _ _) as [[]|]; [|reflexivity].
  unfold sends. cbn. by apply evolves_same.
Qed.

Lemma write_handshake_done_steps l : steps sends (ConnSend.write_handshake_done t pid l : sending unit).
Proof. unfold ConnSend.write_handshake_done. steps. Qed.

Lemma try_write_new_token_frame_steps l : steps sends (ConnSend.try_write_new_token_frame t pid l : sending unit).
Proof. unfold ConnSend.try_write_new_token_frame. steps. Qed.

Lemma try_write_stream_control_frames_steps l : steps sends (ConnSend.try_write_stream_control_frames clock t pid l : sending unit).
Proof.
  unfold ConnSend.try_write_stream_control_frames, ConnSend.write_max_streams, ConnSend.write_data_blocked,
    ConnSend.write_max_stream_data, ConnSend.write_max_data, ConnSend.write_streams_blocked. steps.
Qed.

Lemma try_write_crypto_frame_steps l : steps sends (ConnSend.try_write_crypto_frame t pid l : sending unit).
Proof. unfold ConnSend.try_write_crypto_frame. steps. Qed.

Lemma write_streams_steps l fuel : steps sends (ConnSend.write_streams l fuel : sending unit).
Proof. induction fuel; cbn [ConnSend.write_streams]; steps. Qed.
#[local] Hint Resolve write_streams_steps : steps.

Lemma try_write_stream_frames_steps l : steps sends (ConnSend.try_write_stream_frames t pid l : sending unit).
Proof. unfold ConnSend.try_write_stream_frames. steps. Qed.

Lemma write_buffered_frame_steps l id off fin data b :
  steps sends (ConnSend.write_buffered_stream_frame_to_packet l id off fin data b : sending Z).
Proof. unfold ConnSend.write_buffered_stream_frame_to_packet. steps. Qed.
#[local] Hint Resolve write_buffered_frame_steps : steps.
#[local] Hint Extern 2 (steps sends (ConnSend.modify_space _ _)) => (apply modify_space_steps; intros; same_space) : steps.

Lemma write_buffered_steps l s fuel : steps sends (ConnSend.write_buffered l s fuel : sending unit).
Proof. induction fuel; cbn [ConnSend.write_buffered]; steps. Qed.
#[local] Hint Resolve write_buffered_steps : steps.

Lemma try_write_buffered_frames_steps l : steps sends (ConnSend.try_write_buffered_frames t pid l : sending unit).
Proof. unfold ConnSend.try_write_buffered_frames. steps. Qed.

Lemma write_datagrams_steps l m q : steps sends (ConnSend.write_datagrams l m q : sending unit).
Proof. induction q; cbn [ConnSend.write_datagrams]; steps. Qed.
#[local] Hint Resolve write_datagrams_steps : steps.

Lemma try_write_datagram_frames_steps l : steps sends (ConnSend.try_write_datagram_frames t l : sending unit).
Proof. unfold ConnSend.try_write_datagram_frames. steps. Qed.

Lemma set_app_limited_steps b : steps evolves (ConnSend.set_app_limited pid b : conn unit).
Proof. unfold ConnSend.set_app_limited. steps. Qed.
#[local] Hint Resolve set_app_limited_steps : steps.

#[local] Hint Resolve try_write_path_validation_frames_steps try_write_cid_control_frame_steps write_handshake_done_steps
  try_write_new_token_frame_steps try_write_stream_control_frames_steps try_write_crypto_frame_steps
  try_write_stream_frames_steps try_write_buffered_frames_steps try_write_datagram_frames_steps : steps.

Lemma send_frames_steps l b1 b2 : steps sends (ConnSend.send_frames clock chal t pid l b1 b2 : sending unit).
Proof.
  unfold ConnSend.send_frames, ConnSend.check_congestion, ConnSend.write_ping, ConnSend.pad_packet, ConnSend.write_paddings. steps.
Qed.

End Packet.
#[local] Hint Resolve send_frames_steps set_app_limited_steps : steps.

(** *** Sending *)

Lemma process_lost_frame_steps k f : steps evolves (ConnSend.process_lost_frame k f : conn unit).
Proof.
  destruct f; try (cbn [ConnSend.process_lost_frame]; steps; fail).
  cbn [ConnSend.process_lost_frame]. apply steps_bind_get. intros c.
  destruct (PacketNumSpaceMap.spaces (spaces c) !! k) as [x|] eqn:E; [|reflexivity].
  eapply put_space_evolves; [done|same_space].
Qed.

Lemma process_all_lost_frames_steps : steps evolves (ConnSend.process_all_lost_frames : conn unit).
Proof. apply drain_spaces_steps; [intros x; same_space|apply process_lost_frame_steps]. Qed.

Lemma on_select_path_steps now s : steps evolves (ConnSend.on_select_path now s : conn _).
Proof.
  intros c. unfold ConnSend.on_select_path. pose proof (on_select_spaces now s (mkView (paths c) (spaces c) (streams c))) as E.
  destruct (on_select now _) as [r [s1 v]]. cbn in E. destruct r; apply evolves_same; cbn; done.
Qed.

Lemma select_pending_steps now pids : steps evolves (ConnSend.select_pending now pids : conn _).
Proof. induction pids; cbn [ConnSend.select_pending]; steps. Qed.
#[local] Hint Resolve process_all_lost_frames_steps on_select_path_steps select_pending_steps : steps.

Lemma select_send_path_steps now : steps evolves (ConnSend.select_send_path now : conn Z).
Proof. unfold ConnSend.select_send_path. steps. Qed.

Lemma initiate_handshake_steps : steps evolves (ConnSend.initiate_handshake : conn unit).
Proof.
  unfold ConnSend.initiate_handshake. steps. intros c. pose proof (on_tls_steps TlsSession.process c) as Hc.
  destruct (on_tls TlsSession.process c) as [[|[]|] c']; done.
Qed.

Lemma write_payload_steps clock chal t pid l b1 b2 out off w :
  steps evolves (ConnSend.write_payload clock chal t pid l b1 b2 out off w : conn _).
Proof.
  intros c. unfold ConnSend.write_payload. set (s0 := ConnSend.mkSending c _ w).
  pose proof (send_frames_steps clock chal t pid l b1 b2 s0) as Hs. by destruct (ConnSend.send_frames _ _ _ _ _ _ _ s0).
Qed.

Lemma note_sent_steps t pid s pn n w now : steps evolves (ConnSend.note_sent t pid s pn n w now : conn unit).
Proof.
  unfold ConnSend.note_sent. steps. apply steps_modify. intros c. destruct (multipath_scheduler c) as [sch|]; [|reflexivity].
  match goal with |- context [on_sent ?p ?i sch ?v] => pose proof (on_sent_le p i sch v) as Hle; destruct (on_sent p i sch v) end.
  by apply evolves_spaces.
Qed.

(** The packet number is used up. *)
Lemma use_pkt_num_ok t s pn (c : Connection) :
  match ConnSend.use_pkt_num t s pn c with
  | (Ok _, c') => exists x y, PacketNumSpaceMap.get s (spaces c) = Some x /\
      c' = with_spaces (PacketNumSpaceMap.set s y (spaces c)) c /\ space_le x y /\
      PacketNumSpace.next_pkt_num y = PacketNumSpace.next_pkt_num x + 1
  | (_, c') => c' = c
  end.
Proof.
  unfold ConnSend.use_pkt_num, get_space, set_space, modify, mbind, action_bind, lift.
  destruct (PacketNumSpaceMap.get s (spaces c)) as [x|]; cbn [ok_or]; [|done].
  destruct (add64 _ 1) as [n| |] eqn:En; try done. apply add64_inv in En as [-> En].
  eexists x, _. split_and!; [done|done| |].
  - destruct (bool_decide (t = OneRTT)); [destruct (bool_decide _)|]; split; try done; cbn; try lia;
      intros [? ?]; (split; [done|]); unfold is_u64 in *; cbn; lia.
  - destruct (bool_decide (t = OneRTT)); [destruct (bool_decide _)|]; done.
Qed.

Lemma use_pkt_num_steps t s pn : steps evolves (ConnSend.use_pkt_num t s pn : conn unit).
Proof.
  intros c. pose proof (use_pkt_num_ok t s pn c) as Hc. destruct (ConnSend.use_pkt_num t s pn c) as [[] c']; cbn; [|by subst..].
  destruct Hc as (x & y & Hx & -> & Hxy & _). by eapply set_space_evolves.
Qed.

Lemma after_sent_steps t b now : steps evolves (ConnSend.after_sent t b now : conn unit).
Proof. unfold ConnSend.after_sent. steps. Qed.
#[local] Hint Resolve select_send_path_steps initiate_handshake_steps write_payload_steps note_sent_steps use_pkt_num_steps
  after_sent_steps : steps.

Lemma send_packet_steps clock chal out l pid b1 b2 : steps evolves (ConnSend.send_packet clock chal out l pid b1 b2 : conn _).
Proof. unfold ConnSend.send_packet. steps. Qed.

Lemma send_packets_steps clock chal pid fuel : forall l n b out,
  steps evolves (ConnSend.send_packets clock chal pid fuel l n b out : conn _).
Proof.
  induction fuel as [|fuel IH]; intros l n b out c; cbn [ConnSend.send_packets]; destruct (l <=? 0); try reflexivity.
  pose proof (send_packet_steps clock chal (zdrop n out) l pid (n =? 0) b c) as Hc.
  destruct (ConnSend.send_packet _ _ _ _ _ _ _ c) as [[[[[t pr] w] tail]|e|] c1]; cbn in Hc; [|by destruct e|done].
  destruct (_ || pr); [done|]. etrans; [done|apply IH].
Qed.
#[local] Hint Resolve send_packet_steps send_packets_steps : steps.

Lemma send_steps clock chal out : steps evolves (ConnSend.send clock chal out : conn _).
Proof. unfold ConnSend.send. steps. Qed.

(** *** The rest *)

Lemma set_or_stop_steps t o : t <> Draining -> steps evolves (ConnQuery.set_or_stop t o : conn unit).
Proof. intros Ht. unfold ConnQuery.set_or_stop. destruct o; [steps|by apply stop_timer_steps]. Qed.

Lemma timeout_steps now : steps evolves (ConnQuery.timeout now : conn _).
Proof. unfold ConnQuery.timeout. steps; by apply set_or_stop_steps. Qed.

Lemma loss_detection_timeout_steps now pid : steps evolves (ConnQuery.loss_detection_timeout now pid : conn unit).
Proof. unfold ConnQuery.loss_detection_timeout. steps. Qed.
#[local] Hint Resolve loss_detection_timeout_steps : steps.

Lemma on_timer_steps now t : steps evolves (ConnQuery.on_timer now t : conn unit).
Proof.
  destruct t; cbn [ConnQuery.on_timer]; steps.
  - apply steps_modify. intros c. apply evolves_spaces; try done. apply spaces_le_fmap. intros x.
    unfold ConnQuery.ack_timeout. repeat case_match; try reflexivity. same_space.
  - apply steps_modify. intros c. destruct (PathMap.mark_ping _ _); [by apply evolves_same|reflexivity|reflexivity].
Qed.

(** The draining timer stops when it closes the connection. *)
Lemma expire_steps now t : steps evolves (ConnQuery.expire now t : conn unit).
Proof.
  apply steps_bind_get. intros c.
  destruct (TimerTable.is_expired t now (timers c)); [|reflexivity].
  destruct (decide (t = Draining)) as [->|Hne].
  - split; [done| |reflexivity|done|apply TimerTable.stop_wf|].
    + intros f _ Hf. change (flag_in f (flag_insert Closed (flags c)) = true).
      rewrite flag_in_insert. unfold contains in Hf. rewrite Hf. apply orb_true_r.
    + intros _. right. change (flag_in Closed (flag_insert Closed (flags c)) = true). by rewrite flag_in_insert.
  - apply (steps_bind evolves); [by apply stop_timer_steps|]. intros _. apply on_timer_steps.
Qed.
Lemma on_timeout_steps now : steps evolves (ConnQuery.on_timeout now : conn unit).
Proof. apply steps_for_each; [typeclasses eauto|apply expire_steps]. Qed.

Lemma ping_steps a : steps evolves (ConnQuery.ping a : conn unit).
Proof. unfold ConnQuery.ping. steps. Qed.
Lemma add_path_steps l r now : steps evolves (ConnQuery.add_path l r now : conn Z).
Proof. unfold ConnQuery.add_path. steps. Qed.
Lemma abandon_path_steps l r : steps evolves (ConnQuery.abandon_path l r : conn unit).
Proof. unfold ConnQuery.abandon_path. steps. Qed.
Lemma migrate_path_steps l r : steps evolves (ConnQuery.migrate_path l r : conn unit).
Proof.
  unfold ConnQuery.migrate_path. steps; apply steps_modify; intros c1;
    (destruct (PathMap.get_active_with_path_id (paths c1)) as [[]| |]; [by apply evolves_same|reflexivity|reflexivity]).
Qed.
Lemma add_scid_steps d t b : steps evolves (ConnQuery.add_scid d t b : conn Z).
Proof. unfold ConnQuery.add_scid. steps. Qed.
Lemma get_path_stats_steps l r : steps evolves (ConnQuery.get_path_stats l r : conn _).
Proof. unfold ConnQuery.get_path_stats. steps. Qed.
Lemma tick_steps {A} (m : action Error StreamMap.StreamMap A) : steps evolves (ConnQuery.tick m : conn A).
Proof. unfold ConnQuery.tick. steps. Qed.
Lemma stream_destroy_steps id : steps evolves (ConnQuery.stream_destroy id : conn unit).
Proof. unfold ConnQuery.stream_destroy. steps. Qed.
Lemma set_index_steps v : steps evolves (ConnQuery.set_index v : conn unit).
Proof. unfold ConnQuery.set_index. steps. Qed.
Lemma set_queues_steps q : steps evolves (ConnQuery.set_queues q : conn unit).
Proof. unfold ConnQuery.set_queues. steps. Qed.
Lemma start_handshake_steps : steps evolves (ConnQuery.start_handshake : conn unit).
Proof.
  unfold ConnQuery.start_handshake. steps. intros c. pose proof (on_tls_steps TlsSession.process c) as Hc.
  destruct (on_tls TlsSession.process c) as [[|[]|] c']; done.
Qed.
Lemma poll_steps : steps evolves (ConnQuery.poll : conn _).
Proof.
  intros c. unfold ConnQuery.poll. destruct (EventQueue.poll (events c)) as [[e|] q]; [by apply evolves_same|].
  destruct (EventQueue.poll _). by apply evolves_same.
Qed.
Lemma set_session_steps b : steps evolves (ConnQuery.set_session b : conn unit).
Proof. unfold ConnQuery.set_session. steps. Qed.
Lemma set_token_steps t : steps evolves (ConnQuery.set_token t : conn unit).
Proof. unfold ConnQuery.set_token. steps. Qed.
Lemma dgram_recv_steps : steps evolves (ConnQuery.dgram_recv : conn _).
Proof. intros c. unfold ConnQuery.dgram_recv. destruct (dgram_recv_queue c); by apply evolves_same. Qed.
Lemma dgram_send_steps d : steps evolves (ConnQuery.dgram_send d : conn unit).
Proof. unfold ConnQuery.dgram_send. steps. Qed.

Lemma initialize_steps token conf reset_token d resume pid now :
  steps evolves (initialize token conf reset_token d resume pid now : conn unit).
Proof. unfold initialize. steps. Qed.

End Evolves.

#[export] Hint Extern 1 (evolves _ _) => (apply evolves_same; reflexivity) : steps.
#[export] Hint Extern 3 (steps evolves (modify _)) => (apply steps_modify; intros) : steps.
#[export] Hint Resolve insert_flag_steps set_timer_steps add_event_steps get_path_steps update_path_steps
  get_active_path_id_steps get_active_steps get_space_steps on_cids_steps on_streams_steps on_session_steps
  on_tls_steps run_streams_steps on_crypto_send_steps ignore_steps on_recovery_steps on_packet_sent_steps
  on_ack_received_steps on_loss_detection_timeout_steps on_pkt_num_space_discarded_steps restart_idle_timer_steps
  mark_tickable_steps mark_sendable_steps close_steps reset_steps drop_space_state_steps set_initial_dcid_steps
  set_transport_params_steps add_space_steps try_set_dcid_steps get_or_create_path_steps
  try_schedule_control_frames_steps try_buffer_steps try_schedule_ack_frame_steps try_process_acked_frames_steps
  try_allocate_cids_steps attempt_steps set_peer_trans_params_steps process_peer_trans_params_steps
  try_apply_peer_params_steps process_version_negotiation_steps process_retry_steps
  promote_to_multipath_steps process_tls_session_steps feed_tls_steps recv_ack_steps recv_crypto_steps
  reassign_dcid_steps recv_frame_steps recv_frames_steps check_version_steps on_key_update_steps open_packet_steps
  record_packet_steps finish_packet_steps recv_protected_steps recv_packet_steps recv_packets_steps recv_steps
  on_conn_steps elicit_steps commit_steps write_frame_steps write_eliciting_steps commit_data_steps
  get_streams_steps modify_streams_steps try_write_ack_frame_steps try_write_close_frame_steps
  try_write_pmut_probe_frames_steps write_path_responses_steps write_streams_steps write_buffered_frame_steps
  write_buffered_steps write_datagrams_steps set_app_limited_steps try_write_path_validation_frames_steps
  try_write_cid_control_frame_steps write_handshake_done_steps try_write_new_token_frame_steps
  try_write_stream_control_frames_steps try_write_crypto_frame_steps try_write_stream_frames_steps
  try_write_buffered_frames_steps try_write_datagram_frames_steps send_frames_steps process_all_lost_frames_steps
  on_select_path_steps select_pending_steps select_send_path_steps initiate_handshake_steps write_payload_steps
  note_sent_steps use_pkt_num_steps after_sent_steps send_packet_steps send_packets_steps
  loss_detection_timeout_steps send_steps timeout_steps on_timeout_steps ping_steps add_path_steps
  abandon_path_steps migrate_path_steps add_scid_steps get_path_stats_steps tick_steps stream_destroy_steps
  set_index_steps set_queues_steps start_handshake_steps poll_steps set_session_steps set_token_steps
  dgram_recv_steps dgram_send_steps : steps.
