(* ===== verification/ConnHistory.v ===== *)
(** * Histories of a connection

    What holds over any sequence of calls on a connection.  A call of [send] is the
    sequence of its stages: the handshake is started, lost frames are taken up, a
    path is chosen, and packets are sent one after the other ([send_history]). *)

From stdpp Require Import strings gmap.
From S2P Require Import Prelude.
From S2P Require Import Error.
From S2P Require Import Time.
From S2P Require Import Codec.
From S2P Require Import Btree.
From S2P Require Import Ranges.
From S2P Require Import Window.
From S2P Require Import FlowControl.
From S2P Require Import RecvBuf.
From S2P Require Import SendBuf.
From S2P Require Import Events.
From S2P Require Import Stream.
From S2P Require Import StreamMap.
From S2P Require Import ConnectionId.
From S2P Require Import Wire.
From S2P Require Import PacketNum.
From S2P Require Import Packet.
From S2P Require Import Protect.
From S2P Require Import Frame.
From S2P Require Import Cid.
From S2P Require Import Rtt.
From S2P Require Import Space.
From S2P Require Import Congestion.
From S2P Require Import Recovery.
From S2P Require Import TransParam.
From S2P Require Import Pmtu.
From S2P Require Import Path.
From S2P Require Import Timers.
From S2P Require Import Tls.
From S2P Require Import Scheduler.

From S2P Require Import Steps.
From S2P Require Import Connection.
From S2P Require Import ConnRecv.
From S2P Require Import ConnSend.
From S2P Require Import ConnQuery.
From S2P Require Import ConnSteps.
From S2P Require Import ConnSample.

Import Connection.

Section History.
Context {C : Type} `{CongestionController C} `{Platform C} {T : Type} `{TlsBackend T} `{CryptoBackend}.

Abbreviation Connection := (@Connection C T).
Abbreviation conn := (action Error Connection).

(** The undecryptable packets are processed by nested calls of [recv]. *)
Definition undec (fuel : nat) (clock : Instant) : conn unit :=
  ConnRecv.try_process_undecryptable_packets (ConnRecv.recv fuel clock) fuel.

(** The calls on a connection besides sending a packet, with the stages of [recv] and
    [send]. *)
Inductive operation : forall A, conn A -> Prop :=
| op_recv fuel clock buf info : operation _ (ConnRecv.recv fuel clock buf info)
| op_recv_packet fuel clock buf info pid : operation _ (ConnRecv.recv_packet (undec fuel clock) clock buf info pid)
| op_initiate_handshake : operation _ ConnSend.initiate_handshake
| op_process_all_lost_frames : operation _ ConnSend.process_all_lost_frames
| op_select_send_path clock : operation _ (ConnSend.select_send_path clock)
| op_timeout now : operation _ (ConnQuery.timeout now)
| op_on_timeout now : operation _ (ConnQuery.on_timeout now)
| op_close app err reason : operation _ (close app err reason)
| op_reset now : operation _ (reset now)
| op_mark_tickable b : operation _ (mark_tickable b)
| op_mark_sendable b : operation _ (mark_sendable b)
| op_ping addr : operation _ (ConnQuery.ping addr)
| op_add_path local remote now : operation _ (ConnQuery.add_path local remote now)
| op_abandon_path local remote : operation _ (ConnQuery.abandon_path local remote)
| op_migrate_path local remote : operation _ (ConnQuery.migrate_path local remote)
| op_add_scid d token retire : operation _ (ConnQuery.add_scid d token retire)
| op_get_path_stats local remote : operation _ (ConnQuery.get_path_stats local remote)
| op_stream A (m : action Error StreamMap.StreamMap A) : operation _ (ConnQuery.tick m)
| op_stream_writable id n : operation _ (ConnQuery.stream_writable id n)
| op_stream_destroy id : operation _ (ConnQuery.stream_destroy id)
| op_set_index v : operation _ (ConnQuery.set_index v)
| op_set_queues q : operation _ (ConnQuery.set_queues q)
| op_start_handshake : operation _ ConnQuery.start_handshake
| op_poll : operation _ ConnQuery.poll
| op_set_session bytes : operation _ (ConnQuery.set_session bytes)
| op_set_token t : operation _ (ConnQuery.set_token t)
| op_dgram_recv : operation _ ConnQuery.dgram_recv
| op_dgram_send data : operation _ (ConnQuery.dgram_send data).

Lemma undec_steps fuel clock : steps evolves (undec fuel clock).
Proof. apply try_process_undecryptable_steps. intros buf info. apply recv_steps. Qed.

Lemma operation_evolves A (m : conn A) : operation A m -> steps evolves m.
Proof. destruct 1; eauto with steps. apply recv_packet_steps, undec_steps. Qed.

(** A history from [c0] with the space and the number of every packet sent. *)
Inductive history (c0 : Connection) : list (SpaceId * Z) -> Connection -> Prop :=
| h_start : history c0 [] c0
| h_operation A (m : conn A) log c : history c0 log c -> operation A m -> history c0 log (m c).2
| h_packet clock chal out left pid first has_initial log c t probe written out' c' sid hdr pkt_num dcid_seq :
    history c0 log c ->
    ConnSend.send_packet clock chal out left pid first has_initial c = (Ok (t, probe, written, out'), c') ->
    get_space_id t pid c = Ok sid ->
    ConnSend.packet_header t pid sid c = Ok (hdr, pkt_num, dcid_seq) ->
    history c0 (log ++ [(sid, pkt_num)]) c'
| h_no_packet clock chal out left pid first has_initial log c c' e :
    history c0 log c ->
    ConnSend.send_packet clock chal out left pid first has_initial c = (Err e, c') ->
    history c0 log c'.

Lemma history_evolves c0 log c : history c0 log c -> evolves c0 c.
Proof.
  induction 1 as [|A m log c _ IH Hm|?????????????????? _ IH Hs|????????? c' e _ IH Hs]; [reflexivity|..];
    (etrans; [done|]).
  - by apply operation_evolves.
  - apply (steps_of (send_packet_steps _ _ _ _ _ _ _) Hs).
  - apply (steps_of (send_packet_steps _ _ _ _ _ _ _) Hs).
Qed.

(** ** A packet that was sent *)

(** The header of [hdr_offset] bytes, the packet number and the payload follow one
    another; the payload starts at [payload_offset]. *)
Definition pkt_num_offset (t : PacketType) (hdr_offset : Z) : Z :=
  if bool_decide (t = OneRTT) then hdr_offset else hdr_offset + LENGTH_FIELD_LEN.

Definition payload_offset (t : PacketType) (hdr : PacketHeader) (hdr_offset : Z) : Z :=
  pkt_num_offset t hdr_offset + Packet.pkt_num_len hdr.

Definition total_overhead (t : PacketType) (hdr : PacketHeader) (hdr_offset crypto : Z) (c : Connection) : Z :=
  if is_encryption_disabled t c then payload_offset t hdr hdr_offset else payload_offset t hdr hdr_offset + crypto.

(** The stages of a call of [send_packet] that went through. *)
Inductive sent_packet (clock : Instant) (chal out : list Z) (left pid : Z) (first has_initial : bool) (c : Connection)
  : PacketType -> SpaceId -> PacketHeader -> Z -> FrameWriteStatus.FrameWriteStatus -> Z -> list Z -> Connection -> Prop :=
| sent_packet_intro t level sid hdr pkt_num dcid_seq hdr_offset head crypto u num x out1 w c1 out2 key written out3 c2 c3 c4 :
    left <= len out -> is_draining c = false ->
    ConnSend.select_send_packet_type pid c = Ok t -> to_level t = Ok level ->
    get_space_id t pid c = Ok sid -> ConnSend.packet_header t pid sid c = Ok (hdr, pkt_num, dcid_seq) ->
    Packet.to_bytes hdr (ztake left out) = Ok (hdr_offset, head) ->
    TlsSession.get_overhead level (tls_session c) = Some crypto ->
    MIN_PAYLOAD_LEN <= left - total_overhead t hdr hdr_offset crypto c ->
    run_enc (encode_packet_num pkt_num (Packet.pkt_num_len hdr) ;; mret tt)
      (ztake (Packet.pkt_num_len hdr) (zdrop (pkt_num_offset t hdr_offset) (head ++ zdrop left out))) = Ok (u, num) ->
    PacketNumSpaceMap.get sid (spaces c) = Some x ->
    ConnSend.write_payload clock chal t pid (left - total_overhead t hdr hdr_offset crypto c) first has_initial
      (ConnSend.splice (pkt_num_offset t hdr_offset) num (head ++ zdrop left out)) (payload_offset t hdr hdr_offset)
      (FrameWriteStatus.init (PacketNumSpace.need_elicit_ack x) (0 <? PacketNumSpace.loss_probes x)
         (total_overhead t hdr hdr_offset crypto c)) c = (Ok (out1, w), c1) ->
    (if bool_decide (t = OneRTT) then mret out1
     else
       '(_, l) ← run_enc (write_varint_with_len (Packet.pkt_num_len hdr + FrameWriteStatus.written w + crypto) LENGTH_FIELD_LEN ;; mret tt)
                   (zdrop hdr_offset out1);
       mret (ztake hdr_offset out1 ++ l)) = Ok out2 ->
    seal (TlsSession.get_keys level (tls_session c1)) = Some key ->
    (if is_encryption_disabled t c1 then mret (payload_offset t hdr hdr_offset + FrameWriteStatus.written w, out2)
     else @encrypt_packet (CryptoKey.aead key) (CryptoKey.iv key) out2
            (if contains EnableMultipath c1 then Some (wrap 32 dcid_seq) else None) pkt_num (Packet.pkt_num_len hdr)
            (FrameWriteStatus.written w) (payload_offset t hdr hdr_offset) None) = Ok (written, out3) ->
    ConnSend.note_sent t pid sid pkt_num written w clock c1 = (Ok tt, c2) ->
    ConnSend.use_pkt_num t sid pkt_num c2 = (Ok tt, c3) ->
    ConnSend.after_sent t (FrameWriteStatus.ack_eliciting w) clock c3 = (Ok tt, c4) ->
    sent_packet clock chal out left pid first has_initial c t sid hdr pkt_num w written out3 c4.

Lemma get_space_inv s (c c' : Connection) x : get_space s c = (Ok x, c') -> PacketNumSpaceMap.get s (spaces c) = Some x /\ c' = c.
Proof. unfold get_space. intros [=E ->]. by apply ok_or_inv in E. Qed.

Lemma send_packet_inv clock chal out left pid first has_initial (c : Connection) t probe written out' c' :
  ConnSend.send_packet clock chal out left pid first has_initial c = (Ok (t, probe, written, out'), c') ->
  exists sid hdr pkt_num w, probe = FrameWriteStatus.is_pmtu_probe w /\
    sent_packet clock chal out left pid first has_initial c t sid hdr pkt_num w written out' c'.
Proof.
  unfold ConnSend.send_packet. destruct (Z.ltb_spec (len out) left); [done|]. intros Hs.
  ainv Hs. destruct (is_draining c) eqn:Ed; [done|].
  ainv Hs. ainv Hs. ainv Hs. ainv Hs. destruct a2 as [[hdr pn] dq]. ainv Hs. destruct a2 as [off hd]. ainv Hs.
  destruct (Z.ltb_spec (left - (if is_encryption_disabled a c then (if bool_decide (a = OneRTT) then off else off + LENGTH_FIELD_LEN) + Packet.pkt_num_len hdr
     else (if bool_decide (a = OneRTT) then off else off + LENGTH_FIELD_LEN) + Packet.pkt_num_len hdr + a2)) MIN_PAYLOAD_LEN); [done|].
  ainv Hs. destruct a3 as [u pnb]. ainv Hs. apply get_space_inv in E6 as [E6 ->]. ainv Hs. destruct a4 as [out1 w].
  ainv Hs. ainv Hs. ainv Hs. ainv Hs. destruct a6 as [n out6]. ainv Hs. ainv Hs. ainv Hs.
  injection Hs as -> <- -> -> ->. destruct a6, a7, a8. apply ok_or_inv in E4, E9.
  exists a1, hdr, pn, w. split; [done|]. by econstructor.
Qed.

Lemma packet_header_inv t pid sid (c : Connection) hdr pkt_num dcid_seq :
  ConnSend.packet_header t pid sid c = Ok (hdr, pkt_num, dcid_seq) ->
  exists x d s, PacketNumSpaceMap.get sid (spaces c) = Some x /\ pkt_num = PacketNumSpace.next_pkt_num x /\
    hdr = mkHeader t (version c) d s (packet_num_len pkt_num (PacketNumSpace.get_largest_acked_pkt x)) 0
            (if negb (is_server c) && bool_decide (t = Initial) then token c else None)
            (TlsSession.current_key_phase (tls_session c)).
Proof.
  unfold ConnSend.packet_header. destruct (PacketNumSpaceMap.get sid (spaces c)) as [x|]; [|done].
  cbn [ok_or mbind outcome_bind]. intros Hh.
  repeat (match type of Hh with (?m ≫= _) = _ => destruct m; [|done|done] end; cbn [mbind outcome_bind] in Hh).
  injection Hh as <- <- <-. by eexists _, _, _.
Qed.

(** ** Packet numbers *)

(** The number [n] of the space [s] has been used. *)
Definition used (s : SpaceId) (n : Z) (c : Connection) : Prop :=
  exists x, PacketNumSpaceMap.get s (spaces c) = Some x /\ n < PacketNumSpace.next_pkt_num x.

Lemma used_evolves s n c c' : spaces_ok (spaces c) -> evolves c c' -> used s n c -> used s n c'.
Proof.
  intros Hk Hev (x & Hx & Hn). destruct (ss_old _ _ (ev_spaces _ _ Hev) _ _ (proj1 (Hk _ _ Hx)) Hx) as (y & Hy & Hxy).
  exists y. split; [done|]. pose proof (sl_next _ _ Hxy). lia.
Qed.

(** The number is the next one of its space before the call, and a used one after it. *)
Lemma sent_packet_number clock chal out left pid first has_initial c t sid hdr pkt_num w written out' c' :
  spaces_ok (spaces c) ->
  sent_packet clock chal out left pid first has_initial c t sid hdr pkt_num w written out' c' ->
  ~ used sid pkt_num c /\ used sid pkt_num c'.
Proof.
  intros Hk. destruct 1 as [? ? ? ? ? ? ? ? ? ? ? x ? ? c1 ? ? ? ? c2 c3 c4 ? ? ? ? ? Hhdr ? ? ? ? Hx Hw ? ? ? Hn Hu Ha].
  apply packet_header_inv in Hhdr as (x' & d & s & Hx' & -> & _). rewrite Hx in Hx'. injection Hx' as <-.
  split; [intros (y & Hy & Hlt); simplify_eq; lia|].
  assert (evolves c c2) as H02.
  { etrans; [apply (steps_of (write_payload_steps clock chal t pid _ _ _ _ _ _) Hw)|].
    apply (steps_of (note_sent_steps _ _ _ _ _ _ _) Hn). }
  destruct (ss_old _ _ (ev_spaces _ _ H02) _ _ (proj1 (Hk _ _ Hx)) Hx) as (x2 & Hx2 & Hle2).
  apply (ss_ok _ _ (ev_spaces _ _ H02)) in Hk.
  pose proof (ss_ok _ _ (ev_spaces _ _ (steps_of (use_pkt_num_steps t sid _) Hu)) Hk) as Hk3.
  apply (used_evolves _ _ _ _ Hk3 (steps_of (after_sent_steps _ _ _) Ha)).
  pose proof (use_pkt_num_ok t sid (PacketNumSpace.next_pkt_num x) c2) as Huse. rewrite Hu in Huse.
  destruct Huse as (x2' & y & Hx2' & -> & _ & Hnext). unfold PacketNumSpaceMap.get in Hx2'. simplify_eq.
  exists y. split; [apply lookup_insert_eq|]. pose proof (sl_next _ _ Hle2). lia.
Qed.

(** ** A packet that was processed *)

(** The stages of a call of [recv_packet] whose packet went through: its path, its
    protection, its frames and the notes taken of it. *)
Inductive processed (fuel : nat) (clock : Instant) (buf : list Z) (info : PacketInfo) (pid : option Z) (c : Connection)
  : SpaceId -> Z -> list Z -> Connection -> Prop :=
| processed_intro s hdr hdr' read path length pkt_num_offset level key sid pkt_num payload ack_eliciting probing c1 c2 c3 c4 c5 c6 c7 :
    is_closing c || is_draining c || is_closed c = false ->
    scid c = Ok s -> Packet.from_bytes buf (ConnectionId.len_ s) = Ok (hdr, read) ->
    Packet.pkt_type hdr <> VersionNegotiation -> Packet.pkt_type hdr <> Retry ->
    ConnRecv.check_version hdr c = (Ok tt, c1) ->
    (if bool_decide (Packet.pkt_type hdr = OneRTT) && contains HandshakeCompleted c1
     then get_or_create_path pid (Packet.dcid hdr) info (len buf) clock else get_active_path_id) c1 = (Ok path, c2) ->
    ConnRecv.packet_length hdr buf read = Ok (length, pkt_num_offset) ->
    (if contains DerivedInitialSecrets c2 then mret tt
     else on_session (TlsSession.derive_initial_secrets (ConnectionId.deref (Packet.dcid hdr)) (version c2)) ;;
          insert_flag DerivedInitialSecrets) c2 = (Ok tt, c3) ->
    to_level (Packet.pkt_type hdr) = Ok level ->
    open (TlsSession.get_keys level (tls_session c3)) = Some key ->
    ConnRecv.open_packet clock buf hdr path key pkt_num_offset length c3 = (Ok (hdr', pkt_num, sid, payload), c4) ->
    try_set_dcid_for_initial_path path hdr' c4 = (Ok tt, c5) ->
    ConnRecv.recv_frames (undec fuel clock) clock (S (List.length payload)) payload hdr' path sid (time info) false true c5
    = (Ok (ack_eliciting, probing), c6) ->
    ConnRecv.finish_packet clock hdr' path sid pkt_num (pkt_num_offset + length) ack_eliciting probing (time info) c6 = (Ok tt, c7) ->
    processed fuel clock buf info pid c sid pkt_num payload c7.

(** Before a packet is processed nothing is counted. *)
Definition same_stats (c c' : Connection) : Prop := stats c' = stats c.
#[local] Instance same_stats_preorder : PreOrder same_stats := preorder_on stats (flip eq).

Lemma same_stats_of {A} (m : conn A) : (forall c, stats (m c).2 = stats c) -> steps same_stats m.
Proof. done. Qed.

Lemma on_cids_stats {A} (m : action Error ConnectionIdMgr.ConnectionIdMgr A) : steps same_stats (on_cids m : conn A).
Proof. intros c. unfold on_cids, zoom. by destruct (m _). Qed.
Lemma on_session_stats {A} (m : TlsSession.TlsSession -> res A * TlsSession.TlsSession) : steps same_stats (on_session m : conn A).
Proof. intros c. unfold on_session, zoom. by destruct (m _). Qed.
Lemma add_space_stats now : steps same_stats (add_space now : conn _).
Proof. intros c. unfold add_space. by destruct (PacketNumSpaceMap.add _ _). Qed.
#[local] Hint Resolve on_cids_stats on_session_stats add_space_stats : steps.
#[local] Hint Extern 4 (steps same_stats _) => (apply same_stats_of; reflexivity) : steps.

Lemma check_version_stats hdr : steps same_stats (ConnRecv.check_version hdr : conn unit).
Proof. unfold ConnRecv.check_version. steps. Qed.
Lemma get_or_create_path_stats pid d info n now : steps same_stats (get_or_create_path pid d info n now : conn Z).
Proof. unfold get_or_create_path. steps. Qed.
Lemma try_buffer_stats hdr pkt info : steps same_stats (try_buffer_undecryptable_packets hdr pkt info : conn unit).
Proof. apply steps_modify. intros c. unfold same_stats. by destruct (_ || _). Qed.
#[local] Hint Resolve check_version_stats get_or_create_path_stats try_buffer_stats : steps.

Lemma recv_packet_inv fuel clock buf info pid (c : Connection) n c' :
  ConnRecv.recv_packet (undec fuel clock) clock buf info pid c = (Ok n, c') ->
  (exists sid pkt_num payload, processed fuel clock buf info pid c sid pkt_num payload c') \/
  (exists s hdr read, scid c = Ok s /\ Packet.from_bytes buf (ConnectionId.len_ s) = Ok (hdr, read) /\
     (Packet.pkt_type hdr = VersionNegotiation \/ Packet.pkt_type hdr = Retry \/
      exists c1 level pkt, to_level (Packet.pkt_type hdr) = Ok level /\ open (TlsSession.get_keys level (tls_session c1)) = None /\
        evolves c c1 /\ try_buffer_undecryptable_packets hdr pkt info c1 = (Ok tt, c') /\ stats c' = stats c)).
Proof.
  unfold ConnRecv.recv_packet, ConnRecv.recv_protected. destruct (bool_decide (buf = [])); [done|]. intros Hr.
  ainv Hr. destruct (is_closing c || is_draining c || is_closed c) eqn:Ec; [done|].
  ainv Hr. ainv Hr. destruct a0 as [hdr read].
  apply ConnRecv.map_err_inv in E0.
  destruct (bool_decide_reflect (Packet.pkt_type hdr = VersionNegotiation)) as [Ev|Ev].
  { right. exists a, hdr, read. auto. }
  destruct (bool_decide_reflect (Packet.pkt_type hdr = Retry)) as [Er|Er].
  { right. exists a, hdr, read. auto. }
  ainv Hr. destruct a0. ainv Hr. ainv Hr. ainv Hr. destruct a1 as [l off]. ainv Hr. ainv Hr. destruct a1. ainv Hr. ainv Hr.
  destruct (open _) as [key|] eqn:Ekey.
  - left. ainv Hr. destruct a2 as [[[hdr' pn] sid] payload]. ainv Hr. destruct a2. ainv Hr. destruct a2 as [ack probing].
    ainv Hr. destruct a2. injection Hr as <- ->. exists sid, pn, payload. by econstructor.
  - right. ainv Hr. ainv Hr. injection Hr as <- ->. destruct a3. exists a, hdr, read. split_and!; [done|done|]. right. right.
    exists s1, a1, a2. split_and!; [done|done| |done|].
    + etrans; [apply (steps_of (check_version_steps _) E1)|].
      etrans; [refine (steps_of _ E2); steps|refine (steps_of _ E4); steps].
    + change (same_stats c c'). etrans; [refine (steps_of _ E1); steps|]. etrans; [refine (steps_of _ E2); steps|].
      etrans; [refine (steps_of _ E4); steps|refine (steps_of _ E7); steps].
Qed.

(** ** Received packet numbers *)

Definition received (s : SpaceId) (n : Z) (c : Connection) : Prop :=
  exists x, PacketNumSpaceMap.get s (spaces c) = Some x /\ seen x n.

Lemma received_evolves s n c c' : spaces_ok (spaces c) -> evolves c c' -> received s n c -> received s n c'.
Proof.
  intros Hk Hev (x & Hx & Hn). destruct (Hk _ _ Hx) as [Hlt Hwin].
  destruct (ss_old _ _ (ev_spaces _ _ Hev) _ _ Hlt Hx) as (y & Hy & Hxy).
  exists y. split; [done|]. by apply (sl_seen _ _ Hxy).
Qed.

Lemma open_packet_inv clock buf hdr pid key off l (c : Connection) hdr' pn sid payload c' :
  ConnRecv.open_packet clock buf hdr pid key off l c = (Ok (hdr', pn, sid, payload), c') ->
  exists x buf' cid_seq key' attempt c1,
    @decrypt_header (CryptoKey.aead key) buf off hdr (is_encryption_disabled (Packet.pkt_type hdr) c) = Ok (buf', hdr') /\
    get_space_id (Packet.pkt_type hdr') pid c = Ok sid /\ PacketNumSpaceMap.get sid (spaces c) = Some x /\
    decode_packet_num (PacketNumSpace.largest_rx_pkt_num x) (Packet.pkt_num hdr') (Packet.pkt_num_len hdr') = Ok pn /\
    PacketNumSpace.detect_duplicated_pkt_num pn x = Ok false /\
    on_session (TlsSession.select_key (is_confirmed c) hdr' x) c = (Ok (key', attempt), c1) /\
    (if is_encryption_disabled (Packet.pkt_type hdr) c
     then slice (off + Packet.pkt_num_len hdr') (l - Packet.pkt_num_len hdr') buf'
     else @decrypt_payload (CryptoKey.aead key') (CryptoKey.iv key') buf' (off + Packet.pkt_num_len hdr')
            (l - Packet.pkt_num_len hdr') cid_seq pn) = Ok payload /\
    payload <> [].
Proof.
  unfold ConnRecv.open_packet. intros Ho. ainv Ho. ainv Ho. destruct a as [buf' hdr1]. ainv Ho. ainv Ho.
  apply get_space_inv in E1 as [Ex ->]. ainv Ho. ainv Ho. destruct a2; [done|]. destruct (_ <? 0); [done|].
  ainv Ho. ainv Ho. destruct a3 as [key' attempt]. ainv Ho. destruct (bool_decide_reflect (a3 = [])); [done|].
  ainv Ho. ainv Ho. ainv Ho. injection Ho as <- <- <- <- <-.
  exists a0, buf', a2, key', attempt, s. apply ConnRecv.map_err_inv in E. split_and!; try done.
  destruct (is_encryption_disabled _ _); [done|]. by apply ConnRecv.map_err_inv in E5.
Qed.

Lemma open_packet_new clock buf hdr pid key off l (c : Connection) hdr' pn sid payload c' :
  ConnRecv.open_packet clock buf hdr pid key off l c = (Ok (hdr', pn, sid, payload), c') -> ~ received sid pn c.
Proof.
  intros (x & ? & ? & ? & ? & ? & _ & _ & Hx & _ & Hdup & _)%open_packet_inv (y & Hy & Hn).
  unfold seen in Hn. congruence.
Qed.

(** A processed packet is noted as received. *)
Lemma finish_packet_received clock hdr pid sid pn read a p at_ (c : Connection) c' :
  spaces_ok (spaces c) -> ConnRecv.finish_packet clock hdr pid sid pn read a p at_ c = (Ok tt, c') -> received sid pn c'.
Proof.
  unfold ConnRecv.finish_packet. intros Hk Hf. ainv Hf. ainv Hf. ainv Hf.
  apply (steps_of try_process_acked_frames_steps) in E. apply (steps_of try_allocate_cids_steps) in E0.
  apply (ss_ok _ _ (ev_spaces _ _ E)), (ss_ok _ _ (ev_spaces _ _ E0)) in Hk.
  pose proof (ss_ok _ _ (ev_spaces _ _ (steps_of (record_packet_steps _ _ _ _ _) E1)) Hk) as Hk1.
  assert (evolves s1 c') as Hev by (refine (steps_of _ Hf); steps).
  apply (received_evolves _ _ _ _ Hk1 Hev).
  destruct (PacketNumSpaceMap.get sid (spaces s0)) as [x|] eqn:Ex.
  - pose proof (record_packet_le sid pn a p at_ s0 x Ex) as Hr. rewrite E1 in Hr. destruct Hr as (y & -> & _ & Hy).
    exists y. split; [apply lookup_insert_eq|]. apply Hy, (Hk _ _ Ex).
  - unfold ConnRecv.record_packet in E1. ainv E1. apply get_space_inv in E2 as [E2 _]. congruence.
Qed.

(** The number of a processed packet was not received before and is received after. *)
Lemma processed_number fuel clock buf info pid c sid pn payload c' :
  spaces_ok (spaces c) -> processed fuel clock buf info pid c sid pn payload c' ->
  evolves c c' /\ ~ received sid pn c /\ received sid pn c'.
Proof.
  intros Hk. destruct 1 as [s hdr hdr' ? ? ? ? ? ? ? ? ? ? ? c1 c2 c3 c4 c5 c6 c7 ? ? ? ? ? E1 E2 ? E3 ? ? E4 E5 E6 E7].
  assert (evolves c c3) as H03.
  { etrans; [apply (steps_of (check_version_steps _) E1)|].
    etrans; [refine (steps_of _ E2); steps|refine (steps_of _ E3); steps]. }
  assert (evolves c3 c6) as H36.
  { etrans; [refine (steps_of _ E4); steps|]. etrans; [refine (steps_of _ E5); steps|].
    refine (steps_of _ E6). apply recv_frames_steps, undec_steps. }
  pose proof (steps_of (finish_packet_steps _ _ _ _ _ _ _ _ _) E7) as H67.
  split; [by do 2 (etrans; [done|])|]. split.
  - intros Hr. eapply open_packet_new; [done|]. by eapply received_evolves.
  - eapply finish_packet_received; [|done]. apply (ss_ok _ _ (ev_spaces _ _ H36)). by apply (ss_ok _ _ (ev_spaces _ _ H03)).
Qed.

(** ** Calls as histories *)

(** A call that does not panic extends a history. *)
Definition extends {A} (c0 : Connection) (m : conn A) : Prop := forall log c r c',
  history c0 log c -> m c = (r, c') -> r <> Panic -> exists log', history c0 (log ++ log') c'.

Lemma extends_bind {A B} c0 (m : conn A) (k : A -> conn B) : extends c0 m -> (forall a, extends c0 (k a)) -> extends c0 (m ≫= k).
Proof.
  intros Hm Hk log c r c' Hh. unfold mbind, action_bind. destruct (m c) as [[a|e|] c1] eqn:E.
  - destruct (Hm _ _ _ _ Hh E) as (l1 & Hh1); [done|]. intros Hr Hp.
    destruct (Hk _ _ _ _ _ Hh1 Hr Hp) as (l2 & Hh2). exists (l1 ++ l2). by rewrite app_assoc.
  - intros [= <- <-] _. by apply (Hm _ _ _ _ Hh E).
  - by intros [= <- <-].
Qed.

Lemma extends_pure {A} c0 (m : conn A) : (forall c, (m c).2 = c) -> extends c0 m.
Proof. intros Hm log c r c' Hh E _. exists []. rewrite app_nil_r. specialize (Hm c). rewrite E in Hm. by simplify_eq/=. Qed.

Lemma extends_operation {A} c0 (m : conn A) : operation A m -> extends c0 m.
Proof.
  intros Hm log c r c' Hh E _. exists []. rewrite app_nil_r. change c' with (r, c').2. rewrite <- E. by eapply h_operation.
Qed.

Lemma send_packets_history clock chal pid c0 fuel : forall left done has_initial out,
  extends c0 (ConnSend.send_packets clock chal pid fuel left done has_initial out).
Proof.
  induction fuel as [|fuel IH]; intros left done hi out log c r c' Hh; cbn [ConnSend.send_packets];
    (destruct (left <=? 0); [intros [= <- <-] _; exists []; by rewrite app_nil_r|]).
  { by intros [= <- <-]. }
  destruct (ConnSend.send_packet clock chal _ left pid _ hi c) as [[[[[t pr] n] tail]|e|] c1] eqn:Es.
  - destruct (send_packet_inv _ _ _ _ _ _ _ _ _ _ _ _ _ Es) as (sid & hdr & pn & w & _ & Hs).
    assert (exists dq, get_space_id t pid c = Ok sid /\ ConnSend.packet_header t pid sid c = Ok (hdr, pn, dq)) as (dq & Hsid & Hhdr).
    { inversion Hs; subst. eauto. }
    assert (history c0 (log ++ [(sid, pn)]) c1) as Hh1 by (by eapply h_packet).
    destruct (_ || _); [intros [= <- <-] _; eauto|]. intros Hr Hp.
    destruct (IH _ _ _ _ _ _ _ _ Hh1 Hr Hp) as (log' & Hl). exists ((sid, pn) :: log'). by rewrite <- app_assoc in Hl.
  - assert (history c0 log c1) as Hh1 by (by eapply h_no_packet).
    intros Hr _. exists []. rewrite app_nil_r. by destruct e; injection Hr as <- <-.
  - by intros [= <- <-].
Qed.

(** A call of [send] is a sequence of stages. *)
Lemma send_history clock chal out c0 : extends c0 (ConnSend.send clock chal out).
Proof.
  unfold ConnSend.send. destruct (_ <? _); [by apply extends_pure|]. apply extends_bind; [by apply extends_pure|].
  intros c. destruct (_ || _); [by apply extends_pure|]. destruct (negb _); [by apply extends_pure|].
  apply extends_bind; [by apply extends_operation; constructor|]. intros _.
  apply extends_bind; [by apply extends_operation; constructor|]. intros _.
  apply extends_bind; [by apply extends_operation; constructor|]. intros pid.
  apply extends_bind; [by apply extends_pure|]. intros c1.
  apply extends_bind; [apply send_packets_history|]. intros [[[left done] hi] out1].
  destruct (_ =? _); [by apply extends_pure|]. apply extends_bind; [by apply extends_pure|].
  intros p. by apply extends_pure.
Qed.

(** ** Theorems *)

Lemma new_spaces_ok scid local remote addr_token conf server session generated initial_dcid resume now (c : Connection) :
  new scid local remote addr_token conf server session generated initial_dcid resume now = Ok c -> spaces_ok (spaces c).
Proof.
  unfold new. intros Hn.
  repeat (match type of Hn with (?m ≫= _) = _ => destruct m as [?| |]; [|done|done] end; cbn [mbind outcome_bind] in Hn).
  match type of Hn with context [initialize ?a ?b ?r ?d ?t ?i ?n ?c1] =>
    pose proof (ev_spaces _ _ (initialize_steps a b r d t i n c1)) as Hle;
    destruct (initialize a b r d t i n c1) as [[[]|e|] c2]; [|done|done] end.
  injection Hn as <-. apply (ss_ok _ _ Hle). cbn. intros k x. unfold PacketNumSpaceMap.new. cbn.
  rewrite !lookup_insert_Some, lookup_empty. intros [[<- <-]|(_ & [[<- <-]|(_ & [[<- <-]|(_ & [=])])])]; by split.
Qed.

(** A later packet of the same space has a larger number and so another nonce. *)
Definition number_grows (a b : SpaceId * Z) : Prop :=
  PacketNumSpaceMap.key a.1 = PacketNumSpaceMap.key b.1 ->
  a.2 < b.2 /\ forall iv cid_seq, len iv = NONCE_LEN -> build_nonce iv cid_seq a.2 <> build_nonce iv cid_seq b.2.

Lemma history_grows c0 log c : spaces_ok (spaces c0) -> history c0 log c ->
  spaces_ok (spaces c) /\ StronglySorted number_grows log /\ (forall s n, In (s, n) log -> is_u64 n /\ used s n c).
Proof.
  intros Hk0. induction 1 as [|A m log c _ IH Hm|???????? c t ??? c' sid hdr pn ? _ IH Hs Hsid Hhdr|????????? c' e _ IH Hs].
  - split_and!; [done|constructor|done].
  - destruct IH as (Hk & Hd & Hu). pose proof (operation_evolves _ _ Hm c) as Hev.
    split_and!; [by apply (ss_ok _ _ (ev_spaces _ _ Hev))|done|]. intros s n Hin. destruct (Hu _ _ Hin).
    split; [done|by eapply used_evolves; eauto].
  - destruct IH as (Hk & Hd & Hu). pose proof (steps_of (send_packet_steps _ _ _ _ _ _ _) Hs) as Hev.
    apply send_packet_inv in Hs as (sid' & hdr' & pn' & w & _ & Hs).
    assert (sid' = sid /\ pn' = pn) as [-> ->].
    { inversion Hs; subst. split; congruence. }
    destruct (sent_packet_number _ _ _ _ _ _ _ _ _ _ _ _ _ _ _ _ Hk Hs) as [Hnew Hused].
    assert (is_u64 pn) as Hpn.
    { apply packet_header_inv in Hhdr as (x & ? & ? & Hx & -> & _). apply (Hk _ _ Hx). }
    split_and!; [by apply (ss_ok _ _ (ev_spaces _ _ Hev))| |].
    + apply StronglySorted_snoc; [done|]. apply Forall_forall. intros [s n] Hin%list_elem_of_In Hkey. cbn in *.
      destruct (Hu _ _ Hin) as (Hn & x & Hx & Hlt). unfold PacketNumSpaceMap.get in Hx. rewrite Hkey in Hx.
      assert (n < pn).
      { destruct (Z.lt_ge_cases n pn); [done|]. destruct Hnew. exists x. split; [done|lia]. }
      split; [done|]. intros iv seq Hl. apply nonce_differs; [done..|lia].
    + intros s n [Hin|[[= <- <-]|[]]]%in_app_or; [|done]. destruct (Hu _ _ Hin).
      split; [done|by eapply used_evolves; eauto].
  - destruct IH as (Hk & Hd & Hu). pose proof (steps_of (send_packet_steps _ _ _ _ _ _ _) Hs) as Hev.
    split_and!; [by apply (ss_ok _ _ (ev_spaces _ _ Hev))|done|]. intros s n Hin. destruct (Hu _ _ Hin).
    split; [done|by eapply used_evolves; eauto].
Qed.

(** C5.  Packet numbers and nonces are never reused: over any history of a connection,
    starting when it is created, the packets sent in a packet number space have
    increasing numbers, and under one iv their nonces differ.  Every call of [send] is
    part of such a history. *)
Theorem packet_numbers_never_reused scid local remote addr_token conf server session generated initial_dcid resume now
    (c0 : Connection) log c :
  new scid local remote addr_token conf server session generated initial_dcid resume now = Ok c0 ->
  history c0 log c ->
  StronglySorted number_grows log /\
  forall clock chal out r c', ConnSend.send clock chal out c = (r, c') -> r <> Panic ->
    exists log', history c0 (log ++ log') c'.
Proof.
  intros Hn Hh. apply new_spaces_ok in Hn. split; [by apply (history_grows c0 log c)|].
  intros clock chal out r c'. by apply send_history.
Qed.


(** ** Closing *)

(** One call on the connection. *)
Definition called (c c' : Connection) : Prop :=
  (exists A (m : conn A), operation A m /\ c' = (m c).2) \/
  (exists clock chal out, c' = (ConnSend.send clock chal out c).2).

Lemma called_evolves c c' : rtc called c c' -> evolves c c'.
Proof.
  induction 1 as [|c1 c2 c3 Hc _ IH]; [reflexivity|]. etrans; [|done].
  destruct Hc as [(A & m & Hm & ->)|(clock & chal & out & ->)]; [by apply operation_evolves|apply send_steps].
Qed.

Lemma draining_evolves (c c' : Connection) : evolves c c' -> is_draining c || is_closed c = true -> is_draining c' || is_closed c' = true.
Proof.
  intros Hev [Hd|Hc]%orb_true_iff; apply orb_true_iff; [by apply (ev_draining _ _ Hev)|].
  right. by apply (ev_flags _ _ Hev).
Qed.

(** What a draining connection does until the period ends. *)
Definition unchanged_timers (c c' : Connection) : Prop := timers c' = timers c.
#[local] Instance unchanged_timers_preorder : PreOrder unchanged_timers.
Proof. unfold unchanged_timers. split; [by intros c|intros c1 c2 c3; congruence]. Qed.

Lemma update_path_timers pid f : steps unchanged_timers (update_path pid f : conn unit).
Proof. intros c. done. Qed.
Lemma on_recovery_timers {A} pid (f : cursor Error (@Recovery.Recovery C * PacketNumSpaceMap.PacketNumSpaceMap) A) :
  steps unchanged_timers (on_recovery pid f : conn A).
Proof. intros c. unfold on_recovery. repeat case_match; done. Qed.
Lemma mark_tickable_timers b : steps unchanged_timers (mark_tickable b : conn unit).
Proof. intros c. unfold mark_tickable. repeat case_match; done. Qed.
Lemma get_path_timers pid : steps unchanged_timers (get_path pid : conn _).
Proof. intros c. done. Qed.
#[local] Hint Resolve update_path_timers on_recovery_timers mark_tickable_timers get_path_timers : steps.
#[local] Hint Extern 3 (steps unchanged_timers (modify _)) => (apply steps_modify; intros; reflexivity) : steps.

Lemma on_timer_timers now t : steps unchanged_timers (ConnQuery.on_timer now t : conn unit).
Proof.
  destruct t; cbn [ConnQuery.on_timer]; unfold ConnQuery.loss_detection_timeout, insert_flag; steps.
  all: apply steps_modify; intros c; unfold unchanged_timers; repeat case_match; done.
Qed.

(** Once the draining timer expires, the connection is closed. *)
Lemma expire_draining now t l : t <= now -> In Draining l -> forall (c c' : Connection),
  TimerTable.get Draining (timers c) = Some t -> for_each (ConnQuery.expire now) l c = (Ok tt, c') -> is_closed c' = true.
Proof.
  intros Ht. induction l as [|x l IH]; [done|]. intros Hin c c' Hg Hf. cbn [for_each] in Hf. ainv Hf. destruct a.
  destruct (decide (x = Draining)) as [->|Hne].
  - assert (is_closed s = true) as Hs.
    { unfold ConnQuery.expire in E. ainv E. unfold TimerTable.is_expired in E. rewrite Hg in E.
      destruct (Z.leb_spec t now); [|lia]. injection E as <-. exact (contains_insert Closed (with_timers (TimerTable.stop Draining (timers c)) c)). }
    assert (evolves s c') as Hev.
    { refine (steps_of _ Hf). apply steps_for_each; [typeclasses eauto|apply expire_steps]. }
    by apply (ev_flags _ _ Hev).
  - destruct Hin as [Hx|Hin]; [done|]. apply (IH Hin s c'); [|done].
    unfold ConnQuery.expire in E. ainv E. destruct (TimerTable.is_expired x now (timers c)); [|by injection E as <-].
    ainv E. injection E0 as _ <-. apply (steps_of (on_timer_timers now x)) in E. unfold unchanged_timers in E.
    rewrite E. by etrans; [apply TimerTable.get_stop_ne|].
Qed.

(** C13.  Closing is final: a connection that is draining or closed stays so over all
    further calls.  It sends nothing, processes no packet and accepts no other close.
    While it drains its timeout is the draining timer, and the call of [on_timeout] at
    that time closes it. *)
Theorem draining_is_final (c c' : Connection) :
  is_draining c || is_closed c = true -> rtc called c c' ->
  is_draining c' || is_closed c' = true /\
  (forall clock chal out, ConnSend.send clock chal out c' =
     (Err (if len out <? MIN_CLIENT_INITIAL_LEN then BufferTooShort else Done), c')) /\
  (forall fuel clock buf info pid, ConnRecv.recv_packet (undec fuel clock) clock buf info pid c' = (Err Done, c')) /\
  (forall app err reason, close app err reason c' = (Err Done, c')) /\
  (forall t now c'', TimerTable.get Draining (timers c') = Some t -> is_closed c' = false ->
     ConnQuery.timeout now c' = (Ok (Some (Z.max 0 (t - now))), c') /\
     (t <= now -> ConnQuery.on_timeout now c' = (Ok tt, c'') -> is_closed c'' = true)).
Proof.
  intros Hd Hc. apply called_evolves in Hc. pose proof (draining_evolves _ _ Hc Hd) as Hd'. split; [done|]. split_and!.
  - intros clock chal out. unfold ConnSend.send. destruct (_ <? _); [done|]. unfold mbind, action_bind, get. by rewrite Hd'.
  - intros fuel clock buf info pid. unfold ConnRecv.recv_packet. destruct (bool_decide _); [done|]. unfold mbind, action_bind, get.
    by rewrite <- orb_assoc, Hd', orb_true_r.
  - intros app err reason. unfold close. unfold mbind, action_bind, get. by rewrite orb_comm, Hd'.
  - intros t now c'' Ht Hcl. split.
    + unfold ConnQuery.timeout. unfold mbind, action_bind, get. rewrite Hcl. unfold is_draining. rewrite Ht. cbn.
      unfold mret, action_ret. do 3 f_equal. destruct (Z.leb_spec t now); lia.
    + intros Hnow. apply (expire_draining now t); [done|by cbn; tauto|done].
Qed.

(** ** The idle timer *)

Lemma drop_space_state_timers sid now : steps unchanged_timers (drop_space_state sid now : conn unit).
Proof. unfold drop_space_state. steps. Qed.
#[local] Hint Resolve drop_space_state_timers : steps.

(** C39.  Sending restarts the idle timer at most once in a connection: after the first
    ack-eliciting packet, whatever is sent or received, the step that restarts the
    timer for a sent packet leaves all timers alone. *)
Theorem idle_timer_restarted_once (c c1 c2 c3 : Connection) t clock t' clock' r :
  ConnSend.after_sent t true clock c = (Ok tt, c1) -> rtc called c1 c2 ->
  ConnSend.after_sent t' true clock' c2 = (r, c3) -> timers c3 = timers c2.
Proof.
  intros H01 H12 H23.
  assert (contains SentAckElicitingSinceRecvPkt c1 = true) as Hf.
  { unfold ConnSend.after_sent in H01. do 4 ainv H01. cbn in H01. injection H01 as <-. apply contains_insert. }
  apply called_evolves in H12. apply (ev_flags _ _ H12) in Hf; [|done]. revert H23.
  unfold ConnSend.after_sent. set (m := fun b : bool => if b then drop_space_state SpaceInitial clock' else mret tt : conn unit).
  unfold mbind at 1, action_bind at 1, get at 1. fold (m (negb (is_server c2) && bool_decide (t' = Handshake))).
  set (b := negb _ && _). pose proof (ev_flags _ _ ((ltac:(unfold m; steps) : steps evolves (m b)) c2) SentAckElicitingSinceRecvPkt eq_refl Hf) as Hf'.
  pose proof ((ltac:(unfold m; steps) : steps unchanged_timers (m b)) c2) as Ht.
  unfold mbind, action_bind, get. destruct (m b c2) as [[[]|e|] c4]; cbn [snd] in *; [|by intros [= <- <-]..].
  rewrite Hf'. cbn. by intros [= <- <-].
Qed.

(** ** Running histories *)

(** The space and the number of the packet a call of [send_packet] sends. *)
Definition sends_number (clock : Instant) (chal out : list Z) (left pid : Z) (first has_initial : bool) (c : Connection)
  : option (SpaceId * Z) :=
  match ConnSend.send_packet clock chal out left pid first has_initial c with
  | (Ok (t, _, _, _), _) =>
      match get_space_id t pid c with
      | Ok sid => match ConnSend.packet_header t pid sid c with Ok (_, n, _) => Some (sid, n) | _ => None end
      | _ => None
      end
  | _ => None
  end.

Lemma h_packet_run c0 log clock chal out left pid first has_initial (c : Connection) e :
  history c0 log c -> sends_number clock chal out left pid first has_initial c = Some e ->
  history c0 (log ++ [e]) (ConnSend.send_packet clock chal out left pid first has_initial c).2.
Proof.
  unfold sends_number. intros Hh. destruct (ConnSend.send_packet _ _ _ _ _ _ _ c) as [[[[[t pr] n] o]| |] c'] eqn:Es; try done.
  destruct (get_space_id t pid c) as [sid| |] eqn:Esid; try done.
  destruct (ConnSend.packet_header t pid sid c) as [[[hdr pn] dq]| |] eqn:Eh; try done.
  intros [= <-]. by eapply h_packet.
Qed.

End History.

(** ** Examples *)

(** A client starts its handshake, and sends a probe when nothing comes back. *)
Lemma packet_numbers_never_reused_witness : exists log c,
  history sample_client log c /\ log = [(SpaceInitial, 0); (SpaceInitial, 1)] /\ StronglySorted number_grows log.
Proof.
  assert (exists c, history sample_client [(SpaceInitial, 0); (SpaceInitial, 1)] c) as [c Hc].
  { eexists. refine (h_packet_run _ [(SpaceInitial, 0)] 1000000000 (repeat 7 8) buffer 1200 0 true false _ _ _ _).
    - refine (h_operation _ _ _ _ _ _ (op_on_timeout 1000000000)).
      refine (h_operation _ _ _ _ _ _ (op_timeout 1000000)).
      refine (h_packet_run _ [] 1000000 (repeat 7 8) buffer 1200 0 true false _ _ _ _).
      + refine (h_operation _ _ _ _ _ (h_start _) op_initiate_handshake).
      + evaluate.
    - evaluate. }
  exists [(SpaceInitial, 0); (SpaceInitial, 1)], c. split_and!; [done|done|].
  exact (proj1 (packet_numbers_never_reused client_cid client_addr server_addr None sample_conf false
    (Ok (mkSampleTls false 0 [] [] None)) 0 first_dcid None 0 sample_client _ c sample_client_new Hc)).
Defined.


(** Two ack-eliciting packets of a client. *)
Lemma idle_timer_restarted_once_witness :
  let c1 := (ConnSend.after_sent Initial true 1000000 sample_client).2 in
  timers (ConnSend.after_sent Initial true 2000000 c1).2 = timers c1.
Proof.
  intros c1. assert ((ConnSend.after_sent Initial true 1000000 sample_client).1 = Ok tt) as E by evaluate.
  refine (idle_timer_restarted_once sample_client c1 c1 _ Initial 1000000 Initial 2000000 _ _ _ _).
  - rewrite <- E. apply surjective_pairing.
  - reflexivity.
  - apply surjective_pairing.
Defined.

(** A client that got a stateless reset. *)
Lemma draining_is_final_witness :
  is_draining (reset 1000000 sample_client).2 = true /\
  ConnSend.send 2000000 [] buffer (reset 1000000 sample_client).2 = (Err Done, (reset 1000000 sample_client).2).
Proof.
  assert (is_draining (reset 1000000 sample_client).2 = true) as Hd by evaluate. split; [done|].
  apply (draining_is_final (reset 1000000 sample_client).2 _); [by rewrite Hd|reflexivity].
Defined.
