(* ===== verification/ConnPayload.v ===== *)
(** * The payload of a packet

    What the frame writers of [ConnSend] put into the buffer: the encodings of the
    frames they record, one after the other.  The data of a CRYPTO or STREAM frame
    is written but not recorded. *)

From stdpp Require Import strings gmap.
From S2P Require Import Prelude.
From S2P Require Import Error.
From S2P Require Import Time.
From S2P Require Import Codec.
From S2P Require Import Wire.
From S2P Require Import Ranges.
From S2P Require Import SendBuf.
From S2P Require Import Stream.
From S2P Require Import StreamMap.
From S2P Require Import ConnectionId.
From S2P Require Import PacketNum.
From S2P Require Import Packet.
From S2P Require Import Protect.
From S2P Require Import Frame.
From S2P Require Import FrameProps.
From S2P Require Import Cid.
From S2P Require Import Rtt.
From S2P Require Import Space.
From S2P Require Import Congestion.
From S2P Require Import Recovery.
From S2P Require Import Pmtu.
From S2P Require Import Path.
From S2P Require Import Timers.
From S2P Require Import Tls.
From S2P Require Import Scheduler.

From S2P Require Import Steps.
From S2P Require Import Connection.
From S2P Require Import ConnRecv.
From S2P Require Import ConnSend.

Import Connection.

(** ** Steps from some states *)

Definition steps_from {E S A} (P : S -> Prop) (R : S -> S -> Prop) (m : action E S A) : Prop := forall s, P s -> R s (m s).2.

Lemma steps_from_bind {E S A B} (P : S -> Prop) (R : S -> S -> Prop) `{!PreOrder R} (m : action E S A) (k : A -> action E S B) :
  steps (fun s s' => P s -> R s s' /\ P s') m -> (forall a, steps_from P R (k a)) -> steps_from P R (m ≫= k).
Proof.
  intros Hm Hk s Hs. unfold mbind, action_bind. specialize (Hm s Hs). destruct (m s) as [[a|e|] s']; cbn in *; try tauto.
  destruct Hm as [Hm Hs']. etrans; [exact Hm|by apply Hk].
Qed.

Lemma steps_from_all {E S A} (P : S -> Prop) (R : S -> S -> Prop) (m : action E S A) : steps R m -> steps_from P R m.
Proof. intros Hm s _. apply Hm. Qed.

(** The value got is the state. *)
Lemma steps_from_get {E S A} (P : S -> Prop) (R : S -> S -> Prop) (k : S -> action E S A) :
  (forall s, P s -> R s (k s s).2) -> steps_from P R (get ≫= k).
Proof. intros Hk s. apply Hk. Qed.

Lemma steps_from_lift {E S A B} (P : S -> Prop) (R : S -> S -> Prop) `{!PreOrder R} (m : outcome E A) (k : A -> action E S B) :
  (forall a, m = Ok a -> steps_from P R (k a)) -> steps_from P R (lift m ≫= k).
Proof. intros Hk s Hs. unfold lift, mbind, action_bind. destruct m; [by apply Hk|apply steps_refl, _..]. Qed.

Lemma steps_bind_lift {E S A B} (R : S -> S -> Prop) `{!PreOrder R} (m : outcome E A) (k : A -> action E S B) :
  (forall a, m = Ok a -> steps R (k a)) -> steps R (lift m ≫= k).
Proof. intros Hk s. unfold lift, mbind, action_bind. destruct m; [by apply Hk|apply steps_refl, _..]. Qed.

(** ** Recorded and transmitted frames *)

(** [g] is the recorded frame [f] with its data. *)
Definition carries (f g : Frame) : Prop :=
  match f with
  | Frame.Crypto o l _ => exists d, g = Frame.Crypto o l d
  | Frame.Stream id o l fin _ => exists d, g = Frame.Stream id o l fin d
  | _ => g = f
  end.

(** The limits of the protocol, for a frame whose data is not recorded. *)
Definition recorded_ok (f : Frame) : Prop :=
  match f with
  | Frame.Crypto o l _ => is_vint o /\ l < 16384
  | Frame.Stream id o l _ _ => is_vint id /\ is_vint o /\ l < 16384 /\ o + l <= VINT_MAX
  | _ => frame_ok f
  end.

Definition frames_bytes (gs : list Frame) : list Z := concat (map frame_bytes gs).

Lemma frames_bytes_app gs gs' : frames_bytes (gs ++ gs') = frames_bytes gs ++ frames_bytes gs'.
Proof. unfold frames_bytes. by rewrite map_app, concat_app. Qed.
Lemma frames_bytes_one g : frames_bytes [g] = frame_bytes g.
Proof. apply app_nil_r. Qed.

(** A frame the packet may carry.  The writers do not look at the packet type of
    0-RTT packets. *)
Definition allowed (t : PacketType) (f : Frame) : Prop := t <> ZeroRTT -> validate_frame t f = true.

(** The frames recorded, the bytes written and the buffer. *)
Definition progress : Type := list Frame * Z * list Z.

(** The bytes written are those of the frames recorded.  [limit] is within the buffer. *)
Definition fills (t : PacketType) (limit : Z) (p p' : progress) : Prop :=
  let '(fs0, w0, b0) := p in
  let '(fs1, w1, b1) := p' in
  exists fs, fs1 = fs0 ++ fs /\ Forall (allowed t) fs /\
    (Forall recorded_ok fs -> 0 <= w0 -> limit <= len b0 ->
     exists gs, Forall2 carries fs gs /\ Forall frame_ok gs /\
       w1 = w0 + len (frames_bytes gs) /\ len b1 = len b0 /\ (fs = [] \/ w1 <= len b0) /\
       ztake w1 b1 = ztake w0 b0 ++ frames_bytes gs).

#[global] Arguments fills : simpl never.

#[global] Instance fills_preorder t limit : PreOrder (fills t limit).
Proof.
  split.
  - intros [[fs w] b]. exists []. rewrite app_nil_r. split_and!; [done|constructor|]. intros _ _ _. exists [].
    cbn. rewrite app_nil_r. split_and!; auto. by rewrite (@len_nil Z), Z.add_0_r.
  - intros [[fs0 w0] b0] [[fs1 w1] b1] [[fs2 w2] b2] (fs & -> & Ha & H1) (fs' & -> & Ha' & H2).
    exists (fs ++ fs'). rewrite app_assoc. split_and!; [done|by apply Forall_app_2|]. intros [Ho Ho']%Forall_app Hw Hl.
    destruct (H1 Ho Hw Hl) as (gs & Hc & Hg & E1 & L1 & M1 & T1). pose proof (len_nonneg (frames_bytes gs)).
    destruct (H2 Ho' ltac:(lia) ltac:(lia)) as (gs' & Hc' & Hg' & E2 & L2 & M2 & T2).
    exists (gs ++ gs'). rewrite frames_bytes_app, len_app, app_assoc, <- T1. split_and!; auto using Forall2_app; [by apply Forall_app_2|lia..|].
    destruct M2 as [->|M2]; [|right; lia]. apply Forall2_nil_inv_l in Hc' as ->. rewrite app_nil_r.
    destruct M1 as [M1|M1]; [by left|right]. cbn in E2. rewrite (@len_nil Z) in E2. lia.
Qed.

(** One frame, over the rest of a slice that ends at [e]. *)
Lemma fills_one t limit fs w b f k out e :
  allowed t f ->
  (recorded_ok f -> 0 <= w -> limit <= len b -> exists g tail, carries f g /\ frame_ok g /\
     k = len (frame_bytes g) /\ w + k <= e <= len b /\ out = frame_bytes g ++ tail /\ len out = e - w) ->
  fills t limit (fs, w, b) (fs ++ [f], w + k, ztake w b ++ out ++ zdrop e b).
Proof.
  intros Ha H1. exists [f]. split_and!; [done|by constructor|]. intros Hr Hw Hl.
  apply Forall_cons_1 in Hr as [Hr _]. destruct (H1 Hr Hw Hl) as (g & tail & Hc & Hg & -> & He & -> & Ho).
  pose proof (len_nonneg (frame_bytes g)). rewrite len_app in Ho. exists [g]. rewrite frames_bytes_one.
  split_and!; auto; try by constructor.
  - rewrite !len_app, len_zdrop, len_ztake by lia. lia.
  - right. lia.
  - rewrite <- app_assoc, app_assoc. apply ztake_app. rewrite len_app, len_ztake; lia.
Qed.

Lemma recorded_frame f : recorded_ok f -> (forall o l d, f <> Frame.Crypto o l d) ->
  (forall id o l fin d, f <> Frame.Stream id o l fin d) -> frame_ok f /\ carries f f.
Proof. intros Hr Hc Hs. destruct f; try done; [by destruct (Hc offset length data)|by destruct (Hs stream_id offset length fin data)]. Qed.

(** [Frame::to_bytes] over the rest of the slice. *)
Lemma fills_frame t limit fs w b f n k out e :
  allowed t f -> (forall o l d, f <> Frame.Crypto o l d) -> (forall id o l fin d, f <> Frame.Stream id o l fin d) ->
  wire_len f = Ok n -> w + n <= e -> (limit <= len b -> e <= len b) ->
  (0 <= w <= e -> Frame.to_bytes f (ztake (e - w) (zdrop w b)) = Ok (k, out)) ->
  fills t limit (fs, w, b) (fs ++ [f], w + k, ztake w b ++ out ++ zdrop e b).
Proof.
  intros Ha Hc Hs Hn Hle He Hb. apply fills_one; [done|]. intros Hr Hw Hl.
  destruct (recorded_frame f Hr Hc Hs) as [Hf Hff]. pose proof (len_nonneg (frame_bytes f)) as H0.
  rewrite (wire_len_frame f Hf) in Hn. injection Hn as <-. specialize (Hb ltac:(lia)). specialize (He Hl). unfold Frame.to_bytes in Hb.
  rewrite (run_enc_spec _ _ _ (writes_frame f Hf)), len_ztake in Hb by (rewrite len_zdrop; lia).
  destruct (Z.leb_spec (len (frame_bytes f)) (e - w)); [|lia]. injection Hb as <- <-.
  exists f. eexists. split_and!; try done; try lia.
  rewrite len_app, len_zdrop; rewrite len_ztake; rewrite ?len_zdrop; lia.
Qed.

(** ** The frames of the connection ids *)

Section Cids.
Context (t : PacketType).

Definition cid_progress (w : CidControl.Writing) : progress := (CidControl.frames w, CidControl.written w, CidControl.out w).
Definition cid_fills (w w' : CidControl.Writing) : Prop := fills t 0 (cid_progress w) (cid_progress w').
#[global] Instance cid_fills_preorder : PreOrder cid_fills := preorder_on cid_progress (fills t 0).

Lemma cid_same w w' : cid_progress w' = cid_progress w -> cid_fills w w'.
Proof. unfold cid_fills. intros ->. reflexivity. Qed.

Lemma cid_write_frame f :
  allowed t f -> (forall o l d, f <> Frame.Crypto o l d) -> (forall id o l fin d, f <> Frame.Stream id o l fin d) ->
  steps cid_fills (CidControl.write_frame_to_packet f).
Proof.
  intros Ha Hc Hs w. unfold CidControl.write_frame_to_packet. destruct (wire_len f) as [n| |] eqn:En; try reflexivity.
  destruct (Z.ltb_spec (len (CidControl.out w)) (CidControl.written w + n)); [reflexivity|].
  destruct (to_bytes f _) as [[k bs]| |] eqn:Eb; try reflexivity. unfold cid_fills, cid_progress. cbn.
  replace (ztake (CidControl.written w) (CidControl.out w) ++ bs) with
    (ztake (CidControl.written w) (CidControl.out w) ++ bs ++ zdrop (len (CidControl.out w)) (CidControl.out w))
    by (by rewrite zdrop_over, app_nil_r).
  eapply fills_frame; [done..|]. intros Hw. rewrite ztake_over; [done|]. rewrite len_zdrop; lia.
Qed.

Lemma while_some_fills next turn fuel : (forall seq, steps cid_fills (turn seq)) -> forall w r w',
  CidControl.while_some next turn fuel w = Some (r, w') -> cid_fills w w'.
Proof.
  intros Ht. induction fuel as [|fuel IH]; intros w r w'; cbn [CidControl.while_some]; [done|].
  destruct (next w) as [seq|]; [|intros [= <- <-]; reflexivity].
  destruct (turn seq w) as [[]w1] eqn:E; [intros Hw; etrans; [exact (steps_of (Ht seq) E)|by eapply IH]|..];
    intros [= <- <-]; exact (steps_of (Ht seq) E).
Qed.

Lemma advertise_one_fills seq : t = OneRTT -> steps cid_fills (CidControl.advertise_one seq).
Proof.
  intros Et. unfold CidControl.advertise_one. apply steps_bind_get. intros w. unfold lift, mbind, action_bind.
  destruct (ConnectionIdMgr.create_new_connection_id_frame seq (CidControl.cids w)) as [f| |] eqn:E; try reflexivity.
  assert (allowed t f /\ (forall o l d, f <> Frame.Crypto o l d) /\ forall id o l fin d, f <> Frame.Stream id o l fin d)
    as (Ha & Hc & Hs).
  { unfold ConnectionIdMgr.create_new_connection_id_frame in E. destruct (ConnectionIdDeque.get _ _) as [[]|]; [|done].
    destruct (Cid.reset_token _); [|done].
    injection E as <-. subst t. split_and!; by intros. }
  pose proof (cid_write_frame f Ha Hc Hs w) as Hw. by destruct (CidControl.write_frame_to_packet f w) as [[] w1].
Qed.

Lemma note_retired_progress seq w : cid_progress (CidControl.note_retired seq w) = cid_progress w.
Proof. unfold CidControl.note_retired. by repeat case_match. Qed.

Lemma retire_one_fills d seq : t = OneRTT -> steps cid_fills (CidControl.retire_one d seq).
Proof.
  intros Et. unfold CidControl.retire_one. steps.
  - apply cid_write_frame; [by subst|done|done].
  - apply steps_modify. intros w. by apply cid_same.
  - apply steps_modify. intros w. by apply cid_same.
  - apply steps_modify. intros w. apply cid_same, note_retired_progress.
Qed.

Lemma cid_control_fills closing path fuel w r w' :
  CidControl.try_write_cid_control_frame t closing path fuel w = Some (r, w') -> cid_fills w w'.
Proof.
  unfold CidControl.try_write_cid_control_frame. destruct (bool_decide_reflect (t = OneRTT)) as [Et|Et]; [|by intros [= <- <-]].
  destruct closing; cbn [negb orb]; [by intros [= <- <-]|].
  destruct (CidControl.advertise_loop fuel w) as [[[] w1]|] eqn:E1; try done.
  2,3: intros [= <- <-]; eapply while_some_fills; [|exact E1]; intros; by apply advertise_one_fills.
  assert (cid_fills w w1) as H1 by (eapply while_some_fills; [|exact E1]; intros; by apply advertise_one_fills).
  destruct path as [[active d]| |]; [|by intros [= <- <-]..].
  destruct (negb _); [by intros [= <- <-]|]. intros H2. etrans; [exact H1|].
  eapply while_some_fills; [|exact H2]. intros. by apply retire_one_fills.
Qed.

End Cids.

(** ** The frame writers *)

Section Writers.
Context {C : Type} `{CongestionController C} `{Platform C} {T : Type} `{TlsBackend T} `{CryptoBackend}.

Abbreviation Connection := (@Connection C T).
Abbreviation conn := (action Error Connection).
Abbreviation Sending := (@ConnSend.Sending C T).
Abbreviation sending := (action Error Sending).

Context (clock : Instant) (chal : list Z) (t : PacketType) (pid limit : Z).

Definition written_frames (s : Sending) : progress :=
  (FrameWriteStatus.frames (ConnSend.st s), ConnSend.written s, ConnSend.buf s).
Definition writes_frames (s s' : Sending) : Prop := fills t limit (written_frames s) (written_frames s').
#[global] Instance writes_frames_preorder : PreOrder writes_frames := preorder_on written_frames (fills t limit).

#[local] Arguments writes_frames : simpl never.

Lemma written_same s s' : written_frames s' = written_frames s -> writes_frames s s'.
Proof. unfold writes_frames. intros ->. reflexivity. Qed.

Lemma on_conn_writes {A} (m : conn A) : steps writes_frames (ConnSend.on_conn m).
Proof. intros s. unfold ConnSend.on_conn, zoom. destruct (m _). by apply written_same. Qed.
Lemma get_streams_writes : steps writes_frames (ConnSend.get_streams : sending _).
Proof. intros s. reflexivity. Qed.
Lemma modify_streams_writes f : steps writes_frames (ConnSend.modify_streams f : sending unit).
Proof. apply on_conn_writes. Qed.
Lemma elicit_writes : steps writes_frames (ConnSend.elicit : sending unit).
Proof. intros s. by apply written_same. Qed.
#[local] Hint Resolve on_conn_writes get_streams_writes modify_streams_writes elicit_writes : steps.
#[local] Hint Extern 3 (steps writes_frames (modify _)) => (apply steps_modify; intros; by apply written_same) : steps.
Lemma modify_space_writes sid f : steps writes_frames (ConnSend.modify_space sid f : sending unit).
Proof. unfold ConnSend.modify_space. steps. Qed.
#[local] Hint Resolve modify_space_writes : steps.

(** Frames other than CRYPTO and STREAM, which are written whole. *)
Definition plain (f : Frame) : bool := match f with Frame.Crypto _ _ _ | Frame.Stream _ _ _ _ _ => false | _ => true end.

Lemma write_frame_writes e f (s : Sending) : allowed t f -> plain f = true ->
  e = limit \/ e = len (ConnSend.buf s) -> writes_frames s (ConnSend.write_frame_to_packet e f s).2.
Proof.
  intros Ha Hp He. unfold ConnSend.write_frame_to_packet. arun. destruct (wire_len f) as [n| |] eqn:En; try reflexivity. cbn [fst snd].
  destruct (Z.ltb_spec e (ConnSend.written s + n)); [reflexivity|].
  unfold mbind, action_bind, lift. destruct (to_bytes f _) as [[k out]| |] eqn:Eb; try reflexivity.
  unfold writes_frames, ConnSend.commit, modify, written_frames. cbn.
  eapply fills_frame; [done|by destruct f|by destruct f|done|done|intros; lia|]. intros _. exact Eb.
Qed.

Lemma write_frame_fills f : allowed t f -> plain f = true ->
  steps writes_frames (ConnSend.write_frame_to_packet limit f : sending unit).
Proof. intros Ha Hp s. apply write_frame_writes; auto. Qed.

(** Solve [allowed t f] from the guards of the writer. *)
Lemma allowed_1rtt f : t = OneRTT -> allowed t f.
Proof. intros -> _. by destruct f. Qed.
Lemma allowed_anywhere f : match f with Frame.Ack _ _ _ | Paddings _ | Ping _ | ConnectionClose _ _ _ | Frame.Crypto _ _ _ => true | _ => false end = true ->
  allowed t f.
Proof. unfold allowed. intros Hf Ht. destruct f; try discriminate Hf; by destruct t. Qed.
Lemma is_1rtt_true : ConnSend.is_1rtt t = true -> t = OneRTT.
Proof. apply bool_decide_eq_true_1. Qed.
Lemma guarded_1rtt b : negb (ConnSend.is_1rtt t) || b = false -> t = OneRTT.
Proof. destruct (ConnSend.is_1rtt t) eqn:E; [|done]. intros _. by apply is_1rtt_true. Qed.
#[local] Hint Resolve write_frame_fills allowed_1rtt : steps.
#[local] Hint Extern 1 (allowed _ _) => (apply allowed_anywhere; reflexivity) : steps.
#[local] Hint Extern 1 (plain _ = true) => reflexivity : steps.

Lemma write_eliciting_fills f : allowed t f -> plain f = true ->
  steps writes_frames (ConnSend.write_eliciting limit f : sending unit).
Proof. intros. unfold ConnSend.write_eliciting. steps. Qed.
#[local] Hint Resolve write_eliciting_fills : steps.

Lemma try_write_ack_frame_fills : steps writes_frames (ConnSend.try_write_ack_frame clock t pid limit : sending unit).
Proof. unfold ConnSend.try_write_ack_frame. steps. Qed.

(** An error is reported with a frame the packet may carry. *)
Lemma close_frame_ok e f : ConnSend.close_frame t e = Some f -> allowed t f /\ plain f = true.
Proof.
  unfold ConnSend.close_frame. destruct (negb (is_app e)); [intros [= <-]; split; [by apply allowed_anywhere|done]|].
  destruct (_ || _) eqn:E; [|done]. intros [= <-]. split; [|done]. intros Ht.
  apply orb_true_iff in E as [E|E]; [apply is_1rtt_true in E|apply bool_decide_eq_true_1 in E]; by subst.
Qed.

Lemma try_write_close_frame_fills : steps writes_frames (ConnSend.try_write_close_frame clock t pid limit : sending unit).
Proof.
  unfold ConnSend.try_write_close_frame. steps.
  destruct (local_error _) as [e|]; [|done]. match goal with E : _ = Some _ |- _ => apply close_frame_ok in E as [] end. steps.
Qed.

(** A probe may take the whole buffer, whose length the PING frame leaves alone. *)
Lemma ping_keeps_len x (s : Sending) :
  len (ConnSend.buf (ConnSend.write_frame_to_packet (len (ConnSend.buf s)) (Ping x) s).2) = len (ConnSend.buf s).
Proof.
  unfold ConnSend.write_frame_to_packet. arun. set (b := ConnSend.buf s). destruct (Z.ltb_spec (len b) (ConnSend.written s + 1)); [done|].
  unfold Frame.to_bytes. rewrite (run_enc_spec _ _ _ (writes_frame (Ping x) I)). unfold ConnSend.rest. fold b.
  pose proof (len_nonneg b).
  assert (len (ztake (len b - ConnSend.written s) (zdrop (ConnSend.written s) b)) = len b - Z.max 0 (ConnSend.written s)) as Hl.
  { unfold len, ztake, zdrop. rewrite length_take, length_drop. unfold len in *. lia. }
  rewrite Hl. change (len (frame_bytes (Ping x))) with 1. destruct (Z.leb_spec 1 (len b - Z.max 0 (ConnSend.written s))); [|done].
  cbn. fold b. change (vb 1) with [1]. rewrite (zdrop_over (len b)), app_nil_r by lia. rewrite len_app, len_app, len_zdrop by lia. rewrite Hl.
  change (len [1]) with 1. unfold len, ztake. rewrite length_take. unfold len in *. lia.
Qed.

Lemma try_write_pmut_probe_frames_fills first : 
  steps writes_frames (ConnSend.try_write_pmut_probe_frames clock t pid first : sending unit).
Proof.
  unfold ConnSend.try_write_pmut_probe_frames. apply steps_bind_get. intros s.
  destruct (_ || _) eqn:E; [reflexivity|]. rewrite <- !orb_assoc in E. apply guarded_1rtt in E.
  set (P := fun s' : Sending => len (ConnSend.buf s') = len (ConnSend.buf s)).
  assert (forall A (m : conn A), steps (fun s s' => P s -> writes_frames s s' /\ P s') (ConnSend.on_conn m)) as Hc.
  { intros A m s1 H1'. split; [apply on_conn_writes|]. unfold ConnSend.on_conn, zoom. by destruct (m _). }
  assert (forall A (m : res A), steps (fun s s' => P s -> writes_frames s s' /\ P s') (lift m : sending A)) as Hl.
  { intros A m s1 H1'. split; [reflexivity|done]. }
  match goal with |- writes_frames s (?m s).2 => enough (steps_from P writes_frames m) as Hm by by apply Hm end.
  apply steps_from_bind; [typeclasses eauto|apply Hc|intros p].
  apply steps_from_bind; [typeclasses eauto|apply Hl|intros [size d]].
  apply steps_from_bind; [typeclasses eauto|apply Hc|intros _].
  destruct (_ || _); [apply steps_from_all, steps_ret; typeclasses eauto|].
  apply steps_from_bind; [typeclasses eauto| |intros _].
  { intros s1 E1. unfold P in E1. rewrite <- E1. split; [apply write_frame_writes; auto using allowed_1rtt|].
    unfold P. by rewrite ping_keeps_len. }
  do 2 (apply steps_from_bind; [typeclasses eauto|apply Hl|intros ?]).
  intros s1 E1. unfold P in E1. rewrite <- E1. unfold mbind at 1, action_bind at 1.
  match goal with |- context [ConnSend.write_frame_to_packet ?e ?f s1] =>
    pose proof (write_frame_writes e f s1 (allowed_1rtt _ E) eq_refl (or_intror eq_refl)) as Hw;
    destruct (ConnSend.write_frame_to_packet e f s1) as [[[]| |] s2] end; exact Hw.
Qed.

Lemma unguarded_1rtt : negb (ConnSend.is_1rtt t) = false -> t = OneRTT.
Proof. intros E. apply is_1rtt_true. by destruct (ConnSend.is_1rtt t). Qed.
#[local] Hint Extern 2 (t = OneRTT) =>
  (match goal with
   | E : _ || _ = false |- _ => rewrite <- ?orb_assoc in E; exact (guarded_1rtt _ E)
   | E : negb _ = false |- _ => exact (unguarded_1rtt E)
   | E : _ && _ = true |- _ => rewrite <- ?andb_assoc in E; exact (is_1rtt_true (proj1 (andb_prop _ _ E)))
   end) : steps.

Lemma write_path_responses_fills fuel : t = OneRTT -> steps writes_frames (ConnSend.write_path_responses pid limit fuel : sending unit).
Proof. intros Et. induction fuel; cbn [ConnSend.write_path_responses]; steps. Qed.
#[local] Hint Resolve write_path_responses_fills : steps.

Lemma try_write_path_validation_frames_fills :
  steps writes_frames (ConnSend.try_write_path_validation_frames chal t pid limit : sending unit).
Proof. unfold ConnSend.try_write_path_validation_frames. steps. Qed.

Lemma write_handshake_done_fills : steps writes_frames (ConnSend.write_handshake_done t pid limit : sending unit).
Proof. unfold ConnSend.write_handshake_done. steps. Qed.

Lemma try_write_new_token_frame_fills : steps writes_frames (ConnSend.try_write_new_token_frame t pid limit : sending unit).
Proof. unfold ConnSend.try_write_new_token_frame. steps. Qed.

Lemma try_write_stream_control_frames_fills :
  steps writes_frames (ConnSend.try_write_stream_control_frames clock t pid limit : sending unit).
Proof.
  unfold ConnSend.try_write_stream_control_frames, ConnSend.write_max_streams, ConnSend.write_data_blocked,
    ConnSend.write_max_stream_data, ConnSend.write_max_data, ConnSend.write_streams_blocked. steps.
Qed.

Lemma write_datagrams_fills m q : t = OneRTT -> steps writes_frames (ConnSend.write_datagrams limit m q : sending unit).
Proof. intros Et. induction q; cbn [ConnSend.write_datagrams]; steps. Qed.
#[local] Hint Resolve write_datagrams_fills : steps.

Lemma try_write_datagram_frames_fills : steps writes_frames (ConnSend.try_write_datagram_frames t limit : sending unit).
Proof. unfold ConnSend.try_write_datagram_frames. steps. Qed.

Lemma write_ping_fills : steps writes_frames (ConnSend.write_ping pid limit : sending unit).
Proof. unfold ConnSend.write_ping. steps. Qed.

Lemma pad_packet_fills has_initial : steps writes_frames (ConnSend.pad_packet t pid limit has_initial : sending unit).
Proof. unfold ConnSend.pad_packet, ConnSend.write_paddings. steps. Qed.

(** The connection-id frames go to the slice that ends at [limit]. *)
Lemma fills_slice fs w b fs' w' o :
  fills t 0 (fs, w, ztake limit b) (fs', w', o) -> fills t limit (fs, w, b) (fs', w', o ++ zdrop limit b).
Proof.
  intros (gs & -> & Ha & Hf). exists gs. split_and!; [done..|]. intros Hr Hw Hl.
  destruct (Hf Hr Hw (len_nonneg _)) as (hs & Hc & Hg & E & Lo & M & Et). exists hs.
  assert (len (ztake limit b) = Z.max 0 limit) as Lt by (unfold len, ztake in *; rewrite length_take; lia).
  assert (len (zdrop limit b) = len b - Z.max 0 limit) as Ld by (unfold len, zdrop in *; rewrite length_drop; lia).
  pose proof (len_nonneg (frames_bytes hs)). pose proof (len_nonneg b).
  assert (forall n l, n <= len l -> ztake n (l ++ zdrop limit b) = ztake n l) as Htl.
  { intros n l Hn. unfold ztake, len in *. apply take_app_le. lia. }
  assert (forall n, n <= Z.max 0 limit -> ztake n (ztake limit b) = ztake n b) as Htt.
  { intros n Hn. unfold ztake. rewrite take_take. f_equal. lia. }
  split_and!; [done..|rewrite len_app; lia|destruct M; [by left|right; lia]|].
  destruct (Z.le_gt_cases w' (Z.max 0 limit)) as [Hle|Hgt].
  - rewrite Htl by lia. rewrite Et, Htt by lia. done.
  - destruct M as [->|M]; [|lia]. apply Forall2_nil_inv_l in Hc as ->. cbn in *. rewrite (@len_nil Z), Z.add_0_r in E. subst w'.
    rewrite app_nil_r in *. rewrite (ztake_over w o), (ztake_over w (ztake limit b)) in Et by lia. subst o. by rewrite ztake_zdrop.
Qed.

Lemma try_write_cid_control_frame_fills : steps writes_frames (ConnSend.try_write_cid_control_frame t pid limit : sending unit).
Proof.
  intros s. unfold ConnSend.try_write_cid_control_frame.
  destruct (CidControl.try_write_cid_control_frame _ _ _ _ _) as [[r w]|] eqn:E; [|reflexivity].
  apply fills_slice. exact (cid_control_fills _ _ _ _ _ _ _ E).
Qed.

(** ** Frames with data *)

(** The header goes before the data that was already read into the buffer. *)
Lemma commit_data_fills hdr_len header hb bytes f g :
  allowed t f ->
  (recorded_ok f -> carries f g /\ frame_ok g /\ frame_bytes g = hb ++ bytes /\ writes header hb tt /\ len hb = hdr_len) ->
  steps_from (fun s => hdr_len + len bytes <= limit - ConnSend.written s) writes_frames
    (ConnSend.commit_data limit hdr_len header bytes f : sending unit).
Proof.
  intros Ha Hf s Hs. unfold ConnSend.commit_data. arun.
  destruct (run_enc header _) as [[u h]| |] eqn:E; try reflexivity. cbn. unfold writes_frames, written_frames. cbn.
  apply fills_one; [done|]. intros Hr Hw Hl. destruct (Hf Hr) as (Hc & Hg & Eg & Hh & Lh).
  pose proof (len_nonneg hb). pose proof (len_nonneg bytes).
  assert (len (ConnSend.rest limit s) = limit - ConnSend.written s) as Lr
    by (unfold ConnSend.rest; rewrite len_ztake; rewrite ?len_zdrop; lia).
  rewrite (run_enc_spec _ _ _ Hh), len_ztake in E by lia. destruct (Z.leb_spec (len hb) hdr_len); [|lia].
  injection E as _ <-. rewrite zdrop_over, app_nil_r by (rewrite len_ztake; lia).
  exists g, (zdrop (hdr_len + len bytes) (ConnSend.rest limit s)). rewrite Eg, !len_app, len_zdrop by lia.
  rewrite <- app_assoc. split_and!; try done; lia.
Qed.

Lemma crypto_data_fills off bytes hdr_len : crypto_header_wire_len off = Ok hdr_len ->
  steps_from (fun s => hdr_len + len bytes <= limit - ConnSend.written s) writes_frames
    (ConnSend.commit_data limit hdr_len (encode_crypto_header off (len bytes)) bytes (Frame.Crypto off (len bytes) []) : sending unit).
Proof.
  intros Hh. apply (commit_data_fills _ _ (vb 0x06 ++ vb off ++ varint_bytes 2 (len bytes)) _ _ (Frame.Crypto off (len bytes) bytes)).
  { by apply allowed_anywhere. }
  intros [Ho Hl]. pose proof (len_nonneg bytes). refine (conj _ (conj _ (conj _ (conj _ _)))); [by eexists|done|cbn; by rewrite <- !app_assoc|by apply writes_crypto_header|].
  unfold crypto_header_wire_len in Hh. rewrite encode_varint_len_ok in Hh by apply Ho. injection Hh as <-.
  rewrite !len_app, !len_vb, len_len2. change (varint_len 0x06) with 1. lia.
Qed.

Lemma stream_data_fills id off l fin data bytes hdr_len : (t <> ZeroRTT -> t = OneRTT) -> len bytes = l ->
  stream_header_wire_len id off = Ok hdr_len ->
  steps_from (fun s => hdr_len + len bytes <= limit - ConnSend.written s) writes_frames
    (ConnSend.commit_data limit hdr_len (encode_stream_header id off l fin) bytes
       (Frame.Stream id off (len bytes) fin data) : sending unit).
Proof.
  intros Ht <- Hh. apply (commit_data_fills _ _ (vb (if fin then 0x0f else 0x0e) ++ vb id ++ vb off ++ varint_bytes 2 (len bytes)) _ _
    (Frame.Stream id off (len bytes) fin bytes)).
  { intros E. by rewrite (Ht E). }
  intros (Hi & Ho & Hl & Hm). pose proof (len_nonneg bytes).
  refine (conj _ (conj _ (conj _ (conj _ _)))); [by eexists|done|cbn; by rewrite <- !app_assoc|by apply writes_stream_header|].
  unfold stream_header_wire_len in Hh. rewrite !encode_varint_len_ok in Hh by (apply Ho || apply Hi). injection Hh as <-.
  rewrite !len_app, !len_vb, len_len2. destruct fin; [change (varint_len 0x0f) with 1|change (varint_len 0x0e) with 1]; lia.
Qed.

Lemma copy_range_len fuel : forall r out b out' b',
  SendBuf.copy_range fuel r out b = Ok (out', b') -> len out' = len out + (end_ r - start r).
Proof.
  induction fuel as [|fuel IH]; intros r out b out' b'; cbn [SendBuf.copy_range]; [done|].
  destruct (Z.eqb_spec (start r) (end_ r)); [intros [= <- <-]; lia|].
  destruct (SendBuf.read_range r b) as [[bytes b1]| |]; [|done..]. cbn [mbind outcome_bind]. intros E%IH. cbn in E. rewrite len_app in E. lia.
Qed.

(** [SendBuf::read] fits into the room it is given. *)
Lemma read_loop_len fuel : forall cap next out b next' out' b', 0 <= cap ->
  SendBuf.read_loop fuel cap next out b = Ok (next', out', b') -> len out' <= len out + cap.
Proof.
  induction fuel as [|fuel IH]; intros cap next out b next' out' b' Hcap; cbn [SendBuf.read_loop]; [done|].
  destruct (_ && _); [|intros [= <- <- <-]; lia]. destruct (SendBuf.poll_transmit cap b) as [r b1].
  destruct (sub64 (end_ r) (start r)) as [n| |] eqn:En; [|done..]. cbn [mbind outcome_bind].
  destruct (SendBuf.copy_range _ r out b1) as [[out1 b2]| |] eqn:Ec; [|done..]. cbn [mbind outcome_bind].
  destruct (sub64 cap n) as [cap'| |] eqn:Ecap; [|done..]. cbn [mbind outcome_bind].
  apply sub64_inv in En as [-> _], Ecap as [-> ?]. apply copy_range_len in Ec. intros E%IH; lia.
Qed.

Lemma send_read_len cap b bytes fin b' : 0 <= cap -> SendBuf.read cap b = Ok (bytes, fin, b') -> len bytes <= cap.
Proof.
  unfold SendBuf.read. intros Hcap. destruct (SendBuf.read_loop _ _ _ _ _) as [[[next out] b1]| |] eqn:E; [|done..].
  intros [= <- _ _]. apply read_loop_len in E; [|done]. rewrite (@len_nil Z) in E. lia.
Qed.

(** Steps on the connection keep the room that is left. *)
Lemma from_conn {A B} (P : Z -> Prop) (m : conn A) (k : A -> sending B) :
  (forall a, steps_from (fun s => P (ConnSend.written s)) writes_frames (k a)) ->
  steps_from (fun s => P (ConnSend.written s)) writes_frames (ConnSend.on_conn m ≫= k).
Proof.
  intros Hk. apply steps_from_bind; [typeclasses eauto| |done]. intros s Hs. split; [apply on_conn_writes|].
  unfold ConnSend.on_conn, zoom. by destruct (m _).
Qed.

Lemma from_then {A B} (P : Sending -> Prop) (m : sending A) (k : A -> sending B) :
  steps_from P writes_frames m -> (forall a, steps writes_frames (k a)) -> steps_from P writes_frames (m ≫= k).
Proof.
  intros Hm Hk s Hs. unfold mbind, action_bind. specialize (Hm s Hs). destruct (m s) as [[a|e|] s']; cbn in *; try done.
  etrans; [done|apply Hk].
Qed.

Lemma from_weaken {A} (P Q : Sending -> Prop) (m : sending A) :
  (forall s, P s -> Q s) -> steps_from Q writes_frames m -> steps_from P writes_frames m.
Proof. intros Hq Hm s Hs. by apply Hm, Hq. Qed.

Lemma try_write_crypto_frame_fills : steps writes_frames (ConnSend.try_write_crypto_frame t pid limit : sending unit).
Proof.
  unfold ConnSend.try_write_crypto_frame. destruct (bool_decide _); [steps|]. apply steps_bind; [typeclasses eauto|steps|]. intros level.
  apply steps_bind_get. intros s.
  match goal with |- writes_frames s (?m s).2 =>
    enough (steps_from (fun s' => ConnSend.written s' = ConnSend.written s) writes_frames m) as Hm by by apply Hm end.
  apply steps_from_lift; [typeclasses eauto|]. intros x _. apply steps_from_lift; [typeclasses eauto|]. intros room [-> Hroom]%sub64_inv.
  destruct (negb _); [apply steps_from_all; steps|]. apply (from_conn (fun w => w = _)). intros p.
  destruct (negb _); [apply steps_from_all; steps|]. apply steps_from_lift; [typeclasses eauto|]. intros hdr_len Hh.
  destruct (Z.leb_spec (limit - ConnSend.written s) hdr_len); [apply steps_from_all; steps|].
  apply steps_from_lift; [typeclasses eauto|]. intros [[bytes fin] b] Hb. apply send_read_len in Hb; [|lia].
  apply (from_conn (fun w => w = _)). intros _. eapply from_weaken; [|by apply crypto_data_fills]. cbn. lia.
Qed.

Lemma write_streams_fills fuel : (t <> ZeroRTT -> t = OneRTT) -> steps writes_frames (ConnSend.write_streams limit fuel : sending unit).
Proof.
  intros Ht. induction fuel as [|fuel IH]; cbn [ConnSend.write_streams]; [steps|].
  apply steps_bind; [typeclasses eauto|steps|]. intros m0. destruct (StreamMap.peek_sendable m0) as [o m].
  apply steps_bind; [typeclasses eauto|steps|]. intros _. destruct o as [id|]; [|steps].
  destruct (StreamMap.streams m !! id) as [x|]; [|steps]. destruct (SendBuf.is_stopped _); [steps|].
  apply steps_bind_lift; [typeclasses eauto|]. intros hdr_len Hh. apply steps_bind_get. intros s.
  match goal with |- writes_frames s (?m s).2 =>
    enough (steps_from (fun s' => ConnSend.written s' = ConnSend.written s) writes_frames m) as Hm by by apply Hm end.
  apply steps_from_lift; [typeclasses eauto|]. intros room [-> Hroom]%sub64_inv.
  apply steps_from_lift; [typeclasses eauto|]. intros [[bytes fin] b] Hb. apply send_read_len in Hb; [|lia].
  apply (from_conn (fun w => w = _)). intros _. apply from_then; [|steps].
  eapply from_weaken; [|by apply stream_data_fills]. cbn. lia.
Qed.
#[local] Hint Resolve write_streams_fills : steps.

Lemma try_write_stream_frames_fills : steps writes_frames (ConnSend.try_write_stream_frames t pid limit : sending unit).
Proof.
  unfold ConnSend.try_write_stream_frames. steps. apply write_streams_fills. intros Ht.
  match goal with E : _ || _ = false |- _ => rewrite <- !orb_assoc in E; apply orb_false_iff in E as [E _] end.
  apply is_1rtt_true. destruct (ConnSend.is_1rtt t); [done|]. by rewrite bool_decide_false in * by done.
Qed.

Lemma write_buffered_frame_fills id off fin data b : t = OneRTT ->
  steps writes_frames (ConnSend.write_buffered_stream_frame_to_packet limit id off fin data b : sending Z).
Proof.
  intros Et. unfold ConnSend.write_buffered_stream_frame_to_packet. apply steps_bind_get. intros s.
  match goal with |- writes_frames s (?m s).2 =>
    enough (steps_from (fun s' => ConnSend.written s' = ConnSend.written s) writes_frames m) as Hm by by apply Hm end.
  apply steps_from_lift; [typeclasses eauto|]. intros room [-> Hroom]%sub64_inv.
  destruct (_ <=? _); [apply steps_from_all; steps|]. apply steps_from_lift; [typeclasses eauto|]. intros hdr_len Hh.
  apply steps_from_lift; [typeclasses eauto|]. intros n [-> Hn]%sub64_inv. apply from_then; [|steps].
  set (k := Z.min _ _). pose proof (len_nonneg data). assert (len (ztake k data) = k) as Lk by (apply len_ztake; lia).
  eapply from_weaken; [|by apply stream_data_fills]. cbn. intros s' ->. rewrite Lk. lia.
Qed.
#[local] Hint Resolve write_buffered_frame_fills : steps.

Lemma write_buffered_fills sid fuel : t = OneRTT -> steps writes_frames (ConnSend.write_buffered limit sid fuel : sending unit).
Proof. intros Et. induction fuel; cbn [ConnSend.write_buffered]; steps. Qed.
#[local] Hint Resolve write_buffered_fills : steps.

Lemma try_write_buffered_frames_fills : steps writes_frames (ConnSend.try_write_buffered_frames t pid limit : sending unit).
Proof. unfold ConnSend.try_write_buffered_frames. steps. Qed.

#[local] Hint Resolve try_write_ack_frame_fills try_write_close_frame_fills try_write_pmut_probe_frames_fills
  try_write_path_validation_frames_fills try_write_cid_control_frame_fills write_handshake_done_fills
  try_write_stream_control_frames_fills try_write_crypto_frame_fills try_write_buffered_frames_fills
  try_write_stream_frames_fills try_write_new_token_frame_fills try_write_datagram_frames_fills write_ping_fills
  pad_packet_fills : steps.

Lemma check_congestion_fills : steps writes_frames (ConnSend.check_congestion clock pid : sending unit).
Proof. unfold ConnSend.check_congestion. steps. Qed.
#[local] Hint Resolve check_congestion_fills : steps.

Lemma send_frames_fills first has_initial :
  steps writes_frames (ConnSend.send_frames clock chal t pid limit first has_initial : sending unit).
Proof. unfold ConnSend.send_frames. steps. Qed.

(** The payload is that of the frames recorded. *)
Lemma write_payload_fills first has_initial out offset w (c : Connection) out' w' c' :
  ConnSend.write_payload clock chal t pid limit first has_initial out offset w c = (Ok (out', w'), c') ->
  0 <= offset <= len out -> limit <= len out - offset -> FrameWriteStatus.written w = 0 -> FrameWriteStatus.frames w = [] ->
  Forall (allowed t) (FrameWriteStatus.frames w') /\
  (Forall recorded_ok (FrameWriteStatus.frames w') ->
   exists gs tail, Forall2 carries (FrameWriteStatus.frames w') gs /\ Forall frame_ok gs /\
     FrameWriteStatus.written w' = len (frames_bytes gs) /\ len out' = len out /\ 
     out' = ztake offset out ++ frames_bytes gs ++ tail).
Proof.
  unfold ConnSend.write_payload. intros Hp Ho Hl Hw Hf. pose proof (send_frames_fills first has_initial (ConnSend.mkSending c (zdrop offset out) w)) as Hs.
  destruct (ConnSend.send_frames _ _ _ _ _ _ _ _) as [r s]. cbn in Hs.
  assert (out' = ztake offset out ++ ConnSend.buf s /\ w' = ConnSend.st s) as [-> ->].
  { destruct r as [[]|[]|]; try done; [by injection Hp as <- <- _|]. destruct (0 <? _); [|done]. by injection Hp as <- <- _. }
  destruct Hs as (fs & Ef & Ha & Hg). cbn in Ef. rewrite Hf in Ef. cbn in Ef. rewrite Ef. split; [done|]. intros Hr.
  unfold ConnSend.written in Hg. cbn in Hg. rewrite Hw in Hg.
  destruct (Hg Hr) as (gs & Hc & Hok & Hwr & Lb & _ & Et); [lia|rewrite len_zdrop; lia|].
  exists gs, (zdrop (FrameWriteStatus.written (ConnSend.st s)) (ConnSend.buf s)). split_and!; auto.
  - rewrite len_app, len_ztake, Lb, len_zdrop by lia. lia.
  - rewrite <- Et at 1. by rewrite ztake_zdrop.
Qed.

End Writers.

(** ** What the peer reads *)

(** Padding is merged, and the size of a probe is not transmitted. *)
Definition prepend (g : Frame) (fs : list Frame) : list Frame :=
  match g, fs with
  | Paddings n, Paddings m :: fs => Paddings (n + m) :: fs
  | _, _ => g :: fs
  end.

Fixpoint transmitted (gs : list Frame) : list Frame :=
  match gs with
  | [] => []
  | g :: gs => prepend (decoded g) (transmitted gs)
  end.

Definition is_padding (f : Frame) : bool := match f with Paddings _ => true | _ => false end.

(** No padding follows padding. *)
Fixpoint separated (fs : list Frame) : Prop :=
  match fs with
  | f :: fs => (is_padding f = true -> forall g fs', fs = g :: fs' -> is_padding g = false) /\ separated fs
  | [] => True
  end.

Lemma decoded_frame f : frame_ok f -> frame_ok (decoded f) /\ frame_bytes (decoded f) = frame_bytes f /\ decoded (decoded f) = decoded f.
Proof. by destruct f. Qed.

Lemma transmitted_spec t gs : Forall frame_ok gs -> Forall (fun g => validate_frame t g = true) gs ->
  Forall (fun f => frame_ok f /\ validate_frame t f = true /\ decoded f = f) (transmitted gs) /\
  frames_bytes (transmitted gs) = frames_bytes gs /\ separated (transmitted gs).
Proof.
  induction gs as [|g gs IH]; intros Ho Hv; [by repeat constructor|].
  apply Forall_cons_1 in Ho as [Ho Hos], Hv as [Hv Hvs]. destruct (IH Hos Hvs) as (Hf & Hb & Hs). clear IH Hos Hvs.
  destruct (decoded_frame g Ho) as (Ho' & Hb' & Hd').
  assert (validate_frame t (decoded g) = true) as Hv' by (by destruct g, t).
  change (frames_bytes (g :: gs)) with (frame_bytes g ++ frames_bytes gs). rewrite <- Hb', <- Hb. cbn [transmitted].
  destruct (is_padding (decoded g)) eqn:Ep.
  - destruct (decoded g) as [n| | | | | | | | | | | | | | | | | | | | | | |]; try done.
    destruct (transmitted gs) as [|[m| | | | | | | | | | | | | | | | | | | | | | |] fs] eqn:Et;
      try (split; [by constructor|split; [done|split; [intros _ ? ? [=]; by subst|exact Hs]]]).
    apply Forall_cons_1 in Hf as [(Hm & _) Hf]. cbn in Ho', Hm. split; [|split].
    + constructor; [|done]. split_and!; [cbn; lia|by destruct t|done].
    + cbn. rewrite app_assoc, <- repeat_app, Z2Nat.inj_add by lia. done.
    + split; [intros _; by apply Hs|apply Hs].
  - assert (prepend (decoded g) (transmitted gs) = decoded g :: transmitted gs) as -> by by destruct (decoded g).
    split; [by constructor|split; [done|split; [by rewrite Ep|done]]].
Qed.

(** A frame that is not padding starts with its type, which is not zero. *)
Lemma frame_bytes_head f rest : frame_ok f -> is_padding f = false -> exists b bs, frame_bytes f ++ rest = b :: bs /\ b <> 0.
Proof.
  intros Hf Hp. destruct f; try done; try (by eexists _, _); try (destruct bidi; by eexists _, _); [|destruct fin; by eexists _, _].
  destruct Hf as (_ & Hs & _). cbn [frame_bytes]. destruct (rev (RangeSet.iter ack_ranges)) as [|r rs] eqn:E.
  { destruct Hs as (_ & Hne & _). destruct Hne. unfold RangeSet.iter in E.
    apply (f_equal (@rev Range)) in E. rewrite rev_involutive in E. by destruct (RangeSet.set ack_ranges). }
  destruct ecn_counts; by eexists _, _.
Qed.

Section Reading.
Context {C : Type} `{CongestionController C} `{Platform C} {T : Type} `{TlsBackend T} `{CryptoBackend}.
Abbreviation conn := (action Error (@Connection C T)).
Context (undec : conn unit) (clock : Instant).

(** The frames are handled one after the other. *)
Fixpoint handle_frames (fs : list Frame) (hdr : PacketHeader) (pid : Z) (sid : SpaceId) (now : Instant) (ack_eliciting probing : bool)
  : conn (bool * bool) :=
  match fs with
  | [] => mret (ack_eliciting, probing)
  | f :: fs =>
      ConnRecv.recv_frame undec clock f hdr pid sid now ;;
      handle_frames fs hdr pid sid now (ack_eliciting || Frame.ack_eliciting f) (probing && Frame.probing f)
  end.

Lemma recv_frames_separated hdr pid sid now fs : forall fuel ack probing (c : Connection),
  Forall (fun f => frame_ok f /\ validate_frame (Packet.pkt_type hdr) f = true /\ decoded f = f) fs -> separated fs ->
  (length (frames_bytes fs) < fuel)%nat ->
  ConnRecv.recv_frames undec clock fuel (frames_bytes fs) hdr pid sid now ack probing c = handle_frames fs hdr pid sid now ack probing c.
Proof.
  induction fs as [|f fs IH]; intros fuel ack probing c Hf Hs Hl; [by destruct fuel|].
  apply Forall_cons_1 in Hf as [(Hok & Hv & Hd) Hf]. destruct Hs as [Hp Hs]. change (frames_bytes (f :: fs)) with (frame_bytes f ++ frames_bytes fs) in *.
  assert (forall n, f = Paddings n -> head (frames_bytes fs) <> Some 0) as Hh.
  { intros n ->. destruct fs as [|g fs]; [done|]. apply Forall_cons_1 in Hf as [(Hg & _) _].
    destruct (frame_bytes_head g (frames_bytes fs) Hg (Hp eq_refl _ _ eq_refl)) as (b & bs & E & Hb).
    change (frames_bytes (g :: fs)) with (frame_bytes g ++ frames_bytes fs). rewrite E. cbn. congruence. }
  assert (exists b bs, frame_bytes f = b :: bs) as (b & bs & E).
  { destruct (is_padding f) eqn:Ep.
    - destruct f as [n| | | | | | | | | | | | | | | | | | | | | | |]; try done. cbn in Hok |- *. destruct (Z.to_nat n) eqn:En; [lia|]. by eexists _, _.
    - destruct (frame_bytes_head f [] Hok Ep) as (b & bs & E & _). rewrite app_nil_r in E. eauto. }
  assert (Frame.from_bytes (frame_bytes f ++ frames_bytes fs) (Packet.pkt_type hdr) = Ok (f, len (frame_bytes f))) as Ef.
  { unfold Frame.from_bytes. rewrite reads_frame by done. rewrite Hd, Hv. cbn. rewrite len_app. do 2 f_equal. lia. }
  destruct fuel as [|fuel]; [lia|]. rewrite length_app, E in Hl. rewrite E in Ef. rewrite E. cbn [app ConnRecv.recv_frames handle_frames].
  change (b :: bs ++ frames_bytes fs) with ((b :: bs) ++ frames_bytes fs). rewrite Ef.
  unfold lift, mbind, action_bind. cbv beta iota. rewrite zdrop_app_len. destruct (ConnRecv.recv_frame undec clock f hdr pid sid now c) as [[[]| |] c1]; [|done..]. apply IH; [done..|]. cbn in Hl. lia.
Qed.

Lemma recv_frames_transmitted hdr pid sid now gs fuel ack probing (c : Connection) :
  Forall frame_ok gs -> Forall (fun g => validate_frame (Packet.pkt_type hdr) g = true) gs ->
  (length (frames_bytes gs) < fuel)%nat ->
  ConnRecv.recv_frames undec clock fuel (frames_bytes gs) hdr pid sid now ack probing c
  = handle_frames (transmitted gs) hdr pid sid now ack probing c.
Proof.
  intros Ho Hv Hl. destruct (transmitted_spec _ _ Ho Hv) as (Hf & Hb & Hs). rewrite <- Hb in *. by apply recv_frames_separated.
Qed.

End Reading.
