(* ===== verification/ConnDeliver.v ===== *)
(** * From one endpoint to the other

    A packet that [send_packet] has built, on the other side: the receiver parses the
    header, removes the protection and reads exactly the frames that the sender
    has recorded. *)

From stdpp Require Import strings gmap.
From S2P Require Import Prelude.
From S2P Require Import Error.
From S2P Require Import Time.
From S2P Require Import Codec.
From S2P Require Import Wire.
From S2P Require Import Ranges.
From S2P Require Import SendBuf.
From S2P Require Import Stream.
From S2P Require Import StreamMap.
From S2P Require Import ConnectionId.
From S2P Require Import PacketNum.
From S2P Require Import Packet.
From S2P Require Import Protect.
From S2P Require Import Frame.
From S2P Require Import FrameProps.
From S2P Require Import Cid.
From S2P Require Import Space.
From S2P Require Import Congestion.
From S2P Require Import Path.
From S2P Require Import Timers.
From S2P Require Import Tls.
From S2P Require Import Scheduler.

From S2P Require Import Steps.
From S2P Require Import Connection.
From S2P Require Import ConnRecv.
From S2P Require Import ConnSend.
From S2P Require Import ConnQuery.
From S2P Require Import ConnSteps.
From S2P Require Import ConnSample.
From S2P Require Import ConnHistory.
From S2P Require Import ConnPayload.

Import Connection.

Section Deliver.
Context {C : Type} `{CongestionController C} `{Platform C} {T : Type} `{TlsBackend T} `{CryptoBackend}.

Abbreviation Connection := (@Connection C T).
Abbreviation conn := (action Error Connection).
Abbreviation Sending := (@ConnSend.Sending C T).
Abbreviation sending := (action Error Sending).

(** ** Writing frames leaves the keys alone *)

Definition same_crypto (c c' : Connection) : Prop :=
  tls_session c' = tls_session c /\ contains EnableMultipath c' = contains EnableMultipath c /\
  contains DisableEncryption c' = contains DisableEncryption c.

#[local] Instance same_crypto_preorder : PreOrder same_crypto.
Proof. split; [by intros c|]. intros c c' c'' (? & ? & ?) (? & ? & ?). split_and!; congruence. Qed.

Definition sends_crypto (s s' : Sending) : Prop := same_crypto (ConnSend.conn_ s) (ConnSend.conn_ s').
#[local] Instance sends_crypto_preorder : PreOrder sends_crypto := preorder_on ConnSend.conn_ same_crypto.
#[local] Arguments sends_crypto : simpl never.

#[local] Hint Extern 4 (steps same_crypto _) => (intros ?; by split_and!) : steps.
#[local] Hint Extern 4 (steps sends_crypto (modify _)) => (intros ?; by split_and!) : steps.

Lemma on_conn_crypto {A} (m : conn A) : steps same_crypto m -> steps sends_crypto (ConnSend.on_conn m).
Proof. intros Hm. by apply (steps_zoom _ same_crypto). Qed.
Lemma remove_flag_crypto f : f <> EnableMultipath -> f <> DisableEncryption -> steps same_crypto (remove_flag f : conn unit).
Proof.
  intros Hm Hd c. unfold same_crypto, contains, remove_flag, modify. cbn [snd flags with_flags tls_session]. rewrite !flag_in_remove, !bool_decide_eq_false_2 by congruence. done.
Qed.
#[local] Hint Resolve on_conn_crypto remove_flag_crypto : steps.
#[local] Hint Extern 2 (_ <> _) => discriminate : steps.

Lemma get_streams_crypto : steps sends_crypto (ConnSend.get_streams : sending _).
Proof. unfold ConnSend.get_streams. steps. Qed.
Lemma modify_streams_crypto f : steps sends_crypto (ConnSend.modify_streams f : sending unit).
Proof. unfold ConnSend.modify_streams. steps. Qed.
Lemma modify_space_crypto sid f : steps sends_crypto (ConnSend.modify_space sid f : sending unit).
Proof. unfold ConnSend.modify_space. steps. Qed.
Lemma write_frame_crypto l f : steps sends_crypto (ConnSend.write_frame_to_packet l f : sending unit).
Proof. unfold ConnSend.write_frame_to_packet, ConnSend.commit. steps. Qed.
#[local] Hint Resolve get_streams_crypto modify_streams_crypto modify_space_crypto write_frame_crypto : steps.
Lemma write_eliciting_crypto l f : steps sends_crypto (ConnSend.write_eliciting l f : sending unit).
Proof. unfold ConnSend.write_eliciting, ConnSend.elicit. steps. Qed.
Lemma commit_data_crypto l n h b f : steps sends_crypto (ConnSend.commit_data l n h b f : sending unit).
Proof. unfold ConnSend.commit_data, ConnSend.commit, ConnSend.elicit. steps. Qed.
#[local] Hint Resolve write_eliciting_crypto commit_data_crypto : steps.

Section Packet.
Context (clock : Instant) (chal : list Z) (t : PacketType) (pid : Z).

Lemma try_write_cid_control_frame_crypto l : steps sends_crypto (ConnSend.try_write_cid_control_frame t pid l : sending unit).
Proof.
  intros s. unfold ConnSend.try_write_cid_control_frame.
  destruct (CidControl.try_write_cid_control_frame _ _ _ _ _) as [[]|]; [|reflexivity]. by split_and!.
Qed.
Lemma write_path_responses_crypto l fuel : steps sends_crypto (ConnSend.write_path_responses pid l fuel : sending unit).
Proof. induction fuel; cbn [ConnSend.write_path_responses]; steps. Qed.
Lemma write_streams_crypto l fuel : steps sends_crypto (ConnSend.write_streams l fuel : sending unit).
Proof. induction fuel; cbn [ConnSend.write_streams]; steps. Qed.
Lemma write_buffered_frame_crypto l id off fin data b :
  steps sends_crypto (ConnSend.write_buffered_stream_frame_to_packet l id off fin data b : sending Z).
Proof. unfold ConnSend.write_buffered_stream_frame_to_packet. steps. Qed.
#[local] Hint Resolve write_buffered_frame_crypto : steps.
Lemma write_buffered_crypto l sid fuel : steps sends_crypto (ConnSend.write_buffered l sid fuel : sending unit).
Proof. induction fuel; cbn [ConnSend.write_buffered]; steps. Qed.
Lemma write_datagrams_crypto l m q : steps sends_crypto (ConnSend.write_datagrams l m q : sending unit).
Proof. induction q; cbn [ConnSend.write_datagrams]; steps. Qed.
Lemma set_app_limited_crypto b : steps same_crypto (ConnSend.set_app_limited pid b : conn unit).
Proof. unfold ConnSend.set_app_limited. steps. Qed.
#[local] Hint Resolve try_write_cid_control_frame_crypto write_path_responses_crypto write_streams_crypto write_buffered_crypto
  write_datagrams_crypto set_app_limited_crypto : steps.

Lemma try_write_stream_control_frames_crypto l : steps sends_crypto (ConnSend.try_write_stream_control_frames clock t pid l : sending unit).
Proof.
  unfold ConnSend.try_write_stream_control_frames, ConnSend.write_max_streams, ConnSend.write_data_blocked,
    ConnSend.write_max_stream_data, ConnSend.write_max_data, ConnSend.write_streams_blocked. steps.
Qed.
#[local] Hint Resolve try_write_stream_control_frames_crypto : steps.

Lemma send_frames_crypto l b1 b2 : steps sends_crypto (ConnSend.send_frames clock chal t pid l b1 b2 : sending unit).
Proof.
  unfold ConnSend.send_frames, ConnSend.check_congestion, ConnSend.write_ping, ConnSend.pad_packet, ConnSend.write_paddings,
    ConnSend.try_write_ack_frame, ConnSend.try_write_close_frame, ConnSend.try_write_pmut_probe_frames,
    ConnSend.try_write_path_validation_frames, ConnSend.write_handshake_done, ConnSend.try_write_crypto_frame,
    ConnSend.try_write_buffered_frames, ConnSend.try_write_stream_frames, ConnSend.try_write_new_token_frame,
    ConnSend.try_write_datagram_frames, ConnSend.elicit.
  steps.
Qed.

Lemma write_payload_crypto left first has_initial out offset w :
  steps same_crypto (ConnSend.write_payload clock chal t pid left first has_initial out offset w : conn _).
Proof.
  intros c. unfold ConnSend.write_payload. pose proof (send_frames_crypto left first has_initial (ConnSend.mkSending c (zdrop offset out) w)) as Hs.
  by destruct (ConnSend.send_frames _ _ _ _ _ _ _ _) as [r s].
Qed.

End Packet.

(** ** The bytes of a packet *)

Definition length_field (t : PacketType) (hdr : PacketHeader) (payload_len : Z) : list Z :=
  if bool_decide (t = OneRTT) then [] else varint_bytes 2 (Packet.pkt_num_len hdr + payload_len + TAG_LEN).

(** The packet before its protection. *)
Definition packet_prefix (t : PacketType) (hdr : PacketHeader) (pkt_num payload_len : Z) : list Z :=
  header_bytes hdr ++ length_field t hdr payload_len ++ be_bytes (Z.to_nat (Packet.pkt_num_len hdr)) pkt_num.

Lemma len_length_field t hdr n : len (length_field t hdr n) = if bool_decide (t = OneRTT) then 0 else 2.
Proof. unfold length_field. destruct (bool_decide _); [done|apply len_len2]. Qed.

Lemma header_written hdr buf off head : header_ok hdr -> Packet.to_bytes hdr buf = Ok (off, head) ->
  off = len (header_bytes hdr) /\ off <= len buf /\ head = header_bytes hdr ++ zdrop off buf.
Proof.
  intros Hh. unfold Packet.to_bytes. rewrite (run_enc_spec _ _ buf (writes_header hdr Hh)).
  destruct (Z.leb_spec (len (header_bytes hdr)) (len buf)); [|done]. by intros [= <- <-].
Qed.

Lemma writes_then_unit {A} (m : enc A) bs a : writes m bs a -> writes (m ;; mret tt) bs tt.
Proof. intros Hm. rewrite <- (app_nil_r bs). eapply writes_bind; [exact Hm|apply writes_ret]. Qed.

Lemma number_written pkt_num n buf u num : 1 <= n <= 4 -> len buf = n ->
  run_enc (encode_packet_num pkt_num n ;; mret tt) buf = Ok (u, num) -> num = be_bytes (Z.to_nat n) pkt_num.
Proof.
  intros Hn Hl. rewrite (run_enc_spec _ _ _ (writes_then_unit _ _ _ (writes_packet_num pkt_num n Hn))), len_be_bytes.
  destruct (Z.leb_spec (Z.of_nat (Z.to_nat n)) (len buf)); [|done]. intros [= _ <-]. rewrite zdrop_over by lia. apply app_nil_r.
Qed.

Lemma length_written n buf u l : 0 <= n < 16384 ->
  run_enc (write_varint_with_len n LENGTH_FIELD_LEN ;; mret tt) buf = Ok (u, l) -> l = varint_bytes 2 n ++ zdrop 2 buf.
Proof.
  intros Hn. rewrite (run_enc_spec _ _ _ (writes_then_unit _ _ _ (writes_len2 n Hn))), len_len2.
  destruct (Z.leb_spec 2 (len buf)); [|done]. by intros [= _ <-].
Qed.

(** The number goes between the header and the payload. *)
Lemma number_spliced t hdr n off out num :
  off = len (header_bytes hdr) -> 1 <= Packet.pkt_num_len hdr -> payload_offset t hdr off <= len out ->
  ztake off out = header_bytes hdr -> len num = Packet.pkt_num_len hdr ->
  let out' := ConnSend.splice (pkt_num_offset t off) num out in
  len out' = len out /\ exists gap, len gap = len (length_field t hdr n) /\
    ztake (payload_offset t hdr off) out' = header_bytes hdr ++ gap ++ num.
Proof.
  intros Hoff Hpn Hl Ht Hnum out'. pose proof (len_nonneg (header_bytes hdr)). unfold payload_offset, pkt_num_offset, LENGTH_FIELD_LEN in *.
  rewrite len_length_field.
  set (g := if bool_decide (t = OneRTT) then off else off + 2) in *.
  assert (off <= g /\ g - off = if bool_decide (t = OneRTT) then 0 else 2) as [Hg Eg] by (unfold g; destruct (bool_decide _); lia).
  assert (len (ztake g out) = g) as Lg by (apply len_ztake; lia). split.
  { unfold out', ConnSend.splice. rewrite !len_app, Lg, Hnum, len_zdrop by lia. lia. }
  exists (zdrop off (ztake g out)). split; [rewrite len_zdrop; lia|].
  unfold out', ConnSend.splice. rewrite (app_assoc _ num), ztake_app by (rewrite len_app; lia).
  rewrite app_assoc. f_equal. rewrite <- (ztake_zdrop off (ztake g out)) at 1. f_equal.
  rewrite <- Ht. unfold ztake. rewrite take_take. f_equal. lia.
Qed.

(** The length of a long header fills the gap before the number. *)
Lemma length_filled t hdr n off out1 out2 gap rest : n = len (header_bytes hdr) -> off = n ->
  0 <= Packet.pkt_num_len hdr + rest.1 + TAG_LEN < 16384 ->
  len gap = len (length_field t hdr rest.1) -> out1 = header_bytes hdr ++ gap ++ rest.2 ->
  (if bool_decide (t = OneRTT) then mret out1
   else
     '(_, l) ← run_enc (write_varint_with_len (Packet.pkt_num_len hdr + rest.1 + TAG_LEN) LENGTH_FIELD_LEN ;; mret tt) (zdrop off out1);
     mret (ztake off out1 ++ l)) = (Ok out2 : res (list Z)) ->
  out2 = header_bytes hdr ++ length_field t hdr rest.1 ++ rest.2.
Proof.
  intros -> -> Hn Hg -> He. rewrite len_length_field in Hg. unfold length_field. destruct (bool_decide (t = OneRTT)).
  - injection He as <-. by destruct gap; [|rewrite len_cons in Hg; pose proof (len_nonneg gap); lia].
  - rewrite zdrop_app_len, ztake_app_len in He.
    destruct (run_enc _ _) as [[u l]| |] eqn:E; [|done..]. apply length_written in E as ->; [|done]. injection He as <-.
    rewrite zdrop_app by lia. done.
Qed.

Lemma carries_allowed t fs gs : t <> ZeroRTT -> Forall2 carries fs gs -> Forall (allowed t) fs ->
  Forall (fun g => validate_frame t g = true) gs.
Proof.
  intros Ht. induction 1 as [|f g fs gs Hc _ IH]; intros Ha; [constructor|]. apply Forall_cons_1 in Ha as [Ha Has].
  constructor; [|by apply IH]. rewrite <- (Ha Ht). destruct f; cbn in Hc; try (by subst); destruct Hc as [d ->]; by destruct t.
Qed.

(** What was sent, byte by byte. *)
Lemma sent_packet_bytes clock chal out left pid first has_initial (c : Connection) t sid hdr pkt_num w written out' c' :
  sent_packet clock chal out left pid first has_initial c t sid hdr pkt_num w written out' c' ->
  t <> ZeroRTT -> header_ok hdr -> 1 <= Packet.pkt_num_len hdr -> Forall recorded_ok (FrameWriteStatus.frames w) ->
  Packet.pkt_num_len hdr + FrameWriteStatus.written w + TAG_LEN < 16384 ->
  exists level key dcid_seq gs room,
    to_level t = Ok level /\ seal (TlsSession.get_keys level (tls_session c)) = Some key /\
    ConnSend.packet_header t pid sid c = Ok (hdr, pkt_num, dcid_seq) /\
    Forall2 carries (FrameWriteStatus.frames w) gs /\ Forall frame_ok gs /\ Forall (fun g => validate_frame t g = true) gs /\
    FrameWriteStatus.written w = len (frames_bytes gs) /\
    let prefix := packet_prefix t hdr pkt_num (len (frames_bytes gs)) in
    if is_encryption_disabled t c then written = len prefix + len (frames_bytes gs) /\ out' = prefix ++ frames_bytes gs ++ room
    else @encrypt_packet (CryptoKey.aead key) (CryptoKey.iv key) (prefix ++ frames_bytes gs ++ room)
           (if contains EnableMultipath c then Some (wrap 32 dcid_seq) else None) pkt_num (Packet.pkt_num_len hdr)
           (len (frames_bytes gs)) (len prefix) None = Ok (written, out').
Proof.
  destruct 1 as [t level sid hdr pkt_num dcid_seq off head crypto u num x out1 w c1 out2 key written out3 c2 c3 c4
    Hlen Hdr Ht Hlev Hsid Hhdr Hhd Hov Hmin Hnum Hx Hw Hlf Hkey Henc Hns Hun Has]. intros H0rtt Hh Hpn Hrec Hmax.
  assert (crypto = TAG_LEN) as ->.
  { unfold TlsSession.get_overhead in Hov. destruct (seal _); [|done]. injection Hov as <-. done. }
  destruct (header_written _ _ _ _ Hh Hhd) as (Hoff & Hol & ->). pose proof (len_nonneg (header_bytes hdr)).
  pose proof (ok_pn_len _ Hh) as Hpn4.
  assert (0 <= left) as Hleft
    by (pose proof (len_header_bytes_pos hdr); unfold len, ztake in *; rewrite length_take in Hol; lia).
  rewrite len_ztake in Hol by lia.
  assert (0 <= off <= pkt_num_offset t off) as Hpo by (unfold pkt_num_offset, LENGTH_FIELD_LEN; destruct (bool_decide _); lia).
  assert (payload_offset t hdr off <= total_overhead t hdr off TAG_LEN c) as Hto
    by (unfold total_overhead; destruct (is_encryption_disabled t c); unfold TAG_LEN; lia).
  unfold MIN_PAYLOAD_LEN in Hmin. assert (payload_offset t hdr off = pkt_num_offset t off + Packet.pkt_num_len hdr) as Hpay by done.
  set (out0 := (header_bytes hdr ++ zdrop off (ztake left out)) ++ zdrop left out) in *.
  assert (len out0 = len out) as L0 by (unfold out0; rewrite !len_app, !len_zdrop by (rewrite ?len_ztake; lia); rewrite len_ztake; lia).
  apply number_written in Hnum as ->; [|lia|rewrite len_ztake; rewrite ?len_zdrop; lia].
  assert (len (be_bytes (Z.to_nat (Packet.pkt_num_len hdr)) pkt_num) = Packet.pkt_num_len hdr) as Lnum by (rewrite len_be_bytes; lia).
  destruct (number_spliced t hdr (FrameWriteStatus.written w) off out0 _ Hoff Hpn ltac:(lia)
    ltac:(unfold out0; rewrite <- app_assoc, Hoff; apply ztake_app_len) Lnum) as (Ls & gap & Lgap & Et).
  destruct (write_payload_fills _ _ _ _ _ _ _ _ _ _ _ _ _ _ Hw) as [Hall Hpl]; [lia..|done|done|].
  destruct (Hpl Hrec) as (gs & room & Hc & Hok & Hwr & Lo1 & Eo1). rewrite Et in Eo1.
  destruct (steps_of (write_payload_crypto _ _ _ _ _ _ _ _ _ _) Hw) as (Htls & Hmp & Hdis). rewrite Htls in Hkey.
  exists level, key, dcid_seq, gs, room. split_and!; [done..|by eapply carries_allowed|done|].
  pose proof (length_filled t hdr off off out1 out2 gap (FrameWriteStatus.written w,
    be_bytes (Z.to_nat (Packet.pkt_num_len hdr)) pkt_num ++ frames_bytes gs ++ room) Hoff eq_refl) as Hf. cbn [fst snd] in Hf.
  assert (out2 = packet_prefix t hdr pkt_num (len (frames_bytes gs)) ++ frames_bytes gs ++ room) as ->.
  { rewrite Hf; auto; [unfold packet_prefix; rewrite Hwr; by rewrite <- !app_assoc|pose proof (len_nonneg (frames_bytes gs)); unfold TAG_LEN in *; lia|].
    rewrite Eo1. by rewrite <- !app_assoc. }
  assert (len (packet_prefix t hdr pkt_num (len (frames_bytes gs))) = payload_offset t hdr off) as Lp.
  { unfold packet_prefix. rewrite !len_app, Lnum, len_length_field, <- Hoff, Hpay. unfold pkt_num_offset, LENGTH_FIELD_LEN. destruct (bool_decide _); lia. }
  rewrite <- Hmp. unfold is_encryption_disabled in *. rewrite <- Hdis. cbv zeta. rewrite Lp. rewrite Hwr in Henc.
  destruct (_ && _); [by injection Henc as <- <-|done].
Qed.

(** ** The receiver *)

(** The header that the receiver completes with the packet number field. *)
Definition received_header (hdr : PacketHeader) (pkt_num : Z) : PacketHeader :=
  clear_header (first_byte hdr) (be_bytes (Z.to_nat (Packet.pkt_num_len hdr)) pkt_num) (parsed hdr).

Lemma received_len hdr pkt_num : 0 <= Packet.pkt_num_len hdr -> Packet.pkt_num_len (received_header hdr pkt_num) = Packet.pkt_num_len hdr.
Proof. intros Hp. cbn. rewrite len_be_bytes. lia. Qed.
Lemma received_num hdr pkt_num : 0 <= Packet.pkt_num_len hdr ->
  Packet.pkt_num (received_header hdr pkt_num) = pkt_num mod 2 ^ (8 * Packet.pkt_num_len hdr).
Proof. intros Hp. cbn [received_header clear_header Packet.pkt_num]. by rewrite be_val_be_bytes, Z2Nat.id. Qed.

Lemma header_bytes_cons hdr : header_ok hdr -> exists tail, header_bytes hdr = first_byte hdr :: tail.
Proof.
  intros Hh. destruct (first_byte_spec hdr Hh) as (Hf & _). unfold header_bytes.
  assert (be_bytes 1 (first_byte hdr) = [first_byte hdr]) as ->; [|by eexists].
  cbn [be_bytes]. unfold is_u8 in Hf. f_equal. change (Z.shiftr _ _) with (Z.shiftr (first_byte hdr) 0). rewrite Z.shiftr_0_r. apply Z.mod_small. lia.
Qed.

Lemma first_byte_len hdr : header_ok hdr -> 1 <= Packet.pkt_num_len hdr ->
  Z.land (first_byte hdr) PKT_NUM_LEN_MASK = Packet.pkt_num_len hdr - 1.
Proof.
  intros [Ht Hl _ _ _ _] Hp. unfold first_byte.
  assert (Packet.pkt_num_len hdr = 1 \/ Packet.pkt_num_len hdr = 2 \/ Packet.pkt_num_len hdr = 3 \/ Packet.pkt_num_len hdr = 4)
    as [-> | [-> | [-> | ->]]] by lia; destruct (Packet.pkt_type hdr), (Packet.key_phase hdr); try done; by vm_compute.
Qed.

(** The receiver finds the number and the payload behind the header. *)
Lemma packet_located t hdr n bytes pkt tail :
  t = Packet.pkt_type hdr -> header_ok hdr -> t <> Retry -> 0 <= n -> 0 <= Packet.pkt_num_len hdr + n + TAG_LEN < 16384 ->
  (exists mask, pkt = match header_bytes hdr with first :: m => mask_first first mask :: m | [] => [] end ++ length_field t hdr n ++ bytes) \/
    pkt = header_bytes hdr ++ length_field t hdr n ++ bytes ->
  (t = OneRTT -> tail = []) -> (t <> OneRTT -> len bytes = Packet.pkt_num_len hdr + n + TAG_LEN) ->
  Packet.from_bytes (pkt ++ tail) (len (ConnectionId.deref (Packet.dcid hdr))) = Ok (parsed hdr, len (header_bytes hdr)) /\
  ConnRecv.packet_length (parsed hdr) (pkt ++ tail) (len (header_bytes hdr)) =
    Ok (len bytes, len (header_bytes hdr) + len (length_field t hdr n)).
Proof.
  intros Et Hh Hr Hn Hmax Hp Htail Hb. destruct (header_bytes_cons hdr Hh) as [m Em]. rewrite Em in *.
  assert (exists f, get_header (len (ConnectionId.deref (Packet.dcid hdr))) (f :: m ++ length_field t hdr n ++ bytes ++ tail) =
            Ok (parsed hdr, length_field t hdr n ++ bytes ++ tail) /\ pkt ++ tail = f :: m ++ length_field t hdr n ++ bytes ++ tail)
    as (f & Hg & ->).
  { pose proof (get_header_spec hdr (length_field t hdr n ++ bytes ++ tail) Hh ltac:(congruence)) as Hs. rewrite Em in Hs.
    destruct Hp as [[mask ->]| ->].
    - exists (mask_first (first_byte hdr) mask). rewrite get_header_masked. split; [done|]. cbn. by rewrite <- !app_assoc.
    - exists (first_byte hdr). split; [done|]. cbn. by rewrite <- !app_assoc. }
  assert (Packet.pkt_type (parsed hdr) = t) as Ep by (unfold parsed; subst t; by destruct (Packet.pkt_type hdr)).
  split.
  - unfold Packet.from_bytes. rewrite Hg. do 2 f_equal. rewrite !len_cons, !len_app. lia.
  - unfold ConnRecv.packet_length. rewrite Ep, len_length_field.
    replace (f :: m ++ length_field t hdr n ++ bytes ++ tail) with ((f :: m) ++ length_field t hdr n ++ bytes ++ tail) by done.
    replace (len (first_byte hdr :: m)) with (len (f :: m)) by by rewrite !len_cons.
    unfold length_field. destruct (bool_decide_reflect (t = OneRTT)) as [E|E].
    + rewrite (Htail E), app_nil_r, app_nil_l, len_app. do 2 f_equal; lia.
    + rewrite zdrop_app_len. rewrite (reads_at _ _ _ _ (reads_len2 _ Hmax)). cbn [mbind outcome_bind ConnRecv.map_err].
      specialize (Hb E). rewrite <- Hb. rewrite !len_app, len_len2. pose proof (len_nonneg tail).
      destruct (Z.ltb_spec (len bytes + len tail) (len bytes)); [lia|]. f_equal. f_equal. lia.
Qed.

(** An endpoint that can open the packet with the clear header [hdr] and the number
    [pkt_num], protected with [key] and [cid_seq]: it has the space, has seen what the
    sender saw acknowledged and not the packet itself, is not ahead of it by half the
    window of its number field, and selects a key that matches.  The packet is taken
    to the space [sid] and leaves the endpoint in the last state. *)
Inductive able_to_open (clock : Instant) (hdr : PacketHeader) (pkt_num : Z) (acked : option Z) (key : CryptoKey)
    (cid_seq : option Z) (plaintext : bool) (pid : Z) (hdr_key : CryptoKey) (r : Connection) : SpaceId -> Connection -> Prop :=
| able_intro sid x open_key attempt r1 d updated r2 :
    is_encryption_disabled (Packet.pkt_type hdr) r = plaintext ->
    get_space_id (Packet.pkt_type hdr) pid r = Ok sid -> PacketNumSpaceMap.get sid (spaces r) = Some x ->
    0 <= PacketNumSpace.largest_rx_pkt_num x < 2 ^ 62 ->
    (forall a, acked = Some a -> 0 <= a <= PacketNumSpace.largest_rx_pkt_num x) ->
    PacketNumSpace.largest_rx_pkt_num x + 1 < pkt_num + 2 ^ (8 * Packet.pkt_num_len hdr - 1) ->
    PacketNumSpace.detect_duplicated_pkt_num pkt_num x = Ok false ->
    (if contains EnableMultipath r then
       '(seq, _) ← ok_or (InvalidState "unknown dcid") (ConnectionIdMgr.find_scid (Packet.dcid hdr) (cids r));
       mret (Some (wrap 32 seq))
     else mret None) = Ok cid_seq ->
    on_session (TlsSession.select_key (is_confirmed r) hdr x) r = (Ok (open_key, attempt), r1) ->
    CryptoKey.aead hdr_key = CryptoKey.aead key -> CryptoKey.aead open_key = CryptoKey.aead key -> CryptoKey.iv open_key = CryptoKey.iv key ->
    PathMap.max_pto (paths r) = Ok d ->
    ConnRecv.on_key_update sid (TlsSession.try_update_key attempt hdr clock d) r1 = (Ok updated, r2) ->
    able_to_open clock hdr pkt_num acked key cid_seq plaintext pid hdr_key r sid
      (if updated && contains EnableMultipath r then with_spaces (ConnRecv.reset_other_spaces sid (spaces r2)) r2 else r2).

Lemma open_packet_run clock hdr pkt_num acked key cid_seq plaintext pid hdr_key r sid r' pkt h off length buf payload :
  able_to_open clock hdr pkt_num acked key cid_seq plaintext pid hdr_key r sid r' ->
  Packet.pkt_type h = Packet.pkt_type hdr ->
  @decrypt_header (CryptoKey.aead key) pkt off h plaintext = Ok (buf, hdr) ->
  (forall L, 0 <= L < 2 ^ 62 -> (forall a, acked = Some a -> 0 <= a <= L) -> L + 1 < pkt_num + 2 ^ (8 * Packet.pkt_num_len hdr - 1) ->
     decode_packet_num L (Packet.pkt_num hdr) (Packet.pkt_num_len hdr) = Ok pkt_num) ->
  0 <= length - Packet.pkt_num_len hdr -> payload <> [] ->
  (if plaintext then slice (off + Packet.pkt_num_len hdr) (length - Packet.pkt_num_len hdr) buf
   else @decrypt_payload (CryptoKey.aead key) (CryptoKey.iv key) buf (off + Packet.pkt_num_len hdr)
          (length - Packet.pkt_num_len hdr) cid_seq pkt_num) = Ok payload ->
  ConnRecv.open_packet clock pkt h pid hdr_key off length r = (Ok (hdr, pkt_num, sid, payload), r').
Proof.
  intros Ha Et Hd Hn Hl Hne Hp.
  destruct Ha as [sid x open_key attempt r1 d updated r2 Hpl Hsid Hx HL Hacked Hwin Hnew Hseq Hsel Hk1 Hk2 Hk3 Hpto Hup].
  unfold ConnRecv.open_packet. rewrite (action_bind_ok get _ r r r) by done. rewrite Et, Hpl, Hk1.
  rewrite (action_bind_ok (lift _) _ r (buf, hdr) r) by (unfold lift; by rewrite Hd).
  rewrite (action_bind_ok (lift _) _ r sid r) by (unfold lift; by rewrite Hsid).
  rewrite (action_bind_ok (get_space sid) _ r x r) by (unfold get_space; by rewrite Hx).
  rewrite (action_bind_ok (lift _) _ r pkt_num r) by (unfold lift; by rewrite Hn).
  rewrite (action_bind_ok (lift _) _ r false r) by (unfold lift; by rewrite Hnew).
  destruct (Z.ltb_spec (length - Packet.pkt_num_len hdr) 0); [lia|].
  rewrite (action_bind_ok (lift _) _ r cid_seq r) by (unfold lift; by rewrite Hseq).
  rewrite (action_bind_ok _ _ r (open_key, attempt) r1) by done. rewrite Hk2, Hk3.
  rewrite (action_bind_ok (lift _) _ r1 payload r1) by (unfold lift; destruct plaintext; by rewrite Hp).
  rewrite bool_decide_eq_false_2 by done. rewrite (action_bind_ok (lift _) _ r1 d r1) by (unfold lift; by rewrite Hpto).
  rewrite (action_bind_ok _ _ r1 updated r2) by done. unfold mbind, action_bind. by destruct (updated && _).
Qed.

(** The parts of a packet that is protected. *)
Lemma prefix_parts t hdr pkt_num n : header_ok hdr -> exists m,
  header_bytes hdr = first_byte hdr :: m /\
  packet_prefix t hdr pkt_num n
  = first_byte hdr :: (m ++ length_field t hdr n) ++ be_bytes (Z.to_nat (Packet.pkt_num_len hdr)) pkt_num.
Proof. intros Hh. destruct (header_bytes_cons hdr Hh) as [m Em]. exists m. unfold packet_prefix. rewrite Em. cbn. by rewrite <- app_assoc. Qed.

(** Whoever can open the packet gets the payload. *)
Definition opened_by (clock : Instant) (pkt : list Z) (hdr : PacketHeader) (pkt_num : Z) (acked : option Z) (key : CryptoKey)
    (cid_seq : option Z) (plaintext : bool) (off length : Z) (payload : list Z) : Prop :=
  forall pid hdr_key (r : Connection) sid r',
    able_to_open clock (received_header hdr pkt_num) pkt_num acked key cid_seq plaintext pid hdr_key r sid r' ->
    ConnRecv.open_packet clock pkt (parsed hdr) pid hdr_key off length r
    = (Ok (received_header hdr pkt_num, pkt_num, sid, payload), r').

Lemma protected_packet_opened clock t hdr pkt_num acked key cid_seq plain room written out tail :
  @AeadLaws (CryptoKey.aead key) -> len (CryptoKey.iv key) = NONCE_LEN ->
  t = Packet.pkt_type hdr -> t <> Retry -> header_ok hdr -> 0 <= pkt_num < 2 ^ 62 -> Packet.pkt_num_len hdr = packet_num_len pkt_num acked ->
  4 <= len plain -> Packet.pkt_num_len hdr + len plain + TAG_LEN < 16384 -> (t = OneRTT -> tail = []) ->
  let prefix := packet_prefix t hdr pkt_num (len plain) in
  @encrypt_packet (CryptoKey.aead key) (CryptoKey.iv key) (prefix ++ plain ++ room) cid_seq pkt_num (Packet.pkt_num_len hdr)
    (len plain) (len prefix) None = Ok (written, out) ->
  let pkt := ztake written out ++ tail in
  Packet.from_bytes pkt (len (ConnectionId.deref (Packet.dcid hdr))) = Ok (parsed hdr, len (header_bytes hdr)) /\
  exists length off, ConnRecv.packet_length (parsed hdr) pkt (len (header_bytes hdr)) = Ok (length, off) /\ off + length = written /\
    opened_by clock pkt hdr pkt_num acked key cid_seq false off length plain.
Proof.
  intros Haead Hiv Et Hret Hh Hpn Hpl Hmin Hmax Htail prefix Henc pkt.
  destruct (packet_num_len_bound pkt_num acked) as [Hp1 _]; [lia|]. rewrite <- Hpl in Hp1. pose proof (ok_pn_len _ Hh) as Hp4.
  set (pn := be_bytes (Z.to_nat (Packet.pkt_num_len hdr)) pkt_num).
  assert (len pn = Packet.pkt_num_len hdr) as Lpn by (unfold pn; rewrite len_be_bytes; lia).
  destruct (prefix_parts t hdr pkt_num (len plain) Hh) as (m & Em & Ep). fold prefix pn in Ep.
  pose proof (@encrypt_packet_spec (CryptoKey.aead key) Haead (CryptoKey.iv key) (first_byte hdr) (m ++ length_field t hdr (len plain)) pn plain room cid_seq pkt_num
    Hiv ltac:(lia) (be_bytes_ok _ _) ltac:(rewrite Lpn; by apply first_byte_len) ltac:(lia)) as Hs. cbv zeta in Hs.
  rewrite <- Ep, Lpn, Henc in Hs. destruct Hs as (Hw & Lo & (mask & pn' & ct & Ez & Lpn' & Lct) & Hdec).
  set (lf := length_field t hdr (len plain)) in *.
  assert (len prefix = len (header_bytes hdr) + len lf + Packet.pkt_num_len hdr) as Lprefix
    by (rewrite Ep, Em, !len_cons, !len_app; lia).
  assert (ztake written out = match header_bytes hdr with f :: m => mask_first f mask :: m | [] => [] end ++ lf ++ pn' ++ ct) as Ez'
    by (rewrite Ez, Em; cbn; by rewrite <- !app_assoc).
  assert (len (pn' ++ ct) = Packet.pkt_num_len hdr + len plain + TAG_LEN) as Lb by (rewrite len_app; lia).
  assert (Packet.pkt_type (parsed hdr) = t) as Etp by (unfold parsed; subst t; by destruct (Packet.pkt_type hdr)).
  destruct (packet_located t hdr (len plain) (pn' ++ ct) (ztake written out) tail Et Hh Hret ltac:(lia)
    ltac:(unfold TAG_LEN in *; lia) (or_introl (ex_intro _ mask Ez')) Htail (fun _ => Lb)) as [Hfrom Hlen]. fold lf in Hlen.
  split; [done|]. exists (len (pn' ++ ct)), (len (header_bytes hdr) + len lf). split; [done|]. split; [lia|].
  intros pid hdr_key r sid r' Ha. destruct (Hdec (parsed hdr) tail) as (buf & Hd1 & _ & Hd2).
  apply (open_packet_run _ _ _ _ _ _ _ _ _ _ _ _ _ _ _ _ buf _ Ha); [done|..].
  - unfold received_header. fold pn. rewrite <- Hd1. f_equal. rewrite len_app. fold lf. rewrite Em, len_cons. lia.
  - intros L HL Hacked Hwin. rewrite received_num, received_len in * by lia.
    pose proof (packet_num_recovered pkt_num acked L Hpn HL Hacked) as Hr. cbv zeta in Hr. rewrite <- Hpl in Hr. apply Hr; lia.
  - rewrite received_len by lia. unfold TAG_LEN in *. lia.
  - intros ->. done.
  - rewrite received_len, <- Hd2 by lia. f_equal; lia.
Qed.

Lemma clear_packet_opened clock hdr pkt_num acked key cid_seq plain room :
  Packet.pkt_type hdr = OneRTT -> header_ok hdr -> 0 <= pkt_num < 2 ^ 62 -> Packet.pkt_num_len hdr = packet_num_len pkt_num acked ->
  4 <= len plain -> Packet.pkt_num_len hdr + len plain + TAG_LEN < 16384 ->
  let prefix := packet_prefix OneRTT hdr pkt_num (len plain) in
  let written := len prefix + len plain in
  let pkt := ztake written (prefix ++ plain ++ room) ++ [] in
  Packet.from_bytes pkt (len (ConnectionId.deref (Packet.dcid hdr))) = Ok (parsed hdr, len (header_bytes hdr)) /\
  exists length off, ConnRecv.packet_length (parsed hdr) pkt (len (header_bytes hdr)) = Ok (length, off) /\ off + length = written /\
    opened_by clock pkt hdr pkt_num acked key cid_seq true off length plain.
Proof.
  intros Et Hh Hpn Hpl Hmin Hmax prefix written pkt.
  destruct (packet_num_len_bound pkt_num acked) as [Hp1 _]; [lia|]. rewrite <- Hpl in Hp1. pose proof (ok_pn_len _ Hh) as Hp4.
  set (pn := be_bytes (Z.to_nat (Packet.pkt_num_len hdr)) pkt_num).
  assert (len pn = Packet.pkt_num_len hdr) as Lpn by (unfold pn; rewrite len_be_bytes; lia).
  destruct (prefix_parts OneRTT hdr pkt_num (len plain) Hh) as (m & Em & Ep). fold prefix pn in Ep.
  assert (length_field OneRTT hdr (len plain) = []) as El by done. rewrite El, app_nil_r in Ep.
  assert (len prefix = len (header_bytes hdr) + Packet.pkt_num_len hdr) as Lprefix
    by (rewrite Ep, Em, !len_cons, !len_app; lia).
  assert (pkt = header_bytes hdr ++ length_field OneRTT hdr (len plain) ++ pn ++ plain) as Epkt.
  { unfold pkt, written. rewrite app_nil_r, app_assoc, ztake_app by (rewrite len_app; lia). rewrite Ep, Em, El. cbn. by rewrite <- app_assoc. }
  assert (Packet.pkt_type (parsed hdr) = OneRTT) as Etp by (unfold parsed; by rewrite Et).
  destruct (packet_located OneRTT hdr (len plain) (pn ++ plain) pkt [] (eq_sym Et) Hh ltac:(done) ltac:(lia)
    ltac:(unfold TAG_LEN in *; lia) (or_intror Epkt) ltac:(done) ltac:(done)) as [Hfrom Hlen].
  rewrite app_nil_r in Hfrom, Hlen. rewrite El in Hlen. change (len []) with 0 in Hlen. rewrite Z.add_0_r in Hlen.
  split; [done|]. exists (len (pn ++ plain)), (len (header_bytes hdr)). split; [done|]. split; [unfold written; rewrite len_app; lia|].
  intros pid hdr_key r sid r' Ha.
  assert (pkt = (first_byte hdr :: m ++ pn) ++ plain) as Epkt' by (rewrite Epkt, Em, El; cbn; by rewrite <- app_assoc).
  apply (open_packet_run _ _ _ _ _ _ _ _ _ _ _ _ _ _ _ _ pkt _ Ha); [done|..].
  - rewrite Epkt', Em, len_cons, plaintext_header; [done|lia|apply be_bytes_ok|rewrite Lpn; by apply first_byte_len|lia].
  - intros L HL Hacked Hwin. rewrite received_num, received_len in * by lia.
    pose proof (packet_num_recovered pkt_num acked L Hpn HL Hacked) as Hr. cbv zeta in Hr. rewrite <- Hpl in Hr. apply Hr; lia.
  - rewrite received_len, len_app by lia. lia.
  - intros ->. done.
  - rewrite received_len, slice_ok by (rewrite ?len_app, ?Epkt', ?len_app, ?len_cons, ?len_app, ?Em, ?len_cons; pose proof (len_nonneg m); lia).
    f_equal. rewrite Epkt'. rewrite (zdrop_app _ (first_byte hdr :: m ++ pn)) by (rewrite Em, !len_cons, len_app; lia).
    apply ztake_over. rewrite len_app. lia.
Qed.

(** C0.  placeholder *)
Theorem packet_delivered clock chal out left pid first has_initial (c : Connection) t sid hdr pkt_num w written out' c'
    level key dcid_seq x tail :
  sent_packet clock chal out left pid first has_initial c t sid hdr pkt_num w written out' c' ->
  to_level t = Ok level -> seal (TlsSession.get_keys level (tls_session c)) = Some key ->
  ConnSend.packet_header t pid sid c = Ok (hdr, pkt_num, dcid_seq) -> PacketNumSpaceMap.get sid (spaces c) = Some x ->
  @AeadLaws (CryptoKey.aead key) -> len (CryptoKey.iv key) = NONCE_LEN ->
  t <> ZeroRTT -> header_ok hdr -> 0 <= pkt_num < 2 ^ 62 -> Forall recorded_ok (FrameWriteStatus.frames w) ->
  MIN_PAYLOAD_LEN <= FrameWriteStatus.written w -> Packet.pkt_num_len hdr + FrameWriteStatus.written w + TAG_LEN < 16384 ->
  (t = OneRTT -> tail = []) ->
  let pkt := ztake written out' ++ tail in
  exists gs length off, Forall2 carries (FrameWriteStatus.frames w) gs /\
    Packet.from_bytes pkt (len (ConnectionId.deref (Packet.dcid hdr))) = Ok (parsed hdr, len (header_bytes hdr)) /\
    ConnRecv.packet_length (parsed hdr) pkt (len (header_bytes hdr)) = Ok (length, off) /\ off + length = written /\
    (forall clock', opened_by clock' pkt hdr pkt_num (PacketNumSpace.get_largest_acked_pkt x) key
       (if contains EnableMultipath c then Some (wrap 32 dcid_seq) else None) (is_encryption_disabled t c) off length (frames_bytes gs)) /\
    (forall undec clock' pid' sid' now (r : Connection),
       ConnRecv.recv_frames undec clock' (S (List.length (frames_bytes gs))) (frames_bytes gs) (received_header hdr pkt_num) pid' sid' now
         false true r
       = handle_frames undec clock' (transmitted gs) (received_header hdr pkt_num) pid' sid' now false true r).
Proof.
  intros Hsent Hlev Hkey Hhdr Hx Haead Hiv Ht Hh Hpn Hrec Hmin Hmax Htail pkt.
  destruct (packet_header_inv _ _ _ _ _ _ _ Hhdr) as (x' & d & s & Hx' & _ & Ehdr). rewrite Hx in Hx'. injection Hx' as <-.
  assert (t = Packet.pkt_type hdr /\ Packet.pkt_num_len hdr = packet_num_len pkt_num (PacketNumSpace.get_largest_acked_pkt x))
    as [Et Epl] by by rewrite Ehdr.
  destruct (packet_num_len_bound pkt_num (PacketNumSpace.get_largest_acked_pkt x)) as [Hp1 _]; [lia|]. rewrite <- Epl in Hp1.
  destruct (sent_packet_bytes _ _ _ _ _ _ _ _ _ _ _ _ _ _ _ _ Hsent Ht Hh Hp1 Hrec Hmax)
    as (level' & key' & dcid_seq' & gs & room & Hlev' & Hkey' & Hhdr' & Hc & Hok & Hval & Hwr & Hbytes).
  rewrite Hlev in Hlev'. injection Hlev' as <-. rewrite Hkey in Hkey'. injection Hkey' as <-. rewrite Hhdr in Hhdr'. injection Hhdr' as <-.
  rewrite Hwr in Hmin, Hmax. unfold MIN_PAYLOAD_LEN in Hmin. cbv zeta in Hbytes.
  assert (t <> Retry) as Hretry by (intros ->; done).
  assert (Packet.pkt_type (received_header hdr pkt_num) = t) as Etr by (cbn; unfold parsed; subst t; by destruct (Packet.pkt_type hdr)).
  assert (forall clock', Packet.from_bytes pkt (len (ConnectionId.deref (Packet.dcid hdr))) = Ok (parsed hdr, len (header_bytes hdr)) /\
    exists length off, ConnRecv.packet_length (parsed hdr) pkt (len (header_bytes hdr)) = Ok (length, off) /\ off + length = written /\
      opened_by clock' pkt hdr pkt_num (PacketNumSpace.get_largest_acked_pkt x) key
        (if contains EnableMultipath c then Some (wrap 32 dcid_seq) else None) (is_encryption_disabled t c) off length (frames_bytes gs)) as Hopen.
  { intros clock'. destruct (is_encryption_disabled t c) eqn:Edis; [|by eapply protected_packet_opened].
    assert (t = OneRTT) as E1 by (unfold is_encryption_disabled in Edis; by apply andb_prop in Edis as [?%bool_decide_eq_true_1 _]).
    destruct Hbytes as [-> ->]. unfold pkt. rewrite (Htail E1), E1. apply clear_packet_opened; congruence || done || lia. }
  destruct (Hopen clock) as (Hf & length & off & Hl & Ho & _). exists gs, length, off. split_and!; [done..| |].
  - intros clock'. destruct (Hopen clock') as (_ & length' & off' & Hl' & _ & Hop). rewrite Hl in Hl'. by injection Hl' as <- <-.
  - intros undec clock' pid' sid' now r. apply recv_frames_transmitted; [done|by rewrite Etr|lia].
Qed.

(** The frames of the next packet, evaluated. *)
Definition next_packet (clock : Instant) (chal out : list Z) (left pid : Z) (first has_initial : bool) (c : Connection)
  : option (PacketType * SpaceId * PacketHeader * Z * FrameWriteStatus.FrameWriteStatus) :=
  match ConnSend.select_send_packet_type pid c with
  | Ok t =>
      match get_space_id t pid c with
      | Ok sid =>
          match ConnSend.packet_header t pid sid c, to_level t with
          | Ok (hdr, pkt_num, _), Ok level =>
              match Packet.to_bytes hdr (ztake left out), TlsSession.get_overhead level (tls_session c), PacketNumSpaceMap.get sid (spaces c) with
              | Ok (off, head), Some crypto, Some x =>
                  match run_enc (encode_packet_num pkt_num (Packet.pkt_num_len hdr) ;; mret tt)
                          (ztake (Packet.pkt_num_len hdr) (zdrop (pkt_num_offset t off) (head ++ zdrop left out))) with
                  | Ok (_, num) =>
                      match (ConnSend.write_payload clock chal t pid (left - total_overhead t hdr off crypto c) first has_initial
                               (ConnSend.splice (pkt_num_offset t off) num (head ++ zdrop left out)) (payload_offset t hdr off)
                               (FrameWriteStatus.init (PacketNumSpace.need_elicit_ack x) (0 <? PacketNumSpace.loss_probes x)
                                  (total_overhead t hdr off crypto c)) c).1 with
                      | Ok (_, w) => Some (t, sid, hdr, pkt_num, w)
                      | _ => None
                      end
                  | _ => None
                  end
              | _, _, _ => None
              end
          | _, _ => None
          end
      | _ => None
      end
  | _ => None
  end.

Lemma sent_packet_next clock chal out left pid first has_initial (c : Connection) t sid hdr pkt_num w written out' c' :
  sent_packet clock chal out left pid first has_initial c t sid hdr pkt_num w written out' c' ->
  next_packet clock chal out left pid first has_initial c = Some (t, sid, hdr, pkt_num, w).
Proof.
  destruct 1 as [t level sid hdr pkt_num dcid_seq off head crypto u num x out1 w c1 out2 key written out3 c2 c3 c4
    Hlen Hdr Ht Hlev Hsid Hhdr Hhd Hov Hmin Hnum Hx Hw Hlf Hkey Henc Hns Hun Has].
  unfold next_packet. by rewrite Ht, Hsid, Hhdr, Hlev, Hhd, Hov, Hx, Hnum, Hw.
Qed.

End Deliver.

(** ** Example: the first packet of a client *)

(** The client has started its handshake; the server has derived the Initial keys. *)
Definition starting_client : @Connection Dummy.Dummy SampleTls := (ConnSend.initiate_handshake sample_client).2.
Definition ready_server : @Connection Dummy.Dummy SampleTls :=
  (on_session (TlsSession.derive_initial_secrets (ConnectionId.deref first_dcid) (version sample_server)) sample_server).2.

Definition first_packet : option (PacketType * SpaceId * PacketHeader * Z * FrameWriteStatus.FrameWriteStatus) :=
  Eval vm_compute in next_packet 1000000 (repeat 7 8) buffer 1200 0 true false starting_client.

Definition first_header : PacketHeader :=
  mkHeader Initial 1 first_dcid client_cid 1 0 None false.

Definition key_parts (k : CryptoKey) : Aead * list Z := (CryptoKey.aead k, CryptoKey.iv k).

Lemma client_key :
  key_parts <$> seal (TlsSession.get_keys LevelInitial (tls_session starting_client)) = Some (sample_aead, repeat 33 12).
Proof. vm_cast_no_check (eq_refl (Some (sample_aead, repeat 33 12))). Qed.
Lemma server_key :
  key_parts <$> open (TlsSession.get_keys LevelInitial (tls_session ready_server)) = Some (sample_aead, repeat 33 12).
Proof. vm_cast_no_check (eq_refl (Some (sample_aead, repeat 33 12))). Qed.

Lemma parts_known o k : key_parts <$> o = Some (sample_aead, repeat 33 12) -> o = Some k ->
  CryptoKey.aead k = sample_aead /\ CryptoKey.iv k = repeat 33 12.
Proof.
  intros E ->. split; [exact (f_equal (from_option fst sample_aead) E)|exact (f_equal (from_option snd []) E)].
Qed.

Lemma first_packet_next : next_packet 1000000 (repeat 7 8) buffer 1200 0 true false starting_client = first_packet.
Proof. vm_cast_no_check (eq_refl first_packet). Qed.

Lemma select_initial_key confirmed hdr x (s : @TlsSession.TlsSession SampleTls) k : Packet.pkt_type hdr = Initial ->
  open (TlsSession.get_keys LevelInitial s) = Some k -> TlsSession.select_key confirmed hdr x s = (Ok (k, false), s).
Proof.
  intros Et Hk. unfold TlsSession.select_key. rewrite Et, (bool_decide_eq_false_2 (Initial = OneRTT)) by done.
  cbn [negb]. rewrite orb_true_r. cbn [orb to_level mbind outcome_bind]. by rewrite Hk.
Qed.

(** The server can open the packet. *)
Lemma ready_server_able key hdr_key :
  seal (TlsSession.get_keys LevelInitial (tls_session starting_client)) = Some key ->
  open (TlsSession.get_keys LevelInitial (tls_session ready_server)) = Some hdr_key ->
  exists r', able_to_open 1000000 (received_header first_header 0) 0 None key None false 0 hdr_key ready_server SpaceInitial r'.
Proof.
  intros Hk Hs. destruct (parts_known _ _ client_key Hk) as [Ca Ci], (parts_known _ _ server_key Hs) as [Sa Si]. set (r1 := with_tls_session (tls_session ready_server) ready_server).
  destruct (PacketNumSpaceMap.get SpaceInitial (spaces ready_server)) as [x|] eqn:Ex.
  2: { exfalso. assert (bool_decide (is_Some (PacketNumSpaceMap.get SpaceInitial (spaces ready_server))) = true) as E by evaluate.
       by rewrite Ex in E. }
  assert ((fun x => (PacketNumSpace.largest_rx_pkt_num x, PacketNumSpace.detect_duplicated_pkt_num 0 x)) <$>
    PacketNumSpaceMap.get SpaceInitial (spaces ready_server) = Some (0, Ok false)) as Ed by evaluate.
  rewrite Ex in Ed. injection Ed as El Ed.
  pose (d := match PathMap.max_pto (paths ready_server) with Ok d => d | _ => None end).
  pose (m := @TlsSession.try_update_key SampleTls _ false (received_header first_header 0) 1000000 d).
  assert ((ConnRecv.on_key_update SpaceInitial m r1).1 = Ok false) as Em by evaluate.
  eexists. refine (able_intro _ _ _ _ _ _ _ _ _ _ SpaceInitial x hdr_key false r1 d false
    (ConnRecv.on_key_update SpaceInitial m r1).2 _ _ Ex _ _ _ Ed _ _ _ _ _ _ _).
  - evaluate.
  - evaluate.
  - rewrite El. lia.
  - done.
  - rewrite El. by vm_compute.
  - evaluate.
  - unfold on_session, zoom. by rewrite (select_initial_key _ _ _ _ hdr_key).
  - congruence.
  - congruence.
  - congruence.
  - evaluate.
  - fold m. rewrite <- Em. apply surjective_pairing.
Qed.

Lemma first_header_ok : header_ok first_header.
Proof.
  split; cbn [first_header Packet.pkt_type Packet.pkt_num_len Packet.dcid Packet.scid Packet.version Packet.token]; try done; try lia.
  - apply ConnectionId.valid_new. repeat constructor; by vm_compute.
  - apply ConnectionId.valid_new. repeat constructor; by vm_compute.
Qed.

Lemma packet_delivered_witness : exists written out c' gs length off hdr_key r',
  sent_packet 1000000 (repeat 7 8) buffer 1200 0 true false starting_client Initial SpaceInitial first_header 0
    match first_packet with Some (_, w) => w | None => FrameWriteStatus.init false false 0 end written out c' /\
  Forall2 carries [Frame.Crypto 0 64 []] gs /\
  ConnRecv.packet_length (parsed first_header) (ztake written out ++ [0; 0]) (len (header_bytes first_header)) = Ok (length, off) /\
  ConnRecv.open_packet 1000000 (ztake written out ++ [0; 0]) (parsed first_header) 0 hdr_key off length ready_server
  = (Ok (received_header first_header 0, 0, SpaceInitial, frames_bytes gs), r').
Proof.
  assert ((fun x => match x with Ok _ => true | _ => false end)
    (ConnSend.send_packet 1000000 (repeat 7 8) buffer 1200 0 true false starting_client).1 = true) as Hs by evaluate.
  destruct (ConnSend.send_packet _ _ _ _ _ _ _ _) as [[[[[t probe] written] out]| |] c'] eqn:E; try discriminate Hs.
  apply send_packet_inv in E as (sid & hdr & pkt_num & w & _ & Hsent).
  pose proof (sent_packet_next _ _ _ _ _ _ _ _ _ _ _ _ _ _ _ _ Hsent) as Hn. rewrite first_packet_next in Hn.
  injection Hn as <- <- <- <- <-.
  destruct (seal (TlsSession.get_keys LevelInitial (tls_session starting_client))) as [key|] eqn:Ek.
  2: { pose proof client_key as Ck. by rewrite Ek in Ck. }
  destruct (open (TlsSession.get_keys LevelInitial (tls_session ready_server))) as [hdr_key|] eqn:Eo.
  2: { pose proof server_key as Ck. by rewrite Eo in Ck. }
  destruct (parts_known _ _ client_key Ek) as [Ca Ci]. destruct (ready_server_able _ _ Ek Eo) as [r' Hable].
  assert (PacketNumSpace.get_largest_acked_pkt <$> PacketNumSpaceMap.get SpaceInitial (spaces starting_client) = Some None) as Ea by evaluate.
  destruct (PacketNumSpaceMap.get SpaceInitial (spaces starting_client)) as [x|] eqn:Ex; [|discriminate Ea]. injection Ea as Ea.
  destruct (packet_delivered _ _ _ _ _ _ _ _ _ _ _ _ _ _ _ _ LevelInitial key 0 x [0; 0] Hsent) as (gs & length & off & Hc & _ & Hl & _ & Hop & _).
  - done.
  - exact Ek.
  - evaluate.
  - exact Ex.
  - rewrite Ca. exact sample_aead_laws.
  - by rewrite Ci.
  - done.
  - exact first_header_ok.
  - lia.
  - constructor; [|constructor]. split; [apply small_vint; lia|lia].
  - unfold MIN_PAYLOAD_LEN. cbn [FrameWriteStatus.written]. lia.
  - unfold TAG_LEN. cbn [FrameWriteStatus.written Packet.pkt_num_len]. lia.
  - discriminate.
  - exists written, out, c', gs, length, off, hdr_key, r'. split_and!; [exact Hsent|exact Hc|exact Hl|].
    rewrite Ea in Hop. apply (Hop 1000000 0 hdr_key ready_server SpaceInitial r').
    replace (contains EnableMultipath starting_client) with false by (symmetry; evaluate).
    replace (is_encryption_disabled Initial starting_client) with false by (symmetry; evaluate). exact Hable.
Defined.
