(* ===== verification/H3Stream.v ===== *)
(** * HTTP/3 streams

    Models [src/src/h3/stream.rs]: the state machine that parses the bytes of one
    HTTP/3 stream, as they arrive, into stream type, push id and frames.  The
    transport is an interface: reading bytes of the stream, whether there are
    more, and closing the connection. *)

From S2P Require Import Prelude.
From S2P Require Import Error.
From S2P Require Import Codec.
From S2P Require Import Wire.
From S2P Require Import Concurrency.
From S2P Require Import Http3.
From S2P Require Import H3Frame.

Definition HTTP3_CONTROL_STREAM_TYPE : Z := 0x0.
Definition HTTP3_PUSH_STREAM_TYPE : Z := 0x1.
Definition QPACK_ENCODER_STREAM_TYPE : Z := 0x2.
Definition QPACK_DECODER_STREAM_TYPE : Z := 0x3.
Definition INIT_STATE_BUF_SIZE : Z := 16.
Definition MAX_STATE_BUF_SIZE : Z := 16777215.

(** ** The transport *)

(** [src_read n] is [stream_read] into a buffer of [n] bytes: the bytes read and
    whether the stream ended; [src_close] is [close] with an application error. *)
Class StreamSource (S : Type) := {
  src_read : Z -> action Error S (list Z * bool);
  src_readable : S -> bool;
  src_close : Z -> action Error S unit;
}.

Module Http3StreamState.

Inductive Http3StreamState :=
| StreamType | FrameType | FramePayloadLen | FramePayload | Data | PushId
| QpackEncoderInstruction | QpackDecoderInstruction | Skip | ReadFinished.

#[global] Instance state_eq_dec : EqDecision Http3StreamState.
Proof. solve_decision. Defined.

End Http3StreamState.

Module Http3StreamType.

Inductive Http3StreamType := Control | Request | Push | QpackEncoder | QpackDecoder | Unknown (id : Z).

Definition from_id (type_id : Z) : Http3StreamType :=
  match type_id with
  | 0x0 => Control
  | 0x1 => Push
  | 0x2 => QpackEncoder
  | 0x3 => QpackDecoder
  | _ => Unknown type_id
  end.

End Http3StreamType.

Module Http3StateMachine.

Record Http3StateMachine := mkMachine {
  state : Http3StreamState.Http3StreamState;
  buf : list Z;
  expected_len : Z;
  write_off : Z;
}.

Definition new (s : Http3StreamState.Http3StreamState) : Http3StateMachine :=
  mkMachine s (repeat 0 (Z.to_nat INIT_STATE_BUF_SIZE)) 1 0.

Definition ready (m : Http3StateMachine) : bool := write_off m =? expected_len m.

(** [Vec::resize] with zeros. *)
Definition resize_to (n : Z) (l : list Z) : list Z := ztake n l ++ repeat 0 (Z.to_nat (n - len l)).

Definition remaining_len (m : Http3StateMachine) : res3 Z := sub64 (expected_len m) (write_off m).

Definition increase_off (n : Z) (m : Http3StateMachine) : Http3StateMachine :=
  mkMachine (state m) (buf m) (expected_len m) (write_off m + n).

Definition transition (s : Http3StreamState.Http3StreamState) (new_len : Z) (resize : bool) (m : Http3StateMachine)
  : res3 Http3StateMachine :=
  if resize && (MAX_STATE_BUF_SIZE <? new_len) then Err ExcessiveLoad
  else Ok (mkMachine s (if resize then resize_to new_len (buf m) else buf m) new_len 0).

Definition parse_varint : action Http3Error Http3StateMachine Z := fun m =>
  let sized : res3 Http3StateMachine :=
    if write_off m =? 1 then
      first ← unwrap (head (buf m));
      l ← h3 (decode_varint_len first);
      mret (mkMachine (state m) (resize_to l (buf m)) l (write_off m))
    else Ok m in
  match sized with
  | Ok m =>
      if negb (ready m) then (Err H3Done, m)
      else (r ← h3 (read_varint (buf m)); mret r.1, m)
  | Err e => (Err e, m)
  | Panic => (Panic, m)
  end.

End Http3StateMachine.

Module Http3Stream.

Record Http3Stream := mkStream {
  local : bool;
  stream_id : Z;
  stream_type : option Http3StreamType.Http3StreamType;
  frame_type_ : option Z;
  machine : Http3StateMachine.Http3StateMachine;
  peer_initialized : bool;
  local_initialized : bool;
  write_finished : bool;
  data_event_triggered : bool;
  priority_initialized : bool;
  priority_update : option (list Z);
  header_block : option (list Z * bool);
}.

Definition with_stream_type (x : option Http3StreamType.Http3StreamType) (st : Http3Stream) : Http3Stream :=
  mkStream (local st) (stream_id st) x (frame_type_ st) (machine st) (peer_initialized st) (local_initialized st)
    (write_finished st) (data_event_triggered st) (priority_initialized st) (priority_update st) (header_block st).
Definition with_frame_type_ (x : option Z) (st : Http3Stream) : Http3Stream :=
  mkStream (local st) (stream_id st) (stream_type st) x (machine st) (peer_initialized st) (local_initialized st)
    (write_finished st) (data_event_triggered st) (priority_initialized st) (priority_update st) (header_block st).
Definition with_machine (x : Http3StateMachine.Http3StateMachine) (st : Http3Stream) : Http3Stream :=
  mkStream (local st) (stream_id st) (stream_type st) (frame_type_ st) x (peer_initialized st) (local_initialized st)
    (write_finished st) (data_event_triggered st) (priority_initialized st) (priority_update st) (header_block st).
Definition with_peer_initialized (x : bool) (st : Http3Stream) : Http3Stream :=
  mkStream (local st) (stream_id st) (stream_type st) (frame_type_ st) (machine st) x (local_initialized st)
    (write_finished st) (data_event_triggered st) (priority_initialized st) (priority_update st) (header_block st).
Definition with_local_initialized (x : bool) (st : Http3Stream) : Http3Stream :=
  mkStream (local st) (stream_id st) (stream_type st) (frame_type_ st) (machine st) (peer_initialized st) x
    (write_finished st) (data_event_triggered st) (priority_initialized st) (priority_update st) (header_block st).
Definition with_write_finished (x : bool) (st : Http3Stream) : Http3Stream :=
  mkStream (local st) (stream_id st) (stream_type st) (frame_type_ st) (machine st) (peer_initialized st)
    (local_initialized st) x (data_event_triggered st) (priority_initialized st) (priority_update st) (header_block
    st).
Definition with_data_event_triggered (x : bool) (st : Http3Stream) : Http3Stream :=
  mkStream (local st) (stream_id st) (stream_type st) (frame_type_ st) (machine st) (peer_initialized st)
    (local_initialized st) (write_finished st) x (priority_initialized st) (priority_update st) (header_block st).
Definition with_priority_initialized (x : bool) (st : Http3Stream) : Http3Stream :=
  mkStream (local st) (stream_id st) (stream_type st) (frame_type_ st) (machine st) (peer_initialized st)
    (local_initialized st) (write_finished st) (data_event_triggered st) x (priority_update st) (header_block st).
Definition with_priority_update (x : option (list Z)) (st : Http3Stream) : Http3Stream :=
  mkStream (local st) (stream_id st) (stream_type st) (frame_type_ st) (machine st) (peer_initialized st)
    (local_initialized st) (write_finished st) (data_event_triggered st) (priority_initialized st) x (header_block
    st).
Definition with_header_block (x : option (list Z * bool)) (st : Http3Stream) : Http3Stream :=
  mkStream (local st) (stream_id st) (stream_type st) (frame_type_ st) (machine st) (peer_initialized st)
    (local_initialized st) (write_finished st) (data_event_triggered st) (priority_initialized st) (priority_update
    st) x.

Definition new (stream_id : Z) (local : bool) : Http3Stream :=
  let '(ty, s) := if is_bidi stream_id then (Some Http3StreamType.Request, Http3StreamState.FrameType)
                  else (None, Http3StreamState.StreamType) in
  mkStream local stream_id ty None (Http3StateMachine.new s) false false false false false None None.

Definition state (st : Http3Stream) : Http3StreamState.Http3StreamState := Http3StateMachine.state (machine st).

Definition check_frame_on_control_stream (ft : Z) (st : Http3Stream) : res3 Http3Stream :=
  if negb (peer_initialized st) then
    if ft =? SETTINGS_FRAME_TYPE then Ok (with_peer_initialized true st) else Err MissingSettings
  else if (ft =? SETTINGS_FRAME_TYPE) || (ft =? DATA_FRAME_TYPE) || (ft =? HEADERS_FRAME_TYPE) || (ft =? PUSH_PROMISE_FRAME_TYPE)
  then Err FrameUnexpected
  else Ok st.

Definition check_frame_on_request_stream (ft : Z) (st : Http3Stream) : res3 Http3Stream :=
  if (ft =? HEADERS_FRAME_TYPE) && negb (peer_initialized st) then Ok (with_peer_initialized true st)
  else if (ft =? DATA_FRAME_TYPE) && negb (peer_initialized st) then Err FrameUnexpected
  else if (ft =? CANCEL_PUSH_FRAME_TYPE) || (ft =? SETTINGS_FRAME_TYPE) || (ft =? GOAWAY_FRAME_TYPE) || (ft =? MAX_PUSH_ID_FRAME_TYPE)
       || (ft =? PRIORITY_UPDATE_FRAME_REQUEST_TYPE) || (ft =? PRIORITY_UPDATE_FRAME_PUSH_TYPE)
  then Err FrameUnexpected
  else Ok st.

Definition check_frame_on_push_stream (ft : Z) (st : Http3Stream) : res3 Http3Stream :=
  if (ft =? CANCEL_PUSH_FRAME_TYPE) || (ft =? SETTINGS_FRAME_TYPE) || (ft =? PUSH_PROMISE_FRAME_TYPE) || (ft =? GOAWAY_FRAME_TYPE)
     || (ft =? MAX_PUSH_ID_FRAME_TYPE) || (ft =? PRIORITY_UPDATE_FRAME_REQUEST_TYPE) || (ft =? PRIORITY_UPDATE_FRAME_PUSH_TYPE)
  then Err FrameUnexpected
  else Ok st.

Definition transition_state (s : Http3StreamState.Http3StreamState) (new_len : Z) (resize : bool) (st : Http3Stream) : res3 Http3Stream :=
  m ← Http3StateMachine.transition s new_len resize (machine st); mret (with_machine m st).

(** The functions below change the stream and then may fail; what they changed
    stays. *)
Definition set_stream_type (ty : Http3StreamType.Http3StreamType) (st : Http3Stream) : res3 unit * Http3Stream :=
  let st := with_stream_type (Some ty) st in
  let '(s, st) :=
    match ty with
    | Http3StreamType.Control | Http3StreamType.Request => (Http3StreamState.FrameType, st)
    | Http3StreamType.Push => (Http3StreamState.PushId, st)
    | Http3StreamType.QpackEncoder => (Http3StreamState.QpackEncoderInstruction, with_peer_initialized true st)
    | Http3StreamType.QpackDecoder => (Http3StreamState.QpackDecoderInstruction, with_peer_initialized true st)
    | Http3StreamType.Unknown _ => (Http3StreamState.Skip, st)
    end in
  match transition_state s 1 true st with
  | Ok st => (Ok tt, st) | Err e => (Err e, st) | Panic => (Panic, st)
  end.

Definition set_push_id (st : Http3Stream) : res3 unit * Http3Stream :=
  match transition_state Http3StreamState.FrameType 1 true st with
  | Ok st => (Ok tt, st) | Err e => (Err e, st) | Panic => (Panic, st)
  end.

Definition set_frame_type (ft : Z) (st : Http3Stream) : res3 unit * Http3Stream :=
  let checked := match stream_type st with
                 | Some Http3StreamType.Control => check_frame_on_control_stream ft st
                 | Some Http3StreamType.Request => check_frame_on_request_stream ft st
                 | Some Http3StreamType.Push => check_frame_on_push_stream ft st
                 | _ => Err FrameUnexpected
                 end in
  match checked with
  | Ok st =>
      let st := with_frame_type_ (Some ft) st in
      match transition_state Http3StreamState.FramePayloadLen 1 true st with
      | Ok st => (Ok tt, st) | Err e => (Err e, st) | Panic => (Panic, st)
      end
  | Err e => (Err e, st)
  | Panic => (Panic, st)
  end.

(** Frames that are malformed without a payload. *)
Definition needs_payload (ft : Z) : bool :=
  (ft =? GOAWAY_FRAME_TYPE) || (ft =? PUSH_PROMISE_FRAME_TYPE) || (ft =? CANCEL_PUSH_FRAME_TYPE) || (ft =? MAX_PUSH_ID_FRAME_TYPE)
  || (ft =? PRIORITY_UPDATE_FRAME_REQUEST_TYPE) || (ft =? PRIORITY_UPDATE_FRAME_PUSH_TYPE).

Definition set_frame_payload_len (n : Z) (st : Http3Stream) : res3 unit * Http3Stream :=
  let '(s, resize, malformed) :=
    match frame_type_ st with
    | Some ft =>
        if ft =? DATA_FRAME_TYPE then (Http3StreamState.Data, false, false)
        else (Http3StreamState.FramePayload, true, needs_payload ft && (n =? 0))
    | None => (Http3StreamState.FramePayload, true, false)
    end in
  if malformed then (Err FrameError, st)
  else match transition_state s n resize st with
       | Ok st => (Ok tt, st) | Err e => (Err e, st) | Panic => (Panic, st)
       end.

Definition reset_data_event_state (st : Http3Stream) : Http3Stream := with_data_event_triggered false st.

Definition trigger_data_event (st : Http3Stream) : bool * Http3Stream :=
  if data_event_triggered st then (false, st) else (true, with_data_event_triggered true st).

(** An error here is ignored. *)
Definition mark_read_finished (st : Http3Stream) : Http3Stream :=
  match transition_state Http3StreamState.ReadFinished 0 false st with Ok st' => st' | _ => st end.

Definition mark_write_finished (st : Http3Stream) : Http3Stream := with_write_finished true st.
Definition mark_local_initialized (st : Http3Stream) : Http3Stream := with_local_initialized true st.
Definition mark_priority_initialized (st : Http3Stream) : Http3Stream := with_priority_initialized true st.
Definition set_priority_update (v : option (list Z)) (st : Http3Stream) : Http3Stream := with_priority_update v st.
Definition take_priority_update (st : Http3Stream) : option (list Z) * Http3Stream :=
  (priority_update st, with_priority_update None st).
Definition set_header_block (v : option (list Z * bool)) (st : Http3Stream) : Http3Stream := with_header_block v st.
Definition take_header_block (st : Http3Stream) : option (list Z * bool) * Http3Stream :=
  (header_block st, with_header_block None st).

Section Parsing.
Context {S : Type} `{StreamSource S}.

Abbreviation act := (action Http3Error (Http3Stream * S)).

(** A step of the transport, of the stream, and of its state machine. *)
Definition on_source {A} (m : action Error S A) : act A := fun '(st, s) => let '(r, s) := m s in (h3 r, (st, s)).
Definition on_stream {A} (m : Http3Stream -> res3 A * Http3Stream) : act A := fun '(st, s) => let '(r, st) := m st in (r, (st, s)).
Definition on_machine {A} (m : action Http3Error Http3StateMachine.Http3StateMachine A) : act A :=
  on_stream (fun st => let '(r, x) := m (machine st) in (r, with_machine x st)).

(** Close the connection with an error, and report it; when closing fails that
    is the error. *)
Definition close_with {A} (e : Http3Error) : act A := on_source (src_close (to_wire e)) ;; fail e.

(** A change of state whose error closes the connection. *)
Definition or_close {A} (m : Http3Stream -> res3 A * Http3Stream) : act A := fun x =>
  match on_stream m x with
  | (Err e, x) => close_with e x
  | r => r
  end.

Definition read_and_fill_buffer : act unit := fun '(st, s) =>
  let m := machine st in
  if Http3StateMachine.ready m then (Ok tt, (st, s))
  else if (Http3StateMachine.write_off m <=? Http3StateMachine.expected_len m)
          && (Http3StateMachine.expected_len m <=? len (Http3StateMachine.buf m)) then
    match src_read (Http3StateMachine.expected_len m - Http3StateMachine.write_off m) s with
    | (Ok (bs, _), s) =>
        let off := Http3StateMachine.write_off m in
        let b := ztake off (Http3StateMachine.buf m) ++ bs ++ zdrop (off + len bs) (Http3StateMachine.buf m) in
        let m := Http3StateMachine.increase_off (len bs)
                   (Http3StateMachine.mkMachine (Http3StateMachine.state m) b (Http3StateMachine.expected_len m) off) in
        let st := with_machine m st in
        if negb (Http3StateMachine.ready m) then (Err H3Done, (reset_data_event_state st, s))
        else (Ok tt, (st, s))
    | (Err e, s) =>
        (Err (from_error e), (if decide (e = Done) then reset_data_event_state st else st, s))
    | (Panic, s) => (Panic, (st, s))
    end
  else (Panic, (st, s)).

(** Once the first byte tells the length, read the rest and parse again. *)
Definition parse_or_refill : act Z := fun x =>
  match on_machine Http3StateMachine.parse_varint x with
  | (Err H3Done, x) => (read_and_fill_buffer ;; on_machine Http3StateMachine.parse_varint) x
  | r => r
  end.

Definition read_and_parse_varint : act Z := read_and_fill_buffer ;; parse_or_refill.

Definition parse_uni_stream_type : act Http3StreamType.Http3StreamType :=
  type_id ← read_and_parse_varint;
  let ty := Http3StreamType.from_id type_id in
  or_close (set_stream_type ty) ;;
  mret ty.

Definition parse_push_id : act unit :=
  _ ← read_and_parse_varint;
  or_close set_push_id.

Definition parse_frame_type : act unit :=
  ft ← read_and_parse_varint;
  or_close (set_frame_type ft).

Definition parse_frame_payload_length : act unit :=
  n ← read_and_parse_varint;
  or_close (set_frame_payload_len n).

Definition parse_frame_payload_inner : act (Http3Frame * Z) :=
  read_and_fill_buffer ;;
  on_stream (fun st =>
    let st := reset_data_event_state st in
    let n := Http3StateMachine.expected_len (machine st) in
    let r := ft ← unwrap (frame_type_ st);
             f ← decode_payload ft n (Http3StateMachine.buf (machine st));
             st' ← transition_state Http3StreamState.FrameType 1 true st;
             mret (f, n, st') in
    match r with
    | Ok (f, n, st') => (Ok (f, n), st')
    | Err e => (Err e, st)
    | Panic => (Panic, st)
    end).

Definition parse_frame_payload : act (Http3Frame * Z) := fun x =>
  match parse_frame_payload_inner x with
  | (Err H3Done, x) => (Err H3Done, x)
  | (Err e, x) => close_with e x
  | r => r
  end.

(** Read the payload of a DATA frame into a buffer of [n] bytes. *)
Definition read_data_from_quic (n : Z) : act (list Z * bool) := fun '(st, s) =>
  match Http3StateMachine.remaining_len (machine st) with
  | Ok rest =>
      match src_read (Z.min n rest) s with
      | (Ok (bs, fin), s) =>
          let st := with_machine (Http3StateMachine.increase_off (len bs) (machine st)) st in
          let st := if src_readable s then st else reset_data_event_state st in
          if Http3StateMachine.ready (machine st) then
            match transition_state Http3StreamState.FrameType 1 true st with
            | Ok st => (Ok (bs, fin), (st, s))
            | Err e => (Err e, (st, s))
            | Panic => (Panic, (st, s))
            end
          else (Ok (bs, fin), (st, s))
      | (Err e, s) =>
          (Err (from_error e), (if decide (e = Done) then reset_data_event_state st else st, s))
      | (Panic, s) => (Panic, (st, s))
      end
  | Err e => (Err e, (st, s))
  | Panic => (Panic, (st, s))
  end.

(** One round of the loop over a control stream: [Some] frame is handed to
    [process_frame]. *)
Definition control_round : act (option (Http3Frame * Z)) := fun x =>
  match state x.1 with
  | Http3StreamState.FrameType => (parse_frame_type ;; mret None) x
  | Http3StreamState.FramePayloadLen => (parse_frame_payload_length ;; mret None) x
  | Http3StreamState.FramePayload => (r ← parse_frame_payload; mret (Some r)) x
  | _ => panic x
  end.

End Parsing.

End Http3Stream.
