(* ===== verification/H3StreamProps.v ===== *)
(** * Properties of the HTTP/3 stream parser

    The parser of [H3Stream] is resumable: however the transport cuts the bytes
    of a control stream, the same frames come out.  This is proved on the
    simplest transport, a list of pending bytes, and carried to every transport
    that shows such a list, among them the reassembly buffer of [RecvBuf]. *)

From S2P Require Import Prelude.
From S2P Require Import Error.
From S2P Require Import Codec.
From S2P Require Import RangeBuf.
From S2P Require Import RecvBuf.
From S2P Require Import Wire.
From S2P Require Import Http3.
From S2P Require Import H3Frame.
From S2P Require Import H3Stream.
Import Http3StateMachine Http3Stream.

Section Driver.
Context {S : Type} `{StreamSource S}.

(** The loop over a control stream, while [process_frame] asks for more: the
    frames it is handed and the error that ends the loop. *)
Fixpoint control_loop (fuel : nat) (x : Http3Stream * S) : list (Http3Frame * Z) * outcome Http3Error Empty_set * (Http3Stream * S) :=
  match fuel with
  | O => ([], Panic, x)
  | Datatypes.S fuel =>
      match control_round x with
      | (Ok None, x) => control_loop fuel x
      | (Ok (Some f), x) => let '(fs, e, x) := control_loop fuel x in (f :: fs, e, x)
      | (Err e, x) => ([], Err e, x)
      | (Panic, x) => ([], Panic, x)
      end
  end.

(** A readable unidirectional stream that announces itself as the control
    stream: its type, then the loop. *)
Definition process_control (fuel : nat) (x : Http3Stream * S) : list (Http3Frame * Z) * outcome Http3Error Empty_set * (Http3Stream * S) :=
  let typed := if decide (state x.1 = Http3StreamState.StreamType) then (parse_uni_stream_type ;; mret tt) x else (Ok tt, x) in
  match typed with
  | (Ok _, x) =>
      match stream_type x.1 with
      | Some Http3StreamType.Control => control_loop fuel x
      | Some _ => ([], Err H3Done, x)
      | None => ([], Panic, x)
      end
  | (Err e, x) => ([], Err e, x)
  | (Panic, x) => ([], Panic, x)
  end.

End Driver.

(** ** The list of pending bytes as a transport *)

(** The pending bytes, and the error the connection was closed with. *)
Abbreviation feed := (list Z * option Z)%type.

#[global] Instance feed_source : StreamSource feed := {|
  src_read n := fun '(p, c) =>
    match p with [] => (Err Done, (p, c)) | _ => (Ok (ztake n p, false), (zdrop n p, c)) end;
  src_readable := fun '(p, _) => bool_decide (p <> []);
  src_close code := fun '(p, c) =>
    match c with Some _ => (Err Done, (p, c)) | None => (Ok tt, (p, Some code)) end;
|}.

(** ** Filling the buffer *)

(** The bytes of the current item that have arrived. *)
Definition got (m : Http3StateMachine) : list Z := ztake (write_off m) (buf m).

Lemma got_len m : 0 <= write_off m <= len (buf m) -> len (got m) = write_off m.
Proof. apply len_ztake. Qed.

Lemma ztake_more {A} n (l k : list A) : len l <= n -> ztake n (l ++ k) = l ++ ztake (n - len l) k.
Proof.
  intros. unfold ztake, len in *. rewrite take_app_ge by lia. do 2 f_equal. lia.
Qed.
Lemma zdrop_more {A} n (l k : list A) : len l <= n -> zdrop n (l ++ k) = zdrop (n - len l) k.
Proof.
  intros. unfold zdrop, len in *. rewrite drop_app_ge by lia. f_equal. lia.
Qed.
Lemma ztake_fewer {A} n (l k : list A) : n <= len l -> ztake n (l ++ k) = ztake n l.
Proof. intros. unfold ztake, len in *. apply take_app_le. lia. Qed.
Lemma zdrop_fewer {A} n (l k : list A) : n <= len l -> zdrop n (l ++ k) = zdrop n l ++ k.
Proof. intros. unfold zdrop, len in *. apply drop_app_le. lia. Qed.
Lemma zdrop_zdrop {A} n k (l : list A) : 0 <= n -> 0 <= k -> zdrop n (zdrop k l) = zdrop (k + n) l.
Proof. intros. unfold zdrop. rewrite drop_drop. f_equal. lia. Qed.
Lemma zdrop_cons_pos {A} n (x : A) l : 1 <= n -> zdrop n (x :: l) = zdrop (n - 1) l.
Proof. intros. unfold zdrop. by replace (Z.to_nat n) with (Datatypes.S (Z.to_nat (n - 1))) by lia. Qed.
Lemma ztake_all {A} n (l : list A) : len l <= n -> ztake n l = l.
Proof. intros. unfold ztake, len in *. apply take_ge. lia. Qed.
Lemma zdrop_all {A} n (l : list A) : len l <= n -> zdrop n l = [].
Proof. intros. unfold zdrop, len in *. apply drop_ge. lia. Qed.

Lemma with_machine_same st : with_machine (machine st) st = st.
Proof. by destruct st. Qed.

(** With [t] the bytes of the item so far and those pending, either [t] is short
    and all of it is stored, or the item is complete. *)
Lemma fill_run st p c :
  let m := machine st in let t := got m ++ p in
  0 <= write_off m <= expected_len m -> expected_len m <= len (buf m) ->
  read_and_fill_buffer (st, (p, c) : feed) =
    if len t <? expected_len m then
      (Err H3Done, (reset_data_event_state (with_machine
         (mkMachine (Http3StateMachine.state m) (t ++ zdrop (len t) (buf m)) (expected_len m) (len t)) st), ([], c)))
    else
      (Ok tt, (with_machine (mkMachine (Http3StateMachine.state m) (ztake (expected_len m) t ++ zdrop (expected_len m) (buf m))
         (expected_len m) (expected_len m)) st, (zdrop (expected_len m - write_off m) p, c))).
Proof.
  cbv zeta. set (m := machine st). set (t := got m ++ p). intros Hw Hk.
  assert (len (got m) = write_off m) as Hg by (apply got_len; lia).
  assert (len t = write_off m + len p) as Ht by (unfold t; rewrite len_app; lia).
  pose proof (len_nonneg p). unfold read_and_fill_buffer. fold m.
  unfold Http3StateMachine.ready at 1. destruct (Z.eqb_spec (write_off m) (expected_len m)) as [Heq|Hne].
  { zcase; [lia|]. rewrite Heq, Z.sub_diag. change (zdrop 0 p) with p.
    assert (ztake (expected_len m) t = ztake (expected_len m) (buf m)) as ->
      by (unfold t; rewrite ztake_fewer by lia; unfold got; rewrite Heq; apply ztake_all; rewrite len_ztake; lia).
    rewrite ztake_zdrop. assert (mkMachine (Http3StateMachine.state m) (buf m) (expected_len m) (expected_len m) = m) as ->
      by (rewrite <- Heq at 2; by destruct m).
    unfold m. by rewrite with_machine_same. }
  destruct (Z.leb_spec (write_off m) (expected_len m)); [|lia].
  destruct (Z.leb_spec (expected_len m) (len (buf m))); [|lia]. cbn [andb].
  destruct p as [|x p']; cbn [src_read feed_source].
  { assert (len t = write_off m) as Ht' by (rewrite Ht, len_nil; lia). zcase; [|lia].
    rewrite decide_True by done. cbn [from_error]. rewrite Ht'. unfold t. rewrite app_nil_r. unfold got. rewrite ztake_zdrop.
    assert (mkMachine (Http3StateMachine.state m) (buf m) (expected_len m) (write_off m) = m) as -> by (by destruct m).
    unfold m. by rewrite with_machine_same. }
  set (p := x :: p') in *. clearbody p. cbn [Http3StateMachine.increase_off expected_len write_off Http3StateMachine.state buf machine with_machine].
  unfold Http3StateMachine.ready, Http3StateMachine.increase_off. cbn [expected_len write_off Http3StateMachine.state buf].
  destruct (Z.ltb_spec (len t) (expected_len m)) as [Hs|Hl].
  - rewrite (ztake_all _ p), (zdrop_all _ p) by lia. destruct (Z.eqb_spec (write_off m + len p) (expected_len m)); [lia|].
    cbn [negb]. unfold t at 1. rewrite Ht. unfold got. by rewrite <- app_assoc.
  - rewrite len_ztake by lia. replace (write_off m + (expected_len m - write_off m)) with (expected_len m) by lia.
    rewrite Z.eqb_refl. cbn [negb]. unfold t. rewrite ztake_more, <- app_assoc, Hg by lia. done.
Qed.

(** ** Reading an integer *)

Lemma len_resize_to n l : 0 <= n -> len (resize_to n l) = n.
Proof.
  intros Hn. unfold resize_to. rewrite len_app. unfold len, ztake. rewrite repeat_length, length_take.
  pose proof (Zle_0_nat (length l)). lia.
Qed.
Lemma resize_to_same n l : len l = n -> resize_to n l = l.
Proof. intros <-. unfold resize_to. rewrite ztake_all, Z.sub_diag by lia. apply app_nil_r. Qed.
Lemma resize_to_prefix n x l : 1 <= n -> resize_to n (x :: l) = x :: resize_to (n - 1) l.
Proof.
  intros Hn. unfold resize_to. rewrite len_cons. unfold ztake.
  replace (Z.to_nat n) with (Datatypes.S (Z.to_nat (n - 1))) by lia. cbn [take app].
  do 3 f_equal. lia.
Qed.
Lemma bytes_ok_resize n l : bytes_ok l -> bytes_ok (resize_to n l).
Proof.
  intros Hl. apply bytes_ok_app. split; [by apply bytes_ok_ztake|].
  apply Forall_forall. intros y Hy. apply list_elem_of_In, repeat_spec in Hy as ->. by unfold is_u8.
Qed.

(** A machine that reads an integer: no byte of it yet, or some with the first
    announcing the length. *)
Record varint_wf (m : Http3StateMachine) : Prop := {
  vwf_bytes : bytes_ok (buf m);
  vwf_shape :
    (write_off m = 0 /\ expected_len m = 1 /\ 1 <= len (buf m)) \/
    (1 <= write_off m < expected_len m /\ len (buf m) = expected_len m /\
     decode_varint_len (nth 0 (buf m) 0) = Ok (expected_len m));
}.

(** The machine that has stored all of [t], the first bytes of a [k]-byte item. *)
Definition stored_of (k : Z) (t : list Z) (m : Http3StateMachine) : Http3StateMachine :=
  mkMachine (Http3StateMachine.state m) (t ++ zdrop (len t) (resize_to k (buf m))) k (len t).

Lemma varint_run_none st p (c : option Z) :
  varint_wf (machine st) -> got (machine st) ++ p = [] ->
  read_and_parse_varint (st, (p, c) : feed) = (Err H3Done, (reset_data_event_state st, ([], c))).
Proof.
  intros [_ Hs] Ht. apply app_nil in Ht as [Hg ->].
  assert (write_off (machine st) = 0) as Hw.
  { destruct Hs as [(? & _)|((H1 & H2) & Hl & _)]; [done|]. assert (len (got (machine st)) = 0) as H by (by rewrite Hg).
    rewrite got_len in H by lia. lia. }
  destruct Hs as [(_ & He & Hl)|(? & _)]; [|lia].
  unfold read_and_parse_varint, mbind, action_bind. rewrite fill_run by lia. rewrite Hg, He. cbn [app].
  change (len (@nil Z) <? 1) with true. cbv iota. change (zdrop (len (@nil Z)) (buf (machine st))) with (buf (machine st)).
  rewrite len_nil, <- Hw, <- He. by destruct st as [? ? ? ? []].
Qed.

Lemma byte_varint_len b : bytes_ok b -> b <> [] -> exists k, decode_varint_len (nth 0 b 0) = Ok k /\ varint_size k.
Proof.
  destruct b as [|x b]; [done|]. intros Hb _. apply Forall_cons_1 in Hb as [? _].
  destruct (decode_varint_len_byte x) as (l & ? & ?); eauto.
Qed.

Lemma varint_size_pos k : varint_size k -> 1 <= k.
Proof. unfold varint_size. lia. Qed.

Lemma resize_to_0 l : resize_to 0 l = [].
Proof. unfold resize_to. pose proof (len_nonneg l). by replace (Z.to_nat (0 - len l)) with 0%nat by lia. Qed.

(** The first parse, when only the first byte is there. *)
Lemma parse_first s x b k : decode_varint_len x = Ok k -> 1 <= k ->
  parse_varint (mkMachine s (x :: b) 1 1) =
    (if k =? 1 then r ← h3 (read_varint [x]); mret r.1 else Err H3Done, mkMachine s (x :: resize_to (k - 1) b) k 1).
Proof.
  intros Hd Hk. unfold parse_varint. cbn [write_off buf Http3StateMachine.state].
  change (1 =? 1) with true. cbv iota. cbn [head unwrap mbind outcome_bind]. rewrite Hd. cbn [h3 mbind outcome_bind mret outcome_ret].
  rewrite resize_to_prefix by lia. unfold Http3StateMachine.ready. cbn [write_off expected_len buf].
  rewrite (Z.eqb_sym 1 k). destruct (Z.eqb_spec k 1) as [->|]; [|done]. cbn [negb].
  change (1 - 1) with 0. by rewrite resize_to_0.
Qed.

(** A later parse, of the complete integer. *)
Lemma parse_full s b k : k <> 1 -> parse_varint (mkMachine s b k k) = (r ← h3 (read_varint b); mret r.1, mkMachine s b k k).
Proof.
  intros Hk. unfold parse_varint, Http3StateMachine.ready. cbn [write_off expected_len buf].
  destruct (Z.eqb_spec k 1); [done|]. by rewrite Z.eqb_refl.
Qed.

Lemma read_varint_prefix t k n rest : bytes_ok t -> t <> [] -> decode_varint_len (nth 0 t 0) = Ok k -> varint_size k ->
  read_varint t = Ok (n, rest) ->
  k <= len t /\ rest = zdrop k t /\ (r ← h3 (read_varint (ztake k t)); mret r.1 : res3 Z) = Ok n.
Proof.
  intros Hb Hne Hd Hk Hr. pose proof (varint_size_pos k Hk). rewrite (read_varint_run t k) in Hr by done.
  destruct (Z.ltb_spec (len t) k); [done|]. injection Hr as <- <-. split; [done|]. split; [done|].
  assert (nth 0 (ztake k t) 0 = nth 0 t 0 /\ ztake k t <> []) as [Hn Hne'].
  { destruct t as [|x t]; [done|]. unfold ztake. by replace (Z.to_nat k) with (Datatypes.S (Z.to_nat (k - 1))) by lia. }
  rewrite (read_varint_run (ztake k t) k); [|by apply bytes_ok_ztake|done|by rewrite Hn|done].
  rewrite len_ztake, Z.ltb_irrefl by lia. cbn. by rewrite (ztake_all k (ztake k t)) by (rewrite len_ztake; lia).
Qed.

(** The two ways an integer is read once its length [k] is known. *)
Definition varint_result (st : Http3Stream) (t p : list Z) (c : option Z) (k : Z) : outcome Http3Error Z * (Http3Stream * feed) :=
  let m := machine st in
  if len t <? k then (Err H3Done, (reset_data_event_state (with_machine (stored_of k t m) st), ([], c)))
  else (r ← h3 (read_varint (ztake k t)); mret r.1,
        (with_machine (mkMachine (Http3StateMachine.state m) (ztake k t) k k) st, (zdrop (k - write_off m) p, c))).

Lemma on_machine_run {S A} `{StreamSource S} (f : action Http3Error Http3StateMachine A) st (s : S) :
  on_machine f (st, s) = let '(r, x) := f (machine st) in (r, (with_machine x st, s)).
Proof. unfold on_machine, on_stream. by destruct (f (machine st)). Qed.

Lemma with_machine_twice m m' st : with_machine m (with_machine m' st) = with_machine m st.
Proof. done. Qed.

(** From the second byte on, the length is known. *)
Lemma varint_run_later st p c k :
  let m := machine st in let t := got m ++ p in
  1 <= write_off m < k -> expected_len m = k -> len (buf m) = k ->
  (read_and_fill_buffer ;; on_machine parse_varint) (st, (p, c) : feed) = varint_result st t p c k.
Proof.
  cbv zeta. set (m := machine st). set (t := got m ++ p). intros Hw He Hl.
  unfold mbind, action_bind. rewrite fill_run by (fold m; lia). fold m t. rewrite He.
  unfold varint_result. fold m. destruct (Z.ltb_spec (len t) k).
  - unfold stored_of. by rewrite resize_to_same.
  - rewrite on_machine_run. cbn [machine with_machine]. rewrite (zdrop_all k (buf m)), app_nil_r by lia.
    by rewrite parse_full by lia.
Qed.

Lemma varint_run st p c k :
  let t := got (machine st) ++ p in
  varint_wf (machine st) -> bytes_ok p -> t <> [] -> decode_varint_len (nth 0 t 0) = Ok k -> varint_size k ->
  read_and_parse_varint (st, (p, c) : feed) = varint_result st t p c k.
Proof.
  cbv zeta. set (m := machine st). set (t := got m ++ p). intros [Hbuf Hs] Hbp Hne Hd Hks.
  pose proof (varint_size_pos k Hks) as Hk.
  assert (k <= len t -> exists n, (r ← h3 (read_varint (ztake k t)); mret r.1 : res3 Z) = Ok n) as Hval.
  { intros Hkt. assert (bytes_ok t) as Hbt by (apply bytes_ok_app; split; [by apply bytes_ok_ztake|done]).
    pose proof (read_varint_run t k Hbt Hne Hd Hks) as Hr. destruct (Z.ltb_spec (len t) k); [lia|].
    apply read_varint_prefix with (k := k) in Hr as (_ & _ & Hr); eauto. }
  destruct Hs as [(Hw & He & Hl)|(Hw & Hl & Hd')].
  - assert (t = p) as Ht by (unfold t, got; by rewrite Hw). rewrite Ht in *. clear t Ht. destruct p as [|x p]; [done|].
    cbn in Hd. destruct (buf m) as [|y b] eqn:Hb; [rewrite len_nil in Hl; lia|].
    assert (got m = []) as Hg by (unfold got; by rewrite Hw).
    unfold read_and_parse_varint. unfold mbind at 1, action_bind at 1. rewrite fill_run by (fold m; rewrite ?Hb; lia).
    fold m. rewrite Hg, He, Hw, Hb. cbn [app]. rewrite len_cons. pose proof (len_nonneg p). destruct (Z.ltb_spec (1 + len p) 1); [lia|].
    change (ztake 1 (x :: p) ++ zdrop 1 (y :: b)) with (x :: b). change (zdrop (1 - 0) (x :: p)) with p.
    unfold parse_or_refill. rewrite on_machine_run. cbn [machine with_machine]. rewrite (parse_first _ x b k) by done.
    rewrite with_machine_twice. unfold varint_result. fold m. rewrite Hw, len_cons.
    destruct (Z.eqb_spec k 1) as [->|Hk1].
    + destruct (Z.ltb_spec (1 + len p) 1); [lia|]. change (1 - 1) with 0. rewrite resize_to_0. change (ztake 1 (x :: p)) with [x].
      change (zdrop (1 - 0) (x :: p)) with p. destruct Hval as [n Hn]; [rewrite len_cons; lia|]. change (ztake 1 (x :: p)) with [x] in Hn. by rewrite Hn.
    + rewrite (varint_run_later _ _ _ k); cbn [machine with_machine buf write_off expected_len]; [|lia|done|].
      2: { rewrite len_cons, len_resize_to by lia. lia. }
      unfold varint_result, got, stored_of. cbn [machine with_machine buf write_off expected_len Http3StateMachine.state].
      change (ztake 1 (x :: resize_to (k - 1) b) ++ p) with (x :: p). rewrite len_cons, Hb, (resize_to_prefix k y b) by lia.
      rewrite (resize_to_same k) by (rewrite len_cons, len_resize_to; lia).
      zcase; rewrite with_machine_twice; [by rewrite !(zdrop_cons_pos (1 + len p)) by lia|].
      rewrite (zdrop_cons_pos (k - 0)) by lia. by replace (k - 0 - 1) with (k - 1) by lia.
  - assert (k = expected_len m) as ->.
    { assert (nth 0 t 0 = nth 0 (buf m) 0) as Hn; [|rewrite Hn in Hd; congruence].
      unfold t, got, ztake. destruct (buf m) as [|y b]; [rewrite len_nil in Hl; lia|].
      by replace (Z.to_nat (write_off m)) with (Datatypes.S (Z.to_nat (write_off m - 1))) by lia. }
    pose proof (varint_run_later st p c (expected_len m) Hw eq_refl Hl) as Hlater. fold m t in Hlater. rewrite <- Hlater.
    unfold read_and_parse_varint, mbind, action_bind. rewrite fill_run by (fold m; lia). fold m t.
    destruct (Z.ltb_spec (len t) (expected_len m)); [done|]. unfold parse_or_refill. rewrite on_machine_run. cbn [machine with_machine].
    rewrite (zdrop_all (expected_len m) (buf m)), app_nil_r, parse_full by lia.
    destruct Hval as [n Hn]; [done|]. by rewrite Hn.
Qed.

(** ** Resuming *)

(** An action that may be stopped by the end of the pending bytes and run again
    when more have come: on more bytes it succeeds or fails as before and leaves
    them, and where it stopped, running it again on the new bytes is as good as
    having had all of them.  [P] is what it needs of the stream, [Q] what it
    achieves. *)
Definition resumes {A} (m : action Http3Error (Http3Stream * feed) A) (P : Http3Stream -> Prop)
    (Q : Http3Stream -> list Z -> A -> Http3Stream -> list Z -> Prop) : Prop :=
  forall st p, P st -> bytes_ok p ->
  match m (st, (p, None)) with
  | (Ok a, (st', (p', c'))) =>
      c' = None /\ Q st p a st' p' /\ forall q, bytes_ok q -> m (st, (p ++ q, None)) = (Ok a, (st', (p' ++ q, None)))
  | (Err H3Done, (st', (p', c'))) =>
      p' = [] /\ c' = None /\ P st' /\ forall q, bytes_ok q -> m (st, (p ++ q, None)) = m (st', (q, None))
  | (Err e, (st', (p', c'))) =>
      c' = Some (to_wire e) /\ forall q, bytes_ok q -> m (st, (p ++ q, None)) = (Err e, (st', (p' ++ q, c')))
  | (Panic, _) => False
  end.

Lemma reset_quiet st : data_event_triggered st = false -> reset_data_event_state st = st.
Proof. destruct st. cbn. by intros ->. Qed.

Lemma stored_of_wf k t m : t <> [] -> bytes_ok t -> bytes_ok (buf m) -> len t < k ->
  decode_varint_len (nth 0 t 0) = Ok k -> varint_wf (stored_of k t m).
Proof.
  intros Hne Ht Hb Hk Hd. destruct t as [|x t]; [done|]. split; cbn [stored_of buf write_off expected_len].
  - apply bytes_ok_app. split; [done|]. by apply bytes_ok_zdrop, bytes_ok_resize.
  - right. rewrite len_app, len_zdrop, len_resize_to by (rewrite ?len_resize_to; pose proof (len_nonneg (x :: t)); lia).
    split_and!; [rewrite len_cons; pose proof (len_nonneg t); lia|done|lia|done].
Qed.

Lemma stored_of_again k t q m : len t < k -> stored_of k (t ++ q) (stored_of k t m) = stored_of k (t ++ q) m.
Proof.
  intros Hk. pose proof (len_nonneg t). pose proof (len_nonneg q). unfold stored_of at 1 3. cbn [Http3StateMachine.state stored_of buf]. do 2 f_equal.
  rewrite (resize_to_same k) by (rewrite len_app, len_zdrop, len_resize_to by (rewrite ?len_resize_to; lia); lia).
  rewrite zdrop_more, zdrop_zdrop by (rewrite ?len_app; lia). f_equal. lia.
Qed.

(** A fact that filling the buffer does not touch. *)
Definition framed (K : Http3Stream -> Prop) : Prop :=
  forall st b k w, K st -> K (with_machine (mkMachine (Http3StateMachine.state (machine st)) b k w) st).

Definition integer_read (st : Http3Stream) (p : list Z) (n : Z) (st' : Http3Stream) (p' : list Z) : Prop :=
  is_vint n /\ len p' < len p /\ bytes_ok p' /\
  exists b k, st' = with_machine (mkMachine (Http3StateMachine.state (machine st)) b k k) st /\ bytes_ok b.

Lemma resumes_varint K : framed K ->
  resumes read_and_parse_varint (fun st => varint_wf (machine st) /\ data_event_triggered st = false /\ K st) integer_read.
Proof.
  intros HK st p (Hwf & Hq & Hst) Hp. set (t := got (machine st) ++ p).
  assert (bytes_ok t) as Ht by (apply bytes_ok_app; split; [apply bytes_ok_ztake, Hwf|done]).
  destruct (decide (t = [])) as [Hn|Hne].
  { rewrite varint_run_none by done. rewrite reset_quiet by done. split_and!; try done.
    intros q Hqb. apply app_nil in Hn as [_ ->]. done. }
  destruct (byte_varint_len t Ht Hne) as (k & Hd & Hk). pose proof (varint_size_pos k Hk).
  assert (0 <= write_off (machine st) < k /\ len t = write_off (machine st) + len p) as [Hw Hlt].
  { destruct Hwf as [_ [(? & ? & ?)|(? & ? & Hd')]].
    - unfold t. rewrite len_app, got_len; lia.
    - unfold t. rewrite len_app, got_len by lia. split; [|done]. split; [lia|].
      assert (nth 0 t 0 = nth 0 (buf (machine st)) 0) as Hn; [|rewrite Hn in Hd; assert (k = expected_len (machine st)) by congruence; lia].
      unfold t, got, ztake. destruct (buf (machine st)) as [|y b]; [rewrite len_nil in *; lia|].
      by replace (Z.to_nat (write_off (machine st))) with (Datatypes.S (Z.to_nat (write_off (machine st) - 1))) by lia. }
  assert (forall q, got (machine st) ++ p ++ q = t ++ q) as Htq by (intros; unfold t; by rewrite app_assoc).
  assert (forall q, nth 0 (t ++ q) 0 = nth 0 t 0) as Hnq by (by destruct t).
  assert (forall q, bytes_ok q -> read_and_parse_varint (st, (p ++ q, None) : feed) = varint_result st (t ++ q) (p ++ q) None k) as Hrun.
  { intros q Hqb. rewrite <- Htq. apply varint_run; rewrite ?Htq; [done|by apply bytes_ok_app|by destruct t|by rewrite Hnq|done]. }
  pose proof (Hrun [] (Forall_nil_2 _)) as Hrun0. rewrite !app_nil_r in Hrun0. rewrite Hrun0.
  unfold varint_result at 1. destruct (Z.ltb_spec (len t) k) as [Hs|Hl].
  - split_and!; [done|done| |done|rewrite reset_quiet by done; by apply HK|].
    + apply stored_of_wf; auto. apply Hwf.
    + intros q Hqb. rewrite Hrun by done. rewrite reset_quiet by done.
      assert (got (stored_of k t (machine st)) = t) as Hg by apply ztake_app_len.
      erewrite varint_run; cbn [machine with_machine]; rewrite ?Hg.
      2: apply stored_of_wf; auto; apply Hwf. all: rewrite ?Hnq; try done. 2: by destruct t.
      unfold varint_result. cbn [machine with_machine]. rewrite stored_of_again by done.
      rewrite !reset_quiet, !with_machine_twice by done. cbn [stored_of write_off Http3StateMachine.state].
      rewrite zdrop_more by lia. by replace (k - write_off (machine st) - len p) with (k - len t) by lia.
  - pose proof (read_varint_run t k Ht Hne Hd Hk) as Hr. destruct (Z.ltb_spec (len t) k); [lia|].
    pose proof (safe_varint t Ht) as Hv. rewrite Hr in Hv.
    pose proof (read_varint_prefix t k _ _ Ht Hne Hd Hk Hr) as (_ & _ & Hn). rewrite Hn. split_and!; [done| |].
    + split; [apply Hv|]. rewrite len_zdrop by lia. split; [lia|]. split; [by apply bytes_ok_zdrop|]. eexists _, _. split; [done|]. by apply bytes_ok_ztake.
    + intros q Hqb. rewrite Hrun by done. unfold varint_result. pose proof (len_nonneg q). rewrite len_app.
      destruct (Z.ltb_spec (len t + len q) k); [lia|]. rewrite ztake_fewer, Hn, zdrop_fewer by lia. done.
Qed.

(** A machine that collects a payload. *)
Record payload_wf (m : Http3StateMachine) : Prop := {
  pwf_bytes : bytes_ok (buf m);
  pwf_off : 0 <= write_off m <= expected_len m;
  pwf_len : len (buf m) = expected_len m;
}.

Definition payload_read (st : Http3Stream) (p : list Z) (_ : unit) (st' : Http3Stream) (p' : list Z) : Prop :=
  len p' <= len p /\ bytes_ok p' /\
  exists b, let m := machine st in
    st' = with_machine (mkMachine (Http3StateMachine.state m) b (expected_len m) (expected_len m)) st /\
    bytes_ok b /\ len b = expected_len m.

Lemma resumes_fill K : framed K ->
  resumes read_and_fill_buffer (fun st => payload_wf (machine st) /\ data_event_triggered st = false /\ K st) payload_read.
Proof.
  intros HK st p ([Hb Hw Hl] & Hq & Hst) Hp. set (m := machine st) in *. set (t := got m ++ p).
  assert (len t = write_off m + len p) as Ht by (unfold t; rewrite len_app, got_len; lia).
  assert (forall q, got m ++ p ++ q = t ++ q) as Htq by (intros; unfold t; by rewrite app_assoc).
  assert (bytes_ok t) as Hbt by (apply bytes_ok_app; split; [by apply bytes_ok_ztake|done]). pose proof (len_nonneg p).
  rewrite fill_run by (fold m; lia). fold m t. destruct (Z.ltb_spec (len t) (expected_len m)) as [Hs|Hg].
  - split_and!; [done|done| |done|rewrite reset_quiet by done; by apply HK|].
    + split; cbn [machine with_machine reset_data_event_state with_data_event_triggered buf write_off expected_len]; [|lia|].
      * apply bytes_ok_app. split; [done|]. by apply bytes_ok_zdrop.
      * rewrite len_app, len_zdrop; lia.
    + intros q Hqb. pose proof (len_nonneg q). rewrite !reset_quiet by done. rewrite !fill_run; cbn [machine with_machine buf write_off expected_len].
      all: fold m. all: try (rewrite ?len_app, ?len_zdrop; lia).
      fold m. rewrite Htq. unfold got. cbn [buf write_off]. rewrite ztake_app_len, !len_app.
      destruct (Z.ltb_spec (len t + len q) (expected_len m)); rewrite ?with_machine_twice; cbn [Http3StateMachine.state].
      * rewrite zdrop_more, zdrop_zdrop by lia. by replace (len t + (len t + len q - len t)) with (len t + len q) by lia.
      * rewrite !(zdrop_more _ t), !(zdrop_more _ p), zdrop_zdrop by lia.
        replace (len t + (expected_len m - len t)) with (expected_len m) by lia.
        by replace (expected_len m - write_off m - len p) with (expected_len m - len t) by lia.
  - rewrite (zdrop_all (expected_len m) (buf m)), app_nil_r by lia. split_and!; [done| |].
    + split; [rewrite len_zdrop; lia|]. split; [by apply bytes_ok_zdrop|]. eexists. split; [done|]. fold m. split; [by apply bytes_ok_ztake|]. rewrite len_ztake; lia.
    + intros q Hqb. pose proof (len_nonneg q). rewrite fill_run by (fold m; lia). fold m. rewrite Htq, len_app.
      destruct (Z.ltb_spec (len t + len q) (expected_len m)); [lia|].
      by rewrite ztake_fewer, zdrop_fewer, (zdrop_all (expected_len m) (buf m)), app_nil_r by lia.
Qed.

(** Parse, then change the stream, closing the connection on an error. *)
Lemma resumes_close {A B} (m : action Http3Error (Http3Stream * feed) A) (f : A -> Http3Stream -> res3 B * Http3Stream) P Q1 Q :
  resumes m P Q1 ->
  (forall st p a st1 p', P st -> Q1 st p a st1 p' ->
     match f a st1 with
     | (Ok b, st2) => Q st p b st2 p'
     | (Err e, _) => e <> H3Done
     | (Panic, _) => False
     end) ->
  resumes (a ← m; or_close (f a)) P Q.
Proof.
  intros Hm Hf st p HP Hp. specialize (Hm st p HP Hp). unfold mbind, action_bind.
  destruct (m (st, (p, None))) as [[a|e|] [st1 [p1 c1]]]; [| |done].
  - destruct Hm as (-> & HQ & Hm). specialize (Hf st p a st1 p1 HP HQ). unfold or_close at 1, on_stream at 1.
    destruct (f a st1) as [[b|e|] st2] eqn:Hfa; [| |done].
    + split_and!; [done..|]. intros q Hq. rewrite Hm by done. unfold or_close, on_stream. by rewrite Hfa.
    + assert (forall q, (or_close (f a) (st1, (p1 ++ q, None)) : outcome Http3Error B * (Http3Stream * feed)) =
               (Err e, (st2, (p1 ++ q, Some (to_wire e))))) as Hc.
      { intros q. unfold or_close, on_stream. by rewrite Hfa. }
      unfold close_with, on_source, mbind, action_bind. cbn [src_close feed_source h3 fail].
      destruct e; try (by destruct Hf); (split; [done|]; intros q Hq; rewrite Hm by done; by rewrite Hc).
  - destruct e; destruct Hm as (H1 & H2); try (split; [done|]; intros q Hq; by rewrite H2 by done).
    destruct H2 as (-> & HP' & H2). split_and!; try done. intros q Hq. by rewrite H2 by done.
Qed.

Lemma resumes_ext {A} (m m' : action Http3Error (Http3Stream * feed) A) P Q :
  (forall st p, P st -> bytes_ok p -> m (st, (p, None)) = m' (st, (p, None))) -> resumes m' P Q -> resumes m P Q.
Proof.
  intros He Hm st p HP Hp. specialize (Hm st p HP Hp). rewrite He by done.
  destruct (m' (st, (p, None))) as [[a|e|] [st1 [p1 c1]]]; [| |done].
  - destruct Hm as (? & ? & Hm). split_and!; try done. intros q Hq. rewrite He by (done || by apply bytes_ok_app). auto.
  - destruct e; destruct Hm as (H1 & H2); try (split; [done|]; intros q Hq; rewrite He by (done || by apply bytes_ok_app); auto).
    destruct H2 as (-> & HP' & H2). split_and!; try done. intros q Hq. rewrite !He by (done || by apply bytes_ok_app). auto.
Qed.

(** ** The control stream *)

Definition has_frame_type (st : Http3Stream) : Prop :=
  exists t, frame_type_ st = Some t /\ t <> DATA_FRAME_TYPE.

(** The control stream between two calls. *)
Record reading (st : Http3Stream) : Prop := {
  rd_type : stream_type st = Some Http3StreamType.Control;
  rd_quiet : data_event_triggered st = false;
  rd_state :
    match state st with
    | Http3StreamState.FrameType => varint_wf (machine st)
    | Http3StreamState.FramePayloadLen => varint_wf (machine st) /\ has_frame_type st
    | Http3StreamState.FramePayload => payload_wf (machine st) /\ has_frame_type st
    | _ => False
    end;
}.

(** What is left to do: each round takes a byte or finishes a payload. *)
Definition work (st : Http3Stream) (p : list Z) : Z :=
  2 * len p + (if decide (state st = Http3StreamState.FramePayload) then 1 else 0).

Definition round_done {A} (st : Http3Stream) (p : list Z) (_ : A) (st' : Http3Stream) (p' : list Z) : Prop :=
  reading st' /\ work st' p' < work st p /\ bytes_ok p'.

Lemma transition_ok s n st : 0 <= n <= MAX_STATE_BUF_SIZE ->
  transition_state s n true st = Ok (with_machine (mkMachine s (resize_to n (buf (machine st))) n 0) st).
Proof.
  intros Hn. unfold transition_state, transition. cbn [andb]. by destruct (Z.ltb_spec MAX_STATE_BUF_SIZE n); [lia|].
Qed.

Lemma fresh_varint s b : bytes_ok b -> varint_wf (mkMachine s (resize_to 1 b) 1 0).
Proof. intros Hb. split; [by apply bytes_ok_resize|]. left. cbn. rewrite len_resize_to; lia. Qed.

Lemma control_check_cases ft st : stream_type st = Some Http3StreamType.Control ->
  match check_frame_on_control_stream ft st with
  | Ok st' => (st' = st \/ st' = with_peer_initialized true st) /\ ft <> DATA_FRAME_TYPE
  | Err e => e = MissingSettings \/ e = FrameUnexpected
  | Panic => False
  end.
Proof.
  intros _. unfold check_frame_on_control_stream. destruct (peer_initialized st); cbn [negb].
  - destruct (Z.eqb_spec ft DATA_FRAME_TYPE); destruct (ft =? SETTINGS_FRAME_TYPE); cbn; auto.
    destruct (_ || _); auto.
  - destruct (Z.eqb_spec ft SETTINGS_FRAME_TYPE) as [->|]; auto.
Qed.

Lemma resumes_map {A B} (m : action Http3Error (Http3Stream * feed) A) (g : A -> B) P Q Q' :
  resumes m P Q -> (forall st p a st' p', Q st p a st' p' -> Q' st p (g a) st' p') -> resumes (a ← m; mret (g a)) P Q'.
Proof.
  intros Hm HQ st p HP Hp. specialize (Hm st p HP Hp). unfold mbind, action_bind, mret, action_ret.
  destruct (m (st, (p, None))) as [[a|e|] [st1 [p1 c1]]]; [| |done].
  - destruct Hm as (-> & H1 & H2). split_and!; auto. intros q Hq. by rewrite H2.
  - destruct e; destruct Hm as (H1 & H2); try (split; [done|]; intros q Hq; by rewrite H2 by done).
    destruct H2 as (-> & HP' & H2). split_and!; try done. intros q Hq. by rewrite H2 by done.
Qed.

Lemma resumes_iff {A} (m : action Http3Error (Http3Stream * feed) A) P P' Q :
  (forall st, P st <-> P' st) -> resumes m P' Q -> resumes m P Q.
Proof.
  intros Hi Hm st p HP Hp. specialize (Hm st p (proj1 (Hi st) HP) Hp).
  destruct (m (st, (p, None))) as [[a|e|] [st1 [p1 c1]]]; [done| |done].
  destruct e; try done. destruct Hm as (? & ? & ? & ?). split_and!; auto. by apply Hi.
Qed.

(** The facts of a control stream that is in state [s]. *)
Definition in_state (s : Http3StreamState.Http3StreamState) (st : Http3Stream) : Prop :=
  stream_type st = Some Http3StreamType.Control /\ state st = s /\
  (s <> Http3StreamState.FrameType -> has_frame_type st).

Lemma in_state_framed s : framed (in_state s).
Proof. by intros st b k w (? & ? & ?). Qed.

Lemma reading_in_state s st :
  reading st /\ state st = s <->
  match s with
  | Http3StreamState.FrameType | Http3StreamState.FramePayloadLen =>
      varint_wf (machine st) /\ data_event_triggered st = false /\ in_state s st
  | Http3StreamState.FramePayload => payload_wf (machine st) /\ data_event_triggered st = false /\ in_state s st
  | _ => False
  end.
Proof.
  unfold in_state. split.
  - intros [[Ht Hq Hs] <-]. destruct (state st); naive_solver.
  - destruct s; try done; intros (? & ? & ? & Hst & Hf); (split; [|done]); split; auto; rewrite Hst; auto.
Qed.

Lemma resumes_frame_type :
  resumes control_round (fun st => reading st /\ state st = Http3StreamState.FrameType) round_done.
Proof.
  eapply resumes_iff; [intros st; apply reading_in_state|]. cbv iota.
  eapply resumes_ext with (m' := _ ← parse_frame_type; mret None).
  { intros st p (_ & _ & _ & Hs & _) _. unfold control_round. cbn [fst]. by rewrite Hs. }
  apply (resumes_map _ (fun _ => None) _ round_done); [|done].
  eapply resumes_close; [apply resumes_varint, in_state_framed|].
  intros st p n st1 p' (Hwf & Hq & Ht & Hs & _) (Hn & Hlen & Hbp & b & k & -> & Hb).
  unfold set_frame_type. cbn [stream_type with_machine]. rewrite Ht.
  set (st1 := with_machine _ st). pose proof (control_check_cases n st1 Ht) as Hc.
  destruct (check_frame_on_control_stream n st1) as [st2|e|]; [|by destruct Hc; subst|done].
  destruct Hc as [Hst2 Hnd]. rewrite transition_ok by (unfold MAX_STATE_BUF_SIZE; lia). split; [split|].
  - by destruct Hst2; subst.
  - by destruct Hst2; subst.
  - split; [|by exists n]. apply fresh_varint. by destruct Hst2; subst.
  - split; [|done]. unfold work. rewrite decide_False by done. case_decide; lia.
Qed.

Lemma resumes_payload_len :
  resumes control_round (fun st => reading st /\ state st = Http3StreamState.FramePayloadLen) round_done.
Proof.
  eapply resumes_iff; [intros st; apply reading_in_state|]. cbv iota.
  eapply resumes_ext with (m' := _ ← parse_frame_payload_length; mret None).
  { intros st p (_ & _ & _ & Hs & _) _. unfold control_round. cbn [fst]. by rewrite Hs. }
  apply (resumes_map _ (fun _ => None) _ round_done); [|done].
  eapply resumes_close; [apply resumes_varint, in_state_framed|].
  intros st p n st1 p' (Hwf & Hq & Ht & Hs & Hf) (Hn & Hlen & Hbp & b & k & -> & Hb).
  destruct (Hf ltac:(done)) as (ft & Hft & Hnd). unfold set_frame_payload_len. cbn [frame_type_ with_machine].
  rewrite Hft. destruct (Z.eqb_spec ft DATA_FRAME_TYPE); [done|].
  destruct (needs_payload ft && (n =? 0)); [done|]. unfold transition_state, transition. cbn [andb].
  destruct (Z.ltb_spec MAX_STATE_BUF_SIZE n); [done|]. cbn [mbind outcome_bind mret outcome_ret].
  destruct Hn as [Hn _]. split; [split|]; try done.
  - split; [|by exists ft]. split; cbn; [by apply bytes_ok_resize|lia|by apply len_resize_to].
  - split; [|done]. unfold work. case_decide; case_decide; lia.
Qed.

(** What [parse_frame_payload] does with the collected payload. *)
Definition take_payload (st : Http3Stream) : res3 (Http3Frame * Z) * Http3Stream :=
  let st := reset_data_event_state st in
  let n := expected_len (machine st) in
  let r := ft ← unwrap (frame_type_ st);
           f ← decode_payload ft n (buf (machine st));
           st' ← transition_state Http3StreamState.FrameType 1 true st;
           mret (f, n, st') in
  match r with
  | Ok (f, n, st') => (Ok (f, n), st')
  | Err e => (Err e, st)
  | Panic => (Panic, st)
  end.

Lemma take_payload_spec st ft : frame_type_ st = Some ft -> bytes_ok (buf (machine st)) ->
  len (buf (machine st)) = expected_len (machine st) -> data_event_triggered st = false ->
  match take_payload st with
  | (Ok r, st') =>
      decode_payload ft (len (buf (machine st))) (buf (machine st)) = Ok r.1 /\ r.2 = len (buf (machine st)) /\
      st' = with_machine (mkMachine Http3StreamState.FrameType (resize_to 1 (buf (machine st))) 1 0) st
  | (Err e, _) => e <> H3Done
  | (Panic, _) => False
  end.
Proof.
  intros Hf Hb Hl Hq. unfold take_payload. rewrite reset_quiet, Hf, <- Hl by done. cbn [unwrap mbind outcome_bind].
  pose proof (h3_payload_total ft (buf (machine st)) Hb) as Ht.
  destruct (decode_payload ft _ _) as [f|e|]; [| |done].
  - rewrite transition_ok by (unfold MAX_STATE_BUF_SIZE; lia). done.
  - cbn. by destruct Ht as [->|[->| ->]].
Qed.

Lemma parse_frame_payload_close {S} `{StreamSource S} x :
  parse_frame_payload x =
  match read_and_fill_buffer x with
  | (Ok _, x) => match on_stream take_payload x with
                 | (Err H3Done, x) => (Err H3Done, x)
                 | (Err e, x) => close_with e x
                 | r => r
                 end
  | (Err H3Done, x) => (Err H3Done, x)
  | (Err e, x) => close_with e x
  | (Panic, x) => (Panic, x)
  end.
Proof.
  unfold parse_frame_payload, parse_frame_payload_inner. unfold mbind at 1, action_bind at 1.
  destruct (read_and_fill_buffer x) as [[[]|[]|] y]; done.
Qed.

Lemma resumes_payload :
  resumes control_round (fun st => reading st /\ state st = Http3StreamState.FramePayload) round_done.
Proof.
  assert (forall st p a st1 p', payload_wf (machine st) /\ data_event_triggered st = false /\ in_state Http3StreamState.FramePayload st ->
    payload_read st p a st1 p' -> match take_payload st1 with
      | (Ok b, st2) => round_done st p b st2 p' | (Err e, _) => e <> H3Done | (Panic, _) => False end) as Htake.
  { intros st p a st1 p' (Hwf & Hq & Ht & Hs & Hf) (Hlen & Hbp & b & Hst1 & Hb & Hlb).
    destruct (Hf ltac:(done)) as (ft & Hft & Hnd).
    pose proof (take_payload_spec st1 ft) as Hp. rewrite Hst1 in Hp at 1 2 3 4 5. specialize (Hp Hft Hb Hlb Hq).
    destruct (take_payload st1) as [[r|e|] st2]; [|done..]. destruct Hp as (_ & _ & ->). subst st1. split; [split|]; try done.
    - by apply fresh_varint.
    - split; [|done]. unfold work. rewrite decide_False by done. rewrite decide_True by done. lia. }
  eapply resumes_iff; [intros st; apply reading_in_state|]. cbv iota.
  eapply resumes_ext with (m' := r ← (a ← read_and_fill_buffer; or_close take_payload); mret (Some r)).
  { intros st p HP Hp. pose proof HP as (_ & _ & _ & Hs & _). unfold control_round. cbn [fst]. rewrite Hs.
    unfold mbind at 1 2, action_bind at 1 2. rewrite parse_frame_payload_close. unfold mbind, action_bind.
    pose proof (resumes_fill _ (in_state_framed _) st p HP Hp) as Hfill. pose proof HP as ([_ ? ?] & _).
    rewrite fill_run in * by lia. destruct (_ <? _); [done|]. destruct Hfill as (_ & Hr & _).
    specialize (Htake _ _ _ _ _ HP Hr). unfold or_close, on_stream.
    destruct (take_payload _) as [[?|[]|] ?]; done. }
  apply (resumes_map _ Some _ round_done); [|done].
  eapply resumes_close; [apply resumes_fill, in_state_framed|exact Htake].
Qed.

Lemma resumes_round : resumes control_round reading round_done.
Proof.
  intros st p Hr Hp. destruct (state st) eqn:Hs; pose proof (rd_state _ Hr) as Hst; rewrite Hs in Hst; try done.
  - pose proof (resumes_frame_type st p (conj Hr Hs) Hp) as H. destruct (control_round (st, (p, None))) as [[|[]|] [? []]]; naive_solver.
  - pose proof (resumes_payload_len st p (conj Hr Hs) Hp) as H. destruct (control_round (st, (p, None))) as [[|[]|] [? []]]; naive_solver.
  - pose proof (resumes_payload st p (conj Hr Hs) Hp) as H. destruct (control_round (st, (p, None))) as [[|[]|] [? []]]; naive_solver.
Qed.

Lemma work_nonneg st p : 0 <= work st p.
Proof. unfold work. pose proof (len_nonneg p). case_decide; lia. Qed.

(** More fuel than there is work does not matter. *)
Lemma loop_fuel_enough n : forall m st p, reading st -> bytes_ok p ->
  work st p < Z.of_nat n -> work st p < Z.of_nat m -> control_loop n (st, (p, None)) = control_loop m (st, (p, None)).
Proof.
  induction n as [|n IH]; intros m st p Hr Hp Hn Hm; pose proof (work_nonneg st p); [lia|].
  destruct m as [|m]; [lia|]. cbn [control_loop]. pose proof (resumes_round st p Hr Hp) as Hround.
  destruct (control_round (st, (p, None))) as [[o|e|] [st1 [p1 c1]]]; [|done..].
  destruct Hround as (-> & (Hr1 & Hw & Hp1) & _). by rewrite (IH m st1 p1) by (done || lia).
Qed.

Definition loop_fuel (st : Http3Stream) (p : list Z) : nat := Datatypes.S (Z.to_nat (work st p)).
Definition read_all_pending (st : Http3Stream) (p : list Z) := control_loop (loop_fuel st p) (st, (p, None)).

Lemma read_all_round st p : reading st -> bytes_ok p ->
  read_all_pending st p =
  match control_round (st, (p, None)) with
  | (Ok o, (st', (p', _))) =>
      let '(fs, e, x) := read_all_pending st' p' in ((match o with Some f => [f] | None => [] end) ++ fs, e, x)
  | (Err e, x) => ([], Err e, x)
  | (Panic, x) => ([], Panic, x)
  end.
Proof.
  intros Hr Hp. unfold read_all_pending at 1, loop_fuel. cbn [control_loop]. pose proof (resumes_round st p Hr Hp) as Hround.
  destruct (control_round (st, (p, None))) as [[o|e|] [st1 [p1 c1]]]; [|done..].
  destruct Hround as (-> & (Hr1 & Hw & Hp1) & _). pose proof (work_nonneg st1 p1).
  rewrite (loop_fuel_enough _ (loop_fuel st1 p1)) by (done || (unfold loop_fuel; lia)). fold (read_all_pending st1 p1).
  by destruct o, (read_all_pending st1 p1) as [[] []].
Qed.

(** The loop resumes as its rounds do. *)
Lemma loop_resumes n : forall st p, work st p < Z.of_nat n -> reading st -> bytes_ok p ->
  match read_all_pending st p with
  | (fs, Err H3Done, (st', (p', c'))) =>
      p' = [] /\ c' = None /\ reading st' /\ forall q, bytes_ok q ->
        read_all_pending st (p ++ q) = let '(gs, e, x) := read_all_pending st' q in (fs ++ gs, e, x)
  | (fs, Err e, (st', (p', c'))) =>
      c' = Some (to_wire e) /\ forall q, bytes_ok q -> read_all_pending st (p ++ q) = (fs, Err e, (st', (p' ++ q, c')))
  | _ => False
  end.
Proof.
  induction n as [|n IH]; intros st p Hn Hr Hp; [pose proof (work_nonneg st p); lia|].
  pose proof (resumes_round st p Hr Hp) as Hround. rewrite read_all_round by done.
  destruct (control_round (st, (p, None))) as [[o|e|] [st1 [p1 c1]]] eqn:Hrnd; [| |done].
  - destruct Hround as (-> & (Hr1 & Hw & Hp1) & Hmore). specialize (IH st1 p1 ltac:(lia) Hr1 Hp1).
    assert (forall q, bytes_ok q -> read_all_pending st (p ++ q) =
      let '(fs, e, x) := read_all_pending st1 (p1 ++ q) in ((match o with Some f => [f] | None => [] end) ++ fs, e, x)) as Hstep.
    { intros q Hq. rewrite read_all_round by (done || by apply bytes_ok_app). by rewrite Hmore by done. }
    destruct (read_all_pending st1 p1) as [[fs [[]|e|]] [st2 [p2 c2]]]; [|done].
    destruct e; destruct IH as (H1 & H2); try (split; [done|]; intros q Hq; by rewrite Hstep, H2 by done).
    destruct H2 as (-> & H3 & H4). split_and!; try done. intros q Hq. rewrite Hstep, H4 by done.
    destruct (read_all_pending st2 q) as [[] ?]. by rewrite app_assoc.
  - destruct e; destruct Hround as (H1 & H2);
      try (split; [done|]; intros q Hq; rewrite read_all_round by (done || by apply bytes_ok_app); by rewrite H2 by done).
    destruct H2 as (-> & H3 & H4). subst. split_and!; try done. intros q Hq.
    rewrite !(read_all_round _ (_ ++ _)), (read_all_round _ q) by (done || by apply bytes_ok_app). rewrite H4 by done.
    destruct (control_round (st1, (q, None))) as [[] [? []]]; try done. by destruct (read_all_pending _ _) as [[] ?].
Qed.

(** ** Frames on the control stream *)

(** Between two frames. *)
Record between (st : Http3Stream) : Prop := {
  btw_reading : reading st;
  btw_fresh : exists b, machine st = mkMachine Http3StreamState.FrameType b 1 0;
}.

Lemma bytes_ok_vb n : bytes_ok (vb n).
Proof. apply varint_bytes_ok. Qed.

(** A whole integer at once. *)
Lemma varint_whole st n rest : is_vint n -> bytes_ok rest -> varint_wf (machine st) -> write_off (machine st) = 0 ->
  read_and_parse_varint (st, (vb n ++ rest, None) : feed) =
    (Ok n, (with_machine (mkMachine (Http3StateMachine.state (machine st)) (vb n) (len (vb n)) (len (vb n))) st, (rest, None))).
Proof.
  intros Hn Hr Hwf Hw. pose proof (vb_pos n). pose proof (len_nonneg rest).
  assert (got (machine st) = []) as Hg by (unfold got; by rewrite Hw).
  rewrite (varint_run st _ _ (len (vb n))); rewrite ?Hg; cbn [app]; try done.
  - unfold varint_result. rewrite len_app. destruct (Z.ltb_spec (len (vb n) + len rest) (len (vb n))); [lia|].
    rewrite ztake_app_len, Hw, Z.sub_0_r, zdrop_app_len. rewrite <- (app_nil_r (vb n)) at 1. by rewrite read_vb.
  - apply bytes_ok_app. split; [apply bytes_ok_vb|done].
  - intros Hnil. assert (len (vb n ++ rest) = 0) by (by rewrite Hnil). rewrite len_app in *. lia.
  - rewrite len_vb. apply decode_varint_len_first; [apply varint_len_size|by apply varint_len_fits].
  - rewrite len_vb. apply varint_len_size.
Qed.

(** Whether a frame may come on the control stream, [SETTINGS] first. *)
Definition control_allows (init : bool) (ft : Z) : option Http3Error :=
  if init then
    if (ft =? SETTINGS_FRAME_TYPE) || (ft =? DATA_FRAME_TYPE) || (ft =? HEADERS_FRAME_TYPE) || (ft =? PUSH_PROMISE_FRAME_TYPE)
    then Some FrameUnexpected else None
  else if ft =? SETTINGS_FRAME_TYPE then None else Some MissingSettings.

Lemma control_check_spec ft st :
  check_frame_on_control_stream ft st =
  match control_allows (peer_initialized st) ft with
  | Some e => Err e
  | None => Ok (with_peer_initialized true st)
  end.
Proof.
  unfold check_frame_on_control_stream, control_allows. destruct (peer_initialized st) eqn:Hi; cbn [negb].
  - destruct (_ || _); [done|]. f_equal. destruct st. cbn in *. by subst.
  - by destruct (_ =? _).
Qed.

(** The stream after a frame. *)
Definition after_frame (ft : Z) (b : list Z) (st : Http3Stream) : Http3Stream :=
  with_machine (mkMachine Http3StreamState.FrameType (resize_to 1 b) 1 0) (with_frame_type_ (Some ft) (with_peer_initialized true st)).

Lemma between_after ft b st : between st -> bytes_ok b -> between (after_frame ft b st).
Proof.
  intros [[Ht Hq _] _] Hb. split; [split; try done|by eexists]. by apply fresh_varint.
Qed.

(** The type of a frame; [Some] error closes the connection. *)
Lemma round_type st ft rest : between st -> is_vint ft -> bytes_ok rest ->
  control_round (st, (vb ft ++ rest, None) : feed) =
  match control_allows (peer_initialized st) ft with
  | None => (Ok None, (with_machine (mkMachine Http3StreamState.FramePayloadLen (resize_to 1 (vb ft)) 1 0)
                         (with_frame_type_ (Some ft) (with_peer_initialized true st)), (rest, None)))
  | Some e => (Err e, (with_machine (mkMachine Http3StreamState.FrameType (vb ft) (len (vb ft)) (len (vb ft))) st,
                       (rest, Some (to_wire e))))
  end.
Proof.
  intros [[Ht Hq Hs] [b Hm]] Hft Hr. unfold state in Hs. rewrite Hm in Hs. cbn in Hs.
  unfold control_round, state. cbn [fst]. rewrite Hm. cbn [Http3StateMachine.state].
  unfold parse_frame_type, mbind, action_bind. rewrite varint_whole by (rewrite ?Hm; done). rewrite Hm.
  unfold or_close, on_stream, set_frame_type. cbn [stream_type with_machine]. rewrite Ht, control_check_spec.
  cbn [peer_initialized with_machine]. destruct (control_allows (peer_initialized st) ft); [done|].
  by rewrite transition_ok by (unfold MAX_STATE_BUF_SIZE; lia).
Qed.

(** The length of a payload that may be collected. *)
Lemma round_length st b ft n rest : machine st = mkMachine Http3StreamState.FramePayloadLen (resize_to 1 b) 1 0 ->
  bytes_ok b -> frame_type_ st = Some ft -> ft <> DATA_FRAME_TYPE -> 0 <= n <= MAX_STATE_BUF_SIZE ->
  (needs_payload ft = true -> n <> 0) -> bytes_ok rest ->
  control_round (st, (vb n ++ rest, None) : feed) =
  (Ok None, (with_machine (mkMachine Http3StreamState.FramePayload (resize_to n (vb n)) n 0) st, (rest, None))).
Proof.
  intros Hm Hb Hft Hnd Hn Hne Hr. unfold control_round, state. cbn [fst]. rewrite Hm. cbn [Http3StateMachine.state].
  unfold parse_frame_payload_length, mbind, action_bind. unfold MAX_STATE_BUF_SIZE in Hn.
  rewrite varint_whole; [|apply small_vint; lia|done|rewrite Hm; by apply fresh_varint|by rewrite Hm].
  unfold or_close, on_stream, set_frame_payload_len. cbn [frame_type_ with_machine]. rewrite Hft.
  destruct (Z.eqb_spec ft DATA_FRAME_TYPE); [done|].
  assert (needs_payload ft && (n =? 0) = false) as -> by (destruct (needs_payload ft), (Z.eqb_spec n 0); cbn; auto; by destruct Hne).
  by rewrite transition_ok by (unfold MAX_STATE_BUF_SIZE; lia).
Qed.

(** A payload. *)
Lemma round_payload st ft b bs f rest :
  machine st = mkMachine Http3StreamState.FramePayload (resize_to (len bs) b) (len bs) 0 ->
  bytes_ok b -> bytes_ok bs -> frame_type_ st = Some ft -> data_event_triggered st = false ->
  decode_payload ft (len bs) bs = Ok f ->
  control_round (st, (bs ++ rest, None) : feed) =
  (Ok (Some (f, len bs)), (with_machine (mkMachine Http3StreamState.FrameType (resize_to 1 bs) 1 0) st, (rest, None))).
Proof.
  intros Hm Hb Hbs Hft Hq Hd. unfold control_round, state. cbn [fst]. rewrite Hm. cbn [Http3StateMachine.state].
  pose proof (len_nonneg bs). pose proof (len_nonneg rest). pose proof (len_resize_to (len bs) b).
  unfold mbind, action_bind. rewrite parse_frame_payload_close, fill_run by (rewrite Hm; cbn; lia).
  unfold got. rewrite Hm. cbn [write_off buf expected_len]. change (ztake 0 _ ++ bs ++ rest) with (bs ++ rest).
  rewrite len_app. destruct (Z.ltb_spec (len bs + len rest) (len bs)); [lia|].
  rewrite ztake_app_len, (zdrop_all _ (resize_to _ _)), app_nil_r, Z.sub_0_r, zdrop_app_len by lia.
  unfold on_stream, take_payload. rewrite reset_quiet by done. cbn [frame_type_ machine with_machine expected_len buf].
  rewrite Hft. cbn [unwrap mbind outcome_bind]. rewrite Hd. cbn [mbind outcome_bind].
  by rewrite transition_ok by (unfold MAX_STATE_BUF_SIZE; lia).
Qed.

Lemma needs_payload_nonempty f : h3_ok f -> needs_payload (frame_type f) = true -> len (payload f) <> 0.
Proof.
  pose proof vb_pos as Hv. pose proof (@len_nonneg Z) as Hl.
  destruct f as [bs|bs|n|a b c d raw|n bs|n|n|n bs|n bs|]; cbn [frame_type payload]; try done; intros _ _;
    specialize (Hv n); rewrite ?len_app; try specialize (Hl bs); lia.
Qed.

(** One frame of the encoder, when it is allowed. *)
Lemma read_one_frame st f rest : between st -> h3_ok f -> bytes_ok (payload f) -> bytes_ok rest ->
  len (payload f) <= MAX_STATE_BUF_SIZE -> control_allows (peer_initialized st) (frame_type f) = None ->
  read_all_pending st (h3_bytes f ++ rest) =
  let '(fs, e, x) := read_all_pending (after_frame (frame_type f) (payload f) st) rest in
  ((h3_decoded f, len (payload f)) :: fs, e, x).
Proof.
  intros Hst Hf Hpb Hr Hmax Hal. pose proof (header_vints f Hf) as [Hvt Hvl]. pose proof Hst as [[Ht Hq Hs] _].
  assert (frame_type f <> DATA_FRAME_TYPE) as Hnd by (intros E; rewrite E in Hal; by destruct (peer_initialized st)).
  pose proof (len_nonneg (payload f)). pose proof bytes_ok_vb as Hvb.
  rewrite read_all_round by (apply Hst || (unfold h3_bytes; rewrite !bytes_ok_app; auto)).
  unfold h3_bytes. rewrite <- !app_assoc, round_type, Hal by (done || rewrite !bytes_ok_app; auto).
  cbn [app]. set (st1 := with_machine _ (with_frame_type_ _ _)).
  assert (reading st1) as Hr1 by (split; [done|done|split; [by apply fresh_varint|by eexists]]).
  rewrite read_all_round by (done || rewrite !bytes_ok_app; auto).
  rewrite (round_length st1 (vb (frame_type f)) (frame_type f)); try done;
    [|by apply needs_payload_nonempty|by rewrite bytes_ok_app].
  cbn [app]. set (st2 := with_machine _ st1).
  assert (reading st2) as Hr2.
  { split; [done|done|split; [|by eexists]]. split; cbn; [by apply bytes_ok_resize|lia|by apply len_resize_to]. }
  rewrite read_all_round by (done || by rewrite bytes_ok_app).
  rewrite (round_payload st2 (frame_type f) (vb (len (payload f))) (payload f) (h3_decoded f)); try done; [|by apply decode_payload_ok].
  change (with_machine _ st2) with (after_frame (frame_type f) (payload f) st).
  by destruct (read_all_pending _ rest) as [[] ?].
Qed.

(** The frames an endpoint may send on its control stream. *)
Fixpoint control_frames (init : bool) (fs : list Http3Frame) : Prop :=
  match fs with
  | [] => True
  | f :: fs =>
      (h3_ok f /\ bytes_ok (payload f) /\ len (payload f) <= MAX_STATE_BUF_SIZE /\
       control_allows init (frame_type f) = None) /\ control_frames true fs
  end.

Definition handed (f : Http3Frame) : Http3Frame * Z := (h3_decoded f, len (payload f)).

Lemma control_frames_bytes fs : forall init, control_frames init fs -> bytes_ok (concat (map h3_bytes fs)).
Proof.
  induction fs as [|f fs IH]; intros init Hfs; [by apply Forall_nil|]. destruct Hfs as ((_ & Hb & _) & Hfs). cbn.
  unfold h3_bytes. rewrite !bytes_ok_app. split; [auto using bytes_ok_vb|]. by eapply IH.
Qed.

Lemma read_frames_then fs : forall st rest, between st -> control_frames (peer_initialized st) fs -> bytes_ok rest ->
  exists st', between st' /\ peer_initialized st' = (match fs with [] => peer_initialized st | _ => true end) /\
  read_all_pending st (concat (map h3_bytes fs) ++ rest) =
  let '(gs, e, x) := read_all_pending st' rest in (map handed fs ++ gs, e, x).
Proof.
  induction fs as [|f fs IH]; intros st rest Hst Hfs Hr.
  { exists st. split_and!; try done. cbn [map concat app]. by destruct (read_all_pending st rest) as [[] ?]. }
  destruct Hfs as ((Hf & Hb & Hm & Ha) & Hfs). cbn [map concat]. rewrite <- app_assoc.
  rewrite read_one_frame by (done || (apply bytes_ok_app; split; [by eapply control_frames_bytes|done])).
  destruct (IH (after_frame (frame_type f) (payload f) st) rest) as (st' & Hst' & Hi & ->); [by apply between_after|done..|].
  exists st'. split_and!; [done|by destruct fs|]. by destruct (read_all_pending st' rest) as [[] ?].
Qed.
