(* ===== verification/H3Transport.v ===== *)
(** * The HTTP/3 control stream on the transport

    [H3StreamProps] proves the parser of a control stream on a list of pending
    bytes.  Here the result is carried to every transport that shows such a
    list, and the transport is instantiated with the reassembly buffer of
    [RecvBuf]: the frames of a control stream come out whole and in order,
    however the packets that carry the stream are cut, reordered and
    repeated. *)

From S2P Require Import Prelude.
From S2P Require Import Error.
From S2P Require Import Codec.
From S2P Require Import RangeBuf.
From S2P Require Import RecvBuf.
From S2P Require Import Concurrency.
From S2P Require Import Wire.
From S2P Require Import Http3.
From S2P Require Import H3Frame.
From S2P Require Import H3Stream.
From S2P Require Import H3StreamProps.
Import Http3StateMachine Http3Stream.

(** ** What the parser relies on *)

(** [shows s p c]: the transport in state [s] has the bytes [p] to read, and has
    been closed with [c].  A read takes what fits; when there is nothing it says
    so, or reads nothing at the end of the stream.  Closing a closed connection
    is an error. *)
Class LawfulSource (S : Type) `{StreamSource S} (shows : S -> list Z -> option Z -> Prop) : Prop := {
  shown_read : forall s p c n, shows s p c -> 0 < n -> exists s', shows s' (zdrop n p) c /\
    ((p = [] /\ src_read n s = (Err Done, s')) \/ exists fin, src_read n s = (Ok (ztake n p, fin), s'));
  shown_close : forall s p c code, shows s p c -> exists s',
    match c with
    | None => src_close code s = (Ok tt, s') /\ shows s' p (Some code)
    | Some _ => src_close code s = (Err Done, s') /\ shows s' p c
    end;
}.

Section Simulation.
Context {S : Type} `{LawfulSource S shows}.

(** The parser on the transport does what it does on the list. *)
Definition simulates {A} (m : action Http3Error (Http3Stream * S) A) (m' : action Http3Error (Http3Stream * feed) A) : Prop :=
  forall st s p c, shows s p c -> exists s', let '(r, (st', (p', c'))) := m' (st, (p, c)) in
    m (st, s) = (r, (st', s')) /\ shows s' p' c'.

Lemma sim_fill : simulates read_and_fill_buffer read_and_fill_buffer.
Proof.
  intros st s p c Hs. unfold read_and_fill_buffer. destruct (Http3StateMachine.ready (machine st)) eqn:Hrd; [by exists s|].
  destruct (Z.leb_spec (write_off (machine st)) (expected_len (machine st))); [|by exists s].
  destruct (Z.leb_spec (expected_len (machine st)) (len (buf (machine st)))); [|by exists s]. cbn [andb].
  unfold Http3StateMachine.ready in Hrd. apply Z.eqb_neq in Hrd.
  destruct (shown_read s p c (expected_len (machine st) - write_off (machine st)) Hs) as (s' & Hs' & Hrd'); [lia|].
  exists s'. destruct p as [|x p]; cbn [src_read feed_source].
  - unfold ztake, zdrop in Hrd', Hs'. rewrite drop_nil in Hs'. rewrite take_nil in Hrd'.
    rewrite decide_True by done. destruct Hrd' as [[_ ->]|[fin ->]]; [by rewrite decide_True by done|].
    rewrite len_nil, Z.add_0_r. cbn [app]. rewrite ztake_zdrop.
    unfold Http3StateMachine.increase_off, Http3StateMachine.ready. cbn [expected_len write_off machine with_machine Http3StateMachine.state buf].
    rewrite Z.add_0_r. destruct (Z.eqb_spec (write_off (machine st)) (expected_len (machine st))); [done|].
    split; [|done]. by destruct st as [? ? ? ? []].
  - destruct Hrd' as [[? _]|[fin ->]]; [done|].
    by destruct (negb (Http3StateMachine.ready _)).
Qed.

Lemma sim_bind {A B} m m' (f : A -> action Http3Error (Http3Stream * S) B) f' :
  simulates m m' -> (forall a, simulates (f a) (f' a)) -> simulates (m ≫= f) (m' ≫= f').
Proof.
  intros Hm Hf st s p c Hs. destruct (Hm st s p c Hs) as [s' Hm']. unfold mbind, action_bind.
  destruct (m' (st, (p, c))) as [[a|e|] [st1 [p1 c1]]]; destruct Hm' as [-> Hs']; [by apply Hf|by exists s'..].
Qed.

Lemma sim_ret {A} (a : A) : simulates (mret a) (mret a).
Proof. intros st s p c Hs. by exists s. Qed.

Lemma sim_on_stream {A} (f : Http3Stream -> res3 A * Http3Stream) : simulates (on_stream f) (on_stream f).
Proof. intros st s p c Hs. exists s. unfold on_stream. by destruct (f st). Qed.

Lemma sim_close {A} e : simulates (A := A) (close_with e) (close_with e).
Proof.
  intros st s p c Hs. destruct (shown_close s p c (to_wire e) Hs) as [s' Hc]. exists s'.
  unfold close_with, on_source, mbind, action_bind. cbn [src_close feed_source].
  destruct c; destruct Hc as [-> Hs']; by cbn.
Qed.

(** An error handler. *)
Lemma sim_catch {A} (m : action Http3Error (Http3Stream * S) A) m' (h : Http3Error -> action Http3Error (Http3Stream * S) A) h' :
  simulates m m' -> (forall e, simulates (h e) (h' e)) ->
  simulates (fun x => match m x with (Err e, x) => h e x | r => r end) (fun x => match m' x with (Err e, x) => h' e x | r => r end).
Proof.
  intros Hm Hh st s p c Hs. destruct (Hm st s p c Hs) as [s' Hm'].
  destruct (m' (st, (p, c))) as [[a|e|] [st1 [p1 c1]]]; destruct Hm' as [-> Hs']; [by exists s'|by apply Hh|by exists s'].
Qed.

Lemma sim_ext {A} (m n : action Http3Error (Http3Stream * S) A) m' n' :
  (forall x, m x = n x) -> (forall x, m' x = n' x) -> simulates n n' -> simulates m m'.
Proof. intros H1 H2 Hn st s p c Hs. rewrite H1, H2. by apply Hn. Qed.

Lemma sim_fail {A} e : simulates (A := A) (fail e) (fail e).
Proof. intros st s p c Hs. by exists s. Qed.

Lemma sim_or_close {A} (f : Http3Stream -> res3 A * Http3Stream) : simulates (or_close f) (or_close f).
Proof. apply (sim_catch _ _ close_with close_with); [apply sim_on_stream|intros; apply sim_close]. Qed.

Lemma sim_varint : simulates read_and_parse_varint read_and_parse_varint.
Proof.
  apply sim_bind; [apply sim_fill|intros _].
  eapply (sim_ext _ (fun x => match on_machine parse_varint x with
      | (Err e, x) => (match e with H3Done => read_and_fill_buffer ;; on_machine parse_varint | _ => fail e end) x | r => r end)
    _ (fun x => match on_machine parse_varint x with
      | (Err e, x) => (match e with H3Done => read_and_fill_buffer ;; on_machine parse_varint | _ => fail e end) x | r => r end)).
  1,2: intros x; unfold parse_or_refill; by destruct (on_machine parse_varint x) as [[|[]|] ?].
  apply sim_catch; [apply sim_on_stream|].
  intros []; try apply sim_fail. apply sim_bind; [apply sim_fill|intros; apply sim_on_stream].
Qed.

Lemma sim_payload : simulates parse_frame_payload parse_frame_payload.
Proof.
  eapply (sim_ext _ (fun x => match (read_and_fill_buffer ;; on_stream take_payload) x with
      | (Err e, x) => (match e with H3Done => fail H3Done | _ => close_with e end) x | r => r end)
    _ (fun x => match (read_and_fill_buffer ;; on_stream take_payload) x with
      | (Err e, x) => (match e with H3Done => fail H3Done | _ => close_with e end) x | r => r end)).
  1,2: intros x; unfold parse_frame_payload; set (m := read_and_fill_buffer ;; on_stream take_payload);
       change (parse_frame_payload_inner x) with (m x); by destruct (m x) as [[|[]|] ?].
  apply sim_catch; [apply sim_bind; [apply sim_fill|intros; apply sim_on_stream]|].
  intros []; try apply sim_close. apply sim_fail.
Qed.

Lemma sim_type : simulates parse_uni_stream_type parse_uni_stream_type.
Proof.
  apply sim_bind; [apply sim_varint|]. intros n. apply sim_bind; [apply sim_or_close|intros _; apply sim_ret].
Qed.

Lemma sim_round : simulates control_round control_round.
Proof.
  intros st s p c Hs. unfold control_round. cbn [fst]. destruct (state st); try (by exists s); revert st s p c Hs;
    (apply sim_bind; [|intros; apply sim_ret]); [| |apply sim_payload];
    (apply sim_bind; [apply sim_varint|intros; apply sim_or_close]).
Qed.

Lemma sim_loop n : forall st s p c, shows s p c -> exists s', let '(fs, e, (st', (p', c'))) := control_loop n (st, (p, c)) in
  control_loop n (st, s) = (fs, e, (st', s')) /\ shows s' p' c'.
Proof.
  induction n as [|n IH]; intros st s p c Hs; [by exists s|]. cbn [control_loop].
  destruct (sim_round st s p c Hs) as [s1 Hr].
  destruct (control_round (st, (p, c))) as [[o|e|] [st1 [p1 c1]]]; destruct Hr as [-> Hs1]; [|by exists s1..].
  destruct (IH st1 s1 p1 c1 Hs1) as [s2 Hl]. exists s2.
  destruct (control_loop n (st1, (p1, c1))) as [[fs e] [st2 [p2 c2]]]; destruct Hl as [-> Hs2]. by destruct o.
Qed.

Lemma sim_control n st s p c : shows s p c -> exists s', let '(fs, e, (st', (p', c'))) := process_control n (st, (p, c)) in
  process_control n (st, s) = (fs, e, (st', s')) /\ shows s' p' c'.
Proof.
  intros Hs. unfold process_control. cbn [fst].
  assert (exists s1, let '(r, (st1, (p1, c1))) := if decide (state st = Http3StreamState.StreamType)
      then (parse_uni_stream_type ;; mret tt) (st, (p, c)) else (Ok tt, (st, (p, c))) in
    (if decide (state st = Http3StreamState.StreamType) then (parse_uni_stream_type ;; mret tt) (st, s) else (Ok tt, (st, s))) =
    (r, (st1, s1)) /\ shows s1 p1 c1) as [s1 Ht].
  { case_decide; [|by exists s]. revert st s p c Hs H1. intros. by apply (sim_bind _ _ _ _ sim_type (fun _ => sim_ret tt)). }
  destruct (if decide _ then _ else (Ok tt, (st, (p, c)))) as [[[]|e|] [st1 [p1 c1]]]; destruct Ht as [-> Hs1]; [|by exists s1..].
  cbn [fst]. destruct (stream_type st1) as [[]|]; try (by exists s1). by apply sim_loop.
Qed.

End Simulation.

(** ** The reassembly buffer as the transport *)

#[global] Instance recv_source : StreamSource (RecvBuf.RecvBuf * option Z) := {|
  src_read n := fun '(rb, c) => let '(r, rb) := RecvBuf.read n rb in (r, (rb, c));
  src_readable := fun '(rb, _) => RecvBuf.ready rb;
  src_close code := fun '(rb, c) =>
    match c with Some _ => (Err Done, (rb, c)) | None => (Ok tt, (rb, Some code)) end;
|}.

(** ** A connection that serves the peer's control stream *)

(** Packets bring parts of the stream; in between the application polls. *)
Inductive happening :=
| Arrive (offset : Z) (bytes : list Z)
| Poll.

(** The stream is served, was closed by an HTTP/3 error after some frames, was
    refused by the transport, or the code panicked. *)
Inductive served :=
| Serving (frames : list (Http3Frame * Z)) (st : Http3Stream) (rb : RecvBuf.RecvBuf)
| Closed (frames : list (Http3Frame * Z)) (e : Http3Error) (code : option Z)
| Refused (e : Error)
| Crashed.

Definition poll_fuel (rb : RecvBuf.RecvBuf) : nat :=
  Z.to_nat (2 * (RecvBuf.recv_off rb - RecvBuf.read_off rb) + 2).

Fixpoint serve (evs : list happening) (fs : list (Http3Frame * Z)) (st : Http3Stream) (rb : RecvBuf.RecvBuf) : served :=
  match evs with
  | [] => Serving fs st rb
  | Arrive o bytes :: evs =>
      match RecvBuf.write o bytes false rb with
      | (Ok _, rb) => serve evs fs st rb
      | (Err e, _) => Refused e
      | (Panic, _) => Crashed
      end
  | Poll :: evs =>
      match process_control (poll_fuel rb) (st, (rb, None)) with
      | (gs, Err H3Done, (st, (rb, _))) => serve evs (fs ++ gs) st rb
      | (gs, Err e, (_, (_, c))) => Closed (fs ++ gs) e c
      | _ => Crashed
      end
  end.

Section Recv.
Variable St : Z -> Z.
Hypothesis St_bytes : forall x, is_u8 (St x).

Import RangeBuf RecvBuf.

(** A buffer that has been given the offsets [D], below its limit [md]. *)
Record buffers (D : Z -> Prop) (md : Z) (rb : RecvBuf) : Prop := {
  bf_healthy : healthy St rb (slice St 0 (read_off rb));
  bf_set : forall i, 0 <= i -> delivered rb i <-> D i;
  bf_limit : max_data rb = md;
  bf_fin : fin_off rb = None;
}.

(** The bytes [p] can be read, up to the first missing one. *)
Record recv_shows (D : Z -> Prop) (md : Z) (x : RecvBuf * option Z) (p : list Z) (c : option Z) : Prop := {
  rs_buffers : buffers D md x.1;
  rs_closed : x.2 = c;
  rs_bytes : p = slice St (read_off x.1) (len p);
  rs_there : forall i, read_off x.1 <= i < read_off x.1 + len p -> delivered x.1 i;
  rs_missing : ~ delivered x.1 (read_off x.1 + len p);
}.

#[local] Instance recv_lawful D md : LawfulSource (RecvBuf * option Z) (recv_shows D md).
Proof.
  split.
  - intros [rb c0] p c n [[Hh HD Hmd0 Hfin0] Hc Hp Ht Hm] Hn. cbn in *. subst c0. pose proof (len_nonneg p) as Hlp.
    pose proof Hh as [Hi He _ Hl Hf _]. pose proof (inv_read_off _ _ Hi) as Hro.
    pose proof (recv_read_spec St rb n Hi He ltac:(lia) ltac:(lia) Hf) as Hr. destruct (ready rb).
    + destruct Hr as (k & rb' & -> & Hk & Hmx & Hi' & Hro' & Hv & Hfin & He' & Hs' & Hmd & Hfc & Hdel).
      assert (k <= len p) as Hkp.
      { destruct (Z.le_gt_cases k (len p)); [done|]. destruct Hm. apply Hdel; [lia|]. left. lia. }
      assert (k = Z.min n (len p)) as ->.
      { destruct Hmx as [->|Hmx]; [lia|]. destruct (Z.eq_dec k (len p)) as [->|]; [lia|]. destruct Hmx. apply Ht. lia. }
      exists (rb', c). split.
      * assert (len (zdrop n p) = len p - Z.min n (len p)) as Hlz
          by (unfold len, zdrop in *; rewrite length_drop; lia).
        split; cbn; try done.
        -- split; [|intros; by rewrite Hdel, HD|congruence..].
           split; [done|done|rewrite Hs'; apply Hh|by rewrite Hmd, Hv|done|done].
        -- rewrite Hro', Hlz. rewrite Hp at 1. destruct (Z.le_gt_cases n (len p)).
           ++ rewrite Z.min_l by lia. by rewrite slice_zdrop by lia.
           ++ rewrite Z.min_r, Z.sub_diag, slice_nil by lia. apply zdrop_all. rewrite len_slice; lia.
        -- intros i Hx. rewrite Hro', Hlz in Hx. apply Hdel; [lia|]. apply Ht. lia.
        -- rewrite Hro', Hlz, Hdel by lia. by replace (read_off rb + Z.min n (len p) + (len p - Z.min n (len p))) with (read_off rb + len p) by lia.
      * right. eexists. cbn. do 3 f_equal. symmetry. rewrite Hp at 1. destruct (Z.le_gt_cases n (len p)).
        -- rewrite Z.min_l, slice_ztake by lia. done.
        -- rewrite Z.min_r, ztake_all by (rewrite ?len_slice; lia). done.
    + destruct Hr as [Hr Hnd]. assert (p = []) as -> by (destruct p; [done|]; destruct Hnd; apply Ht; rewrite len_cons in *; pose proof (len_nonneg p); lia).
      exists (rb, c). split; [unfold zdrop; by rewrite drop_nil|]. left. split; [done|]. cbn. by rewrite Hr.
  - intros [rb c0] p c code [Hb Hc Hp Ht Hm]. cbn in *. subst c0.
    destruct c; [exists (rb, Some z)|exists (rb, Some code)]; by split.
Qed.

(** There is such a list: what a large enough read returns. *)
Lemma recv_shows_some D md rb : buffers D md rb -> exists p, recv_shows D md (rb, None) p None /\ read_off rb + len p <= recv_off rb.
Proof.
  intros Hb. pose proof (bf_healthy _ _ _ Hb) as Hh. pose proof (healthy_inv _ _ _ Hh) as Hi. pose proof (inv_read_off _ _ Hi) as Hro.
  destruct (run_read St rb _ (recv_off rb - read_off rb + 1) [] Hh ltac:(lia)) as (rb' & n & _ & Hh' & Hn & Hro' & Hmx & Hdel).
  assert (forall i, read_off rb <= i < read_off rb + n -> delivered rb i) as Ht by (intros i Hx; apply Hdel; [lia|left; lia]).
  assert (forall i, delivered rb i -> i < recv_off rb \/ i < read_off rb) as Hup.
  { intros i [?|Hst]; [lia|]. apply (stored_ge _ _ _ _ _ (inv_chunks _ _ Hi)) in Hst. lia. }
  assert (read_off rb + n <= recv_off rb).
  { destruct (Z.eq_dec n 0); [lia|]. pose proof (Hup (read_off rb + n - 1) (Ht (read_off rb + n - 1) ltac:(lia))) as [?|?]; lia. }
  exists (slice St (read_off rb) n). rewrite len_slice by lia. split; [|done]. split; rewrite ?len_slice by lia; cbn; auto.
  destruct Hmx; [lia|done].
Qed.

(** A packet adds its offsets. *)
Lemma write_buffers D md rb o bytes : buffers D md rb -> 0 <= o -> bytes = slice St o (len bytes) ->
  o + len bytes <= md -> exists rb', write o bytes false rb = (Ok tt, rb') /\ read_off rb' = read_off rb /\
  buffers (fun i => D i \/ o <= i < o + len bytes) md rb'.
Proof.
  intros [Hh HD Hmd Hfin] Ho Hb Hm. pose proof Hh as [Hi He Hsh Hl Hf _]. pose proof (len_nonneg bytes).
  pose proof (recv_write_spec St rb o bytes false Hi Ho Hb ltac:(lia)) as Hw.
  destruct (write o bytes false rb) as [[[]|e|] rb']; [|exfalso|done].
  - exists rb'. destruct Hw as [Hi' _ Hr Hv Hfo (He' & Hs' & Hf') Hdel]. split; [done|]. split; [done|]. unfold max_data in *.
    split; [|intros; by rewrite Hdel, HD|unfold max_data; congruence|congruence].
    split; unfold max_data; rewrite ?Hr, ?Hf'; auto; try congruence. rewrite Hv. destruct ((len bytes =? 0) && _); lia.
  - destruct Hw as [_ [[_ Hx]|[_ [(fo & Hx & _)|[? _]]]]]; [lia|congruence|done].
Qed.

(** ** The control stream *)

Section Control.
Variable id : Z.
Hypothesis id_uni : is_bidi id = false.
Hypothesis St_control : St 0 = HTTP3_CONTROL_STREAM_TYPE.

(** The stream once its type is known. *)
Definition control_start : Http3Stream :=
  with_machine (mkMachine Http3StreamState.FrameType (resize_to 1 [0]) 1 0)
    (with_stream_type (Some Http3StreamType.Control) (Http3Stream.new id false)).

Lemma control_start_between : between control_start.
Proof.
  unfold control_start, Http3Stream.new. rewrite id_uni. split; [split; try done|by eexists].
  apply fresh_varint. repeat constructor; unfold is_u8; lia.
Qed.

Lemma new_varint_wf : varint_wf (machine (Http3Stream.new id false)).
Proof.
  unfold Http3Stream.new. rewrite id_uni. split; cbn.
  - repeat constructor; unfold is_u8; lia.
  - by left.
Qed.

Lemma process_first n p : bytes_ok p ->
  process_control n (Http3Stream.new id false, (HTTP3_CONTROL_STREAM_TYPE :: p, None)) = control_loop n (control_start, (p, None)).
Proof.
  intros Hp. unfold process_control. rewrite decide_True by (unfold Http3Stream.new; by rewrite id_uni).
  unfold parse_uni_stream_type. unfold mbind, action_bind.
  change (HTTP3_CONTROL_STREAM_TYPE :: p) with (vb 0 ++ p).
  rewrite varint_whole by (done || apply new_varint_wf || (unfold Http3Stream.new; by rewrite id_uni)).
  unfold or_close, on_stream, set_stream_type. cbn [Http3StreamType.from_id]. rewrite transition_ok by (unfold MAX_STATE_BUF_SIZE; lia).
  cbn [mret action_ret fst stream_type with_machine with_stream_type]. done.
Qed.

Lemma process_nothing n : process_control n (Http3Stream.new id false, ([], None)) = ([], Err H3Done, (Http3Stream.new id false, ([], None))).
Proof.
  unfold process_control. rewrite decide_True by (unfold Http3Stream.new; by rewrite id_uni).
  unfold parse_uni_stream_type. unfold mbind, action_bind. rewrite varint_run_none; [|apply new_varint_wf|unfold Http3Stream.new; by rewrite id_uni].
  do 2 f_equal. unfold Http3Stream.new. by rewrite id_uni.
Qed.

Lemma process_later n st x : reading st -> process_control n (st, x : feed) = control_loop n (st, x).
Proof.
  intros [Ht _ Hs]. unfold process_control. cbn [fst]. rewrite decide_False by (intros E; by rewrite E in Hs). cbn [fst]. by rewrite Ht.
Qed.

Definition first_missing (D : Z -> Prop) (M : Z) : Prop := 0 <= M /\ (forall i, 0 <= i < M -> D i) /\ ~ D M.

Lemma first_missing_unique D M M' : first_missing D M -> first_missing D M' -> M = M'.
Proof.
  intros (H1 & H2 & H3) (H4 & H5 & H6). destruct (Z.lt_trichotomy M M') as [?|[?|?]]; [|done|];
    [destruct H3; apply H5; lia|destruct H6; apply H2; lia].
Qed.

Lemma shows_missing D md x p c : recv_shows D md x p c -> first_missing D (read_off x.1 + len p).
Proof.
  intros [Hb _ _ Ht Hm]. pose proof (bf_set _ _ _ Hb) as HD. pose proof (len_nonneg p).
  pose proof (inv_read_off _ _ (healthy_inv _ _ _ (bf_healthy _ _ _ Hb))). split_and!; [lia| |by rewrite <- HD by lia].
  intros i Hx. apply HD; [lia|]. destruct (Z.lt_ge_cases i (read_off x.1)); [by left|apply Ht; lia].
Qed.

(** Between polls: nothing was read, or what has been handed over is what the
    bytes read so far hold. *)
Record progress (D : Z -> Prop) (md : Z) (fs : list (Http3Frame * Z)) (st : Http3Stream) (rb : RecvBuf) : Prop := {
  pg_buffers : buffers D md rb;
  pg_read : (fs = [] /\ st = Http3Stream.new id false /\ read_off rb = 0) \/
    (1 <= read_off rb /\
     read_all_pending control_start (slice St 1 (read_off rb - 1)) = (fs, Err H3Done, (st, ([], None))));
}.

Lemma bytes_ok_slice o n : bytes_ok (slice St o n).
Proof. apply Forall_forall. intros y Hy. apply list_elem_of_In, in_map_iff in Hy as (x & <- & _). apply St_bytes. Qed.

Lemma start_resumes p : bytes_ok p ->
  match read_all_pending control_start p with
  | (fs, Err H3Done, (st', (p', c'))) =>
      p' = [] /\ c' = None /\ reading st' /\ forall q, bytes_ok q ->
        read_all_pending control_start (p ++ q) = let '(gs, e, x) := read_all_pending st' q in (fs ++ gs, e, x)
  | (fs, Err e, (st', (p', c'))) =>
      c' = Some (to_wire e) /\ forall q, bytes_ok q -> read_all_pending control_start (p ++ q) = (fs, Err e, (st', (p' ++ q, c')))
  | _ => False
  end.
Proof.
  intros Hp. apply (loop_resumes (loop_fuel control_start p)); [|apply control_start_between|done].
  unfold loop_fuel. pose proof (work_nonneg control_start p). lia.
Qed.

(** The stream as it stands after the bytes [1 .. read_off) of it. *)
Lemma typed_process D md fs st rb p : progress D md fs st rb -> recv_shows D md (rb, None) p None ->
  read_off rb + len p <= recv_off rb -> 1 <= read_off rb + len p ->
  exists gs e x, process_control (poll_fuel rb) (st, (p, None)) = (gs, e, x) /\
    read_all_pending control_start (slice St 1 (read_off rb + len p - 1)) = (fs ++ gs, e, x).
Proof.
  intros [Hb Hpg] Hs Hle H1. pose proof (rs_bytes _ _ _ _ _ Hs) as Hp. cbn in Hp. pose proof (bytes_ok_slice (read_off rb) (len p)) as Hbp.
  rewrite <- Hp in Hbp. destruct Hpg as [(-> & -> & Hro)|(Hro & Hall)].
  - rewrite Hro in *. destruct p as [|x p]; [change (1 <= 0) in H1; lia|]. rewrite (len_cons x p) in *. pose proof (len_nonneg p).
    rewrite slice_app in Hp by lia. injection Hp as -> Hp. change (Z.of_nat 0 + 0) with 0 in *. rewrite St_control in *.
    rewrite process_first by (by apply Forall_cons_1 in Hbp as [_ ?]).
    rewrite (loop_fuel_enough _ (loop_fuel control_start p)); [|apply control_start_between|by apply Forall_cons_1 in Hbp as [_ ?]| |].
    + fold (read_all_pending control_start p). replace (0 + (1 + len p) - 1) with (len p) by lia.
      replace (slice St 1 (len p)) with p by exact Hp. destruct (read_all_pending control_start p) as [[gs e] x]. by exists gs, e, x.
    + unfold work, poll_fuel. rewrite decide_False by done. lia.
    + unfold loop_fuel. pose proof (work_nonneg control_start p). lia.
  - pose proof (start_resumes _ (bytes_ok_slice 1 (read_off rb - 1))) as Hres. rewrite Hall in Hres.
    destruct Hres as (_ & _ & Hst & Hres). rewrite process_later by done. pose proof (work_nonneg st p). pose proof (len_nonneg p).
    rewrite (loop_fuel_enough _ (loop_fuel st p)) by (done || unfold loop_fuel, poll_fuel, work in *; case_decide; lia).
    fold (read_all_pending st p). specialize (Hres p Hbp). rewrite Hp in Hres at 1.
    replace (slice St (read_off rb) (len p)) with (slice St (1 + (read_off rb - 1)) (len p)) in Hres by (f_equal; lia).
    rewrite <- slice_app in Hres by lia. replace (read_off rb - 1 + len p) with (read_off rb + len p - 1) in Hres by lia.
    rewrite Hres. destruct (read_all_pending st p) as [[gs e] x]. by exists gs, e, x.
Qed.

Lemma poll_spec D md fs st rb : progress D md fs st rb -> exists M, first_missing D M /\
  match process_control (poll_fuel rb) (st, (rb, None)) with
  | (gs, Err H3Done, (st', (rb', _))) => progress D md (fs ++ gs) st' rb' /\ read_off rb' = M
  | (gs, Err e, (_, (_, c))) => c = Some (to_wire e) /\ 1 <= M /\ exists x,
      read_all_pending control_start (slice St 1 (M - 1)) = (fs ++ gs, Err e, x)
  | _ => False
  end.
Proof.
  intros Hpg. destruct (recv_shows_some D md rb (pg_buffers _ _ _ _ _ Hpg)) as (p & Hs & Hle).
  pose proof (shows_missing _ _ _ _ _ Hs) as HM. cbn in HM. exists (read_off rb + len p). split; [done|].
  destruct (sim_control (poll_fuel rb) st (rb, None) p None Hs) as ([rb' c0] & Hsim).
  destruct (Z.le_gt_cases 1 (read_off rb + len p)) as [H1|H0].
  - destruct (typed_process _ _ _ _ _ _ Hpg Hs Hle H1) as (gs & e & [st' [p' c']] & Hrun & Hall).
    rewrite Hrun in Hsim. destruct Hsim as [-> Hs'].
    pose proof (start_resumes _ (bytes_ok_slice 1 (read_off rb + len p - 1))) as Hres. rewrite Hall in Hres.
    destruct e as [[]|e|]; [|done]. pose proof (rs_closed _ _ _ _ _ Hs') as Hc. cbn in Hc. subst c0.
    destruct e; destruct Hres as [Hr1 Hr2]; try (split_and!; [done|done|by eexists]).
    destruct Hr2 as [-> _]. subst p'. pose proof (shows_missing _ _ _ _ _ Hs') as HM'. cbn in HM'. rewrite len_nil, Z.add_0_r in HM'.
    pose proof (first_missing_unique _ _ _ HM HM') as E. split; [|done]. split; [apply Hs'|]. right. rewrite <- E. done.
  - pose proof (len_nonneg p). pose proof (inv_read_off _ _ (healthy_inv _ _ _ (bf_healthy _ _ _ (pg_buffers _ _ _ _ _ Hpg)))).
    assert (p = []) as -> by (apply len_zero_nil; lia). rewrite len_nil in *.
    destruct (pg_read _ _ _ _ _ Hpg) as [(-> & -> & Hro)|[? _]]; [|lia]. rewrite process_nothing in Hsim.
    destruct Hsim as [-> Hs']. pose proof (shows_missing _ _ _ _ _ Hs') as HM'. cbn in HM'. rewrite len_nil, Z.add_0_r in HM'.
    pose proof (first_missing_unique _ _ _ HM HM') as E. split; [|done]. split; [apply Hs'|]. left. split_and!; [done|done|lia].
Qed.

(** ** Histories *)

Definition arrived (evs : list happening) (i : Z) : Prop :=
  Exists (fun e => match e with Arrive o bytes => o <= i < o + len bytes | Poll => False end) evs.

(** A packet carries bytes of the stream, within the receiver's limit. *)
Definition event_ok (md : Z) (e : happening) : Prop :=
  match e with
  | Arrive o bytes => 0 <= o /\ o + len bytes <= md /\ bytes = slice St o (len bytes)
  | Poll => True
  end.

Lemma progress_ext D D' md fs st rb : (forall i, 0 <= i -> D i <-> D' i) -> progress D md fs st rb -> progress D' md fs st rb.
Proof.
  intros HD [[Hh Hs Hl Hf] Hr]. split; [|done]. split; auto. intros i Hx. by rewrite Hs, HD.
Qed.

Lemma serve_spec evs : forall D md fs st rb, progress D md fs st rb -> Forall (event_ok md) evs ->
  match serve evs fs st rb with
  | Serving fs' st' rb' => progress (fun i => D i \/ arrived evs i) md fs' st' rb'
  | Closed fs' e c => c = Some (to_wire e) /\ e <> H3Done /\ exists k x, 0 <= k /\
      (forall i, 0 <= i <= k -> D i \/ arrived evs i) /\ read_all_pending control_start (slice St 1 k) = (fs', Err e, x)
  | _ => False
  end.
Proof.
  induction evs as [|[o bytes|] evs IH]; intros D md fs st rb Hpg Hok; cbn [serve].
  - eapply progress_ext; [|done]. intros i _. unfold arrived. rewrite Exists_nil. tauto.
  - apply Forall_cons_1 in Hok as [(Ho & Hm & Hb) Hok]. destruct Hpg as [Hbf Hpg].
    destruct (write_buffers _ _ _ _ _ Hbf Ho Hb Hm) as (rb' & -> & Hro & Hbf').
    specialize (IH _ md fs st rb' (Build_progress _ _ _ _ _ Hbf' ltac:(by rewrite Hro)) Hok).
    destruct (serve evs fs st rb') as [| | |]; [| |done..].
    + eapply progress_ext; [|exact IH]. intros i _. unfold arrived. rewrite Exists_cons. tauto.
    + destruct IH as (H1 & H2 & k & x & H3 & H4 & H5). split_and!; try done. exists k, x. split_and!; try done.
      intros i Hx. unfold arrived. rewrite Exists_cons. specialize (H4 i Hx). unfold arrived in H4. tauto.
  - apply Forall_cons_1 in Hok as [_ Hok]. destruct (poll_spec _ _ _ _ _ Hpg) as (M & (HM0 & HM & _) & Hp).
    destruct (process_control (poll_fuel rb) (st, (rb, None))) as [[gs [[]|e|]] [st' [rb' c]]]; [|done].
    assert (e <> H3Done -> c = Some (to_wire e) /\ 1 <= M /\ (exists x, read_all_pending control_start (slice St 1 (M - 1)) = (fs ++ gs, Err e, x)) ->
      c = Some (to_wire e) /\ e <> H3Done /\ exists k x, 0 <= k /\
      (forall i, 0 <= i <= k -> D i \/ arrived (Poll :: evs) i) /\ read_all_pending control_start (slice St 1 k) = (fs ++ gs, Err e, x)) as Hclose.
    { intros He (H1 & H2 & x & H3). split_and!; try done. exists (M - 1), x. split_and!; [lia| |done]. intros i Hx. left. apply HM. lia. }
    destruct e; try (by apply Hclose). destruct Hp as [Hpg' _]. specialize (IH _ _ _ _ _ Hpg' Hok).
    destruct (serve evs (fs ++ gs) st' rb') as [| | |]; [| |done..].
    + eapply progress_ext; [|exact IH]. intros i _. unfold arrived. rewrite Exists_cons. tauto.
    + destruct IH as (H1 & H2 & k & x & H3 & H4 & H5). split_and!; try done. exists k, x. split_and!; try done.
      intros i Hx. unfold arrived. rewrite Exists_cons. specialize (H4 i Hx). unfold arrived in H4. tauto.
Qed.

Lemma serve_app evs evs' : forall fs st rb, serve (evs ++ evs') fs st rb =
  match serve evs fs st rb with Serving fs st rb => serve evs' fs st rb | r => r end.
Proof.
  induction evs as [|[o bytes|] evs IH]; intros fs st rb; [done|..]; cbn [app serve].
  - by destruct (write o bytes false rb) as [[|[]|] ?].
  - by destruct (process_control _ _) as [[gs [[]|[]|]] [? []]].
Qed.

Lemma progress_start md mw : 0 <= md < 18446744073709551616 -> progress (fun _ => False) md [] (Http3Stream.new id false) (RecvBuf.new md mw).
Proof.
  intros Hmd. split; [|by left]. split; try done.
  - change (slice St 0 (read_off (RecvBuf.new md mw))) with (@nil Z). by apply healthy_new.
  - intros i Hi. unfold delivered. cbn. split; [|done]. intros [?|(? & ? & [] & _)]. lia.
Qed.

(** After a last poll, the parser stands where it would stand had it been given
    all bytes before the first missing one at once. *)
Lemma serve_polled md mw evs M : 0 <= md < 18446744073709551616 -> Forall (event_ok md) evs -> first_missing (arrived evs) M ->
  match serve (evs ++ [Poll]) [] (Http3Stream.new id false) (RecvBuf.new md mw) with
  | Serving fs st rb => read_off rb = M /\ ((M = 0 /\ fs = [] /\ st = Http3Stream.new id false) \/
      1 <= M /\ read_all_pending control_start (slice St 1 (M - 1)) = (fs, Err H3Done, (st, ([], None))))
  | Closed fs e c => c = Some (to_wire e) /\ e <> H3Done /\ 1 <= M /\ exists x,
      read_all_pending control_start (slice St 1 (M - 1)) = (fs, Err e, x)
  | _ => False
  end.
Proof.
  intros Hmd Hok HM. rewrite serve_app. pose proof (serve_spec evs _ md [] _ _ (progress_start md mw Hmd) Hok) as Hs.
  destruct (serve evs [] _ _) as [fs st rb|fs e c| |]; [| |done..].
  - apply (progress_ext _ (arrived evs)) in Hs; [|intros i _; tauto]. cbn [serve].
    destruct (poll_spec _ _ _ _ _ Hs) as (M' & HM' & Hp). rewrite (first_missing_unique _ _ _ HM' HM) in Hp.
    destruct (process_control (poll_fuel rb) (st, (rb, None))) as [[gs [[]|e|]] [st' [rb' c]]]; [|done].
    destruct e; try (destruct Hp as (H1 & H2 & H3); by split_and!). destruct Hp as [[_ Hr] Hro]. split; [done|]. rewrite <- Hro.
    destruct Hr as [(? & ? & ?)|[? ?]]; [by left|by right].
  - destruct Hs as (-> & He & k & x & Hk & Hd & Hall). split_and!; try done.
    + destruct HM as (HM0 & _ & HM1). destruct (Z.eq_dec M 0) as [->|]; [|lia]. destruct HM1. destruct (Hd 0) as [[]|?]; [lia|done].
    + pose proof (start_resumes _ (bytes_ok_slice 1 k)) as Hres. rewrite Hall in Hres. destruct x as [st' [p' c']].
      assert (k <= M - 1) as HkM.
      { destruct HM as (HM0 & _ & HM1). destruct (Z.le_gt_cases M k); [|lia]. destruct HM1. destruct (Hd M) as [[]|?]; [lia|done]. }
      assert (slice St 1 (M - 1) = slice St 1 k ++ slice St (1 + k) (M - 1 - k)) as -> by (rewrite <- slice_app by lia; f_equal; lia).
      destruct e; try done; destruct Hres as [_ Hres]; eexists; by apply Hres, bytes_ok_slice.
Qed.

End Control.
End Recv.

Import RangeBuf RecvBuf.

(** The control stream read in one go, from the list of all its bytes. *)
Lemma at_once St id M : (forall x, is_u8 (St x)) -> is_bidi id = false -> St 0 = HTTP3_CONTROL_STREAM_TYPE -> 1 <= M ->
  process_control (Z.to_nat (2 * M + 1)) (Http3Stream.new id false, (slice St 0 M, None)) =
  read_all_pending (control_start id) (slice St 1 (M - 1)).
Proof.
  intros Hb Hid H0 HM. pose proof (bytes_ok_slice St Hb 1 (M - 1)) as Hs.
  assert (slice St 0 M = HTTP3_CONTROL_STREAM_TYPE :: slice St 1 (M - 1)) as ->.
  { replace M with (1 + (M - 1)) at 1 by lia. rewrite slice_app by lia. change (slice St 0 1) with [St 0]. by rewrite H0. }
  rewrite process_first by done. apply loop_fuel_enough; [by apply control_start_between|done| |].
  - unfold work. rewrite len_slice by lia. case_decide; lia.
  - unfold loop_fuel. pose proof (work_nonneg (control_start id) (slice St 1 (M - 1))). lia.
Qed.


(** The bytes of a control stream. *)
Definition control_bytes (fs : list Http3Frame) : list Z := vb HTTP3_CONTROL_STREAM_TYPE ++ concat (map h3_bytes fs).

Lemma control_bytes_tail St fs rest : slice St 0 (len (control_bytes fs ++ rest)) = control_bytes fs ++ rest ->
  St 0 = HTTP3_CONTROL_STREAM_TYPE /\
  slice St 1 (len (control_bytes fs ++ rest) - 1) = concat (map h3_bytes fs) ++ rest /\ 1 <= len (control_bytes fs ++ rest).
Proof.
  unfold control_bytes. change (vb HTTP3_CONTROL_STREAM_TYPE) with [0]. cbn [app]. rewrite len_cons. set (l := concat _ ++ rest).
  pose proof (len_nonneg l). rewrite slice_app by lia. intros [= H0 Hl]. split_and!; [done| |lia].
  by replace (1 + len l - 1) with (len l) by lia.
Qed.



(** ** Witnesses *)

(** The peer sends SETTINGS with a table capacity of 64 and GOAWAY 8. *)
Definition demo_frames : list Http3Frame := [Settings None (Some 64) None None None; GoAway 8].
Definition demo_stream (l : list Z) (x : Z) : Z := nth (Z.to_nat x) l 0.
Definition demo_events : list happening :=
  [Arrive 3 [1; 64; 64; 7; 1]; Poll; Arrive 0 [0; 4; 3]; Poll; Arrive 2 [3; 1]; Arrive 7 [1; 8]].

Lemma demo_bytes l x : bytes_ok l -> is_u8 (demo_stream l x).
Proof.
  intros Hl. unfold demo_stream. destruct (nth_in_or_default (Z.to_nat x) l 0) as [Hin| ->]; [|unfold is_u8; lia].
  by apply (proj1 (Forall_forall _ _) Hl), list_elem_of_In.
Qed.

Lemma demo_arrived i : 0 <= i -> arrived demo_events i <-> i < 9.
Proof.
  intros Hi. unfold arrived, demo_events. rewrite !Exists_cons, Exists_nil. unfold len. cbn [length]. lia.
Qed.

Lemma demo_missing : first_missing (arrived demo_events) 9.
Proof. split; [lia|]. split; [intros i ?; apply demo_arrived; lia|]. rewrite demo_arrived; lia. Qed.

Ltac demo_ok := repeat (apply Forall_cons; split; [try done; split_and!; try done; vm_compute; done|]); by apply Forall_nil.



